(* ===== verification/_CoqProject ===== *)
-Q . S2P
Prelude.v
PyStr.v
PyFloat.v
PyDecimal.v
Ids.v
PyJson.v
JsonText.v
JsonFacts.v
PyBytes.v
Renderer.v
PyPath.v
Axes.v
Scorer.v
Features.v
Selection.v
Embeddings.v
Store.v
MemoryDb.v
MemoryService.v
MemorySplit.v
Queue.v
QueueFacts.v
PyTime.v
Decisions.v
DecisionsFacts.v
Prepare.v
PrepareFacts.v
PrepareSamples.v
Learner.v
LearnerFacts.v
Jobs.v
JobsFacts.v
Policy.v
PolicyFacts.v
Catalog.v
CatalogFacts.v
Resolver.v
ResolverFacts.v
PolicySamples.v
Breaker.v
BreakerFacts.v
Deployment.v
DeploymentFacts.v
Transcripts.v
TranscriptsFacts.v
Annotations.v
Sql.v
Spend.v
SpendFacts.v
SpendTable.v
SpendTableFacts.v
Reconcile.v
ReconcileFacts.v
Evidence.v
EvidenceFacts.v
Corpus.v
CorpusFacts.v
Nominate.v
NominateFacts.v
Creation.v
LearnerService.v
LearnerServiceFacts.v
LearnerWorker.v
M2kValues.v
M2kReplay.v
M2kControl.v
M2kConsole.v
M2kControlFacts.v
M2kControlSamples.v
M2kConsoleFacts.v
M2kConsoleSamples.v
M2kGraph.v
Diagnostics.v
DiagnosticsFacts.v
Curation.v
CurationFacts.v
CurationSamples.v
CuratorProvider.v
Portability.v
PortabilityFacts.v
