(* ===== verification/Prelude.v ===== *)
(** * The nocturne-memory verification library: root file

    The program ([src/src/spine]) is a memory service for coding agents.  It
    keeps small texts about a person's projects ("memories"), decides once per
    conversation thread which of them an agent is shown, learns from what
    became of them, and never changes the library without a consent card
    decided by a person (or by the passive setting).  A second, separate
    program ([src/infra/billing-breaker]) detaches the project from billing
    when its budget is spent.

    ** How the parts interact

    - A memory is a head row with an append-only log of revisions.  Every write
      of a head is a compare-and-set that appends its revision in the same
      savepoint ([db/memory.py]).
    - [memory/service.py] creates, splits, merges, patches and searches heads;
      [queue/service.py] wraps proposals in cards and enacts the decision of a
      card by calling it.
    - [inject/service.py] prepares a thread: it stamps the thread, loads
      candidate heads, scores them ([inject/scorer.py]) under the active scorer
      configuration, logs every decision and returns the rendered block
      ([inject/renderer.py]).  [inject/decisions.py] commits what the agent
      kept, takes later feedback and restores a committed block.  An event may
      be classified as test traffic ([inject/annotations.py]).
    - [learner/evidence.py] reads those logs as graded examples,
      [learner/model.py] fits a challenger to them, and [learner/service.py]
      stores a winner as a proposal that a person may activate; requests for
      it queue as jobs that [learner/worker.py] drains.  [m2k/service.py] is
      where a person simulates and forces scorer values, activates a proposal
      and reads the console.
    - [curation/service.py] runs a pass over a Palace when enough was written:
      a report ([curation/diagnostics.py]), a verdict of a language model for
      each finding ([curation/provider.py]), a card in the queue for each
      verdict that would change something.
    - [spend/service.py] is the ledger of what was paid, and
      [spend/reconciliation.py] compares it with the broker's own account.
    - [jobs.py] keeps named recipes with a schedule; [model_policy.py] chooses
      the chat model of a thread; [transcripts] backs journals up;
      [portability.py] moves the memories of a principal to another Palace.

    ** Files and what they model

    Ground:
    - Prelude: results ([Ok]/[Err]), lists, the tactics and hint databases.
    - PyStr, PyFloat, PyDecimal, PyPath, PyTime, PyJson, JsonText, PyBytes:
      the parts of Python and of its standard library the program uses (strings
      as code points, binary64 in the source's order of evaluation, decimals
      with their context, POSIX paths, ISO timestamps, JSON values, the JSON
      reader and writer, base64 and UTF-8).  JsonFacts has the round trips.
    - Store: the tables of [db/models.py] with their constraints, the database
      as finite maps by primary key, and the transaction monad.

    Components (each [XFacts] file holds the theorems of [X]):
    - Ids: [ids.py].  Renderer: [inject/renderer.py].  Axes: [inject/axes.py].
    - Scorer, Features, Selection: [inject/scorer.py]; the configuration and its
      validation, the features and score of a candidate, the budgeted choice.
    - Embeddings: [embeddings/__init__.py], validation of vectors.
    - MemoryDb: [db/memory.py].  MemoryService, MemorySplit: [memory/service.py].
    - Queue, QueueFacts: [queue/service.py], [queue/contracts.py].
    - Prepare, PrepareFacts, PrepareSamples: [inject/service.py].
    - Decisions, DecisionsFacts: [inject/decisions.py].
    - Annotations: [inject/annotations.py].
    - Learner, LearnerFacts: [learner/model.py].
    - Jobs, JobsFacts: [jobs.py].
    - Policy, Catalog, Resolver, with their facts, PolicySamples:
      [model_policy.py] (choice from a table, the catalog client, the resolver).
    - Transcripts, TranscriptsFacts: [transcripts/service.py], [contracts.py].
    - Breaker, BreakerFacts: [billing_breaker.py], [main.py].
      Deployment, DeploymentFacts: [deployment_checks.py], [deploy.sh].
    - Evidence, EvidenceFacts: [learner/evidence.py].  Nominate, NominateFacts:
      [curation/axes.py].  Creation: [learner/creation.py].
    - Corpus, CorpusFacts (the bounded corpus) and LearnerService,
      LearnerServiceFacts (runs, proposals, receipts, jobs):
      [learner/service.py].  LearnerWorker: [learner/worker.py].
    - Sql: numeric columns, grouping and ordering as the reports use them.
      Spend, SpendFacts (receipts and invoices), SpendTable, SpendTableFacts
      (the report): [spend/service.py], [spend/contracts.py].  Reconcile,
      ReconcileFacts: [spend/reconciliation.py] over the view of
      [spend/views.py].
    - M2kValues, M2kReplay (simulations, slices, auditions), M2kControl with
      M2kControlFacts and M2kControlSamples (forcing and activating), M2kConsole
      with M2kConsoleFacts and M2kConsoleSamples (the console), M2kGraph (the
      memory graph): [m2k/service.py], [m2k/contracts.py].
    - Diagnostics, DiagnosticsFacts: [curation/diagnostics.py].  Curation,
      CurationFacts, CurationSamples: [curation/service.py], [progress.py] and
      the ticks of migration 0019.  CuratorProvider: [curation/provider.py],
      [curation/policy.py].
    - Portability, PortabilityFacts: [portability.py].

    State corresponds to the code as follows.  A service object holds only a
    session factory, so its state is the database: a call is a function of the
    tables, the clock and the random draws that returns a result and the new
    tables, and a transaction that raises gives back the tables it was given.
    [Jobs] and [Resolver] are transition systems, because the claims there are
    about interleavings: a step is one transaction, or one stretch of code
    between two awaits.  [Prepare] takes the other sessions as commits between
    the attempts of its retry loop and as statements they may disturb.
    [Curation] runs in a monad of its own, in which other sessions commit
    between the statement groups of a pass.

    ** What the theorems show

    - Injection: the choice keeps the budget, respects pins and scores and
      partitions the candidates; a thread is prepared once, whatever the number
      of attempts; the block cannot be escaped by the text of a memory.
    - Memories: a compare-and-set has one winner and the history is complete.
    - Consent: a card is decided once, the invariant of cards, targets and
      heads is kept by every operation, what is denied stays denied.
    - Decisions: a commit is atomic and exact, feedback is applied exactly
      once, outcomes move only forward, restore returns what was committed.
    - Jobs: no two running runs, no occurrence twice, a due job can start.
    - Models: the frontier is the Pareto front; each policy picks what it says;
      a thread keeps its model.
    - Learner: splits, fits and replay meet their declarative descriptions.
    - Transcripts and annotations: exact, replay-safe, append-only.
    - Breaker: billing is called exactly on a valid notification at or over
      budget; its lines read back; the access audit is sound and complete.
    - Evidence: what [Prepare] logs can be read back and replays to the served
      score, float for float; hygiene removes exactly the tainted gates; the
      corpus is whole gates within its maximum and starves no thread.
    - Learner service: a retrain changes no configuration that exists and
      activates none; the cadence counts from the run that saw the most; a job
      is settled once and the queue of jobs drains; an axis is never lost or
      revived; the worker never drops the newest compaction.
    - Spend: a batch or an invoice is appended whole or refused, and nothing is
      rewritten; the report conserves the ledger and always answers; a
      reconciliation compares growth since the first observation, exactly.
    - Scorer controls: whatever is forced, activated or retrained, one
      configuration serves and the activation log chains to it; a repeated
      request changes nothing; forced values read back; a force passes only
      with the digest of a simulation of the state it meets.
    - Console and graph: the countdown is zero exactly when the learner would
      run; agreement is the learner's replay; a console shows its principal's
      rows only; the graph is closed and lists each similar pair once.
    - Curator: clusters are connected components; whatever the judge answers
      and other sessions commit, a pass ends unlocked and told, accounts for
      every finding within its limit, and moves its cursor only on success;
      the OpenRouter judge returns valid verdicts for at most two receipts and
      changes nothing else, so the passes' assumption on their judge holds.
    - Archives: an export imports into an empty Palace as exactly the same
      tables; an import is all or nothing and adds only its principal's rows.
    - [M2kControlSamples], [M2kConsoleSamples], [CurationSamples] and
      [PortabilityFacts] also hold
      runs that show where the code departs from what it means to do.

    ** Bounds and fuel

    - [for] loops with a constant range count down on that constant (the
      learner's gradient and coordinate passes, the forty steps of an axis's
      ternary search, [Prepare]'s three attempts).
    - The corpus loop has the number of gates as fuel: a pass that takes no
      gate ends it ([corpus_balanced] shows the fuel is enough).
    - The JSON reader recurses on the length of its text plus one;
      [JsonText.loads_total] shows it is never used up.
    - Decoding of base64 and UTF-8 is structural on the list of bytes, and the
      paged full scans of a table are structural on the list of its rows.
    - Integers of columns are [Z]; where a column or a decimal has a width
      (int4 and int8 columns, the exponent limits of [decimal]) the check is
      written out.

    ** Parameters

    Classes stand for what the repository calls and does not contain: [Unicode]
    and [Casefold] (tables of the Unicode database), [Libm] ([pow] of the C
    library), [PyRepr], [DecimalLog] and [DecimalDigits] (transcendental and
    printing functions of [decimal]), [Tokenizer], [EmbeddingProvider],
    [FullText] (PostgreSQL's text search), [Postgres] and [Concurrency] (errors
    PostgreSQL may raise when sessions overlap), [AxisDecoder], [Sha256],
    [IsoDatetime], [Croniter], the Cloud Billing [gateway].  A law, where a
    class has one, is documented behaviour of that code.
    [Collation] (the order of text in the database), [LibmSquare] ([pow(x, 2)]),
    [LibmPow] and [LibmPowers] ([pow(2, -n)] of an integer is a power of two),
    [VectorDistance] (pgvector) and [TextHash] ([hashtextextended]) likewise.
    [RowCodec] is [row_to_json] and [json_populate_recordset] of PostgreSQL.
    For the curator [Bystanders] is what other sessions commit, [VerdictEndpoint]
    the network side of the judge with pydantic's parser, and [ExceptionText]
    the text of an exception; [VerdictProvider] is an interface of the source,
    with two implementations in [CuratorProvider].

    ** Not modelled

    The HTTP routers, [main.py], problem documents, authentication and the
    settings (glue over FastAPI and pydantic); database sessions, engines and
    migrations (DDL text); scripts, tests and evidence files.  Of
    [model_policy.py] the explanation sentences and logging.
    Triggers of the database (those that record creation outcomes, and the
    append-only guards, which no modelled operation would trip); the life of the
    advisory locks of the learner and the controls (a call that takes one is a
    serial step; the curator's lock is modelled); the static descriptors of the
    console; the start and stop of the curator's worker task; the read-only
    reports of [vitals] and the scans beside it; the rest of the Symphony bridge
    and the routes (glue over the operations above).
*)
From stdpp Require Export base tactics option list gmap strings.
From Stdlib Require Export ZArith NArith Lia ZifyBool Sorted Permutation.

(** ** Results: a Python call returns a value or raises *)

Inductive res (E A : Type) : Type :=
  | Ok (a : A)
  | Err (e : E).
Arguments Ok {E A} a.
Arguments Err {E A} e.

(** The built-in exceptions the pure components raise; the message is the
    source's literal, without its interpolated values. *)
Inductive pyexn :=
  | ValueError (msg : string)
  | KeyError (key : list N)
  | TypeError (msg : string)
  | AttributeError (msg : string)
  | OverflowError (msg : string)
  | IndexError (msg : string)
  | DecimalException (signal : string)
  | ZeroDivisionError.

#[export] Instance res_ret E : MRet (res E) := fun A a => Ok a.
#[export] Instance res_bind E : MBind (res E) :=
  fun A B f m => match m with Ok a => f a | Err e => Err e end.
#[export] Instance res_fmap E : FMap (res E) :=
  fun A B f m => match m with Ok a => Ok (f a) | Err e => Err e end.

Definition is_ok {E A} (r : res E A) : bool :=
  match r with Ok _ => true | Err _ => false end.

(** [if not b: raise e]. *)
Definition guard_ {E} (b : bool) (e : E) : res E unit :=
  if b then Ok tt else Err e.

(** [for x in l: ...], collecting the results of the body. *)
Fixpoint res_map {E A B} (f : A → res E B) (l : list A) : res E (list B) :=
  match l with
  | [] => Ok []
  | x :: l' => y ← f x; ys ← res_map f l'; Ok (y :: ys)
  end.

(** A loop that threads an accumulator and may raise. *)
Fixpoint res_fold {E A S} (f : S → A → res E S) (s : S) (l : list A) : res E S :=
  match l with
  | [] => Ok s
  | x :: l' => s' ← f s x; res_fold f s' l'
  end.

(** ** Python's [sorted]: a stable sort by a boolean order *)

Section sort.
Context {A : Type} (le : A → A → bool).

Fixpoint insert_sorted (x : A) (l : list A) : list A :=
  match l with
  | [] => [x]
  | y :: l' => if le x y then x :: l else y :: insert_sorted x l'
  end.

Definition sort_by (l : list A) : list A := foldr insert_sorted [] l.
End sort.

(** [list.index]-free numbering: [enumerate(l, start=k)]. *)
Fixpoint enumerate_from {A} (k : Z) (l : list A) : list (Z * A) :=
  match l with
  | [] => []
  | x :: l' => (k, x) :: enumerate_from (k + 1)%Z l'
  end.

Definition zsum (l : list Z) : Z := foldr Z.add 0%Z l.

(** Association lists: Python dicts whose order of insertion is observed. *)
Section assoc.
Context {K V : Type} `{EqDecision K}.

Fixpoint aget (k : K) (l : list (K * V)) : option V :=
  match l with
  | [] => None
  | (k', v) :: l' => if decide (k = k') then Some v else aget k l'
  end.

(** [d[k] = v]: overwrite in place, or append a new key. *)
Fixpoint aset (k : K) (v : V) (l : list (K * V)) : list (K * V) :=
  match l with
  | [] => [(k, v)]
  | (k', v') :: l' => if decide (k = k') then (k', v) :: l' else (k', v') :: aset k v l'
  end.
End assoc.

(** [d = defaultdict(list)] filled by [d[key(x)].append(x)]. *)
Definition group_by {K A} `{EqDecision K} (key : A → K) (l : list A) : list (K * list A) :=
  foldl (λ d x, aset (key x) (default [] (aget (key x) d) ++ [x]) d) [] l.

(** [tuple(f(x, y) for x, y in zip(l, l', strict=True))]. *)
Fixpoint zip_strict {A B C} (f : A → B → C) (l : list A) (l' : list B) : res pyexn (list C) :=
  match l, l' with
  | [], [] => Ok []
  | x :: l, y :: l' => zs ← zip_strict f l l'; Ok (f x y :: zs)
  | _, _ => Err (ValueError "zip() arguments differ in length")
  end.

(** [len(l) == len(set(l))]. *)
Definition nodupb {A} `{EqDecision A} (l : list A) : bool := bool_decide (NoDup l).

(** Python's [min(l, key=...)]: the first element of least key. *)
Definition min_by {A} (le : A → A → bool) (x : A) (l : list A) : A :=
  foldl (fun best y => if le best y then best else y) x l.

(** ** Automation *)

Create HintDb spine.
Create Rewrite HintDb spine_simpl.

Lemma bind_Ok {E A B} (m : res E A) (f : A → res E B) b :
  (m ≫= f) = Ok b ↔ ∃ a, m = Ok a ∧ f a = Ok b.
Proof. destruct m; cbn; split; [by eauto|by intros (? & [= ->] & ?)|done|by intros (? & ? & ?)]. Qed.

Lemma bind_Err {E A B} (m : res E A) (f : A → res E B) e :
  (m ≫= f) = Err e ↔ m = Err e ∨ ∃ a, m = Ok a ∧ f a = Err e.
Proof.
  destruct m; cbn; split.
  - eauto.
  - by intros [?|(? & [= ->] & ?)].
  - intros [= ->]. by left.
  - intros [[= ->]|(? & ? & ?)]; done.
Qed.

Lemma guard_Ok {E} (b : bool) (e : E) u : guard_ b e = Ok u ↔ b = true.
Proof. by destruct b, u. Qed.

Lemma guard_Err {E} (b : bool) (e e' : E) : guard_ b e = Err e' ↔ b = false ∧ e = e'.
Proof. destruct b; cbn; split; [done|by intros [??]|by intros [= ->]|by intros [_ ->]]. Qed.

Lemma Ok_bind {E A B} (a : A) (f : A → res E B) : (Ok a ≫= f) = f a.
Proof. done. Qed.

Lemma guard_true {E B} (b : bool) (e : E) (f : unit → res E B) :
  b = true → (guard_ b e ≫= f) = f tt.
Proof. by intros ->. Qed.

(** Unlike [injection], this leaves the two values as they are. *)
Lemma Ok_inj {E A} (a b : A) : @Ok E A a = Ok b → a = b.
Proof. congruence. Qed.

(** Take apart a successful run: binds, guards, conditionals. *)
Ltac ok_step :=
  match goal with
  | H : mbind _ _ = Ok _ |- _ => apply bind_Ok in H as (? & ? & ?)
  | H : Ok _ = Ok _ |- _ => apply Ok_inj in H; try subst
  | H : Err _ = Ok _ |- _ => discriminate H
  | H : Ok _ = Err _ |- _ => discriminate H
  | H : guard_ _ _ = Ok _ |- _ => apply guard_Ok in H
  | H : (if ?b then _ else _) = Ok _ |- _ => destruct b eqn:?
  | H : match ?x with _ => _ end = Ok _ |- _ => destruct x eqn:?
  end.
Ltac ok_inv := repeat (progress (ok_step; try discriminate)); simplify_eq.

(** Boolean hypotheses to propositions. *)
Ltac breflect :=
  repeat match goal with
  | H : negb _ = true |- _ => apply negb_true_iff in H
  | H : negb _ = false |- _ => apply negb_false_iff in H
  | H : (_ && _)%bool = true |- _ => apply andb_true_iff in H as [? ?]
  | H : (_ || _)%bool = false |- _ => apply orb_false_iff in H as [? ?]
  | H : bool_decide _ = true |- _ => apply bool_decide_eq_true_1 in H
  | H : bool_decide _ = false |- _ => apply bool_decide_eq_false_1 in H
  end.

Lemma res_map_Forall2 {E A B} (f : A → res E B) l ys :
  res_map f l = Ok ys ↔ Forall2 (λ x y, f x = Ok y) l ys.
Proof.
  revert ys; induction l as [|x l IH]; intros ys; cbn; split.
  - intros [= <-]; constructor.
  - intros H; inv H; done.
  - intros H. apply bind_Ok in H as (y & Hy & H). apply bind_Ok in H as (ys' & Hys & [= <-]).
    constructor; [done|]. by apply IH.
  - intros H; inv H. rewrite H2; cbn. apply IH in H4. by rewrite H4.
Qed.

Lemma res_map_unit {E A} (f : A → res E unit) l :
  (∃ us, res_map f l = Ok us) ↔ ∀ x, x ∈ l → f x = Ok tt.
Proof.
  rewrite <- Forall_forall. split.
  - intros [us H%res_map_Forall2]. induction H as [|x [] l us Hx _ IH]; by constructor.
  - intros H. exists ((λ _, tt) <$> l). apply res_map_Forall2. induction H; cbn; by constructor.
Qed.

Lemma res_map_Err {E A B} (f : A → res E B) l e : res_map f l = Err e → ∃ x, x ∈ l ∧ f x = Err e.
Proof.
  induction l as [|x l IH]; cbn; [done|]. intros [H|(y & _ & H)]%bind_Err.
  - exists x. split; [by left|done].
  - apply bind_Err in H as [(z & Hz & ?)%IH|(? & _ & H)]; [|done]. exists z. split; [by right|done].
Qed.

Lemma res_map_total {E A B} (f : A → res E B) l :
  (∀ x, x ∈ l → ∃ y, f x = Ok y) → ∃ ys, res_map f l = Ok ys.
Proof.
  induction l as [|x l IH]; intros H; [by exists []|].
  destruct (H x) as [y Hy]; [by left|]. destruct IH as [ys Hys]; [intros; apply H; by right|].
  exists (y :: ys). cbn. by rewrite Hy, Hys.
Qed.

Lemma res_map_length {E A B} (f : A → res E B) l ys :
  res_map f l = Ok ys → length ys = length l.
Proof. intros H%res_map_Forall2. symmetry. by eapply Forall2_length. Qed.

Lemma res_map_perm {E A B} (f : A → res E B) l1 l2 ys :
  Permutation l1 l2 → res_map f l1 = Ok ys → ∃ zs, res_map f l2 = Ok zs ∧ Permutation ys zs.
Proof.
  intros Hp. revert ys. induction Hp as [|x l1 l2 _ IH|x y l|l1 l2 l3 _ IH1 _ IH2]; intros ys H.
  - injection H as <-. by exists [].
  - apply res_map_Forall2, Forall2_cons_inv_l in H as (y & ys' & Hy & Hys & ->).
    destruct (IH ys') as (zs & Hz & ?); [by apply res_map_Forall2|].
    exists (y :: zs). split; [|by constructor]. apply res_map_Forall2. constructor; [done|].
    by apply res_map_Forall2.
  - apply res_map_Forall2, Forall2_cons_inv_l in H as (a & ys' & Ha & H & ->).
    apply Forall2_cons_inv_l in H as (b & zs & Hb & H & ->).
    exists (b :: a :: zs). split; [|apply perm_swap].
    apply res_map_Forall2. by repeat constructor.
  - destruct (IH1 _ H) as (zs & Hz & ?). destruct (IH2 _ Hz) as (ws & ? & ?).
    exists ws. split; [done|]. by etrans.
Qed.

(** *** The sort *)

Section sort_facts.
Context {A : Type} (le : A → A → bool) (P : A → Prop).
Hypothesis le_total : ∀ x y, P x → P y → le x y = true ∨ le y x = true.
Hypothesis le_trans : ∀ x y z, P x → P y → P z →
  le x y = true → le y z = true → le x z = true.

Lemma insert_sorted_perm x l : Permutation (insert_sorted le x l) (x :: l).
Proof using Type.
  induction l as [|y l IH]; cbn; [done|].
  destruct (le x y); [done|]. rewrite IH. apply perm_swap.
Qed.

Lemma sort_by_perm l : Permutation (sort_by le l) l.
Proof using Type.
  induction l as [|x l IH]; cbn; [done|]. by rewrite insert_sorted_perm, IH.
Qed.

Lemma sort_by_Forall (Q : A → Prop) l : Forall Q l → Forall Q (sort_by le l).
Proof using Type. intros H. by rewrite sort_by_perm. Qed.

Lemma insert_sorted_sorted x l :
  P x → Forall P l → StronglySorted (λ a b, le a b = true) l →
  StronglySorted (λ a b, le a b = true) (insert_sorted le x l).
Proof using le_total le_trans.
  intros Hx HP. induction 1 as [|y l Hs IH Hy]; cbn.
  - constructor; constructor.
  - apply Forall_cons in HP as [HPy HPl]. destruct (le x y) eqn:E.
    + constructor; [by constructor|]. constructor; [done|].
      rewrite Forall_forall in *. intros z Hz. eapply (le_trans x y z); eauto.
    + constructor; [by apply IH|]. rewrite insert_sorted_perm. constructor; [|done].
      destruct (le_total x y Hx HPy); congruence.
Qed.

Lemma sort_by_sorted l :
  Forall P l → StronglySorted (λ a b, le a b = true) (sort_by le l).
Proof using le_total le_trans.
  induction 1 as [|x l Hx Hl IH]; cbn; [constructor|].
  apply insert_sorted_sorted; [done| |done]. by apply sort_by_Forall.
Qed.

Lemma sorted_perm_unique l1 l2 :
  (∀ x y, x ∈ l1 → y ∈ l1 → le x y = true → le y x = true → x = y) →
  StronglySorted (λ a b, le a b = true) l1 →
  StronglySorted (λ a b, le a b = true) l2 →
  Permutation l1 l2 → l1 = l2.
Proof using Type.
  intros Hanti Hs1. revert l2 Hanti.
  induction Hs1 as [|x l1 Hs1 IH Hx]; intros l2 Hanti Hs2 Hp.
  { by apply Permutation_nil in Hp. }
  destruct Hs2 as [|y l2 Hs2 Hy].
  { symmetry in Hp. by apply Permutation_nil in Hp. }
  assert (x = y) as ->.
  { assert (Hxy : x ∈ y :: l2) by (rewrite <- Hp; left).
    assert (Hyx : y ∈ x :: l1) by (rewrite Hp; left).
    apply elem_of_cons in Hxy as [|Hxy]; [done|].
    apply elem_of_cons in Hyx as [|Hyx]; [done|].
    rewrite Forall_forall in Hx, Hy.
    apply Hanti; [left|by right|auto|auto]. }
  f_equal. apply IH; [|done|by apply Permutation_cons_inv in Hp].
  intros a b Ha Hb. apply Hanti; by right.
Qed.

(** Two permutations of one list sort to the same list when ties cannot
    occur between distinct elements: the order of the input is lost. *)
Lemma sort_by_perm_eq l1 l2 :
  Forall P l1 → Permutation l1 l2 →
  (∀ x y, x ∈ l1 → y ∈ l1 → le x y = true → le y x = true → x = y) →
  sort_by le l1 = sort_by le l2.
Proof using le_total le_trans.
  intros HP Hp Hanti. apply sorted_perm_unique.
  - intros x y Hx Hy.
    apply Hanti; by eapply (elem_of_Permutation_proper _ _ _ (sort_by_perm l1)).
  - by apply sort_by_sorted.
  - apply sort_by_sorted. by rewrite <- Hp.
  - by rewrite (sort_by_perm l1), (sort_by_perm l2).
Qed.

Lemma sort_by_id l :
  StronglySorted (λ a b, le a b = true) l → sort_by le l = l.
Proof using Type.
  induction 1 as [|x l Hs IH Hx]; [done|]. unfold sort_by in *; cbn. rewrite IH.
  destruct l as [|y l]; [done|]. cbn. apply Forall_cons in Hx as [Hle _]. by rewrite Hle.
Qed.
End sort_facts.

(** *** Numbering and sums *)

Lemma enumerate_from_length {A} k (l : list A) : length (enumerate_from k l) = length l.
Proof. revert k; induction l; intros k; cbn; auto. Qed.

Lemma enumerate_from_snd {A} k (l : list A) : (enumerate_from k l).*2 = l.
Proof. revert k; induction l; intros k; cbn; f_equal; auto. Qed.

Lemma enumerate_from_app {A} k (l1 l2 : list A) :
  enumerate_from k (l1 ++ l2) =
  enumerate_from k l1 ++ enumerate_from (k + Z.of_nat (length l1))%Z l2.
Proof.
  revert k; induction l1 as [|x l1 IH]; intros k; cbn [app enumerate_from length].
  - by rewrite Z.add_0_r.
  - rewrite IH. do 3 f_equal. lia.
Qed.

Lemma zsum_app l1 l2 : zsum (l1 ++ l2) = (zsum l1 + zsum l2)%Z.
Proof. induction l1; cbn in *; [done|]. unfold zsum in *. cbn. lia. Qed.

Lemma zsum_cons x l : zsum (x :: l) = (x + zsum l)%Z.
Proof. done. Qed.

Lemma zsum_perm l1 l2 : Permutation l1 l2 → zsum l1 = zsum l2.
Proof. induction 1; cbn in *; unfold zsum in *; cbn; lia. Qed.

Lemma zsum_nonneg l : Forall (λ x, 0 ≤ x)%Z l → (0 ≤ zsum l)%Z.
Proof. induction 1; cbn in *; unfold zsum in *; cbn; lia. Qed.

Section assoc_facts.
Context {K V : Type} `{EqDecision K}.
Implicit Types l : list (K * V).

Lemma aget_aset_eq k v l : aget k (aset k v l) = Some v.
Proof.
  induction l as [|[k' v'] l IH]; cbn; [by rewrite decide_True|].
  destruct (decide (k = k')) eqn:E; cbn; rewrite E; done.
Qed.

Lemma aget_aset_ne k k' v l : k ≠ k' → aget k' (aset k v l) = aget k' l.
Proof.
  intros Hne. induction l as [|[k2 v2] l IH]; cbn; [by rewrite decide_False|].
  destruct (decide (k = k2)) as [->|]; cbn; case_decide; congruence.
Qed.

Lemma aget_Some_elem k v l : aget k l = Some v → (k, v) ∈ l.
Proof.
  induction l as [|[k' v'] l IH]; cbn; [done|].
  case_decide; [intros [= ->]; subst; left|]. intros; right; auto.
Qed.

Lemma aget_None k l : aget k l = None ↔ k ∉ l.*1.
Proof.
  induction l as [|[k' v] l IH]; cbn; [split; [intros _; apply not_elem_of_nil|done]|].
  rewrite not_elem_of_cons. case_decide; [split; [done|by intros [? _]]|]. rewrite IH. intuition.
Qed.

Lemma aget_elem k v l : NoDup l.*1 → aget k l = Some v ↔ (k, v) ∈ l.
Proof.
  intros Hnd. split; [apply aget_Some_elem|]. induction l as [|[k' v'] l IH]; [by intros ?%elem_of_nil|].
  apply NoDup_cons in Hnd as [Hk Hnd]. cbn. intros [[= <- <-]|Hin]%elem_of_cons; [by rewrite decide_True|].
  case_decide as E; [|by apply IH]. subst. destruct Hk. apply list_elem_of_fmap. by exists (k', v).
Qed.

Lemma aset_keys k v l : is_Some (aget k l) → (aset k v l).*1 = l.*1.
Proof.
  induction l as [|[k' v'] l IH]; cbn; [by intros []|]. case_decide; cbn; [done|].
  intros Hk. by rewrite IH.
Qed.

Lemma aset_fresh k v l : k ∉ l.*1 → aset k v l = l ++ [(k, v)].
Proof.
  induction l as [|[k' v'] l IH]; cbn; [done|]. intros [Hne Hk]%not_elem_of_cons.
  rewrite decide_False by done. by rewrite IH.
Qed.

(** Filling a dict from keys that must not repeat. *)
Lemma res_fold_fresh {E A} (key : A → K) (val : A → V) (e : E) (xs : list A) l r :
  NoDup l.*1 →
  res_fold (λ m x, match aget (key x) m with Some _ => Err e | None => Ok (aset (key x) (val x) m) end) l xs
    = Ok r ↔ NoDup (l.*1 ++ (key <$> xs)) ∧ r = l ++ ((λ x, (key x, val x)) <$> xs).
Proof.
  revert l. induction xs as [|x xs IH]; intros l Hl; cbn.
  { rewrite !app_nil_r. split; [by intros [= ->]|by intros [_ ->]]. }
  destruct (aget (key x) l) eqn:E1.
  - cbn. split; [done|]. intros [Hnd _]. apply aget_Some_elem in E1. exfalso.
    apply NoDup_app in Hnd as (_ & Hd & _). apply (Hd (key x)); [|left].
    apply list_elem_of_fmap. by exists (key x, v).
  - apply aget_None in E1. cbn. rewrite aset_fresh by done. rewrite IH.
    + rewrite fmap_app, <- !app_assoc. done.
    + rewrite fmap_app. apply NoDup_app. split_and!; [done| |apply NoDup_singleton].
      cbn. intros k Hk ->%list_elem_of_singleton. done.
Qed.
End assoc_facts.

Lemma aset_values {K A} `{EqDecision K} (k : K) (x : A) (d : list (K * list A)) :
  Permutation (aset k (default [] (aget k d) ++ [x]) d ≫= snd) ((d ≫= snd) ++ [x]).
Proof.
  induction d as [|[k' v] d IH]; cbn; [done|]. case_decide; cbn; [|by rewrite IH, (assoc_L (++))].
  rewrite <- !(assoc_L (++)). f_equiv. apply Permutation_app_comm.
Qed.

(** Grouping: every key once, each with the rows that have it, in order. *)
Section group_by_facts.
Context {K A : Type} `{EqDecision K} (key : A → K).
Implicit Types l : list A.

Lemma group_by_app l x :
  group_by key (l ++ [x]) =
  aset (key x) (default [] (aget (key x) (group_by key l)) ++ [x]) (group_by key l).
Proof. unfold group_by. by rewrite foldl_app. Qed.

Lemma group_by_keys l : NoDup (group_by key l).*1.
Proof.
  induction l as [|x l IH] using rev_ind; [constructor|]. rewrite group_by_app.
  destruct (aget (key x) (group_by key l)) eqn:E.
  - rewrite aset_keys by (rewrite E; eauto). done.
  - apply aget_None in E. rewrite aset_fresh, fmap_app by done.
    apply NoDup_app. split_and!; [done| |apply NoDup_singleton].
    cbn. by intros k Hk ->%list_elem_of_singleton.
Qed.

Lemma group_by_get l k :
  aget k (group_by key l) =
  match filter (λ x, key x = k) l with [] => None | rows => Some rows end.
Proof.
  induction l as [|x l IH] using rev_ind; [done|]. rewrite group_by_app, filter_app.
  destruct (decide (key x = k)) as [<-|Hne].
  - rewrite aget_aset_eq, IH, filter_cons_True by done. cbn. by destruct (filter _ l).
  - rewrite aget_aset_ne, IH, filter_cons_False by done. cbn. by rewrite app_nil_r.
Qed.

Lemma group_by_elem l k rows :
  (k, rows) ∈ group_by key l ↔ rows = filter (λ x, key x = k) l ∧ rows ≠ [].
Proof.
  rewrite <- aget_elem, group_by_get by apply group_by_keys.
  destruct (filter _ l); split; [done|by intros [-> ?]|by intros [= <-]|by intros [-> ?]].
Qed.

Lemma group_by_values l : Permutation (group_by key l ≫= snd) l.
Proof.
  induction l as [|x l IH] using rev_ind; [done|].
  by rewrite group_by_app, aset_values, IH.
Qed.

Lemma group_by_perm l l' :
  Permutation l l' → Permutation (group_by key l).*1 (group_by key l').*1.
Proof.
  intros Hp. apply list.NoDup_Permutation; [apply group_by_keys..|]. intros k.
  assert (Hk : ∀ l, k ∈ (group_by key l).*1 ↔ filter (λ x, key x = k) l ≠ []).
  { intros m. rewrite list_elem_of_fmap. split.
    - intros ([? rows] & -> & [-> ?]%group_by_elem). done.
    - intros Hne. eexists (k, _). split; [done|]. by apply group_by_elem. }
  rewrite !Hk. split; intros Hne E; apply Hne.
  - apply Permutation_nil_r. rewrite <- E. by rewrite Hp.
  - apply Permutation_nil_r. rewrite <- E. by rewrite Hp.
Qed.
End group_by_facts.

#[export] Hint Rewrite @aget_aset_eq @enumerate_from_length @enumerate_from_snd
  @zsum_app @zsum_cons : spine_simpl.
#[export] Hint Resolve aget_aset_eq sort_by_perm sort_by_Forall zsum_nonneg : spine.

(** A key without duplicates identifies the elements of a list. *)
Lemma NoDup_fmap_elem {A B} (f : A → B) (l : list A) x y :
  NoDup (f <$> l) → x ∈ l → y ∈ l → f x = f y → x = y.
Proof.
  intros Hnd [i Hi]%list_elem_of_lookup [j Hj]%list_elem_of_lookup E.
  assert (i = j) as ->; [|congruence].
  eapply NoDup_lookup; [apply Hnd|..]; rewrite list_lookup_fmap.
  - rewrite Hi. cbn. by rewrite E.
  - by rewrite Hj.
Qed.
