(* ===== verification/PyStr.v ===== *)
(** * Python strings

    A [str] is the list of its Unicode code points, so [len], slicing and
    comparison are Python's.  White space ([str.strip]) is the exact list of
    CPython; [str.lower] and [str.isalnum] are tables of the Unicode database
    and come from the class [Unicode]; [ascii_unicode] is the instance the
    concrete examples run on. *)
From Stdlib Require Ascii String.
From S2P Require Import Prelude.

Abbreviation str := (list N).

(** The code points of an ASCII literal. *)
Definition lit (s : string) : str := Ascii.N_of_ascii <$> String.list_ascii_of_string s.

#[global] Arguments lit : simpl never.

(** ** Order: lexicographic on code points *)
Fixpoint str_compare (s t : str) : comparison :=
  match s, t with
  | [], [] => Eq
  | [], _ => Lt
  | _, [] => Gt
  | a :: s', b :: t' =>
      match N.compare a b with Eq => str_compare s' t' | c => c end
  end.

Definition str_leb (s t : str) : bool := match str_compare s t with Gt => false | _ => true end.
Definition str_ltb (s t : str) : bool := match str_compare s t with Lt => true | _ => false end.

(** ** The methods the program calls *)
Fixpoint startswith (p s : str) : bool :=
  match p, s with
  | [], _ => true
  | a :: p', b :: s' => N.eqb a b && startswith p' s'
  | _ :: _, [] => false
  end.

Definition endswith (p s : str) : bool := startswith (rev p) (rev s).

Definition removeprefix (p s : str) : str :=
  if startswith p s then drop (length p) s else s.

Definition is_space (c : N) : bool :=
  ((9 <=? c) && (c <=? 13) || (28 <=? c) && (c <=? 32) || (c =? 133) || (c =? 160)
   || (c =? 5760) || (8192 <=? c) && (c <=? 8202) || (c =? 8232) || (c =? 8233)
   || (c =? 8239) || (c =? 8287) || (c =? 12288))%N.

Fixpoint lstrip (s : str) : str :=
  match s with
  | c :: s' => if is_space c then lstrip s' else s
  | [] => []
  end.
Definition rstrip (s : str) : str := rev (lstrip (rev s)).
Definition strip (s : str) : str := rstrip (lstrip s).

(** [not s.strip()]. *)
Definition blank (s : str) : bool := bool_decide (strip s = []).
(** [s and s == s.strip()]. *)
Definition trimmed (s : str) : bool := bool_decide (s ≠ []) && bool_decide (s = strip s).

Definition mem_char (c : N) (s : str) : bool := existsb (N.eqb c) s.

(** [p in s]. *)
Fixpoint infixb (p s : str) : bool :=
  startswith p s || match s with [] => false | _ :: s' => infixb p s' end.

(** [s.replace(c, r)] for a one-character pattern. *)
Definition replace_char (c : N) (r : str) (s : str) : str :=
  flat_map (fun d => if N.eqb d c then r else [d]) s.

(** [s.split(c, 1)] when [c] occurs in [s]. *)
Fixpoint split_once (c : N) (s : str) : option (str * str) :=
  match s with
  | [] => None
  | d :: s' =>
      if N.eqb d c then Some ([], s')
      else '(a, b) ← split_once c s'; Some (d :: a, b)
  end.

(** [s.split(c)]. *)
Fixpoint split_on (c : N) (s : str) : list str :=
  match s with
  | [] => [[]]
  | d :: s' =>
      if N.eqb d c then [] :: split_on c s'
      else match split_on c s' with
           | w :: ws => (d :: w) :: ws
           | [] => [[d]]
           end
  end.

Fixpoint join (sep : str) (l : list str) : str :=
  match l with
  | [] => []
  | [s] => s
  | s :: l' => s ++ sep ++ join sep l'
  end.

(** [s[:n]] for any integer [n]: a negative bound counts from the end. *)
Definition slice_to {A} (n : Z) (s : list A) : list A :=
  if (n <? 0)%Z then take (Z.to_nat (Z.of_nat (length s) + n)) s else take (Z.to_nat n) s.

Definition zlen {A} (s : list A) : Z := Z.of_nat (length s).

(** [str(n)] for an integer. *)
Fixpoint digits_fuel (fuel : nat) (n : N) (acc : str) : str :=
  match fuel with
  | O => acc
  | S f =>
      let acc' := (48 + n mod 10)%N :: acc in
      if (n / 10 =? 0)%N then acc' else digits_fuel f (n / 10)%N acc'
  end.
Definition str_of_N (n : N) : str := digits_fuel (S (N.size_nat n)) n [].
Definition str_of_Z (z : Z) : str :=
  if (z <? 0)%Z then 45%N :: str_of_N (Z.to_N (- z)) else str_of_N (Z.to_N z).

(** ** The Unicode tables *)
Class Unicode := {
  py_lower : str → str;
  py_isalnum : N → bool;
}.

(** What every version of the tables says of ASCII text. *)
Definition ascii_lower_char (c : N) : N := if ((65 <=? c) && (c <=? 90))%N then (c + 32)%N else c.
Definition ascii_alnum (c : N) : bool :=
  ((48 <=? c) && (c <=? 57) || (65 <=? c) && (c <=? 90) || (97 <=? c) && (c <=? 122))%N.

Class UnicodeLaws `{Unicode} := {
  lower_ascii : ∀ s, Forall (λ c, (c < 128)%N) s → py_lower s = ascii_lower_char <$> s;
  isalnum_ascii : ∀ c, (c < 128)%N → py_isalnum c = ascii_alnum c;
}.

#[export] Instance ascii_unicode : Unicode :=
  {| py_lower := fmap ascii_lower_char; py_isalnum := ascii_alnum |}.
#[export] Instance ascii_unicode_laws : @UnicodeLaws ascii_unicode.
Proof. by split. Qed.

(** ** Order facts *)
Lemma str_compare_refl s : str_compare s s = Eq.
Proof. induction s; cbn; [done|]. by rewrite N.compare_refl. Qed.

Lemma str_compare_eq s t : str_compare s t = Eq → s = t.
Proof.
  revert t; induction s as [|a s IH]; intros [|b t]; cbn; try done.
  destruct (N.compare_spec a b) as [->| |]; try done. intros H%IH. by subst.
Qed.

Lemma str_compare_antisym s t : str_compare t s = CompOpp (str_compare s t).
Proof.
  revert t; induction s as [|a s IH]; intros [|b t]; cbn; try done.
  rewrite (N.compare_antisym a b). destruct (N.compare a b); cbn; auto.
Qed.

Lemma str_compare_lt_trans s t v :
  str_compare s t = Lt → str_compare t v = Lt → str_compare s v = Lt.
Proof.
  revert t v; induction s as [|a s IH]; intros [|b t] [|c v]; cbn; try done.
  destruct (N.compare_spec a b) as [->|Hab|Hab]; try done;
    destruct (N.compare_spec b c) as [->|Hbc|Hbc]; try done.
  - apply IH.
  - by intros _ _; rewrite (proj2 (N.compare_lt_iff a c)).
  - intros _ _. rewrite (proj2 (N.compare_lt_iff a c)); [done|lia].
Qed.

Lemma str_leb_total s t : str_leb s t = true ∨ str_leb t s = true.
Proof.
  unfold str_leb. rewrite (str_compare_antisym s t). destruct (str_compare s t); cbn; auto.
Qed.

Lemma str_leb_refl s : str_leb s s = true.
Proof. unfold str_leb. by rewrite str_compare_refl. Qed.

Lemma str_leb_trans s t v : str_leb s t = true → str_leb t v = true → str_leb s v = true.
Proof.
  unfold str_leb. destruct (str_compare s t) eqn:E1; try done;
    destruct (str_compare t v) eqn:E2; try done; intros _ _;
    repeat match goal with H : str_compare _ _ = Eq |- _ => apply str_compare_eq in H; subst end.
  - by rewrite str_compare_refl.
  - by rewrite E2.
  - by rewrite E1.
  - by rewrite (str_compare_lt_trans s t v).
Qed.

Lemma str_leb_antisym s t : str_leb s t = true → str_leb t s = true → s = t.
Proof.
  unfold str_leb. rewrite (str_compare_antisym s t).
  destruct (str_compare s t) eqn:E; cbn; try done. intros _ _. by apply str_compare_eq.
Qed.

(** ** Facts on the methods *)
Lemma startswith_app p s : startswith p (p ++ s) = true.
Proof. induction p; cbn; [done|]. by rewrite N.eqb_refl. Qed.

Lemma startswith_spec p s : startswith p s = true ↔ ∃ r, s = p ++ r.
Proof.
  split; [|intros [r ->]; apply startswith_app].
  revert s; induction p as [|a p IH]; intros [|b s]; cbn; try done.
  - by exists [].
  - intros _. by exists (b :: s).
  - intros H. breflect. apply N.eqb_eq in H as ->. destruct (IH s) as [r ->]; [done|]. by exists r.
Qed.

Lemma removeprefix_app p s : removeprefix p (p ++ s) = s.
Proof. unfold removeprefix. by rewrite startswith_app, drop_app_length. Qed.

Lemma lstrip_suffix s : ∃ p, s = p ++ lstrip s ∧ Forall (λ c, is_space c = true) p.
Proof.
  induction s as [|c s (p & IH & Hp)]; cbn; [by exists []|].
  destruct (is_space c) eqn:E; [|by exists []].
  exists (c :: p). cbn. split; [by f_equal|by constructor].
Qed.

Lemma strip_length_le s : length (rstrip s) ≤ length s.
Proof.
  unfold rstrip. rewrite length_rev. destruct (lstrip_suffix (rev s)) as (p & H & _).
  apply (f_equal length) in H. rewrite length_app, length_rev in H. lia.
Qed.

Lemma rstrip_prefix s : ∃ p, s = rstrip s ++ p ∧ Forall (λ c, is_space c = true) p.
Proof.
  unfold rstrip. destruct (lstrip_suffix (rev s)) as (p & H & Hp).
  exists (rev p). split; [|by apply Forall_rev].
  rewrite <- (rev_involutive s) at 1. rewrite H at 1. by rewrite rev_app_distr.
Qed.

Lemma split_once_Some c s a b : split_once c s = Some (a, b) → s = a ++ c :: b ∧ c ∉ a.
Proof.
  revert a; induction s as [|d s IH]; intros a; cbn; [done|].
  destruct (N.eqb_spec d c) as [->|Hne].
  - intros [= <- <-]. split; [done|apply not_elem_of_nil].
  - destruct (split_once c s) as [[a' b']|] eqn:E; cbn; [|done].
    intros [= <- ->]. destruct (IH a') as [-> Hn]; [done|]. split; [done|].
    rewrite not_elem_of_cons. split; [congruence|done].
Qed.

Lemma replace_char_nil c r : replace_char c r [] = [].
Proof. done. Qed.

Lemma replace_char_cons c r d s :
  replace_char c r (d :: s) = (if N.eqb d c then r else [d]) ++ replace_char c r s.
Proof. done. Qed.

Lemma replace_char_app c r s t : replace_char c r (s ++ t) = replace_char c r s ++ replace_char c r t.
Proof. apply flat_map_app. Qed.

Lemma length_slice_to {A} (n : Z) (s : list A) :
  (0 ≤ n)%Z → (zlen (slice_to n s) ≤ n)%Z.
Proof.
  intros Hn. unfold slice_to, zlen. destruct (Z.ltb_spec n 0) as [|_]; [lia|].
  rewrite length_take. lia.
Qed.

#[export] Hint Resolve str_leb_refl str_leb_antisym str_leb_total : spine.
#[export] Hint Rewrite replace_char_app replace_char_nil removeprefix_app : spine_simpl.

(** ** Decimal numerals *)
Fixpoint numeral_value (s : str) : N :=
  match s with
  | [] => 0
  | c :: s' => (c - 48) * 10 ^ N.of_nat (length s') + numeral_value s'
  end%N.

Lemma digits_fuel_value fuel n acc :
  (n < 10 ^ N.of_nat fuel)%N →
  numeral_value (digits_fuel fuel n acc) = (n * 10 ^ N.of_nat (length acc) + numeral_value acc)%N.
Proof.
  revert n acc. induction fuel as [|fuel IH]; intros n acc Hn.
  { cbn in Hn |- *. assert (n = 0%N) as -> by lia. lia. }
  rewrite Nat2N.inj_succ, N.pow_succ_r' in Hn. cbn [digits_fuel].
  pose proof (N.div_mod n 10 ltac:(done)) as Hdm. pose proof (N.mod_lt n 10 ltac:(done)) as Hm.
  set (p := (10 ^ N.of_nat (length acc))%N).
  destruct (n / 10 =? 0)%N eqn:E.
  - cbn [numeral_value]. fold p. replace (48 + n mod 10 - 48)%N with n by lia. lia.
  - rewrite IH by (apply N.Div0.div_lt_upper_bound; lia). cbn [numeral_value length].
    rewrite Nat2N.inj_succ, N.pow_succ_r'. fold p.
    rewrite (N.add_comm 48), N.add_sub. set (q := (n / 10)%N) in *. set (r := (n mod 10)%N) in *. clearbody q r p. subst n. nia.
Qed.

Lemma digits_fuel_digits fuel n acc :
  Forall (λ c, 48 ≤ c ≤ 57)%N acc → Forall (λ c, 48 ≤ c ≤ 57)%N (digits_fuel fuel n acc).
Proof.
  revert n acc. induction fuel as [|fuel IH]; intros n acc Hacc; [done|]. cbn [digits_fuel].
  pose proof (N.mod_lt n 10 ltac:(done)) as Hm.
  assert (Hcons : Forall (λ c, 48 ≤ c ≤ 57)%N ((48 + n mod 10)%N :: acc)) by (constructor; [revert Hm; generalize (n mod 10)%N; intros r; lia|done]).
  destruct (n / 10 =? 0)%N; auto.
Qed.

Lemma digits_fuel_length fuel n acc k :
  (n < 10 ^ N.of_nat (S k))%N → (length (digits_fuel fuel n acc) ≤ S k + length acc)%nat.
Proof.
  revert n acc k. induction fuel as [|fuel IH]; intros n acc k Hn; [cbn; lia|]. cbn [digits_fuel].
  destruct (n / 10 =? 0)%N eqn:E; [cbn; lia|]. destruct k as [|k].
  - apply N.eqb_neq in E. exfalso. apply E, N.div_small. cbn in Hn. lia.
  - rewrite Nat2N.inj_succ, N.pow_succ_r' in Hn.
    specialize (IH (n / 10)%N ((48 + n mod 10)%N :: acc) k). cbn [length] in IH.
    etrans; [apply IH|lia]. apply N.Div0.div_lt_upper_bound. lia.
Qed.

Lemma size_nat_bound n : (n < 2 ^ N.of_nat (N.size_nat n))%N.
Proof.
  destruct n as [|p]; [done|]. cbn [N.size_nat].
  induction p as [p IH|p IH|]; cbn [Pos.size_nat]; rewrite ?Nat2N.inj_succ, ?N.pow_succ_r'; [lia..|done].
Qed.

Lemma str_of_N_value n : numeral_value (str_of_N n) = n.
Proof.
  unfold str_of_N. rewrite digits_fuel_value; [cbn; lia|].
  eapply N.lt_le_trans; [apply size_nat_bound|]. etrans; [apply (N.pow_le_mono_l 2 10); lia|].
  apply N.pow_le_mono_r; lia.
Qed.

Lemma str_of_N_inj n m : str_of_N n = str_of_N m → n = m.
Proof. intros E. rewrite <- (str_of_N_value n), E. apply str_of_N_value. Qed.

Lemma str_of_N_digits n : Forall (λ c, 48 ≤ c ≤ 57)%N (str_of_N n).
Proof. by apply digits_fuel_digits. Qed.

Lemma str_of_N_length n k : (n < 10 ^ N.of_nat (S k))%N → (length (str_of_N n) ≤ S k)%nat.
Proof. intros H. pose proof (digits_fuel_length (S (N.size_nat n)) n [] k H). cbn in *. unfold str_of_N. lia. Qed.

(** The part after the last occurrence of a character is determined. *)
Lemma last_field_inj (c : N) (a b s t : str) :
  c ∉ s → c ∉ t → a ++ c :: s = b ++ c :: t → s = t.
Proof.
  intros Hs Ht E. apply (f_equal (@rev N)) in E. rewrite !rev_app_distr in E. cbn in E.
  rewrite <- !app_assoc in E. cbn in E. rewrite <- (rev_involutive s), <- (rev_involutive t). f_equal.
  assert (Hs' : c ∉ rev s) by (by rewrite list_elem_of_In, <- in_rev, <- list_elem_of_In).
  assert (Ht' : c ∉ rev t) by (by rewrite list_elem_of_In, <- in_rev, <- list_elem_of_In).
  clear Hs Ht. revert E Hs' Ht'. generalize (rev a) (rev b) (rev t). induction (rev s) as [|x l IH];
    intros a' b' [|y l'] E Hs Ht; cbn in E; [done|..]; injection E as E1 E2.
  - exfalso. apply Ht. rewrite E1. left.
  - exfalso. apply Hs. rewrite <- E1. left.
  - subst. f_equal. eapply IH; [done|set_solver|set_solver].
Qed.

(** ** Trimmed strings *)
Definition starts_solid (s : str) : Prop := match s with c :: _ => is_space c = false | [] => False end.

Lemma lstrip_fix s : lstrip s = s → s ≠ [] → starts_solid s.
Proof.
  destruct s as [|c s]; [done|]. cbn. destruct (is_space c) eqn:E; [|done]. intros Hl _.
  destruct (lstrip_suffix s) as (p & Hs & _). rewrite Hl in Hs. apply (f_equal length) in Hs.
  rewrite length_app in Hs. cbn in Hs. lia.
Qed.

Lemma lstrip_solid s : starts_solid s → lstrip s = s.
Proof. destruct s as [|c s]; [done|]. cbn. by intros ->. Qed.

Lemma strip_parts s : strip s = s → lstrip s = s ∧ rstrip s = s.
Proof.
  unfold strip. intros H. destruct (lstrip_suffix s) as (p & Hp & _).
  pose proof (strip_length_le (lstrip s)) as Hle. rewrite H in Hle.
  assert (p = []) as ->.
  { apply (f_equal length) in Hp. rewrite length_app in Hp. destruct p; [done|]. cbn in *. lia. }
  cbn in Hp. rewrite <- Hp in H. by rewrite <- Hp.
Qed.

Lemma rstrip_app p s : rstrip s = s → s ≠ [] → rstrip (p ++ s) = p ++ s.
Proof.
  unfold rstrip. intros H Hne. rewrite rev_app_distr.
  assert (Hl : lstrip (rev s) = rev s) by (by rewrite <- H at 2; rewrite rev_involutive).
  assert (Hs : starts_solid (rev s)).
  { apply lstrip_fix; [done|]. intros E. apply Hne. rewrite <- (rev_involutive s), E. done. }
  rewrite lstrip_solid; [by rewrite rev_app_distr, !rev_involutive|].
  by destruct (rev s).
Qed.

Lemma trimmed_spec s : trimmed s = true ↔ s ≠ [] ∧ strip s = s.
Proof. unfold trimmed. rewrite andb_true_iff, !bool_decide_eq_true. intuition. Qed.

(** A trimmed string after one that starts with ink is trimmed. *)
Lemma trimmed_app p s : starts_solid p → trimmed s = true → trimmed (p ++ s) = true.
Proof.
  intros Hp [Hne [Hl Hr]%strip_parts]%trimmed_spec. apply trimmed_spec. split.
  - intros [_ E]%app_eq_nil. done.
  - unfold strip. rewrite lstrip_solid by (by destruct p). by apply rstrip_app.
Qed.
