(* ===== verification/PyFloat.v ===== *)
(** * Python floats: IEEE-754 binary64

    Values and arithmetic are those of the Standard Library's specification of
    IEEE floats ([SpecFloat], binary64: 53 bits, exponents below 1024), which
    is plain executable Gallina.  [math.fsum] is the exact sum rounded once;
    [struct.pack("!f")] is rounding to binary32; [repr] is the shortest decimal
    that reads back.  [2.0 ** x] is the C library's [pow] and comes from the
    class [Libm]. *)
From Stdlib Require Import SpecFloat.
From S2P Require Import Prelude.
Open Scope Z_scope.

Abbreviation float := spec_float.

Definition fadd : float → float → float := SFadd 53 1024.
Definition fsub : float → float → float := SFsub 53 1024.
Definition fmul : float → float → float := SFmul 53 1024.
Definition fdiv : float → float → float := SFdiv 53 1024.
Definition fsqrt : float → float := SFsqrt 53 1024.
Definition fneg : float → float := SFopp.
Definition fabs : float → float := SFabs.
Definition flt (x y : float) : bool := SFltb x y.
Definition fle (x y : float) : bool := SFleb x y.
Definition feq (x y : float) : bool := SFeqb x y.

Definition is_nan (x : float) : bool := match x with S754_nan => true | _ => false end.
(** [math.isfinite]. *)
Definition isfinite (x : float) : bool :=
  match x with S754_zero _ | S754_finite _ _ _ => true | _ => false end.

(** The correctly rounded float of [m * 2 ^ e]. *)
Definition fround (m e : Z) : float := binary_normalize 53 1024 m e false.
Definition f_of_Z (z : Z) : float := fround z 0.

(** The correctly rounded float of the rational [a / b] (Python's [int / int]
    and decimal literals), for [b <> 0]. *)
Definition f_ratio (a b : Z) : float :=
  match a, b with
  | Z0, _ => S754_zero false
  | Zpos p, Zpos q => SFdiv 53 1024 (S754_finite false p 0) (S754_finite false q 0)
  | Zneg p, Zpos q => SFdiv 53 1024 (S754_finite true p 0) (S754_finite false q 0)
  | Zpos p, Zneg q => SFdiv 53 1024 (S754_finite true p 0) (S754_finite false q 0)
  | Zneg p, Zneg q => SFdiv 53 1024 (S754_finite false p 0) (S754_finite false q 0)
  | _, Z0 => S754_nan
  end.

Definition f0 : float := S754_zero false.
Definition f1 : float := f_of_Z 1.

(** [min(a, b)] and [max(a, b)]: the first argument unless the second is
    strictly better. *)
Definition fmin (a b : float) : float := if flt b a then b else a.
Definition fmax (a b : float) : float := if flt a b then b else a.

(** [a / b] on floats raises on a zero divisor. *)
Definition pydiv (a b : float) : res pyexn float :=
  if feq b f0 then Err ZeroDivisionError else Ok (fdiv a b).

(** ** [math.fsum] *)
(** Every finite binary64 is a multiple of [2 ^ -1074]. *)
Definition fexact (x : float) : Z :=
  match x with
  | S754_finite s m e => cond_Zopp s (Z.pos m * 2 ^ (e + 1074))
  | _ => 0
  end.

Definition is_inf (s : bool) (x : float) : bool :=
  match x with S754_infinity s' => Bool.eqb s s' | _ => false end.

(** A running total that rounds to infinity raises at that point. *)
Fixpoint fsum_exact (acc : Z) (l : list float) : res pyexn Z :=
  match l with
  | [] => Ok acc
  | x :: l' =>
      let acc' := acc + fexact x in
      if isfinite (fround acc' (-1074)) then fsum_exact acc' l' else Err (OverflowError "intermediate overflow in fsum")
  end.

Definition fsum (l : list float) : res pyexn float :=
  if forallb isfinite l then
    total ← fsum_exact 0 l; Ok (fround total (-1074))
  else if existsb (is_inf false) l && existsb (is_inf true) l then Err (ValueError "-inf + inf in fsum")
  else Ok (if existsb is_nan l then S754_nan
           else S754_infinity (existsb (is_inf true) l)).

(** [math.fsum(value * value for value in v)]. *)
Definition fsum_squares (v : list float) : res pyexn float := fsum ((fun x => fmul x x) <$> v).

(** ** [struct.unpack("!f", struct.pack("!f", x))]: binary32 and back *)
Definition fround32 (x : float) : res pyexn float :=
  match x with
  | S754_finite s m e =>
      match binary_normalize 24 128 (cond_Zopp s (Zpos m)) e false with
      | S754_finite s' m' e' => Ok (fround (cond_Zopp s' (Zpos m')) e')
      | S754_zero _ => Ok (S754_zero s)
      | _ => Err (OverflowError "float too large to pack with f format")
      end
  | _ => Ok x
  end.

(** ** [Fraction(str(x))]: the shortest decimal that reads back as [x] *)

(** The float nearest to [c * 10 ^ p]. *)
Definition dec_float (c p : Z) : float :=
  if 0 <=? p then f_of_Z (c * 10 ^ p) else f_ratio c (10 ^ (- p)).

(** [x * 10 ^ k] for a positive finite float, as an exact fraction. *)
Definition scaled (m : positive) (e k : Z) : Z * Z :=
  let num := Zpos m * (if 0 <=? e then 2 ^ e else 1) * (if 0 <=? k then 10 ^ k else 1) in
  let den := (if 0 <=? e then 1 else 2 ^ (- e)) * (if 0 <=? k then 1 else 10 ^ (- k)) in
  (num, den).

(** Among the two decimals with [- p] places around [x], the nearest one that
    reads back as [x] (the even one at a tie). *)
Definition shortest_at (x : float) (m : positive) (e p : Z) : option (Z * Z) :=
  let '(num, den) := scaled m e (- p) in
  let lo := num / den in
  let hi := lo + 1 in
  let ok c := feq (dec_float c p) x in
  let lo_first := match Z.compare (2 * (num - lo * den)) den with
                  | Lt => true | Gt => false | Eq => Z.even lo end in
  if lo_first then if ok lo then Some (lo, p) else if ok hi then Some (hi, p) else None
  else if ok hi then Some (hi, p) else if ok lo then Some (lo, p) else None.

(** Every binary64 has a finite decimal expansion: [m * 5 ^ -e] times [10 ^ e]. *)
Definition exact_decimal (m : positive) (e : Z) : Z * Z :=
  if 0 <=? e then (Zpos m * 2 ^ e, 0) else (Zpos m * 5 ^ (- e), e).

Fixpoint shortest_from (x : float) (m : positive) (e p : Z) (places : nat) : Z * Z :=
  match places with
  | O => exact_decimal m e
  | S n =>
      match shortest_at x m e p with
      | Some r => r
      | None => shortest_from x m e (p - 1) n
      end
  end.

(** [repr] of a positive float as digits and a power of ten: places are added
    from above the leading digit until the decimal reads back.  The search ends
    at the last place of the exact expansion, so it always has a result. *)
Definition repr_decimal (x : float) : option (Z * Z) :=
  match x with
  | S754_finite false m e =>
      let top := (Z.log2 (Zpos m) + e) * 30103 / 100000 + 1 in
      Some (shortest_from x m e top (Z.to_nat (top - Z.min 0 e)))
  | _ => None
  end.

Definition decimal_fraction (c p : Z) : Z * Z :=
  if 0 <=? p then (c * 10 ^ p, 1) else (c, 10 ^ (- p)).

(** ** The C library's [pow] *)
Class Libm := { pow2 : float → float }.

(** Its documented behaviour on the arguments the scorer gives it: a decay
    [2 ** -x] with [x >= 0] lies in the unit interval, and is 1 at zero. *)
Class LibmLaws `{Libm} := {
  pow2_nonneg : ∀ x, is_nan x = false → fle x f0 = true → fle f0 (pow2 x) = true;
  pow2_le_1 : ∀ x, is_nan x = false → fle x f0 = true → fle (pow2 x) f1 = true;
  pow2_zero : ∀ x, feq x f0 = true → pow2 x = f1;
}.

(** ** Order facts: comparison is lexicographic on a key *)
Definition fkey (x : float) : Z * Z * Z :=
  match x with
  | S754_nan | S754_zero _ => (0, 0, 0)
  | S754_infinity true => (-2, 0, 0)
  | S754_infinity false => (2, 0, 0)
  | S754_finite true m e => (-1, - e, - Zpos m)
  | S754_finite false m e => (1, e, Zpos m)
  end.

Definition key_compare (a b : Z * Z * Z) : comparison :=
  let '(a1, a2, a3) := a in let '(b1, b2, b3) := b in
  match Z.compare a1 b1 with
  | Eq => match Z.compare a2 b2 with Eq => Z.compare a3 b3 | c => c end
  | c => c
  end.

Lemma fcompare_key x y :
  is_nan x = false → is_nan y = false → SFcompare x y = Some (key_compare (fkey x) (fkey y)).
Proof.
  destruct x as [[]|[]| |[] m e], y as [[]|[]| |[] m' e']; try done; cbn; intros _ _; f_equal.
  rewrite Z.compare_opp, (Z.compare_antisym e e').
  by destruct (Z.compare e e').
Qed.

Lemma key_compare_refl a : key_compare a a = Eq.
Proof. destruct a as [[??]?]; cbn. by rewrite !Z.compare_refl. Qed.

Lemma key_compare_eq a b : key_compare a b = Eq → a = b.
Proof.
  destruct a as [[??]?], b as [[??]?]; cbn.
  repeat (case_match eqn:E; try done; apply Z.compare_eq in E; subst).
  intros E%Z.compare_eq. by subst.
Qed.

Lemma key_compare_antisym a b : key_compare b a = CompOpp (key_compare a b).
Proof.
  destruct a as [[a1 a2] a3], b as [[b1 b2] b3]; cbn.
  rewrite (Z.compare_antisym a1 b1), (Z.compare_antisym a2 b2), (Z.compare_antisym a3 b3).
  by destruct (Z.compare a1 b1), (Z.compare a2 b2), (Z.compare a3 b3).
Qed.

Lemma key_compare_lt_iff a b :
  key_compare a b = Lt ↔
  a.1.1 < b.1.1 ∨ a.1.1 = b.1.1 ∧ (a.1.2 < b.1.2 ∨ a.1.2 = b.1.2 ∧ a.2 < b.2).
Proof.
  destruct a as [[a1 a2] a3], b as [[b1 b2] b3]; cbn.
  destruct (Z.compare_spec a1 b1), (Z.compare_spec a2 b2), (Z.compare_spec a3 b3);
    split; intros; try done; lia.
Qed.

Lemma key_compare_lt_trans a b c :
  key_compare a b = Lt → key_compare b c = Lt → key_compare a c = Lt.
Proof. rewrite !key_compare_lt_iff. lia. Qed.

Lemma key_compare_neg x y : key_compare (fkey (fneg x)) (fkey (fneg y)) = key_compare (fkey y) (fkey x).
Proof.
  destruct x as [[]|[]| |[] m e], y as [[]|[]| |[] m' e']; try done; cbn.
  - by rewrite !Z.compare_opp.
  - by rewrite !Z.compare_opp.
Qed.

Lemma isfinite_not_nan x : isfinite x = true → is_nan x = false.
Proof. by destruct x. Qed.

Lemma fneg_is_nan x : is_nan (fneg x) = is_nan x.
Proof. by destruct x. Qed.

Lemma isfinite_fneg x : isfinite (fneg x) = isfinite x.
Proof. by destruct x. Qed.

Lemma fle_total x y :
  is_nan x = false → is_nan y = false → fle x y = true ∨ fle y x = true.
Proof.
  intros Hx Hy. unfold fle, SFleb. rewrite !fcompare_key, (key_compare_antisym (fkey x)) by done.
  destruct (key_compare (fkey x) (fkey y)); cbn; auto.
Qed.

Lemma flt_not_fle x y : is_nan x = false → is_nan y = false → flt x y = negb (fle y x).
Proof.
  intros Hx Hy. unfold flt, fle, SFltb, SFleb.
  rewrite !fcompare_key, (key_compare_antisym (fkey x)) by done.
  by destruct (key_compare (fkey x) (fkey y)).
Qed.

Lemma fle_refl x : is_nan x = false → fle x x = true.
Proof. intros. unfold fle, SFleb. by rewrite fcompare_key, key_compare_refl. Qed.

Lemma fle_trans x y z :
  is_nan x = false → is_nan y = false → is_nan z = false →
  fle x y = true → fle y z = true → fle x z = true.
Proof.
  intros Hx Hy Hz. unfold fle, SFleb. rewrite !fcompare_key by done.
  destruct (key_compare (fkey x) (fkey y)) eqn:E1; try done;
    destruct (key_compare (fkey y) (fkey z)) eqn:E2; try done; intros _ _;
    repeat match goal with H : key_compare _ _ = Eq |- _ => apply key_compare_eq in H end.
  - by rewrite E1, E2, key_compare_refl.
  - by rewrite E1, E2.
  - by rewrite <- E2, E1.
  - by rewrite (key_compare_lt_trans _ (fkey y)).
Qed.

(** Clamping needs no arithmetic: [min(1.0, x)] is at most one, and so on. *)
Lemma fmin_l a b : is_nan a = false → is_nan b = false → fle (fmin a b) a = true.
Proof.
  intros Ha Hb. unfold fmin. destruct (flt b a) eqn:E; [|by apply fle_refl].
  rewrite flt_not_fle in E by done. destruct (fle_total a b); auto. by rewrite H in E.
Qed.

Lemma fmax_l a b : is_nan a = false → is_nan b = false → fle a (fmax a b) = true.
Proof.
  intros Ha Hb. unfold fmax. destruct (flt a b) eqn:E; [|by apply fle_refl].
  rewrite flt_not_fle in E by done. destruct (fle_total a b); auto. by rewrite H in E.
Qed.

(** ** Signs and NaNs through rounding *)
Definition has_sign (s : bool) (x : float) : bool :=
  match x with
  | S754_zero s' | S754_infinity s' | S754_finite s' _ _ => Bool.eqb s s'
  | S754_nan => false
  end.

Lemma has_sign_not_nan s x : has_sign s x = true → is_nan x = false.
Proof. by destruct x. Qed.

Lemma shr_1_nonneg r : 0 ≤ shr_m r → 0 ≤ shr_m (shr_1 r).
Proof. destruct r as [[|[]|] ? ?]; cbn; lia. Qed.

Lemma iter_pos_nonneg (p : positive) r : 0 ≤ shr_m r → 0 ≤ shr_m (SpecFloat.iter_pos shr_1 p r).
Proof. revert r; induction p; intros r H; cbn; auto using shr_1_nonneg. Qed.

Lemma shr_fexp_nonneg m e l : 0 ≤ m → 0 ≤ shr_m (shr_fexp 53 1024 m e l).1.
Proof.
  intros Hm. unfold shr_fexp, shr. destruct (_ - _) as [|p|p]; cbn.
  - by destruct l as [|[]].
  - apply iter_pos_nonneg. by destruct l as [|[]].
  - by destruct l as [|[]].
Qed.

Lemma round_aux_sign s m e l : 0 ≤ m → has_sign s (binary_round_aux 53 1024 s m e l) = true.
Proof.
  intros Hm. unfold binary_round_aux.
  pose proof (shr_fexp_nonneg m e l Hm) as H1.
  destruct (shr_fexp 53 1024 m e l) as [r1 e1]. cbn in H1.
  assert (H2 : 0 ≤ round_nearest_even (shr_m r1) (loc_of_shr_record r1)).
  { unfold round_nearest_even. repeat case_match; lia. }
  pose proof (shr_fexp_nonneg _ e1 loc_Exact H2) as H3.
  destruct (shr_fexp 53 1024 _ e1 loc_Exact) as [r2 e2]. cbn in H3.
  destruct (shr_m r2); cbn; [by destruct s| |lia].
  destruct (_ <=? _); cbn; by destruct s.
Qed.

Lemma fround_not_nan m e : is_nan (fround m e) = false.
Proof.
  unfold fround, binary_normalize, binary_round. destruct m as [|m|m]; [done|..];
    destruct (shl_align _ _ _) as [mz ez]; eapply has_sign_not_nan, round_aux_sign; lia.
Qed.

Lemma fround_sign m e : 0 ≤ m → has_sign false (fround m e) = true.
Proof.
  unfold fround, binary_normalize, binary_round. destruct m as [|m|m]; [done|..|lia].
  intros _. destruct (shl_align _ _ _) as [mz ez]. apply round_aux_sign. lia.
Qed.

Lemma sfdiv_sign s s' m m' e e' :
  has_sign (xorb s s') (SFdiv 53 1024 (S754_finite s m e) (S754_finite s' m' e')) = true.
Proof.
  unfold SFdiv. destruct (SFdiv_core_binary _ _ _ _ _ _) as [[q ez] l] eqn:E.
  apply round_aux_sign. unfold SFdiv_core_binary in E.
  match type of E with (let (_, _) := Z.div_eucl ?a ?b in _) = _ =>
    pose proof (Z_div_mod a b ltac:(lia)) as Hd; destruct (Z.div_eucl a b) as [q' r]; cut (0 ≤ a)
  end.
  - intros Ha. injection E as <- _ _. nia.
  - case_match; try lia. apply Z.shiftl_nonneg. lia.
Qed.

Lemma f_ratio_nonneg a b : 0 ≤ a → 0 < b → has_sign false (f_ratio a b) = true.
Proof.
  intros Ha Hb. unfold f_ratio. destruct a as [|a|a]; [done| |lia].
  destruct b as [|b|b]; [lia| |lia]. apply (sfdiv_sign false false).
Qed.

Lemma f_ratio_not_nan a b : 0 < b → is_nan (f_ratio a b) = false.
Proof.
  intros Hb. unfold f_ratio. destruct a as [|a|a]; [done|..];
    (destruct b as [|b|b]; [lia| |lia]); eapply has_sign_not_nan, sfdiv_sign.
Qed.

Lemma has_sign_nonneg x : has_sign false x = true → fle f0 x = true.
Proof. by destruct x as [[]|[]| |[]]. Qed.

Lemma fround32_not_nan x y : is_nan x = false → fround32 x = Ok y → is_nan y = false.
Proof.
  intros Hx. unfold fround32. destruct x; try done; try (by intros [= <-]).
  case_match; try done; intros [= <-]; [done|]. apply fround_not_nan.
Qed.

(** Clamps of any value at all, NaN included. *)
Lemma fmax_ge a b : is_nan a = false → fle a (fmax a b) = true ∧ is_nan (fmax a b) = false.
Proof.
  intros Ha. unfold fmax. destruct (flt a b) eqn:E; [|auto using fle_refl].
  assert (is_nan b = false) as Hb.
  { destruct b; try done. by destruct a. }
  split; [|done]. unfold flt, fle, SFltb, SFleb in *. by destruct (SFcompare a b) as [[]|].
Qed.

Lemma fmin_le a b : is_nan a = false → fle (fmin a b) a = true ∧ is_nan (fmin a b) = false.
Proof.
  intros Ha. unfold fmin. destruct (flt b a) eqn:E; [|auto using fle_refl].
  assert (is_nan b = false) as Hb by (by destruct b).
  split; [|done]. unfold flt, fle, SFltb, SFleb in *. by destruct (SFcompare b a) as [[]|].
Qed.

Lemma fmax_choice a b : fmax a b = a ∨ fmax a b = b.
Proof. unfold fmax. destruct (flt a b); auto. Qed.

Lemma fmin_choice a b : fmin a b = a ∨ fmin a b = b.
Proof. unfold fmin. destruct (flt b a); auto. Qed.

Example f_ratio_tenth : f_ratio 1 10 = S754_finite false 7205759403792794 (-56).
Proof. reflexivity. Qed.

Example repr_tenth : repr_decimal (f_ratio 1 10) = Some (1, -1).
Proof. vm_compute. reflexivity. Qed.

Example repr_third : repr_decimal (f_ratio 1 3) = Some (3333333333333333, -16).
Proof. vm_compute. reflexivity. Qed.
