(* ===== verification/PyDecimal.v ===== *)
(** * Python's finite [decimal.Decimal]

    A value is a coefficient times a power of ten, and a comparison is exact.
    An operation is exact and is then rounded half-even to the precision of the
    context; [ctx_fix] also has the context's exponent limits, [dec_fix] is the
    rounding alone (for the learner's bounded weights).  The sign of a zero is
    dropped, since no comparison sees it, and so are the trailing zeros that
    only the printed form of a quotient shows. *)
From S2P Require Import Prelude PyStr PyFloat.
Open Scope Z_scope.

Record dec := Dec { coef : Z; dexp : Z }.
Definition dec_of_Z (z : Z) : dec := Dec z 0.
Definition d0 : dec := dec_of_Z 0.
Definition d1 : dec := dec_of_Z 1.

Definition DECIMAL_PREC : Z := 28.

(** The coefficient on a smaller power of ten. *)
Definition rescaled (e : Z) (a : dec) : Z := coef a * 10 ^ (dexp a - e).

Definition dec_compare (a b : dec) : comparison :=
  let e := Z.min (dexp a) (dexp b) in Z.compare (rescaled e a) (rescaled e b).
Definition dec_eqb (a b : dec) : bool := match dec_compare a b with Eq => true | _ => false end.
Definition dec_ltb (a b : dec) : bool := match dec_compare a b with Lt => true | _ => false end.
Definition dec_leb (a b : dec) : bool := match dec_compare a b with Gt => false | _ => true end.

(** [min(a, b)]. *)
Definition dec_min (a b : dec) : dec := if dec_ltb b a then b else a.

(** The number of decimal digits of a coefficient. *)
Definition digit_count (c : Z) : Z := zlen (str_of_N (Z.to_N (Z.abs c))).

(** [c / 10 ^ n] for [c >= 0], rounded to the nearest, to the even one at a tie. *)
Definition half_even (c n : Z) : Z :=
  let q := c / 10 ^ n in
  let r := c mod 10 ^ n in
  match Z.compare (2 * r) (10 ^ n) with
  | Lt => q
  | Gt => q + 1
  | Eq => if Z.even q then q else q + 1
  end.

(** Rounding to the context; a carry out of the top digit drops a zero. *)
Definition dec_fix (a : dec) : dec :=
  let n := digit_count (coef a) - DECIMAL_PREC in
  if n <=? 0 then a
  else
    let m := half_even (Z.abs (coef a)) n in
    let s := Z.sgn (coef a) in
    if m =? 10 ^ DECIMAL_PREC then Dec (s * 10 ^ (DECIMAL_PREC - 1)) (dexp a + n + 1)
    else Dec (s * m) (dexp a + n).

Definition dec_neg (a : dec) : dec := Dec (- coef a) (dexp a).
Definition dec_add (a b : dec) : dec :=
  let e := Z.min (dexp a) (dexp b) in dec_fix (Dec (rescaled e a + rescaled e b) e).
Definition dec_sub (a b : dec) : dec := dec_add a (dec_neg b).

(** ** Operations under a context of precision [p]: the limits of the default
    context are Emax = 999999 and Emin = -999999; Overflow and
    InvalidOperation are trapped. *)
Definition EMAX : Z := 999999.
Definition EMIN : Z := -999999.

Definition overflow {A} : res pyexn A := Err (DecimalException "Overflow").

Definition ctx_fix (p : Z) (a : dec) : res pyexn dec :=
  if coef a =? 0 then Ok a
  else
    let exp_min := digit_count (coef a) + dexp a - p in
    let etop := EMAX - p + 1 in
    if etop <? exp_min then overflow
    else
      let exp_min := Z.max exp_min (EMIN - p + 1) in
      if dexp a <? exp_min then
        let m := half_even (Z.abs (coef a)) (exp_min - dexp a) in
        let s := Z.sgn (coef a) in
        if m =? 10 ^ p then
          if etop <? exp_min + 1 then overflow else Ok (Dec (s * 10 ^ (p - 1)) (exp_min + 1))
        else Ok (Dec (s * m) exp_min)
      else Ok a.

Definition ctx_add (p : Z) (a b : dec) : res pyexn dec :=
  let e := Z.min (dexp a) (dexp b) in ctx_fix p (Dec (rescaled e a + rescaled e b) e).
Definition ctx_sub (p : Z) (a b : dec) : res pyexn dec := ctx_add p a (dec_neg b).
Definition ctx_mul (p : Z) (a b : dec) : res pyexn dec := ctx_fix p (Dec (coef a * coef b) (dexp a + dexp b)).
Definition ctx_neg (p : Z) (a : dec) : res pyexn dec := ctx_fix p (dec_neg a).

(** The quotient to [p + 1] digits with a sticky last digit, then rounded. *)
Definition ctx_div (p : Z) (a b : dec) : res pyexn dec :=
  if coef b =? 0 then Err (DecimalException (if coef a =? 0 then "InvalidOperation" else "DivisionByZero"))
  else if coef a =? 0 then Ok d0
  else
    let shift := digit_count (coef b) - digit_count (coef a) + p + 1 in
    let num := Z.abs (coef a) * (if 0 <=? shift then 10 ^ shift else 1) in
    let den := Z.abs (coef b) * (if 0 <=? shift then 1 else 10 ^ (- shift)) in
    let q := num / den in
    let q := if (num mod den =? 0) || negb (q mod 5 =? 0) then q else q + 1 in
    ctx_fix p (Dec (Z.sgn (coef a) * Z.sgn (coef b) * q) (dexp a - dexp b - shift)).

(** [Decimal.log10] of a positive value at the precision of the context is
    correctly rounded, hence monotone; its digits come from the library. *)
Class DecimalLog := { dec_log10 : Z → dec → dec }.
Class DecimalLogLaws `{DecimalLog} := {
  dec_log10_mono : ∀ p a b, 0 < coef a → dec_leb a b = true → dec_leb (dec_log10 p a) (dec_log10 p b) = true;
}.

(** ** [Decimal(str)] *)

(** The decimal digits of every script ([str.isdecimal]); ASCII digits are the
    ones every version of the tables has. *)
Class DecimalDigits := { digit_value : N → option Z }.
#[export] Instance ascii_digits : DecimalDigits :=
  {| digit_value := λ c, if ((48 <=? c) && (c <=? 57))%N then Some (Z.of_N c - 48) else None |}.

Section parse.
Context `{DecimalDigits}.

(** The leading digits and the rest. *)
Fixpoint span_digits (s : str) : list Z * str :=
  match s with
  | [] => ([], [])
  | c :: s' => match digit_value c with
               | Some v => let '(ds, rest) := span_digits s' in (v :: ds, rest)
               | None => ([], s)
               end
  end.

Definition digits_number (ds : list Z) : Z := foldl (λ acc d, acc * 10 + d) 0 ds.

Definition take_sign (s : str) : Z * str :=
  match s with
  | 43%N :: s' => (1, s')
  | 45%N :: s' => (-1, s')
  | _ => (1, s)
  end.

Definition special_number (s : str) : bool :=
  let s := ascii_lower_char <$> s in
  bool_decide (s = lit "inf") || bool_decide (s = lit "infinity")
  || (startswith (lit "nan") s && bool_decide ((span_digits (drop 3 s)).2 = []))
  || (startswith (lit "snan") s && bool_decide ((span_digits (drop 4 s)).2 = [])).

Definition parse_exponent (s : str) : option Z :=
  match s with
  | [] => Some 0
  | c :: s' =>
      if ((c =? 101) || (c =? 69))%N then
        let '(sign, s') := take_sign s' in
        match span_digits s' with
        | ((_ :: _) as ds, []) => Some (sign * digits_number ds)
        | _ => None
        end
      else None
  end.

(** The constructor is exact: a value outside the range of every context is
    InvalidOperation.  These are the limits of the 64-bit build. *)
Definition MAX_EMAX : Z := 999999999999999999.
Definition MIN_ETINY : Z := -1999999999999999997.
Definition representable (a : dec) : bool :=
  (MIN_ETINY <=? dexp a) && (digit_count (coef a) + dexp a - 1 <=? MAX_EMAX).

(** [None] is InvalidOperation, [Some None] an infinity or a NaN. *)
Definition parse_decimal (value : str) : option (option dec) :=
  let s := filter (λ c, c ≠ 95%N) (strip value) in
  let '(sign, s) := take_sign s in
  if special_number s then Some None
  else
    let '(int, rest) := span_digits s in
    let '(frac, rest) := match rest with 46%N :: r => span_digits r | _ => ([], rest) end in
    match int ++ frac, parse_exponent rest with
    | (_ :: _) as ds, Some e =>
        let d := Dec (sign * digits_number ds) (e - zlen frac) in
        if representable d then Some (Some d) else None
    | _, _ => None
    end.
End parse.

(** ** Printing: decimals with the sign of a zero, as [str] prints them *)
Record Decimal := { d_negative : bool; d_value : dec }.

Definition zeros (n : Z) : str := repeat 48%N (Z.to_nat n).

(** [str(d)]: scientific notation when the exponent asks for it. *)
Definition str_of_decimal (d : Decimal) : str :=
  let int := str_of_N (Z.to_N (Z.abs (coef (d_value d)))) in
  let e := dexp (d_value d) in
  let leftdigits := e + zlen int in
  let dotplace := if (e <=? 0) && (-6 <? leftdigits) then leftdigits else 1 in
  let body :=
    if dotplace <=? 0 then lit "0." ++ zeros (- dotplace) ++ int
    else if zlen int <=? dotplace then int ++ zeros (dotplace - zlen int)
    else take (Z.to_nat dotplace) int ++ lit "." ++ drop (Z.to_nat dotplace) int in
  let exponent :=
    if leftdigits =? dotplace then []
    else lit "E" ++ (if 0 <=? leftdigits - dotplace then lit "+" else []) ++ str_of_Z (leftdigits - dotplace) in
  (if d_negative d then lit "-" else []) ++ body ++ exponent.

(** [str(d)] of a decimal that is not a negative zero. *)
Definition str_of_dec (d : dec) : str := str_of_decimal {| d_negative := coef d <? 0; d_value := d |}.

(** [repr(x)]: the shortest digits, in scientific notation when the exponent
    asks for it. *)
Definition float_repr (x : float) : str :=
  match x with
  | SpecFloat.S754_zero s => (if s then lit "-" else []) ++ lit "0.0"
  | SpecFloat.S754_infinity s => (if s then lit "-" else []) ++ lit "inf"
  | SpecFloat.S754_nan => lit "nan"
  | SpecFloat.S754_finite s _ _ =>
      let '(c, p) := default (0, 0) (repr_decimal (fabs x)) in
      let ds := str_of_Z c in
      let point := zlen ds + p in
      (if s then lit "-" else [])
      ++ if (-4 <? point) && (point <=? 16)
         then if point <=? 0 then lit "0." ++ zeros (- point) ++ ds
              else if zlen ds <=? point then ds ++ zeros (point - zlen ds) ++ lit ".0"
              else take (Z.to_nat point) ds ++ lit "." ++ drop (Z.to_nat point) ds
         else
           let e := point - 1 in
           let fraction := drop 1 ds in
           take 1 ds ++ (if bool_decide (fraction = []) then [] else lit "." ++ fraction)
           ++ lit "e" ++ (if e <? 0 then lit "-" else lit "+")
           ++ (if Z.abs e <? 10 then lit "0" else []) ++ str_of_Z (Z.abs e)
  end.

(** [Decimal(str(x))] of a finite float. *)
Definition dec_of_repr (x : float) : dec :=
  match parse_decimal (H := ascii_digits) (float_repr x) with Some (Some d) => d | _ => d0 end.

Example float_repr_samples :
  (float_repr <$> [f_ratio 1 10; f_of_Z 25; f_ratio 1 100000; f_ratio 123456789 1000; f_of_Z (10 ^ 16); fneg (f_ratio 1 3)]) =
  (lit <$> ["0.1"; "25.0"; "1e-05"; "123456.789"; "1e+16"; "-0.3333333333333333"]%string).
Proof. vm_compute. reflexivity. Qed.

(** [float(d)]: correctly rounded. *)
Definition float_of_dec (a : dec) : float := dec_float (coef a) (dexp a).

(** ** Order facts *)
Lemma rescaled_shift e e' a : e' ≤ e → e ≤ dexp a → rescaled e' a = rescaled e a * 10 ^ (e - e').
Proof.
  intros. unfold rescaled. rewrite <- Z.mul_assoc, <- Z.pow_add_r by lia. do 2 f_equal. lia.
Qed.

Lemma dec_compare_at e a b :
  e ≤ dexp a → e ≤ dexp b → dec_compare a b = Z.compare (rescaled e a) (rescaled e b).
Proof.
  intros Ha Hb. unfold dec_compare. set (m := Z.min _ _). cbn zeta.
  rewrite (rescaled_shift m e a), (rescaled_shift m e b) by lia.
  pose proof (Z.pow_pos_nonneg 10 (m - e)) as H. set (k := 10 ^ _) in *.
  symmetry. destruct (Z.compare_spec (rescaled m a) (rescaled m b)) as [->| |].
  - apply Z.compare_refl.
  - apply Z.compare_lt_iff. nia.
  - apply Z.compare_gt_iff. nia.
Qed.

Lemma dec_compare_refl a : dec_compare a a = Eq.
Proof. unfold dec_compare. apply Z.compare_refl. Qed.

Lemma dec_compare_antisym a b : dec_compare b a = CompOpp (dec_compare a b).
Proof. unfold dec_compare. by rewrite Z.min_comm, Z.compare_antisym. Qed.

(** All values live on one scale, so the order is that of the integers. *)
Lemma dec_compare_scale3 a b c : ∃ x y z : Z,
  dec_compare a b = Z.compare x y ∧ dec_compare b c = Z.compare y z ∧ dec_compare a c = Z.compare x z.
Proof.
  set (e := Z.min (dexp a) (Z.min (dexp b) (dexp c))).
  exists (rescaled e a), (rescaled e b), (rescaled e c).
  split_and!; apply dec_compare_at; lia.
Qed.

Lemma dec_ltb_trans a b c : dec_ltb a b = true → dec_ltb b c = true → dec_ltb a c = true.
Proof.
  unfold dec_ltb. destruct (dec_compare_scale3 a b c) as (x & y & z & -> & -> & ->).
  destruct (Z.compare_spec x y), (Z.compare_spec y z), (Z.compare_spec x z); try done; lia.
Qed.

Lemma dec_ltb_irrefl a : dec_ltb a a = false.
Proof. unfold dec_ltb. by rewrite dec_compare_refl. Qed.

(** ** Rounding keeps the sign *)
Lemma half_even_pos c n : 0 ≤ n → 10 ^ n ≤ c → 0 < half_even c n.
Proof.
  intros Hn Hc. unfold half_even.
  assert (0 < 10 ^ n) by (by apply Z.pow_pos_nonneg).
  assert (1 ≤ c / 10 ^ n) by (apply Z.div_le_lower_bound; lia).
  repeat case_match; lia.
Qed.

Lemma digit_count_lower c n : 1 ≤ n → n < digit_count c → 10 ^ n ≤ Z.abs c.
Proof.
  intros Hn Hlt. apply Z.nlt_ge. intros Hc. unfold digit_count, zlen in Hlt.
  assert (length (str_of_N (Z.to_N (Z.abs c))) ≤ S (Z.to_nat (n - 1)))%nat; [|lia].
  apply str_of_N_length. replace (N.of_nat (S (Z.to_nat (n - 1)))) with (Z.to_N n) by lia.
  apply N2Z.inj_lt. rewrite N2Z.inj_pow, !Z2N.id by lia. done.
Qed.

Lemma dec_fix_sign a : Z.sgn (coef (dec_fix a)) = Z.sgn (coef a).
Proof.
  unfold dec_fix. case_match eqn:E; [done|]. apply Z.leb_gt in E. unfold DECIMAL_PREC in *.
  assert (0 < half_even (Z.abs (coef a)) (digit_count (coef a) - 28)).
  { apply half_even_pos; [lia|]. apply digit_count_lower; lia. }
  case_match; cbn [coef]; rewrite Z.sgn_mul, Z.sgn_sgn;
    (rewrite (Z.sgn_pos (half_even _ _)) by done) || (change (Z.sgn (10 ^ (28 - 1))) with 1); lia.
Qed.

Lemma dec_sub_sign a b :
  Z.sgn (coef (dec_sub a b)) = match dec_compare a b with Lt => -1 | Eq => 0 | Gt => 1 end.
Proof.
  unfold dec_sub, dec_add. rewrite dec_fix_sign. unfold dec_compare, dec_neg, rescaled. cbn [coef dexp].
  rewrite Z.mul_opp_l. generalize (coef a * 10 ^ (dexp a - Z.min (dexp a) (dexp b))) as x.
  generalize (coef b * 10 ^ (dexp b - Z.min (dexp a) (dexp b))) as y. intros y x.
  destruct (Z.compare_spec x y) as [->| |]; lia.
Qed.

Lemma dec_compare_zero a : dec_compare a d0 = Z.compare (coef a) 0.
Proof.
  unfold dec_compare, rescaled. cbn [coef dexp d0 dec_of_Z]. rewrite Z.mul_0_l.
  pose proof (Z.pow_pos_nonneg 10 (dexp a - Z.min (dexp a) 0)).
  destruct (Z.compare_spec (coef a) 0) as [->| |]; [by rewrite Z.mul_0_l| |].
  - apply Z.compare_lt_iff. nia.
  - apply Z.compare_gt_iff. nia.
Qed.

Example dec_tenths : dec_compare (dec_add (Dec 1 (-1)) (Dec 2 (-1))) (Dec 3 (-1)) = Eq.
Proof. reflexivity. Qed.

Example dec_rounds : dec_add (Dec 1 0) (Dec 5 (-28)) = Dec 1000000000000000000000000000 (-27).
Proof. vm_compute. reflexivity. Qed.

Example parse_decimal_plain : parse_decimal (lit " -1_2.50e3 ") = Some (Some (Dec (-1250) 1)).
Proof. vm_compute. reflexivity. Qed.

Example parse_decimal_words : parse_decimal (lit "NaN12") = Some None ∧ parse_decimal (lit ".") = None.
Proof. vm_compute. done. Qed.

Example third : ctx_div 5 (Dec 2 0) (Dec 3 0) = Ok (Dec 66667 (-5)).
Proof. vm_compute. reflexivity. Qed.
