(* ===== verification/Ids.v ===== *)
(** * Identifiers: [src/src/spine/ids.py] and Python's [uuid.UUID]

    ULIDs are minted as 26 Crockford base-32 characters of a 48-bit time and
    80 random bits, and normalised by a case-insensitive pattern.  UUIDs are
    their 128-bit integer; [str(uuid)] is the hyphenated hexadecimal form. *)
From S2P Require Import Prelude PyStr.
Open Scope Z_scope.

Abbreviation uuid := N (only parsing).

(** ** Fixed-width positional digits, the reference encoding *)
Section digits.
Context (base : Z) (alpha : Z → N).

Fixpoint encode_digits (n : nat) (v : Z) : str :=
  match n with
  | O => []
  | S n' => encode_digits n' (v / base) ++ [alpha (v mod base)]
  end.

Definition decode_digits (value : N → Z) (s : str) : Z :=
  foldl (fun acc c => acc * base + value c) 0 s.
End digits.

(** ** ULIDs *)
Definition ULID_ALPHABET : str := lit "0123456789ABCDEFGHJKMNPQRSTVWXYZ".

Definition ulid_digit (i : Z) : N := nth (Z.to_nat i) ULID_ALPHABET 0%N.

(** [re.compile("^[0-7][0-9A-HJKMNP-TV-Z]{25}$", re.IGNORECASE)]: with
    IGNORECASE a [str] pattern also accepts the two non-ASCII letters that
    case-fold into the class, U+017F (long s) and U+212A (Kelvin sign). *)
Definition ulid_upper_char (c : N) : bool :=
  ((48 <=? c) && (c <=? 57) || (65 <=? c) && (c <=? 72) || (c =? 74) || (c =? 75)
   || (c =? 77) || (c =? 78) || (80 <=? c) && (c <=? 84) || (86 <=? c) && (c <=? 90))%N.
Definition ulid_class_char (c : N) : bool :=
  (ulid_upper_char c
   || (97 <=? c) && (c <=? 122) && ulid_upper_char (c - 32)
   || (c =? 383) || (c =? 8490))%N.
Definition ulid_first_char (c : N) : bool := ((48 <=? c) && (c <=? 55))%N.

Definition ulid_pattern (s : str) : bool :=
  match s with
  | c :: s' => ulid_first_char c && (length s' =? 25)%nat && forallb ulid_class_char s'
  | [] => false
  end.

(** [str.upper] on the characters the pattern accepts: U+017F becomes S and
    U+212A is its own upper case. *)
Definition upper_char (c : N) : N :=
  (if (97 <=? c) && (c <=? 122) then c - 32 else if c =? 383 then 83 else c)%N.

Inductive ids_error := NotAUlid.

Definition normalize_ulid (value : str) : res ids_error str :=
  if ulid_pattern value then Ok (upper_char <$> value) else Err NotAUlid.

(** The loop of [mint_ulid] fills an array of 26 characters from its end. *)
Definition mint_step (st : str * Z) (index : nat) : str * Z :=
  let '(encoded, value) := st in
  (<[index := ulid_digit (Z.land value 31)]> encoded, Z.shiftr value 5).

Definition mint_value (time_ms rand : Z) : Z :=
  let timestamp_ms := Z.land time_ms (Z.shiftl 1 48 - 1) in
  Z.lor (Z.shiftl timestamp_ms 80) rand.

Definition mint_ulid (time_ms rand : Z) : str :=
  (foldl mint_step (replicate 26 48%N, mint_value time_ms rand) (rev (seq 0 26))).1.

(** The canonical form that the revision log insists on ([db/memory.py],
    [_ULID_PATTERN], no IGNORECASE). *)
Definition canonical_ulid (s : str) : bool :=
  match s with
  | c :: s' => ulid_first_char c && (length s' =? 25)%nat && forallb ulid_upper_char s'
  | [] => false
  end.

Definition ulid_value (c : N) : Z :=
  Z.of_nat (default 0%nat (fst <$> list_find (λ d, d = c) ULID_ALPHABET)).
Definition decode_ulid (s : str) : Z := decode_digits 32 ulid_value s.

(** ** UUIDs *)
Definition hex_digit (i : Z) : N := if i <? 10 then Z.to_N (48 + i) else Z.to_N (87 + i).

(** [str(uuid)]: ["%032x" % int] cut 8-4-4-4-12. *)
Definition uuid_str (n : N) : str :=
  let h := encode_digits 16 hex_digit 32 (Z.of_N n) in
  take 8 h ++ 45%N :: take 4 (drop 8 h) ++ 45%N :: take 4 (drop 12 h)
  ++ 45%N :: take 4 (drop 16 h) ++ 45%N :: drop 20 h.

#[global] Arguments uuid_str : simpl never.
#[global] Arguments mint_ulid : simpl never.

(** ** Digits: length, round trip, order *)
Lemma str_compare_app s1 s2 t1 t2 :
  length s1 = length s2 →
  str_compare (s1 ++ t1) (s2 ++ t2) =
  match str_compare s1 s2 with Eq => str_compare t1 t2 | c => c end.
Proof.
  revert s2; induction s1 as [|a s1 IH]; intros [|b s2]; cbn; try done.
  intros [= Hl]. destruct (N.compare a b); auto.
Qed.

Section digit_facts.
Context (base : Z) (alpha : Z → N).
Hypothesis Hbase : 1 < base.

Lemma encode_digits_length n v : length (encode_digits base alpha n v) = n.
Proof using Type.
  revert v; induction n; intros v; cbn; [done|]. rewrite length_app, IHn. cbn. lia.
Qed.

Lemma encode_digits_Forall (P : N → Prop) n v :
  (∀ i, 0 ≤ i < base → P (alpha i)) → Forall P (encode_digits base alpha n v).
Proof using Hbase.
  intros HP. revert v; induction n as [|n IH]; intros v; cbn; [constructor|].
  apply Forall_app; split; [apply IH|]. constructor; [|constructor].
  apply HP, Z.mod_pos_bound. lia.
Qed.

Lemma decode_encode_digits (value : N → Z) n v :
  (∀ i, 0 ≤ i < base → value (alpha i) = i) →
  decode_digits base value (encode_digits base alpha n v) = v mod base ^ Z.of_nat n.
Proof using Hbase.
  intros Hv. revert v; induction n as [|n IH]; intros v.
  { cbn. by rewrite Z.mod_1_r. }
  unfold decode_digits in *. cbn [encode_digits]. rewrite foldl_app, IH. cbn [foldl].
  rewrite Hv by (apply Z.mod_pos_bound; lia).
  rewrite Nat2Z.inj_succ, Z.pow_succ_r by lia.
  rewrite Z.rem_mul_r by (try apply Z.pow_pos_nonneg; lia). lia.
Qed.

Hypothesis alpha_mono : ∀ i j, 0 ≤ i < base → 0 ≤ j < base →
  N.compare (alpha i) (alpha j) = Z.compare i j.

Lemma encode_digits_compare n a b :
  0 ≤ a < base ^ Z.of_nat n → 0 ≤ b < base ^ Z.of_nat n →
  str_compare (encode_digits base alpha n a) (encode_digits base alpha n b) = Z.compare a b.
Proof using Hbase alpha_mono.
  revert a b; induction n as [|n IH]; intros a b Ha Hb.
  { cbn in *. symmetry. apply Z.compare_eq_iff. lia. }
  cbn [encode_digits]. rewrite str_compare_app by (by rewrite !encode_digits_length).
  rewrite Nat2Z.inj_succ, Z.pow_succ_r in Ha, Hb by lia.
  rewrite IH by (split; [apply Z.div_pos|apply Z.div_lt_upper_bound]; lia). cbn.
  rewrite alpha_mono by (apply Z.mod_pos_bound; lia).
  pose proof (Z.div_mod a base ltac:(lia)) as Ea.
  pose proof (Z.div_mod b base ltac:(lia)) as Eb.
  pose proof (Z.mod_pos_bound a base ltac:(lia)).
  pose proof (Z.mod_pos_bound b base ltac:(lia)).
  destruct (Z.compare_spec (a / base) (b / base)) as [E|E|E].
  - destruct (Z.compare_spec (a mod base) (b mod base)); symmetry;
      [apply Z.compare_eq_iff|apply Z.compare_lt_iff|apply Z.compare_gt_iff]; nia.
  - symmetry. apply Z.compare_lt_iff. nia.
  - symmetry. apply Z.compare_gt_iff. nia.
Qed.
End digit_facts.

(** ** The ULID alphabet, checked digit by digit *)
Lemma below_32_cases (P : Z → Prop) :
  Forall (λ n, P (Z.of_nat n)) (seq 0 32) → ∀ i, 0 ≤ i < 32 → P i.
Proof.
  intros HP i Hi. rewrite Forall_forall in HP.
  replace i with (Z.of_nat (Z.to_nat i)) by lia. apply HP, elem_of_seq. lia.
Qed.

Ltac each_digit := apply below_32_cases; repeat constructor.

Lemma ulid_digit_value i : 0 ≤ i < 32 → ulid_value (ulid_digit i) = i.
Proof. revert i; each_digit. Qed.

Lemma ulid_digit_canonical i : 0 ≤ i < 32 → ulid_upper_char (ulid_digit i) = true.
Proof. revert i; each_digit. Qed.

Lemma ulid_digit_mono i j : 0 ≤ i < 32 → 0 ≤ j < 32 →
  N.compare (ulid_digit i) (ulid_digit j) = Z.compare i j.
Proof.
  intros Hi Hj. revert j Hj i Hi.
  apply (below_32_cases (λ j, ∀ i, 0 ≤ i < 32 → _)).
  repeat (apply Forall_cons; split; [each_digit|]). constructor.
Qed.

Lemma hex_digit_mono i j : 0 ≤ i < 16 → 0 ≤ j < 16 →
  N.compare (hex_digit i) (hex_digit j) = Z.compare i j.
Proof.
  intros Hi Hj. unfold hex_digit.
  destruct (Z.ltb_spec i 10), (Z.ltb_spec j 10);
    destruct (Z.compare_spec i j); subst;
    first [exfalso; lia|apply N.compare_refl|apply N.compare_lt_iff; lia|apply N.compare_gt_iff; lia].
Qed.

(** ** The mint loop *)
Lemma mint_loop n encoded v :
  (n ≤ length encoded)%nat →
  (foldl mint_step (encoded, v) (rev (seq 0 n))).1 =
  encode_digits 32 ulid_digit n v ++ drop n encoded.
Proof.
  revert encoded v; induction n as [|n IH]; intros encoded v Hn; [done|].
  rewrite seq_S, rev_app_distr. cbn [rev app foldl mint_step plus].
  rewrite IH by (rewrite length_insert; lia). cbn [encode_digits].
  change 31 with (Z.ones 5). rewrite (Z.land_ones v 5), (Z.shiftr_div_pow2 v 5) by lia.
  rewrite <- app_assoc. do 2 f_equal. cbn [app].
  erewrite drop_S by (apply list_lookup_insert_eq; lia).
  by rewrite drop_insert_lt by lia.
Qed.

Lemma mint_ulid_encode t r : mint_ulid t r = encode_digits 32 ulid_digit 26 (mint_value t r).
Proof. unfold mint_ulid. rewrite mint_loop by (cbn; lia). by rewrite app_nil_r. Qed.

Lemma lor_shiftl_add x r k : 0 ≤ k → 0 ≤ r < 2 ^ k → Z.lor (Z.shiftl x k) r = x * 2 ^ k + r.
Proof.
  intros Hk Hr. rewrite <- Z.shiftl_mul_pow2 by done.
  enough (Z.land (Z.shiftl x k) r = 0) as E by (symmetry; by apply Z.add_nocarry_lor).
  apply Z.bits_inj'. intros n Hn. rewrite Z.land_spec, Z.bits_0.
  destruct (Z.lt_ge_cases n k).
  - by rewrite Z.shiftl_spec_low.
  - replace (Z.testbit r n) with false; [apply andb_false_r|]. symmetry.
    destruct (Z.eq_dec r 0) as [->|]; [apply Z.bits_0|].
    apply Z.bits_above_log2; [lia|]. apply Z.log2_lt_pow2; [lia|].
    eapply Z.lt_le_trans; [apply Hr|]. apply Z.pow_le_mono_r; lia.
Qed.

Lemma mint_value_eq t r : 0 ≤ r < 2 ^ 80 → mint_value t r = (t mod 2 ^ 48) * 2 ^ 80 + r.
Proof.
  intros Hr. unfold mint_value. rewrite lor_shiftl_add by lia. do 2 f_equal.
  replace (Z.shiftl 1 48 - 1) with (Z.ones 48) by reflexivity. by apply Z.land_ones.
Qed.

Lemma mint_value_bound t r : 0 ≤ r < 2 ^ 80 → 0 ≤ mint_value t r < 2 ^ 128.
Proof.
  intros Hr. rewrite mint_value_eq by done.
  pose proof (Z.mod_pos_bound t (2 ^ 48) ltac:(lia)). nia.
Qed.

(** The first character carries the three leading bits of a 128-bit value. *)
Lemma encode_26_head v : 0 ≤ v < 2 ^ 128 →
  ∃ c s, encode_digits 32 ulid_digit 26 v = ulid_digit c :: s ∧ 0 ≤ c < 8 ∧
         s = encode_digits 32 ulid_digit 25 v.
Proof.
  intros Hv.
  assert (Hgen : ∀ n w, encode_digits 32 ulid_digit (S n) w =
    ulid_digit (w / 32 ^ Z.of_nat n mod 32) :: encode_digits 32 ulid_digit n w).
  { clear. induction n as [|n IH]; intros w; [cbn; by rewrite Z.div_1_r|].
    change (encode_digits 32 ulid_digit (S (S n)) w) with
      (encode_digits 32 ulid_digit (S n) (w / 32) ++ [ulid_digit (w mod 32)]).
    rewrite IH. cbn [app]. f_equal.
    rewrite Nat2Z.inj_succ, Z.pow_succ_r, Z.div_div by lia. done. }
  rewrite (Hgen 25%nat v).
  assert (Hc : 0 ≤ v / 32 ^ Z.of_nat 25 < 8)
    by (split; [apply Z.div_pos|apply Z.div_lt_upper_bound]; lia).
  rewrite Z.mod_small by lia. eauto.
Qed.

(** ** Properties *)

(** Every minted identifier is a canonical 26-character ULID, whatever
    the clock reads and whatever 80 random bits are drawn. *)
Theorem mint_ulid_canonical (time_ms rand : Z) :
  0 ≤ rand < 2 ^ 80 → canonical_ulid (mint_ulid time_ms rand) = true.
Proof.
  intros Hr. rewrite mint_ulid_encode.
  destruct (encode_26_head (mint_value time_ms rand)) as (c & s & -> & Hc & ->).
  { by apply mint_value_bound. }
  cbn [canonical_ulid]. rewrite encode_digits_length. cbn [Nat.eqb].
  apply andb_true_iff; split; [apply andb_true_iff; split; [|done]|].
  - unfold ulid_first_char. revert c Hc. clear.
    intros c Hc. assert (c ∈ [0; 1; 2; 3; 4; 5; 6; 7]) as Hin.
    { rewrite !elem_of_cons. lia. }
    repeat (apply elem_of_cons in Hin as [->|Hin]; [done|]). by apply not_elem_of_nil in Hin.
  - apply forallb_forall, List.Forall_forall.
    apply encode_digits_Forall; [lia|]. apply ulid_digit_canonical.
Qed.

Lemma mint_ulid_canonical_witness : canonical_ulid (mint_ulid 1786233600123 77) = true.
Proof. apply (mint_ulid_canonical 1786233600123 77). lia. Defined.

(** The time and the random bits of a minted identifier are recovered by
    reading it as a base-32 number, so distinct draws give distinct identifiers. *)
Theorem mint_ulid_roundtrip (time_ms rand : Z) :
  0 ≤ rand < 2 ^ 80 →
  decode_ulid (mint_ulid time_ms rand) = (time_ms mod 2 ^ 48) * 2 ^ 80 + rand.
Proof.
  intros Hr. rewrite mint_ulid_encode. unfold decode_ulid.
  rewrite decode_encode_digits by (try apply ulid_digit_value; lia).
  rewrite Z.mod_small; [by apply mint_value_eq|].
  pose proof (mint_value_bound time_ms rand Hr). lia.
Qed.

Lemma mint_ulid_roundtrip_witness :
  decode_ulid (mint_ulid 1786233600123 77) = (1786233600123 mod 2 ^ 48) * 2 ^ 80 + 77.
Proof. apply (mint_ulid_roundtrip 1786233600123 77). lia. Defined.

(** Identifiers sort as strings by the time they were minted: a later
    millisecond gives a lexicographically greater ULID, which is what ordering
    queue rows by [item_uid] relies on. *)
Theorem mint_ulid_sorts_by_time (t1 t2 r1 r2 : Z) :
  0 ≤ t1 < t2 → t2 < 2 ^ 48 → 0 ≤ r1 < 2 ^ 80 → 0 ≤ r2 < 2 ^ 80 →
  str_ltb (mint_ulid t1 r1) (mint_ulid t2 r2) = true.
Proof.
  intros Ht Ht2 Hr1 Hr2. unfold str_ltb. rewrite !mint_ulid_encode.
  pose proof (mint_value_bound t1 r1 Hr1). pose proof (mint_value_bound t2 r2 Hr2).
  rewrite encode_digits_compare by (try apply ulid_digit_mono; lia).
  rewrite !mint_value_eq, !Z.mod_small by lia.
  rewrite (proj2 (Z.compare_lt_iff _ _)); [done|nia].
Qed.

Lemma mint_ulid_sorts_by_time_witness :
  str_ltb (mint_ulid 5 (2 ^ 80 - 1)) (mint_ulid 6 0) = true.
Proof. apply (mint_ulid_sorts_by_time 5 6 (2 ^ 80 - 1) 0); lia. Defined.

Lemma upper_canonical c : ulid_upper_char c = true → upper_char c = c.
Proof. unfold ulid_upper_char, upper_char. intros H. repeat case_match; try done; exfalso; lia. Qed.

Lemma upper_class c :
  ulid_class_char c = true → c ≠ 8490%N → ulid_upper_char (upper_char c) = true.
Proof.
  unfold ulid_class_char, upper_char. intros H Hk.
  destruct ((97 <=? c) && (c <=? 122))%N eqn:E1; [|destruct (N.eqb_spec c 383) as [->|]; [done|]].
  - unfold ulid_upper_char in *. lia.
  - unfold ulid_upper_char in *. lia.
Qed.

Lemma upper_first c : ulid_first_char c = true → upper_char c = c.
Proof. unfold ulid_first_char, upper_char. intros H. repeat case_match; try done; exfalso; lia. Qed.

Lemma normalize_canonical t : canonical_ulid t = true → normalize_ulid t = Ok t.
Proof.
  destruct t as [|c t]; [done|]. unfold normalize_ulid. cbn. intros H. breflect.
  rewrite H, H1. cbn. rewrite (upper_first c) by done.
  rewrite forallb_forall in H0.
  replace (forallb ulid_class_char t) with true.
  - do 2 f_equal. rewrite <- (list_fmap_id t) at 2. apply list_fmap_ext.
    intros i d Hd. apply upper_canonical, H0. apply list_elem_of_In. by eapply list_elem_of_lookup_2.
  - symmetry. apply forallb_forall. intros d Hd. unfold ulid_class_char. by rewrite H0.
Qed.

(** What [normalize_ulid] returns, branch by branch: it rejects exactly the
    strings the pattern rejects, and a string it accepts becomes canonical
    unless it holds a Kelvin sign (U+212A). *)
Theorem normalize_ulid_spec (s : str) :
  (normalize_ulid s = Err NotAUlid ↔ ulid_pattern s = false) ∧
  (∀ t, normalize_ulid s = Ok t → 8490%N ∉ s →
        canonical_ulid t = true ∧ normalize_ulid t = Ok t).
Proof.
  unfold normalize_ulid. split; [by destruct (ulid_pattern s)|].
  intros t Ht Hk. destruct (ulid_pattern s) eqn:E; [|done]. injection Ht as <-.
  destruct s as [|c s]; [done|]. cbn in E |- *. breflect.
  rewrite (upper_first c) by done.
  apply not_elem_of_cons in Hk as [_ Hk].
  assert (Hall : Forall (λ d, ulid_upper_char d = true) (upper_char <$> s)).
  { apply Forall_fmap. rewrite forallb_forall in H0.
    apply Forall_forall. intros d Hd. apply upper_class; [|by intros ->].
    apply H0. by apply list_elem_of_In. }
  enough (canonical_ulid (c :: (upper_char <$> s)) = true) as Hc
    by (split; [done|by apply (normalize_canonical (c :: (upper_char <$> s)))]).
  cbn. rewrite length_fmap, H, H1. cbn. apply forallb_forall. by apply List.Forall_forall.
Qed.

(** The case-insensitive pattern lets a Kelvin sign (U+212A) through and
    upper-casing leaves it, so [normalize_ulid] can return a string that is not
    a canonical ULID and that the revision log's pattern refuses. *)
Theorem normalize_ulid_kelvin :
  ∃ s t, normalize_ulid s = Ok t ∧ canonical_ulid t = false ∧ length s = 26%nat.
Proof.
  exists (48%N :: replicate 25 8490%N), (48%N :: replicate 25 8490%N).
  by vm_compute.
Qed.

Lemma str_compare_split k s t :
  length s = length t →
  str_compare s t =
  match str_compare (take k s) (take k t) with
  | Eq => str_compare (drop k s) (drop k t)
  | c => c
  end.
Proof.
  intros Hl. rewrite <- (take_drop k s) at 1. rewrite <- (take_drop k t) at 1.
  rewrite str_compare_app; [done|]. rewrite !length_take. lia.
Qed.

Lemma str_compare_dash k s t x y :
  length s = length t →
  str_compare (take k s ++ 45%N :: x) (take k t ++ 45%N :: y) =
  match str_compare (take k s) (take k t) with Eq => str_compare x y | c => c end.
Proof. intros Hl. rewrite str_compare_app; [done|]. rewrite !length_take. lia. Qed.

(** Sorting identifiers by [str(uuid)] is sorting them by integer. *)
Lemma uuid_str_compare (a b : uuid) :
  (a < 2 ^ 128)%N → (b < 2 ^ 128)%N →
  str_compare (uuid_str a) (uuid_str b) = N.compare a b.
Proof.
  intros Ha Hb. rewrite <- N2Z.inj_compare.
  rewrite <- (encode_digits_compare 16 hex_digit ltac:(lia) hex_digit_mono 32) by lia.
  unfold uuid_str.
  pose proof (encode_digits_length 16 hex_digit 32 (Z.of_N a)) as Ls.
  pose proof (encode_digits_length 16 hex_digit 32 (Z.of_N b)) as Lt.
  revert Ls Lt.
  generalize (encode_digits 16 hex_digit 32 (Z.of_N a)) as s.
  generalize (encode_digits 16 hex_digit 32 (Z.of_N b)) as t. clear.
  intros t s Ls Lt.
  rewrite (str_compare_split 8 s t), str_compare_dash by congruence.
  rewrite (str_compare_split 4 (drop 8 s) (drop 8 t)), str_compare_dash
    by (rewrite !length_drop; lia).
  rewrite !drop_drop. cbn [Nat.add].
  rewrite (str_compare_split 4 (drop 12 s) (drop 12 t)), str_compare_dash
    by (rewrite !length_drop; lia).
  rewrite !drop_drop. cbn [Nat.add].
  rewrite (str_compare_split 4 (drop 16 s) (drop 16 t)), str_compare_dash
    by (rewrite !length_drop; lia).
  by rewrite !drop_drop.
Qed.
