(* ===== verification/PyJson.v ===== *)
(** * JSON values: what a JSONB column or a decoded response holds *)
From S2P Require Import Prelude PyStr PyFloat.
Open Scope Z_scope.

(** Python distinguishes [bool], [int] and [float] values at run time, and so
    does this type.  Objects keep their order of insertion. *)
#[warnings="-register-all"]
Inductive json :=
  | JNull
  | JBool (b : bool)
  | JInt (z : Z)
  | JFloat (f : float)
  | JStr (s : str)
  | JList (l : list json)
  | JObj (kv : list (str * json)).

(** [d.get(k)] on a value that may not be a mapping. *)
Definition jget (k : str) (j : json) : option json :=
  match j with JObj kv => aget k kv | _ => None end.

(** [d.get(k)], with Python's [None] for an absent key. *)
Definition jget_or_null (k : str) (kv : list (str * json)) : json := default JNull (aget k kv).

(** [isinstance(v, int) and not isinstance(v, bool)]. *)
Definition as_int (j : json) : option Z := match j with JInt z => Some z | _ => None end.
Definition as_str (j : json) : option str := match j with JStr s => Some s | _ => None end.

(** [isinstance(v, (int, float)) and not isinstance(v, bool)], with [float(v)]:
    an integer too large for a float raises OverflowError, seen as infinite. *)
Definition as_number (j : json) : option float :=
  match j with JInt z => Some (f_of_Z z) | JFloat f => Some f | _ => None end.

(** [bool(v)]. *)
Definition py_truthy (v : json) : bool :=
  match v with
  | JNull => false
  | JBool b => b
  | JInt z => negb (z =? 0)
  | JFloat f => negb (feq f f0)
  | JStr s => negb (bool_decide (s = []))
  | JList l => negb (bool_decide (length l = 0%nat))
  | JObj kv => negb (bool_decide (length kv = 0%nat))
  end.

(** [repr(value)]. *)
Class PyRepr := { py_repr : json → str }.

(** ** Python's [==] on decoded JSON: numbers compare by value whatever their
    type (a [bool] is 0 or 1), mappings without regard to order. *)

(** [float == int] is exact. *)
Definition float_eq_Z (f : float) (z : Z) : bool :=
  match f with
  | SpecFloat.S754_zero _ => z =? 0
  | SpecFloat.S754_finite s m e =>
      let v := if s then Z.neg m else Z.pos m in
      if 0 <=? e then v * 2 ^ e =? z else v =? z * 2 ^ (- e)
  | _ => false
  end.

Definition json_int (j : json) : option Z :=
  match j with JInt z => Some z | JBool b => Some (if b then 1 else 0) | _ => None end.

Definition number_eqb (a b : json) : bool :=
  match json_int a, json_int b, a, b with
  | Some x, Some y, _, _ => x =? y
  | Some x, None, _, JFloat g => float_eq_Z g x
  | None, Some y, JFloat f, _ => float_eq_Z f y
  | None, None, JFloat f, JFloat g => feq f g
  | _, _, _, _ => false
  end.

Fixpoint py_eqb (a b : json) : bool :=
  match a, b with
  | JNull, JNull => true
  | JStr s, JStr t => bool_decide (s = t)
  | JList l, JList m =>
      (fix go l m := match l, m with
                     | [], [] => true
                     | x :: l, y :: m => py_eqb x y && go l m
                     | _, _ => false
                     end) l m
  | JObj k, JObj m =>
      (length k =? length m)%nat
      && (fix go k := match k with
                      | [] => true
                      | (key, v) :: k => match aget key m with Some w => py_eqb v w | None => false end && go k
                      end) k
  | _, _ => number_eqb a b
  end.

(** What [json.loads] makes of a JSONB value: no NaN, no key twice. *)
Fixpoint json_proper (j : json) : bool :=
  match j with
  | JFloat f => negb (is_nan f)
  | JList l => (fix go l := match l with [] => true | x :: l => json_proper x && go l end) l
  | JObj k =>
      nodupb k.*1
      && (fix go (k : list (str * json)) := match k with [] => true | (_, v) :: k => json_proper v && go k end) k
  | _ => true
  end.

Lemma feq_refl f : is_nan f = false → feq f f = true.
Proof.
  destruct f as [| [] | |[] m e]; try done; intros _; unfold feq, SpecFloat.SFeqb, SpecFloat.SFcompare;
    by rewrite Z.compare_refl, Pos.compare_cont_refl.
Qed.

Fixpoint py_eqb_refl (j : json) : json_proper j = true → py_eqb j j = true.
Proof.
  destruct j as [|b|z|f|s|l|k]; cbn [py_eqb json_proper]; intros Hp.
  - done.
  - by destruct b.
  - apply Z.eqb_refl.
  - apply feq_refl. by destruct (is_nan f).
  - by apply bool_decide_true.
  - induction l as [|x l IH]; [done|]. apply andb_true_iff in Hp as [Hx Hl].
    rewrite (py_eqb_refl x Hx). by apply IH.
  - rewrite Nat.eqb_refl. cbn [andb]. apply andb_true_iff in Hp as [Hnd Hp].
    apply bool_decide_eq_true in Hnd.
    assert (Hin : ∀ key v, (key, v) ∈ k → aget key k = Some v) by (intros; by apply aget_elem).
    revert Hin. generalize k at 2 3 as m. clear Hnd. intros m Hin. revert Hin Hp.
    induction k as [|[key v] k IH]; intros Hin Hp; [done|]. apply andb_true_iff in Hp as [Hv Hp].
    rewrite (Hin key v) by (by left). rewrite (py_eqb_refl v Hv). apply IH; [|done].
    intros; apply Hin; by right.
Qed.

Example py_eqb_numbers :
  py_eqb (JList [JBool true; JInt 3; JFloat (f_of_Z 7)]) (JList [JInt 1; JFloat (f_of_Z 3); JInt 7]) = true.
Proof. vm_compute. reflexivity. Qed.
