(* ===== verification/JsonFacts.v ===== *)
(** * The JSON reader is total, and it reads back what the writer prints *)
From S2P Require Import Prelude PyStr PyFloat PyJson JsonText.
Open Scope N_scope.

(** ** Progress: what is left is shorter *)
Lemma skip_ws_length s : (length (skip_ws s) ≤ length s)%nat.
Proof. induction s as [|c s IH]; cbn; [done|]. case_match; cbn; lia. Qed.

Lemma take_digits_length s : (length (take_digits s).2 ≤ length s)%nat.
Proof.
  induction s as [|c s IH]; cbn; [done|]. case_match; [|done].
  destruct (take_digits s) as [ds r]; cbn in *; lia.
Qed.

Lemma frac_part_length s : (length (frac_part s).2 ≤ length s)%nat.
Proof.
  destruct s as [|c s]; cbn; [done|]. case_match; [|done].
  pose proof (take_digits_length s). destruct (take_digits s) as [[|] r]; cbn in *; lia.
Qed.

Lemma exp_sign_length s : (length (exp_sign s).2 ≤ length s)%nat.
Proof. destruct s; cbn; [done|]. case_match; cbn; lia. Qed.

Lemma exp_part_length s : (length (exp_part s).2 ≤ length s)%nat.
Proof.
  destruct s as [|c s]; cbn; [done|]. case_match; [|done].
  pose proof (exp_sign_length s). destruct (exp_sign s) as [sg r]. cbn in *.
  pose proof (take_digits_length r). destruct (take_digits r) as [[|] r']; cbn in *; lia.
Qed.

Lemma int_part_length s ip r : int_part s = Some (ip, r) → (length r < length s)%nat.
Proof.
  destruct s as [|c s]; cbn; [done|]. case_match; [intros [= _ <-]; lia|].
  case_match; [|done]. intros [= Hd].
  pose proof (take_digits_length s) as Hl. destruct (take_digits s). cbn in *. injection Hd as _ <-. lia.
Qed.

Lemma match_number_length s text b r : match_number s = Some (text, b, r) → (length r < length s)%nat.
Proof.
  unfold match_number. intros H. destruct (number_sign s) as [sg s1] eqn:Es.
  assert (length s1 ≤ length s)%nat.
  { destruct s as [|c s]; cbn in Es; [by injection Es as <- <-|]. case_match; injection Es as <- <-; cbn; lia. }
  destruct (int_part s1) as [[ip s2]|] eqn:Ei; cbn in H; [|done]. apply int_part_length in Ei.
  pose proof (frac_part_length s2). destruct (frac_part s2) as [fp s3]. cbn in *.
  pose proof (exp_part_length s3). destruct (exp_part s3) as [ep s4]. cbn in *.
  injection H as _ _ <-. lia.
Qed.

Section reader.
Context {E V : Type} (hooks : number_hooks E V).
Abbreviation result A := (res (json_error E) A).

(** The exceptions the hooks may raise. *)
Context (Q : E → Prop).

(** A reader that never runs dry, leaves less than [n] characters and raises
    only what a hook may raise. *)
Definition reads {A} (n : nat) (r : result (A * str)) : Prop :=
  match r with
  | Ok (_, rest) => (length rest < n)%nat
  | Err OutOfFuel => False
  | Err (HookError e) => Q e
  | Err JSONDecodeError => True
  end.

Lemma reads_mono {A} n m (r : result (A * str)) : (n ≤ m)%nat → reads n r → reads m r.
Proof. destruct r as [[a rest]|[]]; cbn; [lia|done..]. Qed.

Lemma reads_bind {A B} n m (r : result (A * str)) (f : A * str → result (B * str)) :
  reads n r → (∀ a rest, (length rest < n)%nat → reads m (f (a, rest))) → reads m (r ≫= f).
Proof. destruct r as [[a rest]|[]]; cbn; intros H Hf; try done. by apply Hf. Qed.

Lemma reads_or_bad {A B} n (o : option A) (f : A → result (B * str)) :
  (∀ a, o = Some a → reads n (f a)) → reads n (or_bad o ≫= f).
Proof. destruct o; cbn; [|done]. eauto. Qed.

Lemma reads_hooked {A B} n (r : res E A) (f : A → result (B * str)) :
  (∀ e, r = Err e → Q e) → (∀ a, reads n (f a)) → reads n (hooked r ≫= f).
Proof. destruct r; cbn; eauto. Qed.

Lemma scan_string_reads s : reads (length s) (scan_string (E:=E) s).
Proof.
  assert (∀ n s, (length s ≤ n)%nat → reads (length s) (scan_string (E:=E) s)) as H; [|by apply (H (length s))].
  clear s. induction n as [|n IH]; intros [|c s] Hs; cbn in Hs; try done; try lia.
  assert (Hone : ∀ c' r, (length r ≤ length s)%nat →
    reads (S (length s)) ('(t, r) ← scan_string (E:=E) r; Ok (c' :: t, r))).
  { intros c' r Hr. eapply reads_bind; [apply IH; lia|]. cbn. intros. lia. }
  cbn [scan_string length]. repeat case_match; subst; cbn [length] in *; try done; try (cbn; lia);
    repeat (apply reads_or_bad; intros; repeat case_match); subst; cbn [length] in *; try done;
    apply Hone; cbn [length]; lia.
Qed.
Hypothesis int_raises : ∀ text e, parse_int hooks text = Err e → Q e.
Hypothesis float_raises : ∀ text e, parse_float hooks text = Err e → Q e.
Hypothesis constant_raises : ∀ name e,
  name ∈ [lit "NaN"; lit "Infinity"; lit "-Infinity"] → parse_constant hooks name = Err e → Q e.

Lemma literal_progress s text v :
  literal hooks s = Some (text, v) →
  (length (drop (length text) s) < length s)%nat ∧
  match v with Err OutOfFuel => False | Err (HookError e) => Q e | _ => True end.
Proof using int_raises float_raises constant_raises.
  unfold literal.
  assert (Hlen : ∀ p, p ≠ [] → startswith p s = true → (length (drop (length p) s) < length s)%nat).
  { intros p Hp H. apply startswith_spec in H as [r ->]. rewrite drop_app_length, length_app.
    destruct p; cbn; [done|lia]. }
  assert (Hconst : ∀ name : string, lit name ∈ [lit "NaN"; lit "Infinity"; lit "-Infinity"] →
    match (v ← hooked (parse_constant hooks (lit name)); Ok (TNum v) : result (jtree V)) with
    | Err OutOfFuel => False | Err (HookError e) => Q e | _ => True end).
  { intros name Hn. destruct (parse_constant hooks (lit name)) eqn:Ec; cbn; [done|]. by eapply constant_raises. }
  do 3 (case_match; [intros [= <- <-]; split; [by apply Hlen|done]|]).
  repeat (case_match; [intros [= <- <-]; split; [by apply Hlen|apply Hconst; set_solver]|]). done.
Qed.

Lemma scan_scalar_reads s : reads (length s) (scan_scalar hooks s).
Proof using int_raises float_raises constant_raises.
  unfold scan_scalar. destruct (literal hooks s) as [[text v]|] eqn:El.
  - apply literal_progress in El as [Hl Hv]. by destruct v as [v|[]].
  - unfold scan_number. apply reads_or_bad. intros [[text b] r] Hm. apply match_number_length in Hm.
    apply reads_hooked; [|intros v; by cbn]. destruct b; eauto.
Qed.

(** The loops over elements and members spend one unit of fuel per item, and
    every item is at least one character long. *)
Lemma scan_elements_reads scan n fuel s acc :
  (∀ s, (length s ≤ n)%nat → reads (length s) (scan s)) →
  (length s ≤ n)%nat → (length s < fuel)%nat → reads (S (length s)) (scan_elements (E:=E) (V:=V) scan fuel s acc).
Proof.
  intros Hscan. revert s acc. induction fuel as [|fuel IH]; intros s acc Hn Hf; [lia|]. cbn.
  eapply reads_bind; [by apply Hscan|]. intros v r Hr. pose proof (skip_ws_length r) as Hws.
  destruct (skip_ws r) as [|c r']; cbn in Hws; [done|]. case_match; [cbn; lia|].
  case_match; [|done]. pose proof (skip_ws_length r'). eapply reads_mono; [|apply IH]; lia.
Qed.

Lemma scan_member_reads scan n s :
  (∀ s, (length s ≤ n)%nat → reads (length s) (scan s)) →
  (length s ≤ n)%nat → reads (length s) (scan_member (E:=E) (V:=V) scan s).
Proof.
  intros Hscan Hn. apply (reads_bind (length s)).
  { destruct s as [|c s]; [done|]. case_match; [|done].
    eapply reads_mono; [|apply scan_string_reads]. cbn; lia. }
  intros k r Hr. pose proof (skip_ws_length r) as Hws.
  destruct (skip_ws r) as [|c r']; cbn in Hws; [done|]. case_match; [|done]. cbn.
  pose proof (skip_ws_length r'). eapply reads_bind; [apply Hscan; lia|]. cbn. intros. lia.
Qed.

Lemma scan_members_reads scan n fuel s acc :
  (∀ s, (length s ≤ n)%nat → reads (length s) (scan s)) →
  (length s ≤ n)%nat → (length s < fuel)%nat → reads (S (length s)) (scan_members (E:=E) (V:=V) scan fuel s acc).
Proof.
  intros Hscan. revert s acc. induction fuel as [|fuel IH]; intros s acc Hn Hf; [lia|]. cbn.
  eapply reads_bind; [by eapply scan_member_reads|]. intros [k v] r Hr. pose proof (skip_ws_length r) as Hws.
  destruct (skip_ws r) as [|c r']; cbn in Hws; [done|]. case_match; [cbn; lia|].
  case_match; [|done]. pose proof (skip_ws_length r'). eapply reads_mono; [|apply IH]; lia.
Qed.

Lemma scan_once_reads fuel s : (length s < fuel)%nat → reads (length s) (scan_once hooks fuel s).
Proof using int_raises float_raises constant_raises.
  revert s. induction fuel as [|fuel IH]; intros s Hs; [lia|]. cbn [scan_once].
  destruct s as [|c s]; [apply scan_scalar_reads|]. cbn in Hs.
  assert (Hn : ∀ s', (length s' ≤ pred fuel)%nat → reads (length s') (scan_once hooks fuel s')).
  { intros s' Hs'. apply IH. destruct fuel; cbn in *; lia. }
  pose proof (skip_ws_length s) as Hws.
  case_match; [|case_match; [|case_match]]; [| | |apply scan_scalar_reads].
  - eapply reads_bind; [apply scan_string_reads|]. cbn. intros. lia.
  - destruct (skip_ws s) as [|d r]; [done|]. cbn in Hws. case_match; [cbn; lia|].
    eapply reads_mono; [|eapply scan_members_reads; [exact Hn|..]]; cbn; lia.
  - destruct (skip_ws s) as [|d r]; [done|]. cbn in Hws. case_match; [cbn; lia|].
    eapply reads_mono; [|eapply scan_elements_reads; [exact Hn|..]]; cbn; lia.
Qed.

(** The reader always answers: with a value, with an error of the text, or with
    an exception that a hook raised. *)
Lemma loads_answers text :
  match loads hooks text with Err OutOfFuel => False | Err (HookError e) => Q e | _ => True end.
Proof using int_raises float_raises constant_raises.
  unfold loads. destruct (bool_decide _); [done|].
  pose proof (skip_ws_length text). pose proof (scan_once_reads (S (length text)) (skip_ws text)) as Hr.
  destruct (scan_once _ _ _) as [[v r]|[]]; cbn in *; [by unfold bad; destruct (skip_ws r)|done|..]; apply Hr; lia.
Qed.
End reader.

Lemma loads_total {E V} (hooks : number_hooks E V) text : loads hooks text ≠ Err OutOfFuel.
Proof.
  pose proof (loads_answers hooks (λ _, True)) as H. specialize (H ltac:(done) ltac:(done) ltac:(done) text).
  intros Ho. by rewrite Ho in H.
Qed.

(** ** What the writer prints *)

(** A code point that is not a surrogate. *)
Definition scalar_value (c : N) : bool :=
  (c <? 1114112) && negb (high_surrogate c) && negb (low_surrogate c).

Lemma hex_digit_value n : n < 16 → hex_value (hex_digit n) = Some n.
Proof.
  intros H. unfold hex_digit, hex_value, is_digit.
  repeat case_match; try (f_equal; lia); lia.
Qed.

Lemma hex4_digits c : c < 65536 →
  hex4 (hex_digit (c / 4096 mod 16)) (hex_digit (c / 256 mod 16)) (hex_digit (c / 16 mod 16))
       (hex_digit (c mod 16)) = Some c.
Proof.
  intros H. unfold hex4. rewrite !hex_digit_value by (apply N.mod_lt; lia). cbn. f_equal.
  pose proof (N.div_mod c 16). pose proof (N.div_mod (c / 16) 16). pose proof (N.div_mod (c / 256) 16).
  pose proof (N.div_mod (c / 4096) 16). rewrite (N.Div0.div_div c 16 16), (N.Div0.div_div c 256 16) in *.
  change (16 * 16) with 256 in *. change (256 * 16) with 4096 in *.
  assert (c / 4096 < 16) by (apply N.Div0.div_lt_upper_bound; lia).
  rewrite (N.mod_small (c / 4096)) by done. lia.
Qed.

Section roundtrip.
Context {E : Type}.
Abbreviation result A := (res (json_error E) A).

Definition read_char (c : N) (r : result (str * str)) : result (str * str) :=
  '(t, rest) ← r; Ok (c :: t, rest).

Lemma scan_u_escape c s :
  c < 65536 → high_surrogate c = false →
  scan_string (E:=E) (u_escape c ++ s) = read_char c (scan_string s).
Proof.
  intros Hc Hh. unfold u_escape. cbn [app scan_string].
  change (92 =? 34) with false. change (92 =? 92) with true. change (117 =? 117) with true. cbv iota.
  rewrite hex4_digits by done. cbn. rewrite Hh.
  by destruct s as [|? [|? [|? [|? [|? [|? ?]]]]]].
Qed.

Lemma scan_u_pair hi lo s :
  high_surrogate hi = true → low_surrogate lo = true →
  scan_string (E:=E) (u_escape hi ++ u_escape lo ++ s) = read_char (join_surrogates hi lo) (scan_string s).
Proof.
  intros Hh Hl. assert (hi < 65536 ∧ lo < 65536) as [? ?] by (unfold high_surrogate, low_surrogate in *; lia).
  unfold u_escape. cbn [app scan_string].
  change (92 =? 34) with false. change (92 =? 92) with true. change (117 =? 117) with true. cbv iota.
  rewrite !hex4_digits by done. cbn [or_bad mbind res_bind]. rewrite Hh, Hl. done.
Qed.

Lemma scan_simple c e s : simple_escape e = Some c → e ≠ 117 →
  scan_string (E:=E) (92 :: e :: s) = read_char c (scan_string s).
Proof.
  intros He Hu. cbn [scan_string]. change (92 =? 34) with false. change (92 =? 92) with true. cbv iota.
  rewrite (proj2 (N.eqb_neq e 117)) by done. by rewrite He.
Qed.

Lemma scan_plain c s : 32 ≤ c → c ≠ 34 → c ≠ 92 →
  scan_string (E:=E) (c :: s) = read_char c (scan_string s).
Proof.
  intros. cbn [scan_string]. rewrite (proj2 (N.eqb_neq c 34)), (proj2 (N.eqb_neq c 92)) by done.
  by rewrite (proj2 (N.leb_gt c 31)) by lia.
Qed.

Lemma scan_escape_char c s : scalar_value c = true →
  scan_string (E:=E) (escape_char c ++ s) = read_char c (scan_string s).
Proof.
  intros Hc. unfold escape_char.
  repeat (case_match; [match goal with H : (c =? _) = true |- _ => apply N.eqb_eq in H as -> end;
                       by apply scan_simple|]).
  case_match; [apply scan_plain; lia|]. case_match.
  { apply scan_u_escape; [lia|]. unfold scalar_value in Hc. by destruct (high_surrogate c), (c <? 1114112). }
  unfold scalar_value in Hc.
  assert (Hhi : (c - 65536) / 1024 < 1024) by (apply N.Div0.div_lt_upper_bound; lia).
  assert (Hlo : (c - 65536) mod 1024 < 1024) by (by apply N.mod_lt).
  assert (Hc' : c - 65536 = 1024 * ((c - 65536) / 1024) + (c - 65536) mod 1024) by (by apply N.div_mod).
  revert Hhi Hlo Hc'. generalize ((c - 65536) / 1024) as hi. generalize ((c - 65536) mod 1024) as lo. intros lo hi Hhi Hlo Hc'.
  rewrite <- app_assoc, scan_u_pair by (unfold high_surrogate, low_surrogate; lia).
  f_equal. unfold join_surrogates. lia.
Qed.

Lemma scan_dumped s rest : forallb scalar_value s = true →
  scan_string (E:=E) (flat_map escape_char s ++ 34 :: rest) = Ok (s, rest).
Proof.
  induction s as [|c s IH]; intros Hs; [done|]. cbn in Hs. apply andb_true_iff in Hs as [Hc Hs].
  cbn [flat_map]. rewrite <- app_assoc, scan_escape_char, IH by done. done.
Qed.
End roundtrip.

Definition ascii_printable (c : N) : Prop := 32 ≤ c ≤ 126.

Lemma hex_digit_printable n : n < 16 → ascii_printable (hex_digit n).
Proof. unfold ascii_printable, hex_digit. case_match; lia. Qed.

Lemma escape_char_printable c : Forall ascii_printable (escape_char c).
Proof.
  unfold escape_char, u_escape.
  repeat case_match; repeat (apply Forall_cons; split || apply Forall_nil || apply Forall_app);
    try (apply hex_digit_printable, N.mod_lt; lia); try (unfold ascii_printable; lia); try done.
Qed.

Lemma dumps_str_printable s : Forall ascii_printable (dumps_str s).
Proof.
  unfold dumps_str. apply Forall_cons. split; [unfold ascii_printable; lia|]. apply Forall_app. split.
  - induction s; cbn; [constructor|]. apply Forall_app. split; [apply escape_char_printable|done].
  - repeat constructor; unfold ascii_printable; lia.
Qed.

Lemma join_printable l : Forall (Forall ascii_printable) l → Forall ascii_printable (join [44] l).
Proof.
  induction 1 as [|x l Hx Hl IH]; [constructor|]. destruct l as [|y l]; [done|].
  change (join [44] (x :: y :: l)) with (x ++ [44] ++ join [44] (y :: l)).
  apply Forall_app. split; [done|]. apply Forall_cons. split; [unfold ascii_printable; lia|done].
Qed.

Lemma dumps_sorted_printable d : Forall ascii_printable (dumps_sorted d).
Proof.
  unfold dumps_sorted. apply Forall_cons. split; [unfold ascii_printable; lia|]. apply Forall_app. split.
  - apply join_printable, Forall_fmap, Forall_true. intros [k v]. unfold dumps_field. cbn [fst snd compose].
    apply Forall_app. split; [apply dumps_str_printable|]. apply Forall_cons. split; [unfold ascii_printable; lia|].
    apply dumps_str_printable.
  - repeat constructor; unfold ascii_printable; lia.
Qed.

(** ** Reading back lists and dicts of strings *)
Section documents.
Context {E V : Type} (hooks : number_hooks E V).

Definition scalars (s : str) : Prop := forallb scalar_value s = true.

Lemma scan_dumps_str fuel s rest : scalars s →
  scan_once hooks (S fuel) (dumps_str s ++ rest) = Ok (TStr s, rest).
Proof.
  intros H. unfold dumps_str. cbn [app scan_once]. rewrite <- app_assoc. cbn [app].
  by rewrite (scan_dumped (E:=E) s rest H).
Qed.

Lemma skip_ws_dumps s rest : skip_ws (dumps_str s ++ rest) = dumps_str s ++ rest.
Proof. done. Qed.

(** One more item of a joined list. *)
Lemma join_cons {A} (sep : str) (f : A → str) x y (l : list A) rest :
  join sep (f <$> x :: y :: l) ++ rest = f x ++ sep ++ (join sep (f <$> y :: l) ++ rest).
Proof. cbn. by rewrite <- !app_assoc. Qed.

Lemma scan_elements_dumped n l x rest acc fuel :
  Forall scalars (x :: l) → (length l < fuel)%nat →
  scan_elements (scan_once hooks (S n)) fuel (join [44] (dumps_str <$> x :: l) ++ 93 :: rest) acc
  = Ok (TList (rev acc ++ (TStr <$> x :: l)), rest).
Proof.
  revert x acc fuel. induction l as [|y l IH]; intros x acc [|fuel] Hs Hf; cbn in Hf; try lia;
    apply Forall_cons in Hs as [Hx Hs].
  - cbn [fmap list_fmap join scan_elements]. rewrite scan_dumps_str by done. done.
  - rewrite join_cons. cbn [scan_elements]. rewrite scan_dumps_str by done.
    cbn [mbind res_bind app skip_ws]. change (is_ws 44) with false. cbn iota.
    change (44 =? 93) with false. change (44 =? 44) with true. cbn iota.
    assert (skip_ws (join [44] (dumps_str <$> y :: l) ++ 93 :: rest)
            = join [44] (dumps_str <$> y :: l) ++ 93 :: rest) as ->
      by (destruct l; [by apply skip_ws_dumps|by rewrite join_cons]).
    rewrite IH by (done || lia). cbn [rev]. by rewrite <- app_assoc.
Qed.

Definition text_field (p : str * str) : str * jtree V := (p.1, TStr p.2).

Lemma scan_member_dumped n p rest : scalars p.1 → scalars p.2 →
  scan_member (scan_once hooks (S n)) (dumps_field p ++ rest) = Ok (p.1, TStr p.2, rest).
Proof.
  destruct p as [k v]. cbn [fst snd]. intros Hk Hv. unfold scan_member, dumps_field. cbn [fst snd].
  assert ((dumps_str k ++ 58 :: dumps_str v) ++ rest
          = 34 :: flat_map escape_char k ++ 34 :: 58 :: dumps_str v ++ rest) as ->
    by (unfold dumps_str; cbn; by rewrite <- !app_assoc; cbn; rewrite <- !app_assoc).
  change (34 =? 34) with true. cbn iota. rewrite scan_dumped by done.
  cbn [mbind res_bind skip_ws]. change (is_ws 58) with false. cbn iota. change (58 =? 58) with true. cbn iota.
  cbn [mbind res_bind]. rewrite skip_ws_dumps, scan_dumps_str by done. done.
Qed.

Lemma scan_members_dumped n l p rest acc fuel :
  Forall (λ p, scalars p.1 ∧ scalars p.2) (p :: l) → (length l < fuel)%nat →
  scan_members (scan_once hooks (S n)) fuel (join [44] (dumps_field <$> p :: l) ++ 125 :: rest) acc
  = Ok (TObj (foldl (λ acc p, aset p.1 (TStr p.2) acc) acc (p :: l)), rest).
Proof.
  revert p acc fuel. induction l as [|q l IH]; intros p acc [|fuel] Hs Hf; cbn in Hf; try lia;
    apply Forall_cons in Hs as [[Hk Hv] Hs].
  - cbn [fmap list_fmap join scan_members]. rewrite scan_member_dumped by done. done.
  - rewrite join_cons. cbn [scan_members]. rewrite scan_member_dumped by done.
    cbn [mbind res_bind app skip_ws]. change (is_ws 44) with false. cbn iota.
    change (44 =? 125) with false. change (44 =? 44) with true. cbn iota.
    assert (skip_ws (join [44] (dumps_field <$> q :: l) ++ 125 :: rest)
            = join [44] (dumps_field <$> q :: l) ++ 125 :: rest) as ->
      by (destruct l; [done|by rewrite join_cons]).
    by rewrite IH by (done || lia).
Qed.

Lemma joined_length {A} (f : A → str) x l :
  (∀ x, 1 ≤ length (f x))%nat → (length (x :: l) ≤ length (join [44%N] (f <$> x :: l)))%nat.
Proof.
  intros Hf. revert x. induction l as [|y l IH]; intros x; [cbn; specialize (Hf x); lia|].
  specialize (IH y). specialize (Hf x). cbn [fmap list_fmap join] in *. rewrite !length_app. cbn [length] in *. lia.
Qed.

Lemma dumps_str_length s : (1 ≤ length (dumps_str s))%nat.
Proof. cbn. lia. Qed.

Lemma scan_once_list fuel d r : is_ws d = false → (d =? 93) = false →
  scan_once hooks (S fuel) (91 :: d :: r) = scan_elements (scan_once hooks fuel) fuel (d :: r) [].
Proof. intros Hw Hd. cbn. by rewrite Hw, Hd. Qed.

Lemma scan_once_dict fuel d r : is_ws d = false → (d =? 125) = false →
  scan_once hooks (S fuel) (123 :: d :: r) = scan_members (scan_once hooks fuel) fuel (d :: r) [].
Proof. intros Hw Hd. cbn. by rewrite Hw, Hd. Qed.

(** A joined list starts with the quote of its first item. *)
Lemma joined_head {A} (f : A → str) x l rest :
  (∀ x, head (f x) = Some 34) → ∃ r, join [44] (f <$> x :: l) ++ rest = 34 :: r.
Proof.
  intros Hf. specialize (Hf x). destruct l as [|y l]; [cbn|rewrite join_cons];
    (destruct (f x) as [|c s]; [done|]; injection Hf as ->; by eexists).
Qed.

Lemma scan_joined_list {A} (f : A → str) x l fuel : (∀ x, head (f x) = Some 34) →
  scan_once hooks (S fuel) (91 :: join [44] (f <$> x :: l) ++ [93])
  = scan_elements (scan_once hooks fuel) fuel (join [44] (f <$> x :: l) ++ [93]) [].
Proof. intros Hf. destruct (joined_head f x l [93] Hf) as [r ->]. by apply scan_once_list. Qed.

Lemma scan_joined_dict {A} (f : A → str) x l fuel : (∀ x, head (f x) = Some 34) →
  scan_once hooks (S fuel) (123 :: join [44] (f <$> x :: l) ++ [125])
  = scan_members (scan_once hooks fuel) fuel (join [44] (f <$> x :: l) ++ [125]) [].
Proof. intros Hf. destruct (joined_head f x l [125] Hf) as [r ->]. by apply scan_once_dict. Qed.

(** A printed list reads back as the list. *)
Lemma loads_dumps_list (l : list str) : Forall scalars l →
  loads hooks (dumps_list l) = Ok (TList (TStr <$> l)).
Proof.
  intros Hs. unfold loads, dumps_list. rewrite bool_decide_false by done.
  change (skip_ws (91 :: ?s)) with (91 :: s). destruct l as [|x l]; [done|].
  pose proof (joined_length dumps_str x l dumps_str_length) as Hlen.
  rewrite scan_joined_list by done. cbn [length].
  replace (length (join [44] (dumps_str <$> x :: l) ++ [93])) with (S (length (join [44] (dumps_str <$> x :: l))))
    by (rewrite length_app; cbn; lia).
  rewrite scan_elements_dumped by (done || (cbn [length] in Hlen; lia)). done.
Qed.

Lemma insert_fields acc (l : list (str * str)) :
  NoDup (acc.*1 ++ l.*1) → foldl (λ acc p, aset p.1 (TStr (V:=V) p.2) acc) acc l = acc ++ (text_field <$> l).
Proof.
  revert acc. induction l as [|[k v] l IH]; intros acc Hnd; [by rewrite app_nil_r|]. cbn in *.
  assert (k ∉ acc.*1) as Hk.
  { apply NoDup_app in Hnd as (_ & Hd & _). intros Hin. apply (Hd k Hin). by left. }
  rewrite aset_fresh by done. rewrite IH; [by rewrite <- app_assoc|].
  rewrite fmap_app, <- app_assoc. done.
Qed.

(** A printed dict reads back as the dict in key order. *)
Lemma loads_dumps_sorted (d : list (str * str)) :
  NoDup d.*1 → Forall (λ p, scalars p.1 ∧ scalars p.2) d →
  loads hooks (dumps_sorted d) = Ok (TObj (text_field <$> sort_by key_leb d)).
Proof.
  intros Hnd Hs. rewrite <- (sort_by_perm key_leb d) in Hnd.
  apply (sort_by_Forall key_leb) in Hs. unfold dumps_sorted. revert Hnd Hs.
  generalize (sort_by key_leb d) as l. clear d. intros l Hnd Hs.
  unfold loads. rewrite bool_decide_false by done.
  change (skip_ws (123 :: ?s)) with (123 :: s). destruct l as [|x l]; [done|].
  assert (length (x :: l) ≤ length (join [44%N] (dumps_field <$> x :: l)))%nat as Hlen
    by (apply joined_length; intros; cbn; lia).
  rewrite scan_joined_dict by done. cbn [length].
  replace (length (join [44] (dumps_field <$> x :: l) ++ [125])) with (S (length (join [44] (dumps_field <$> x :: l))))
    by (rewrite length_app; cbn; lia).
  rewrite scan_members_dumped by (done || (cbn [length] in Hlen; lia)). rewrite insert_fields by done. done.
Qed.
End documents.

(** ** Examples: what CPython answers *)

(** A literal with apostrophes for its double quotes. *)
Definition quoted (s : string) : str := (λ c, if N.eqb c 39 then 34%N else c) <$> lit s.
Definition js (s : string) : res (json_error pyexn) json := json_loads (lit s).

Example loads_values : js " [1, -2.5e1, null, true, {}] " =
  Ok (JList [JInt 1; JFloat (fneg (f_of_Z 25)); JNull; JBool true; JObj []]).
Proof. vm_compute. reflexivity. Qed.

Example loads_refused :
  js "01" = bad ∧ js "1." = bad ∧ js "[1,]" = bad ∧ js "-" = bad ∧ js "[1 2]" = bad ∧ js "" = bad ∧ js "+1" = bad.
Proof. vm_compute. repeat split. Qed.

Example loads_constants : js "-Infinity" = Ok (JFloat (SpecFloat.S754_infinity true)) ∧ js "1e400" = Ok (JFloat (SpecFloat.S754_infinity false)).
Proof. vm_compute. repeat split. Qed.

(** An escaped surrogate pair is one character; the last of two equal keys counts. *)
Example loads_pair : json_loads (34 :: lit "\ud83d\ude00" ++ [34]) = Ok (JStr [128512]).
Proof. vm_compute. reflexivity. Qed.

Example dumps_escapes : dumps_str [10; 128512; 233] = 34 :: lit "\n\ud83d\ude00\u00e9" ++ [34].
Proof. vm_compute. reflexivity. Qed.
