(* ===== verification/PyBytes.v ===== *)
(** * Bytes: [base64.b64decode(..., validate=True)] and [bytes.decode("utf-8")]

    A [bytes] object is a list of numbers below 256.  The decoders are those
    of CPython 3.12 (the runtime the deployment pins); the encoders are the
    reference the decoders are proved against. *)
From S2P Require Import Prelude PyStr JsonText JsonFacts.
Open Scope N_scope.

(** ** base64 *)
Definition b64_value (c : N) : option N :=
  if (65 <=? c) && (c <=? 90) then Some (c - 65)
  else if (97 <=? c) && (c <=? 122) then Some (c - 71)
  else if (48 <=? c) && (c <=? 57) then Some (c + 4)
  else if c =? 43 then Some 62
  else if c =? 47 then Some 63
  else None.

(** The loop of [binascii.a2b_base64] in strict mode: the position in the
    quad, the bits left over, the pads seen and whether padding has started.
    [None] is [binascii.Error]. *)
Fixpoint a2b_base64 (s : list N) (quad left pads : N) (started : bool) : option (list N) :=
  match s with
  | [] => if quad =? 0 then Some [] else None
  | c :: r =>
      if c =? 61 then
        if (2 <=? quad) && (4 <=? quad + (pads + 1))
        then match r with [] => Some [] | _ => None end
        else a2b_base64 r quad left (if 2 <=? quad then pads + 1 else pads) true
      else
        v ← b64_value c;
        if started then None
        else if quad =? 0 then a2b_base64 r 1 v 0 false
        else if quad =? 1 then
          bs ← a2b_base64 r 2 (v mod 16) 0 false; Some (left * 4 + v / 16 :: bs)
        else if quad =? 2 then
          bs ← a2b_base64 r 3 (v mod 4) 0 false; Some (left * 16 + v / 4 :: bs)
        else
          bs ← a2b_base64 r 0 0 0 false; Some (left * 64 + v :: bs)
  end.

Definition b64decode (s : list N) : option (list N) :=
  if bool_decide (head s = Some 61) then None else a2b_base64 s 0 0 0 false.

(** [encoded.encode("ascii")]; [None] is [UnicodeEncodeError]. *)
Definition encode_ascii (s : str) : option (list N) :=
  if forallb (λ c, c <? 128) s then Some s else None.

(** ** UTF-8 *)
Definition cont (b : N) : bool := (128 <=? b) && (b <=? 191).

Fixpoint utf8_decode (b : list N) : option str :=
  match b with
  | [] => Some []
  | x :: r =>
      if x <? 128 then s ← utf8_decode r; Some (x :: s)
      else
        match r with
        | [] => None
        | y :: r =>
            if negb (cont y) then None
            else if (194 <=? x) && (x <=? 223) then
              s ← utf8_decode r; Some ((x - 192) * 64 + (y - 128) :: s)
            else
              match r with
              | [] => None
              | z :: r =>
                  if negb (cont z) then None
                  else if (224 <=? x) && (x <=? 239) then
                    let c := (x - 224) * 4096 + (y - 128) * 64 + (z - 128) in
                    if (c <? 2048) || high_surrogate c || low_surrogate c then None
                    else s ← utf8_decode r; Some (c :: s)
                  else
                    match r with
                    | [] => None
                    | w :: r =>
                        if negb (cont w) || negb ((240 <=? x) && (x <=? 244)) then None
                        else
                          let c := (x - 240) * 262144 + (y - 128) * 4096 + (z - 128) * 64 + (w - 128) in
                          if (c <? 65536) || (1114112 <=? c) then None
                          else s ← utf8_decode r; Some (c :: s)
                    end
              end
        end
  end.

(** ** The encoders *)
Definition b64_digit (v : N) : N :=
  if v <? 26 then v + 65 else if v <? 52 then v + 71 else if v <? 62 then v - 4
  else if v =? 62 then 43 else 47.

Fixpoint b64encode (b : list N) : list N :=
  match b with
  | x :: y :: z :: r =>
      b64_digit (x / 4) :: b64_digit (x mod 4 * 16 + y / 16) :: b64_digit (y mod 16 * 4 + z / 64)
      :: b64_digit (z mod 64) :: b64encode r
  | [x; y] => [b64_digit (x / 4); b64_digit (x mod 4 * 16 + y / 16); b64_digit (y mod 16 * 4); 61]
  | [x] => [b64_digit (x / 4); b64_digit (x mod 4 * 16); 61; 61]
  | [] => []
  end.

Definition utf8_char (c : N) : list N :=
  if c <? 128 then [c]
  else if c <? 2048 then [192 + c / 64; 128 + c mod 64]
  else if c <? 65536 then [224 + c / 4096; 128 + c / 64 mod 64; 128 + c mod 64]
  else [240 + c / 262144; 128 + c / 4096 mod 64; 128 + c / 64 mod 64; 128 + c mod 64].
Definition utf8_encode (s : str) : list N := flat_map utf8_char s.

(** ** The decoders undo the encoders *)
Lemma b64_value_digit v : v < 64 → b64_value (b64_digit v) = Some v ∧ b64_digit v ≠ 61 ∧ b64_digit v < 128.
Proof.
  intros H. unfold b64_value, b64_digit. repeat case_match; split_and!; try f_equal; lia.
Qed.

Lemma a2b_digit v r quad left : v < 64 →
  a2b_base64 (b64_digit v :: r) quad left 0 false =
  if quad =? 0 then a2b_base64 r 1 v 0 false
  else if quad =? 1 then bs ← a2b_base64 r 2 (v mod 16) 0 false; Some (left * 4 + v / 16 :: bs)
  else if quad =? 2 then bs ← a2b_base64 r 3 (v mod 4) 0 false; Some (left * 16 + v / 4 :: bs)
  else bs ← a2b_base64 r 0 0 0 false; Some (left * 64 + v :: bs).
Proof.
  intros H. destruct (b64_value_digit v H) as (Hv & Hne & _). cbn [a2b_base64].
  by rewrite (proj2 (N.eqb_neq _ _) Hne), Hv.
Qed.

Definition bytes (b : list N) : Prop := Forall (λ x, x < 256) b.

Lemma div_mod_parts x k m : x < k * m → x / k < m ∧ x mod k < k ∧ x = k * (x / k) + x mod k.
Proof.
  intros H. assert (k ≠ 0) by (intros ->; lia). split_and!.
  - by apply N.Div0.div_lt_upper_bound.
  - by apply N.mod_lt.
  - by apply N.div_mod.
Qed.

Lemma a2b_encode b : bytes b → a2b_base64 (b64encode b) 0 0 0 false = Some b.
Proof.
  assert (∀ n b, (length b ≤ n)%nat → bytes b → a2b_base64 (b64encode b) 0 0 0 false = Some b) as H;
    [|by apply (H (length b))].
  clear b. induction n as [|n IH]; intros [|x [|y [|z r]]] Hn Hb; cbn in Hn; try done; try lia;
    unfold bytes in Hb; rewrite !Forall_cons in Hb.
  - destruct Hb as [Hx _]. destruct (div_mod_parts x 4 64 Hx) as (? & ? & Ex). cbn [b64encode].
    do 2 (rewrite a2b_digit by lia; cbn [N.eqb Pos.eqb]). cbn.
    change (4 <=? 2 + (0 + 1)) with false. change (4 <=? 2 + (0 + 1 + 1)) with true. cbn. do 2 f_equal.
    rewrite N.div_mul by done. lia.
  - destruct Hb as (Hx & Hy & _). destruct (div_mod_parts x 4 64 Hx) as (? & ? & Ex).
    destruct (div_mod_parts y 16 16 Hy) as (? & ? & Ey). cbn [b64encode].
    do 3 (rewrite a2b_digit by lia; cbn [N.eqb Pos.eqb]). cbn. change (4 <=? 3 + (0 + 1)) with true. cbn.
    rewrite (N.div_add_l (x mod 4) 16), (N.div_small (y / 16) 16), (N.div_mul (y mod 16)) by done.
    rewrite (N.add_comm (x mod 4 * 16)), N.Div0.mod_add, (N.mod_small (y / 16)) by done.
    repeat (f_equal; try lia).
  - destruct Hb as (Hx & Hy & Hz & Hr). destruct (div_mod_parts x 4 64 Hx) as (? & ? & Ex).
    destruct (div_mod_parts y 16 16 Hy) as (? & ? & Ey). destruct (div_mod_parts z 64 4 Hz) as (? & ? & Ez).
    cbn [b64encode]. do 4 (rewrite a2b_digit by lia; cbn [N.eqb Pos.eqb]). cbn. rewrite IH by (done || lia). cbn.
    rewrite (N.div_add_l (x mod 4) 16), (N.div_small (y / 16) 16) by done.
    rewrite (N.div_add_l (y mod 16) 4), (N.div_small (z / 64) 4) by done.
    rewrite (N.add_comm (x mod 4 * 16)), N.Div0.mod_add, (N.mod_small (y / 16)) by done.
    rewrite (N.add_comm (y mod 16 * 4)), N.Div0.mod_add, (N.mod_small (z / 64)) by done.
    repeat (f_equal; try lia).
Qed.

Lemma b64decode_encode b : bytes b → b64decode (b64encode b) = Some b.
Proof.
  intros Hb. unfold b64decode. rewrite bool_decide_false; [by apply a2b_encode|].
  destruct b as [|x b]; [done|]. apply Forall_cons in Hb as [Hx _].
  destruct (div_mod_parts x 4 64 Hx) as (Hd & _).
  destruct b as [|? [|? ?]]; cbn; intros [= H]; by destruct (b64_value_digit _ Hd) as (_ & ? & _).
Qed.

Lemma b64encode_ascii b : bytes b → forallb (λ c, c <? 128) (b64encode b) = true.
Proof.
  assert (∀ n b, (length b ≤ n)%nat → bytes b → forallb (λ c, c <? 128) (b64encode b) = true) as H;
    [|by apply (H (length b))].
  assert (Hd : ∀ v, v < 64 → (b64_digit v <? 128) = true).
  { intros v Hv. apply N.ltb_lt. by destruct (b64_value_digit v Hv) as (_ & _ & ?). }
  clear b. induction n as [|n IH]; intros [|x [|y [|z r]]] Hn Hb; cbn in Hn; try done; try lia;
    unfold bytes in Hb; rewrite !Forall_cons in Hb; cbn [b64encode forallb].
  - destruct Hb as [Hx _]. destruct (div_mod_parts x 4 64 Hx) as (? & ? & Ex). by rewrite !Hd by lia.
  - destruct Hb as (Hx & Hy & _). destruct (div_mod_parts x 4 64 Hx) as (? & ? & Ex).
    destruct (div_mod_parts y 16 16 Hy) as (? & ? & Ey). by rewrite !Hd by lia.
  - destruct Hb as (Hx & Hy & Hz & Hr). destruct (div_mod_parts x 4 64 Hx) as (? & ? & Ex).
    destruct (div_mod_parts y 16 16 Hy) as (? & ? & Ey). destruct (div_mod_parts z 64 4 Hz) as (? & ? & Ez).
    rewrite !Hd by lia. by apply IH; [lia|].
Qed.

Lemma between_true a b x : a ≤ x ≤ b → (a <=? x) && (x <=? b) = true.
Proof. lia. Qed.
Lemma between_false a b x : x < a ∨ b < x → (a <=? x) && (x <=? b) = false.
Proof. lia. Qed.

(** The cases of one encoded character, by its width. *)
Lemma decode_char c r : scalar_value c = true →
  utf8_decode (utf8_char c ++ r) = s ← utf8_decode r; Some (c :: s).
Proof.
  unfold scalar_value. intros Hc. apply andb_true_iff in Hc as [Hc Hl]. apply andb_true_iff in Hc as [Hm Hh].
  apply N.ltb_lt in Hm. apply negb_true_iff in Hl, Hh. unfold utf8_char.
  assert (∀ v, v < 64 → cont (128 + v) = true) as Hcont by (unfold cont; intros; lia).
  assert (∀ v, 128 + v - 128 = v) as Hsub by lia.
  case_match eqn:E1; [cbn [app utf8_decode]; by rewrite E1|]. apply N.ltb_ge in E1.
  destruct (div_mod_parts c 64 17408) as (H1 & H2 & E2); [lia|].
  destruct (div_mod_parts (c / 64) 64 272) as (H3 & H4 & E3); [lia|].
  destruct (div_mod_parts (c / 4096) 64 5) as (H5 & H6 & E4); [apply N.Div0.div_lt_upper_bound; lia|].
  rewrite N.Div0.div_div in *. change (64 * 64) with 4096 in *. change (4096 * 64) with 262144 in *.
  revert H1 H2 H3 H4 H5 H6 E2 E3 E4. generalize (c mod 64) as m0, (c / 64 mod 64) as m1, (c / 4096 mod 64) as m2.
  generalize (c / 64) as q1, (c / 4096) as q2, (c / 262144) as q3. intros q1 q2 q3 m0 m1 m2 ? ? ? ? ? ? ? ? ?.
  case_match eqn:E5; [|case_match eqn:E6]; cbn [app utf8_decode];
    rewrite (proj2 (N.ltb_ge _ 128)), !Hcont by lia; cbn [negb orb andb].
  - rewrite (between_true 194) by lia. rewrite !Hsub.
    replace ((192 + q1 - 192) * 64 + m0) with c by lia. done.
  - rewrite (between_false 194), (between_true 224) by lia. rewrite !Hsub.
    replace ((224 + q2 - 224) * 4096 + m1 * 64 + m0) with c by lia. rewrite Hh, Hl, (proj2 (N.ltb_ge c 2048)) by lia.
    done.
  - rewrite (between_false 194), (between_false 224), (between_true 240) by lia. cbn [negb]. rewrite !Hsub.
    replace ((240 + q3 - 240) * 262144 + m2 * 4096 + m1 * 64 + m0) with c by lia.
    rewrite (proj2 (N.ltb_ge c 65536)), (proj2 (N.leb_gt 1114112 c)) by lia. done.
Qed.

Lemma utf8_decode_encode s : scalars s → utf8_decode (utf8_encode s) = Some s.
Proof.
  unfold scalars. induction s as [|c s IH]; cbn [forallb]; [done|]. intros [Hc Hs]%andb_true_iff.
  unfold utf8_encode. cbn [flat_map]. rewrite decode_char by done. fold (utf8_encode s). by rewrite IH.
Qed.

Lemma utf8_encode_bytes s : scalars s → bytes (utf8_encode s).
Proof.
  unfold scalars, bytes. induction s as [|c s IH]; cbn [forallb]; [constructor|]. intros [Hc Hs]%andb_true_iff.
  unfold utf8_encode. cbn [flat_map]. apply Forall_app. split; [|by apply IH].
  unfold scalar_value in Hc. assert (c < 1114112) by lia. 
  assert (∀ k, k ≠ 0 → c mod k < k) by (intros; by apply N.mod_lt). unfold utf8_char.
  assert (c / 262144 < 5) by (apply N.Div0.div_lt_upper_bound; lia).
  assert (c / 4096 mod 64 < 64 ∧ c / 64 mod 64 < 64 ∧ c mod 64 < 64) as (? & ? & ?) by (split_and!; by apply N.mod_lt).
  repeat case_match; repeat (apply Forall_cons; split); try apply Forall_nil; try lia.
  - assert (c / 64 < 32) by (apply N.Div0.div_lt_upper_bound; lia). lia.
  - assert (c / 4096 < 16) by (apply N.Div0.div_lt_upper_bound; lia). lia.
Qed.

(** What a publisher puts on the wire, and what the reader gets from it. *)
Definition wire (text : str) : str := b64encode (utf8_encode text).

Lemma wire_decoded text : scalars text →
  encode_ascii (wire text) = Some (wire text) ∧ b64decode (wire text) = Some (utf8_encode text) ∧
  utf8_decode (utf8_encode text) = Some text.
Proof.
  intros H. pose proof (utf8_encode_bytes text H) as Hb. split_and!.
  - unfold encode_ascii, wire. by rewrite b64encode_ascii.
  - by apply b64decode_encode.
  - by apply utf8_decode_encode.
Qed.

Definition b64 (s : string) : option (list N) := b64decode (lit s).
Example b64_cases :
  b64 "AAAA=" = Some [0; 0; 0] ∧ b64 "=AAAA" = None ∧ b64 "AB==" = Some [0] ∧ b64 "AA=" = None
  ∧ b64 "AA===" = None ∧ b64 "A" = None ∧ b64 "AA=A" = None ∧ b64 "" = Some [].
Proof. vm_compute. repeat split. Qed.

Example utf8_refused :
  utf8_decode [192; 128] = None ∧ utf8_decode [237; 160; 128] = None ∧ utf8_decode [240; 159; 152; 128] = Some [128512].
Proof. vm_compute. repeat split. Qed.
