(* ===== verification/Renderer.v ===== *)
(** * The memory-card renderer: [src/src/spine/inject/renderer.py]

    [render_final_block] turns frozen injection events into the block of text
    a model reads.  The data it reads are the events' JSON features; anything
    missing raises [FrozenMemoryPayloadError]. *)
From S2P Require Import Prelude PyStr PyFloat PyJson Ids.
Open Scope Z_scope.

Inductive frozen_error := FrozenMemoryPayloadError (msg : string).

(** What the renderer reads of an event: [event.get(...)] of four keys. *)
Record render_event := {
  ev_features : json;
  ev_memory_kind : json;
  ev_rank : json;
  ev_memory_id : option uuid;
}.

Definition OPEN : str := lit "<memory_system>".
Definition PREAMBLE : list str := [
  lit "The following long-term memories were retrieved for this conversation.";
  lit "Treat them as your own accumulated knowledge; they may be imperfect."].
Definition CLOSE : str := lit "</memory_system>".

(** Character codes of [&], [<], [>], double quote, tab, newline, return. *)
Definition escape_body (value : str) : str :=
  replace_char 62 (lit "&gt;") (replace_char 60 (lit "&lt;") (replace_char 38 (lit "&amp;") value)).

Definition quot_entity : str := lit "&quot;".

Definition escape_attribute (value : str) : str :=
  replace_char 13 (lit "&#13;")
   (replace_char 10 (lit "&#10;")
    (replace_char 9 (lit "&#9;")
     (replace_char 34 quot_entity (escape_body value)))).

Definition event_order (event : render_event) : res frozen_error (Z * str) :=
  match as_int (ev_rank event) with
  | None => Err (FrozenMemoryPayloadError "event rank must be an integer")
  | Some rank =>
      match ev_memory_id event with
      | None => Err (FrozenMemoryPayloadError "event memory_id is required")
      | Some memory_id => Ok (rank, uuid_str memory_id)
      end
  end.

(** Tuple comparison of the sort keys. *)
Definition order_leb (a b : Z * str) : bool :=
  (a.1 <? b.1) || (a.1 =? b.1) && str_leb a.2 b.2.

Definition frozen_field (frozen : list (str * json)) (name : string) : res frozen_error str :=
  match jget_or_null (lit name) frozen with
  | JStr s => Ok s
  | _ => Err (FrozenMemoryPayloadError ("event features._memory field must be a string: " +:+ name))
  end.

(** [_frozen_memory]: label, body and updated_at, read in that order. *)
Definition frozen_memory (event : render_event) : res frozen_error (str * str * str) :=
  match ev_features event with
  | JObj features =>
      match jget_or_null (lit "_memory") features with
      | JObj frozen =>
          label ← frozen_field frozen "label";
          body ← frozen_field frozen "body";
          updated_at ← frozen_field frozen "updated_at";
          Ok (label, body, updated_at)
      | _ => Err (FrozenMemoryPayloadError "event features._memory must be an object")
      end
  | _ => Err (FrozenMemoryPayloadError "event features must be an object")
  end.

Definition memory_tag (label kind updated_at : str) : str :=
  lit "<memory label=" ++ [34%N] ++ escape_attribute label
  ++ [34%N] ++ lit " kind=" ++ [34%N] ++ escape_attribute kind
  ++ [34%N] ++ lit " updated=" ++ [34%N] ++ escape_attribute updated_at ++ [34%N] ++ lit ">".

Definition render_event_lines (event : render_event) : res frozen_error (list str) :=
  '(label, body, updated_at) ← frozen_memory event;
  match ev_memory_kind event with
  | JStr kind => Ok [memory_tag label kind updated_at; escape_body body; lit "</memory>"]
  | _ => Err (FrozenMemoryPayloadError "event memory_kind must be a string")
  end.

Definition keyed_event (event : render_event) : res frozen_error ((Z * str) * render_event) :=
  k ← event_order event; Ok (k, event).

Definition sort_events (keyed : list ((Z * str) * render_event)) : list render_event :=
  (sort_by (fun a b => order_leb a.1 b.1) keyed).*2.

(** [chr(10).join(lines)] of the finished list of lines. *)
Definition block_text (cards : list (list str)) : str :=
  join [10%N] (OPEN :: PREAMBLE ++ concat cards ++ [CLOSE]).
#[global] Arguments block_text : simpl never.

Definition render_final_block (events : list render_event) : res frozen_error str :=
  keyed ← res_map keyed_event events;
  cards ← res_map render_event_lines (sort_events keyed);
  Ok (block_text cards).

(** ** Reference reading of the escapes *)
Definition entity_table : list (str * N) := [
  (lit "&amp;", 38%N); (lit "&lt;", 60%N); (lit "&gt;", 62%N); (quot_entity, 34%N);
  (lit "&#9;", 9%N); (lit "&#10;", 10%N); (lit "&#13;", 13%N)].

Fixpoint read_entity (table : list (str * N)) (s : str) : option (N * nat) :=
  match table with
  | [] => None
  | (e, c) :: t => if startswith e s then Some (c, length e) else read_entity t s
  end.

Fixpoint unescape_fuel (fuel : nat) (s : str) : str :=
  match fuel, s with
  | S f, c :: s' =>
      match read_entity entity_table s with
      | Some (d, n) => d :: unescape_fuel f (drop n s)
      | None => c :: unescape_fuel f s'
      end
  | _, _ => []
  end.
Definition unescape (s : str) : str := unescape_fuel (length s) s.

Definition count_char (c : N) (s : str) : Z := Z.of_nat (length (filter (λ d, d = c) s)).

(** ** The chain of replacements is one pass *)
Definition body_char (c : N) : str :=
  if N.eqb c 38 then lit "&amp;" else if N.eqb c 60 then lit "&lt;"
  else if N.eqb c 62 then lit "&gt;" else [c].

Definition attribute_char (c : N) : str :=
  if N.eqb c 34 then quot_entity else if N.eqb c 9 then lit "&#9;"
  else if N.eqb c 10 then lit "&#10;" else if N.eqb c 13 then lit "&#13;" else body_char c.

Lemma escape_body_pass s : escape_body s = flat_map body_char s.
Proof.
  unfold escape_body. induction s as [|c s IH]; [done|].
  cbn [flat_map]. rewrite <- IH, replace_char_cons, !replace_char_app. f_equal.
  unfold body_char. destruct (N.eqb_spec c 38) as [->|H1]; [done|].
  rewrite replace_char_cons. destruct (N.eqb_spec c 60) as [->|H2]; [done|]. cbn.
  by destruct (N.eqb_spec c 62).
Qed.

Lemma escape_attribute_pass s : escape_attribute s = flat_map attribute_char s.
Proof.
  unfold escape_attribute. rewrite escape_body_pass.
  induction s as [|c s IH]; [done|].
  cbn [flat_map]. rewrite <- IH, !replace_char_app. f_equal.
  unfold attribute_char, body_char.
  destruct (N.eqb_spec c 34) as [->|]; [done|]. destruct (N.eqb_spec c 9) as [->|]; [done|].
  destruct (N.eqb_spec c 10) as [->|]; [done|]. destruct (N.eqb_spec c 13) as [->|]; [done|].
  destruct (N.eqb_spec c 38) as [->|]; [done|]. destruct (N.eqb_spec c 60) as [->|]; [done|].
  destruct (N.eqb_spec c 62) as [->|]; [done|].
  repeat (rewrite ?replace_char_cons, ?replace_char_nil;
    match goal with |- context [N.eqb ?a ?b] => destruct (N.eqb_spec a b); [done|] end;
    cbn [app]).
  done.
Qed.

(** ** Reading an escaped text back *)
Definition decodes (f : N → str) : Prop :=
  ∀ c rest, (read_entity entity_table (f c ++ rest) = Some (c, length (f c)) ∧ f c ≠ [])
          ∨ (f c = [c] ∧ read_entity entity_table (c :: rest) = None).

Lemma read_entity_plain c rest : c ≠ 38%N → read_entity entity_table (c :: rest) = None.
Proof.
  intros H. assert (E : (38 =? c)%N = false) by (apply N.eqb_neq; congruence).
  set (table := entity_table). vm_compute in table. subst table.
  cbn -[N.eqb]. by rewrite E.
Qed.

Lemma body_char_decodes : decodes body_char.
Proof.
  intros c rest. unfold body_char.
  destruct (N.eqb_spec c 38) as [->|]; [by left|].
  destruct (N.eqb_spec c 60) as [->|]; [by left|].
  destruct (N.eqb_spec c 62) as [->|]; [by left|].
  right. split; [done|]. by apply read_entity_plain.
Qed.

Lemma attribute_char_decodes : decodes attribute_char.
Proof.
  intros c rest. unfold attribute_char.
  destruct (N.eqb_spec c 34) as [->|]; [by left|].
  destruct (N.eqb_spec c 9) as [->|]; [by left|].
  destruct (N.eqb_spec c 10) as [->|]; [by left|].
  destruct (N.eqb_spec c 13) as [->|]; [by left|]. apply body_char_decodes.
Qed.

Lemma unescape_flat_map f s fuel :
  decodes f → (length s ≤ fuel)%nat → unescape_fuel fuel (flat_map f s) = s.
Proof.
  intros Hf. revert fuel; induction s as [|c s IH]; intros [|fuel] Hl; cbn in Hl; try done; try lia.
  cbn [flat_map]. destruct (Hf c (flat_map f s)) as [[Hr Hne]|[E Hr]].
  - destruct (f c ++ flat_map f s) as [|d r] eqn:E.
    { by destruct (f c). }
    cbn [unescape_fuel]. rewrite Hr, <- E, drop_app_length. by rewrite IH by lia.
  - rewrite E. cbn [app unescape_fuel]. rewrite Hr. by rewrite IH by lia.
Qed.

Lemma flat_map_length_ge f s : decodes f → (length s ≤ length (flat_map f s))%nat.
Proof.
  intros Hf. induction s as [|c s IH]; cbn; [done|]. rewrite length_app.
  destruct (Hf c []) as [[_ Hne]|[E _]]; [destruct (f c); [done|cbn; lia]|rewrite E; cbn; lia].
Qed.

(** ** No escaped text holds a raw markup character *)
Lemma body_char_safe d c : d ∈ body_char c → d ≠ 60%N ∧ d ≠ 62%N.
Proof.
  unfold body_char. intros H.
  destruct (N.eqb_spec c 38); [|destruct (N.eqb_spec c 60); [|destruct (N.eqb_spec c 62)]];
    repeat (apply elem_of_cons in H as [->|H]; [done|]); by apply not_elem_of_nil in H.
Qed.

Lemma attribute_char_safe d c :
  d ∈ attribute_char c → d ≠ 60%N ∧ d ≠ 62%N ∧ d ≠ 34%N ∧ d ≠ 10%N.
Proof.
  unfold attribute_char, body_char. intros H.
  destruct (N.eqb_spec c 34); [|destruct (N.eqb_spec c 9); [|destruct (N.eqb_spec c 10);
    [|destruct (N.eqb_spec c 13); [|destruct (N.eqb_spec c 38); [|destruct (N.eqb_spec c 60);
    [|destruct (N.eqb_spec c 62)]]]]]];
    repeat (apply elem_of_cons in H as [->|H]; [done|]); by apply not_elem_of_nil in H.
Qed.

Lemma count_char_app c s t : count_char c (s ++ t) = count_char c s + count_char c t.
Proof. unfold count_char. rewrite filter_app, length_app. lia. Qed.

Lemma count_char_none c s : c ∉ s → count_char c s = 0.
Proof.
  intros H. unfold count_char. replace (filter (λ d, d = c) s) with (@nil N); [done|].
  symmetry. induction s as [|d s IH]; [done|]. apply not_elem_of_cons in H as [Hd Hs].
  rewrite filter_cons, decide_False by congruence. by apply IH.
Qed.

Lemma flat_map_not_elem (f : N → str) d s : (∀ c, d ∉ f c) → d ∉ flat_map f s.
Proof.
  intros Hf. induction s as [|c s IH]; cbn; [apply not_elem_of_nil|].
  rewrite elem_of_app. by intros [H|H]; [apply (Hf c)|].
Qed.

Lemma escape_attribute_safe d s :
  d = 60%N ∨ d = 62%N ∨ d = 34%N ∨ d = 10%N → d ∉ escape_attribute s.
Proof.
  intros Hd. rewrite escape_attribute_pass. apply flat_map_not_elem.
  intros c H%attribute_char_safe. intuition congruence.
Qed.

Lemma escape_body_safe d s : d = 60%N ∨ d = 62%N → d ∉ escape_body s.
Proof.
  intros Hd. rewrite escape_body_pass. apply flat_map_not_elem.
  intros c H%body_char_safe. intuition congruence.
Qed.

Lemma count_join c sep l : c ∉ sep → count_char c (join sep l) = zsum (count_char c <$> l).
Proof.
  intros Hs. induction l as [|s [|t l] IH]; [done|cbn; unfold zsum; cbn; lia|].
  change (join sep (s :: t :: l)) with (s ++ sep ++ join sep (t :: l)).
  rewrite !count_char_app, IH, (count_char_none c sep), (fmap_cons _ s), zsum_cons by done. lia.
Qed.

Lemma memory_tag_count d a b c : d = 60%N ∨ d = 62%N → count_char d (memory_tag a b c) = 1.
Proof.
  intros Hd. unfold memory_tag. rewrite !count_char_app.
  rewrite !(count_char_none d (escape_attribute _)) by (apply escape_attribute_safe; tauto).
  by destruct Hd as [-> | ->].
Qed.

Lemma render_event_lines_count d e ls :
  d = 60%N ∨ d = 62%N → render_event_lines e = Ok ls → zsum (count_char d <$> ls) = 2.
Proof.
  intros Hd. unfold render_event_lines. intros H. apply bind_Ok in H as ([[l b] t] & _ & H).
  destruct (ev_memory_kind e); try done. injection H as <-. cbn [fmap list_fmap].
  rewrite !zsum_cons, (memory_tag_count d) by done.
  rewrite (count_char_none d (escape_body _)) by (by apply escape_body_safe).
  by destruct Hd as [-> | ->].
Qed.

Lemma sort_events_length keyed : length (sort_events keyed) = length keyed.
Proof. unfold sort_events. rewrite length_fmap. apply Permutation_length, sort_by_perm. Qed.

Lemma frame_count d : d = 60%N ∨ d = 62%N →
  count_char d OPEN + zsum (count_char d <$> PREAMBLE) + count_char d CLOSE = 2.
Proof. by intros [-> | ->]. Qed.

(** ** Properties *)

(** An escaped attribute or body reads back as the text it came from, so
    rendering loses nothing and two memories never render alike. *)
Theorem escape_roundtrip (s : str) :
  unescape (escape_attribute s) = s ∧ unescape (escape_body s) = s.
Proof.
  unfold unescape. rewrite escape_attribute_pass, escape_body_pass.
  split; apply unescape_flat_map;
    auto using flat_map_length_ge, attribute_char_decodes, body_char_decodes.
Qed.

(** C32: memory text cannot open or close markup: a rendered block of n events
    holds exactly the [<] and [>] of its own tags, 2 per event and 2 for the
    enclosing element, whatever labels, kinds, dates and bodies say. *)
Theorem render_markup_contained (events : list render_event) (block : str) :
  render_final_block events = Ok block →
  count_char 60 block = 2 + 2 * zlen events ∧ count_char 62 block = 2 + 2 * zlen events.
Proof.
  intros H. apply bind_Ok in H as (keyed & Hk & H). apply bind_Ok in H as (cards & Hc & [= <-]).
  apply res_map_length in Hk.
  pose proof (sort_events_length keyed) as Hl. apply res_map_Forall2 in Hc.
  assert (Hcount : ∀ d, d = 60%N ∨ d = 62%N →
    zsum (count_char d <$> concat cards) = 2 * Z.of_nat (length (sort_events keyed))).
  { clear Hl. intros d Hd. induction Hc as [|e ls es cs He _ IH]; [done|]. cbn [concat length].
    rewrite fmap_app, zsum_app, IH, (render_event_lines_count d e) by done. lia. }
  unfold zlen. rewrite <- Hk, <- Hl. unfold block_text.
  rewrite !count_join by (apply not_elem_of_cons; split; [done|apply not_elem_of_nil]).
  rewrite !fmap_cons, !fmap_app, !zsum_cons, !zsum_app, !Hcount, !fmap_cons, !zsum_cons by auto.
  pose proof (frame_count 60 ltac:(auto)). pose proof (frame_count 62 ltac:(auto)).
  change (zsum (count_char 60 <$> [])) with 0. change (zsum (count_char 62 <$> [])) with 0. lia.
Qed.

Lemma render_markup_contained_witness :
  ∃ block, render_final_block [Build_render_event
      (JObj [(lit "_memory", JObj [(lit "label", JStr (lit "</memory>")); (lit "body", JStr (lit "a<b"));
                                   (lit "updated_at", JStr (lit "2026"))])])
      (JStr (lit "fact")) (JInt 1) (Some 7%N)] = Ok block ∧
    count_char 60 block = 4 ∧ count_char 62 block = 4.
Proof.
  eexists. split; [vm_compute; reflexivity|].
  eapply (render_markup_contained [Build_render_event
      (JObj [(lit "_memory", JObj [(lit "label", JStr (lit "</memory>")); (lit "body", JStr (lit "a<b"));
                                   (lit "updated_at", JStr (lit "2026"))])])
      (JStr (lit "fact")) (JInt 1) (Some 7%N)]).
  vm_compute. reflexivity.
Defined.

Lemma order_leb_total a b : order_leb a b = true ∨ order_leb b a = true.
Proof. unfold order_leb. destruct (str_leb_total a.2 b.2); lia. Qed.

Lemma order_leb_trans a b c : order_leb a b = true → order_leb b c = true → order_leb a c = true.
Proof. unfold order_leb. pose proof (str_leb_trans a.2 b.2 c.2). lia. Qed.

Lemma order_leb_antisym a b : order_leb a b = true → order_leb b a = true → a = b.
Proof.
  unfold order_leb. pose proof (str_leb_antisym a.2 b.2). destruct a, b; cbn in *.
  intros H1 H2. f_equal; [lia|]. apply H; lia.
Qed.

Lemma keyed_event_unique events keyed :
  res_map keyed_event events = Ok keyed →
  NoDup (ev_memory_id <$> events) →
  (∀ m, Some m ∈ ev_memory_id <$> events → (m < 2 ^ 128)%N) →
  ∀ x y, x ∈ keyed → y ∈ keyed → x.1 = y.1 → x = y.
Proof.
  intros H%res_map_Forall2 Hnd Hb x y Hx Hy E.
  apply list_elem_of_lookup in Hx as [i Hi]. apply list_elem_of_lookup in Hy as [j Hj].
  destruct (Forall2_lookup_r _ _ _ _ _ H Hi) as (ex & Hex & Hkx).
  destruct (Forall2_lookup_r _ _ _ _ _ H Hj) as (ey & Hey & Hky).
  unfold keyed_event, event_order in Hkx, Hky.
  destruct (as_int (ev_rank ex)) as [rx|]; [|done].
  destruct (ev_memory_id ex) as [mx|] eqn:Emx; [|done].
  destruct (as_int (ev_rank ey)) as [ry|]; [|done].
  destruct (ev_memory_id ey) as [my|] eqn:Emy; [|done].
  cbn in Hkx, Hky. injection Hkx as <-. injection Hky as <-. pose proof (f_equal snd E) as Em.
  pose proof (f_equal fst E) as Er. cbn in Em, Er. subst ry. clear E.
  assert (mx = my) as ->.
  { apply N.compare_eq_iff. rewrite <- uuid_str_compare, Em.
    - apply str_compare_refl.
    - apply Hb. rewrite <- Emx. apply list_elem_of_fmap. eauto using list_elem_of_lookup_2.
    - apply Hb. rewrite <- Emy. apply list_elem_of_fmap. eauto using list_elem_of_lookup_2. }
  assert (i = j) as ->.
  { eapply NoDup_lookup; [apply Hnd|..]; rewrite list_lookup_fmap.
    - rewrite Hex. cbn. by rewrite Emx.
    - rewrite Hey. cbn. by rewrite Emy. }
  congruence.
Qed.

(** The block does not depend on the order the database returned the
    events in: any permutation of events about distinct memories renders the
    same text, in rank order. *)
Theorem render_order_independent (events events' : list render_event) (block : str) :
  Permutation events events' →
  NoDup (ev_memory_id <$> events) →
  (∀ m, Some m ∈ ev_memory_id <$> events → (m < 2 ^ 128)%N) →
  render_final_block events = Ok block → render_final_block events' = Ok block.
Proof.
  intros Hp Hnd Hb H. unfold render_final_block in *.
  apply bind_Ok in H as (keyed & Hk & H).
  destruct (res_map_perm _ _ _ _ Hp Hk) as (keyed' & Hk' & Hkp). rewrite Hk'. cbn.
  replace (sort_events keyed') with (sort_events keyed); [done|].
  unfold sort_events. f_equal. apply (sort_by_perm_eq _ (λ _, True)); try done.
  - intros x y _ _. apply order_leb_total.
  - intros x y z _ _ _. apply order_leb_trans.
  - by apply Forall_true.
  - intros x y Hx Hy H1 H2. 
    eapply (keyed_event_unique events keyed); [done..|]. by apply order_leb_antisym.
Qed.

Definition sample_event (rank : Z) (id : uuid) : render_event := {|
  ev_features := JObj [(lit "_memory", JObj [(lit "label", JStr (lit "a")); (lit "body", JStr (lit "b"));
                                            (lit "updated_at", JStr (lit "2026"))])];
  ev_memory_kind := JStr (lit "fact"); ev_rank := JInt rank; ev_memory_id := Some id |}.

Lemma render_order_independent_witness :
  ∃ block, render_final_block [sample_event 2 9; sample_event 1 5] = Ok block ∧
           render_final_block [sample_event 1 5; sample_event 2 9] = Ok block.
Proof.
  eexists. split; [vm_compute; reflexivity|].
  apply (render_order_independent [sample_event 2 9; sample_event 1 5]).
  - apply perm_swap.
  - cbn. apply NoDup_cons; split; [|apply NoDup_singleton].
    intros H%list_elem_of_singleton. discriminate H.
  - intros m H. cbn in H. repeat (apply elem_of_cons in H as [[= ->]|H]; [done|]).
    by apply not_elem_of_nil in H.
  - vm_compute. reflexivity.
Defined.
