(* ===== verification/PyPath.v ===== *)
(** * [pathlib.PurePosixPath], as far as the scorer uses it *)
From S2P Require Import Prelude PyStr.
Open Scope Z_scope.

Definition SLASH : N := 47%N.

(** A parsed path: its root ([""], ["/"] or ["//"]) and its names. *)
Record pure_path := { root : str; tail : list str }.

#[export] Instance pure_path_eq_dec : EqDecision pure_path.
Proof. solve_decision. Defined.

Fixpoint leading_slashes (s : str) : nat :=
  match s with
  | c :: s' => if N.eqb c SLASH then S (leading_slashes s') else O
  | [] => O
  end.

(** Exactly two leading slashes are kept, any other number is one. *)
Definition parse_root (s : str) : str :=
  match leading_slashes s with
  | O => []
  | 2%nat => [SLASH; SLASH]
  | _ => [SLASH]
  end.

Definition parse_path (s : str) : pure_path := {|
  root := parse_root s;
  tail := filter (λ p, p ≠ [] ∧ p ≠ lit ".") (split_on SLASH s);
|}.

Definition is_absolute (p : pure_path) : bool := bool_decide (root p ≠ []).

Definition parts (p : pure_path) : list str :=
  if is_absolute p then root p :: tail p else tail p.

(** [str(path)]: a relative path without names is ["."]. *)
Definition path_str (p : pure_path) : str :=
  match root p ++ join [SLASH] (tail p) with [] => lit "." | s => s end.

(** [path.name]. *)
Definition path_name (p : pure_path) : str := default [] (last (tail p)).

Definition parent (p : pure_path) : pure_path :=
  {| root := root p; tail := removelast (tail p) |}.

Fixpoint prefixb (a b : list str) : bool :=
  match a, b with
  | [], _ => true
  | x :: a', y :: b' => bool_decide (x = y) && prefixb a' b'
  | _ :: _, [] => false
  end.

Definition is_relative_to (p q : pure_path) : bool := prefixb (parts q) (parts p).

(** [".." in path.parts]. *)
Definition has_dotdot (p : pure_path) : bool := bool_decide (lit ".." ∈ parts p).

Lemma prefixb_spec a b : prefixb a b = true ↔ ∃ r, b = a ++ r.
Proof.
  split; [|intros [r ->]; induction a; cbn; [done|]; by rewrite bool_decide_true].
  revert b; induction a as [|x a IH]; intros [|y b]; cbn; try done.
  - by exists [].
  - intros _. by exists (y :: b).
  - intros H. breflect. subst. destruct (IH b) as [r ->]; [done|]. by exists r.
Qed.

Example parse_path_ex :
  path_str (parse_path (lit "/a//./b/")) = lit "/a/b" ∧ path_str (parse_path (lit "./")) = lit ".".
Proof. by vm_compute. Qed.
