(* ===== verification/Axes.v ===== *)
(** * Scorer axes: [src/src/spine/inject/axes.py]

    A curator may nominate a named product of two recorded features as an
    extra scoring axis.  [apply_axes] mixes the axes into a score in the order
    of their names. *)
From S2P Require Import Prelude PyStr PyFloat PyJson.
Open Scope Z_scope.

Inductive feature := Fsem | Fkw | Ftime | Fproj | Ffreq | Fhist | Floc | Fthread | Fwhere.

#[export] Instance feature_eq_dec : EqDecision feature.
Proof. solve_decision. Defined.

(** The mapping [Mapping[str, float | None]] of features: absent and [None]
    read alike through [.get]. *)
Abbreviation features_map := (feature → option float) (only parsing).

Inductive axis_action := axis_add | axis_retire.

Record AxisNomination := {
  axis_name : str;
  axis_label : str;
  axis_inputs : feature * feature;
  axis_weight : float;
  axis_act : axis_action;
  axis_rationale : str;
  axis_provenance : list (str * json);
}.

(** The declared field constraints: [min_length=1] and [ge=0, lt=1]. *)
Definition axis_valid (a : AxisNomination) : bool :=
  bool_decide (axis_name a ≠ []) && bool_decide (axis_label a ≠ [])
  && fle f0 (axis_weight a) && flt (axis_weight a) f1
  && bool_decide (axis_rationale a ≠ []).

(** [AxisNomination.value]: [math.prod] of the two inputs. *)
Definition axis_value (a : AxisNomination) (features : features_map) : option float :=
  match features (fst (axis_inputs a)), features (snd (axis_inputs a)) with
  | Some x, Some y => Some (fmul (fmul f1 x) y)
  | _, _ => None
  end.

Definition mix (weight score value : float) : float :=
  fadd (fmul (fsub f1 weight) score) (fmul weight value).

Definition apply_axis (features : features_map) (score : float) (axis : AxisNomination) : float :=
  match axis_value axis features with
  | Some value => if feq (axis_weight axis) f0 then score else mix (axis_weight axis) score value
  | None => score
  end.

Definition sort_axes (axes : list (str * AxisNomination)) : list (str * AxisNomination) :=
  sort_by (fun a b => str_leb a.1 b.1) axes.

Definition apply_axes (score : float) (features : features_map)
    (axes : list (str * AxisNomination)) : float :=
  foldl (fun s na => apply_axis features s na.2) score (sort_axes axes).

(** The axes that leave a score as it is: weightless, or with a missing input. *)
Definition axis_inert (features : features_map) (a : AxisNomination) : bool :=
  match axis_value a features with Some _ => feq (axis_weight a) f0 | None => true end.

(** ** Properties *)
Lemma apply_axis_inert features score a :
  axis_inert features a = true → apply_axis features score a = score.
Proof. unfold axis_inert, apply_axis. destruct (axis_value a features); [|done]. by intros ->. Qed.

(** The axes of a configuration act in the order of their names, so a
    dict that lists them in another order gives the same score. *)
Theorem apply_axes_order_independent (score : float) (features : features_map)
    (axes axes' : list (str * AxisNomination)) :
  NoDup axes.*1 → Permutation axes axes' →
  apply_axes score features axes = apply_axes score features axes'.
Proof.
  intros Hnd Hp. unfold apply_axes, sort_axes. f_equal.
  apply (sort_by_perm_eq _ (λ _, True)); try done.
  - intros x y _ _. apply str_leb_total.
  - intros x y z _ _ _. apply str_leb_trans.
  - by apply Forall_true.
  - intros [n a] [m b] Hx Hy H1 H2. cbn in *.
    assert (n = m) as -> by (by apply str_leb_antisym).
    apply list_elem_of_lookup in Hx as [i Hi]. apply list_elem_of_lookup in Hy as [j Hj].
    assert (i = j) as ->; [|congruence].
    eapply NoDup_lookup; [apply Hnd|..]; rewrite list_lookup_fmap.
    + by rewrite Hi.
    + by rewrite Hj.
Qed.

Lemma apply_axes_inert score features axes :
  Forall (λ na, axis_inert features na.2 = true) axes → apply_axes score features axes = score.
Proof.
  intros H. unfold apply_axes, sort_axes.
  assert (H' : Forall (λ na, axis_inert features na.2 = true)
                 (sort_by (λ a b, str_leb a.1 b.1) axes)) by (by apply sort_by_Forall).
  revert score. induction H' as [|na l Hna _ IH]; intros score; cbn; [done|].
  by rewrite apply_axis_inert, IH.
Qed.

Definition sample_axis (w : float) : AxisNomination :=
  {| axis_name := lit "n"; axis_label := lit "l"; axis_inputs := (Fsem, Fkw); axis_weight := w;
     axis_act := axis_add; axis_rationale := lit "r"; axis_provenance := [] |}.

Lemma apply_axes_order_independent_witness :
  apply_axes f1 (λ _, Some (f_ratio 1 2))
    [(lit "b", sample_axis (f_ratio 1 4)); (lit "a", sample_axis (f_ratio 1 8))] =
  apply_axes f1 (λ _, Some (f_ratio 1 2))
    [(lit "a", sample_axis (f_ratio 1 8)); (lit "b", sample_axis (f_ratio 1 4))].
Proof.
  apply (apply_axes_order_independent f1 _
    [(lit "b", sample_axis (f_ratio 1 4)); (lit "a", sample_axis (f_ratio 1 8))]).
  - cbn. apply NoDup_cons; split; [|apply NoDup_singleton].
    intros H%list_elem_of_singleton. discriminate H.
  - apply perm_swap.
Defined.
