(* ===== verification/Scorer.v ===== *)
(** * The scorer: [src/src/spine/inject/scorer.py], configuration and features

    The immutable scorer configuration with its validation, the features of a
    candidate and its score.  Floats are binary64 throughout, the order of
    evaluation is the source's, and every [raise] is an [Err]. *)
From S2P Require Import Prelude PyStr PyFloat PyJson PyPath Ids Axes.
Open Scope Z_scope.

(** ** Code outside the repository *)

(** The cl100k tokenizer ([src/src/spine/tokens.py] only calls tiktoken). *)
Class Tokenizer := { cl100k_token_count : str → Z }.
Class TokenizerLaws `{Tokenizer} := { token_count_nonneg : ∀ s, 0 ≤ cl100k_token_count s }.

(** [AxisNomination.model_validate]'s reading of a JSON value by pydantic;
    the declared constraints are [axis_valid]. *)
Class AxisDecoder := { decode_axis : json → option AxisNomination }.

(** ** Configuration *)
Definition SECONDS_PER_DAY : Z := 86400.
Definition MIN_MEMORY_CONTEXT_SHARE : float := f_ratio 1 100.
Definition MAX_MEMORY_CONTEXT_SHARE : float := f_ratio 1 2.
Definition DEFAULT_MEMORY_CONTEXT_SHARE : float := f_ratio 1 10.

Definition STOPWORDS : list str := lit <$> [
  "a"; "an"; "and"; "are"; "as"; "at"; "be"; "by"; "for"; "from"; "has"; "he"; "in"; "is"; "it";
  "its"; "of"; "on"; "that"; "the"; "to"; "was"; "were"; "will"; "with"]%string.

Record ScorerWeights := {
  w_sem : float; w_kw : float; w_time : float; w_proj : float; w_freq : float; w_hist : float }.

Record ScorerParams := {
  tau : float;
  near_miss_k : Z;
  memory_context_share : float;
  half_life_time_days : float;
  half_life_hist_days : float;
  candidate_pool : Z;
  location_weight : float;
  half_life_location_hops : float;
  thread_weight : float;
  where_weight : float;
  legacy_budget_tokens : option Z;
}.

(** [ScorerParams.__post_init__]. *)
Definition params_post_init (p : ScorerParams) : res pyexn unit :=
  guard_ (fle f0 (tau p) && fle (tau p) f1) (ValueError "tau must be between zero and one");;
  guard_ (negb (near_miss_k p <? 0)) (ValueError "near_miss_k must not be negative");;
  guard_ (fle MIN_MEMORY_CONTEXT_SHARE (memory_context_share p)
          && fle (memory_context_share p) MAX_MEMORY_CONTEXT_SHARE)
    (ValueError "memory_context_share must be between 0.01 and 0.50");;
  guard_ (match legacy_budget_tokens p with Some b => negb (b <=? 0) | None => true end)
    (ValueError "legacy budget_tokens must be positive");;
  guard_ (negb (fle (half_life_time_days p) f0 || fle (half_life_hist_days p) f0))
    (ValueError "scorer half lives must be positive");;
  guard_ (negb (candidate_pool p <=? 0)) (ValueError "candidate_pool must be positive");;
  guard_ (fle f0 (location_weight p) && flt (location_weight p) f1)
    (ValueError "location_weight must be at least zero and less than one");;
  guard_ (negb (fle (half_life_location_hops p) f0))
    (ValueError "location half life must be positive");;
  guard_ (fle f0 (thread_weight p) && flt (thread_weight p) f1)
    (ValueError "thread_weight must be at least zero and less than one");;
  guard_ (fle f0 (where_weight p) && flt (where_weight p) f1)
    (ValueError "where_weight must be at least zero and less than one").

(** [_finite_number] (and [_number], after its lookup). *)
Definition finite_number (value : json) : res pyexn float :=
  match value with
  | JInt z =>
      if isfinite (f_of_Z z) then Ok (f_of_Z z)
      else Err (OverflowError "int too large to convert to float")
  | JFloat f => if isfinite f then Ok f else Err (ValueError "scorer value must be finite")
  | _ => Err (ValueError "scorer value must be numeric")
  end.

Definition subscript (mapping : list (str * json)) (key : string) : res pyexn json :=
  match aget (lit key) mapping with Some v => Ok v | None => Err (KeyError (lit key)) end.

Definition number (mapping : list (str * json)) (key : string) : res pyexn float :=
  v ← subscript mapping key; finite_number v.

Definition integer (mapping : list (str * json)) (key : string) : res pyexn Z :=
  v ← subscript mapping key;
  match v with JInt z => Ok z | _ => Err (ValueError "scorer config must be an integer") end.

Definition optional_number (mapping : list (str * json)) (key : string) (d : float) :
    res pyexn float :=
  match aget (lit key) mapping with Some v => finite_number v | None => Ok d end.

(** ** [project_simplex] *)
Definition simplex_step (st : float * Z) (iv : Z * float) : res pyexn (float * Z) :=
  let '(cumulative, rho) := st in
  let '(index, value) := iv in
  let cumulative := fadd cumulative value in
  q ← pydiv (fsub cumulative f1) (f_of_Z index);
  Ok (cumulative, if flt f0 (fsub value q) then index else rho).

Fixpoint replace_last (f : float → float) (l : list float) : list float :=
  match l with
  | [] => []
  | [x] => [f x]
  | x :: l' => x :: replace_last f l'
  end.

Definition project_simplex (values : list float) : res pyexn (list float) :=
  let ordered := sort_by (fun a b => fle b a) values in
  '(_, rho) ← res_fold simplex_step (f0, 0) (enumerate_from 1 ordered);
  if rho =? 0 then
    res_map (fun _ => pydiv f1 (f_of_Z (zlen values))) values
  else
    head ← fsum (take (Z.to_nat rho) ordered);
    theta ← pydiv (fsub head f1) (f_of_Z rho);
    let projected := (fun value => fmax (fsub value theta) f0) <$> values in
    total ← fsum projected;
    normalized ← res_map (fun value => pydiv value total) projected;
    rest ← fsum normalized;
    Ok (replace_last (fun x => fadd x (fsub f1 rest)) normalized).

Record ScorerConfig := {
  version : str;
  weights : ScorerWeights;
  params : ScorerParams;
  bias_offsets : list (uuid * float);
  project_offsets : json;
  axes : list (str * AxisNomination);
}.

Definition weight_names : list string := ["sem"; "kw"; "time"; "proj"; "freq"; "hist"].
Definition weight_values (w : ScorerWeights) : list float :=
  [w_sem w; w_kw w; w_time w; w_proj w; w_freq w; w_hist w].
Definition weights_of_values (l : list float) : option ScorerWeights :=
  match l with
  | [a; b; c; d; e; f] => Some (Build_ScorerWeights a b c d e f)
  | _ => None
  end.

(** [set(offsets) == set(names)]. *)
Definition six_names (offsets : list (str * json)) : bool :=
  forallb (fun k => existsb (fun n => bool_decide (k = lit n)) weight_names) offsets.*1
  && forallb (fun n => existsb (fun k => bool_decide (k = lit n)) offsets.*1) weight_names.

(** [ScorerConfig.weights_for_project]. *)
Definition weights_for_project (c : ScorerConfig) (project : option str) : res pyexn ScorerWeights :=
  offsets ← match project with
    | None => Ok (JObj [])
    | Some p => match project_offsets c with
                | JObj kv => Ok (default (JObj []) (aget p kv))
                | _ => Err (AttributeError "get")
                end
    end;
  match offsets with
  | JObj [] | JNull | JList [] | JStr [] | JBool false => Ok (weights c)
  | JObj offsets =>
      guard_ (six_names offsets) (ValueError "project offsets require the six named weights");;
      values ← res_map (fun nw : string * float =>
                   v ← subscript offsets nw.1; o ← finite_number v; Ok (fadd nw.2 o))
                 (zip weight_names (weight_values (weights c)));
      total ← fsum values;
      guard_ (negb (flt (f_ratio 1 10000000) (fabs (fsub total f1))))
        (ValueError "project offsets must sum to zero");;
      let least := foldl fmin (default f0 (head values)) values in
      values ← (if flt least f0 then project_simplex values else Ok values);
      match weights_of_values values with
      | Some w => Ok w
      | None => Err (TypeError "ScorerWeights")
      end
  | JList l =>
      if existsb (fun j => match j with JObj _ | JList _ => true | _ => false end) l
      then Err (TypeError "unhashable type")
      else match mapM as_str l with
           | Some names =>
               if six_names ((fun n => (n, JNull)) <$> names)
               then Err (TypeError "list indices must be integers or slices, not str")
               else Err (ValueError "project offsets require the six named weights")
           | None => Err (ValueError "project offsets require the six named weights")
           end
  | JStr _ => Err (ValueError "project offsets require the six named weights")
  | JInt z => if z =? 0 then Ok (weights c) else Err (TypeError "object is not iterable")
  | JFloat f => if feq f f0 then Ok (weights c) else Err (TypeError "object is not iterable")
  | JBool true => Err (TypeError "object is not iterable")
  end.

(** [ScorerConfig.__post_init__]. *)
Definition config_post_init (c : ScorerConfig) : res pyexn unit :=
  guard_ (negb (blank (version c))) (ValueError "scorer version must not be blank");;
  guard_ (forallb isfinite (weight_values (weights c))) (ValueError "scorer weights must be finite");;
  guard_ (forallb isfinite (bias_offsets c).*2) (ValueError "scorer bias offsets must be finite");;
  match project_offsets c with
  | JObj kv => res_map (fun p => weights_for_project c (Some p)) kv.*1;; Ok tt
  | JStr s => (if bool_decide (s = []) then Ok tt else Err (AttributeError "get"))
  | JList l =>
      if forallb (fun j => match j with JNull => true | _ => false end) l then Ok tt
      else Err (AttributeError "get")
  | _ => Err (TypeError "object is not iterable")
  end.

(** [UUID(str(key))] for an ASCII key: the prefixes, braces and hyphens are
    dropped and 32 hexadecimal digits must remain. *)
Definition hex_value (c : N) : option N :=
  if ((48 <=? c) && (c <=? 57))%N then Some (c - 48)%N
  else if ((97 <=? c) && (c <=? 102))%N then Some (c - 87)%N
  else if ((65 <=? c) && (c <=? 70))%N then Some (c - 55)%N else None.

Fixpoint parse_hex (acc : N) (s : str) : option N :=
  match s with
  | [] => Some acc
  | c :: s' => v ← hex_value c; parse_hex (acc * 16 + v)%N s'
  end.

Fixpoint remove_sub (fuel : nat) (p s : str) : str :=
  match fuel, s with
  | S f, c :: s' =>
      if startswith p s then remove_sub f p (drop (length p) s) else c :: remove_sub f p s'
  | _, _ => s
  end.

Fixpoint lstrip_braces (s : str) : str :=
  match s with
  | c :: s' => if ((c =? 123) || (c =? 125))%N then lstrip_braces s' else s
  | [] => []
  end.

Definition uuid_of_str (s : str) : option uuid :=
  let s := remove_sub (length s) (lit "urn:") s in
  let s := remove_sub (length s) (lit "uuid:") s in
  let s := rev (lstrip_braces (rev (lstrip_braces s))) in
  let s := replace_char 45 [] s in
  if (length s =? 32)%nat then parse_hex 0 s else None.

Definition bias_offset_entry (acc : list (uuid * float)) (kv : str * json) :
    res pyexn (list (uuid * float)) :=
  match uuid_of_str kv.1 with
  | None => Err (ValueError "scorer learner bias offset key must be a UUID")
  | Some id => v ← finite_number kv.2; Ok (aset id v acc)
  end.

(** [ScorerConfig.from_mappings]. *)
Definition from_mappings `{AxisDecoder} (ver : str) (w p : list (str * json)) :
    res pyexn ScorerConfig :=
  learner ← match aget (lit "_learner") p with
    | None => Ok [] | Some (JObj kv) => Ok kv
    | Some _ => Err (ValueError "scorer _learner metadata must be an object") end;
  raw ← match aget (lit "bias_offsets") learner with
    | None => Ok [] | Some (JObj kv) => Ok kv
    | Some _ => Err (ValueError "scorer learner bias_offsets must be an object") end;
  biases ← res_fold bias_offset_entry [] raw;
  sem ← number w "sem"; kw ← number w "kw"; time ← number w "time";
  proj ← number w "proj"; freq ← number w "freq"; hist ← number w "hist";
  tau ← number p "tau";
  k ← integer p "near_miss_k";
  let shared := bool_decide (is_Some (aget (lit "memory_context_share") p)) in
  share ← (if shared then number p "memory_context_share" else number p "budget_pct");
  ht ← number p "half_life_time_days";
  hh ← number p "half_life_hist_days";
  pool ← integer p "candidate_pool";
  lw ← optional_number p "location_weight" f0;
  hl ← optional_number p "half_life_location_hops" (f_of_Z 2);
  tw ← optional_number p "thread_weight" f0;
  ww ← optional_number p "where_weight" f0;
  legacy ← (if shared then Ok None else b ← integer p "budget_tokens"; Ok (Some b));
  let ps := Build_ScorerParams tau k share ht hh pool lw hl tw ww legacy in
  params_post_init ps;;
  ax ← match aget (lit "axes") p with
    | None => Ok []
    | Some (JObj kv) =>
        res_map (fun na : str * json =>
          match decode_axis na.2 with
          | Some a => if axis_valid a then Ok (na.1, a) else Err (ValueError "axis")
          | None => Err (ValueError "axis")
          end) kv
    | Some _ => Err (AttributeError "items")
    end;
  let c := Build_ScorerConfig ver (Build_ScorerWeights sem kw time proj freq hist) ps biases
             (default (JObj []) (aget (lit "project_offsets") p)) ax in
  config_post_init c;;
  Ok c.

(** [ScorerConfig.bias_offset]. *)
Definition bias_offset (c : ScorerConfig) (id : uuid) : float :=
  default f0 (aget id (bias_offsets c)).
