(* ===== verification/Features.v ===== *)
(** * Scoring features: [src/src/spine/inject/scorer.py], second part

    The explainability features of one candidate memory and the score they
    add up to.  Times are microseconds, so [timedelta.total_seconds] is an
    exact rational rounded once. *)
From S2P Require Import Prelude PyStr PyFloat PyJson PyPath Ids Axes Scorer.
Open Scope Z_scope.

Record ScoringCandidate := {
  memory_id : uuid;
  label : str;
  body : str;
  kind : str;
  keywords : list str;
  embedding : list float;
  project_key : option str;
  origin_thread_id : option uuid;
  origin_path : option str;
  origin_location : option str;
  pin : bool;
  updated_at : Z;
  last_human_edit_at : option Z;
  stats : list (str * json);
  bias : float;
  revision : Z;
  pool_sources : list str;
}.

Record ScoreFeatures := {
  f_sem : float; f_kw : float; f_time : float; f_proj : float; f_freq : float; f_hist : float;
  f_loc : option float; f_thread : option float; f_where : option float;
  f_axes : list (str * float);
}.

(** [ScoreFeatures.as_dict], through [.get]: a missing optional feature is
    deleted, which reads as [None]. *)
Definition as_dict (f : ScoreFeatures) (name : feature) : option float :=
  match name with
  | Fsem => Some (f_sem f) | Fkw => Some (f_kw f) | Ftime => Some (f_time f)
  | Fproj => Some (f_proj f) | Ffreq => Some (f_freq f) | Fhist => Some (f_hist f)
  | Floc => f_loc f | Fthread => f_thread f | Fwhere => f_where f
  end.

(** ** Text features *)
Section tokens.
Context {UC : Unicode}.

(** The loop of [_tokens]: finished tokens and the current one, reversed. *)
Definition tokens_step (st : list str * str) (character : N) : list str * str :=
  let '(tokens, current) := st in
  if py_isalnum character then (tokens, current ++ [character])
  else match current with [] => (tokens, []) | _ => (tokens ++ [current], []) end.

Definition tokens (value : str) : list str :=
  let '(tokens, current) := foldl tokens_step ([], []) (py_lower value) in
  match current with [] => tokens | _ => tokens ++ [current] end.

(** A [frozenset]. *)
Definition prompt_keywords (value : str) : gset str :=
  list_to_set (filter (λ token, token ∉ STOPWORDS) (tokens value)).

Definition memory_keywords (label : str) (keywords : list str) : gset str :=
  list_to_set (tokens label ++ concat (tokens <$> keywords)).
End tokens.

(** ** Vectors *)
Definition validated_vector (values : list float) : res pyexn (list float) :=
  guard_ (forallb isfinite values) (ValueError "vector must contain only finite numbers");;
  guard_ (bool_decide (values ≠ [])) (ValueError "vector must not be empty");;
  n ← fsum_squares values;
  guard_ (negb (feq n f0)) (ValueError "vector must not have zero norm");;
  Ok values.

(** [math.sqrt] raises ValueError below zero; sums of squares are not. *)
Definition cosine (left right : list float) : res pyexn float :=
  numerator ← fsum (zip_with fmul left right);
  l2 ← fsum_squares left;
  r2 ← fsum_squares right;
  c ← pydiv numerator (fmul (fsqrt l2) (fsqrt r2));
  Ok (fmin f1 (fmax (fneg f1) c)).

Definition vector_similarity (candidate : ScoringCandidate) (query : list float) :
    res pyexn float :=
  e ← validated_vector (embedding candidate);
  guard_ (length query =? length e)%nat (ValueError "embedding dimensions differ");;
  cosine query e.

Definition semantic_similarity (candidate : ScoringCandidate) (query : list float) :
    res pyexn float :=
  v ← vector_similarity candidate query; Ok (fmax f0 v).

(** ** The scalar features *)
Section features.
Context {UC : Unicode} {LM : Libm} {TK : Tokenizer}.

Definition decay (snapshot_ts event_ts : Z) (half_life_days : float) : res pyexn float :=
  let seconds := f_ratio (snapshot_ts - event_ts) 1000000 in
  let age_days := fmax f0 (fdiv seconds (f_of_Z SECONDS_PER_DAY)) in
  x ← pydiv (fneg age_days) half_life_days;
  Ok (pow2 x).

Definition project_feature (thread_project_key memory_project_key : option str) : float :=
  if bool_decide (thread_project_key ≠ None ∧ memory_project_key = thread_project_key) then f1
  else if bool_decide (memory_project_key = None) then f_ratio 1 2
  else f0.

Definition location_parts (value : str) : res pyexn (list str) :=
  let path := parse_path value in
  guard_ (negb (is_absolute path || has_dotdot path))
    (ValueError "location paths must be workspace-relative");;
  Ok (filter (λ part, part ≠ lit "." ∧ part ≠ []) (parts path)).

(** The length of the common prefix ([zip] with [break]). *)
Fixpoint common_prefix (a b : list str) : nat :=
  match a, b with
  | x :: a', y :: b' => if bool_decide (x = y) then S (common_prefix a' b') else O
  | _, _ => O
  end.

Definition relative_origin (memory_project_key origin : str) : str :=
  if bool_decide (origin = memory_project_key) then lit "."
  else if startswith (memory_project_key ++ [SLASH]) origin
       then drop (S (length memory_project_key)) origin
       else origin.

Definition location_feature (location_path origin_path thread_project_key memory_project_key : option str)
    (half_life_hops : float) : res pyexn (option float) :=
  match location_path, origin_path with
  | Some location, Some origin =>
      match thread_project_key, memory_project_key with
      | Some t, Some m =>
          if bool_decide (t = m) then
            current_parts ← location_parts location;
            origin_parts ← location_parts (relative_origin m origin);
            let hops := zlen current_parts + zlen origin_parts
                        - 2 * Z.of_nat (common_prefix current_parts origin_parts) in
            x ← pydiv (f_of_Z (- hops)) half_life_hops;
            Ok (Some (pow2 x))
          else Ok (Some f0)
      | _, _ => Ok None
      end
  | _, _ => Ok None
  end.

Definition thread_feature (thread_id origin_thread_id : option uuid) : option float :=
  match thread_id, origin_thread_id with
  | Some t, Some o => Some (if N.eqb o t then f1 else f0)
  | _, _ => None
  end.

Definition canonical_path (value : str) : bool :=
  let p := parse_path value in
  is_absolute p && negb (has_dotdot p) && bool_decide (path_str p = value).

Definition where_feature (current_location origin_location : option str) :
    res pyexn (option float) :=
  match current_location, origin_location with
  | Some c, Some o =>
      guard_ (canonical_path c && canonical_path o)
        (ValueError "origin locations must be canonical absolute paths");;
      let current := parse_path c in
      let origin := parse_path o in
      if bool_decide (current = origin) then Ok (Some f1)
      else if is_relative_to current origin || is_relative_to origin current then
        let distance := Z.abs (zlen (parts current) - zlen (parts origin)) in
        Ok (Some (fadd (f_ratio 3 4) (fmul (f_ratio 1 4) (pow2 (f_of_Z (- distance))))))
      else if bool_decide (parent current = parent origin) then Ok (Some (f_ratio 1 2))
      else Ok (Some f0)
  | _, _ => Ok None
  end.

(** [_citations]: [stats.get("citations", 0)]. *)
Definition citations (stats : list (str * json)) : res pyexn float :=
  match as_number (default (JInt 0) (aget (lit "citations") stats)) with
  | None => Err (ValueError "stats.citations must be numeric")
  | Some normalized =>
      if negb (isfinite normalized) && match aget (lit "citations") stats with
                                       | Some (JInt _) => true | _ => false end
      then Err (OverflowError "int too large to convert to float")
      else
        guard_ (negb (flt normalized f0 || negb (isfinite normalized)))
          (ValueError "stats.citations must be a finite non-negative number");;
        Ok normalized
  end.

(** ** The score *)
Definition mix_feature (score : float) (wv : float * option float) : float :=
  match wv.2 with
  | Some value => fadd (fmul (fsub f1 wv.1) score) (fmul wv.1 value)
  | None => score
  end.

(** [getattr(weights, name) * features[name]] for the six named weights. *)
Definition linear_terms (f : ScoreFeatures) (w : ScorerWeights) : list float :=
  zip_with fmul (weight_values w)
    [f_sem f; f_kw f; f_time f; f_proj f; f_freq f; f_hist f].

Definition score_features (f : ScoreFeatures) (w : ScorerWeights) (p : ScorerParams)
    (axes : list (str * AxisNomination)) : res pyexn float :=
  score ← fsum (linear_terms f w);
  let score := foldl mix_feature score
    [(location_weight p, f_loc f); (thread_weight p, f_thread f); (where_weight p, f_where f)] in
  Ok (apply_axes score (as_dict f) axes).

Record UnrankedCandidate := {
  u_candidate : ScoringCandidate;
  u_features : ScoreFeatures;
  u_score : float;
  u_token_cost : Z;
}.

(** The context of one request, shared by every candidate. *)
Record ScoringContext := {
  c_query : list float;
  c_prompt_keywords : gset str;
  c_snapshot_ts : Z;
  c_thread_project_key : option str;
  c_thread_id : option uuid;
  c_location_path : option str;
  c_current_location : option str;
}.

Definition keyword_overlap (prompt memory : gset str) : float :=
  f_ratio (Z.of_nat (size (prompt ∩ memory))) (Z.max 1 (Z.of_nat (size prompt))).

Definition base_features (ctx : ScoringContext) (candidate : ScoringCandidate)
    (semantic : option float) (p : ScorerParams) : res pyexn ScoreFeatures :=
  let overlap := keyword_overlap (c_prompt_keywords ctx)
                   (memory_keywords (label candidate) (keywords candidate)) in
  sem ← match semantic with
        | None => semantic_similarity candidate (c_query ctx) | Some s => Ok s end;
  time ← decay (c_snapshot_ts ctx) (updated_at candidate) (half_life_time_days p);
  cites ← citations (stats candidate);
  hist ← match last_human_edit_at candidate with
         | None => Ok f0
         | Some ts => decay (c_snapshot_ts ctx) ts (half_life_hist_days p) end;
  loc ← location_feature (c_location_path ctx) (origin_path candidate)
          (c_thread_project_key ctx) (project_key candidate) (half_life_location_hops p);
  where_ ← where_feature (c_current_location ctx) (origin_location candidate);
  Ok {| f_sem := sem; f_kw := fmin f1 overlap; f_time := time;
        f_proj := project_feature (c_thread_project_key ctx) (project_key candidate);
        f_freq := fmin f1 (fdiv cites (f_of_Z 10)); f_hist := hist; f_loc := loc;
        f_thread := thread_feature (c_thread_id ctx) (origin_thread_id candidate);
        f_where := where_; f_axes := [] |}.

(** [features.axes[name] = value] for each axis that has a value. *)
Definition with_axes (f : ScoreFeatures) (axes : list (str * AxisNomination)) : ScoreFeatures :=
  let values := foldl (fun acc (na : str * AxisNomination) =>
                  match axis_value na.2 (as_dict f) with
                  | Some v => aset na.1 v acc | None => acc end) [] axes in
  {| f_sem := f_sem f; f_kw := f_kw f; f_time := f_time f; f_proj := f_proj f;
     f_freq := f_freq f; f_hist := f_hist f; f_loc := f_loc f; f_thread := f_thread f;
     f_where := f_where f; f_axes := values |}.

(** [_score_candidate]. *)
Definition score_candidate (ctx : ScoringContext) (semantic : option float) (w : ScorerWeights)
    (p : ScorerParams) (learned_bias : float) (axes : list (str * AxisNomination))
    (candidate : ScoringCandidate) : res pyexn UnrankedCandidate :=
  f ← base_features ctx candidate semantic p;
  score ← score_features f w p axes;
  let score := fadd score (fadd (bias candidate) learned_bias) in
  guard_ (isfinite score) (ValueError "score is not finite");;
  quantized ← fround32 score;
  Ok {| u_candidate := candidate; u_features := with_axes f axes; u_score := quantized;
        u_token_cost := cl100k_token_count (body candidate) |}.
End features.

(** ** Facts *)
Section token_facts.
Context {UC : Unicode}.

Definition token_ok (t : str) : Prop := t ≠ [] ∧ Forall (λ c, py_isalnum c = true) t.

Lemma tokens_invariant l ts cur :
  Forall token_ok ts → Forall (λ c, py_isalnum c = true) cur →
  Forall token_ok (foldl tokens_step (ts, cur) l).1 ∧
  Forall (λ c, py_isalnum c = true) (foldl tokens_step (ts, cur) l).2.
Proof.
  revert ts cur; induction l as [|c l IH]; intros ts cur Hts Hcur; cbn; [done|].
  destruct (py_isalnum c) eqn:E.
  - apply IH; [done|]. apply Forall_app; split; [done|]. by constructor.
  - destruct cur as [|d cur]; apply IH; try done.
    apply Forall_app; split; [done|]. by constructor.
Qed.

Lemma tokens_ok value : Forall token_ok (tokens value).
Proof.
  unfold tokens. destruct (foldl _ _ _) as [ts cur] eqn:E.
  destruct (tokens_invariant (py_lower value) [] []) as [H1 H2]; try done.
  rewrite E in H1, H2. cbn in *. destruct cur as [|c cur]; [done|].
  apply Forall_app; split; [done|]. by constructor.
Qed.

(** The tokens, in order, hold every alphanumeric character of the lowered
    text and nothing else. *)
Lemma tokens_step_concat l ts cur :
  concat (foldl tokens_step (ts, cur) l).1 ++ (foldl tokens_step (ts, cur) l).2 =
  concat ts ++ cur ++ filter (λ c, py_isalnum c = true) l.
Proof.
  revert ts cur; induction l as [|c l IH]; intros ts cur; cbn [foldl].
  { by rewrite filter_nil, app_nil_r. }
  cbn [tokens_step]. rewrite filter_cons. destruct (py_isalnum c) eqn:E.
  - rewrite IH, decide_True by done. by rewrite <- (app_assoc cur).
  - rewrite decide_False by congruence. destruct cur as [|d cur]; rewrite IH; [done|].
    rewrite concat_app, <- app_assoc. cbn. by rewrite app_nil_r.
Qed.

Lemma tokens_concat value :
  concat (tokens value) = filter (λ c, py_isalnum c = true) (py_lower value).
Proof.
  pose proof (tokens_step_concat (py_lower value) [] []) as E.
  unfold tokens. destruct (foldl _ _ _) as [ts cur]. cbn in E |- *. rewrite <- E.
  destruct cur as [|c cur]; [by rewrite app_nil_r|]. rewrite concat_app. cbn. by rewrite app_nil_r.
Qed.
End token_facts.

Lemma fmax0_sign y : has_sign false (fmax f0 y) = true.
Proof. unfold fmax. by destruct y as [[]|[]| |[]]. Qed.

Lemma fround_neg_sign m e : m < 0 → has_sign true (fround m e) = true.
Proof.
  intros Hm. unfold fround, SpecFloat.binary_normalize, SpecFloat.binary_round.
  destruct m as [|m|m]; [lia|lia|].
  destruct (SpecFloat.shl_align _ _ _) as [mz ez]. apply round_aux_sign. lia.
Qed.

Lemma has_sign_nonpos x : has_sign true x = true → fle x f0 = true.
Proof. by destruct x as [[]|[]| |[]]. Qed.

(** A half life that [params_post_init] accepts, given a finite value. *)
Definition positive_finite (x : float) : bool := isfinite x && negb (fle x f0).

(** [-a / h] for a non-negative [a] and a positive finite [h]. *)
Lemma fdiv_neg_sign a h :
  has_sign false a = true → positive_finite h = true →
  fle (fdiv (fneg a) h) f0 = true ∧ is_nan (fdiv (fneg a) h) = false.
Proof.
  intros Ha Hh. unfold positive_finite in Hh. breflect.
  destruct h as [[]|[]| |[] m e]; try done.
  destruct a as [[]|[]| |[] m' e']; try done.
  pose proof (sfdiv_sign true false m' m e' e) as Hs.
  split; [by apply has_sign_nonpos|by eapply has_sign_not_nan].
Qed.

Lemma fdiv_nonneg a h :
  isfinite a = true → flt a f0 = false → positive_finite h = true →
  fle f0 (fdiv a h) = true ∧ is_nan (fdiv a h) = false.
Proof.
  intros Ha Hn Hh. unfold positive_finite in Hh. breflect.
  destruct h as [[]|[]| |[] m e]; try done.
  destruct a as [[]|[]| |[] m' e']; try done.
  pose proof (sfdiv_sign false false m' m e' e) as Hs.
  split; [by apply has_sign_nonneg|by eapply has_sign_not_nan].
Qed.

Definition unit_interval (x : float) : Prop := fle f0 x = true ∧ fle x f1 = true.

Lemma fmin1_unit y : fle f0 y = true → unit_interval (fmin f1 y).
Proof.
  intros Hy. split; [|by apply fmin_le]. by destruct (fmin_choice f1 y) as [-> | ->].
Qed.

Section ranges.
Context {UC : Unicode} {LM : Libm} {LML : LibmLaws} {TK : Tokenizer}.

Lemma pow2_unit x : is_nan x = false → fle x f0 = true → unit_interval (pow2 x).
Proof. split; [by apply pow2_nonneg|by apply pow2_le_1]. Qed.

Lemma decay_unit a b h v :
  positive_finite h = true → decay a b h = Ok v → unit_interval v.
Proof.
  intros Hh Hd. apply bind_Ok in Hd as (x & Hx & [= <-]).
  unfold pydiv in Hx. destruct (feq h f0); [done|]. injection Hx as <-.
  destruct (fdiv_neg_sign (fmax f0 (fdiv (f_ratio (a - b) 1000000) (f_of_Z SECONDS_PER_DAY))) h)
    as [H1 H2]; [apply fmax0_sign|done|]. by apply pow2_unit.
Qed.

Lemma common_prefix_le a b :
  (common_prefix a b ≤ length a ∧ common_prefix a b ≤ length b)%nat.
Proof.
  revert b; induction a as [|x a IH]; intros [|y b]; cbn; try lia.
  destruct (bool_decide (x = y)); [|lia]. specialize (IH b). lia.
Qed.

Lemma location_unit l o t m h v :
  positive_finite h = true → location_feature l o t m h = Ok (Some v) → unit_interval v.
Proof.
  intros Hh Hl. unfold location_feature in Hl.
  destruct l as [l|], o as [o|]; try done. destruct t as [t|], m as [m|]; try done.
  destruct (bool_decide (t = m)); [|by injection Hl as <-].
  apply bind_Ok in Hl as (cp & _ & Hl). apply bind_Ok in Hl as (op & _ & Hl).
  apply bind_Ok in Hl as (x & Hx & [= <-]).
  unfold pydiv in Hx. destruct (feq h f0); [done|]. injection Hx as <-.
  assert (Hhops : 0 ≤ zlen cp + zlen op - 2 * Z.of_nat (common_prefix cp op)).
  { pose proof (common_prefix_le cp op). unfold zlen. lia. }
  set (hops := zlen cp + zlen op - 2 * Z.of_nat (common_prefix cp op)) in *.
  set (a := fneg (f_of_Z (- hops))).
  assert (Ha : has_sign false a = true ∧ f_of_Z (- hops) = fneg a ∨ hops = 0).
  { destruct (Z.eq_dec hops 0) as [|Hne]; [by right|left].
    pose proof (fround_neg_sign (- hops) 0 ltac:(lia)) as Hs. unfold a, f_of_Z in *.
    by destruct (fround (- hops) 0) as [[]|[]| |[]]. }
  destruct Ha as [[Ha ->]| ->].
  - apply pow2_unit; by apply fdiv_neg_sign.
  - change (f_of_Z (- 0)) with f0.
    unfold positive_finite in Hh. breflect. destruct h as [[]|[]| |[]]; try done.
    by apply pow2_unit.
Qed.

Lemma semantic_unit candidate query v :
  semantic_similarity candidate query = Ok v → unit_interval v.
Proof.
  intros Hs. apply bind_Ok in Hs as (c & Hc & [= <-]).
  apply bind_Ok in Hc as (e & _ & Hc). apply bind_Ok in Hc as (? & _ & Hc).
  apply bind_Ok in Hc as (n & _ & Hc). apply bind_Ok in Hc as (l2 & _ & Hc).
  apply bind_Ok in Hc as (r2 & _ & Hc). apply bind_Ok in Hc as (q & _ & <-%Ok_inj).
  split; [by apply fmax_ge|].
  destruct (fmax_choice f0 (fmin f1 (fmax (fneg f1) q))) as [-> | ->]; [done|].
  by apply fmin_le.
Qed.

(** Every feature the scorer computes lies in the unit interval, for
    whatever embeddings, statistics and clocks the database returns (the
    folder feature apart), so weights alone decide a feature's influence. *)
Theorem features_in_unit_interval ctx candidate p f :
  positive_finite (half_life_time_days p) = true →
  positive_finite (half_life_hist_days p) = true →
  positive_finite (half_life_location_hops p) = true →
  base_features ctx candidate None p = Ok f →
  Forall unit_interval [f_sem f; f_kw f; f_time f; f_proj f; f_freq f; f_hist f] ∧
  (∀ v, f_loc f = Some v ∨ f_thread f = Some v → unit_interval v).
Proof.
  intros Ht Hh Hl Hf. unfold base_features in Hf.
  apply bind_Ok in Hf as (sem & Hsem & Hf). apply bind_Ok in Hf as (time & Htime & Hf).
  apply bind_Ok in Hf as (cites & Hcites & Hf). apply bind_Ok in Hf as (hist & Hhist & Hf).
  apply bind_Ok in Hf as (loc & Hloc & Hf). apply bind_Ok in Hf as (wh & _ & [= <-]). cbn.
  split; [repeat (apply Forall_cons; split); try by apply Forall_nil|].
  - by eapply semantic_unit.
  - apply fmin1_unit, has_sign_nonneg, f_ratio_nonneg; lia.
  - by apply (decay_unit _ _ _ _ Ht Htime).
  - unfold project_feature. by repeat case_bool_decide.
  - unfold citations in Hcites. destruct (as_number _) as [c|]; [|done].
    destruct (negb (isfinite c) && _); [done|]. apply bind_Ok in Hcites as (? & Hg%guard_Ok & <-%Ok_inj). breflect.
    apply fmin1_unit. by apply fdiv_nonneg.
  - destruct (last_human_edit_at candidate); [by apply (decay_unit _ _ _ _ Hh Hhist)|].
    by injection Hhist as <-.
  - intros v [-> | Hv]; [by apply (location_unit _ _ _ _ _ _ Hl Hloc)|].
    unfold thread_feature in Hv. destruct (c_thread_id ctx), (origin_thread_id candidate); try done.
    injection Hv as <-. by destruct (N.eqb _ _).
Qed.
End ranges.

(** [_tokens] splits a text into alphanumeric words: every
    token is a non-empty alphanumeric word of the lowered text, and together,
    in order, they are all its alphanumeric characters.  The prompt's keywords
    are those words that are not stopwords. *)
Theorem tokens_spec {UC : Unicode} (value : str) :
  Forall token_ok (tokens value) ∧
  concat (tokens value) = filter (λ c, py_isalnum c = true) (py_lower value) ∧
  (∀ t, t ∈ prompt_keywords value ↔ t ∈ tokens value ∧ t ∉ STOPWORDS).
Proof.
  split; [apply tokens_ok|]. split; [apply tokens_concat|].
  intros t. unfold prompt_keywords. rewrite elem_of_list_to_set, list_elem_of_filter. tauto.
Qed.

(** ** A concrete run *)
Definition sample_libm : Libm := {| pow2 := λ x, if fle f0 x then f1 else f_ratio 1 2 |}.

Lemma sample_libm_laws : @LibmLaws sample_libm.
Proof.
  split; cbn.
  - intros x _ _. by destruct (fle f0 x).
  - intros x _ _. by destruct (fle f0 x).
  - intros x Hx. by destruct x as [[]|[]| |[]].
Qed.

Definition sample_tokenizer : Tokenizer := {| cl100k_token_count := zlen |}.

Definition sample_candidate (id : uuid) (p : bool) (text : str) : ScoringCandidate := {|
  memory_id := id; label := lit "Rocq proofs"; body := text; kind := lit "fact";
  keywords := [lit "lemma"]; embedding := [f1; f_ratio 1 2]; project_key := None;
  origin_thread_id := Some 3%N; origin_path := Some (lit "p/a"); origin_location := None;
  pin := p; updated_at := 0; last_human_edit_at := Some 5;
  stats := [(lit "citations", JInt 2)]; bias := f0; revision := 1; pool_sources := [] |}.

Definition sample_params : ScorerParams := {|
  tau := f_ratio 1 5; near_miss_k := 2; memory_context_share := f_ratio 1 10;
  half_life_time_days := f_of_Z 30; half_life_hist_days := f_of_Z 30; candidate_pool := 50;
  location_weight := f0; half_life_location_hops := f_of_Z 2; thread_weight := f0;
  where_weight := f0; legacy_budget_tokens := None |}.

Definition sample_context : ScoringContext := {|
  c_query := [f1; f0]; c_prompt_keywords := prompt_keywords (lit "a lemma for Rocq");
  c_snapshot_ts := 86400000000; c_thread_project_key := None; c_thread_id := Some 3%N;
  c_location_path := None; c_current_location := None |}.

Lemma features_in_unit_interval_witness :
  ∃ f, @base_features _ sample_libm sample_context (sample_candidate 1 false (lit "b")) None
         sample_params = Ok f ∧
    Forall unit_interval [f_sem f; f_kw f; f_time f; f_proj f; f_freq f; f_hist f].
Proof.
  eexists. split; [vm_compute; reflexivity|].
  refine (proj1 (@features_in_unit_interval _ sample_libm sample_libm_laws
    sample_context (sample_candidate 1 false (lit "b")) sample_params _ _ _ _ _));
    [done..|vm_compute; reflexivity].
Defined.
