(* ===== verification/Selection.v ===== *)
(** * Selection: [score_and_select] of [src/src/spine/inject/scorer.py]

    Pins always inject; locked memories come next; the other candidates are
    taken greedily in score order while they reach [tau] and fit the token
    budget that the memory share leaves. *)
From S2P Require Import Prelude PyStr PyFloat PyJson PyPath Ids Axes Scorer Features.
Open Scope Z_scope.

Record ScoredCandidate := {
  s_candidate : ScoringCandidate;
  s_features : ScoreFeatures;
  s_score : float;
  s_rank : Z;
  s_token_cost : Z;
}.

Record ScoringSelection := {
  injected : list ScoredCandidate;
  near_misses : list ScoredCandidate;
  budget_cuts : list ScoredCandidate;
  unselected : list ScoredCandidate;
  regular_budget : Z;
  pin_token_cost : Z;
  regular_token_cost : Z;
  total_token_cost : Z;
  pinned_overflow_tokens : Z;
}.

Definition u_id (s : UnrankedCandidate) : uuid := memory_id (u_candidate s).
Definition s_id (s : ScoredCandidate) : uuid := memory_id (s_candidate s).

(** [_with_rank]. *)
Definition with_rank (ranked : Z * UnrankedCandidate) : ScoredCandidate :=
  let '(rank, scored) := ranked in {|
    s_candidate := u_candidate scored; s_features := u_features scored;
    s_score := u_score scored; s_rank := rank; s_token_cost := u_token_cost scored |}.

Definition rank_from (start : Z) (pool : list UnrankedCandidate) : list ScoredCandidate :=
  with_rank <$> enumerate_from start pool.

(** [_validate_candidate_partition]. *)
Definition validate_candidate_partition (pins regular : list ScoringCandidate) : res pyexn unit :=
  guard_ (forallb pin pins) (ValueError "every pinned candidate must have pin=true");;
  guard_ (forallb (fun c => negb (pin c)) regular)
    (ValueError "regular candidates must have pin=false");;
  guard_ (nodupb (memory_id <$> (pins ++ regular)))
    (ValueError "candidate memory IDs must be unique").

(** The sort keys [memory_id.int] and [(-score, memory_id.int)]. *)
Definition id_leb (a b : UnrankedCandidate) : bool := (u_id a <=? u_id b)%N.

Definition score_leb (a b : UnrankedCandidate) : bool :=
  match SpecFloat.SFcompare (fneg (u_score a)) (fneg (u_score b)) with
  | Some Eq => (u_id a <=? u_id b)%N
  | Some Lt => true
  | _ => false
  end.

(** [share.numerator * model_context_tokens // share.denominator] for
    [Fraction(str(memory_context_share))]. *)
Definition share_tokens (p : ScorerParams) (model_context_tokens : Z) : Z :=
  let '(c, e) := default (0, 0) (repr_decimal (memory_context_share p)) in
  let '(num, den) := decimal_fraction c e in
  let share := num * model_context_tokens / den in
  match legacy_budget_tokens p with Some legacy => Z.min legacy share | None => share end.

(** The greedy loop over [ranked_regular]. *)
Record greedy := {
  g_selected : list ScoredCandidate;
  g_unselected : list ScoredCandidate;
  g_cuts : list ScoredCandidate;
  g_remaining : Z;
}.

Definition greedy_step (tau : float) (g : greedy) (scored : ScoredCandidate) : greedy :=
  let reaches := fle tau (s_score scored) in
  let cut_by_budget := reaches && (g_remaining g <? s_token_cost scored) in
  let selectable := reaches && (s_token_cost scored <=? g_remaining g) in
  if selectable then {|
    g_selected := g_selected g ++ [scored]; g_unselected := g_unselected g;
    g_cuts := g_cuts g; g_remaining := g_remaining g - s_token_cost scored |}
  else {|
    g_selected := g_selected g; g_unselected := g_unselected g ++ [scored];
    g_cuts := if cut_by_budget then g_cuts g ++ [scored] else g_cuts g;
    g_remaining := g_remaining g |}.

Definition greedy_select (tau : float) (budget : Z) (ranked : list ScoredCandidate) : greedy :=
  foldl (greedy_step tau) {| g_selected := []; g_unselected := []; g_cuts := []; g_remaining := budget |}
    ranked.

Definition token_sum (l : list ScoredCandidate) : Z := zsum (s_token_cost <$> l).
#[global] Arguments token_sum : simpl never.

(** Everything after the candidates are scored and validated. *)
Definition select_from_pools (p : ScorerParams) (model_context_tokens : Z)
    (pin_scores locked_pool regular_pool : list UnrankedCandidate) : ScoringSelection :=
  let pin_scores := sort_by id_leb pin_scores in
  let locked_pool := sort_by score_leb locked_pool in
  let regular_pool := sort_by score_leb regular_pool in
  let ranked_pins := rank_from 1 pin_scores in
  let ranked_locked := rank_from (zlen ranked_pins + 1) locked_pool in
  let ranked_regular := rank_from (zlen ranked_pins + zlen ranked_locked + 1) regular_pool in
  let pin_token_cost := token_sum ranked_pins in
  let locked_token_cost := token_sum ranked_locked in
  let share_tokens := share_tokens p model_context_tokens in
  let remaining_budget := Z.max 0 (share_tokens - locked_token_cost) in
  let g := greedy_select (tau p) remaining_budget ranked_regular in
  let regular_token_cost := locked_token_cost + token_sum (g_selected g) in
  let total_token_cost := pin_token_cost + regular_token_cost in {|
    injected := ranked_pins ++ ranked_locked ++ g_selected g;
    near_misses := slice_to (near_miss_k p) (g_unselected g);
    budget_cuts := g_cuts g;
    unselected := g_unselected g;
    regular_budget := share_tokens;
    pin_token_cost := pin_token_cost;
    regular_token_cost := regular_token_cost;
    total_token_cost := total_token_cost;
    pinned_overflow_tokens :=
      Z.min pin_token_cost (Z.max 0 (total_token_cost - share_tokens));
  |}.

Section select.
Context {UC : Unicode} {LM : Libm} {TK : Tokenizer}.

Record SelectRequest := {
  prompt : str;
  query_embedding : list float;
  snapshot_ts : Z;
  thread_project_key : option str;
  thread_id : option uuid;
  location_path : option str;
  current_location : option str;
  pinned_candidates : list ScoringCandidate;
  regular_candidates : list ScoringCandidate;
  locked_memory_ids : gset uuid;
  model_context_tokens : Z;
}.

Definition request_context (r : SelectRequest) (query : list float) : ScoringContext := {|
  c_query := query; c_prompt_keywords := prompt_keywords (prompt r);
  c_snapshot_ts := snapshot_ts r; c_thread_project_key := thread_project_key r;
  c_thread_id := thread_id r; c_location_path := location_path r;
  c_current_location := current_location r |}.

Definition score_pool (ctx : ScoringContext) (config : ScorerConfig)
    (pool : list ScoringCandidate) : res pyexn (list UnrankedCandidate) :=
  res_map (fun candidate =>
    w ← weights_for_project config (c_thread_project_key ctx);
    score_candidate ctx None w (params config) (bias_offset config (memory_id candidate))
      (axes config) candidate) pool.

Definition score_and_select (r : SelectRequest) (config : ScorerConfig) :
    res pyexn ScoringSelection :=
  guard_ (negb (model_context_tokens r <=? 0))
    (ValueError "model_context_tokens must be positive");;
  query ← validated_vector (query_embedding r);
  let pins := pinned_candidates r in
  let regular := regular_candidates r in
  validate_candidate_partition pins regular;;
  let ctx := request_context r query in
  pin_scores ← score_pool ctx config pins;
  let pin_ids : gset uuid := list_to_set (u_id <$> pin_scores) in
  let locked_regular_ids := locked_memory_ids r ∖ pin_ids in
  scored_pool ← score_pool ctx config regular;
  let locked_pool := filter (λ s, u_id s ∈ locked_regular_ids) scored_pool in
  let regular_pool := filter (λ s, u_id s ∉ locked_regular_ids) scored_pool in
  guard_ (length locked_pool =? size locked_regular_ids)%nat
    (ValueError "every locked memory must be an eligible candidate");;
  Ok (select_from_pools (params config) (model_context_tokens r)
        pin_scores locked_pool regular_pool).
End select.

(** ** The greedy loop *)

(** The reference reading: walk the ranked list with the budget that is left. *)
Fixpoint greedy_ref (tau : float) (budget : Z) (l : list ScoredCandidate) :
    list ScoredCandidate * list ScoredCandidate :=
  match l with
  | [] => ([], [])
  | s :: l' =>
      if fle tau (s_score s) && (s_token_cost s <=? budget)
      then let '(sel, uns) := greedy_ref tau (budget - s_token_cost s) l' in (s :: sel, uns)
      else let '(sel, uns) := greedy_ref tau budget l' in (sel, s :: uns)
  end.

Lemma greedy_loop tau l g :
  let '(sel, uns) := greedy_ref tau (g_remaining g) l in
  let g' := foldl (greedy_step tau) g l in
  g_selected g' = g_selected g ++ sel ∧ g_unselected g' = g_unselected g ++ uns ∧
  g_cuts g' = g_cuts g ++ filter (λ s, fle tau (s_score s) = true) uns ∧
  g_remaining g' = g_remaining g - token_sum sel.
Proof.
  revert g; induction l as [|s l IH]; intros g; cbn [greedy_ref foldl].
  { rewrite !app_nil_r. unfold token_sum, zsum; cbn. repeat split; try done. lia. }
  destruct (fle tau (s_score s) && (s_token_cost s <=? g_remaining g)) eqn:E.
  - specialize (IH (greedy_step tau g s)). revert IH. unfold greedy_step at 1 2 3 4 5 6 7 8 9.
    rewrite E. cbn. destruct (greedy_ref tau (g_remaining g - s_token_cost s) l) as [sel uns].
    unfold token_sum. rewrite fmap_cons, zsum_cons. unfold greedy_step; rewrite E. cbn.
    intros (-> & -> & -> & ->). rewrite <- !app_assoc. repeat split; try done. lia.
  - specialize (IH (greedy_step tau g s)). revert IH. unfold greedy_step. rewrite E. cbn.
    destruct (greedy_ref tau (g_remaining g) l) as [sel uns].
    intros (-> & -> & -> & ->). rewrite <- !app_assoc. rewrite filter_cons.
    repeat split; try done. destruct (fle tau (s_score s)); cbn in *.
    + replace (g_remaining g <? s_token_cost s) with true by lia.
      by rewrite <- app_assoc.
    + done.
Qed.

Lemma greedy_select_ref tau budget l :
  let '(sel, uns) := greedy_ref tau budget l in
  greedy_select tau budget l = {|
    g_selected := sel; g_unselected := uns;
    g_cuts := filter (λ s, fle tau (s_score s) = true) uns;
    g_remaining := budget - token_sum sel |}.
Proof.
  pose proof (greedy_loop tau l
    {| g_selected := []; g_unselected := []; g_cuts := []; g_remaining := budget |}) as H.
  cbn in H. unfold greedy_select. destruct (greedy_ref tau budget l) as [sel uns].
  destruct (foldl _ _ _) as [a b c d]. cbn in H. by destruct H as (-> & -> & -> & ->).
Qed.

Lemma greedy_ref_perm tau budget l :
  Permutation ((greedy_ref tau budget l).1 ++ (greedy_ref tau budget l).2) l.
Proof.
  revert budget; induction l as [|s l IH]; intros budget; cbn [greedy_ref]; [done|].
  destruct (_ && _).
  - specialize (IH (budget - s_token_cost s)). destruct (greedy_ref tau _ l) as [sel uns].
    cbn in *. by rewrite IH.
  - specialize (IH budget). destruct (greedy_ref tau _ l) as [sel uns]. cbn in *.
    by rewrite <- Permutation_middle, IH.
Qed.

Lemma greedy_ref_budget tau budget l :
  0 ≤ budget → token_sum (greedy_ref tau budget l).1 ≤ budget.
Proof.
  revert budget; induction l as [|s l IH]; intros budget Hb; cbn [greedy_ref]; [done|].
  destruct (fle tau (s_score s) && _) eqn:E.
  - specialize (IH (budget - s_token_cost s) ltac:(lia)).
    destruct (greedy_ref tau _ l) as [sel uns]. unfold token_sum in *. cbn [fst] in *.
    rewrite fmap_cons, zsum_cons. lia.
  - specialize (IH budget Hb). by destruct (greedy_ref tau _ l) as [sel uns].
Qed.

Lemma greedy_ref_tau tau budget l :
  Forall (λ s, fle tau (s_score s) = true) (greedy_ref tau budget l).1.
Proof.
  revert budget; induction l as [|s l IH]; intros budget; cbn [greedy_ref]; [constructor|].
  destruct (fle tau (s_score s) && _) eqn:E.
  - specialize (IH (budget - s_token_cost s)). destruct (greedy_ref tau _ l) as [sel uns].
    breflect. by constructor.
  - specialize (IH budget). by destruct (greedy_ref tau _ l) as [sel uns].
Qed.

Lemma greedy_ref_app tau budget l1 l2 :
  let '(sel1, uns1) := greedy_ref tau budget l1 in
  let '(sel2, uns2) := greedy_ref tau (budget - token_sum sel1) l2 in
  greedy_ref tau budget (l1 ++ l2) = (sel1 ++ sel2, uns1 ++ uns2).
Proof.
  revert budget; induction l1 as [|s l1 IH]; intros budget; cbn [greedy_ref app].
  { change (token_sum []) with 0. rewrite Z.sub_0_r. by destruct (greedy_ref tau budget l2). }
  destruct (_ && _).
  - specialize (IH (budget - s_token_cost s)). destruct (greedy_ref tau _ l1) as [sel1 uns1].
    unfold token_sum in *. rewrite fmap_cons, zsum_cons.
    replace (budget - (s_token_cost s + zsum (s_token_cost <$> sel1)))
      with (budget - s_token_cost s - zsum (s_token_cost <$> sel1)) by lia.
    destruct (greedy_ref tau _ l2) as [sel2 uns2]. by rewrite IH.
  - specialize (IH budget). destruct (greedy_ref tau _ l1) as [sel1 uns1].
    destruct (greedy_ref tau _ l2) as [sel2 uns2]. by rewrite IH.
Qed.

(** ** Ranking *)
Lemma rank_from_length k l : length (rank_from k l) = length l.
Proof. unfold rank_from. by rewrite length_fmap, enumerate_from_length. Qed.

Lemma rank_from_candidates k l : s_candidate <$> rank_from k l = u_candidate <$> l.
Proof.
  unfold rank_from. rewrite <- list_fmap_compose.
  rewrite <- (enumerate_from_snd k l) at 2. rewrite <- list_fmap_compose.
  apply list_fmap_ext. by intros i [r u] _.
Qed.

Lemma rank_from_ranks k l : s_rank <$> rank_from k l = (λ i, k + Z.of_nat i) <$> seq 0 (length l).
Proof.
  revert k; induction l as [|x l IH]; intros k; [done|].
  cbn [rank_from enumerate_from fmap list_fmap length seq].
  f_equal; [cbn; lia|]. change (s_rank <$> rank_from (k + 1) l = (λ i, k + Z.of_nat i) <$> seq 1 (length l)).
  rewrite IH, <- fmap_S_seq, <- list_fmap_compose. apply list_fmap_ext. intros; cbn. lia.
Qed.

Lemma rank_from_app k l1 l2 :
  rank_from k (l1 ++ l2) = rank_from k l1 ++ rank_from (k + zlen l1) l2.
Proof. unfold rank_from. by rewrite enumerate_from_app, fmap_app. Qed.

(** ** The score order *)
Definition comparable (u : UnrankedCandidate) : Prop := is_nan (u_score u) = false.

Lemma score_leb_iff a b :
  comparable a → comparable b →
  score_leb a b = true ↔
  key_compare (fkey (fneg (u_score a))) (fkey (fneg (u_score b))) = Lt ∨
  (key_compare (fkey (fneg (u_score a))) (fkey (fneg (u_score b))) = Eq ∧ (u_id a ≤ u_id b)%N).
Proof.
  unfold comparable, score_leb. intros Ha Hb. rewrite fcompare_key by (by rewrite fneg_is_nan).
  destruct (key_compare _ _); [rewrite N.leb_le| |]; split; intros; intuition congruence.
Qed.

Lemma score_leb_total a b :
  comparable a → comparable b → score_leb a b = true ∨ score_leb b a = true.
Proof.
  intros Ha Hb. rewrite !score_leb_iff by done.
  rewrite (key_compare_antisym (fkey (fneg (u_score a)))).
  destruct (key_compare _ _); cbn; auto. destruct (N.le_ge_cases (u_id a) (u_id b)); auto.
Qed.

Lemma score_leb_trans a b c :
  comparable a → comparable b → comparable c →
  score_leb a b = true → score_leb b c = true → score_leb a c = true.
Proof.
  intros Ha Hb Hc. rewrite !score_leb_iff by done.
  intros [H1|[H1 ?]] [H2|[H2 ?]];
    try apply key_compare_eq in H1; try apply key_compare_eq in H2.
  - left. by eapply key_compare_lt_trans.
  - left. by rewrite <- H2.
  - left. by rewrite H1.
  - right. rewrite H1, H2, key_compare_refl. split; [done|lia].
Qed.

Lemma score_leb_antisym a b :
  comparable a → comparable b → score_leb a b = true → score_leb b a = true → u_id a = u_id b.
Proof.
  intros Ha Hb. rewrite !score_leb_iff by done.
  rewrite (key_compare_antisym (fkey (fneg (u_score a)))).
  destruct (key_compare _ _); cbn; intros [?|[??]] [?|[??]]; try done. lia.
Qed.

Lemma score_leb_scores a b :
  comparable a → comparable b → score_leb a b = true → fle (u_score b) (u_score a) = true.
Proof.
  intros Ha Hb H%score_leb_iff; [|done..]. rewrite key_compare_neg in H.
  unfold fle, SpecFloat.SFleb. rewrite fcompare_key by done.
  by destruct H as [-> | [-> _]].
Qed.

(** ** Scored pools *)
Section pools.
Context {UC : Unicode} {LM : Libm} {TK : Tokenizer}.

Lemma score_candidate_ok ctx sem w p lb ax c u :
  score_candidate ctx sem w p lb ax c = Ok u →
  u_candidate u = c ∧ comparable u ∧ u_token_cost u = cl100k_token_count (body c).
Proof.
  intros H. apply bind_Ok in H as (f & _ & H). apply bind_Ok in H as (s & _ & H).
  apply bind_Ok in H as (? & Hfin%guard_Ok & H).
  apply bind_Ok in H as (q & Hq & <-%Ok_inj). cbn. repeat split.
  unfold comparable; cbn. eapply fround32_not_nan; [|done]. by apply isfinite_not_nan.
Qed.

Lemma score_pool_ok ctx config pool us :
  score_pool ctx config pool = Ok us →
  u_candidate <$> us = pool ∧ Forall comparable us ∧
  Forall (λ u, u_token_cost u = cl100k_token_count (body (u_candidate u))) us.
Proof.
  intros H%res_map_Forall2. induction H as [|c u cs us Hu _ (IH1 & IH2 & IH3)]; [done|].
  apply bind_Ok in Hu as (w & _ & Hu). apply score_candidate_ok in Hu as (Hc & Hn & Ht).
  subst c. cbn. rewrite IH1. repeat split; constructor; done.
Qed.
End pools.

Lemma score_pool_perm {UC : Unicode} {LM : Libm} {TK : Tokenizer} ctx config pool pool' us :
  Permutation pool pool' → score_pool ctx config pool = Ok us →
  ∃ us', score_pool ctx config pool' = Ok us' ∧ Permutation us us'.
Proof. apply res_map_perm. Qed.

Lemma u_id_candidates (us : list UnrankedCandidate) : u_id <$> us = memory_id <$> (u_candidate <$> us).
Proof. rewrite <- list_fmap_compose. by apply list_fmap_ext. Qed.

Lemma sort_ids_eq (us us' : list UnrankedCandidate) :
  Permutation us us' → NoDup (u_id <$> us) → sort_by id_leb us = sort_by id_leb us'.
Proof.
  intros Hp Hnd. apply (sort_by_perm_eq _ (λ _, True)); try done.
  - intros x y _ _. unfold id_leb. lia.
  - intros x y z _ _ _. unfold id_leb. lia.
  - by apply Forall_true.
  - intros x y Hx Hy H1 H2. unfold id_leb in *. assert (u_id x = u_id y) by lia.
    by eapply (NoDup_fmap_elem u_id us).
Qed.

Lemma sort_scores_eq (us us' : list UnrankedCandidate) :
  Permutation us us' → Forall comparable us → NoDup (u_id <$> us) →
  sort_by score_leb us = sort_by score_leb us'.
Proof.
  intros Hp Hc Hnd. apply (sort_by_perm_eq _ comparable); try done.
  - intros x y. apply score_leb_total.
  - intros x y z. apply score_leb_trans.
  - intros x y Hx Hy H1 H2. rewrite Forall_forall in Hc.
    eapply (NoDup_fmap_elem u_id us); [done..|].
    apply score_leb_antisym; auto.
Qed.

(** What a successful call computed on the way. *)
Section runs.
Context {UC : Unicode} {LM : Libm} {TK : Tokenizer}.

Definition locked_ids (r : SelectRequest) (pins : list UnrankedCandidate) : gset uuid :=
  locked_memory_ids r ∖ list_to_set (u_id <$> pins).

Definition locked_of (r : SelectRequest) (pins pool : list UnrankedCandidate) :=
  filter (λ s, u_id s ∈ locked_ids r pins) pool.
Definition regular_of (r : SelectRequest) (pins pool : list UnrankedCandidate) :=
  filter (λ s, u_id s ∉ locked_ids r pins) pool.

Lemma score_and_select_inv r config sel :
  score_and_select r config = Ok sel →
  ∃ query pins pool,
    0 < model_context_tokens r ∧ validated_vector (query_embedding r) = Ok query ∧
    validate_candidate_partition (pinned_candidates r) (regular_candidates r) = Ok tt ∧
    score_pool (request_context r query) config (pinned_candidates r) = Ok pins ∧
    score_pool (request_context r query) config (regular_candidates r) = Ok pool ∧
    length (locked_of r pins pool) = size (locked_ids r pins) ∧
    sel = select_from_pools (params config) (model_context_tokens r) pins
            (locked_of r pins pool) (regular_of r pins pool).
Proof.
  intros H. apply bind_Ok in H as (? & Hctx%guard_Ok & H).
  apply bind_Ok in H as (query & Hq & H). apply bind_Ok in H as ([] & Hv & H).
  apply bind_Ok in H as (pins & Hp & H). apply bind_Ok in H as (pool & Hr & H).
  apply bind_Ok in H as (? & Hl%guard_Ok & <-%Ok_inj).
  exists query, pins, pool. repeat split; try done; [lia|].
  by apply Nat.eqb_eq in Hl.
Qed.

Lemma partition_inv pins regular :
  validate_candidate_partition pins regular = Ok tt →
  Forall (λ c, pin c = true) pins ∧ Forall (λ c, pin c = false) regular ∧
  NoDup (memory_id <$> (pins ++ regular)).
Proof.
  intros H. apply bind_Ok in H as (? & H1%guard_Ok & H).
  apply bind_Ok in H as (? & H2%guard_Ok & H3%guard_Ok).
  unfold nodupb in H3. breflect. rewrite forallb_forall in H1, H2.
  repeat split; [| |done]; apply Forall_forall; intros c Hc%list_elem_of_In; [auto|].
  specialize (H2 c Hc). by breflect.
Qed.

Lemma locked_regular_perm r pins pool :
  Permutation (locked_of r pins pool ++ regular_of r pins pool) pool.
Proof.
  unfold locked_of, regular_of. induction pool as [|u pool IH]; [done|].
  rewrite !filter_cons. destruct (decide (u_id u ∈ locked_ids r pins)) as [Hin|Hin].
  - rewrite decide_False by tauto. cbn. by rewrite IH.
  - rewrite decide_True by tauto. by rewrite <- Permutation_middle, IH.
Qed.
End runs.

Section select_facts.
Context (p : ScorerParams) (model_tokens : Z) (pins locked regular : list UnrankedCandidate).
Let sel := select_from_pools p model_tokens pins locked regular.
Let sorted_regular := sort_by score_leb regular.
Let ranked_regular := rank_from (zlen pins + zlen locked + 1) sorted_regular.
Definition pool_cost (l : list UnrankedCandidate) : Z := zsum (u_token_cost <$> l).
Let remaining := Z.max 0 (share_tokens p model_tokens - pool_cost locked).

Lemma token_sum_rank k (le : UnrankedCandidate → UnrankedCandidate → bool) l :
  token_sum (rank_from k (sort_by le l)) = pool_cost l.
Proof.
  unfold token_sum, pool_cost. transitivity (zsum (u_token_cost <$> sort_by le l)).
  - f_equal. unfold rank_from. rewrite <- list_fmap_compose.
    rewrite <- (enumerate_from_snd k (sort_by le l)) at 2. rewrite <- list_fmap_compose.
    apply list_fmap_ext. by intros i [r u] _.
  - apply zsum_perm. by rewrite sort_by_perm.
Qed.

Lemma sort_zlen (le : UnrankedCandidate → UnrankedCandidate → bool) l :
  zlen (sort_by le l) = zlen l.
Proof. unfold zlen. by rewrite sort_by_perm. Qed.

Lemma rank_zlen k l : zlen (rank_from k l) = zlen l.
Proof. unfold zlen. by rewrite rank_from_length. Qed.

(** The selection in terms of the reference loop. *)
Lemma select_unfold :
  let '(chosen, rest) := greedy_ref (tau p) remaining ranked_regular in
  injected sel = rank_from 1 (sort_by id_leb pins)
    ++ rank_from (zlen pins + 1) (sort_by score_leb locked) ++ chosen ∧
  unselected sel = rest ∧
  near_misses sel = slice_to (near_miss_k p) rest ∧
  budget_cuts sel = filter (λ s, fle (tau p) (s_score s) = true) rest ∧
  regular_budget sel = share_tokens p model_tokens ∧
  pin_token_cost sel = pool_cost pins ∧
  regular_token_cost sel = pool_cost locked + token_sum chosen.
Proof.
  pose proof (greedy_select_ref (tau p) remaining ranked_regular) as Hg.
  destruct (greedy_ref _ _ _) as [chosen rest]. subst sel. unfold select_from_pools.
  rewrite !rank_zlen, !sort_zlen, !token_sum_rank.
  fold sorted_regular ranked_regular remaining. rewrite Hg. by cbn.
Qed.
End select_facts.

Lemma greedy_ref_skipped tau budget l s :
  s ∈ (greedy_ref tau budget l).2 → fle tau (s_score s) = true →
  ∃ before after, l = before ++ s :: after ∧
    budget - token_sum (greedy_ref tau budget before).1 < s_token_cost s.
Proof.
  revert budget; induction l as [|x l IH]; intros budget; cbn [greedy_ref].
  { by intros H%not_elem_of_nil. }
  destruct (fle tau (s_score x) && (s_token_cost x <=? budget)) eqn:E.
  - specialize (IH (budget - s_token_cost x)).
    destruct (greedy_ref tau (budget - s_token_cost x) l) as [sel uns] eqn:Eg. cbn in *.
    intros Hs Ht. destruct (IH Hs Ht) as (b & a & -> & Hlt). exists (x :: b), a. split; [done|].
    cbn [greedy_ref]. rewrite E. destruct (greedy_ref tau _ b) as [sb ub]. cbn in *.
    unfold token_sum in *. rewrite fmap_cons, zsum_cons. lia.
  - specialize (IH budget). destruct (greedy_ref tau budget l) as [sel uns] eqn:Eg. cbn in *.
    intros [->|Hs]%elem_of_cons Ht.
    + exists [], l. split; [done|]. cbn. change (token_sum []) with 0. rewrite Ht in E. cbn in E. lia.
    + destruct (IH Hs Ht) as (b & a & -> & Hlt). exists (x :: b), a. split; [done|].
      cbn [greedy_ref]. rewrite E. by destruct (greedy_ref tau budget b) as [sb ub].
Qed.

(** Every candidate is placed once. *)
Lemma selection_places {UC : Unicode} {LM : Libm} {TK : Tokenizer}
    (r : SelectRequest) (config : ScorerConfig) (sel : ScoringSelection) :
  score_and_select r config = Ok sel →
  Permutation (s_candidate <$> (injected sel ++ unselected sel))
    (pinned_candidates r ++ regular_candidates r) ∧
  Permutation (s_rank <$> (injected sel ++ unselected sel))
    ((λ i, Z.of_nat i) <$> seq 1 (length (pinned_candidates r ++ regular_candidates r))) ∧
  (∀ c, c ∈ pinned_candidates r ∨
        c ∈ regular_candidates r ∧ memory_id c ∈ locked_memory_ids r →
        c ∈ s_candidate <$> injected sel).
Proof.
  intros H. apply score_and_select_inv in H
    as (query & pins & pool & _ & _ & Hv & Hp & Hr & _ & ->).
  apply partition_inv in Hv as (_ & _ & Hnd).
  apply score_pool_ok in Hp as (Hpc & _ & _). apply score_pool_ok in Hr as (Hrc & _ & _).
  set (locked := locked_of r pins pool). set (regular := regular_of r pins pool).
  pose proof (locked_regular_perm r pins pool) as Hpool. fold locked regular in Hpool.
  pose proof (select_unfold (params config) (model_context_tokens r) pins locked regular) as Hs.
  cbn zeta in Hs. revert Hs.
  set (ranked := rank_from _ (sort_by score_leb regular)). set (budget := Z.max 0 _).
  pose proof (greedy_ref_perm (tau (params config)) budget ranked) as Hg.
  destruct (greedy_ref _ _ _) as [chosen rest]. cbn in Hg.
  intros (-> & -> & _).
  assert (Hall : Permutation
    ((rank_from 1 (sort_by id_leb pins)
      ++ rank_from (zlen pins + 1) (sort_by score_leb locked) ++ chosen) ++ rest)
    (rank_from 1 (sort_by id_leb pins ++ sort_by score_leb locked ++ sort_by score_leb regular))).
  { rewrite !rank_from_app, !sort_zlen, <- !app_assoc. do 2 f_equiv.
    - by rewrite Z.add_comm.
    - rewrite Hg. unfold ranked. by replace (1 + zlen pins + zlen locked)
        with (zlen pins + zlen locked + 1) by lia. }
  assert (Hlen : length (sort_by id_leb pins ++ sort_by score_leb locked ++ sort_by score_leb regular)
                 = length (pinned_candidates r ++ regular_candidates r)).
  { rewrite <- Hpc, <- Hrc, !length_app, !length_fmap, !sort_by_perm.
    rewrite <- (Permutation_length Hpool), length_app. lia. }
  split; [|split].
  - rewrite Hall, rank_from_candidates, !fmap_app, !sort_by_perm, <- fmap_app, Hpool.
    by rewrite Hpc, Hrc.
  - rewrite Hall, rank_from_ranks, Hlen, <- fmap_S_seq, <- list_fmap_compose.
    apply Permutation_refl'. apply list_fmap_ext. intros; cbn. lia.
  - intros c Hc. rewrite !fmap_app, !rank_from_candidates, !elem_of_app.
    rewrite !list_elem_of_fmap. setoid_rewrite sort_by_perm.
    destruct Hc as [Hc|[Hc Hl]].
    + left. rewrite <- Hpc in Hc. by apply list_elem_of_fmap in Hc.
    + right; left. rewrite <- Hrc in Hc. apply list_elem_of_fmap in Hc as (u & -> & Hu).
      exists u. split; [done|]. unfold locked, locked_of. apply list_elem_of_filter.
      split; [|done]. unfold locked_ids. apply elem_of_difference. split; [done|].
      rewrite elem_of_list_to_set, list_elem_of_fmap. intros (v & Ev & Hvp).
      rewrite fmap_app in Hnd. apply NoDup_app in Hnd as (_ & Hdisj & _).
      apply (Hdisj (memory_id (u_candidate u))).
      * rewrite <- Hpc, <- list_fmap_compose. apply list_elem_of_fmap.
        exists v. split; [|done]. by unfold u_id in Ev.
      * rewrite <- Hrc, <- list_fmap_compose. apply list_elem_of_fmap. by exists u.
Qed.

Lemma s_id_candidates (l : list ScoredCandidate) : s_id <$> l = memory_id <$> (s_candidate <$> l).
Proof. rewrite <- list_fmap_compose. by apply list_fmap_ext. Qed.

Lemma selection_ids {UC : Unicode} {LM : Libm} {TK : Tokenizer} r config sel :
  score_and_select r config = Ok sel →
  NoDup (s_id <$> (injected sel ++ unselected sel)) ∧
  near_misses sel = slice_to (near_miss_k (params config)) (unselected sel) ∧
  budget_cuts sel = filter (λ s, fle (tau (params config)) (s_score s) = true) (unselected sel).
Proof.
  intros H. destruct (selection_places _ _ _ H) as (Hp & _ & _). apply score_and_select_inv in H
    as (query & pins & pool & _ & _ & Hv & _ & _ & _ & ->).
  apply partition_inv in Hv as (_ & _ & Hnd). rewrite s_id_candidates, Hp. split; [done|].
  pose proof (select_unfold (params config) (model_context_tokens r) pins
    (locked_of r pins pool) (regular_of r pins pool)) as Hs. cbn zeta in Hs.
  destruct (greedy_ref _ _ _) as [chosen rest]. destruct Hs as (_ & -> & -> & -> & _). done.
Qed.

(** A locked memory is among the candidates, and injected. *)
Lemma selection_locked {UC : Unicode} {LM : Libm} {TK : Tokenizer} r config sel id :
  score_and_select r config = Ok sel → id ∈ locked_memory_ids r → id ∈ s_id <$> injected sel.
Proof.
  intros H Hid. destruct (selection_places _ _ _ H) as (_ & _ & Hin).
  apply score_and_select_inv in H as (query & pins & pool & _ & _ & Hv & Hp & Hr & Hlen & ->).
  apply partition_inv in Hv as (_ & _ & Hnd). rewrite fmap_app in Hnd.
  apply NoDup_app in Hnd as (_ & _ & Hnd).
  apply score_pool_ok in Hp as (Hpc & _ & _). apply score_pool_ok in Hr as (Hrc & _ & _).
  rewrite s_id_candidates. apply list_elem_of_fmap.
  destruct (decide (id ∈ u_id <$> pins)) as [Hpin|Hpin].
  - rewrite u_id_candidates, Hpc in Hpin. apply list_elem_of_fmap in Hpin as (s & -> & Hs).
    exists s. split; [done|]. apply Hin. by left.
  - set (L := list_to_set (u_id <$> locked_of r pins pool) : gset uuid).
    assert (HL : L ⊆ locked_ids r pins).
    { intros x Hx. apply elem_of_list_to_set, list_elem_of_fmap in Hx as (u & -> & Hu).
      by apply list_elem_of_filter in Hu as [? _]. }
    assert (Hnl : NoDup (u_id <$> locked_of r pins pool)).
    { rewrite <- Hrc, <- u_id_candidates in Hnd. eapply sublist_NoDup; [exact Hnd|].
      apply fmap_sublist, sublist_filter. }
    assert (L = locked_ids r pins) as EL.
    { apply set_subseteq_size_eq; [done|]. unfold L. rewrite size_list_to_set by done.
      rewrite length_fmap. lia. }
    assert (id ∈ L) as Hl.
    { rewrite EL. unfold locked_ids. apply elem_of_difference. split; [done|].
      by rewrite elem_of_list_to_set. }
    apply elem_of_list_to_set, list_elem_of_fmap in Hl as (u & -> & Hu).
    exists (u_candidate u). split; [done|]. apply Hin. right. apply list_elem_of_filter in Hu as [_ Hu].
    split; [|done]. rewrite <- Hrc. by apply list_elem_of_fmap_2.
Qed.

(** ** Properties *)

(** Selection loses and invents nothing: the injected and the unselected
    cards are together exactly the pins and the regular candidates, each once,
    and their ranks are exactly 1 to n; pins and locked memories are always
    among the injected. *)
Theorem selection_partition {UC : Unicode} {LM : Libm} {TK : Tokenizer}
    (r : SelectRequest) (config : ScorerConfig) (sel : ScoringSelection) :
  score_and_select r config = Ok sel →
  Permutation (s_candidate <$> (injected sel ++ unselected sel))
    (pinned_candidates r ++ regular_candidates r) ∧
  Permutation (s_rank <$> (injected sel ++ unselected sel))
    ((λ i, Z.of_nat i) <$> seq 1 (length (pinned_candidates r ++ regular_candidates r))) ∧
  (∀ c, c ∈ pinned_candidates r ∨
        c ∈ regular_candidates r ∧ memory_id c ∈ locked_memory_ids r →
        c ∈ s_candidate <$> injected sel).
Proof. apply selection_places. Qed.

(** C1: the budget law.  Regular memories never cost more than the share of
    the context window, except for locked ones that were already over it;
    pins come on top and whatever they push past the share is reported as
    overflow, never more than the pins themselves cost. *)
Theorem selection_budget (p : ScorerParams) (model_tokens : Z)
    (pins locked regular : list UnrankedCandidate) :
  let sel := select_from_pools p model_tokens pins locked regular in
  Forall (λ u, 0 ≤ u_token_cost u) (pins ++ locked ++ regular) →
  regular_token_cost sel ≤ Z.max (pool_cost locked) (regular_budget sel) ∧
  token_sum (injected sel) = pool_cost pins + regular_token_cost sel ∧
  total_token_cost sel = token_sum (injected sel) ∧
  0 ≤ pinned_overflow_tokens sel ≤ pool_cost pins ∧
  (pool_cost locked ≤ regular_budget sel →
   0 ≤ regular_budget sel →
   total_token_cost sel - pinned_overflow_tokens sel ≤ regular_budget sel).
Proof.
  intros sel Hcost. subst sel.
  pose proof (select_unfold p model_tokens pins locked regular) as Hs. cbn zeta in Hs.
  assert (Htot : total_token_cost (select_from_pools p model_tokens pins locked regular) =
    pin_token_cost (select_from_pools p model_tokens pins locked regular) +
    regular_token_cost (select_from_pools p model_tokens pins locked regular)) by done.
  assert (Hov : pinned_overflow_tokens (select_from_pools p model_tokens pins locked regular) =
    Z.min (pin_token_cost (select_from_pools p model_tokens pins locked regular))
      (Z.max 0 (total_token_cost (select_from_pools p model_tokens pins locked regular)
         - regular_budget (select_from_pools p model_tokens pins locked regular)))) by done.
  rewrite Hov, Htot. clear Hov Htot. revert Hs.
  set (ranked := rank_from _ (sort_by score_leb regular)).
  pose proof (greedy_ref_budget (tau p) (Z.max 0 (share_tokens p model_tokens - pool_cost locked))
    ranked ltac:(lia)) as Hb.
  destruct (greedy_ref _ _ _) as [chosen rest]. cbn in Hb.
  intros (-> & _ & _ & _ & -> & -> & ->).
  assert (0 ≤ pool_cost pins).
  { apply zsum_nonneg, Forall_fmap. by apply Forall_app in Hcost as [? _]. }
  assert (Hsum : token_sum (rank_from 1 (sort_by id_leb pins)
      ++ rank_from (zlen pins + 1) (sort_by score_leb locked) ++ chosen) =
    pool_cost pins + (pool_cost locked + token_sum chosen)).
  { unfold token_sum at 1. rewrite !fmap_app, !zsum_app.
    change (token_sum (rank_from 1 (sort_by id_leb pins)) +
      (token_sum (rank_from (zlen pins + 1) (sort_by score_leb locked)) + token_sum chosen) =
      pool_cost pins + (pool_cost locked + token_sum chosen)).
    by rewrite !token_sum_rank. }
  rewrite Hsum. lia.
Qed.

(** The greedy law, against the reference loop.  After pins and locked
    memories, the injected cards are those the reference loop takes from the
    score order; every taken card reaches [tau]; an eligible card is left out
    only because it costs more than the budget left by the cards ranked before
    it; the budget cuts are exactly the eligible cards left out, and the near
    misses are the first [near_miss_k] cards left out. *)
Theorem selection_greedy (p : ScorerParams) (model_tokens : Z)
    (pins locked regular : list UnrankedCandidate) :
  let sel := select_from_pools p model_tokens pins locked regular in
  let ranked := rank_from (zlen pins + zlen locked + 1) (sort_by score_leb regular) in
  let room := Z.max 0 (regular_budget sel - pool_cost locked) in
  let chosen := (greedy_ref (tau p) room ranked).1 in
  injected sel = rank_from 1 (sort_by id_leb pins)
    ++ rank_from (zlen pins + 1) (sort_by score_leb locked) ++ chosen ∧
  Forall (λ s, fle (tau p) (s_score s) = true) chosen ∧
  (∀ s, s ∈ unselected sel → fle (tau p) (s_score s) = true →
     ∃ before after, ranked = before ++ s :: after ∧
       room - token_sum (greedy_ref (tau p) room before).1 < s_token_cost s) ∧
  budget_cuts sel = filter (λ s, fle (tau p) (s_score s) = true) (unselected sel) ∧
  near_misses sel = slice_to (near_miss_k p) (unselected sel).
Proof.
  intros sel ranked room chosen. subst sel.
  pose proof (select_unfold p model_tokens pins locked regular) as Hs. cbn zeta in Hs.
  assert (Hroom : room = Z.max 0 (share_tokens p model_tokens - pool_cost locked)) by done.
  rewrite <- Hroom in Hs. fold ranked in Hs.
  pose proof (greedy_ref_tau (tau p) room ranked) as Ht. fold chosen in Ht.
  pose proof (greedy_ref_skipped (tau p) room ranked) as Hk.
  subst chosen. destruct (greedy_ref (tau p) room ranked) as [chosen rest]. cbn [fst snd] in *.
  destruct Hs as (-> & -> & -> & -> & _). auto.
Qed.

(** The same request with its candidates in another order. *)
Definition with_pools (r : SelectRequest) (pins regular : list ScoringCandidate) : SelectRequest := {|
  prompt := prompt r; query_embedding := query_embedding r; snapshot_ts := snapshot_ts r;
  thread_project_key := thread_project_key r; thread_id := thread_id r;
  location_path := location_path r; current_location := current_location r;
  pinned_candidates := pins; regular_candidates := regular;
  locked_memory_ids := locked_memory_ids r; model_context_tokens := model_context_tokens r |}.

Lemma locked_ids_perm r r' pins pins' :
  locked_memory_ids r = locked_memory_ids r' → Permutation pins pins' →
  locked_ids r pins = locked_ids r' pins'.
Proof.
  intros E Hp. unfold locked_ids. rewrite E. f_equal. apply list_to_set_perm_L.
  by rewrite Hp.
Qed.

Lemma validate_partition_perm pins regular pins' regular' :
  Permutation pins pins' → Permutation regular regular' →
  validate_candidate_partition pins regular = Ok tt →
  validate_candidate_partition pins' regular' = Ok tt.
Proof.
  intros Hp Hr H. apply partition_inv in H as (H1 & H2 & H3).
  rewrite Hp in H1. rewrite Hr in H2. rewrite Hp, Hr in H3.
  unfold validate_candidate_partition, nodupb.
  rewrite (proj2 (forallb_forall pin pins')).
  - rewrite (proj2 (forallb_forall (λ c, negb (pin c)) regular')); cbn.
    + by rewrite bool_decide_true.
    + intros c Hc%list_elem_of_In. rewrite Forall_forall in H2. by rewrite H2.
  - intros c Hc%list_elem_of_In. rewrite Forall_forall in H1. auto.
Qed.

Section order_independence.
Context {UC : Unicode} {LM : Libm} {TK : Tokenizer}.

(** The selection is a function of the candidates as a set.  Whatever
    order the database returns the pins and the pool in, the same cards are
    injected with the same ranks, scores and token accounting. *)
Theorem selection_order_independent (r : SelectRequest) (config : ScorerConfig)
    (pins' regular' : list ScoringCandidate) (sel : ScoringSelection) :
  Permutation (pinned_candidates r) pins' →
  Permutation (regular_candidates r) regular' →
  score_and_select r config = Ok sel →
  score_and_select (with_pools r pins' regular') config = Ok sel.
Proof.
  intros Hpp Hrp H. apply score_and_select_inv in H
    as (query & pins & pool & Hctx & Hq & Hv & Hp & Hr & Hl & ->).
  pose proof Hp as Hp0. pose proof Hr as Hr0.
  apply score_pool_ok in Hp0 as (Hpc & _ & _). apply score_pool_ok in Hr0 as (Hrc & Hcomp & _).
  destruct (score_pool_perm _ _ _ _ _ Hpp Hp) as (pins2 & Hp2 & Hpins).
  destruct (score_pool_perm _ _ _ _ _ Hrp Hr) as (pool2 & Hr2 & Hpool).
  pose proof (partition_inv _ _ Hv) as (_ & _ & Hnd). rewrite fmap_app in Hnd.
  apply NoDup_app in Hnd as (Hndp & _ & Hndr).
  unfold score_and_select. rewrite guard_true by (cbn; lia).
  change (query_embedding (with_pools r pins' regular')) with (query_embedding r).
  rewrite Hq, Ok_bind. cbn zeta.
  change (pinned_candidates (with_pools r pins' regular')) with pins'.
  change (regular_candidates (with_pools r pins' regular')) with regular'.
  rewrite (validate_partition_perm _ _ _ _ Hpp Hrp Hv), Ok_bind.
  change (request_context (with_pools r pins' regular') query) with (request_context r query).
  rewrite Hp2, Ok_bind. cbn zeta. rewrite Hr2, Ok_bind. cbn zeta.
  change (locked_memory_ids (with_pools r pins' regular')) with (locked_memory_ids r).
  change (locked_memory_ids r ∖ list_to_set (u_id <$> pins2)) with (locked_ids r pins2).
  rewrite <- (locked_ids_perm r r pins pins2) by done.
  assert (Hlp : Permutation (locked_of r pins pool) (filter (λ s, u_id s ∈ locked_ids r pins) pool2))
    by (unfold locked_of; by rewrite Hpool).
  assert (Hgp : Permutation (regular_of r pins pool) (filter (λ s, u_id s ∉ locked_ids r pins) pool2))
    by (unfold regular_of; by rewrite Hpool).
  rewrite guard_true by (apply Nat.eqb_eq; by rewrite <- Hlp).
  change (model_context_tokens (with_pools r pins' regular')) with (model_context_tokens r).
  assert (Hidp : NoDup (u_id <$> pins)) by (by rewrite u_id_candidates, Hpc).
  assert (Hidr : NoDup (u_id <$> pool)) by (by rewrite u_id_candidates, Hrc).
  rewrite <- (locked_regular_perm r pins pool), fmap_app in Hidr.
  apply NoDup_app in Hidr as (Hidl & _ & Hidg).
  rewrite <- (locked_regular_perm r pins pool) in Hcomp. apply Forall_app in Hcomp as [Hcl Hcg].
  unfold select_from_pools.
  by rewrite (sort_ids_eq pins pins2), (sort_scores_eq _ _ Hlp), (sort_scores_eq _ _ Hgp).
Qed.
End order_independence.

(** ** A concrete selection *)
Definition sample_config : ScorerConfig := {|
  version := lit "v"; params := sample_params;
  weights := {| w_sem := f_ratio 1 2; w_kw := f_ratio 1 8; w_time := f_ratio 1 8;
                w_proj := f_ratio 1 8; w_freq := f_ratio 1 16; w_hist := f_ratio 1 16 |};
  bias_offsets := []; project_offsets := JObj []; axes := [] |}.

Definition sample_request : SelectRequest := {|
  prompt := lit "a lemma for Rocq"; query_embedding := [f1; f0]; snapshot_ts := 86400000000;
  thread_project_key := None; thread_id := Some 3%N; location_path := None;
  current_location := None; pinned_candidates := [sample_candidate 1 true (lit "pinned")];
  regular_candidates := [sample_candidate 3 false (lit "twelve chars"); sample_candidate 2 false (lit "b")];
  locked_memory_ids := ∅; model_context_tokens := 100 |}.

(** A run that succeeds, for the witnesses: its value is its own computation. *)
Definition the {E A} (r : res E A) (d : A) : A := match r with Ok a => a | Err _ => d end.

Definition empty_selection : ScoringSelection := {|
  injected := []; near_misses := []; budget_cuts := []; unselected := []; regular_budget := 0;
  pin_token_cost := 0; regular_token_cost := 0; total_token_cost := 0; pinned_overflow_tokens := 0 |}.

Definition sample_run := @score_and_select _ sample_libm sample_tokenizer sample_request sample_config.
Definition sample_selection : ScoringSelection := the sample_run empty_selection.

Example sample_run_ok : sample_run = Ok sample_selection.
Proof. vm_compute. reflexivity. Qed.

(** The share of 100 tokens at 0.1 is 10: the one-token body fits, the
    twelve-token body is cut, and the pin injects on top. *)
Example sample_selection_ids :
  s_id <$> injected sample_selection = [1%N; 2%N] ∧ s_id <$> budget_cuts sample_selection = [3%N] ∧
  regular_budget sample_selection = 10.
Proof. vm_compute. done. Qed.

Lemma selection_partition_witness :
  Permutation (s_candidate <$> (injected sample_selection ++ unselected sample_selection))
    (pinned_candidates sample_request ++ regular_candidates sample_request).
Proof.
  refine (proj1 (@selection_partition _ sample_libm sample_tokenizer sample_request sample_config
    sample_selection _)).
  vm_compute. reflexivity.
Defined.

Definition sample_pool : list UnrankedCandidate :=
  the (@score_pool _ sample_libm sample_tokenizer (request_context sample_request [f1; f0])
         sample_config (regular_candidates sample_request)) [].

Lemma selection_budget_witness :
  regular_token_cost (select_from_pools sample_params 100 [] [] sample_pool) ≤ 10.
Proof.
  refine (Z.le_trans _ _ _ (proj1 (selection_budget sample_params 100 [] [] sample_pool _)) _).
  - vm_compute. repeat constructor; discriminate.
  - vm_compute. discriminate.
Defined.

Lemma selection_order_independent_witness :
  @score_and_select _ sample_libm sample_tokenizer
    (with_pools sample_request (pinned_candidates sample_request)
       [sample_candidate 2 false (lit "b"); sample_candidate 3 false (lit "twelve chars")])
    sample_config = Ok sample_selection.
Proof.
  apply (@selection_order_independent _ sample_libm sample_tokenizer sample_request sample_config).
  - apply Permutation_refl.
  - apply perm_swap.
  - vm_compute. reflexivity.
Defined.
