(* ===== verification/Embeddings.v ===== *)
(** * The embedding boundary: [src/src/spine/embeddings/__init__.py]

    [embed_one] validates what any injected provider returns for one text, and
    [_validated_vectors] validates a decoded OpenAI response, restoring the
    input order from its indices.  The HTTP request is a parameter. *)
From S2P Require Import Prelude PyStr PyFloat PyJson.
Open Scope Z_scope.

Inductive embedding_error :=
  | EmbeddingConfigurationError (msg : string)
  | EmbeddingTransportError (msg : string)
  | EmbeddingResponseError (msg : string)
  | EmbeddingNumberError (e : pyexn).

(** [provider.embed([text])], a request over the network. *)
Class EmbeddingProvider := {
  provider_embed : str → res embedding_error (list (list json));
  provider_model : str;
  provider_dimensions : Z;
}.

(** One component: [int] or [float], finite. *)
Definition embedding_number (non_numeric non_finite : string) (value : json) :
    res embedding_error float :=
  match value with
  | JInt z =>
      let number := f_of_Z z in
      guard_ (isfinite number)
        (EmbeddingNumberError (OverflowError "int too large to convert to float"));;
      Ok number
  | JFloat number => guard_ (isfinite number) (EmbeddingResponseError non_finite);; Ok number
  | _ => Err (EmbeddingResponseError non_numeric)
  end.

Definition nonzero_norm (msg : string) (vector : list float) : res embedding_error unit :=
  match fsum_squares vector with
  | Ok n => guard_ (negb (feq n f0)) (EmbeddingResponseError msg)
  | Err e => Err (EmbeddingNumberError e)
  end.

(** The checks of [embed_one] on the vectors of a provider. *)
Definition checked_vector (dimensions : Z) (vectors : list (list json)) :
    res embedding_error (list float) :=
  match vectors with
  | [vector] =>
      guard_ (zlen vector =? dimensions)
        (EmbeddingResponseError "embedding provider returned another dimension");;
      normalized ← res_map (embedding_number "embedding provider returned a non-numeric value"
                              "embedding provider returned a non-finite value") vector;
      nonzero_norm "embedding provider returned a zero-norm vector" normalized;;
      Ok normalized
  | _ => Err (EmbeddingResponseError "embedding provider returned another number of vectors")
  end.

Definition embed_one {EP : EmbeddingProvider} (text : str) (expected_dimensions : option Z) :
    res embedding_error (list float) :=
  vectors ← provider_embed text;
  checked_vector (default provider_dimensions expected_dimensions) vectors.

(** ** [_validated_vectors] *)
Definition embedding_vector (dimensions : Z) (embedding : option json) :
    res embedding_error (list float) :=
  match embedding with
  | Some (JList values) =>
      guard_ (zlen values =? dimensions) (EmbeddingResponseError "wrong dimension");;
      vector ← res_map (embedding_number "a non-numeric value" "a non-finite value") values;
      nonzero_norm "zero norm" vector;;
      Ok vector
  | _ => Err (EmbeddingResponseError "embedding must be a JSON array")
  end.

(** One [data] item, added to [vectors_by_index]. *)
Definition add_vector (expected_count dimensions : Z) (by_index : gmap Z (list float))
    (item : json) : res embedding_error (gmap Z (list float)) :=
  match item with
  | JObj kv =>
      match aget (lit "index") kv with
      | Some (JInt index) =>
          guard_ (negb ((index <? 0) || (expected_count <=? index)))
            (EmbeddingResponseError "data index is out of range");;
          guard_ (bool_decide (by_index !! index = None))
            (EmbeddingResponseError "data index is duplicated");;
          vector ← embedding_vector dimensions (aget (lit "embedding") kv);
          Ok (<[index := vector]> by_index)
      | _ => Err (EmbeddingResponseError "data index must be an integer")
      end
  | _ => Err (EmbeddingResponseError "data items must be JSON objects")
  end.

Definition indices (count : Z) : list Z := Z.of_nat <$> seq 0 (Z.to_nat count).

Definition validated_vectors (payload : json) (expected_count dimensions : Z) :
    res embedding_error (list (list float)) :=
  match payload with
  | JObj kv =>
      match aget (lit "data") kv with
      | Some (JList data) =>
          guard_ (zlen data =? expected_count) (EmbeddingResponseError "wrong number of vectors");;
          by_index ← res_fold (add_vector expected_count dimensions) ∅ data;
          guard_ (forallb (λ i, bool_decide (by_index !! i ≠ None)) (indices expected_count))
            (EmbeddingResponseError "missing indices");;
          Ok (default [] <$> ((λ i, by_index !! i) <$> indices expected_count))
      | _ => Err (EmbeddingResponseError "response must contain a data list")
      end
  | _ => Err (EmbeddingResponseError "response must be a JSON object")
  end.

(** ** Facts *)
Lemma checked_vector_ok dimensions vectors v :
  checked_vector dimensions vectors = Ok v →
  zlen v = dimensions ∧ Forall (λ x, isfinite x = true) v ∧
  ∃ n, fsum_squares v = Ok n ∧ feq n f0 = false.
Proof.
  unfold checked_vector, nonzero_norm. destruct vectors as [|l [|? ?]]; [done| |done].
  intros H. apply bind_Ok in H as (? & Hd%guard_Ok & H). apply bind_Ok in H as (l' & Hm & H).
  apply bind_Ok in H as (? & Hn & <-%Ok_inj). destruct (fsum_squares l') as [n|] eqn:E; [|done].
  apply guard_Ok, negb_true_iff in Hn. pose proof (res_map_length _ _ _ Hm) as Hlen.
  split; [unfold zlen in *; lia|]. split; [|by exists n].
  apply res_map_Forall2 in Hm. clear -Hm. induction Hm as [|x y l l' Hx _ IH]; constructor; [|done].
  unfold embedding_number in Hx. destruct x; try done;
    by apply bind_Ok in Hx as (? & ?%guard_Ok & <-%Ok_inj).
Qed.

(** The index and vector a [data] item contributes. *)
Definition item_entry (dimensions : Z) (item : json) (entry : Z * list float) : Prop :=
  ∃ kv, item = JObj kv ∧ aget (lit "index") kv = Some (JInt entry.1) ∧
        embedding_vector dimensions (aget (lit "embedding") kv) = Ok entry.2.

Lemma add_vector_ok count dimensions m item m' :
  add_vector count dimensions m item = Ok m' →
  ∃ e, item_entry dimensions item e ∧ m !! e.1 = None ∧ 0 ≤ e.1 < count ∧ m' = <[e.1 := e.2]> m.
Proof.
  unfold add_vector. intros H. destruct item as [| | | | | |kv]; try done.
  destruct (aget (lit "index") kv) as [[| |i| | | |]|] eqn:E; try done.
  apply bind_Ok in H as (? & Hr%guard_Ok & H). apply bind_Ok in H as (? & Hf%guard_Ok & H).
  apply bind_Ok in H as (v & Hv & <-%Ok_inj). breflect.
  exists (i, v). split; [by exists kv|]. split; [done|]. cbn. split; [lia|done].
Qed.

Lemma fold_vectors count dimensions data m m' :
  res_fold (add_vector count dimensions) m data = Ok m' →
  ∃ es, Forall2 (item_entry dimensions) data es ∧
    NoDup es.*1 ∧ Forall (λ e, m !! e.1 = None ∧ 0 ≤ e.1 < count) es ∧
    (∀ i v, m' !! i = Some v ↔ m !! i = Some v ∨ (i, v) ∈ es).
Proof.
  revert m. induction data as [|item data IH]; intros m H.
  { injection H as <-. exists []. do 3 (split; [constructor|]). intros i v. rewrite elem_of_nil. tauto. }
  cbn in H. apply bind_Ok in H as (m1 & Hi & H).
  apply add_vector_ok in Hi as ([i v] & Hi & Hfree & Hr & ->). cbn in *.
  destruct (IH _ H) as (es & Hes & Hnd & Hall & Hm'). exists ((i, v) :: es).
  rewrite Forall_forall in Hall. repeat split.
  - by constructor.
  - cbn. constructor; [|done]. intros ([j x] & Hj & Hin)%list_elem_of_fmap. cbn in Hj. subst j.
    destruct (Hall _ Hin) as [Hn _]. cbn in Hn. by rewrite lookup_insert_eq in Hn.
  - constructor; [done|]. apply Forall_forall. intros e He. destruct (Hall _ He) as [Hn ?].
    apply lookup_insert_None in Hn. tauto.
  - intros [[[<- <-]|[? ?]]%lookup_insert_Some|]%Hm'; rewrite ?elem_of_cons; auto.
  - intros Hx. apply Hm'. rewrite lookup_insert_Some. rewrite elem_of_cons in Hx.
    destruct Hx as [Hx|[[= -> ->]|Hx]]; [|auto|auto].
    left. right. split; [congruence|done].
Qed.

Lemma indices_elem count i : i ∈ indices count ↔ 0 ≤ i < count.
Proof.
  unfold indices. rewrite list_elem_of_fmap. split.
  - intros (n & -> & Hn). apply elem_of_seq in Hn. lia.
  - intros Hi. exists (Z.to_nat i). rewrite elem_of_seq. lia.
Qed.

(** The vectors of a response come back in input order, whatever order
    the provider lists them in: the result has one vector per input, and the
    i-th one is the vector of the unique [data] item whose index is i. *)
Theorem validated_vectors_order (kv : list (str * json)) (data : list json) (count dimensions : Z)
    (vectors : list (list float)) :
  aget (lit "data") kv = Some (JList data) →
  validated_vectors (JObj kv) count dimensions = Ok vectors →
  zlen vectors = count ∧
  ∃ es, Forall2 (item_entry dimensions) data es ∧ NoDup es.*1 ∧
    ∀ i v, vectors !! i = Some v ↔ (Z.of_nat i, v) ∈ es.
Proof.
  intros Hd H. unfold validated_vectors in H. rewrite Hd in H.
  apply bind_Ok in H as (? & Hlen%guard_Ok & H). apply bind_Ok in H as (m & Hm & H).
  apply bind_Ok in H as (? & Hall%guard_Ok & <-%Ok_inj).
  apply fold_vectors in Hm as (es & Hes & Hnd & Hr & Hm). rewrite forallb_forall in Hall.
  assert (Hc : 0 ≤ count) by (unfold zlen in Hlen; lia).
  split; [unfold zlen, indices; rewrite !length_fmap, length_seq; lia|].
  exists es. split; [done|]. split; [done|]. intros i v.
  unfold indices. rewrite !list_lookup_fmap.
  destruct (decide (i < Z.to_nat count)%nat) as [Hi|Hi].
  - rewrite lookup_seq_lt by done. cbn.
    assert (Hin : Z.of_nat i ∈ indices count) by (apply indices_elem; lia).
    specialize (Hall _ (proj1 (list_elem_of_In _ _) Hin)). breflect.
    destruct (m !! Z.of_nat i) as [y|] eqn:E; [|done]. cbn. split.
    + intros [= <-]. apply Hm in E as [E|?]; [by rewrite lookup_empty in E|done].
    + intros Hv. assert (m !! Z.of_nat i = Some v) by (apply Hm; auto). congruence.
  - rewrite lookup_seq_ge by lia. cbn. split; [done|]. intros Hv.
    rewrite Forall_forall in Hr. destruct (Hr _ Hv) as [_ Hb]. cbn in Hb. lia.
Qed.

Definition sample_item (i : Z) (x : float) : json :=
  JObj [(lit "index", JInt i); (lit "embedding", JList [JFloat x])].

Lemma validated_vectors_order_witness :
  zlen [[f1]; [f_of_Z 2]] = 2 ∧
  ∃ es, Forall2 (item_entry 1) [sample_item 1 (f_of_Z 2); sample_item 0 f1] es ∧ NoDup es.*1 ∧
    ∀ i v, [[f1]; [f_of_Z 2]] !! i = Some v ↔ (Z.of_nat i, v) ∈ es.
Proof.
  apply (validated_vectors_order [(lit "data", JList [sample_item 1 (f_of_Z 2); sample_item 0 f1])]
           [sample_item 1 (f_of_Z 2); sample_item 0 f1] 2 1).
  - reflexivity.
  - vm_compute. reflexivity.
Defined.
