(* ===== verification/Store.v ===== *)
(** * The store: tables, constraints, transactions

    The rows of [src/src/spine/db/models.py] that the memory, queue, injection
    and job services read and write, the database as finite maps by primary
    key, and the monad their service code runs in: a call sees the world (the
    database, the clock and the random draws), may change it, and returns or
    raises.  A transaction that raises restores the database, and so does a
    savepoint. *)
From S2P Require Import Prelude PyStr PyFloat PyJson Ids Embeddings.
Open Scope Z_scope.

(** ** Column types *)
Inductive MemoryKind := Kfact | Kpreference | Kprocedure | Kproject_note | Kpersona | Kpinned.
Inductive MemoryStatus := Sactive | Scandidate | Sstaged | Squarantined | Stombstoned.
Inductive EdgeType := merged_from | supersedes | contradicts | relates_to.
Inductive Verdict := Vnew | Vmerge | Vsupersede | Vcontradict | Vretire | Vkeyword_repair | Vsplit.
Inductive ItemState := pending | approved | rejected.
Inductive Birthplace := Bthread | Bseed | Bsymphony | Bcurator.
Inductive DecisionValue := approve | deny.
Inductive ApprovalMode := explicit_mode | passive_mode.
Inductive ActorClass := human | passive.
Inductive ShownAs := shown_injected | shown_near_miss | shown_pinned | shown_budget_cut.
Inductive RemovalReason := not_relevant | wrong | never.
Inductive Outcome :=
  | kept | added_back | removed (reason : RemovalReason)
  | mid_thread_removed | mid_thread_added | cited
  | auto_entered | auto_exited | out_budget_cut.

#[export] Instance kind_eq_dec : EqDecision MemoryKind.
Proof. solve_decision. Defined.
#[export] Instance status_eq_dec : EqDecision MemoryStatus.
Proof. solve_decision. Defined.
#[export] Instance edge_type_eq_dec : EqDecision EdgeType.
Proof. solve_decision. Defined.
#[export] Instance verdict_eq_dec : EqDecision Verdict.
Proof. solve_decision. Defined.
#[export] Instance item_state_eq_dec : EqDecision ItemState.
Proof. solve_decision. Defined.
#[export] Instance birthplace_eq_dec : EqDecision Birthplace.
Proof. solve_decision. Defined.
#[export] Instance decision_eq_dec : EqDecision DecisionValue.
Proof. solve_decision. Defined.
#[export] Instance mode_eq_dec : EqDecision ApprovalMode.
Proof. solve_decision. Defined.
#[export] Instance actor_eq_dec : EqDecision ActorClass.
Proof. solve_decision. Defined.
#[export] Instance shown_as_eq_dec : EqDecision ShownAs.
Proof. solve_decision. Defined.
#[export] Instance removal_reason_eq_dec : EqDecision RemovalReason.
Proof. solve_decision. Defined.
#[export] Instance outcome_eq_dec : EqDecision Outcome.
Proof. solve_decision. Defined.

(** The text the columns hold. *)
Definition kind_str (k : MemoryKind) : str :=
  match k with
  | Kfact => lit "fact" | Kpreference => lit "preference" | Kprocedure => lit "procedure"
  | Kproject_note => lit "project_note" | Kpersona => lit "persona" | Kpinned => lit "pinned"
  end.

Definition reason_str (r : RemovalReason) : str :=
  match r with not_relevant => lit "not_relevant" | wrong => lit "wrong" | never => lit "never" end.

Definition outcome_str (o : Outcome) : str :=
  match o with
  | kept => lit "kept" | added_back => lit "added_back" | removed r => lit "removed:" ++ reason_str r
  | mid_thread_removed => lit "mid_thread_removed" | mid_thread_added => lit "mid_thread_added"
  | cited => lit "cited" | auto_entered => lit "auto_entered" | auto_exited => lit "auto_exited"
  | out_budget_cut => lit "budget_cut"
  end.

Definition verdict_str (v : Verdict) : str :=
  match v with
  | Vnew => lit "new" | Vmerge => lit "merge" | Vsupersede => lit "supersede"
  | Vcontradict => lit "contradict" | Vretire => lit "retire"
  | Vkeyword_repair => lit "keyword_repair" | Vsplit => lit "split"
  end.

(** ** Rows *)

(** [memory_unit], without its derived [search_tsv] column. *)
Record MemoryUnit := {
  m_id : uuid;
  m_principal_id : str;
  m_label : str;
  m_body : str;
  m_kind : MemoryKind;
  m_keywords : list str;
  m_embedding : list float;
  m_embedding_model : str;
  m_project_key : option str;
  m_thread_origin : option str;
  m_origin_thread_id : option uuid;
  m_origin_path : option str;
  m_origin_location : option str;
  m_origin_locations : list str;
  m_run_id : option str;
  m_origin_agent : option str;
  m_pin : bool;
  m_status : MemoryStatus;
  m_revision : Z;
  m_stats : list (str * json);
  m_bias : float;
  m_created_at : Z;
  m_updated_at : Z;
}.

Record MemoryRevision := {
  r_rev_uid : str;
  r_parent_uid : option str;
  r_memory_id : uuid;
  r_revision : option Z;
  r_body : str;
  r_label : str;
  r_editor : str;
  r_origin_machine_id : str;
  r_reason : str;
  r_ts : Z;
}.

Record MemoryEdge := {
  e_edge_uid : str;
  e_from_memory_id : uuid;
  e_to_memory_id : uuid;
  e_edge_type : EdgeType;
  e_created_at : Z;
}.

Record ApprovalQueueItem := {
  q_item_uid : str;
  q_candidate_memory_id : uuid;
  q_principal_id : str;
  q_birthplace : Birthplace;
  q_birthplace_thread_id : option uuid;
  q_batch_uid : option uuid;
  q_source_name : option str;
  q_source_sha256 : option str;
  q_birthplace_run_id : option str;
  q_birthplace_origin_agent : option str;
  q_judged_context : option json;
  q_candidate_revision : option Z;
  q_curator_run_uid : option str;
  q_curator_finding_uid : option str;
  q_proposal_payload : option (list (str * json));
  q_verdict : Verdict;
  q_neighbor_ids : list uuid;
  q_target_ids : list uuid;
  q_state : ItemState;
  q_created_at : Z;
  q_decided_at : option Z;
}.

Record ApprovalDecision := {
  d_decision_uid : str;
  d_item_uid : str;
  d_decision : DecisionValue;
  d_approval_mode : ApprovalMode;
  d_actor_class : ActorClass;
  d_created_at : Z;
}.

Record Thread := {
  t_id : uuid;
  t_principal_id : str;
  t_agent_id : str;
  t_machine_id : str;
  t_project_key : option str;
  t_snapshot_ts : option Z;
  t_created_at : Z;
}.

Record InjectionEvent := {
  i_id : Z;
  i_event_uid : str;
  i_injection_id : uuid;
  i_thread_id : uuid;
  i_agent_id : str;
  i_machine_id : str;
  i_principal_id : str;
  i_project_key : option str;
  i_agent_kind : str;
  i_prompt_text : str;
  i_scorer_version : str;
  i_memory_id : uuid;
  i_memory_kind : str;
  i_features : list (str * json);
  i_score : float;
  i_rank : Z;
  i_shown_as : ShownAs;
  i_actor_class : ActorClass;
  i_outcome : option Outcome;
  i_ts : Z;
}.

Record ScorerConfigRow := {
  sc_version : str;
  sc_weights : json;
  sc_params : json;
  sc_created_at : Z;
  sc_active : bool;
}.

Record CuratorVerdict := {
  cv_verdict_uid : str;
  cv_finding_uid : str;
  cv_action : str;
  cv_rationale : str;
  cv_proposal : list (str * json);
  cv_created_at : Z;
}.

Record CuratorAction := {
  ca_action_uid : str;
  ca_verdict_uid : str;
  ca_finding_uid : str;
  ca_queue_item_uid : option str;
  ca_outcome : str;
  ca_detail : list (str * json);
  ca_created_at : Z;
}.

Record db := {
  units : gmap uuid MemoryUnit;
  revisions : gmap str MemoryRevision;
  edges : gmap str MemoryEdge;
  items : gmap str ApprovalQueueItem;
  decisions : gmap str ApprovalDecision;
  threads : gmap uuid Thread;
  events : gmap Z InjectionEvent;
  next_event_id : Z;
  scorer_configs : gmap str ScorerConfigRow;
  curator_verdicts : gmap str CuratorVerdict;
  curator_actions : gmap str CuratorAction;
}.

Definition empty_db : db := {|
  units := ∅; revisions := ∅; edges := ∅; items := ∅; decisions := ∅; threads := ∅; events := ∅;
  next_event_id := 1; scorer_configs := ∅; curator_verdicts := ∅; curator_actions := ∅ |}.

(** Field updates of the database. *)
Definition set_units (u : gmap uuid MemoryUnit) (d : db) : db := {|
  units := u; revisions := revisions d; edges := edges d; items := items d;
  decisions := decisions d; threads := threads d; events := events d;
  next_event_id := next_event_id d; scorer_configs := scorer_configs d;
  curator_verdicts := curator_verdicts d; curator_actions := curator_actions d |}.
Definition set_revisions (r : gmap str MemoryRevision) (d : db) : db := {|
  units := units d; revisions := r; edges := edges d; items := items d;
  decisions := decisions d; threads := threads d; events := events d;
  next_event_id := next_event_id d; scorer_configs := scorer_configs d;
  curator_verdicts := curator_verdicts d; curator_actions := curator_actions d |}.
Definition set_edges (e : gmap str MemoryEdge) (d : db) : db := {|
  units := units d; revisions := revisions d; edges := e; items := items d;
  decisions := decisions d; threads := threads d; events := events d;
  next_event_id := next_event_id d; scorer_configs := scorer_configs d;
  curator_verdicts := curator_verdicts d; curator_actions := curator_actions d |}.
Definition set_items (q : gmap str ApprovalQueueItem) (d : db) : db := {|
  units := units d; revisions := revisions d; edges := edges d; items := q;
  decisions := decisions d; threads := threads d; events := events d;
  next_event_id := next_event_id d; scorer_configs := scorer_configs d;
  curator_verdicts := curator_verdicts d; curator_actions := curator_actions d |}.
Definition set_decisions (x : gmap str ApprovalDecision) (d : db) : db := {|
  units := units d; revisions := revisions d; edges := edges d; items := items d;
  decisions := x; threads := threads d; events := events d;
  next_event_id := next_event_id d; scorer_configs := scorer_configs d;
  curator_verdicts := curator_verdicts d; curator_actions := curator_actions d |}.
Definition set_threads (t : gmap uuid Thread) (d : db) : db := {|
  units := units d; revisions := revisions d; edges := edges d; items := items d;
  decisions := decisions d; threads := t; events := events d;
  next_event_id := next_event_id d; scorer_configs := scorer_configs d;
  curator_verdicts := curator_verdicts d; curator_actions := curator_actions d |}.
Definition set_events (ev : gmap Z InjectionEvent) (next : Z) (d : db) : db := {|
  units := units d; revisions := revisions d; edges := edges d; items := items d;
  decisions := decisions d; threads := threads d; events := ev;
  next_event_id := next; scorer_configs := scorer_configs d;
  curator_verdicts := curator_verdicts d; curator_actions := curator_actions d |}.
Definition set_curator_actions (a : gmap str CuratorAction) (d : db) : db := {|
  units := units d; revisions := revisions d; edges := edges d; items := items d;
  decisions := decisions d; threads := threads d; events := events d;
  next_event_id := next_event_id d; scorer_configs := scorer_configs d;
  curator_verdicts := curator_verdicts d; curator_actions := a |}.

(** ** Exceptions: the classes the services raise *)
Record SimilarityMemoryCard := {
  card_memory_id : uuid;
  card_label : str;
  card_body : str;
  card_kind : MemoryKind;
  card_pin : bool;
  card_score : float;
}.

Inductive exn :=
  | Builtin (e : pyexn)
  | RuntimeError (msg : string)
  | IntegrityError (constraint_name : string)
  | DataError (msg : string)
  | MultipleResultsFound
  | NoResultFound
  | SerializationFailure
  | EmbeddingProviderError (e : embedding_error)
  | MemoryCasConflictError (current : MemoryUnit)
  | MemoryUnitNotFoundError (memory_id : uuid)
  | MemoryLineageError (memory_id : uuid) (expected_revision matches_ : Z)
  | LabelConflictError (memory_id : uuid) (label : str)
  | DuplicateMemoryError (duplicate_of : SimilarityMemoryCard)
  | MemoryNotFoundError (memory_id : uuid)
  | RevisionConflictError (current : MemoryUnit)
  | EmptyPatchError
  | InvalidListQueryError (msg : string)
  | InvalidSearchQueryError (msg : string)
  | MemoryValidationError (msg : string)
  | StagedMemoryConflictError (msg : string)
  | QueueNotFoundError
  | QueueConflictError (msg : string)
  | QueueValidationError (msg : string)
  | InjectionNotFoundError
  | InvalidCommitChoicesError (msg : string)
  | OutcomeConflictError (msg : string)
  | DecisionStateError (msg : string)
  | ThreadAlreadyPreparedError (thread_id : uuid)
  | ThreadIdentityConflictError (thread_id : uuid)
  | InvalidRescoreStateError (msg : string)
  | PrepareConflictError
  | ScorerConfigurationError (msg : string)
  | RetryTransaction
  | FrozenPayloadError (msg : string)
  | HTTPException (status_code : Z) (msg : string).

(** ** The world and the service monad *)

(** The draws of the host and the database: [gen_random_uuid], the host clock
    and random bits of [mint_ulid], and the database clock, each indexed by the
    number of draws made so far. *)
Class Env := {
  draw_uuid : nat → uuid;
  draw_clock_ms : nat → Z;
  draw_rand : nat → Z;
  draw_now : nat → Z;
}.

(** [w_in_tx]: the session is inside an explicit [session.begin()]. *)
Record world := {
  w_db : db;
  w_tick : nat;
  w_tx_now : Z;
  w_in_tx : bool;
}.

Definition with_db (d : db) (w : world) : world :=
  {| w_db := d; w_tick := w_tick w; w_tx_now := w_tx_now w; w_in_tx := w_in_tx w |}.
Definition leave_tx (outer w : world) : world :=
  {| w_db := w_db w; w_tick := w_tick w; w_tx_now := w_tx_now w; w_in_tx := w_in_tx outer |}.

Definition M (A : Type) : Type := world → res exn A * world.

Definition ret {A} (a : A) : M A := λ w, (Ok a, w).
Definition raise {A} (e : exn) : M A := λ w, (Err e, w).
Definition bind {A B} (m : M A) (f : A → M B) : M B := λ w,
  match m w with
  | (Ok a, w') => f a w'
  | (Err e, w') => (Err e, w')
  end.

Declare Scope service_scope.
Delimit Scope service_scope with svc.
Notation "x '<-!' m ; k" := (bind m (λ x, k))
  (at level 20, m at level 100, k at level 200, right associativity) : service_scope.
Notation "' p '<-!' m ; k" := (bind m (λ p, k))
  (at level 20, p pattern, m at level 100, k at level 200, right associativity) : service_scope.
Notation "m ;! k" := (bind m (λ _, k))
  (at level 99, k at level 200, right associativity) : service_scope.
Open Scope service_scope.

Definition require (b : bool) (e : exn) : M unit := if b then ret tt else raise e.

(** A pure call that may raise. *)
Definition lift {E A} (inj : E → exn) (r : res E A) : M A :=
  match r with Ok a => ret a | Err e => raise (inj e) end.

Definition get_db : M db := λ w, (Ok (w_db w), w).
Definition put_db (d : db) : M unit := λ w, (Ok tt, with_db d w).

(** [try: m except ...: handler]: a handler that does not match re-raises. *)
Definition try_catch {A} (m : M A) (handler : exn → M A) : M A := λ w,
  match m w with
  | (Ok a, w') => (Ok a, w')
  | (Err e, w') => handler e w'
  end.

(** [for x in l: body]. *)
Fixpoint for_each {A} (l : list A) (body : A → M unit) : M unit :=
  match l with
  | [] => ret tt
  | x :: l' => body x ;! for_each l' body
  end.

(** [[await f(x) for x in l]]. *)
Fixpoint map_m {A B} (f : A → M B) (l : list A) : M (list B) :=
  match l with
  | [] => ret []
  | x :: l' => y <-! f x; ys <-! map_m f l'; ret (y :: ys)
  end.

(** A loop that threads a value. *)
Fixpoint fold_m {A S} (f : S → A → M S) (s : S) (l : list A) : M S :=
  match l with
  | [] => ret s
  | x :: l' => s' <-! f s x; fold_m f s' l'
  end.

Section draws.
Context {EN : Env}.

Definition tick : M nat := λ w,
  (Ok (w_tick w),
   {| w_db := w_db w; w_tick := S (w_tick w); w_tx_now := w_tx_now w; w_in_tx := w_in_tx w |}).

Definition gen_random_uuid : M uuid := n <-! tick; ret (draw_uuid n).
Definition mint : M str := n <-! tick; ret (mint_ulid (draw_clock_ms n) (draw_rand n)).
Definition clock_timestamp : M Z := n <-! tick; ret (draw_now n).

(** [now()] is the transaction's start. *)
Definition now : M Z := λ w, (Ok (w_tx_now w), w).

(** [async with session.begin()]: commit, or roll back and re-raise. *)
Definition begin_tx (w : world) : world := {|
  w_db := w_db w; w_tick := S (w_tick w); w_tx_now := draw_now (w_tick w); w_in_tx := true |}.

Definition transaction {A} (m : M A) : M A := λ w,
  match m (begin_tx w) with
  | (Ok a, w') => (Ok a, leave_tx w w')
  | (Err e, w') => (Err e, leave_tx w (with_db (w_db w) w'))
  end.

Definition in_transaction : M bool := λ w, (Ok (w_in_tx w), w).
End draws.

(** [async with session.begin_nested()]. *)
Definition savepoint {A} (m : M A) : M A := λ w,
  match m w with
  | (Ok a, w') => (Ok a, w')
  | (Err e, w') => (Err e, with_db (w_db w) w')
  end.

(** ** Statements *)
Definition rows {K A} `{Countable K} (m : gmap K A) : list A := (map_to_list m).*2.

(** [.one_or_none()]. *)
Definition one_or_none {A} (l : list A) : M (option A) :=
  match l with [] => ret None | [x] => ret (Some x) | _ => raise MultipleResultsFound end.

(** The [CHECK] constraints of [memory_unit] beyond its closed column types. *)
Definition unit_check (u : MemoryUnit) : M unit :=
  require (Bool.eqb (bool_decide (m_run_id u = None)) (bool_decide (m_origin_agent u = None)))
    (IntegrityError "memory_unit_run_lineage_pair_check") ;!
  require (negb (bool_decide (m_status u = Sstaged) && bool_decide (m_run_id u = None)))
    (IntegrityError "memory_unit_staged_lineage_check").

(** A row clashes on the partial unique index [memory_unit_active_label]. *)
Definition same_active_label (u v : MemoryUnit) : bool :=
  bool_decide (m_status u = Sactive) && bool_decide (m_status v = Sactive)
  && bool_decide (m_principal_id u = m_principal_id v) && bool_decide (m_label u = m_label v)
  && negb (m_id u =? m_id v)%N.

Definition label_taken (d : db) (u : MemoryUnit) : bool :=
  existsb (same_active_label u) (rows (units d)).

(** Write a whole row under its primary key, checks and unique index first. *)
Definition write_unit (u : MemoryUnit) : M MemoryUnit :=
  unit_check u ;!
  d <-! get_db;
  require (negb (label_taken d u)) (IntegrityError "memory_unit_active_label") ;!
  put_db (set_units (<[m_id u := u]> (units d)) d) ;!
  ret u.

Definition insert_unit (u : MemoryUnit) : M MemoryUnit :=
  d <-! get_db;
  require (bool_decide (units d !! m_id u = None)) (IntegrityError "memory_unit_pkey") ;!
  write_unit u.

Definition insert_revision (r : MemoryRevision) : M unit :=
  d <-! get_db;
  require (bool_decide (revisions d !! r_rev_uid r = None)) (IntegrityError "memory_revision_pkey") ;!
  require (bool_decide (units d !! r_memory_id r ≠ None))
    (IntegrityError "memory_revision_memory_id_fkey") ;!
  require (match r_parent_uid r with
           | None => true | Some p => bool_decide (revisions d !! p ≠ None) end)
    (IntegrityError "memory_revision_parent_uid_fkey") ;!
  put_db (set_revisions (<[r_rev_uid r := r]> (revisions d)) d).

Definition same_edge (e f : MemoryEdge) : bool :=
  (e_from_memory_id e =? e_from_memory_id f)%N && (e_to_memory_id e =? e_to_memory_id f)%N
  && bool_decide (e_edge_type e = e_edge_type f).

Definition insert_edge (e : MemoryEdge) : M unit :=
  d <-! get_db;
  require (bool_decide (edges d !! e_edge_uid e = None)) (IntegrityError "memory_edge_pkey") ;!
  require (negb (existsb (same_edge e) (rows (edges d))))
    (IntegrityError "memory_edge_from_memory_id_to_memory_id_edge_type_key") ;!
  require (bool_decide (units d !! e_from_memory_id e ≠ None) &&
           bool_decide (units d !! e_to_memory_id e ≠ None))
    (IntegrityError "memory_edge_memory_id_fkey") ;!
  put_db (set_edges (<[e_edge_uid e := e]> (edges d)) d).

(** [approval_queue_item_birthplace_shape_check]. *)
Definition some {A} (o : option A) : bool := match o with Some _ => true | None => false end.
Definition item_shape_ok (q : ApprovalQueueItem) : bool :=
  let thread := some (q_birthplace_thread_id q) in
  let batch := some (q_batch_uid q) in
  let source := some (q_source_name q) in
  let sha := some (q_source_sha256 q) in
  let run := some (q_birthplace_run_id q) in
  let agent := some (q_birthplace_origin_agent q) in
  let judged := some (q_judged_context q) in
  let crun := some (q_curator_run_uid q) in
  let cfinding := some (q_curator_finding_uid q) in
  let payload := some (q_proposal_payload q) in
  let crev := some (q_candidate_revision q) in
  let no_curator := negb crun && negb cfinding && negb payload && negb crev in
  match q_birthplace q with
  | Bthread => thread && negb batch && negb source && negb sha && negb run && negb agent
               && negb judged && no_curator
  | Bseed => negb thread && batch && source && sha && negb run && negb agent && negb judged
             && no_curator
  | Bsymphony => negb thread && batch && negb source && negb sha && run && agent && judged
                 && no_curator
  | Bcurator => negb thread && negb batch && negb source && negb sha && negb run && negb agent
                && negb judged && crun && cfinding && payload && crev
  end.

Definition insert_item (q : ApprovalQueueItem) : M ApprovalQueueItem :=
  require (item_shape_ok q) (IntegrityError "approval_queue_item_birthplace_shape_check") ;!
  d <-! get_db;
  require (bool_decide (items d !! q_item_uid q = None)) (IntegrityError "approval_queue_item_pkey") ;!
  require (negb (existsb (λ p, some (q_curator_finding_uid q)
                   && bool_decide (q_curator_finding_uid p = q_curator_finding_uid q)) (rows (items d))))
    (IntegrityError "approval_queue_item_curator_finding_uid_key") ;!
  require (negb (bool_decide (q_birthplace q ≠ Bcurator)
                 && existsb (λ p, bool_decide (q_birthplace p ≠ Bcurator)
                      && (q_candidate_memory_id p =? q_candidate_memory_id q)%N) (rows (items d))))
    (IntegrityError "approval_queue_item_non_curator_candidate_uidx") ;!
  require (bool_decide (units d !! q_candidate_memory_id q ≠ None))
    (IntegrityError "approval_queue_item_candidate_memory_id_fkey") ;!
  put_db (set_items (<[q_item_uid q := q]> (items d)) d) ;!
  ret q.

Definition insert_decision (x : ApprovalDecision) : M unit :=
  d <-! get_db;
  require (bool_decide (decisions d !! d_decision_uid x = None)) (IntegrityError "approval_decision_pkey") ;!
  require (negb (existsb (λ y, bool_decide (d_item_uid y = d_item_uid x)) (rows (decisions d))))
    (IntegrityError "approval_decision_item_uid_key") ;!
  require (bool_decide (items d !! d_item_uid x ≠ None))
    (IntegrityError "approval_decision_item_uid_fkey") ;!
  put_db (set_decisions (<[d_decision_uid x := x]> (decisions d)) d).

(** ** Reasoning about runs *)

(** A query whose condition holds of one row returns that row. *)
Lemma rows_unique {K A} `{Countable K} (m : gmap K A) (P : A → Prop) `{∀ x, Decision (P x)} k x :
  m !! k = Some x → P x → (∀ k' x', m !! k' = Some x' → P x' → k' = k) → filter P (rows m) = [x].
Proof.
  intros Hk Hx Hu. apply Permutation_singleton_r. unfold rows.
  rewrite <- (insert_delete_id m k x) at 1 by done.
  rewrite map_to_list_insert by apply lookup_delete_eq. rewrite fmap_cons, filter_cons_True by done.
  apply Permutation_skip, Permutation_refl'.
  destruct (filter P (map_to_list (delete k m)).*2) as [|y l] eqn:E; [done|]. exfalso.
  assert (Hy : y ∈ filter P (map_to_list (delete k m)).*2) by (rewrite E; left).
  apply list_elem_of_filter in Hy as [Py Hy]. apply list_elem_of_fmap in Hy as ([k' z] & -> & Hz).
  apply elem_of_map_to_list, lookup_delete_Some in Hz as [Hne Hz]. by eapply Hne, eq_sym, Hu.
Qed.

Lemma elem_rows {K A} `{Countable K} (m : gmap K A) x : x ∈ rows m ↔ ∃ k, m !! k = Some x.
Proof.
  unfold rows. rewrite list_elem_of_fmap. split.
  - intros ([k y] & -> & Hy). exists k. by apply elem_of_map_to_list in Hy.
  - intros [k Hk]. exists (k, x). split; [done|]. by apply elem_of_map_to_list.
Qed.

Lemma bind_ok {A B} (m : M A) (f : A → M B) w b w' :
  bind m f w = (Ok b, w') ↔ ∃ a w1, m w = (Ok a, w1) ∧ f a w1 = (Ok b, w').
Proof.
  unfold bind. destruct (m w) as [[a|e] w1]; split; try done.
  - eauto.
  - by intros (? & ? & [= -> ->] & ?).
  - by intros (? & ? & ? & ?).
Qed.

Lemma bind_err {A B} (m : M A) (f : A → M B) w e w' :
  bind m f w = (Err e, w') ↔
  m w = (Err e, w') ∨ ∃ a w1, m w = (Ok a, w1) ∧ f a w1 = (Err e, w').
Proof.
  unfold bind. destruct (m w) as [[a|e1] w1]; split; eauto.
  - by intros [?|(? & ? & [= -> ->] & ?)].
  - by intros [= -> ->]; left.
  - by intros [[= -> ->]|(? & ? & ? & ?)].
Qed.

Lemma bind_run {A B} (m : M A) (f : A → M B) w a w1 :
  m w = (Ok a, w1) → bind m f w = f a w1.
Proof. unfold bind. by intros ->. Qed.

Lemma ret_ok {A} (a b : A) w w' : ret a w = (Ok b, w') ↔ a = b ∧ w = w'.
Proof. unfold ret. split; [by intros [= -> ->]|by intros [-> ->]]. Qed.

Lemma require_ok b e w x w' : require b e w = (Ok x, w') ↔ b = true ∧ w = w'.
Proof.
  unfold require, ret, raise. destruct b, x; split; try done; try (by intros [= ->]); by intros [? ->].
Qed.

Lemma require_err b e w e' w' : require b e w = (Err e', w') → b = false ∧ e' = e ∧ w' = w.
Proof. destruct b; [done|]. by intros [= <- <-]. Qed.

Lemma lift_ok {E A} (inj : E → exn) (r : res E A) w a w' :
  lift inj r w = (Ok a, w') ↔ r = Ok a ∧ w' = w.
Proof. destruct r; cbn; split; [by intros [= -> ->]|by intros [[= ->] ->]|done|by intros [??]]. Qed.

Lemma lift_err {E A} (inj : E → exn) (r : res E A) w e w' :
  lift inj r w = (Err e, w') → ∃ x, r = Err x ∧ e = inj x ∧ w' = w.
Proof. destruct r; cbn; [done|]. intros [= <- <-]. eauto. Qed.

Lemma require_run b e w : b = true → require b e w = (Ok tt, w).
Proof. by intros ->. Qed.

Lemma require_true {B} b e (f : unit → M B) w : b = true → bind (require b e) f w = f tt w.
Proof. by intros ->. Qed.

Lemma require_false {B} b e (f : unit → M B) w : b = false → bind (require b e) f w = (Err e, w).
Proof. by intros ->. Qed.

Lemma transaction_ok `{Env} {A} (m : M A) w a w' :
  transaction m w = (Ok a, w') ↔ ∃ w1, m (begin_tx w) = (Ok a, w1) ∧ w' = leave_tx w w1.
Proof.
  unfold transaction. destruct (m _) as [[?|?] w1]; split.
  - intros [= -> <-]. by exists w1.
  - by intros (? & [= -> ->] & ->).
  - done.
  - by intros (? & ? & ?).
Qed.

Lemma mint_ok `{Env} w uid w' : mint w = (Ok uid, w') →
  w_db w' = w_db w ∧ w_tx_now w' = w_tx_now w ∧ w_in_tx w' = w_in_tx w.
Proof. unfold mint, bind, tick, ret. by intros [= _ <-]. Qed.

Lemma savepoint_ok {A} (m : M A) w a w' : savepoint m w = (Ok a, w') ↔ m w = (Ok a, w').
Proof. unfold savepoint. by destruct (m w) as [[?|?] ?]. Qed.

(** A transaction or savepoint that raises leaves the database as it was. *)
Lemma transaction_rollback `{Env} {A} (m : M A) w e w' :
  transaction m w = (Err e, w') → w_db w' = w_db w.
Proof. unfold transaction. destruct (m _) as [[?|?] ?]; [done|]. by intros [= <- <-]. Qed.

Lemma savepoint_rollback {A} (m : M A) w e w' : savepoint m w = (Err e, w') → w_db w' = w_db w.
Proof. unfold savepoint. destruct (m w) as [[?|?] ?]; [done|]. by intros [= <- <-]. Qed.

(** Take apart a successful run. *)
Ltac run_step :=
  match goal with
  | H : bind _ _ _ = (Ok _, _) |- _ => apply bind_ok in H as (? & ? & ? & H)
  | H : ret _ _ = (Ok _, _) |- _ => apply ret_ok in H as [? <-]; try subst
  | H : require _ _ _ = (Ok _, _) |- _ => apply require_ok in H as [? <-]
  | H : raise _ _ = (Ok _, _) |- _ => discriminate H
  | H : get_db _ = (Ok _, _) |- _ => apply ret_ok in H as [<- <-]
  | H : now _ = (Ok _, _) |- _ => apply ret_ok in H as [<- <-]
  | H : (if ?b then _ else _) _ = (Ok _, _) |- _ => destruct b eqn:?
  | H : match ?x with _ => _ end _ = (Ok _, _) |- _ => destruct x eqn:?
  end.
Ltac run_inv := repeat (progress (run_step; try discriminate)).

(** *** What a program may do to the database *)

(** On success the database satisfies [Q]. *)
Definition ensures {A} (P : db → Prop) (m : M A) (Q : A → db → Prop) : Prop :=
  ∀ w a w', P (w_db w) → m w = (Ok a, w') → Q a (w_db w').

(** Whatever happens, the invariant holds afterwards. *)
Definition preserves {A} (I : db → Prop) (m : M A) : Prop :=
  ∀ w, I (w_db w) → I (w_db (m w).2).

(** The program only reads. *)
Definition read_only {A} (m : M A) : Prop := ∀ w, w_db (m w).2 = w_db w.

Section preserves.
Context (I : db → Prop).

Lemma preserves_ensures {A} (m : M A) : preserves I m → ensures I m (λ _, I).
Proof. intros H w a w' Hw E. specialize (H w Hw). by rewrite E in H. Qed.

Lemma preserves_read_only {A} (m : M A) : read_only m → preserves I m.
Proof. intros H w Hw. by rewrite H. Qed.

Lemma preserves_ret {A} (a : A) : preserves I (ret a).
Proof. by intros w. Qed.

Lemma preserves_raise {A} e : preserves I (@raise A e).
Proof. by intros w. Qed.

Lemma preserves_require b e : preserves I (require b e).
Proof. intros w. by destruct b. Qed.

Lemma preserves_get_db : preserves I get_db.
Proof. by intros w. Qed.

Lemma preserves_now : preserves I now.
Proof. by intros w. Qed.

Lemma preserves_in_transaction : preserves I in_transaction.
Proof. by intros w. Qed.

Lemma preserves_bind {A B} (m : M A) (f : A → M B) :
  preserves I m → (∀ a, preserves I (f a)) → preserves I (bind m f).
Proof.
  intros Hm Hf w Hw. unfold bind. specialize (Hm w Hw).
  destruct (m w) as [[a|e] w1]; [by apply Hf|done].
Qed.

Lemma preserves_if {A} (b : bool) (m m' : M A) :
  preserves I m → preserves I m' → preserves I (if b then m else m').
Proof. by destruct b. Qed.

Lemma preserves_try {A} (m : M A) h :
  preserves I m → (∀ e, preserves I (h e)) → preserves I (try_catch m h).
Proof.
  intros Hm Hh w Hw. unfold try_catch. specialize (Hm w Hw).
  destruct (m w) as [[a|e] w1]; [done|by apply Hh].
Qed.

Lemma preserves_for_each {A} (l : list A) body :
  (∀ x, preserves I (body x)) → preserves I (for_each l body).
Proof. intros Hb. induction l; cbn; [apply preserves_ret|by apply preserves_bind]. Qed.

Lemma preserves_map_m {A B} (f : A → M B) (l : list A) :
  (∀ x, preserves I (f x)) → preserves I (map_m f l).
Proof.
  intros Hf. induction l; cbn; [apply preserves_ret|].
  apply preserves_bind; [done|]. intros ?. apply preserves_bind; [done|]. intros ?. apply preserves_ret.
Qed.

Lemma preserves_fold_m {A S} (f : S → A → M S) (l : list A) s :
  (∀ s x, preserves I (f s x)) → preserves I (fold_m f s l).
Proof.
  intros Hf. revert s. induction l; intros s; cbn; [apply preserves_ret|]. by apply preserves_bind.
Qed.

Lemma preserves_lift {E A} (inj : E → exn) (r : res E A) : preserves I (lift inj r).
Proof. destruct r; cbn; [apply preserves_ret|apply preserves_raise]. Qed.

Lemma preserves_tick : preserves I tick.
Proof. by intros w. Qed.

Lemma preserves_gen_random_uuid `{Env} : preserves I gen_random_uuid.
Proof. by intros w. Qed.

Lemma preserves_mint `{Env} : preserves I mint.
Proof. by intros w. Qed.

Lemma preserves_clock_timestamp `{Env} : preserves I clock_timestamp.
Proof. by intros w. Qed.

Lemma preserves_one_or_none {A} (l : list A) : preserves I (one_or_none l).
Proof. intros w. by destruct l as [|? [|? ?]]. Qed.

(** A savepoint need only keep the invariant when it succeeds. *)
Lemma preserves_savepoint {A} (m : M A) : ensures I m (λ _, I) → preserves I (savepoint m).
Proof.
  intros H w Hw. unfold savepoint. destruct (m w) as [[a|e] w1] eqn:E; [|done]. by eapply H.
Qed.

Lemma preserves_transaction `{Env} {A} (m : M A) :
  ensures I m (λ _, I) → preserves I (transaction m).
Proof.
  intros Hm w Hw. unfold transaction. destruct (m _) as [[a|e] w1] eqn:E; [|done].
  exact (Hm (begin_tx w) _ _ Hw E).
Qed.
End preserves.

(** The invariant holds after a success: enough inside a transaction or a
    savepoint, which restore the database on failure. *)
Definition keeps_ok {A} (I : db → Prop) (m : M A) : Prop := ensures I m (λ _, I).

Section keeps_ok.
Context (I : db → Prop).

Lemma keeps_ok_preserves {A} (m : M A) : preserves I m → keeps_ok I m.
Proof. apply preserves_ensures. Qed.

Lemma keeps_ok_bind {A B} (m : M A) (f : A → M B) :
  keeps_ok I m → (∀ a, keeps_ok I (f a)) → keeps_ok I (bind m f).
Proof. intros Hm Hf w b w' Hw (a & w1 & H1 & H2)%bind_ok. exact (Hf _ _ _ _ (Hm _ _ _ Hw H1) H2). Qed.

Lemma keeps_ok_try {A} (m : M A) h :
  preserves I m → (∀ e, keeps_ok I (h e)) → keeps_ok I (try_catch m h).
Proof.
  intros Hm Hh w a w' Hw H. unfold try_catch in H. specialize (Hm w Hw).
  destruct (m w) as [[x|e] w1]; [by injection H as <- <-|]. exact (Hh _ _ _ _ Hm H).
Qed.

Lemma keeps_ok_for_each {A} (l : list A) body :
  (∀ x, keeps_ok I (body x)) → keeps_ok I (for_each l body).
Proof.
  intros Hb. induction l; cbn; [apply keeps_ok_preserves, preserves_ret|by apply keeps_ok_bind].
Qed.

Lemma keeps_ok_map_m {A B} (f : A → M B) (l : list A) :
  (∀ x, keeps_ok I (f x)) → keeps_ok I (map_m f l).
Proof.
  intros Hf. induction l; cbn; [apply keeps_ok_preserves, preserves_ret|].
  apply keeps_ok_bind; [done|]. intros ?. apply keeps_ok_bind; [done|]. intros ?.
  apply keeps_ok_preserves, preserves_ret.
Qed.

Lemma keeps_ok_fold_m {A S} (f : S → A → M S) (l : list A) s :
  (∀ s x, keeps_ok I (f s x)) → keeps_ok I (fold_m f s l).
Proof.
  intros Hf. revert s. induction l; intros s; cbn; [apply keeps_ok_preserves, preserves_ret|].
  by apply keeps_ok_bind.
Qed.
End keeps_ok.

Create HintDb keeps.
#[export] Hint Resolve preserves_ret preserves_raise preserves_require preserves_get_db preserves_now
  preserves_in_transaction
  preserves_lift preserves_tick preserves_gen_random_uuid preserves_mint preserves_clock_timestamp
  preserves_one_or_none keeps_ok_preserves : keeps.

(** Walk through a program's syntax, leaving its database writes as goals. *)
Ltac keep_step :=
  match goal with
  | |- preserves _ (bind _ _) => apply preserves_bind; [|intros ?]
  | |- preserves _ (try_catch _ _) => apply preserves_try; [|intros ?]
  | |- preserves _ (for_each _ _) => apply preserves_for_each; intros ?
  | |- preserves _ (map_m _ _) => apply preserves_map_m; intros ?
  | |- preserves _ (fold_m _ _ _) => apply preserves_fold_m; intros ? ?
  | |- preserves _ (transaction _) => apply preserves_transaction
  | |- preserves _ (savepoint _) => apply preserves_savepoint
  | |- preserves _ (match ?x with _ => _ end) => destruct x
  | |- keeps_ok _ (bind _ _) => apply keeps_ok_bind; [|intros ?]
  | |- keeps_ok _ (try_catch _ _) => apply keeps_ok_try; [|intros ?]
  | |- keeps_ok _ (for_each _ _) => apply keeps_ok_for_each; intros ?
  | |- keeps_ok _ (map_m _ _) => apply keeps_ok_map_m; intros ?
  | |- keeps_ok _ (fold_m _ _ _) => apply keeps_ok_fold_m; intros ? ?
  | |- keeps_ok _ (transaction _) => apply keeps_ok_preserves
  | |- keeps_ok _ (savepoint _) => apply keeps_ok_preserves
  | |- keeps_ok _ (match ?x with _ => _ end) => destruct x
  | |- ensures ?I ?m (λ _, ?I) => change (keeps_ok I m)
  end.
Ltac keeps := repeat first [solve [auto with keeps] | keep_step].

(** *** Which exceptions a program may raise *)
Definition raises {A} (R : exn → Prop) (m : M A) : Prop := ∀ w e w', m w = (Err e, w') → R e.

Section raises.
Context (R : exn → Prop).

Lemma raises_ret {A} (a : A) : raises R (ret a).
Proof. by intros w e w'. Qed.

Lemma raises_raise {A} e : R e → raises R (@raise A e).
Proof. by intros He w e' w' [= <- _]. Qed.

Lemma raises_require b e : R e → raises R (require b e).
Proof. intros He. destruct b; [apply raises_ret|by apply raises_raise]. Qed.

Lemma raises_bind {A B} (m : M A) (f : A → M B) :
  raises R m → (∀ a, raises R (f a)) → raises R (bind m f).
Proof.
  intros Hm Hf w e w' H. apply bind_err in H as [H|(a & w1 & _ & H)]; [by eapply Hm|by eapply Hf].
Qed.

Lemma raises_get_db : raises R get_db.
Proof. by intros w e w'. Qed.

Lemma raises_put_db d : raises R (put_db d).
Proof. by intros w e w'. Qed.

Lemma raises_now : raises R now.
Proof. by intros w e w'. Qed.

Lemma raises_in_transaction : raises R in_transaction.
Proof. by intros w e w'. Qed.

Lemma raises_tick : raises R tick.
Proof. by intros w e w'. Qed.

Lemma raises_lift {E A} (inj : E → exn) (r : res E A) : (∀ x, R (inj x)) → raises R (lift inj r).
Proof. intros H w e w'. destruct r; cbn; [done|]. by intros [= <- _]. Qed.

Lemma raises_for_each {A} (l : list A) body : (∀ x, raises R (body x)) → raises R (for_each l body).
Proof. intros Hb. induction l; cbn; [apply raises_ret|by apply raises_bind]. Qed.

Lemma raises_map_m {A B} (f : A → M B) (l : list A) : (∀ x, raises R (f x)) → raises R (map_m f l).
Proof.
  intros Hf. induction l; cbn; [apply raises_ret|].
  apply raises_bind; [done|]. intros ?. apply raises_bind; [done|]. intros ?. apply raises_ret.
Qed.

Lemma raises_savepoint {A} (m : M A) : raises R m → raises R (savepoint m).
Proof.
  intros Hm w e w'. unfold savepoint. destruct (m w) as [[a|e1] w1] eqn:E; [done|].
  intros [= <- _]. by eapply Hm.
Qed.
End raises.

Create HintDb raising.
#[export] Hint Resolve raises_ret raises_raise raises_require raises_get_db raises_put_db raises_now
  raises_in_transaction raises_savepoint raises_tick : raising.
Ltac raising := repeat first
  [ solve [auto with raising]
  | match goal with
    | |- raises _ (bind _ _) => apply raises_bind; [|intros ?]
    | |- raises _ (savepoint _) => apply raises_savepoint
    | |- raises _ (for_each _ _) => apply raises_for_each; intros ?
    | |- raises _ (map_m _ _) => apply raises_map_m; intros ?
    | |- raises _ (lift _ _) => apply raises_lift; intros ?
    | |- raises _ (require _ _) => apply raises_require
    | |- raises _ (raise _) => apply raises_raise
    | |- raises _ (if ?b then _ else _) => destruct b
    | |- raises _ (match ?x with _ => _ end) => destruct x
    end ].
