(* ===== verification/MemoryDb.v ===== *)
(** * Memory heads and their revision log: [src/src/spine/db/memory.py]

    [cas_update_memory_unit] writes a memory head only when its revision is
    the one the caller read, and appends the revision row of the new head in
    the same savepoint.  [wf] is the lineage invariant of the two tables. *)
From S2P Require Import Prelude PyStr PyFloat PyJson Ids Store.
Open Scope Z_scope.

(** What PostgreSQL stores for a [real], a [vector] and a text, and pgvector's
    cosine distance. *)
Class Postgres := {
  pg_real : float → res string float;
  pg_vector : list float → list float;
  pg_cosine_distance : list float → list float → float;
}.

(** PostgreSQL orders NaN above every number. *)
Definition pg_leb (a b : float) : bool := is_nan b || fle a b.
Definition pg_ltb (a b : float) : bool := negb (pg_leb b a).

(** Unset fields are [None]. *)
Record MemoryUnitChanges := {
  ch_label : option str;
  ch_body : option str;
  ch_kind : option MemoryKind;
  ch_keywords : option (list str);
  ch_embedding : option (list float);
  ch_embedding_model : option str;
  ch_project_key : option (option str);
  ch_thread_origin : option (option str);
  ch_origin_thread_id : option (option uuid);
  ch_origin_path : option (option str);
  ch_origin_location : option (option str);
  ch_pin : option bool;
  ch_status : option MemoryStatus;
  ch_stats : option (list (str * json));
  ch_bias : option float;
}.

Definition no_changes : MemoryUnitChanges := {|
  ch_label := None; ch_body := None; ch_kind := None; ch_keywords := None; ch_embedding := None;
  ch_embedding_model := None; ch_project_key := None; ch_thread_origin := None;
  ch_origin_thread_id := None; ch_origin_path := None; ch_origin_location := None; ch_pin := None;
  ch_status := None; ch_stats := None; ch_bias := None |}.

Definition status_change (s : MemoryStatus) : MemoryUnitChanges := {|
  ch_label := None; ch_body := None; ch_kind := None; ch_keywords := None; ch_embedding := None;
  ch_embedding_model := None; ch_project_key := None; ch_thread_origin := None;
  ch_origin_thread_id := None; ch_origin_path := None; ch_origin_location := None; ch_pin := None;
  ch_status := Some s; ch_stats := None; ch_bias := None |}.

Definition stats_change (s : list (str * json)) : MemoryUnitChanges := {|
  ch_label := None; ch_body := None; ch_kind := None; ch_keywords := None; ch_embedding := None;
  ch_embedding_model := None; ch_project_key := None; ch_thread_origin := None;
  ch_origin_thread_id := None; ch_origin_path := None; ch_origin_location := None; ch_pin := None;
  ch_status := None; ch_stats := Some s; ch_bias := None |}.

(** [as_values() == {}]. *)
Definition is_empty_changes (c : MemoryUnitChanges) : bool :=
  negb (some (ch_label c) || some (ch_body c) || some (ch_kind c) || some (ch_keywords c)
        || some (ch_embedding c) || some (ch_embedding_model c) || some (ch_project_key c)
        || some (ch_thread_origin c) || some (ch_origin_thread_id c) || some (ch_origin_path c)
        || some (ch_origin_location c) || some (ch_pin c) || some (ch_status c)
        || some (ch_stats c) || some (ch_bias c)).

Record CasUpdate := {
  cu_memory_id : uuid;
  cu_expected_revision : Z;
  cu_rev_uid : str;
  cu_editor : str;
  cu_origin_machine_id : str;
  cu_changes : MemoryUnitChanges;
  cu_reason : str;
}.

(** [CasUpdate.__post_init__]: [fullmatch] against the canonical pattern. *)
Definition cas_post_init (c : CasUpdate) : M unit :=
  require (canonical_ulid (cu_rev_uid c))
    (Builtin (ValueError "rev_uid must be a canonical 26-character ULID")).

Section cas.
Context {EN : Env} {PG : Postgres}.

(** The row [UPDATE ... SET] computes: changed fields, the next revision, now. *)
Definition updated_unit (c : MemoryUnitChanges) (now : Z) (bias : float) (u : MemoryUnit) :
    MemoryUnit := {|
  m_id := m_id u; m_principal_id := m_principal_id u;
  m_label := default (m_label u) (ch_label c);
  m_body := default (m_body u) (ch_body c);
  m_kind := default (m_kind u) (ch_kind c);
  m_keywords := default (m_keywords u) (ch_keywords c);
  m_embedding := default (m_embedding u) (pg_vector <$> ch_embedding c);
  m_embedding_model := default (m_embedding_model u) (ch_embedding_model c);
  m_project_key := default (m_project_key u) (ch_project_key c);
  m_thread_origin := default (m_thread_origin u) (ch_thread_origin c);
  m_origin_thread_id := default (m_origin_thread_id u) (ch_origin_thread_id c);
  m_origin_path := default (m_origin_path u) (ch_origin_path c);
  m_origin_location := default (m_origin_location u) (ch_origin_location c);
  m_origin_locations := m_origin_locations u;
  m_run_id := m_run_id u; m_origin_agent := m_origin_agent u;
  m_pin := default (m_pin u) (ch_pin c);
  m_status := default (m_status u) (ch_status c);
  m_revision := m_revision u + 1;
  m_stats := default (m_stats u) (ch_stats c);
  m_bias := bias; m_created_at := m_created_at u; m_updated_at := now |}.

Definition stored_bias (c : MemoryUnitChanges) (u : MemoryUnit) : M float :=
  match ch_bias c with
  | None => ret (m_bias u)
  | Some b => lift DataError (pg_real b)
  end.

(** [UPDATE memory_unit SET ... WHERE id = ... AND revision = ... RETURNING *]. *)
Definition update_head (id : uuid) (expected : Z) (c : MemoryUnitChanges) : M (option MemoryUnit) :=
  d <-! get_db;
  match units d !! id with
  | Some u =>
      if m_revision u =? expected then
        t <-! now;
        b <-! stored_bias c u;
        row <-! write_unit (updated_unit c t b u);
        ret (Some row)
      else ret None
  | None => ret None
  end.

Definition parent_uids (id : uuid) (expected : Z) (d : db) : list str :=
  r_rev_uid <$> filter (λ r, r_memory_id r = id ∧ r_revision r = Some expected) (rows (revisions d)).

Definition appended_revision (c : CasUpdate) (parent : str) (row : MemoryUnit) (ts : Z) :
    MemoryRevision := {|
  r_rev_uid := cu_rev_uid c; r_parent_uid := Some parent; r_memory_id := cu_memory_id c;
  r_revision := Some (m_revision row); r_body := m_body row; r_label := m_label row;
  r_editor := cu_editor c; r_origin_machine_id := cu_origin_machine_id c;
  r_reason := cu_reason c; r_ts := ts |}.

(** [_cas_update_memory_unit] past its argument check. *)
Definition cas_write (c : CasUpdate) : M MemoryUnit :=
  updated_row <-! update_head (cu_memory_id c) (cu_expected_revision c) (cu_changes c);
  match updated_row with
  | None =>
      d <-! get_db;
      match units d !! cu_memory_id c with
      | None => raise (MemoryUnitNotFoundError (cu_memory_id c))
      | Some current => raise (MemoryCasConflictError current)
      end
  | Some row =>
      d <-! get_db;
      match parent_uids (cu_memory_id c) (cu_expected_revision c) d with
      | [parent] =>
          t <-! now;
          insert_revision (appended_revision c parent row t) ;!
          ret row
      | l => raise (MemoryLineageError (cu_memory_id c) (cu_expected_revision c) (zlen l))
      end
  end.

(** [_cas_update_memory_unit]. *)
Definition cas_update_body (c : CasUpdate) : M MemoryUnit :=
  require (negb (is_empty_changes (cu_changes c)))
    (Builtin (ValueError "a CAS update requires at least one changed field")) ;!
  cas_write c.

(** [cas_update_memory_unit]. *)
Definition cas_update_memory_unit (c : CasUpdate) : M MemoryUnit :=
  cas_post_init c ;!
  begun <-! in_transaction;
  require begun (RuntimeError "cas_update_memory_unit requires an explicit caller transaction") ;!
  savepoint (cas_update_body c).

(** [tombstone_memory_unit]. *)
Definition tombstone_memory_unit (memory_id : uuid) (expected_revision : Z)
    (rev_uid editor origin_machine_id reason : str) : M MemoryUnit :=
  cas_update_memory_unit {|
    cu_memory_id := memory_id; cu_expected_revision := expected_revision; cu_rev_uid := rev_uid;
    cu_editor := editor; cu_origin_machine_id := origin_machine_id;
    cu_changes := status_change Stombstoned; cu_reason := reason |}.
End cas.

(** ** The lineage invariant *)
Record wf (d : db) : Prop := {
  wf_key : ∀ id u, units d !! id = Some u → m_id u = id;
  wf_labels : ∀ i j u v, units d !! i = Some u → units d !! j = Some v →
    same_active_label u v = false;
  wf_rev_key : ∀ k r, revisions d !! k = Some r → r_rev_uid r = k;
  wf_rev_unit : ∀ k r, revisions d !! k = Some r → is_Some (units d !! r_memory_id r);
  wf_head : ∀ id u, units d !! id = Some u → 1 ≤ m_revision u ∧
    ∃ k r, revisions d !! k = Some r ∧ r_memory_id r = id ∧ r_revision r = Some (m_revision u)
           ∧ r_body r = m_body u ∧ r_label r = m_label u;
  wf_chain : ∀ k r n, revisions d !! k = Some r → r_revision r = Some n → 1 < n →
    ∃ p q, r_parent_uid r = Some p ∧ revisions d !! p = Some q
           ∧ r_memory_id q = r_memory_id r ∧ r_revision q = Some (n - 1);
  wf_unique : ∀ k1 k2 r1 r2 n, revisions d !! k1 = Some r1 → revisions d !! k2 = Some r2 →
    r_memory_id r1 = r_memory_id r2 → r_revision r1 = Some n → r_revision r2 = Some n → k1 = k2;
  wf_bound : ∀ k r n u, revisions d !! k = Some r → r_revision r = Some n →
    units d !! r_memory_id r = Some u → 1 ≤ n ≤ m_revision u;
}.

Lemma wf_empty : wf empty_db.
Proof. split; cbn; intros *; rewrite ?lookup_empty; done. Qed.

(** It only looks at the heads and the revisions. *)
Lemma wf_tables d d' : units d' = units d → revisions d' = revisions d → wf d → wf d'.
Proof. intros Hu Hr []. split; rewrite ?Hu, ?Hr; done. Qed.

(** ** The statements, on success *)
Definition unit_checked (u : MemoryUnit) : Prop :=
  (m_run_id u = None ↔ m_origin_agent u = None) ∧ (m_status u = Sstaged → m_run_id u ≠ None).

Lemma unit_check_ok u w x w' : unit_check u w = (Ok x, w') → unit_checked u ∧ w' = w.
Proof.
  unfold unit_check, unit_checked. intros H. run_inv. split; [|done].
  destruct (m_run_id u), (m_origin_agent u); cbn in *; try done; split; try done.
  intros E. by rewrite E in *.
Qed.

Lemma label_free d u :
  label_taken d u = false ↔ ∀ id v, units d !! id = Some v → same_active_label u v = false.
Proof.
  unfold label_taken. rewrite <- not_true_iff_false, existsb_exists. split.
  - intros H id v Hv. apply not_true_iff_false. intros E. apply H. exists v. split; [|done].
    apply list_elem_of_In, elem_rows. eauto.
  - intros H (v & Hv & E). apply list_elem_of_In, elem_rows in Hv as [id Hv]. by rewrite (H id v) in E.
Qed.

Lemma write_unit_ok u w a w' :
  write_unit u w = (Ok a, w') →
  a = u ∧ unit_checked u ∧ label_taken (w_db w) u = false ∧
  w' = with_db (set_units (<[m_id u := u]> (units (w_db w))) (w_db w)) w.
Proof.
  unfold write_unit. intros H. apply bind_ok in H as (? & ? & [Hc ->]%unit_check_ok & H).
  run_inv. unfold put_db in *. simplify_eq. breflect. auto.
Qed.

Lemma insert_revision_ok r w a w' :
  insert_revision r w = (Ok a, w') →
  revisions (w_db w) !! r_rev_uid r = None ∧ is_Some (units (w_db w) !! r_memory_id r) ∧
  (∀ p, r_parent_uid r = Some p → is_Some (revisions (w_db w) !! p)) ∧
  w' = with_db (set_revisions (<[r_rev_uid r := r]> (revisions (w_db w))) (w_db w)) w.
Proof.
  unfold insert_revision. intros H. run_inv. unfold put_db in *. simplify_eq. breflect.
  split; [done|]. split; [by apply not_eq_None_Some|]. split; [|done].
  intros p Hp. rewrite Hp in *. breflect. by apply not_eq_None_Some.
Qed.

Section cas_facts.
Context {EN : Env} {PG : Postgres}.

Lemma update_head_ok id expected c w row w' :
  update_head id expected c w = (Ok (Some row), w') →
  ∃ u b, units (w_db w) !! id = Some u ∧ m_revision u = expected ∧
    row = updated_unit c (w_tx_now w) b u ∧ label_taken (w_db w) row = false ∧ unit_checked row ∧
    match ch_bias c with Some x => pg_real x = Ok b | None => b = m_bias u end ∧
    w' = with_db (set_units (<[m_id u := row]> (units (w_db w))) (w_db w)) w.
Proof.
  unfold update_head. intros H. apply bind_ok in H as (d & w1 & [<- <-]%ret_ok & H).
  destruct (units _ !! id) as [u|] eqn:E; [|by run_inv].
  destruct (m_revision u =? expected) eqn:R; [|by run_inv].
  apply bind_ok in H as (t & w1 & [<- <-]%ret_ok & H). apply bind_ok in H as (b & w1 & Hb & H).
  assert (w1 = w ∧ match ch_bias c with Some x => pg_real x = Ok b | None => b = m_bias u end)
    as [-> Hbias].
  { unfold stored_bias in Hb. destruct (ch_bias c) as [x|]; [|run_inv; auto].
    destruct (pg_real x) eqn:P; cbn in Hb; [|done]. run_inv. eauto. }
  apply bind_ok in H as (row' & w2 & (-> & Hc & Hl & ->)%write_unit_ok & H). run_inv.
  match goal with E : Some _ = Some _ |- _ => injection E as <- end.
  exists u, b. repeat (split; [done || lia|]). done.
Qed.

Lemma update_head_none id expected c w w' :
  update_head id expected c w = (Ok None, w') →
  w' = w ∧ (∀ u, units (w_db w) !! id = Some u → m_revision u ≠ expected).
Proof.
  unfold update_head. intros H. apply bind_ok in H as (d & w1 & [<- <-]%ret_ok & H).
  destruct (units _ !! id) as [u|] eqn:E; [|by run_inv].
  destruct (m_revision u =? expected) eqn:R.
  - exfalso. by run_inv.
  - run_inv. split; [done|]. intros v [= <-]. lia.
Qed.

(** What a successful compare-and-set did. *)
Lemma cas_ok c w row w' :
  cas_update_memory_unit c w = (Ok row, w') →
  ∃ u b parent,
    units (w_db w) !! cu_memory_id c = Some u ∧ m_revision u = cu_expected_revision c ∧
    row = updated_unit (cu_changes c) (w_tx_now w) b u ∧
    match ch_bias (cu_changes c) with Some x => pg_real x = Ok b | None => b = m_bias u end ∧
    label_taken (w_db w) row = false ∧ canonical_ulid (cu_rev_uid c) = true ∧
    is_empty_changes (cu_changes c) = false ∧
    parent_uids (cu_memory_id c) (cu_expected_revision c) (w_db w) = [parent] ∧
    revisions (w_db w) !! cu_rev_uid c = None ∧
    w' = with_db (set_revisions
           (<[cu_rev_uid c := appended_revision c parent row (w_tx_now w)]> (revisions (w_db w)))
           (set_units (<[m_id u := row]> (units (w_db w))) (w_db w))) w.
Proof.
  unfold cas_update_memory_unit, cas_post_init. intros H.
  apply bind_ok in H as ([] & w1 & [Hulid <-]%require_ok & H).
  apply bind_ok in H as (begun & w1 & [<- <-]%ret_ok & H).
  apply bind_ok in H as ([] & w1 & [_ <-]%require_ok & H).
  rewrite savepoint_ok in H. unfold cas_update_body in H.
  apply bind_ok in H as ([] & w1 & [Hch <-]%require_ok & H). breflect. unfold cas_write in H.
  apply bind_ok in H as ([row'|] & w2 & Hu & H).
  - apply update_head_ok in Hu as (u & b & Hu & Hr & -> & Hl & Hc & Hbias & ->).
    apply bind_ok in H as (d & w1 & [<- <-]%ret_ok & H). cbn in H.
    destruct (parent_uids _ _ _) as [|parent [|? ?]] eqn:P; [done| |done].
    apply bind_ok in H as (t & w1 & [<- <-]%ret_ok & H).
    apply bind_ok in H as (? & w3 & (Hn & _ & _ & ->)%insert_revision_ok & H).
    apply ret_ok in H as [<- <-]. exists u, b, parent. by repeat (split; [done|]).
  - apply bind_ok in H as (d & w1 & [<- <-]%ret_ok & H). by destruct (units _ !! _).
Qed.

Lemma cas_err_db c w e w' : cas_update_memory_unit c w = (Err e, w') → w_db w' = w_db w.
Proof.
  unfold cas_update_memory_unit, cas_post_init, in_transaction, require, bind, ret, raise. cbn.
  destruct (canonical_ulid _), (w_in_tx w); try (by intros [= <- <-]).
  by intros ?%savepoint_rollback.
Qed.
End cas_facts.

(** ** The invariant is kept *)

Lemma same_active_label_sym u v : same_active_label u v = same_active_label v u.
Proof.
  unfold same_active_label.
  rewrite (bool_decide_ext (m_principal_id u = _) (m_principal_id v = m_principal_id u)) by done.
  rewrite (bool_decide_ext (m_label u = _) (m_label v = m_label u)) by done.
  rewrite (N.eqb_sym (m_id u)). destruct (bool_decide (m_status u = _)), (bool_decide (m_status v = _)); done.
Qed.

Lemma same_active_label_refl u v : m_id u = m_id v → same_active_label u v = false.
Proof. intros E. unfold same_active_label. rewrite E, N.eqb_refl. by rewrite !andb_false_r. Qed.

Lemma parent_uids_elem d id n p :
  wf d → p ∈ parent_uids id n d →
  ∃ r, revisions d !! p = Some r ∧ r_memory_id r = id ∧ r_revision r = Some n.
Proof.
  intros Hwf Hp. apply list_elem_of_fmap in Hp as (r & -> & Hr).
  apply list_elem_of_filter in Hr as [[Hid Hn] Hr]. apply elem_rows in Hr as [k Hk].
  exists r. rewrite (wf_rev_key d Hwf _ _ Hk). auto.
Qed.

(** Writing a row that clashes with no other keeps labels unique. *)
Lemma wf_labels_insert d u :
  wf d → label_taken d u = false →
  ∀ i j x y, <[m_id u := u]> (units d) !! i = Some x → <[m_id u := u]> (units d) !! j = Some y →
  same_active_label x y = false.
Proof.
  intros Hwf Hl i j x y. rewrite label_free in Hl. rewrite !lookup_insert_Some.
  intros [[<- <-]|[Hi Hx]] [[<- <-]|[Hj Hy]].
  - by apply same_active_label_refl.
  - eauto.
  - rewrite same_active_label_sym. eauto.
  - by eapply wf_labels.
Qed.

Definition put_head (u : MemoryUnit) (r : MemoryRevision) (d : db) : db :=
  set_revisions (<[r_rev_uid r := r]> (revisions d)) (set_units (<[m_id u := u]> (units d)) d).

(** The one way the two tables grow: a head is replaced by its next revision,
    or a new head starts at revision 1, together with its revision row. *)
Definition appends (d : db) (u : MemoryUnit) (r : MemoryRevision) : Prop :=
  label_taken d u = false ∧ revisions d !! r_rev_uid r = None ∧
  r_memory_id r = m_id u ∧ r_revision r = Some (m_revision u) ∧
  r_body r = m_body u ∧ r_label r = m_label u ∧
  match units d !! m_id u with
  | Some old => m_revision u = m_revision old + 1 ∧
      ∃ p q, r_parent_uid r = Some p ∧ revisions d !! p = Some q ∧
             r_memory_id q = m_id u ∧ r_revision q = Some (m_revision old)
  | None => m_revision u = 1
  end.

Lemma wf_put_head d u r : wf d → appends d u r → wf (put_head u r d).
Proof.
  intros Hwf (Hl & Hfresh & Hid & Hrev & Hbody & Hlabel & Hold).
  assert (Hnew : ∀ k q n, revisions d !! k = Some q → r_memory_id q = m_id u →
            r_revision q = Some n → n < m_revision u ∧ 1 ≤ n).
  { intros k q n Hk Hq Hn. destruct (units d !! m_id u) as [old|] eqn:E.
    - destruct Hold as [? _]. rewrite <- Hq in E. pose proof (wf_bound d Hwf _ _ _ _ Hk Hn E). lia.
    - destruct (wf_rev_unit d Hwf _ _ Hk) as [? E']. rewrite Hq in E'. congruence. }
  assert (Hpos : 1 ≤ m_revision u).
  { destruct (units d !! m_id u) as [old|] eqn:E; [|lia]. destruct (wf_head d Hwf _ _ E). lia. }
  split; cbn.
  - intros id v. rewrite lookup_insert_Some. intros [[<- <-]|[? ?]]; [done|by apply (wf_key d Hwf)].
  - by apply wf_labels_insert.
  - intros k q. rewrite lookup_insert_Some. intros [[<- <-]|[? ?]]; [done|by apply (wf_rev_key d Hwf)].
  - intros k q. rewrite lookup_insert_Some. intros [[<- <-]|[_ Hq]].
    + rewrite Hid, lookup_insert_eq. eauto.
    + destruct (wf_rev_unit d Hwf _ _ Hq) as [v Hv].
      destruct (decide (m_id u = r_memory_id q)) as [->|]; [rewrite lookup_insert_eq|rewrite lookup_insert_ne by done]; eauto.
  - intros id v. rewrite lookup_insert_Some. intros [[<- <-]|[Hne Hv]].
    + split; [done|]. exists (r_rev_uid r), r. by rewrite lookup_insert_eq.
    + destruct (wf_head d Hwf _ _ Hv) as (? & k & q & Hk & Hq). split; [done|]. exists k, q.
      rewrite lookup_insert_ne by congruence. done.
  - intros k q n. rewrite lookup_insert_Some. intros [[<- <-]|[Hne Hq]] Hn Hlt.
    + rewrite Hrev in Hn. injection Hn as <-. destruct (units d !! m_id u) as [old|] eqn:E; [|lia].
      destruct Hold as (Hr & p & q & Hp & Hq & Hmq & Hnq). exists p, q.
      rewrite lookup_insert_ne by congruence. repeat (split; [done || congruence|]). rewrite Hnq.
      f_equal. lia.
    + destruct (wf_chain d Hwf _ _ _ Hq Hn Hlt) as (p & q' & ? & Hp & ?). exists p, q'.
      by rewrite lookup_insert_ne by congruence.
  - intros k1 k2 r1 r2 n. rewrite !lookup_insert_Some.
    intros [[<- <-]|[? H1]] [[<- <-]|[? H2]] Hm Hn1 Hn2; [done|..].
    + rewrite Hid in Hm. destruct (Hnew _ _ _ H2 (eq_sym Hm) Hn2). rewrite Hrev in Hn1.
      injection Hn1 as <-. lia.
    + rewrite Hid in Hm. destruct (Hnew _ _ _ H1 Hm Hn1). rewrite Hrev in Hn2.
      injection Hn2 as <-. lia.
    + by eapply (wf_unique d Hwf).
  - intros k q n v. rewrite lookup_insert_Some. intros [[<- <-]|[_ Hq]] Hn.
    + rewrite Hid, lookup_insert_eq. intros [= <-]. rewrite Hrev in Hn. injection Hn as <-. lia.
    + rewrite lookup_insert_Some. intros [[Hm <-]|[_ Hv]].
      * destruct (Hnew _ _ _ Hq (eq_sym Hm) Hn). lia.
      * by eapply (wf_bound d Hwf).
Qed.

(** An invariant of the whole database that the memory programs keep: it
    includes the lineage invariant, holds on when a head and its revision row
    are appended, and does not look at the edges. *)
Class Lineage (I : db → Prop) : Prop := {
  lineage_wf : ∀ d, I d → wf d;
  lineage_put_head : ∀ d u r, I d → appends d u r → I (put_head u r d);
  lineage_edges : ∀ d e, I d → I (set_edges e d);
}.

#[export] Instance wf_lineage : Lineage wf.
Proof. split; [done|apply wf_put_head|]. intros d e. by apply wf_tables. Qed.

Section cas_wf.
Context {EN : Env} {PG : Postgres} {I : db → Prop} {LI : Lineage I}.

Lemma cas_appends c w row w' :
  wf (w_db w) → cas_update_memory_unit c w = (Ok row, w') →
  ∃ r, w' = with_db (put_head row r (w_db w)) w ∧ appends (w_db w) row r ∧
       m_id row = cu_memory_id c ∧ r_rev_uid r = cu_rev_uid c.
Proof.
  intros Hwf H. apply cas_ok in H as
    (u & b & parent & Hu & Hr & -> & _ & Hl & _ & _ & Hp & Hn & ->).
  pose proof (wf_key _ Hwf _ _ Hu) as Hid.
  assert (parent ∈ parent_uids (cu_memory_id c) (cu_expected_revision c) (w_db w)) as Hin
    by (rewrite Hp; left).
  destruct (parent_uids_elem _ _ _ _ Hwf Hin) as (q & Hq & Hmq & Hnq).
  exists (appended_revision c parent (updated_unit (cu_changes c) (w_tx_now w) b u) (w_tx_now w)).
  split; [done|]. split; [|done]. repeat (split; [done|]). cbn. rewrite Hid, Hu. split; [done|].
  exists parent, q. rewrite Hr. auto.
Qed.

Lemma cas_preserves_wf c : preserves I (cas_update_memory_unit c).
Proof.
  intros w HI. destruct (cas_update_memory_unit c w) as [[row|e] w'] eqn:E; cbn.
  - destruct (cas_appends _ _ _ _ (lineage_wf _ HI) E) as (r & -> & Ha & _).
    by apply lineage_put_head.
  - by rewrite (cas_err_db _ _ _ _ E).
Qed.
(** A head write touches one head and no edge. *)
Lemma cas_db c w row w' : wf (w_db w) → cas_update_memory_unit c w = (Ok row, w') →
  ∃ old b, units (w_db w) !! cu_memory_id c = Some old ∧
    row = updated_unit (cu_changes c) (w_tx_now w) b old ∧
    match ch_bias (cu_changes c) with Some x => pg_real x = Ok b | None => b = m_bias old end ∧
    m_id row = cu_memory_id c ∧
    units (w_db w') = <[cu_memory_id c := row]> (units (w_db w)) ∧
    edges (w_db w') = edges (w_db w) ∧ events (w_db w') = events (w_db w) ∧
    next_event_id (w_db w') = next_event_id (w_db w) ∧ w_tx_now w' = w_tx_now w.
Proof.
  intros Hwf H. apply cas_ok in H as (u & b & p & Hu & _ & -> & Hb & Hl & _ & _ & _ & _ & ->).
  exists u, b. cbn. rewrite (wf_key _ Hwf _ _ Hu). by split_and!.
Qed.
End cas_wf.

#[export] Hint Resolve wf_lineage cas_preserves_wf : keeps.

(** ** Properties *)

Lemma unit_check_run u w : unit_checked u → unit_check u w = (Ok tt, w).
Proof.
  intros [H1 H2]. unfold unit_check.
  rewrite require_true; [apply require_run|].
  - apply negb_true_iff, andb_false_iff.
    destruct (decide (m_status u = Sstaged)); [right|left]; apply bool_decide_eq_false_2; auto.
  - destruct (m_run_id u), (m_origin_agent u); cbn; try done; exfalso; intuition congruence.
Qed.

Lemma write_unit_run u w :
  unit_checked u → label_taken (w_db w) u = false →
  write_unit u w = (Ok u, with_db (set_units (<[m_id u := u]> (units (w_db w))) (w_db w)) w).
Proof.
  intros Hc Hl. unfold write_unit. rewrite (bind_run _ _ _ _ _ (unit_check_run u w Hc)).
  unfold bind at 1, get_db. rewrite require_true by (by rewrite Hl). done.
Qed.

Lemma parent_uids_unique d id u :
  wf d → units d !! id = Some u → ∃ p, parent_uids id (m_revision u) d = [p].
Proof.
  intros Hwf Hu. destruct (wf_head d Hwf _ _ Hu) as (_ & k & r & Hk & Hid & Hn & _ & _).
  exists (r_rev_uid r). unfold parent_uids.
  rewrite (rows_unique _ _ k r Hk); [done|done|].
  intros k' r' Hk' [Hid' Hn']. eapply (wf_unique d Hwf); eauto. congruence.
Qed.

Section properties.
Context {EN : Env} {PG : Postgres}.

(** A call that is well formed: canonical revision identifier, some change,
    made inside an explicit transaction. *)
Definition cas_ready (c : CasUpdate) (w : world) : Prop :=
  canonical_ulid (cu_rev_uid c) = true ∧ is_empty_changes (cu_changes c) = false ∧ w_in_tx w = true.

Lemma raises_update_head (R : exn → Prop) id expected c :
  (∀ n, R (IntegrityError n)) → (∀ n, R (DataError n)) → raises R (update_head id expected c).
Proof.
  intros H1 H2. unfold update_head, stored_bias, write_unit, unit_check, lift. raising.
Qed.

Lemma cas_ready_run c w :
  cas_ready c w → cas_update_memory_unit c w = savepoint (cas_write c) w.
Proof.
  intros (H1 & H2 & H3). unfold cas_update_memory_unit, cas_post_init, cas_update_body.
  rewrite require_true by done. unfold bind at 1, in_transaction.
  rewrite require_true by done. unfold savepoint. by rewrite require_true by (by rewrite H2).
Qed.

Lemma cas_stale_run c w u :
  cas_ready c w → units (w_db w) !! cu_memory_id c = Some u →
  m_revision u ≠ cu_expected_revision c →
  cas_update_memory_unit c w = (Err (MemoryCasConflictError u), w).
Proof.
  intros Hready Hu Hne. rewrite (cas_ready_run c w Hready).
  unfold savepoint, cas_write, update_head, bind, get_db, raise.
  rewrite Hu, (proj2 (Z.eqb_neq _ _)) by done. cbn. rewrite Hu. by destruct w.
Qed.


(** Of two writers that read the same revision, one wins.  Once a first
    compare-and-set succeeded, a second one against the same revision raises a
    conflict carrying the winner's row and changes nothing. *)
Theorem cas_one_winner (c1 c2 : CasUpdate) (w w1 : world) (row : MemoryUnit) :
  wf (w_db w) → cas_update_memory_unit c1 w = (Ok row, w1) → cas_ready c2 w1 →
  cu_memory_id c2 = cu_memory_id c1 → cu_expected_revision c2 = cu_expected_revision c1 →
  cas_update_memory_unit c2 w1 = (Err (MemoryCasConflictError row), w1).
Proof.
  intros Hwf H1 Hready Hm Hr. pose proof (cas_ok _ _ _ _ H1) as (u & b & _ & Hu & Hrev & Hrow & _).
  destruct (cas_appends _ _ _ _ Hwf H1) as (r & -> & Ha & Hid & _).
  apply cas_stale_run; [done|..].
  - cbn. by rewrite Hm, <- Hid, lookup_insert_eq.
  - rewrite Hr, Hrow. cbn. lia.
Qed.

Lemma cas_no_lineage_error c w id n k w' :
  wf (w_db w) → cas_update_memory_unit c w ≠ (Err (MemoryLineageError id n k), w').
Proof.
  set (R := λ e, ∀ id n k, e ≠ MemoryLineageError id n k). intros Hwf H.
  enough (R (MemoryLineageError id n k)) as HR by by eapply HR.
  unfold cas_update_memory_unit, cas_post_init in H.
  apply bind_err in H as [H|([] & w1 & [_ <-]%require_ok & H)]; [by refine (raises_require R _ _ _ _ _ _ H)|].
  apply bind_err in H as [H|(begun & w1 & [<- <-]%ret_ok & H)]; [done|].
  apply bind_err in H as [H|([] & w1 & [_ <-]%require_ok & H)]; [by refine (raises_require R _ _ _ _ _ _ H)|].
  unfold savepoint, cas_update_body in H. destruct (bind _ _ w) as [[a|e] w1] eqn:E; [done|].
  injection H as -> <-.
  apply bind_err in E as [E|([] & w2 & [_ <-]%require_ok & E)]; [by refine (raises_require R _ _ _ _ _ _ E)|].
  unfold cas_write in E. apply bind_err in E as [E|([row|] & w2 & Hu & E)].
  - revert E. apply (raises_update_head R); done.
  - apply update_head_ok in Hu as (u & b & Hu & Hr & _ & _ & _ & _ & ->).
    destruct (parent_uids_unique _ _ _ Hwf Hu) as [p Hp]. rewrite Hr in Hp.
    apply bind_err in E as [E|(d & w2 & [<- <-]%ret_ok & E)]; [done|]. cbn in E.
    change (parent_uids _ _ (set_units _ _)) with
      (parent_uids (cu_memory_id c) (cu_expected_revision c) (w_db w)) in E. rewrite Hp in E.
    revert E. apply (λ H, H : raises R _). unfold insert_revision. raising; by intros ? ? ?.
  - revert E. apply (λ H, H : raises R _). raising; by intros ? ? ?.
Qed.

(** A compare-and-set never breaks the lineage invariant, whatever it
    returns, and with the invariant in force it never meets the lineage error
    its code guards against; a call that raises leaves the database alone. *)
Theorem cas_keeps_lineage (c : CasUpdate) (w : world) :
  wf (w_db w) →
  wf (w_db (cas_update_memory_unit c w).2) ∧
  (∀ e, (cas_update_memory_unit c w).1 = Err e → w_db (cas_update_memory_unit c w).2 = w_db w) ∧
  (∀ id n k, (cas_update_memory_unit c w).1 ≠ Err (MemoryLineageError id n k)).
Proof.
  intros Hwf. split; [by apply cas_preserves_wf|]. split.
  - intros e He. destruct (cas_update_memory_unit c w) as [r w'] eqn:E. cbn in *. subst.
    by eapply cas_err_db.
  - intros id n k H. destruct (cas_update_memory_unit c w) as [r w'] eqn:E. cbn in H. subst r.
    by eapply (cas_no_lineage_error c w).
Qed.
End properties.

(** The history of a memory is complete.  Under the invariant the revision
    rows of a head number exactly 1 to its revision, each once, each linked to
    the row before it, and the newest row holds the head's label and body. *)
Theorem history_complete (d : db) (id : uuid) (u : MemoryUnit) :
  wf d → units d !! id = Some u →
  (∀ n, 1 ≤ n ≤ m_revision u ↔
     ∃ k r, revisions d !! k = Some r ∧ r_memory_id r = id ∧ r_revision r = Some n) ∧
  (∀ n, length (parent_uids id n d) ≤ 1)%nat ∧
  (∃ k r, revisions d !! k = Some r ∧ r_memory_id r = id ∧ r_revision r = Some (m_revision u) ∧
     r_body r = m_body u ∧ r_label r = m_label u).
Proof.
  intros Hwf Hu. destruct (wf_head d Hwf _ _ Hu) as (Hpos & k0 & r0 & Hk0 & Hid0 & Hn0 & Hbl).
  split; [|split].
  - intros n. split.
    + intros Hn. assert (∃ j : nat, n = m_revision u - Z.of_nat j) as [j ->]
        by (exists (Z.to_nat (m_revision u - n)); lia).
      induction j as [|j IH]; [exists k0, r0; replace (m_revision u - Z.of_nat 0) with (m_revision u) by lia; auto|].
      destruct IH as (k & r & Hk & Hid & Hr); [lia|].
      destruct (wf_chain d Hwf _ _ _ Hk Hr) as (p & q & _ & Hq & Hm & Hnq); [lia|].
      exists p, q. split; [done|]. split; [congruence|]. rewrite Hnq. f_equal. lia.
    + intros (k & r & Hk & Hid & Hr). rewrite <- Hid in Hu. by eapply (wf_bound d Hwf).
  - intros n. unfold parent_uids. rewrite length_fmap.
    destruct (filter _ _) as [|r l] eqn:E; cbn; [lia|].
    assert (Hr : r ∈ filter (λ r, r_memory_id r = id ∧ r_revision r = Some n) (rows (revisions d)))
      by (rewrite E; left).
    apply list_elem_of_filter in Hr as [[Hid Hn] (k & Hk)%elem_rows].
    rewrite (rows_unique _ _ k r Hk) in E; [|done|].
    { by injection E as <-. }
    intros k' r' Hk' [Hid' Hn']. eapply (wf_unique d Hwf); eauto. congruence.
  - by exists k0, r0.
Qed.

(** ** A concrete store *)
Definition sample_env : Env := {|
  draw_uuid := λ n, (100 + N.of_nat n)%N;
  draw_clock_ms := λ n, 1000 + Z.of_nat n;
  draw_rand := λ n, Z.of_nat n;
  draw_now := λ n, 1000000 * (1 + Z.of_nat n);
|}.

Definition sample_postgres : Postgres := {|
  pg_real := Ok;
  pg_vector := λ v, v;
  pg_cosine_distance := λ v w, if forallb id (zip_with feq v w) then f0 else f1;
|}.

Definition sample_unit (id : uuid) (name : str) (status : MemoryStatus) : MemoryUnit := {|
  m_id := id; m_principal_id := lit "p"; m_label := name; m_body := lit "body " ++ name;
  m_kind := Kfact; m_keywords := []; m_embedding := [f1]; m_embedding_model := lit "m";
  m_project_key := None; m_thread_origin := None; m_origin_thread_id := None;
  m_origin_path := None; m_origin_location := None; m_origin_locations := []; m_run_id := None;
  m_origin_agent := None; m_pin := false; m_status := status; m_revision := 1; m_stats := [];
  m_bias := f0; m_created_at := 0; m_updated_at := 0 |}.

Definition root_revision (u : MemoryUnit) (uid : str) : MemoryRevision := {|
  r_rev_uid := uid; r_parent_uid := None; r_memory_id := m_id u; r_revision := Some 1;
  r_body := m_body u; r_label := m_label u; r_editor := lit "user";
  r_origin_machine_id := lit "m"; r_reason := []; r_ts := 0 |}.

Definition sample_uid (n : Z) : str := mint_ulid 1 n.

Definition sample_head : MemoryUnit := sample_unit 7 (lit "tea") Sactive.
Definition sample_db : db := put_head sample_head (root_revision sample_head (sample_uid 1)) empty_db.
Definition sample_world : world :=
  {| w_db := sample_db; w_tick := 0; w_tx_now := 5; w_in_tx := true |}.

Definition sample_cas (n : Z) : CasUpdate := {|
  cu_memory_id := 7%N; cu_expected_revision := 1; cu_rev_uid := sample_uid n;
  cu_editor := lit "user"; cu_origin_machine_id := lit "m";
  cu_changes := status_change Stombstoned; cu_reason := [] |}.

Lemma sample_db_wf : wf sample_db.
Proof. apply wf_put_head; [apply wf_empty|]. vm_compute. repeat split. Qed.


Definition run_of {A} (r : res exn A * world) : world := r.2.

Lemma cas_one_winner_witness :
  let first := @cas_update_memory_unit sample_postgres (sample_cas 2) sample_world in
  ∃ row, @cas_update_memory_unit sample_postgres (sample_cas 3) first.2
         = (Err (MemoryCasConflictError row), first.2).
Proof.
  eexists. eapply (@cas_one_winner sample_postgres (sample_cas 2) (sample_cas 3) sample_world).
  - exact sample_db_wf.
  - vm_compute. reflexivity.
  - vm_compute. repeat split.
  - reflexivity.
  - reflexivity.
Defined.

Lemma cas_keeps_lineage_witness :
  wf (w_db (@cas_update_memory_unit sample_postgres (sample_cas 2) sample_world).2).
Proof. exact (proj1 (@cas_keeps_lineage sample_postgres (sample_cas 2) sample_world sample_db_wf)). Defined.

Lemma history_complete_witness : (length (parent_uids 7 1 sample_db) ≤ 1)%nat.
Proof.
  exact (proj1 (proj2 (history_complete sample_db 7 sample_head sample_db_wf ltac:(vm_compute; reflexivity))) 1).
Defined.
