(* ===== verification/MemoryService.v ===== *)
(** * The memory service: [src/src/spine/memory/service.py]

    Creation with its dedup bands, exact splits, queue candidates, curator
    replacements, Symphony staging, compare-and-set patches, listing and
    search, over the tables of [Store] and the writes of [MemoryDb]. *)
From S2P Require Import Prelude PyStr PyFloat PyJson PyPath Ids Scorer Embeddings Store MemoryDb.
Open Scope Z_scope.

Definition EMBEDDING_DIMENSIONS : Z := 1536.
Definition ACTIVE_LABEL_CONSTRAINT : string := "memory_unit_active_label".

(** [MemoryService.__init__]: the settings and their validation. *)
Record MemorySettings := {
  dedup_dup : float;
  dedup_sim : float;
  label_max : Z;
  memory_max_tokens : Z;
}.

Definition settings_valid (s : MemorySettings) : bool :=
  fle f0 (dedup_sim s) && flt (dedup_sim s) (dedup_dup s) && fle (dedup_dup s) f1
  && negb ((label_max s <=? 0) || (memory_max_tokens s <=? 0)).

Record CreateMemoryCommand := {
  cm_principal_id : str;
  cm_label : str;
  cm_body : str;
  cm_kind : MemoryKind;
  cm_editor : str;
  cm_machine_id : str;
  cm_keywords : list str;
  cm_project_key : option str;
  cm_thread_origin : option str;
  cm_origin_thread_id : option uuid;
  cm_origin_path : option str;
  cm_origin_location : option str;
  cm_origin_locations : list str;
  cm_force : bool;
  cm_parent_uid : option str;
  cm_revision_reason : str;
}.

Record SplitMemoryChild := {
  sp_label : str;
  sp_body : str;
  sp_keywords : list str;
}.

Record PreparedSplitChild := {
  ps_label : str;
  ps_body : str;
  ps_keywords : list str;
  ps_embedding : list float;
}.

Record SplitMemoryCommand := {
  sc_principal_id : str;
  sc_source_body : str;
  sc_children : list SplitMemoryChild;
  sc_editor : str;
  sc_machine_id : str;
  sc_project_key : option str;
  sc_thread_origin : option str;
  sc_origin_thread_id : option uuid;
  sc_origin_path : option str;
  sc_origin_location : option str;
}.

(** Omitted and null PATCH properties read alike ([_provided]). *)
Record PatchMemoryCommand := {
  pm_memory_id : uuid;
  pm_expected_revision : Z;
  pm_editor : str;
  pm_reason : str;
  pm_machine_id : str;
  pm_body : option str;
  pm_label : option str;
  pm_keywords : option (list str);
  pm_kind : option MemoryKind;
  pm_origin_path : option str;
  pm_pin : option bool;
  pm_status : option MemoryStatus;
}.

Record ListMemoriesQuery := {
  lq_project_key : option str;
  lq_status : option MemoryStatus;
  lq_q : option str;
  lq_limit : Z;
  lq_offset : Z;
}.

Record SearchMemoriesQuery := {
  sq_principal_id : str;
  sq_query : str;
  sq_k : Z;
  sq_project_key : option str;
}.

Inductive CreateResult :=
  | MemoryCreated (memory : MemoryUnit)
  | SimilarMemories (similar : list SimilarityMemoryCard).

Inductive SplitResult :=
  | MemorySplitCreated (source : MemoryUnit) (created : list MemoryUnit)
  | SplitSimilar (similar : list SimilarityMemoryCard).

Record CandidateCreated := {
  cc_memory : MemoryUnit;
  cc_neighbors : list SimilarityMemoryCard;
}.

Inductive band := distinct | similar | duplicate.

#[export] Instance band_eq_dec : EqDecision band.
Proof. solve_decision. Defined.

(** [_classify_dedup_score]. *)
Definition classify_dedup_score (s : MemorySettings) (score : option float) : band :=
  match score with
  | None => distinct
  | Some x =>
      if flt x (dedup_sim s) then distinct
      else if flt x (dedup_dup s) then similar
      else duplicate
  end.

(** [ORDER BY score DESC, id ASC]. *)
Definition card_leb (a b : SimilarityMemoryCard) : bool :=
  pg_ltb (card_score b) (card_score a)
  || (pg_leb (card_score b) (card_score a) && (card_memory_id a <=? card_memory_id b)%N).

(** [_find_active_label], optionally past one memory. *)
Definition active_label_rows (d : db) (principal_id label : str) (exclude : option uuid) :
    list MemoryUnit :=
  sort_by (λ a b, (m_id a <=? m_id b)%N)
    (filter (λ u, m_principal_id u = principal_id ∧ m_label u = label ∧ m_status u = Sactive ∧
                  exclude ≠ Some (m_id u)) (rows (units d))).

Definition find_active_label (d : db) (principal_id label : str) (exclude : option uuid) :
    option MemoryUnit := head (active_label_rows d principal_id label exclude).

(** [_rejected_body]: some rejected card of the principal names a tombstoned
    memory with exactly this body.  The digest comparison the query starts
    with is implied by the comparison of the bodies. *)
Definition rejected_body (d : db) (principal_id body : str) : option uuid :=
  head (m_id <$> filter (λ u,
    m_principal_id u = principal_id ∧ m_status u = Stombstoned ∧ m_body u = body ∧
    Exists (λ q, q_candidate_memory_id q = m_id u ∧ q_principal_id q = principal_id ∧
                 q_state q = rejected) (rows (items d))) (rows (units d))).

Definition default_stats : list (str * json) :=
  [(lit "injections", JInt 0); (lit "removals", JInt 0); (lit "citations", JInt 0);
   (lit "never_kills", JInt 0); (lit "last_injected_at", JNull)].

(** [_agent_from_editor]. *)
Definition agent_from_editor (editor : str) : option str :=
  if startswith (lit "agent:") editor then
    match strip (drop 6 editor) with [] => None | agent => Some agent end
  else None.

(** [_escape_ilike]. *)
Definition escape_ilike (value : str) : str :=
  replace_char 95 (lit "\_") (replace_char 37 (lit "\%") (replace_char 92 (lit "\\") value)).

Definition provided_any (c : PatchMemoryCommand) : bool :=
  some (pm_body c) || some (pm_label c) || some (pm_keywords c) || some (pm_kind c)
  || some (pm_origin_path c) || some (pm_pin c) || some (pm_status c).

Definition REJECTED_MESSAGE : string :=
  "This exact memory was rejected. Change the fact before saving it again.".

Section service.
Context {EN : Env} {PG : Postgres} {TK : Tokenizer} {EP : EmbeddingProvider} {UC : Unicode}.
Context (settings : MemorySettings).

(** [_validate_label] and [_validate_body]. *)
Definition validate_label (label : str) : M unit :=
  require (zlen label <=? label_max settings)
    (MemoryValidationError "label exceeds the maximum of Unicode code points").
Definition validate_body (body : str) : M unit :=
  require (cl100k_token_count body <=? memory_max_tokens settings)
    (MemoryValidationError "body exceeds the maximum of cl100k_base tokens").

Definition embed (text : str) : M (list float) :=
  lift EmbeddingProviderError (embed_one text (Some EMBEDDING_DIMENSIONS)).

Definition card_of (embedding : list float) (u : MemoryUnit) : SimilarityMemoryCard := {|
  card_memory_id := m_id u; card_label := m_label u; card_body := m_body u; card_kind := m_kind u;
  card_pin := m_pin u; card_score := fsub f1 (pg_cosine_distance (m_embedding u) embedding) |}.

(** [_dedup_matches]. *)
Definition dedup_matches (d : db) (principal_id : str) (embedding : list float)
    (statuses : list MemoryStatus) (exclude : list uuid) : list SimilarityMemoryCard :=
  sort_by card_leb (filter (λ c, pg_leb (dedup_sim settings) (card_score c) = true)
    (card_of embedding <$>
       filter (λ u, m_principal_id u = principal_id ∧ m_status u ∈ statuses ∧ m_id u ∉ exclude)
         (rows (units d)))).

(** [_insert_root]: the head at revision 1 and its root revision row. *)
Definition root_unit (c : CreateMemoryCommand) (embedding : list float) (status : MemoryStatus)
    (id : uuid) (run_id origin_agent : option str) (now : Z) : MemoryUnit := {|
  m_id := id; m_principal_id := cm_principal_id c; m_label := cm_label c; m_body := cm_body c;
  m_kind := cm_kind c; m_keywords := cm_keywords c; m_embedding := pg_vector embedding;
  m_embedding_model := provider_model; m_project_key := cm_project_key c;
  m_thread_origin := cm_thread_origin c; m_origin_thread_id := cm_origin_thread_id c;
  m_origin_path := cm_origin_path c; m_origin_location := cm_origin_location c;
  m_origin_locations := cm_origin_locations c; m_run_id := run_id; m_origin_agent := origin_agent;
  m_pin := false; m_status := status; m_revision := 1; m_stats := default_stats; m_bias := f0;
  m_created_at := now; m_updated_at := now |}.

Definition root_row (c : CreateMemoryCommand) (u : MemoryUnit) (rev_uid : str) (now : Z) :
    MemoryRevision := {|
  r_rev_uid := rev_uid; r_parent_uid := cm_parent_uid c; r_memory_id := m_id u;
  r_revision := Some 1; r_body := m_body u; r_label := m_label u; r_editor := cm_editor c;
  r_origin_machine_id := cm_machine_id c; r_reason := cm_revision_reason c; r_ts := now |}.

Definition insert_root (c : CreateMemoryCommand) (embedding : list float) (status : MemoryStatus)
    (memory_id : option uuid) (run_id origin_agent : option str) : M MemoryUnit :=
  id <-! match memory_id with Some id => ret id | None => gen_random_uuid end;
  t <-! now;
  row <-! insert_unit (root_unit c embedding status id run_id origin_agent t);
  rev_uid <-! mint;
  insert_revision (root_row c row rev_uid t) ;!
  ret row.

Definition new_root (c : CreateMemoryCommand) (embedding : list float) (status : MemoryStatus) :
    M MemoryUnit := insert_root c embedding status None None None.

(** [except IntegrityError]: translate a lost label race. *)
Definition on_label_race {A} (labels : list str) (principal_id : str) (m : M A) : M A :=
  try_catch m (λ e,
    match e with
    | IntegrityError name =>
        if String.eqb name ACTIVE_LABEL_CONSTRAINT then
          d <-! get_db;
          match head (omap (λ label, find_active_label d principal_id label None) labels) with
          | Some conflict => raise (LabelConflictError (m_id conflict) (m_label conflict))
          | None => raise e
          end
        else raise e
    | _ => raise e
    end).

Definition refuse_label_conflict (principal_id label : str) : M unit :=
  d <-! get_db;
  match find_active_label d principal_id label None with
  | Some conflict => raise (LabelConflictError (m_id conflict) (m_label conflict))
  | None => ret tt
  end.

Definition refuse_rejected (principal_id body : str) : M unit :=
  d <-! get_db;
  require (negb (some (rejected_body d principal_id body))) (MemoryValidationError REJECTED_MESSAGE).

(** [MemoryService.create]. *)
Definition create (c : CreateMemoryCommand) : M CreateResult :=
  validate_label (cm_label c) ;!
  validate_body (cm_body c) ;!
  embedding <-! embed (cm_body c);
  transaction (
    d <-! get_db;
    let matches := dedup_matches d (cm_principal_id c) embedding [Sactive] [] in
    refuse_rejected (cm_principal_id c) (cm_body c) ;!
    let b := classify_dedup_score settings (card_score <$> head matches) in
    match b, matches with
    | duplicate, top :: _ => raise (DuplicateMemoryError top)
    | _, _ =>
        refuse_label_conflict (cm_principal_id c) (cm_label c) ;!
        if match b with similar => negb (cm_force c) | _ => false end
        then ret (SimilarMemories matches)
        else
          row <-! on_label_race [cm_label c] (cm_principal_id c)
                    (savepoint (new_root c embedding Sactive));
          ret (MemoryCreated row)
    end).

(** [_validate_split_keywords]. *)
Definition keyword_ok (keyword : str) : bool :=
  bool_decide (keyword ≠ []) && bool_decide (keyword = strip keyword)
  && bool_decide (keyword = py_lower keyword).

Definition validate_split_keyword (seen : list str) (keyword : str) : M (list str) :=
  require (keyword_ok keyword)
    (MemoryValidationError "split child keywords must be trimmed nonblank lowercase terms") ;!
  require (bool_decide (keyword ∉ seen))
    (MemoryValidationError "split child keywords must be distinct") ;!
  ret (keyword :: seen).

Definition validate_split_keywords (keywords : list str) : M unit :=
  require ((2 <=? zlen keywords) && (zlen keywords <=? 5))
    (MemoryValidationError "split children require 2-5 keywords") ;!
  fold_m validate_split_keyword [] keywords ;!
  ret tt.

(** One child in the loop of [_validate_split], with the labels and stripped
    bodies seen so far. *)
Definition validate_split_child (seen : list str * list str) (child : SplitMemoryChild) :
    M (list str * list str) :=
  let '(labels, bodies) := seen in
  require (negb (blank (sp_label child)) && bool_decide (sp_label child = strip (sp_label child))
           && negb (mem_char 10 (sp_label child)) && negb (mem_char 13 (sp_label child)))
    (MemoryValidationError "split child labels must be nonblank trimmed single lines") ;!
  validate_label (sp_label child) ;!
  require (bool_decide (sp_label child ∉ labels))
    (MemoryValidationError "split child labels must be distinct") ;!
  require (negb (blank (sp_body child)))
    (MemoryValidationError "split child bodies must be nonblank") ;!
  validate_body (sp_body child) ;!
  require (bool_decide (strip (sp_body child) ∉ bodies))
    (MemoryValidationError "split child bodies must be distinct") ;!
  validate_split_keywords (sp_keywords child) ;!
  ret (sp_label child :: labels, strip (sp_body child) :: bodies).

Definition validate_split (c : SplitMemoryCommand) : M unit :=
  require (negb (blank (sc_source_body c)))
    (MemoryValidationError "split source_body must be nonblank") ;!
  require ((2 <=? zlen (sc_children c)) && (zlen (sc_children c) <=? 64))
    (MemoryValidationError "memory split requires between 2 and 64 children") ;!
  validate_label (lit "Split source") ;!
  fold_m validate_split_child ([], []) (sc_children c) ;!
  ret tt.

(** Edges in both directions between distinct members of a family. *)
Definition relate (type : EdgeType) (from to_ : uuid) : M unit :=
  uid <-! mint;
  t <-! now;
  insert_edge {| e_edge_uid := uid; e_from_memory_id := from; e_to_memory_id := to_;
                 e_edge_type := type; e_created_at := t |}.

Definition relate_family (ids : list uuid) : M unit :=
  for_each ids (λ left, for_each ids (λ right,
    if (left =? right)%N then ret tt else relate relates_to left right)).

Definition split_source_command (c : SplitMemoryCommand) : CreateMemoryCommand := {|
  cm_principal_id := sc_principal_id c; cm_label := lit "Split source"; cm_body := sc_source_body c;
  cm_kind := Kfact; cm_editor := sc_editor c; cm_machine_id := sc_machine_id c;
  cm_keywords := [lit "split"; lit "source"]; cm_project_key := sc_project_key c;
  cm_thread_origin := sc_thread_origin c; cm_origin_thread_id := sc_origin_thread_id c;
  cm_origin_path := sc_origin_path c; cm_origin_location := sc_origin_location c;
  cm_origin_locations := []; cm_force := false; cm_parent_uid := None;
  cm_revision_reason := lit "remember/source-split" |}.

Definition split_child_command (c : SplitMemoryCommand) (parent : str) (child : SplitMemoryChild) :
    CreateMemoryCommand := {|
  cm_principal_id := sc_principal_id c; cm_label := sp_label child; cm_body := sp_body child;
  cm_kind := Kfact; cm_editor := sc_editor c; cm_machine_id := sc_machine_id c;
  cm_keywords := sp_keywords child; cm_project_key := sc_project_key c;
  cm_thread_origin := sc_thread_origin c; cm_origin_thread_id := sc_origin_thread_id c;
  cm_origin_path := sc_origin_path c; cm_origin_location := sc_origin_location c;
  cm_origin_locations := []; cm_force := false; cm_parent_uid := Some parent;
  cm_revision_reason := lit "remember/split-child" |}.

(** The revision-1 row of a memory just written. *)
Definition root_revision_uid (id : uuid) : M str :=
  d <-! get_db;
  match parent_uids id 1 d with
  | uid :: _ => ret uid
  | [] => raise (RuntimeError "split source revision was not written")
  end.

(** The writes of a split, inside one savepoint. *)
Definition write_split (c : SplitMemoryCommand) (source_embedding : list float)
    (child_embeddings : list (list float)) : M (MemoryUnit * list MemoryUnit) :=
  source_row <-! new_root (split_source_command c) source_embedding Stombstoned;
  parent <-! root_revision_uid (m_id source_row);
  child_rows <-! map_m (λ ce, new_root (split_child_command c parent (fst ce)) (snd ce) Sactive)
                   (zip (sc_children c) child_embeddings);
  relate_family (m_id <$> child_rows) ;!
  ret (source_row, child_rows).

(** The per-child checks in the locked pass: the first refusal decides. *)
Fixpoint check_split_children (c : SplitMemoryCommand) (l : list (SplitMemoryChild * list float)) :
    M (option (list SimilarityMemoryCard)) :=
  match l with
  | [] => ret None
  | (child, embedding) :: l' =>
      refuse_label_conflict (sc_principal_id c) (sp_label child) ;!
      d <-! get_db;
      let matches := dedup_matches d (sc_principal_id c) embedding [Sactive] [] in
      match classify_dedup_score settings (card_score <$> head matches), matches with
      | duplicate, top :: _ => raise (DuplicateMemoryError top)
      | similar, _ => ret (Some matches)
      | _, _ => check_split_children c l'
      end
  end.

(** [MemoryService.split]. *)
Definition split (c : SplitMemoryCommand) : M SplitResult :=
  validate_split c ;!
  for_each (sc_children c) (λ child, refuse_label_conflict (sc_principal_id c) (sp_label child)) ;!
  source_embedding <-! embed (sc_source_body c);
  child_embeddings <-! map_m (λ child, embed (sp_body child)) (sc_children c);
  transaction (
    for_each (sc_source_body c :: (sp_body <$> sc_children c)) (refuse_rejected (sc_principal_id c)) ;!
    refused <-! check_split_children c (zip (sc_children c) child_embeddings);
    match refused with
    | Some matches => ret (SplitSimilar matches)
    | None =>
        family <-! on_label_race (sp_label <$> sc_children c) (sc_principal_id c)
                     (savepoint (write_split c source_embedding child_embeddings));
        ret (MemorySplitCreated (fst family) (snd family))
    end).

(** [MemoryService.create_candidate]. *)
Definition create_candidate (c : CreateMemoryCommand) (replaces : list uuid) :
    M (option CandidateCreated) :=
  validate_label (cm_label c) ;!
  validate_body (cm_body c) ;!
  transaction (
    d <-! get_db;
    match rejected_body d (cm_principal_id c) (cm_body c) with
    | Some _ => ret None
    | None =>
        embedding <-! embed (cm_body c);
        let matches := dedup_matches d (cm_principal_id c) embedding [Sactive; Scandidate] [] in
        let top := head (filter (λ m, card_memory_id m ∉ replaces) matches) in
        if match top with Some m => fle (dedup_dup settings) (card_score m) | None => false end
        then ret None
        else
          row <-! new_root c embedding Scandidate;
          ret (Some {| cc_memory := row; cc_neighbors := matches |})
    end).

(** [MemoryService.create_curator_candidate]. *)
Definition create_curator_candidate (c : CreateMemoryCommand) (exclude_memory_ids : list uuid) :
    M (option CandidateCreated) :=
  validate_label (cm_label c) ;!
  validate_body (cm_body c) ;!
  embedding <-! embed (cm_body c);
  transaction (
    d <-! get_db;
    let matches := dedup_matches d (cm_principal_id c) embedding [Sactive; Scandidate]
                     exclude_memory_ids in
    if match matches with m :: _ => fle (dedup_dup settings) (card_score m) | [] => false end
    then ret None
    else
      row <-! new_root c embedding Scandidate;
      ret (Some {| cc_memory := row; cc_neighbors := matches |})).

(** [MemoryService.prepare_curator_amendment]. *)
Definition amendment_changes (body : str) (embedding : list float) : MemoryUnitChanges := {|
  ch_label := None; ch_body := Some body; ch_kind := None; ch_keywords := None;
  ch_embedding := Some embedding; ch_embedding_model := Some provider_model;
  ch_project_key := None; ch_thread_origin := None; ch_origin_thread_id := None;
  ch_origin_path := None; ch_origin_location := None; ch_pin := None; ch_status := Some Sactive;
  ch_stats := None; ch_bias := None |}.

Definition prepare_curator_amendment (body : str) : M MemoryUnitChanges :=
  validate_body body ;!
  embedding <-! embed body;
  ret (amendment_changes body embedding).

(** [MemoryService.prepare_curator_split]: the loop carries labels, bodies and
    the children prepared so far. *)
Definition prepare_split_child (st : list str * list str * list PreparedSplitChild)
    (child : SplitMemoryChild) : M (list str * list str * list PreparedSplitChild) :=
  let '(labels, bodies, prepared) := st in
  validate_label (sp_label child) ;!
  validate_body (sp_body child) ;!
  validate_split_keywords (sp_keywords child) ;!
  require (negb (bool_decide (sp_label child ∈ labels) || bool_decide (sp_body child ∈ bodies)))
    (MemoryValidationError "curator split children must have distinct labels and bodies") ;!
  embedding <-! embed (sp_body child);
  ret (sp_label child :: labels, sp_body child :: bodies,
       prepared ++ [{| ps_label := sp_label child; ps_body := sp_body child;
                       ps_keywords := sp_keywords child; ps_embedding := embedding |}]).

Definition prepare_curator_split (children : list SplitMemoryChild) : M (list PreparedSplitChild) :=
  require ((2 <=? zlen children) && (zlen children <=? 64))
    (MemoryValidationError "a curator split requires 2 to 64 children") ;!
  st <-! fold_m prepare_split_child ([], [], []) children;
  ret st.2.

(** [MemoryService.enact_curator_split], inside the caller's transaction. *)
Definition curation_reason (finding_uid suffix : str) : str :=
  lit "curation/" ++ finding_uid ++ lit "/" ++ suffix.

Definition curator_child_command (source : MemoryUnit) (machine_id finding_uid parent : str)
    (child : PreparedSplitChild) : CreateMemoryCommand := {|
  cm_principal_id := m_principal_id source; cm_label := ps_label child; cm_body := ps_body child;
  cm_kind := m_kind source; cm_editor := lit "maintenance"; cm_machine_id := machine_id;
  cm_keywords := ps_keywords child; cm_project_key := m_project_key source;
  cm_thread_origin := m_thread_origin source; cm_origin_thread_id := m_origin_thread_id source;
  cm_origin_path := m_origin_path source; cm_origin_location := m_origin_location source;
  cm_origin_locations := m_origin_locations source; cm_force := false;
  cm_parent_uid := Some parent;
  cm_revision_reason := curation_reason finding_uid (lit "split-child") |}.

Definition enact_curator_split (source : MemoryUnit) (children : list PreparedSplitChild)
    (machine_id finding_uid : str) : M (list uuid) :=
  require (bool_decide (m_status source = Sactive))
    (MemoryValidationError "curator split source is no longer active") ;!
  tombstone_revision_uid <-! mint;
  cas_update_memory_unit {|
    cu_memory_id := m_id source; cu_expected_revision := m_revision source;
    cu_rev_uid := tombstone_revision_uid; cu_editor := lit "maintenance";
    cu_origin_machine_id := machine_id; cu_changes := status_change Stombstoned;
    cu_reason := curation_reason finding_uid (lit "split-source") |} ;!
  child_rows <-! map_m (λ child,
      new_root (curator_child_command source machine_id finding_uid tombstone_revision_uid child)
        (ps_embedding child) Sactive) children;
  relate_family (m_id <$> child_rows) ;!
  ret (m_id <$> child_rows).

(** [_staged_replay_row]: the row already stored under a client-minted id,
    provided it is the very same staging. *)
Definition staged_matches (c : CreateMemoryCommand) (u : MemoryUnit) : bool :=
  bool_decide (m_principal_id u = cm_principal_id c) && bool_decide (m_label u = cm_label c)
  && bool_decide (m_body u = cm_body c) && bool_decide (m_kind u = cm_kind c)
  && bool_decide (m_keywords u = cm_keywords c) && bool_decide (m_project_key u = cm_project_key c)
  && bool_decide (m_origin_thread_id u = cm_origin_thread_id c)
  && bool_decide (m_origin_path u = cm_origin_path c)
  && bool_decide (m_origin_location u = cm_origin_location c)
  && bool_decide (m_status u = Sstaged).

Definition provenance_matches (c : CreateMemoryCommand) (r : MemoryRevision) : bool :=
  bool_decide (r_editor r = cm_editor c)
  && bool_decide (r_origin_machine_id r = cm_machine_id c)
  && bool_decide (r_reason r = cm_revision_reason c).

Definition root_rows (d : db) (memory_id : uuid) : list MemoryRevision :=
  filter (λ r, r_memory_id r = memory_id ∧ r_revision r = Some 1) (rows (revisions d)).

Definition staged_replay_row (memory_id : uuid) (c : CreateMemoryCommand) : M (option MemoryUnit) :=
  d <-! get_db;
  match units d !! memory_id with
  | None => ret None
  | Some row =>
      revision <-! one_or_none (root_rows d memory_id);
      match revision with
      | None => raise (StagedMemoryConflictError "memory_id already names a different memory")
      | Some revision =>
          require (staged_matches c row)
            (StagedMemoryConflictError "memory_id already names a different memory") ;!
          require (provenance_matches c revision)
            (StagedMemoryConflictError "memory_id already names different staging provenance") ;!
          ret (Some row)
      end
  end.

(** [_require_staged_identity]. *)
Definition require_staged_identity (row : MemoryUnit) (run_id origin_agent : str) : M unit :=
  require (bool_decide (m_run_id row = Some run_id)
           && bool_decide (m_origin_agent row = Some origin_agent))
    (StagedMemoryConflictError "memory_id already names a different run attempt").

(** [MemoryService.stage_symphony]. *)
Definition stage_symphony (c : CreateMemoryCommand) (memory_id : uuid) (run_id origin_agent : str) :
    M MemoryUnit :=
  validate_label (cm_label c) ;!
  validate_body (cm_body c) ;!
  existing <-! staged_replay_row memory_id c;
  match existing with
  | Some row => require_staged_identity row run_id origin_agent ;! ret row
  | None =>
      embedding <-! embed (cm_body c);
      transaction (
        existing <-! staged_replay_row memory_id c;
        match existing with
        | Some row => require_staged_identity row run_id origin_agent ;! ret row
        | None =>
            insert_root c embedding Sstaged (Some memory_id) (Some run_id) (Some origin_agent)
        end)
  end.

(** [MemoryService.create_split_source]. *)
Definition create_split_source (c : CreateMemoryCommand) : M (MemoryUnit * str) :=
  validate_label (cm_label c) ;!
  embedding <-! embed (cm_body c);
  transaction (
    row <-! new_root c embedding Stombstoned;
    revision_uid <-! root_revision_uid (m_id row);
    ret (row, revision_uid)).

(** [MemoryService.patch]: the reads and checks before the transaction. *)
Definition REINFORCE : str := lit "remember/reinforce".

Definition reinforced_stats (stats : list (str * json)) : M (list (str * json)) :=
  match default (JInt 0) (aget (lit "reinforcements") stats) with
  | JInt n =>
      require (0 <=? n) (RuntimeError "memory reinforcement count is invalid") ;!
      ret (aset (lit "reinforcements") (JInt (n + 1)) stats)
  | _ => raise (RuntimeError "memory reinforcement count is invalid")
  end.

Definition only_unchanged_body (c : PatchMemoryCommand) (current : MemoryUnit) : bool :=
  bool_decide (pm_body c = Some (m_body current))
  && negb (some (pm_label c) || some (pm_keywords c) || some (pm_kind c)
           || some (pm_origin_path c) || some (pm_pin c) || some (pm_status c)).

Definition patch_changes (c : PatchMemoryCommand) (embedding : option (list float))
    (stats : option (list (str * json))) : MemoryUnitChanges := {|
  ch_label := pm_label c; ch_body := pm_body c; ch_kind := pm_kind c;
  ch_keywords := pm_keywords c; ch_embedding := embedding;
  ch_embedding_model := (λ _, provider_model) <$> embedding; ch_project_key := None;
  ch_thread_origin := None; ch_origin_thread_id := None;
  ch_origin_path := Some <$> pm_origin_path c; ch_origin_location := None;
  ch_pin := pm_pin c; ch_status := pm_status c; ch_stats := stats; ch_bias := None |}.

Definition patch_preflight (c : PatchMemoryCommand) : M MemoryUnitChanges :=
  require (provided_any c) EmptyPatchError ;!
  d <-! get_db;
  match units d !! pm_memory_id c with
  | None => raise (MemoryNotFoundError (pm_memory_id c))
  | Some current =>
      let is_reinforcement := bool_decide (pm_reason c = REINFORCE) in
      require (negb (is_reinforcement && negb (only_unchanged_body c current)))
        (MemoryValidationError
           "remember/reinforce requires the unchanged current body and no other changes") ;!
      match pm_body c with Some body => validate_body body | None => ret tt end ;!
      match pm_label c with Some label => validate_label label | None => ret tt end ;!
      embedding <-! match pm_body c with
                    | Some body => e <-! embed body; ret (Some e) | None => ret None end;
      stats <-! (if is_reinforcement
                 then s <-! reinforced_stats (m_stats current); ret (Some s) else ret None);
      ret (patch_changes c embedding stats)
  end.

(** [_patch_label_conflict]. *)
Definition patch_label_conflict (d : db) (c : PatchMemoryCommand) (changes : MemoryUnitChanges) :
    option MemoryUnit :=
  current ← units d !! pm_memory_id c;
  if bool_decide (default (m_status current) (ch_status changes) = Sactive) then
    find_active_label d (m_principal_id current) (default (m_label current) (ch_label changes))
      (Some (pm_memory_id c))
  else None.

(** The write, with the database's errors translated. *)
Definition patch_write (c : PatchMemoryCommand) (changes : MemoryUnitChanges) : M MemoryUnit :=
  transaction (
    rev_uid <-! mint;
    try_catch (cas_update_memory_unit {|
        cu_memory_id := pm_memory_id c; cu_expected_revision := pm_expected_revision c;
        cu_rev_uid := rev_uid; cu_editor := pm_editor c; cu_origin_machine_id := pm_machine_id c;
        cu_changes := changes; cu_reason := pm_reason c |})
      (λ e, match e with
            | MemoryUnitNotFoundError id => raise (MemoryNotFoundError id)
            | MemoryCasConflictError current => raise (RevisionConflictError current)
            | IntegrityError name =>
                if String.eqb name ACTIVE_LABEL_CONSTRAINT then
                  d <-! get_db;
                  match patch_label_conflict d c changes with
                  | Some conflict => raise (LabelConflictError (m_id conflict) (m_label conflict))
                  | None => raise e
                  end
                else raise e
            | _ => raise e
            end)).

Definition patch (c : PatchMemoryCommand) : M MemoryUnit :=
  changes <-! patch_preflight c;
  patch_write c changes.

(** [MemoryService.backfill_projects]: [projects] is a mapping. *)
Definition with_project (p : str) (t : Z) (u : MemoryUnit) : MemoryUnit := {|
  m_id := m_id u; m_principal_id := m_principal_id u; m_label := m_label u; m_body := m_body u;
  m_kind := m_kind u; m_keywords := m_keywords u; m_embedding := m_embedding u;
  m_embedding_model := m_embedding_model u; m_project_key := Some p;
  m_thread_origin := m_thread_origin u; m_origin_thread_id := m_origin_thread_id u;
  m_origin_path := m_origin_path u; m_origin_location := m_origin_location u;
  m_origin_locations := m_origin_locations u; m_run_id := m_run_id u;
  m_origin_agent := m_origin_agent u; m_pin := m_pin u; m_status := m_status u;
  m_revision := m_revision u; m_stats := m_stats u; m_bias := m_bias u;
  m_created_at := m_created_at u; m_updated_at := t |}.

Definition backfilled (principal_id : str) (projects : gmap uuid str) (t : Z) (u : MemoryUnit) :
    option MemoryUnit :=
  if bool_decide (m_principal_id u = principal_id) && bool_decide (m_project_key u = None) then
    thread ← m_origin_thread_id u;
    p ← projects !! thread;
    Some (with_project p t u)
  else None.

Definition backfill_projects (principal_id : str) (projects : gmap uuid str) : M Z :=
  transaction (
    d <-! get_db;
    t <-! now;
    let touched := omap (backfilled principal_id projects t) (units d) in
    put_db (set_units (touched ∪ units d) d) ;!
    ret (Z.of_nat (size touched))).

(** [MemoryService.list]; [ilike pattern text] is PostgreSQL's operator. *)
Definition list_filter (ilike : str → str → bool) (q : ListMemoriesQuery) (u : MemoryUnit) : bool :=
  match lq_status q with
  | None => negb (bool_decide (m_status u ∈ [Scandidate; Sstaged]))
  | Some s => bool_decide (m_status u = s)
  end
  && match lq_project_key q with
     | None => true | Some p => bool_decide (m_project_key u = Some p) end
  && match lq_q q with
     | None => true
     | Some text =>
         match strip text with
         | [] => true
         | term => let pattern := lit "%" ++ escape_ilike term ++ lit "%" in
                   ilike pattern (m_label u) || ilike pattern (m_body u)
         end
     end.

(** [ORDER BY updated_at DESC, id ASC]. *)
Definition recent_leb (a b : MemoryUnit) : bool :=
  (m_updated_at b <? m_updated_at a)
  || ((m_updated_at b =? m_updated_at a) && (m_id a <=? m_id b)%N).

Definition list_matching (ilike : str → str → bool) (q : ListMemoriesQuery) (d : db) :
    list MemoryUnit :=
  sort_by recent_leb (filter (λ u, list_filter ilike q u = true) (rows (units d))).

(** The page and the total. *)
Definition list_memories (ilike : str → str → bool) (q : ListMemoriesQuery) :
    M (list MemoryUnit * Z) :=
  require ((1 <=? lq_limit q) && (lq_limit q <=? 200))
    (InvalidListQueryError "limit must satisfy 1 <= limit <= 200") ;!
  require (0 <=? lq_offset q)
    (InvalidListQueryError "offset must be greater than or equal to zero") ;!
  d <-! get_db;
  let matching := list_matching ilike q d in
  ret (take (Z.to_nat (lq_limit q)) (drop (Z.to_nat (lq_offset q)) matching), zlen matching).

(** [MemoryService.search]. *)
Definition search_rows (q : SearchMemoriesQuery) (embedding : list float) (d : db) :
    list SimilarityMemoryCard :=
  (λ p, p.2) <$> sort_by (λ a b, pg_ltb a.1 b.1
      || (pg_leb a.1 b.1 && (card_memory_id a.2 <=? card_memory_id b.2)%N))
    ((λ u, (pg_cosine_distance (m_embedding u) embedding, card_of embedding u)) <$>
      filter (λ u, m_principal_id u = sq_principal_id q ∧ m_status u = Sactive ∧
                   (sq_project_key q = None ∨ m_project_key u = None ∨
                    m_project_key u = sq_project_key q)) (rows (units d))).

Definition search (q : SearchMemoriesQuery) : M (list SimilarityMemoryCard) :=
  require ((1 <=? sq_k q) && (sq_k q <=? 50)) (InvalidSearchQueryError "k must satisfy 1 <= k <= 50") ;!
  embedding <-! embed (sq_query q);
  d <-! get_db;
  ret (take (Z.to_nat (sq_k q)) (search_rows q embedding d)).

(** [MemoryService.approval_label]. *)
Definition qualifier_of (candidate : MemoryUnit) : str :=
  match m_project_key candidate with
  | Some (c :: key) => path_name (parse_path (c :: key))
  | _ => default (lit "fact")
           (head (filter (λ word, infixb word (py_lower (m_label candidate)) = false)
                    (m_keywords candidate)))
  end.

Definition qualified_label (candidate : MemoryUnit) (attempt : Z) : str :=
  let number := if 1 <? attempt then 32%N :: str_of_Z attempt else [] in
  let suffix := [32%N; 183%N; 32%N]
                ++ slice_to (label_max settings / 2 - zlen number - 3) (qualifier_of candidate)
                ++ number in
  rstrip (slice_to (label_max settings - zlen suffix) (m_label candidate)) ++ suffix.

Fixpoint approval_label_loop (fuel : nat) (d : db) (candidate : MemoryUnit) (attempt : Z)
    (label : str) : option str :=
  match fuel with
  | O => None
  | S fuel' =>
      match find_active_label d (m_principal_id candidate) label None with
      | None => Some label
      | Some _ =>
          let attempt := attempt + 1 in
          approval_label_loop fuel' d candidate attempt (qualified_label candidate attempt)
      end
  end.

(** Enough attempts for every database: see [approval_label_total]. *)
Definition approval_fuel (d : db) : nat := (length (rows (units d)) + 3)%nat.

Definition approval_label (candidate : MemoryUnit) : M str :=
  d <-! get_db;
  match approval_label_loop (approval_fuel d) d candidate 0 (m_label candidate) with
  | Some label => ret label
  | None => raise (RuntimeError "unreachable: the loop ends")
  end.
End service.

(** ** The writes of the service, on success *)
Section facts.
Context {EN : Env} {PG : Postgres} {TK : Tokenizer} {EP : EmbeddingProvider} {UC : Unicode}.
Context (settings : MemorySettings).

Lemma insert_unit_ok u w a w' :
  insert_unit u w = (Ok a, w') →
  a = u ∧ unit_checked u ∧ units (w_db w) !! m_id u = None ∧ label_taken (w_db w) u = false ∧
  w' = with_db (set_units (<[m_id u := u]> (units (w_db w))) (w_db w)) w.
Proof.
  unfold insert_unit. intros H. apply bind_ok in H as (d & w1 & [<- <-]%ret_ok & H).
  apply bind_ok in H as ([] & w1 & [Hn <-]%require_ok & H). breflect.
  apply write_unit_ok in H as (-> & ? & ? & ->). auto.
Qed.

Lemma insert_root_ok c e status mid run agent w row w' :
  insert_root c e status mid run agent w = (Ok row, w') →
  ∃ id uid, row = root_unit c e status id run agent (w_tx_now w) ∧
    (∀ i, mid = Some i → id = i) ∧
    w_db w' = put_head row (root_row c row uid (w_tx_now w)) (w_db w) ∧
    w_tx_now w' = w_tx_now w ∧ w_in_tx w' = w_in_tx w ∧
    appends (w_db w) row (root_row c row uid (w_tx_now w)) ∧
    units (w_db w) !! id = None ∧ unit_checked row ∧
    (∀ p, cm_parent_uid c = Some p → is_Some (revisions (w_db w) !! p)).
Proof.
  unfold insert_root. intros H. apply bind_ok in H as (id & w1 & Hid & H).
  assert (w_db w1 = w_db w ∧ w_tx_now w1 = w_tx_now w ∧ w_in_tx w1 = w_in_tx w ∧
          ∀ i, mid = Some i → id = i) as (Hdb & Hnow & Htx & Hmid).
  { destruct mid as [i|]; [apply ret_ok in Hid as [<- <-]; repeat split; congruence|].
    unfold gen_random_uuid, bind, tick, ret in Hid. by injection Hid as <- <-. }
  apply bind_ok in H as (t & w2 & [<- <-]%ret_ok & H).
  apply bind_ok in H as (row' & w2 & (-> & Hc & Hfresh & Hl & ->)%insert_unit_ok & H).
  apply bind_ok in H as (uid & w3 & Hmint & H).
  unfold mint, bind, tick, ret in Hmint. injection Hmint as <- <-.
  apply bind_ok in H as (? & w3 & (Hr & _ & Hp & ->)%insert_revision_ok & H).
  apply ret_ok in H as [<- <-]. cbn in Hfresh, Hr, Hp. rewrite <- Hdb, <- Hnow, <- Htx. unfold appends. cbn.
  rewrite Hfresh. eexists id, _. by repeat (split; [done|]).
Qed.

Section lineage.
Context {I : db → Prop} {LI : Lineage I}.

Lemma insert_root_wf c e status mid run agent : keeps_ok I (insert_root c e status mid run agent).
Proof.
  intros w row w' Hw H. apply insert_root_ok in H as (id & uid & -> & _ & -> & _ & _ & Ha & _).
  by apply lineage_put_head.
Qed.

(** Edges and cards are outside the lineage invariant. *)
Lemma insert_edge_wf e : preserves I (insert_edge e).
Proof.
  intros w Hw. unfold insert_edge, bind, get_db, require, put_db, raise, ret.
  repeat case_match; simplify_eq; cbn; try done; by apply lineage_edges.
Qed.
Hint Resolve insert_root_wf insert_edge_wf : keeps.

Lemma new_root_wf c e status : keeps_ok I (new_root c e status).
Proof. apply insert_root_wf. Qed.

Lemma relate_family_wf ids : preserves I (relate_family ids).
Proof. unfold relate_family, relate. keeps. Qed.
Hint Resolve new_root_wf relate_family_wf : keeps.

Lemma embed_wf text : preserves I (embed text).
Proof. apply preserves_lift. Qed.

Lemma validate_label_wf l : preserves I (validate_label settings l).
Proof. apply preserves_require. Qed.

Lemma validate_body_wf b : preserves I (validate_body settings b).
Proof. apply preserves_require. Qed.

Lemma refuse_label_conflict_wf p l : preserves I (refuse_label_conflict p l).
Proof. unfold refuse_label_conflict. keeps. Qed.

Lemma refuse_rejected_wf p b : preserves I (refuse_rejected p b).
Proof. unfold refuse_rejected. keeps. Qed.

Lemma on_label_race_wf {A} labels p (m : M A) :
  keeps_ok I m → keeps_ok I (on_label_race labels p (savepoint m)).
Proof. intros Hm. apply preserves_savepoint in Hm. unfold on_label_race. keeps. Qed.

Lemma root_revision_uid_wf id : preserves I (root_revision_uid id).
Proof. unfold root_revision_uid. keeps. Qed.

Lemma validate_split_keywords_wf l : preserves I (validate_split_keywords l).
Proof. unfold validate_split_keywords, validate_split_keyword. keeps. Qed.

Lemma staged_replay_row_wf id c : preserves I (staged_replay_row id c).
Proof. unfold staged_replay_row. keeps. Qed.
Hint Resolve embed_wf validate_label_wf validate_body_wf refuse_label_conflict_wf refuse_rejected_wf
  on_label_race_wf root_revision_uid_wf validate_split_keywords_wf staged_replay_row_wf : keeps.

Lemma validate_split_wf c : preserves I (validate_split settings c).
Proof. unfold validate_split, validate_split_child. keeps. Qed.

Lemma write_split_wf c e es : keeps_ok I (write_split c e es).
Proof. unfold write_split. keeps. Qed.

Lemma check_split_children_wf c l : preserves I (check_split_children settings c l).
Proof. induction l as [|[child e] l IH]; cbn; [keeps|]. keeps. Qed.
Hint Resolve validate_split_wf write_split_wf check_split_children_wf : keeps.

Lemma create_wf c : preserves I (create settings c).
Proof. unfold create. keeps. Qed.

Lemma split_wf c : preserves I (split settings c).
Proof. unfold split. keeps. Qed.

Lemma create_candidate_wf c replaces : preserves I (create_candidate settings c replaces).
Proof. unfold create_candidate. keeps. Qed.

Lemma create_curator_candidate_wf c exclude :
  preserves I (create_curator_candidate settings c exclude).
Proof. unfold create_curator_candidate. keeps. Qed.

Lemma enact_curator_split_wf source children machine finding :
  keeps_ok I (enact_curator_split source children machine finding).
Proof. unfold enact_curator_split. keeps. Qed.

Lemma stage_symphony_wf c id run agent : preserves I (stage_symphony settings c id run agent).
Proof. unfold stage_symphony, require_staged_identity. keeps. Qed.

Lemma create_split_source_wf c : preserves I (create_split_source settings c).
Proof. unfold create_split_source. keeps. Qed.

Lemma patch_wf c : preserves I (patch settings c).
Proof. unfold patch, patch_preflight, patch_write, reinforced_stats. keeps. Qed.

End lineage.

Lemma with_project_label p t u v :
  same_active_label (with_project p t u) v = same_active_label u v.
Proof. done. Qed.

Lemma backfilled_eq principal projects t u v :
  backfilled principal projects t u = Some v → ∃ p, v = with_project p t u.
Proof.
  unfold backfilled. destruct (_ && _); [|done].
  destruct (m_origin_thread_id u) as [th|]; [|done]. cbn. destruct (projects !! th); [|done].
  cbn. intros [= <-]. eauto.
Qed.

Lemma backfill_row principal projects t (m : gmap uuid MemoryUnit) id v :
  (omap (backfilled principal projects t) m ∪ m) !! id = Some v →
  ∃ u, m !! id = Some u ∧ (v = u ∨ ∃ p, v = with_project p t u).
Proof.
  intros [H|[_ H]]%lookup_union_Some_raw; [|eauto].
  apply lookup_omap_Some in H as (u & Hu & Hm). apply backfilled_eq in Hu. eauto.
Qed.

Lemma backfill_wf principal projects t d :
  wf d → wf (set_units (omap (backfilled principal projects t) (units d) ∪ units d) d).
Proof.
  intros Hwf. set (m := omap _ _ ∪ _).
  assert (Hback : ∀ id v, m !! id = Some v →
    ∃ u, units d !! id = Some u ∧ (v = u ∨ ∃ p, v = with_project p t u)) by apply backfill_row.
  assert (Hfwd : ∀ id, is_Some (units d !! id) → is_Some (m !! id)).
  { intros id Hu. unfold m. apply lookup_union_is_Some. auto. }
  assert (Hsame : ∀ id v, m !! id = Some v → ∃ u, units d !! id = Some u ∧ m_id v = m_id u ∧
    m_revision v = m_revision u ∧ m_body v = m_body u ∧ m_label v = m_label u ∧
    ∀ x, same_active_label v x = same_active_label u x).
  { intros id v Hv. destruct (Hback id v Hv) as (u & Hu & [->|[p ->]]); exists u; by split_and!. }
  destruct Hwf as [Hkey Hlab Hrk Hru Hhead Hchain Huniq Hbound]. split; cbn; [|..].
  - intros id v Hv. destruct (Hsame _ _ Hv) as (u & Hu & -> & _). by apply Hkey.
  - intros i j u v Hu Hv. destruct (Hsame _ _ Hu) as (u' & Hu' & _ & _ & _ & _ & Eu).
    destruct (Hsame _ _ Hv) as (v' & Hv' & _ & _ & _ & _ & Ev).
    rewrite Eu, same_active_label_sym, Ev. by eapply Hlab.
  - exact Hrk.
  - intros k r Hr. by eapply Hfwd, Hru.
  - intros id v Hv. destruct (Hsame _ _ Hv) as (u & Hu & _ & -> & -> & -> & _). by apply Hhead.
  - exact Hchain.
  - exact Huniq.
  - intros k r n v Hr Hn Hv. destruct (Hsame _ _ Hv) as (u & Hu & _ & -> & _). by eapply Hbound.
Qed.

Lemma backfill_projects_wf principal projects : preserves wf (backfill_projects principal projects).
Proof.
  unfold backfill_projects. apply preserves_transaction.
  intros w a w' Hw H. apply bind_ok in H as (d & w1 & [<- <-]%ret_ok & H).
  apply bind_ok in H as (t & w1 & [<- <-]%ret_ok & H).
  apply bind_ok in H as ([] & w1 & [_ <-]%ret_ok & H) || unfold bind, put_db, ret in H.
  injection H as _ <-. by apply backfill_wf.
Qed.
End facts.

#[export] Hint Resolve insert_root_wf insert_edge_wf new_root_wf relate_family_wf embed_wf
  validate_label_wf validate_body_wf create_wf split_wf create_candidate_wf
  create_curator_candidate_wf enact_curator_split_wf stage_symphony_wf create_split_source_wf
  patch_wf backfill_projects_wf : keeps.

(** ** Properties *)
Section properties.
Context {EN : Env} {PG : Postgres} {TK : Tokenizer} {EP : EmbeddingProvider} {UC : Unicode}.
Context (settings : MemorySettings).

Lemma on_label_race_ok {A} labels p (m : M A) w a w' :
  on_label_race labels p m w = (Ok a, w') → m w = (Ok a, w').
Proof.
  unfold on_label_race, try_catch. destruct (m w) as [[x|e] w1]; [done|].
  destruct e; try done. destruct (String.eqb _ _); [|done].
  intros H. apply bind_ok in H as (d & w2 & _ & H). by destruct (head _).
Qed.

Lemma refuse_label_conflict_ok p l w x w' :
  refuse_label_conflict p l w = (Ok x, w') → find_active_label (w_db w) p l None = None ∧ w' = w.
Proof.
  unfold refuse_label_conflict. intros H. apply bind_ok in H as (d & w1 & [<- <-]%ret_ok & H).
  destruct (find_active_label _ _ _ _); [done|]. by apply ret_ok in H as [_ <-].
Qed.

Lemma refuse_rejected_ok p b w x w' :
  refuse_rejected p b w = (Ok x, w') → rejected_body (w_db w) p b = None ∧ w' = w.
Proof.
  unfold refuse_rejected. intros H. apply bind_ok in H as (d & w1 & [<- <-]%ret_ok & H).
  apply require_ok in H as [H <-]. by destruct (rejected_body _ _ _).
Qed.

Lemma validate_label_ok l w x w' :
  validate_label settings l w = (Ok x, w') ↔ zlen l ≤ label_max settings ∧ w' = w.
Proof. unfold validate_label. rewrite require_ok. split; intros [? ->]; split; (lia || done). Qed.

Lemma validate_body_ok b w x w' :
  validate_body settings b w = (Ok x, w') ↔
  cl100k_token_count b ≤ memory_max_tokens settings ∧ w' = w.
Proof. unfold validate_body. rewrite require_ok. split; intros [? ->]; split; (lia || done). Qed.

(** The matches [create] sees. *)
Definition create_matches (c : CreateMemoryCommand) (d : db) (embedding : list float) :=
  dedup_matches settings d (cm_principal_id c) embedding [Sactive] [].
Definition create_band (c : CreateMemoryCommand) (d : db) (embedding : list float) : band :=
  classify_dedup_score settings (card_score <$> head (create_matches c d embedding)).

(** C36: what [create] does, outcome by outcome.  A created memory is an active
    root at revision 1 with exactly the command's content, whose label and
    body were within limits, whose body no rejected card holds, whose label no
    active memory of the principal had, and whose best match was below the
    duplicate threshold (and below the similar one, or forced); the only
    change is that head and its root revision.  A similar answer lists the
    matches and writes nothing; an error writes nothing. *)
Theorem create_outcomes (c : CreateMemoryCommand) (w w' : world) (r : res exn CreateResult) :
  create settings c w = (r, w') →
  match r with
  | Ok (MemoryCreated row) => ∃ embedding id uid t,
      embed_one (cm_body c) (Some EMBEDDING_DIMENSIONS) = Ok embedding ∧
      row = root_unit c embedding Sactive id None None t ∧
      w_db w' = put_head row (root_row c row uid t) (w_db w) ∧
      units (w_db w) !! id = None ∧
      zlen (cm_label c) ≤ label_max settings ∧
      cl100k_token_count (cm_body c) ≤ memory_max_tokens settings ∧
      rejected_body (w_db w) (cm_principal_id c) (cm_body c) = None ∧
      find_active_label (w_db w) (cm_principal_id c) (cm_label c) None = None ∧
      (create_band c (w_db w) embedding = distinct ∨
       create_band c (w_db w) embedding = similar ∧ cm_force c = true)
  | Ok (SimilarMemories matches) => ∃ embedding,
      embed_one (cm_body c) (Some EMBEDDING_DIMENSIONS) = Ok embedding ∧
      matches = create_matches c (w_db w) embedding ∧
      create_band c (w_db w) embedding = similar ∧ cm_force c = false ∧ w_db w' = w_db w
  | Err _ => w_db w' = w_db w
  end.
Proof.
  intros H. destruct r as [res|e].
  - unfold create in H. apply bind_ok in H as (? & w1 & [Hl ->]%validate_label_ok & H).
    apply bind_ok in H as (? & w1 & [Hb ->]%validate_body_ok & H).
    apply bind_ok in H as (embedding & w1 & [He ->]%lift_ok & H).
    apply transaction_ok in H as (w1 & H & ->).
    apply bind_ok in H as (d & w2 & [<- <-]%ret_ok & H). cbn [w_db begin_tx leave_tx] in *.
    fold (create_matches c (w_db w) embedding) in H. fold (create_band c (w_db w) embedding) in H.
    apply bind_ok in H as (? & w2 & [Hr ->]%refuse_rejected_ok & H).
    assert (Hgo : create_band c (w_db w) embedding ≠ duplicate →
      (refuse_label_conflict (cm_principal_id c) (cm_label c) ;!
       if match create_band c (w_db w) embedding with similar => negb (cm_force c) | _ => false end
       then ret (SimilarMemories (create_matches c (w_db w) embedding))
       else
         row <-! on_label_race [cm_label c] (cm_principal_id c)
                   (savepoint (new_root c embedding Sactive));
         ret (MemoryCreated row)) (begin_tx w) = (Ok res, w1)).
    { intros Hne. destruct (create_band c (w_db w) embedding); by destruct (create_matches c (w_db w) embedding). }
    destruct (decide (create_band c (w_db w) embedding = duplicate)) as [Hd|Hd].
    { exfalso. unfold create_band in Hd, H. destruct (create_matches c (w_db w) embedding); [done|].
      rewrite Hd in H. done. }
    specialize (Hgo Hd). clear H.
    apply bind_ok in Hgo as (? & w2 & [Hc ->]%refuse_label_conflict_ok & H).
    destruct (match create_band c (w_db w) embedding with similar => negb (cm_force c) | _ => false end) eqn:E.
    + apply ret_ok in H as [<- <-]. exists embedding.
      destruct (create_band c (w_db w) embedding); try done. apply negb_true_iff in E. auto.
    + apply bind_ok in H as (row & w2 & Hrow%on_label_race_ok & H). apply ret_ok in H as [<- <-].
      rewrite savepoint_ok in Hrow. unfold new_root in Hrow. apply insert_root_ok in Hrow as
        (id & uid & Erow & _ & Hdb & _ & _ & _ & Hfree & _ & _).
      exists embedding, id, uid, (w_tx_now (begin_tx w)). split_and!; try done.
      destruct (create_band c (w_db w) embedding); [by left| |done].
      right. by apply negb_false_iff in E.
  - unfold create in H.
    apply bind_err in H as [H|(? & w1 & [Hl ->]%validate_label_ok & H)].
    { by apply require_err in H as (_ & _ & ->). }
    apply bind_err in H as [H|(? & w1 & [Hb ->]%validate_body_ok & H)].
    { by apply require_err in H as (_ & _ & ->). }
    apply bind_err in H as [H|(embedding & w1 & [He ->]%lift_ok & H)].
    { by apply lift_err in H as (? & _ & _ & ->). }
    by apply transaction_rollback in H.
Qed.

(** *** PATCH *)
Lemma patch_preflight_reads c w : w_db (patch_preflight settings c w).2 = w_db w.
Proof.
  assert (preserves (λ d, d = w_db w) (patch_preflight settings c)) as H; [|by apply H].
  unfold patch_preflight, validate_body, validate_label, embed, reinforced_stats. keeps.
Qed.

Lemma patch_preflight_err c w e w' : patch_preflight settings c w = (Err e, w') → w_db w' = w_db w.
Proof.
  intros H. pose proof (patch_preflight_reads c w) as Hr. by rewrite H in Hr.
Qed.

Lemma patch_write_outcomes c changes w r w' :
  wf (w_db w) → patch_write c changes w = (r, w') →
  match r with
  | Ok row => ∃ u b rev,
      units (w_db w) !! pm_memory_id c = Some u ∧ m_revision u = pm_expected_revision c ∧
      row = updated_unit changes (draw_now (w_tick w)) b u ∧
      (ch_bias changes = None → b = m_bias u) ∧
      w_db w' = put_head row rev (w_db w) ∧ r_editor rev = pm_editor c ∧ r_reason rev = pm_reason c
  | Err e => w_db w' = w_db w ∧
      (∀ id, e ≠ MemoryUnitNotFoundError id) ∧ (∀ u, e ≠ MemoryCasConflictError u)
  end.
Proof.
  intros Hwf H. unfold patch_write in H. destruct r as [row|e].
  - apply transaction_ok in H as (w1 & H & ->).
    apply bind_ok in H as (uid & w2 & Hm & H). unfold mint, bind, tick, ret in Hm. injection Hm as <- <-.
    unfold try_catch in H. destruct (cas_update_memory_unit _ _) as [[x|e] w2] eqn:E.
    + injection H as -> <-. pose proof E as Hok.
      apply cas_ok in Hok as (u & b & parent & Hu & Hr & Hrow & Hb & _ & _ & _ & _ & _ & ->).
      match type of E with cas_update_memory_unit ?cu _ = _ =>
        exists u, b, (appended_revision cu parent row (draw_now (w_tick w))) end.
      split_and!; try done.
      * cbn in Hb. intros Hn. rewrite Hn in Hb. done.
      * cbn. unfold put_head. cbn. by rewrite Hrow.
    + destruct e; try done. destruct (String.eqb _ _); [|done].
      apply bind_ok in H as (d & w3 & _ & H). by destruct (patch_label_conflict _ _ _).
  - split; [by eapply transaction_rollback|].
    unfold transaction in H. destruct (bind _ _ (begin_tx w)) as [[?|e1] w1] eqn:E; [done|].
    injection H as -> _. apply bind_err in E as [E|(uid & w2 & _ & E)]; [done|].
    unfold try_catch in E. destruct (cas_update_memory_unit _ _) as [[x|e1] w3] eqn:F; [done|].
    destruct e1; try (injection E as <- _; split; intros ?; discriminate).
    destruct (String.eqb _ _); [|by injection E as <- _].
    apply bind_err in E as [E|(d & w4 & _ & E)]; [done|].
    destruct (patch_label_conflict _ _ _); by injection E as <- _.
Qed.

Definition reinforcements (stats : list (str * json)) : json :=
  default (JInt 0) (aget (lit "reinforcements") stats).

Lemma reinforced_stats_ok stats w s w' :
  reinforced_stats stats w = (Ok s, w') →
  ∃ n, 0 ≤ n ∧ reinforcements stats = JInt n ∧ reinforcements s = JInt (n + 1) ∧ w' = w.
Proof.
  unfold reinforced_stats, reinforcements. destruct (default _ _) as [| |n| | | |] eqn:E; try done.
  intros H. apply bind_ok in H as ([] & w1 & [Hn <-]%require_ok & [<- <-]%ret_ok).
  exists n. rewrite aget_aset_eq. split; [lia|done].
Qed.

Lemma only_unchanged_body_true c u :
  only_unchanged_body c u = true →
  pm_body c = Some (m_body u) ∧ pm_label c = None ∧ pm_status c = None.
Proof.
  unfold only_unchanged_body. intros H. breflect. by destruct (pm_label c), (pm_status c).
Qed.

Lemma patch_preflight_ok c w changes w1 :
  patch_preflight settings c w = (Ok changes, w1) →
  ∃ u e s, units (w_db w) !! pm_memory_id c = Some u ∧ changes = patch_changes c e s ∧
    (pm_reason c ≠ REINFORCE → s = None) ∧
    (pm_reason c = REINFORCE → only_unchanged_body c u = true ∧ ∃ s' n, s = Some s' ∧
       reinforcements (m_stats u) = JInt n ∧ reinforcements s' = JInt (n + 1)).
Proof.
  intros H. unfold patch_preflight in H. apply bind_ok in H as ([] & w2 & [_ <-]%require_ok & H).
  apply bind_ok in H as (d & w2 & [<- <-]%ret_ok & H).
  destruct (units _ !! _) as [u|] eqn:Hu; [|done].
  apply bind_ok in H as ([] & w2 & [Hr <-]%require_ok & H).
  apply bind_ok in H as (? & w3 & _ & H). apply bind_ok in H as (? & w4 & _ & H).
  apply bind_ok in H as (e & w5 & _ & H). apply bind_ok in H as (s & w6 & Hs & H).
  apply ret_ok in H as [<- _]. exists u, e, s. split; [done|]. split; [done|].
  destruct (decide (pm_reason c = REINFORCE)) as [Er|Er].
  - rewrite bool_decide_true in Hr, Hs by done. split; [done|]. intros _.
    apply negb_true_iff, andb_false_iff in Hr as [|Hr]; [done|]. apply negb_false_iff in Hr.
    split; [done|]. apply bind_ok in Hs as (s' & w7 & Hs & [<- _]%ret_ok).
    apply reinforced_stats_ok in Hs as (n & _ & ? & ? & _). by exists s', n.
  - rewrite bool_decide_false in Hs by done. apply ret_ok in Hs as [<- _]. done.
Qed.

(** What [patch] does.  An error, whichever it is, writes nothing.  A
    success means the head was at the expected revision and is now the next
    one with exactly the provided fields changed and its revision row
    appended; principal, bias and learned counters stay, except that a
    reinforcement changes nothing of the memory but adds one to its
    reinforcement count. *)
Theorem patch_outcomes (c : PatchMemoryCommand) (w w' : world) (r : res exn MemoryUnit) :
  wf (w_db w) → patch settings c w = (r, w') →
  match r with
  | Err _ => w_db w' = w_db w
  | Ok row => ∃ u rev,
      units (w_db w) !! pm_memory_id c = Some u ∧ m_revision u = pm_expected_revision c ∧
      w_db w' = put_head row rev (w_db w) ∧ m_revision row = m_revision u + 1 ∧
      m_label row = default (m_label u) (pm_label c) ∧
      m_body row = default (m_body u) (pm_body c) ∧
      m_kind row = default (m_kind u) (pm_kind c) ∧
      m_keywords row = default (m_keywords u) (pm_keywords c) ∧
      m_pin row = default (m_pin u) (pm_pin c) ∧
      m_status row = default (m_status u) (pm_status c) ∧
      m_principal_id row = m_principal_id u ∧ m_bias row = m_bias u ∧
      (pm_reason c ≠ REINFORCE → m_stats row = m_stats u) ∧
      (pm_reason c = REINFORCE →
         m_label row = m_label u ∧ m_body row = m_body u ∧ m_status row = m_status u ∧
         ∃ n, reinforcements (m_stats u) = JInt n ∧ reinforcements (m_stats row) = JInt (n + 1))
  end.
Proof.
  intros Hwf H. unfold patch in H. destruct r as [row|e].
  - apply bind_ok in H as (changes & w1 & Hpre & H).
    pose proof (patch_preflight_reads c w) as Hdb. rewrite Hpre in Hdb. cbn in Hdb.
    apply patch_preflight_ok in Hpre as (u & e & s & Hu & -> & Hn & Hy).
    apply patch_write_outcomes in H as (u' & b & rev & Hu' & Hr & -> & Hb & Hput & _); [|by rewrite Hdb].
    rewrite Hdb in Hu', Hput. assert (u' = u) as -> by congruence. exists u, rev.
    split_and!; try done; cbn; [by rewrite Hb|by intros ->%Hn|].
    intros Er. destruct (Hy Er) as (Ho & s' & n & -> & Hs & Hs').
    apply only_unchanged_body_true in Ho as (-> & -> & ->). split_and!; eauto.
  - apply bind_err in H as [H|(changes & w1 & Hpre & H)]; [by eapply patch_preflight_err|].
    pose proof (patch_preflight_reads c w) as Hdb. rewrite Hpre in Hdb. cbn in Hdb.
    apply patch_write_outcomes in H as [H _]; [congruence|by rewrite Hdb].
Qed.

(** *** Symphony staging *)

(** Running a read gives the same answer in every world with the same tables. *)
Definition replays {A} (m : M A) (d : db) (a : A) : Prop := ∀ w, w_db w = d → m w = (Ok a, w).

Lemma replays_bind {A B} (m : M A) (f : A → M B) d a b :
  replays m d a → replays (f a) d b → replays (bind m f) d b.
Proof. intros Hm Hf w Hw. rewrite (bind_run _ _ _ _ _ (Hm w Hw)). auto. Qed.

Lemma staged_replay_ok id c w o w' :
  staged_replay_row id c w = (Ok o, w') →
  w' = w ∧ replays (staged_replay_row id c) (w_db w) o ∧
  (o = None → units (w_db w) !! id = None).
Proof.
  unfold staged_replay_row. intros H. apply bind_ok in H as (d & w1 & [<- <-]%ret_ok & H).
  enough (w' = w ∧ (o = None → units (w_db w) !! id = None) ∧
          ∀ w2, w_db w2 = w_db w → staged_replay_row id c w2 = (Ok o, w2)) as (? & ? & ?) by done.
  unfold staged_replay_row. destruct (units (w_db w) !! id) as [u|] eqn:Hu.
  - apply bind_ok in H as (rev & w1 & H1 & H). unfold one_or_none in H1.
    destruct (root_rows (w_db w) id) as [|r [|? ?]] eqn:Hrows; try done; apply ret_ok in H1 as [<- <-]; [done|].
    apply bind_ok in H as ([] & w1 & [Hm <-]%require_ok & H).
    apply bind_ok in H as ([] & w1 & [Hp <-]%require_ok & H). apply ret_ok in H as [<- <-].
    split; [done|]. split; [done|]. intros w2 Hw2. unfold bind at 1, get_db. rewrite Hw2, Hu, Hrows.
    unfold one_or_none. unfold bind at 1, ret at 1. by rewrite !require_true.
  - apply ret_ok in H as [<- <-]. split; [done|]. split; [done|]. intros w2 Hw2.
    unfold bind at 1, get_db. by rewrite Hw2, Hu.
Qed.

Lemma staged_replay_row_id id c w u w' :
  wf (w_db w) → staged_replay_row id c w = (Ok (Some u), w') → m_id u = id ∧ m_status u = Sstaged.
Proof.
  unfold staged_replay_row. intros Hwf H. apply bind_ok in H as (d & w1 & [<- <-]%ret_ok & H).
  destruct (units (w_db w) !! id) as [v|] eqn:Hu; [|done].
  apply bind_ok in H as ([rev|] & w1 & H1 & H); [|done].
  apply bind_ok in H as ([] & w2 & [Hm _]%require_ok & H).
  apply bind_ok in H as ([] & w3 & _ & [[= <-] _]%ret_ok).
  split; [by apply (wf_key _ Hwf)|]. unfold staged_matches in Hm. breflect. done.
Qed.

Lemma root_rows_put d u r :
  wf (put_head u r d) → r_memory_id r = m_id u → r_revision r = Some 1 →
  root_rows (put_head u r d) (m_id u) = [r].
Proof.
  intros Hwf Hid Hn. unfold root_rows. apply (rows_unique _ _ (r_rev_uid r)).
  - cbn. apply lookup_insert_eq.
  - done.
  - intros k r' Hk [Hid' Hn']. symmetry. eapply (wf_unique _ Hwf _ _ r r'); [|done|congruence|done|done].
    cbn. apply lookup_insert_eq.
Qed.

(** Staging is idempotent.  Once a client-minted memory was staged, sending
    the same staging again, whatever else happened to the clock and the random
    draws, returns the very same row and changes nothing at all. *)
Theorem stage_replay (c : CreateMemoryCommand) (id : uuid) (run_id origin_agent : str)
    (w w1 : world) (row : MemoryUnit) :
  wf (w_db w) → stage_symphony settings c id run_id origin_agent w = (Ok row, w1) →
  m_id row = id ∧ m_status row = Sstaged ∧
  ∀ w2, w_db w2 = w_db w1 → stage_symphony settings c id run_id origin_agent w2 = (Ok row, w2).
Proof.
  intros Hwf H. pose proof (stage_symphony_wf settings c id run_id origin_agent w Hwf) as Hwf1.
  rewrite H in Hwf1. cbn in Hwf1. unfold stage_symphony in H.
  apply bind_ok in H as ([] & w2 & [Hl ->]%validate_label_ok & H).
  apply bind_ok in H as ([] & w2 & [Hb ->]%validate_body_ok & H).
  enough (replays (staged_replay_row id c) (w_db w1) (Some row) ∧ m_run_id row = Some run_id ∧
          m_origin_agent row = Some origin_agent ∧ m_id row = id ∧ m_status row = Sstaged)
    as (Hrep & Hrun & Hagent & Hid & Hst).
  { split; [done|]. split; [done|]. intros w2 Hw2. unfold stage_symphony, validate_label, validate_body.
    rewrite !require_true by lia. rewrite (bind_run _ _ _ _ _ (Hrep w2 Hw2)).
    unfold require_staged_identity. rewrite require_true; [done|]. by rewrite !bool_decide_true. }
  apply bind_ok in H as (existing & w2 & He & H). pose proof He as Hrow0.
  apply staged_replay_ok in He as (-> & Hrep & Hnone). destruct existing as [u|].
  - apply bind_ok in H as ([] & w2 & [Hi <-]%require_ok & H). apply ret_ok in H as [-> <-]. breflect.
    split; [done|]. split; [done|]. split; [done|]. by eapply staged_replay_row_id.
  - apply bind_ok in H as (embedding & w2 & [_ ->]%lift_ok & H).
    apply transaction_ok in H as (w2 & H & ->). apply bind_ok in H as (existing & w3 & He & H).
    apply staged_replay_ok in He as (-> & Hrep2 & Hnone2). destruct existing as [u|].
    { specialize (Hrep2 w eq_refl). rewrite Hrep2 in Hrow0. discriminate Hrow0. }
    apply insert_root_ok in H as (id' & uid & -> & Hid & Hdb & _ & _ & Ha & _).
    rewrite (Hid id eq_refl) in *. cbn [w_db leave_tx begin_tx] in *.
    rewrite Hdb in *. split; [|done]. intros w3 Hw3. unfold staged_replay_row.
    unfold bind at 1, get_db. rewrite Hw3.
    set (row := root_unit _ _ _ _ _ _ _) in *. set (rev := root_row _ _ _ _) in *.
    assert (units (put_head row rev (w_db w)) !! id = Some row) as -> by apply lookup_insert_eq.
    assert (root_rows (put_head row rev (w_db w)) id = [rev]) as ->
      by exact (root_rows_put (w_db w) row rev Hwf1 eq_refl eq_refl).
    unfold one_or_none. unfold bind at 1, ret at 1. rewrite require_true; [rewrite require_true|].
    + done.
    + unfold provenance_matches. by rewrite !bool_decide_true.
    + unfold staged_matches. by rewrite !bool_decide_true.
Qed.

(** *** Approval labels *)
Lemma active_label_rows_elem d p l exclude u :
  u ∈ active_label_rows d p l exclude ↔
  (m_principal_id u = p ∧ m_label u = l ∧ m_status u = Sactive ∧ exclude ≠ Some (m_id u)) ∧
  ∃ id, units d !! id = Some u.
Proof. unfold active_label_rows. by rewrite sort_by_perm, list_elem_of_filter, elem_rows. Qed.

Lemma find_active_label_None d p l :
  find_active_label d p l None = None ↔
  ∀ id u, units d !! id = Some u → m_principal_id u = p → m_status u = Sactive → m_label u ≠ l.
Proof.
  unfold find_active_label. split.
  - intros H id u Hu Hp Ha Hl. apply head_None in H.
    assert (u ∈ active_label_rows d p l None) as Hin by (apply active_label_rows_elem; eauto 6).
    rewrite H in Hin. by apply elem_of_nil in Hin.
  - intros H. apply head_None. destruct (active_label_rows d p l None) as [|u l'] eqn:E; [done|].
    assert (u ∈ u :: l') as Hin by left. rewrite <- E in Hin.
    apply active_label_rows_elem in Hin as [(Hp & Hl & Ha & _) [id Hid]].
    by destruct (H id u Hid Hp Ha).
Qed.

(** The label of one attempt; attempt zero is the candidate's own. *)
Definition attempt_label (candidate : MemoryUnit) (attempt : Z) : str :=
  if attempt =? 0 then m_label candidate else qualified_label settings candidate attempt.

Lemma approval_loop_spec fuel d candidate attempt :
  0 ≤ attempt →
  match approval_label_loop settings fuel d candidate attempt (attempt_label candidate attempt) with
  | Some l => find_active_label d (m_principal_id candidate) l None = None ∧
      ∃ k, attempt ≤ k < attempt + Z.of_nat fuel ∧ l = attempt_label candidate k
  | None => ∀ k, attempt ≤ k < attempt + Z.of_nat fuel →
      find_active_label d (m_principal_id candidate) (attempt_label candidate k) None ≠ None
  end.
Proof.
  revert attempt. induction fuel as [|fuel IH]; intros attempt Hpos; cbn [approval_label_loop]; [lia|].
  destruct (find_active_label d _ (attempt_label candidate attempt) None) as [u|] eqn:E.
  - specialize (IH (attempt + 1) ltac:(lia)).
    assert (attempt_label candidate (attempt + 1) = qualified_label settings candidate (attempt + 1)) as Eq.
    { unfold attempt_label. by rewrite (proj2 (Z.eqb_neq _ _)) by lia. }
    rewrite Eq in IH. destruct (approval_label_loop _ _ _ _ _ _) as [l|].
    + destruct IH as (Hn & k & Hk & ->). split; [done|]. exists k. split; [lia|done].
    + intros k Hk. destruct (decide (k = attempt)) as [->|]; [by rewrite E|]. apply IH. lia.
  - split; [done|]. exists attempt. split; [lia|done].
Qed.

Lemma str_of_Z_no_space k : 0 ≤ k → 32%N ∉ str_of_Z k.
Proof.
  intros Hk. unfold str_of_Z. rewrite (proj2 (Z.ltb_ge _ _)) by lia. intros Hin.
  pose proof (str_of_N_digits (Z.to_N k)) as H. rewrite Forall_forall in H. specialize (H _ Hin). lia.
Qed.

Lemma qualified_label_inj candidate j k :
  2 ≤ j → 2 ≤ k → qualified_label settings candidate j = qualified_label settings candidate k → j = k.
Proof.
  intros Hj Hk. unfold qualified_label. rewrite !(proj2 (Z.ltb_lt _ _)) by lia. cbn zeta.
  rewrite !app_assoc. intros E. apply last_field_inj in E; [|by apply str_of_Z_no_space; lia..].
  unfold str_of_Z in E. rewrite !(proj2 (Z.ltb_ge _ _)) in E by lia. apply str_of_N_inj in E. lia.
Qed.

Lemma slice_to_length {A} n (l : list A) : zlen (slice_to n l) ≤ Z.max 0 n ∨ n < 0.
Proof. unfold slice_to, zlen. destruct (n <? 0) eqn:E; [right; lia|left; rewrite length_take; lia]. Qed.

Lemma qualified_label_length candidate k :
  64 ≤ label_max settings → 1 ≤ k < 10 ^ 27 → zlen (qualified_label settings candidate k) ≤ label_max settings.
Proof.
  intros Hmax Hk. unfold qualified_label. cbn zeta.
  set (number := if 1 <? k then _ else _).
  assert (Hnum : zlen number ≤ 28).
  { unfold number, zlen. destruct (1 <? k); [|cbn; lia]. cbn [length]. unfold str_of_Z.
    rewrite (proj2 (Z.ltb_ge _ _)) by lia. pose proof (str_of_N_length (Z.to_N k) 26 ltac:(cbn; lia)). lia. }
  set (q := slice_to _ (qualifier_of candidate)).
  assert (Hq : zlen q ≤ label_max settings / 2 - zlen number - 3).
  { unfold q. destruct (slice_to_length (label_max settings / 2 - zlen number - 3)
      (qualifier_of candidate)) as [H|H].
    - assert (32 ≤ label_max settings / 2) by (apply Z.div_le_lower_bound; lia). lia.
    - assert (32 ≤ label_max settings / 2) by (apply Z.div_le_lower_bound; lia). lia. }
  assert (Hhalf : label_max settings / 2 ≤ label_max settings) by (apply Z.div_le_upper_bound; lia).
  assert (Hz : ∀ (A : Type) (l : list A), 0 ≤ zlen l) by (intros; unfold zlen; lia).
  pose proof (Hz _ q). pose proof (Hz _ number).
  set (suffix := [32%N; 183%N; 32%N] ++ q ++ number).
  assert (Hsuf : zlen suffix = 3 + zlen q + zlen number)
    by (unfold suffix, zlen; rewrite !length_app; cbn [length]; lia).
  destruct (slice_to_length (label_max settings - zlen suffix) (m_label candidate)) as [H2|H2]; [|lia].
  set (base := slice_to _ (m_label candidate)) in *. pose proof (strip_length_le base) as Hstrip.
  unfold zlen at 1. rewrite length_app. unfold zlen in *. lia.
Qed.

Lemma approval_loop_ends d candidate :
  approval_label_loop settings (approval_fuel d) d candidate 0 (m_label candidate) ≠ None.
Proof.
  pose proof (approval_loop_spec (approval_fuel d) d candidate 0 ltac:(lia)) as Hs. cbn in Hs.
  change (attempt_label candidate 0) with (m_label candidate) in Hs. intros E. rewrite E in Hs.
  set (n := length (rows (units d))). set (ks := (λ i, Z.of_nat i + 2) <$> seq 0 (S n)).
  assert (Hsub : (attempt_label candidate <$> ks) ⊆ (m_label <$> rows (units d))).
  { intros l (k & -> & Hk)%list_elem_of_fmap. apply list_elem_of_fmap in Hk as (i & -> & Hi).
    apply elem_of_seq in Hi. destruct (decide (attempt_label candidate (Z.of_nat i + 2) ∈ m_label <$> rows (units d)))
      as [|Hno]; [done|]. exfalso.
    apply (Hs (Z.of_nat i + 2)); [unfold approval_fuel; fold n; lia|].
    apply find_active_label_None. intros id u Hu _ _ El. apply Hno. rewrite <- El.
    apply list_elem_of_fmap. exists u. split; [done|]. apply elem_rows. eauto. }
  assert (Hnd : NoDup (attempt_label candidate <$> ks)).
  { apply NoDup_fmap_2_strong.
    - intros j k (i & -> & _)%list_elem_of_fmap (i' & -> & _)%list_elem_of_fmap.
      unfold attempt_label. rewrite !(proj2 (Z.eqb_neq _ _)) by lia. apply qualified_label_inj; lia.
    - apply NoDup_fmap_2; [intros ???; lia|apply NoDup_seq]. }
  apply NoDup_submseteq in Hsub; [|done]. apply submseteq_length in Hsub.
  unfold ks in Hsub. rewrite !length_fmap, length_seq in Hsub. fold n in Hsub. lia.
Qed.

(** The search for a free approval label always ends, on every database
    and with every setting, and the label it ends with is free: no active
    memory of the principal bears it.  With the deployed maximum of 64 code
    points, and fewer memories than anyone will have, the label respects the
    maximum when the candidate's own label did. *)
Theorem approval_label_total (candidate : MemoryUnit) (w : world) :
  ∃ label, approval_label settings candidate w = (Ok label, w) ∧
    find_active_label (w_db w) (m_principal_id candidate) label None = None ∧
    (find_active_label (w_db w) (m_principal_id candidate) (m_label candidate) None = None →
     label = m_label candidate) ∧
    (64 ≤ label_max settings → Z.of_nat (length (rows (units (w_db w)))) < 10 ^ 26 →
     zlen (m_label candidate) ≤ label_max settings → zlen label ≤ label_max settings).
Proof.
  unfold approval_label, bind at 1, get_db. set (d := w_db w).
  pose proof (approval_loop_spec (approval_fuel d) d candidate 0 ltac:(lia)) as Hs. cbn in Hs.
  change (attempt_label candidate 0) with (m_label candidate) in Hs.
  pose proof (approval_loop_ends d candidate) as Hne.
  destruct (approval_label_loop _ _ _ _ _ _) as [l|] eqn:E; [|done].
  exists l. split; [done|]. destruct Hs as (Hfree & k & Hk & ->). split; [done|]. split.
  - intros Hown. unfold approval_fuel in E. rewrite Nat.add_comm in E. cbn [approval_label_loop Nat.add] in E.
    rewrite Hown in E. congruence.
  - intros Hmax Hn Hlen. unfold attempt_label. destruct (k =? 0) eqn:Ek; [done|].
    apply qualified_label_length; [done|]. unfold approval_fuel in Hk. lia.
Qed.

(** *** Listing *)
Definition with_offset (q : ListMemoriesQuery) (offset : Z) : ListMemoriesQuery := {|
  lq_project_key := lq_project_key q; lq_status := lq_status q; lq_q := lq_q q;
  lq_limit := lq_limit q; lq_offset := offset |}.

Lemma concat_pages {A} (n k : nat) (l : list A) :
  (0 < n)%nat → (length l ≤ k * n)%nat →
  concat ((λ i, take n (drop (i * n) l)) <$> seq 0 k) = l.
Proof.
  intros Hn. revert l. induction k as [|k IH]; intros l Hl.
  - by destruct l; cbn in *; [|lia].
  - cbn [seq fmap list_fmap concat]. rewrite <- (take_drop n l) at 2. f_equal.
    rewrite <- (IH (drop n l)) by (rewrite length_drop; lia). f_equal.
    rewrite <- fmap_S_seq, <- list_fmap_compose. apply list_fmap_ext. intros i x _. cbn.
    by rewrite drop_drop, Nat.add_comm.
Qed.

(** Paging loses and repeats nothing.  Every page of a valid limit answers
    without touching the database and reports the total number of matching
    memories; the pages in order are the whole matching list, newest first;
    and without a status filter no candidate and no staged memory shows. *)
Theorem list_pages (ilike : str → str → bool) (q : ListMemoriesQuery) (w : world) :
  1 ≤ lq_limit q ≤ 200 →
  let matching := list_matching ilike q (w_db w) in
  let limit := Z.to_nat (lq_limit q) in
  (∀ k : nat, list_memories ilike (with_offset q (Z.of_nat k * lq_limit q)) w
     = (Ok (take limit (drop (k * limit) matching), zlen matching), w)) ∧
  concat ((λ k, take limit (drop (k * limit) matching)) <$> seq 0 (length matching)) = matching ∧
  (∀ u, u ∈ matching ↔ (∃ id, units (w_db w) !! id = Some u) ∧ list_filter ilike q u = true) ∧
  StronglySorted (λ a b, recent_leb a b = true) matching ∧
  (lq_status q = None → Forall (λ u, m_status u ≠ Scandidate ∧ m_status u ≠ Sstaged) matching).
Proof.
  intros Hlimit matching limit. split_and!.
  - intros k. unfold list_memories. cbn [lq_limit lq_offset with_offset].
    rewrite !require_true by lia. unfold bind, get_db, ret.
    change (list_matching ilike (with_offset q (Z.of_nat k * lq_limit q)) (w_db w)) with matching.
    do 5 f_equal. lia.
  - apply concat_pages; [lia|]. unfold limit. nia.
  - intros u. unfold matching, list_matching. rewrite sort_by_perm, list_elem_of_filter, elem_rows. tauto.
  - apply (sort_by_sorted _ (λ _, True)); [| |by apply Forall_true]; unfold recent_leb; intros; lia.
  - intros Hs. unfold matching, list_matching. apply sort_by_Forall, Forall_forall.
    intros u [Hu _]%list_elem_of_filter. unfold list_filter in Hu. rewrite Hs in Hu. breflect.
    rewrite !not_elem_of_cons in H. tauto.
Qed.
End properties.
