(* ===== verification/MemorySplit.v ===== *)
(** * Split families and the concrete runs of the memory service

    The exact split of [MemoryService.split]: one tombstoned source, its active
    children descending from the source's revision, related pairwise; and the
    concrete runs that instantiate the theorems of [MemoryService]. *)
From S2P Require Import Prelude PyStr PyFloat PyJson Ids Scorer Features.
From S2P Require Import Embeddings Store MemoryDb MemoryService.
Open Scope Z_scope.

(** Rows are only added. *)
Definition extends (d d' : db) : Prop :=
  units d ⊆ units d' ∧ revisions d ⊆ revisions d' ∧ edges d ⊆ edges d'.

Lemma extends_refl d : extends d d.
Proof. done. Qed.

Lemma extends_trans d1 d2 d3 : extends d1 d2 → extends d2 d3 → extends d1 d3.
Proof. intros (?&?&?) (?&?&?). by split_and!; etrans. Qed.

Section split.
Context {EN : Env} {PG : Postgres} {TK : Tokenizer} {EP : EmbeddingProvider} {UC : Unicode}.
Context (settings : MemorySettings).

Lemma insert_root_extends d0 c e status mid run agent :
  keeps_ok (extends d0) (insert_root c e status mid run agent).
Proof.
  intros w row w' Hw H. apply insert_root_ok in H as (id & uid & -> & _ & -> & _ & _ & Ha & Hf & _).
  eapply extends_trans; [done|]. destruct Ha as (_ & Hr & _). cbn in Hr.
  split_and!; cbn; [by apply insert_subseteq|by apply insert_subseteq|done].
Qed.

Lemma insert_edge_extends d0 e : keeps_ok (extends d0) (insert_edge e).
Proof.
  intros w x w' Hw H. unfold insert_edge in H. apply bind_ok in H as (d & w1 & [<- <-]%ret_ok & H).
  apply bind_ok in H as ([] & w1 & [Hn <-]%require_ok & H).
  apply bind_ok in H as ([] & w1 & [_ <-]%require_ok & H).
  apply bind_ok in H as ([] & w1 & [_ <-]%require_ok & H). injection H as <- <-. breflect.
  eapply extends_trans; [done|]. split_and!; cbn; [done|done|by apply insert_subseteq].
Qed.
Hint Resolve insert_root_extends insert_edge_extends : keeps.

Lemma relate_family_extends d0 ids : keeps_ok (extends d0) (relate_family ids).
Proof. unfold relate_family, relate. keeps. Qed.

(** A root row as its creation wrote it. *)
Definition is_root (d : db) (c : CreateMemoryCommand) (e : list float) (status : MemoryStatus)
    (row : MemoryUnit) : Prop :=
  (∃ id t, row = root_unit c e status id None None t) ∧ units d !! m_id row = Some row ∧
  ∃ uid r, revisions d !! uid = Some r ∧ r_memory_id r = m_id row ∧ r_revision r = Some 1 ∧
           r_parent_uid r = cm_parent_uid c ∧ r_reason r = cm_revision_reason c.

Lemma is_root_extends d d' c e status row :
  is_root d c e status row → extends d d' → is_root d' c e status row.
Proof.
  intros (Hrow & Hu & uid & r & Hr & Hrest) (Hsu & Hsr & _). split; [done|].
  split; [by eapply lookup_weaken|]. exists uid, r. split; [by eapply lookup_weaken|done].
Qed.

Lemma new_root_is_root c e status w row w' :
  new_root c e status w = (Ok row, w') →
  is_root (w_db w') c e status row ∧ extends (w_db w) (w_db w') ∧ units (w_db w) !! m_id row = None.
Proof.
  unfold new_root. intros H. split_and!.
  - apply insert_root_ok in H as (id & uid & -> & _ & -> & _). split; [eauto|].
    split; [apply lookup_insert_eq|]. exists uid. eexists. split; [apply lookup_insert_eq|done].
  - eapply insert_root_extends; [apply extends_refl|apply H].
  - by apply insert_root_ok in H as (id & uid & -> & _ & _ & _ & _ & _ & Hf & _).
Qed.

Lemma map_new_root {A} (cmd : A → CreateMemoryCommand) (emb : A → list float) status l w rs w' :
  map_m (λ x, new_root (cmd x) (emb x) status) l w = (Ok rs, w') →
  Forall2 (λ x row, is_root (w_db w') (cmd x) (emb x) status row) l rs ∧
  extends (w_db w) (w_db w') ∧ NoDup (m_id <$> rs) ∧
  Forall (λ row, units (w_db w) !! m_id row = None) rs.
Proof.
  revert w rs. induction l as [|x l IH]; intros w rs H; cbn in H.
  { apply ret_ok in H as [<- <-]. split_and!; [constructor|apply extends_refl|constructor|constructor]. }
  apply bind_ok in H as (row & w1 & Hrow & H). apply bind_ok in H as (rs' & w2 & Hrs & H).
  apply ret_ok in H as [<- <-]. apply new_root_is_root in Hrow as (Hroot & Hext & Hfree).
  apply IH in Hrs as (Hall & Hext' & Hnd & Hfree'). split_and!.
  - constructor; [by eapply is_root_extends|done].
  - by eapply extends_trans.
  - cbn. constructor; [|done]. intros (row' & Hid & Hin)%list_elem_of_fmap.
    rewrite Forall_forall in Hfree'. specialize (Hfree' _ Hin). destruct Hroot as (_ & Hu & _).
    rewrite <- Hid in Hfree'. congruence.
  - constructor; [done|]. eapply Forall_impl; [done|]. intros row' Hn. cbn in Hn.
    destruct (units (w_db w) !! m_id row') eqn:E; [|done].
    destruct Hext as [Hsub _]. by rewrite (lookup_weaken _ _ _ _ E Hsub) in Hn.
Qed.

(** An edge of a type between two memories. *)
Definition related (d : db) (type : EdgeType) (left right : uuid) : Prop :=
  ∃ uid e, edges d !! uid = Some e ∧ e_from_memory_id e = left ∧ e_to_memory_id e = right ∧
           e_edge_type e = type.

Lemma related_extends d d' t l r : related d t l r → extends d d' → related d' t l r.
Proof.
  intros (uid & e & He & Hrest) (_ & _ & Hs). exists uid, e. split; [by eapply lookup_weaken|done].
Qed.

Lemma relate_related t l r w x w' : relate t l r w = (Ok x, w') → related (w_db w') t l r.
Proof.
  unfold relate. intros H. apply bind_ok in H as (uid & w1 & _ & H).
  apply bind_ok in H as (now & w2 & _ & H). unfold insert_edge in H.
  apply bind_ok in H as (d & w3 & [<- <-]%ret_ok & H).
  apply bind_ok in H as ([] & w3 & [_ <-]%require_ok & H).
  apply bind_ok in H as ([] & w3 & [_ <-]%require_ok & H).
  apply bind_ok in H as ([] & w3 & [_ <-]%require_ok & H). injection H as _ <-.
  exists uid. eexists. split; [apply lookup_insert_eq|done].
Qed.

(** What a loop establishes element by element, when later rounds keep it. *)
Lemma for_each_establishes {A} (l : list A) body (Q : A → db → Prop) w x w' :
  (∀ d0 y, keeps_ok (extends d0) (body y)) →
  (∀ y d d', Q y d → extends d d' → Q y d') →
  (∀ y v z v', y ∈ l → body y v = (Ok z, v') → Q y (w_db v')) →
  for_each l body w = (Ok x, w') → Forall (λ y, Q y (w_db w')) l ∧ extends (w_db w) (w_db w').
Proof.
  intros Hk Hmono. revert w. induction l as [|y l IH]; intros w Hest H; cbn in H.
  { apply ret_ok in H as [_ <-]. split; [constructor|apply extends_refl]. }
  apply bind_ok in H as (z & w1 & Hy & H).
  destruct (IH w1) as [Hall Hext]; [intros; eapply Hest; [by right|done]|done|].
  pose proof (Hk (w_db w) y w z w1 (extends_refl _) Hy) as Hext1.
  split; [|exact (extends_trans _ _ _ Hext1 Hext)]. constructor; [|done].
  eapply Hmono; [eapply Hest; [left|done]|done].
Qed.

Lemma relate_family_related ids w x w' :
  relate_family ids w = (Ok x, w') →
  (∀ l r, l ∈ ids → r ∈ ids → l ≠ r → related (w_db w') relates_to l r) ∧
  extends (w_db w) (w_db w').
Proof.
  intros H. unfold relate_family in H.
  apply (for_each_establishes _ _ (λ l d, ∀ r, r ∈ ids → l ≠ r → related d relates_to l r)) in H
    as [Hall Hext].
  - split; [|done]. rewrite Forall_forall in Hall. intros l r Hl Hr Hne. by apply Hall.
  - intros d0 l. apply keeps_ok_for_each. intros r. unfold relate. keeps.
  - intros l d d' Hq Hx r Hr Hne. eapply related_extends; [by apply Hq|done].
  - intros l v z v' _ Hv. apply (for_each_establishes _ _ (λ r d, l ≠ r → related d relates_to l r)) in Hv
      as [Hall _].
    + rewrite Forall_forall in Hall. intros r Hr. by apply Hall.
    + intros d0 r. unfold relate. keeps.
    + intros r d d' Hq Hx Hne. eapply related_extends; [by apply Hq|done].
    + intros r v1 z1 v1' _ Hb Hne. rewrite (proj2 (N.eqb_neq _ _)) in Hb by done.
      by eapply relate_related.
Qed.

(** The checks before the transaction only read. *)
Definition same_db (d0 d : db) : Prop := d = d0.

Lemma split_checks_read d0 c : preserves (same_db d0) (validate_split settings c).
Proof.
  unfold validate_split, validate_split_child, validate_label, validate_body,
    validate_split_keywords, validate_split_keyword. keeps.
Qed.

Lemma refuse_conflicts_read d0 p l :
  preserves (same_db d0) (for_each l (λ child : SplitMemoryChild, refuse_label_conflict p (sp_label child))).
Proof. unfold refuse_label_conflict. keeps. Qed.

Lemma embeds_read d0 (l : list SplitMemoryChild) :
  preserves (same_db d0) (map_m (λ child, embed (sp_body child)) l).
Proof. unfold embed. keeps. Qed.

Lemma refuse_rejected_all p l w x w' :
  for_each l (refuse_rejected p) w = (Ok x, w') →
  w' = w ∧ Forall (λ b, rejected_body (w_db w) p b = None) l.
Proof.
  revert w. induction l as [|b l IH]; intros w H; cbn in H; [apply ret_ok in H as [_ <-]; auto|].
  apply bind_ok in H as (y & w1 & [Hb ->]%refuse_rejected_ok & H). apply IH in H as [-> Hl]. auto.
Qed.

Lemma check_children_read d0 c l : preserves (same_db d0) (check_split_children settings c l).
Proof. induction l as [|[child e] l IH]; cbn; unfold refuse_label_conflict; keeps. Qed.

Lemma map_m_length {A B} (f : A → M B) l w ys w' : map_m f l w = (Ok ys, w') → length ys = length l.
Proof.
  revert w ys. induction l as [|x l IH]; intros w ys H; cbn in H; [by apply ret_ok in H as [<- _]|].
  apply bind_ok in H as (y & w1 & _ & H). apply bind_ok in H as (ys' & w2 & H2 & H).
  apply ret_ok in H as [<- <-]. cbn. f_equal. by eapply IH.
Qed.

(** A failing program whose first part only reads. *)
Lemma err_after_read {A B} (m : M A) (f : A → M B) w e w' :
  preserves (same_db (w_db w)) m →
  (∀ a w1, w_db w1 = w_db w → f a w1 = (Err e, w') → w_db w' = w_db w1) →
  bind m f w = (Err e, w') → w_db w' = w_db w.
Proof.
  intros Hm Hf H. specialize (Hm w eq_refl). apply bind_err in H as [H|(a & w1 & H1 & H)].
  - by rewrite H in Hm.
  - rewrite H1 in Hm. cbn in Hm. rewrite (Hf a w1 Hm H). exact Hm.
Qed.

Lemma write_split_outcome c e es w source children w' :
  wf (w_db w) → write_split c e es w = (Ok (source, children), w') →
  ∃ parent,
    is_root (w_db w') (split_source_command c) e Stombstoned source ∧
    Forall2 (λ ce child, is_root (w_db w') (split_child_command c parent ce.1) ce.2 Sactive child)
      (zip (sc_children c) es) children ∧
    (∃ rev, revisions (w_db w') !! parent = Some rev ∧ r_memory_id rev = m_id source ∧
            r_revision rev = Some 1) ∧
    NoDup (m_id <$> children) ∧
    (∀ a b, a ∈ m_id <$> children → b ∈ m_id <$> children → a ≠ b →
       related (w_db w') relates_to a b) ∧
    extends (w_db w) (w_db w').
Proof.
  intros Hwf H. unfold write_split in H. apply bind_ok in H as (src & w1 & Hs & H).
  apply bind_ok in H as (parent & w2 & Hp & H). apply bind_ok in H as (rows' & w3 & Hc & H).
  apply bind_ok in H as ([] & w4 & Hr & H). apply ret_ok in H as [[= -> ->] <-].
  pose proof (new_root_wf _ _ _ _ _ _ Hwf Hs) as Hwf1. cbn in Hwf1.
  apply new_root_is_root in Hs as (Hroot & Hx1 & _).
  assert (w2 = w1 ∧ ∃ uid, uid = parent ∧ uid ∈ parent_uids (m_id source) 1 (w_db w1)) as (-> & ? & -> & Hin).
  { unfold root_revision_uid in Hp. apply bind_ok in Hp as (d & w5 & [<- <-]%ret_ok & Hp).
    destruct (parent_uids _ _ _) as [|uid l] eqn:E; [done|]. apply ret_ok in Hp as [<- <-].
    split; [done|]. exists uid. split; [done|left]. }
  apply list_elem_of_fmap in Hin as (rev & -> & Hrev).
  apply list_elem_of_filter in Hrev as [[Hrid Hrn] (k & Hk)%elem_rows].
  apply map_new_root in Hc as (Hall & Hx2 & Hnd & _). apply relate_family_related in Hr as [Hrel Hx3].
  assert (Hx23 : extends (w_db w1) (w_db w4)) by by eapply extends_trans.
  exists (r_rev_uid rev). split_and!; try done.
  - by eapply is_root_extends.
  - eapply Forall2_impl; [exact Hall|]. intros ce child Hch. exact (is_root_extends _ _ _ _ _ _ Hch Hx3).
  - exists rev. destruct Hx23 as (_ & Hsub & _). rewrite (wf_rev_key _ Hwf1 _ _ Hk).
    split; [by eapply lookup_weaken|done].
  - by eapply extends_trans.
Qed.

(** A split family is complete or absent.  When [split] creates a family,
    the source is a tombstoned root holding the exact source body, there is one
    active root per child in order, with the child's label, body and keywords
    and no rejected or conflicting text, every child's root revision descends
    from the source's root revision, the children have distinct identifiers,
    and an edge relates every ordered pair of them; every earlier row is kept.
    Any other outcome leaves the database as it was. *)
Theorem split_outcomes (c : SplitMemoryCommand) (w w' : world) (r : res exn SplitResult) :
  wf (w_db w) → split settings c w = (r, w') →
  match r with
  | Ok (MemorySplitCreated source children) => ∃ e es parent,
      is_root (w_db w') (split_source_command c) e Stombstoned source ∧
      Forall2 (λ ce child, is_root (w_db w') (split_child_command c parent ce.1) ce.2 Sactive child)
        (zip (sc_children c) es) children ∧
      length es = length (sc_children c) ∧
      (∃ rev, revisions (w_db w') !! parent = Some rev ∧ r_memory_id rev = m_id source ∧
              r_revision rev = Some 1) ∧
      NoDup (m_id <$> children) ∧
      (∀ a b, a ∈ m_id <$> children → b ∈ m_id <$> children → a ≠ b →
         related (w_db w') relates_to a b) ∧
      extends (w_db w) (w_db w') ∧
      Forall (λ body, rejected_body (w_db w) (sc_principal_id c) body = None)
        (sc_source_body c :: (sp_body <$> sc_children c))
  | Ok (SplitSimilar _) => w_db w' = w_db w
  | Err _ => w_db w' = w_db w
  end.
Proof.
  intros Hwf H. unfold split in H. destruct r as [res|e].
  - apply bind_ok in H as ([] & w1 & H1 & H). pose proof (split_checks_read (w_db w) c w eq_refl) as D1.
    rewrite H1 in D1. cbn in D1.
    apply bind_ok in H as ([] & w2 & H2 & H).
    pose proof (refuse_conflicts_read (w_db w) (sc_principal_id c) (sc_children c) w1 D1) as D2.
    rewrite H2 in D2. cbn in D2.
    apply bind_ok in H as (e & w3 & [He ->]%lift_ok & H). apply bind_ok in H as (es & w4 & Hes & H).
    pose proof (embeds_read (w_db w) (sc_children c) w2 D2) as D3. rewrite Hes in D3. cbn in D3.
    apply map_m_length in Hes. unfold same_db in D3.
    apply transaction_ok in H as (w5 & H & ->). cbn [w_db leave_tx].
    apply bind_ok in H as ([] & w6 & [-> Hrej]%refuse_rejected_all & H). cbn [w_db begin_tx] in Hrej.
    rewrite D3 in Hrej. apply bind_ok in H as (refused & w7 & Hc & H).
    pose proof (check_children_read (w_db w) c (zip (sc_children c) es) (begin_tx w4) D3) as D4.
    rewrite Hc in D4. cbn in D4. unfold same_db in D4. destruct refused as [matches|].
    + apply ret_ok in H as [<- <-]. done.
    + apply bind_ok in H as ([source children] & w8 & Hw%on_label_race_ok & H).
      apply ret_ok in H as [<- <-]. rewrite savepoint_ok in Hw. cbn [fst snd].
      apply write_split_outcome in Hw as (parent & Hs & Hch & Hp & Hnd & Hrel & Hext); [|by rewrite D4].
      rewrite D4 in Hext.
      exists e, es, parent. by split_and!.
  - revert H. apply err_after_read; [apply split_checks_read|]. intros _ w1 D1.
    apply err_after_read; [rewrite D1; apply refuse_conflicts_read|]. intros _ w2 D2.
    apply err_after_read; [apply preserves_lift|]. intros e1 w3 D3.
    apply err_after_read; [apply embeds_read|]. intros es w4 D4.
    apply transaction_rollback.
Qed.
End split.

(** ** Concrete runs *)
Definition sample_provider : EmbeddingProvider := {|
  provider_embed := λ _, Ok [replicate 1536 (JFloat f1)];
  provider_model := lit "text-embedding-3-small";
  provider_dimensions := 1536;
|}.

Definition sample_settings : MemorySettings := {|
  dedup_dup := f_ratio 92 100; dedup_sim := f_ratio 80 100; label_max := 64;
  memory_max_tokens := 128 |}.

Definition empty_world : world :=
  {| w_db := empty_db; w_tick := 0; w_tx_now := 0; w_in_tx := false |}.

Definition sample_command (name text : str) : CreateMemoryCommand := {|
  cm_principal_id := lit "p"; cm_label := name; cm_body := text; cm_kind := Kfact;
  cm_editor := lit "agent:a"; cm_machine_id := lit "m"; cm_keywords := []; cm_project_key := None;
  cm_thread_origin := None; cm_origin_thread_id := None; cm_origin_path := None;
  cm_origin_location := None; cm_origin_locations := []; cm_force := false;
  cm_parent_uid := None; cm_revision_reason := [] |}.

Definition run_create (c : CreateMemoryCommand) (w : world) :=
  @create sample_env sample_postgres sample_tokenizer sample_provider sample_settings c w.
Definition sample_create := run_create (sample_command (lit "tea") (lit "likes tea")) empty_world.

Definition is_created (r : res exn CreateResult) : bool :=
  match r with Ok (MemoryCreated _) => true | _ => false end.

Lemma create_outcomes_witness :
  is_created sample_create.1 = true ∧
  ∃ row rev, w_db sample_create.2 = put_head row rev empty_db ∧ m_revision row = 1.
Proof.
  assert (is_created sample_create.1 = true) as Hc by (vm_compute; reflexivity).
  split; [exact Hc|].
  pose proof (@create_outcomes sample_env sample_postgres sample_tokenizer sample_provider
    sample_settings _ _ sample_create.2 sample_create.1 (surjective_pairing _)) as H.
  destruct sample_create.1 as [[row|]|]; try discriminate Hc.
  destruct H as (e & id & uid & t & _ & -> & Hdb & _). eauto.
Defined.

Definition sample_patch : PatchMemoryCommand := {|
  pm_memory_id := 7%N; pm_expected_revision := 1; pm_editor := lit "user"; pm_reason := [];
  pm_machine_id := lit "m"; pm_body := None; pm_label := Some (lit "green tea");
  pm_keywords := None; pm_kind := None; pm_origin_path := None; pm_pin := None;
  pm_status := None |}.

Definition sample_patched :=
  @patch sample_env sample_postgres sample_tokenizer sample_provider sample_settings sample_patch
    sample_world.

Lemma patch_outcomes_witness :
  ∃ row, sample_patched.1 = Ok row ∧ m_label row = lit "green tea" ∧ m_revision row = 2.
Proof.
  assert (is_ok sample_patched.1 = true) as Hok by (vm_compute; reflexivity).
  pose proof (@patch_outcomes sample_env sample_postgres sample_tokenizer sample_provider
    sample_settings sample_patch sample_world sample_patched.2 sample_patched.1
    sample_db_wf (surjective_pairing _)) as H.
  destruct sample_patched.1 as [row|]; [|discriminate Hok].
  destruct H as (u & rev & Hu & Hr & _ & Hrow & Hl & _). exists row. split; [reflexivity|].
  split; [exact Hl|]. rewrite Hrow, Hr. reflexivity.
Defined.

Definition run_stage (w : world) :=
  @stage_symphony sample_env sample_postgres sample_tokenizer sample_provider sample_settings
    (sample_command (lit "note") (lit "a run note")) 9%N (lit "run") (lit "agent") w.
Definition sample_staged := run_stage empty_world.

Lemma stage_replay_witness :
  ∃ row, sample_staged.1 = Ok row ∧ run_stage sample_staged.2 = (Ok row, sample_staged.2).
Proof.
  assert (is_ok sample_staged.1 = true) as Hok by (vm_compute; reflexivity).
  destruct sample_staged as [[row|?] w1] eqn:E; [|discriminate Hok]. exists row. split; [reflexivity|].
  exact (proj2 (proj2 (@stage_replay sample_env sample_postgres sample_tokenizer sample_provider
    sample_settings _ 9%N (lit "run") (lit "agent") empty_world w1 row wf_empty E)) w1 eq_refl).
Defined.

Definition sample_split : SplitMemoryCommand := {|
  sc_principal_id := lit "p"; sc_source_body := lit "tea and coffee";
  sc_children := [
    {| sp_label := lit "tea"; sp_body := lit "likes tea"; sp_keywords := [lit "tea"; lit "drink"] |};
    {| sp_label := lit "coffee"; sp_body := lit "likes coffee";
       sp_keywords := [lit "coffee"; lit "drink"] |}];
  sc_editor := lit "agent:a"; sc_machine_id := lit "m"; sc_project_key := None;
  sc_thread_origin := None; sc_origin_thread_id := None; sc_origin_path := None;
  sc_origin_location := None |}.

Definition sample_family :=
  @split sample_env sample_postgres sample_tokenizer sample_provider ascii_unicode sample_settings
    sample_split empty_world.

Definition is_family (r : res exn SplitResult) : bool :=
  match r with Ok (MemorySplitCreated _ _) => true | _ => false end.

Lemma split_outcomes_witness :
  is_family sample_family.1 = true ∧
  ∃ children : list MemoryUnit, NoDup (m_id <$> children) ∧ length children = 2%nat.
Proof.
  assert (is_family sample_family.1 = true) as Hc by (vm_compute; reflexivity).
  split; [exact Hc|].
  pose proof (@split_outcomes sample_env sample_postgres sample_tokenizer sample_provider ascii_unicode
    sample_settings sample_split empty_world sample_family.2 sample_family.1 wf_empty
    (surjective_pairing _)) as H.
  destruct sample_family.1 as [[source children|]|]; try discriminate Hc.
  destruct H as (e & es & parent & _ & Hall & Hes & _ & Hnd & _). exists children.
  split; [exact Hnd|]. rewrite <- (Forall2_length _ _ _ Hall).
  destruct es as [|? [|? [|? ?]]]; try discriminate Hes. reflexivity.
Defined.

Lemma list_pages_witness :
  list_memories (λ _ _, true) (with_offset {| lq_project_key := None; lq_status := None;
      lq_q := None; lq_limit := 50; lq_offset := 0 |} 0) sample_world
  = (Ok ([sample_head], 1), sample_world).
Proof.
  exact (proj1 (list_pages (λ _ _, true) {| lq_project_key := None; lq_status := None;
    lq_q := None; lq_limit := 50; lq_offset := 0 |} sample_world ltac:(cbn; lia)) 0%nat).
Defined.
