(* ===== verification/Queue.v ===== *)
(** * The consent queue: [src/src/spine/queue/service.py] and [queue/contracts.py]

    Extraction and seeds put candidate memories behind consent cards; a card is
    decided once, by a person or passively, and its decision enacts the
    verdict: activate, merge, supersede, contradict, retire, repair or split. *)
From S2P Require Import Prelude PyStr PyFloat PyJson PyPath Ids Scorer.
From S2P Require Import Embeddings Store MemoryDb MemoryService.
Open Scope Z_scope.

(** [hashlib.sha256(s.encode("utf-8")).hexdigest()]. *)
Class Sha256 := { sha256_hex : str → str }.

(** [len(s.encode("utf-8"))]. *)
Definition utf8_width (c : N) : Z :=
  if (c <? 128)%N then 1 else if (c <? 2048)%N then 2 else if (c <? 65536)%N then 3 else 4.
Definition utf8_length (s : str) : Z := zsum (utf8_width <$> s).

(** ** Requests *)
Record ExtractionCandidate := {
  xc_label : str;
  xc_body : str;
  xc_kind : MemoryKind;
  xc_keywords : list str;
  xc_project_key : option str;
  xc_origin_locations : list str;
  xc_verdict : Verdict;
  xc_target_ids : list uuid;
}.

(** Field limits and [require_candidate_shape]. *)
Definition extraction_candidate_valid (c : ExtractionCandidate) : bool :=
  (1 <=? zlen (xc_label c)) && (zlen (xc_label c) <=? 64) && (1 <=? zlen (xc_body c))
  && (2 <=? zlen (xc_keywords c)) && (zlen (xc_keywords c) <=? 5)
  && forallb (λ k, negb (blank k) && bool_decide (k = strip k)) (xc_keywords c)
  && nodupb (xc_keywords c) && nodupb (xc_target_ids c)
  && (if bool_decide (xc_verdict c = Vnew) then bool_decide (xc_target_ids c = [])
      else bool_decide (xc_target_ids c ≠ [])).

Record ExtractionRequest := {
  xr_principal_id : str;
  xr_thread_id : uuid;
  xr_machine_id : str;
  xr_editor : str;
  xr_origin_location : option str;
  xr_candidates : list ExtractionCandidate;
}.

Record SeedRequest := {
  sd_principal_id : str;
  sd_batch_uid : uuid;
  sd_source_name : str;
  sd_source_sha256 : str;
  sd_markdown : str;
  sd_machine_id : str;
  sd_editor : str;
  sd_candidates : list ExtractionCandidate;
}.

Record QueueDecisionRequest := {
  dr_decision : DecisionValue;
  dr_approval_mode : ApprovalMode;
  dr_actor_class : ActorClass;
  dr_machine_id : str;
  dr_amended_body : option str;
}.

(** [require_signal_pair]. *)
Definition require_signal_pair (r : QueueDecisionRequest) : bool :=
  negb (bool_decide (dr_decision r = deny)
        && (bool_decide (dr_approval_mode r ≠ explicit_mode) || bool_decide (dr_actor_class r ≠ human)))
  && negb (bool_decide (dr_approval_mode r = passive_mode) && bool_decide (dr_actor_class r ≠ passive))
  && negb (bool_decide (dr_approval_mode r = explicit_mode) && bool_decide (dr_actor_class r ≠ human)).

Record QueueFeedbackRequest := {
  qf_feedback : str;
  qf_machine_id : str;
}.

(** ** Responses *)
Record QueueCard := {
  qc_item : ApprovalQueueItem;
  qc_candidate : MemoryUnit;
  qc_neighbors : list SimilarityMemoryCard;
}.

Record QueueDecisionResponse := {
  qr_card : QueueCard;
  qr_decision : DecisionValue;
  qr_approval_mode : ApprovalMode;
  qr_actor_class : ActorClass;
  qr_decision_uid : str;
}.

Record ExtractionResponse := {
  er_cards : list QueueCard;
  er_duplicate_count : Z;
}.

Record BatchDecisionResponse := {
  br_batch_uid : uuid;
  br_decision : DecisionValue;
  br_cards : list QueueCard;
  br_already_decided : Z;
}.

(** ** Proposals of the curator *)

(** [_proposal_text]. *)
Definition proposal_text (proposal : list (str * json)) (key : string) : M str :=
  match aget (lit key) proposal with
  | Some (JStr value) =>
      require (negb (blank value)) (QueueValidationError "curator text must be nonblank text") ;!
      ret value
  | _ => raise (QueueValidationError "curator text must be nonblank text")
  end.

Section queue.
Context {EN : Env} {PG : Postgres} {TK : Tokenizer} {EP : EmbeddingProvider} {UC : Unicode}
  {SH : Sha256}.
Context (settings : MemorySettings).

(** [_proposal_keywords]. *)
Definition proposal_keywords (proposal : list (str * json)) : M (list str) :=
  match aget (lit "keywords") proposal with
  | Some (JList value) =>
      require ((2 <=? zlen value) && (zlen value <=? 5))
        (QueueValidationError "curator keywords must contain 2-5 values") ;!
      let texts := omap as_str value in
      require ((length texts =? length value)%nat && forallb keyword_ok texts && nodupb texts)
        (QueueValidationError "curator keywords must be distinct lowercase terms") ;!
      ret texts
  | _ => raise (QueueValidationError "curator keywords must contain 2-5 values")
  end.

(** [_proposal_children]. *)
Definition proposal_child (item : json) : M SplitMemoryChild :=
  match item with
  | JObj kv =>
      label <-! proposal_text kv "label";
      body <-! proposal_text kv "body";
      keywords <-! proposal_keywords kv;
      ret {| sp_label := label; sp_body := body; sp_keywords := keywords |}
  | _ => raise (QueueValidationError "curator split child must be an object")
  end.

Definition proposal_children (proposal : list (str * json)) : M (list SplitMemoryChild) :=
  match aget (lit "children") proposal with
  | Some (JList raw) => map_m proposal_child raw
  | _ => raise (QueueValidationError "curator split requires children")
  end.

(** ** Reads *)

(** [_card]. *)
Definition queue_card (row : ApprovalQueueItem) (neighbors : option (list SimilarityMemoryCard)) :
    M QueueCard :=
  d <-! get_db;
  match units d !! q_candidate_memory_id row with
  | None => raise NoResultFound
  | Some candidate =>
      let neighbors := match neighbors with
        | Some l => l
        | None => omap (λ id, card_of (m_embedding candidate) <$> units d !! id) (q_neighbor_ids row)
        end in
      ret {| qc_item := row; qc_candidate := candidate; qc_neighbors := neighbors |}
  end.

(** [_locked_memory]. *)
Definition locked_memory (memory_id : uuid) : M MemoryUnit :=
  d <-! get_db;
  match units d !! memory_id with
  | Some row => ret row
  | None => raise (QueueConflictError "memory is missing")
  end.

(** [_memory_row]. *)
Definition memory_row (memory_id : uuid) (principal_id : str) : M MemoryUnit :=
  d <-! get_db;
  match units d !! memory_id with
  | Some row =>
      require (bool_decide (m_principal_id row = principal_id))
        (QueueValidationError "curator memory is missing") ;!
      ret row
  | None => raise (QueueValidationError "curator memory is missing")
  end.

(** [_is_active]. *)
Definition is_active (d : db) (principal_id : str) (memory_id : uuid) : bool :=
  match units d !! memory_id with
  | Some u => bool_decide (m_principal_id u = principal_id) && bool_decide (m_status u = Sactive)
  | None => false
  end.

(** [ORDER BY created_at, item_uid]. *)
Definition item_leb (a b : ApprovalQueueItem) : bool :=
  (q_created_at a <? q_created_at b)
  || ((q_created_at a =? q_created_at b) && str_leb (q_item_uid a) (q_item_uid b)).

Definition items_where (d : db) (cond : ApprovalQueueItem → bool) : list ApprovalQueueItem :=
  sort_by item_leb (filter (λ q, cond q = true) (rows (items d))).

(** [list_pending] and [list_batch]. *)
Definition list_pending (principal_id : str) (thread_id : option uuid) (birthplace : option Birthplace) :
    M (list QueueCard) :=
  d <-! get_db;
  map_m (λ row, queue_card row None) (items_where d (λ q,
    bool_decide (q_principal_id q = principal_id) && bool_decide (q_state q = pending)
    && match thread_id with
       | Some t => bool_decide (q_birthplace_thread_id q = Some t) | None => true end
    && match birthplace with Some b => bool_decide (q_birthplace q = b) | None => true end)).

Definition list_batch (batch_uid : uuid) (birthplace : Birthplace) : M (list QueueCard) :=
  d <-! get_db;
  map_m (λ row, queue_card row None) (items_where d (λ q,
    bool_decide (q_batch_uid q = Some batch_uid) && bool_decide (q_birthplace q = birthplace))).

(** ** Birth of a card *)

(** [_discard_candidate]. *)
Definition discard_candidate (memory_id : uuid) (machine_id : str) : M unit :=
  transaction (
    candidate <-! locked_memory memory_id;
    rev_uid <-! mint;
    cas_update_memory_unit {|
      cu_memory_id := memory_id; cu_expected_revision := m_revision candidate;
      cu_rev_uid := rev_uid; cu_editor := lit "extraction"; cu_origin_machine_id := machine_id;
      cu_changes := status_change Stombstoned; cu_reason := lit "invalid_queue_target" |} ;!
    ret tt).

Definition thread_item (r : ExtractionRequest) (verdict : Verdict) (targets neighbors : list uuid)
    (candidate : uuid) (uid : str) (now : Z) : ApprovalQueueItem := {|
  q_item_uid := uid; q_candidate_memory_id := candidate; q_principal_id := xr_principal_id r;
  q_birthplace := Bthread; q_birthplace_thread_id := Some (xr_thread_id r); q_batch_uid := None;
  q_source_name := None; q_source_sha256 := None; q_birthplace_run_id := None;
  q_birthplace_origin_agent := None; q_judged_context := None; q_candidate_revision := None;
  q_curator_run_uid := None; q_curator_finding_uid := None; q_proposal_payload := None;
  q_verdict := verdict; q_neighbor_ids := neighbors; q_target_ids := targets; q_state := pending;
  q_created_at := now; q_decided_at := None |}.

Definition seed_item (r : SeedRequest) (verdict : Verdict) (targets neighbors : list uuid)
    (candidate : uuid) (uid : str) (now : Z) : ApprovalQueueItem := {|
  q_item_uid := uid; q_candidate_memory_id := candidate; q_principal_id := sd_principal_id r;
  q_birthplace := Bseed; q_birthplace_thread_id := None; q_batch_uid := Some (sd_batch_uid r);
  q_source_name := Some (sd_source_name r); q_source_sha256 := Some (sd_source_sha256 r);
  q_birthplace_run_id := None;
  q_birthplace_origin_agent := None; q_judged_context := None; q_candidate_revision := None;
  q_curator_run_uid := None; q_curator_finding_uid := None; q_proposal_payload := None;
  q_verdict := verdict; q_neighbor_ids := neighbors; q_target_ids := targets; q_state := pending;
  q_created_at := now; q_decided_at := None |}.

(** The common part of [_enqueue] and [_enqueue_seed]: the active neighbours,
    the target check, and the card of a new row. *)
Definition active_neighbors (principal_id : str) (created : CandidateCreated) :
    M (list SimilarityMemoryCard) :=
  d <-! get_db;
  ret (filter (λ n, is_active d principal_id (card_memory_id n) = true) (cc_neighbors created)).

Definition check_targets (machine_id : str) (target_ids : list uuid)
    (neighbors : list SimilarityMemoryCard) (created : CandidateCreated) : M unit :=
  if forallb (λ t, bool_decide (t ∈ (card_memory_id <$> neighbors))) target_ids then ret tt
  else
    discard_candidate (m_id (cc_memory created)) machine_id ;!
    raise (QueueValidationError "verdict targets must be active machine-fetched neighbors").

Definition enqueue (r : ExtractionRequest) (verdict : Verdict) (target_ids : list uuid)
    (created : CandidateCreated) : M QueueCard :=
  neighbors <-! active_neighbors (xr_principal_id r) created;
  check_targets (xr_machine_id r) target_ids neighbors created ;!
  item_uid <-! mint;
  transaction (
    t <-! now;
    row <-! insert_item (thread_item r verdict target_ids (card_memory_id <$> neighbors)
                           (m_id (cc_memory created)) item_uid t);
    queue_card row (Some neighbors)).

Definition enqueue_seed (r : SeedRequest) (verdict : Verdict) (target_ids : list uuid)
    (created : CandidateCreated) : M QueueCard :=
  neighbors <-! active_neighbors (sd_principal_id r) created;
  check_targets (sd_machine_id r) target_ids neighbors created ;!
  transaction (
    item_uid <-! mint;
    t <-! now;
    row <-! insert_item (seed_item r verdict target_ids (card_memory_id <$> neighbors)
                           (m_id (cc_memory created)) item_uid t);
    queue_card row (Some neighbors)).

(** [replaces]: a merge or supersede is never refused as its targets' duplicate. *)
Definition replaced_ids (draft : ExtractionCandidate) : list uuid :=
  match xc_verdict draft with Vmerge | Vsupersede => xc_target_ids draft | _ => [] end.

Definition extraction_command (r : ExtractionRequest) (draft : ExtractionCandidate) :
    CreateMemoryCommand := {|
  cm_principal_id := xr_principal_id r; cm_label := xc_label draft; cm_body := xc_body draft;
  cm_kind := xc_kind draft; cm_editor := xr_editor r; cm_machine_id := xr_machine_id r;
  cm_keywords := xc_keywords draft; cm_project_key := xc_project_key draft;
  cm_thread_origin := Some (uuid_str (xr_thread_id r)); cm_origin_thread_id := Some (xr_thread_id r);
  cm_origin_path := None; cm_origin_location := xr_origin_location r;
  cm_origin_locations := xc_origin_locations draft; cm_force := false; cm_parent_uid := None;
  cm_revision_reason := [] |}.

(** [QueueService.extract]: the loop carries the cards and the duplicates. *)
Definition extract_step (r : ExtractionRequest) (st : list QueueCard * Z)
    (draft : ExtractionCandidate) : M (list QueueCard * Z) :=
  let '(cards, duplicates) := st in
  created <-! create_candidate settings (extraction_command r draft) (replaced_ids draft);
  match created with
  | None => ret (cards, duplicates + 1)
  | Some created =>
      card <-! enqueue r (xc_verdict draft) (xc_target_ids draft) created;
      ret (cards ++ [card], duplicates)
  end.

Definition extract (r : ExtractionRequest) : M ExtractionResponse :=
  st <-! fold_m (extract_step r) ([], 0) (xr_candidates r);
  ret {| er_cards := st.1; er_duplicate_count := st.2 |}.

(** [_validate_seed]. *)
Definition markdown_extension (name : str) : bool :=
  endswith (lit ".md") (py_lower name) || endswith (lit ".markdown") (py_lower name).

Definition validate_seed (r : SeedRequest) : M unit :=
  require (bool_decide (path_name (parse_path (sd_source_name r)) = sd_source_name r)
           && markdown_extension (sd_source_name r))
    (QueueValidationError "source_name must be a Markdown basename") ;!
  require (negb (blank (sd_markdown r))) (QueueValidationError "seed markdown must not be blank") ;!
  require (utf8_length (sd_markdown r) <=? 24 * 1024)
    (QueueValidationError "seed markdown exceeds the 24 KiB limit") ;!
  require (bool_decide (sha256_hex (sd_markdown r) = sd_source_sha256 r))
    (QueueValidationError "seed markdown digest does not match source_sha256").

Definition seed_thread_origin (r : SeedRequest) : str := lit "seed:" ++ uuid_str (sd_batch_uid r).

(** [_seed_batch]: what an earlier ingestion of the batch or of the rejected
    document left; [None] when the document is new. *)
Definition seed_batch (r : SeedRequest) : M (option (list QueueCard)) :=
  d <-! get_db;
  match items_where d (λ q, bool_decide (q_batch_uid q = Some (sd_batch_uid r))) with
  | (first :: _) as batch =>
      require (bool_decide (q_principal_id first = sd_principal_id r)
               && bool_decide (q_source_name first = Some (sd_source_name r))
               && bool_decide (q_source_sha256 first = Some (sd_source_sha256 r)))
        (QueueConflictError "seed batch UID already names a different document") ;!
      cards <-! map_m (λ row, queue_card row None) batch;
      ret (Some cards)
  | [] =>
      if existsb (λ q, bool_decide (q_principal_id q = sd_principal_id r)
            && bool_decide (q_birthplace q = Bseed)
            && bool_decide (q_source_sha256 q = Some (sd_source_sha256 r))
            && bool_decide (q_state q = rejected)) (rows (items d))
      then ret (Some [])
      else
        source <-! one_or_none (filter (λ u, m_principal_id u = sd_principal_id r ∧
                     m_thread_origin u = Some (seed_thread_origin r)) (rows (units d)));
        match source with
        | None => ret None
        | Some source =>
            require (bool_decide (m_origin_path source = Some (sd_source_name r))
                     && bool_decide (sha256_hex (m_body source) = sd_source_sha256 r))
              (QueueConflictError "seed batch UID already names a different document") ;!
            ret (Some [])
        end
  end.

(** [f"Seed source · {source_name}"[:120]]. *)
Definition seed_source_label (r : SeedRequest) : str :=
  slice_to 120 (lit "Seed source " ++ [183%N; 32%N] ++ sd_source_name r).

Definition seed_source_command (r : SeedRequest) : CreateMemoryCommand := {|
  cm_principal_id := sd_principal_id r; cm_label := seed_source_label r; cm_body := sd_markdown r;
  cm_kind := Kproject_note; cm_editor := sd_editor r; cm_machine_id := sd_machine_id r;
  cm_keywords := [lit "seed"; lit "source"]; cm_project_key := None;
  cm_thread_origin := Some (seed_thread_origin r); cm_origin_thread_id := None;
  cm_origin_path := Some (sd_source_name r); cm_origin_location := None;
  cm_origin_locations := []; cm_force := false; cm_parent_uid := None;
  cm_revision_reason := lit "seed_source_split" |}.

Definition seed_command (r : SeedRequest) (parent : str) (draft : ExtractionCandidate) :
    CreateMemoryCommand := {|
  cm_principal_id := sd_principal_id r; cm_label := xc_label draft; cm_body := xc_body draft;
  cm_kind := xc_kind draft; cm_editor := sd_editor r; cm_machine_id := sd_machine_id r;
  cm_keywords := xc_keywords draft; cm_project_key := xc_project_key draft;
  cm_thread_origin := None; cm_origin_thread_id := None; cm_origin_path := Some (sd_source_name r);
  cm_origin_location := None; cm_origin_locations := []; cm_force := false;
  cm_parent_uid := Some parent; cm_revision_reason := lit "seed_split_child" |}.

Definition seed_step (r : SeedRequest) (parent : str) (st : list QueueCard * Z)
    (draft : ExtractionCandidate) : M (list QueueCard * Z) :=
  let '(cards, duplicates) := st in
  created <-! create_candidate settings (seed_command r parent draft) (replaced_ids draft);
  match created with
  | None => ret (cards, duplicates + 1)
  | Some created =>
      card <-! enqueue_seed r (xc_verdict draft) (xc_target_ids draft) created;
      ret (cards ++ [card], duplicates)
  end.

(** [_relate_siblings]. *)
Definition relate_siblings (memory_ids : list uuid) : M unit :=
  if zlen memory_ids <? 2 then ret tt else transaction (relate_family memory_ids).

(** [QueueService.ingest_seed]. *)
Definition ingest_seed (r : SeedRequest) : M ExtractionResponse :=
  validate_seed r ;!
  existing <-! seed_batch r;
  match existing with
  | Some cards =>
      ret {| er_cards := cards; er_duplicate_count := zlen (sd_candidates r) - zlen cards |}
  | None =>
      source <-! create_split_source settings (seed_source_command r);
      st <-! fold_m (seed_step r (snd source)) ([], 0) (sd_candidates r);
      relate_siblings ((λ card, m_id (qc_candidate card)) <$> fst st) ;!
      ret {| er_cards := st.1; er_duplicate_count := st.2 |}
  end.

(** [QueueService.enqueue_curator]. *)
Inductive CuratorMove := needs_replacement | in_place.
Definition curator_move (action : Verdict) : CuratorMove :=
  match action with Vmerge | Vsupersede => needs_replacement | _ => in_place end.

Definition curator_command (source : MemoryUnit) (principal_id machine_id finding_uid label body : str)
    (keywords : list str) : CreateMemoryCommand := {|
  cm_principal_id := principal_id; cm_label := label; cm_body := body; cm_kind := m_kind source;
  cm_editor := lit "maintenance"; cm_machine_id := machine_id; cm_keywords := keywords;
  cm_project_key := m_project_key source; cm_thread_origin := m_thread_origin source;
  cm_origin_thread_id := m_origin_thread_id source; cm_origin_path := m_origin_path source;
  cm_origin_location := None; cm_origin_locations := []; cm_force := false; cm_parent_uid := None;
  cm_revision_reason := curation_reason finding_uid (lit "proposal") |}.

Definition curator_item (run_uid finding_uid principal_id : str) (action : Verdict)
    (proposal : list (str * json)) (candidate : MemoryUnit) (neighbors targets : list uuid)
    (uid : str) (now : Z) : ApprovalQueueItem := {|
  q_item_uid := uid; q_candidate_memory_id := m_id candidate; q_principal_id := principal_id;
  q_birthplace := Bcurator; q_birthplace_thread_id := None; q_batch_uid := None;
  q_source_name := None; q_source_sha256 := None; q_birthplace_run_id := None;
  q_birthplace_origin_agent := None; q_judged_context := None;
  q_candidate_revision := Some (m_revision candidate); q_curator_run_uid := Some run_uid;
  q_curator_finding_uid := Some finding_uid; q_proposal_payload := Some proposal;
  q_verdict := action; q_neighbor_ids := neighbors; q_target_ids := targets; q_state := pending;
  q_created_at := now; q_decided_at := None |}.

(** The replacement candidate of a merge or supersede, [None] when a duplicate
    already exists; other actions keep the source itself. *)
Definition curator_candidate (source : MemoryUnit) (principal_id machine_id finding_uid : str)
    (action : Verdict) (memory_ids : list uuid) (proposal : list (str * json)) :
    M (option (MemoryUnit * list uuid * list SimilarityMemoryCard)) :=
  match curator_move action with
  | needs_replacement =>
      label <-! proposal_text proposal "label";
      body <-! proposal_text proposal "body";
      keywords <-! proposal_keywords proposal;
      candidate <-! create_curator_candidate settings
        (curator_command source principal_id machine_id finding_uid label body keywords) memory_ids;
      match candidate with
      | None => ret None
      | Some created =>
          candidate_row <-! memory_row (m_id (cc_memory created)) principal_id;
          ret (Some (candidate_row, memory_ids, cc_neighbors created))
      end
  | in_place =>
      ret (Some (source, match action with Vcontradict => drop 1 memory_ids | _ => [] end, []))
  end.

Definition enqueue_curator (run_uid finding_uid principal_id machine_id : str) (action : Verdict)
    (memory_ids : list uuid) (proposal : list (str * json)) : M (option QueueCard) :=
  match memory_ids with
  | [] => raise (QueueValidationError "curator actions require implicated memories")
  | first :: _ =>
      source <-! memory_row first principal_id;
      candidate <-! curator_candidate source principal_id machine_id finding_uid action memory_ids proposal;
      match candidate with
      | None => ret None
      | Some (candidate_row, target_ids, neighbors) =>
          item_uid <-! mint;
          transaction (
            t <-! now;
            row <-! insert_item (curator_item run_uid finding_uid principal_id action proposal
                      candidate_row (card_memory_id <$> neighbors) target_ids item_uid t);
            card <-! queue_card row (Some neighbors);
            ret (Some card))
      end
  end.

(** ** Decisions *)

(** [UPDATE approval_queue_item SET state, decided_at ... RETURNING *]. *)
Definition decided_item (state : ItemState) (t : Z) (q : ApprovalQueueItem) : ApprovalQueueItem := {|
  q_item_uid := q_item_uid q; q_candidate_memory_id := q_candidate_memory_id q;
  q_principal_id := q_principal_id q; q_birthplace := q_birthplace q;
  q_birthplace_thread_id := q_birthplace_thread_id q; q_batch_uid := q_batch_uid q;
  q_source_name := q_source_name q; q_source_sha256 := q_source_sha256 q;
  q_birthplace_run_id := q_birthplace_run_id q;
  q_birthplace_origin_agent := q_birthplace_origin_agent q; q_judged_context := q_judged_context q;
  q_candidate_revision := q_candidate_revision q; q_curator_run_uid := q_curator_run_uid q;
  q_curator_finding_uid := q_curator_finding_uid q; q_proposal_payload := q_proposal_payload q;
  q_verdict := q_verdict q; q_neighbor_ids := q_neighbor_ids q; q_target_ids := q_target_ids q;
  q_state := state; q_created_at := q_created_at q; q_decided_at := Some t |}.

Definition update_item_state (item_uid : str) (state : ItemState) : M ApprovalQueueItem :=
  d <-! get_db;
  t <-! now;
  match items d !! item_uid with
  | Some q =>
      let q' := decided_item state t q in
      put_db (set_items (<[item_uid := q']> (items d)) d) ;!
      ret q'
  | None => raise NoResultFound
  end.

Definition state_of (decision : DecisionValue) : ItemState :=
  match decision with approve => approved | deny => rejected end.

(** The decision row, the state change and the answer: the common end of
    [_decide_row] and [_decide_curator_row]. *)
Definition record_decision (row : ApprovalQueueItem) (r : QueueDecisionRequest) :
    M QueueDecisionResponse :=
  decision_uid <-! mint;
  t <-! now;
  insert_decision {| d_decision_uid := decision_uid; d_item_uid := q_item_uid row;
    d_decision := dr_decision r; d_approval_mode := dr_approval_mode r;
    d_actor_class := dr_actor_class r; d_created_at := t |} ;!
  updated <-! update_item_state (q_item_uid row) (state_of (dr_decision r));
  card <-! queue_card updated None;
  ret {| qr_card := card; qr_decision := dr_decision r; qr_approval_mode := dr_approval_mode r;
         qr_actor_class := dr_actor_class r; qr_decision_uid := decision_uid |}.

(** [_enact_targets]. *)
Definition verdict_edge (v : Verdict) : option EdgeType :=
  match v with
  | Vmerge => Some merged_from | Vsupersede => Some supersedes | Vcontradict => Some contradicts
  | _ => None
  end.

Definition target_reason (row : ApprovalQueueItem) : str :=
  match q_birthplace row with
  | Bcurator => curation_reason (default (lit "None") (q_curator_finding_uid row))
                  (verdict_str (q_verdict row))
  | _ => verdict_str (q_verdict row)
  end.

Definition enact_target (row : ApprovalQueueItem) (candidate : MemoryUnit) (machine_id : str)
    (edge_type : EdgeType) (target_id : uuid) : M unit :=
  target <-! locked_memory target_id;
  require (bool_decide (m_principal_id target = m_principal_id candidate)
           && bool_decide (m_status target = Sactive))
    (QueueConflictError "verdict target is no longer an active same-principal unit") ;!
  (if bool_decide (q_verdict row ∈ [Vmerge; Vsupersede]) then
     rev_uid <-! mint;
     cas_update_memory_unit {|
       cu_memory_id := m_id target; cu_expected_revision := m_revision target;
       cu_rev_uid := rev_uid; cu_editor := lit "maintenance"; cu_origin_machine_id := machine_id;
       cu_changes := status_change Stombstoned; cu_reason := target_reason row |} ;!
     ret tt
   else ret tt) ;!
  relate edge_type (m_id candidate) (m_id target).

Definition enact_targets (row : ApprovalQueueItem) (candidate : MemoryUnit) (machine_id : str) :
    M unit :=
  match verdict_edge (q_verdict row) with
  | None => ret tt
  | Some edge_type =>
      for_each (q_target_ids row) (enact_target row candidate machine_id edge_type)
  end.

(** [_curator_cas]. *)
Definition curator_cas (candidate : MemoryUnit) (machine_id : str) (row : ApprovalQueueItem)
    (suffix : string) (changes : MemoryUnitChanges) : M unit :=
  rev_uid <-! mint;
  cas_update_memory_unit {|
    cu_memory_id := m_id candidate; cu_expected_revision := m_revision candidate;
    cu_rev_uid := rev_uid; cu_editor := lit "maintenance"; cu_origin_machine_id := machine_id;
    cu_changes := changes;
    cu_reason := curation_reason (default (lit "None") (q_curator_finding_uid row)) (lit suffix) |} ;!
  ret tt.

Definition keywords_change (l : list str) : MemoryUnitChanges := {|
  ch_label := None; ch_body := None; ch_kind := None; ch_keywords := Some l; ch_embedding := None;
  ch_embedding_model := None; ch_project_key := None; ch_thread_origin := None;
  ch_origin_thread_id := None; ch_origin_path := None; ch_origin_location := None; ch_pin := None;
  ch_status := None; ch_stats := None; ch_bias := None |}.

(** The effect of an approved curator verdict. *)
Definition enact_curator (row : ApprovalQueueItem) (candidate : MemoryUnit) (r : QueueDecisionRequest)
    (prepared_split : option (list PreparedSplitChild)) (amendment : option MemoryUnitChanges) :
    M unit :=
  match q_verdict row with
  | Vmerge | Vsupersede =>
      require (bool_decide (m_status candidate = Scandidate))
        (QueueConflictError "curator replacement is no longer pending") ;!
      enact_targets row candidate (dr_machine_id r) ;!
      curator_cas candidate (dr_machine_id r) row "activate"
        (default (status_change Sactive) amendment)
  | Vcontradict =>
      require (bool_decide (m_status candidate = Sactive))
        (QueueConflictError "curator contradiction source is no longer active") ;!
      enact_targets row candidate (dr_machine_id r)
  | Vretire =>
      curator_cas candidate (dr_machine_id r) row "retire" (status_change Stombstoned)
  | Vkeyword_repair =>
      keywords <-! proposal_keywords (default [] (q_proposal_payload row));
      curator_cas candidate (dr_machine_id r) row "keyword-repair" (keywords_change keywords)
  | Vsplit =>
      match prepared_split with
      | None => raise (QueueValidationError "curator split children were not prepared")
      | Some children =>
          enact_curator_split candidate children (dr_machine_id r)
            (default (lit "None") (q_curator_finding_uid row)) ;!
          ret tt
      end
  | Vnew => raise (QueueValidationError "unknown curator action")
  end.

(** [_decide_curator_row]. *)
Definition decide_curator_row (row : ApprovalQueueItem) (candidate : MemoryUnit)
    (r : QueueDecisionRequest) (prepared_split : option (list PreparedSplitChild))
    (amendment : option MemoryUnitChanges) : M QueueDecisionResponse :=
  require (bool_decide (dr_approval_mode r = explicit_mode) && bool_decide (dr_actor_class r = human))
    (QueueValidationError "curator verdicts require an explicit human decision") ;!
  require (bool_decide (Some (m_revision candidate) = q_candidate_revision row))
    (QueueConflictError "curator target changed after diagnosis; run curators again") ;!
  match dr_decision r with
  | deny =>
      if bool_decide (m_status candidate = Scandidate)
      then curator_cas candidate (dr_machine_id r) row "rejected" (status_change Stombstoned)
      else ret tt
  | approve => enact_curator row candidate r prepared_split amendment
  end ;!
  record_decision row r.

(** The new head of an ordinary candidate. *)
Definition activation (label : str) : MemoryUnitChanges := {|
  ch_label := Some label; ch_body := None; ch_kind := None; ch_keywords := None;
  ch_embedding := None; ch_embedding_model := None; ch_project_key := None;
  ch_thread_origin := None; ch_origin_thread_id := None; ch_origin_path := None;
  ch_origin_location := None; ch_pin := None; ch_status := Some Sactive; ch_stats := None;
  ch_bias := None |}.

Definition decide_candidate (row : ApprovalQueueItem) (candidate : MemoryUnit)
    (r : QueueDecisionRequest) : M QueueDecisionResponse :=
  require (bool_decide (m_status candidate = Scandidate))
    (QueueConflictError "queue candidate is no longer pending") ;!
  changes <-! match dr_decision r with
              | approve =>
                  enact_targets row candidate (dr_machine_id r) ;!
                  label <-! approval_label settings candidate;
                  ret (activation label)
              | deny => ret (status_change Stombstoned)
              end;
  rev_uid <-! mint;
  cas_update_memory_unit {|
    cu_memory_id := m_id candidate; cu_expected_revision := m_revision candidate;
    cu_rev_uid := rev_uid;
    cu_editor := match dr_actor_class r with human => lit "human" | passive => lit "passive" end;
    cu_origin_machine_id := dr_machine_id r; cu_changes := changes;
    cu_reason := match dr_decision r with approve => lit "approved" | deny => lit "rejected" end |} ;!
  record_decision row r.

(** [_decide_row]. *)
Definition prior_decisions (d : db) (item_uid : str) : list ApprovalDecision :=
  filter (λ x, d_item_uid x = item_uid) (rows (decisions d)).

Definition same_signal (x : ApprovalDecision) (r : QueueDecisionRequest) : bool :=
  bool_decide (d_decision x = dr_decision r) && bool_decide (d_approval_mode x = dr_approval_mode r)
  && bool_decide (d_actor_class x = dr_actor_class r).

Definition replay_decision (row : ApprovalQueueItem) (x : ApprovalDecision) (r : QueueDecisionRequest) :
    M QueueDecisionResponse :=
  match dr_amended_body r with
  | None => ret tt
  | Some body =>
      current <-! locked_memory (q_candidate_memory_id row);
      require (bool_decide (m_body current = body))
        (QueueConflictError "the decided replacement has different text")
  end ;!
  require (same_signal x r) (QueueConflictError "queue item already has a different decision") ;!
  card <-! queue_card row None;
  ret {| qr_card := card; qr_decision := d_decision x; qr_approval_mode := d_approval_mode x;
         qr_actor_class := d_actor_class x; qr_decision_uid := d_decision_uid x |}.

Definition decide_row (row : ApprovalQueueItem) (r : QueueDecisionRequest)
    (prepared_split : option (list PreparedSplitChild)) (amendment : option MemoryUnitChanges) :
    M QueueDecisionResponse :=
  d <-! get_db;
  prior <-! one_or_none (prior_decisions d (q_item_uid row));
  match prior with
  | Some x => replay_decision row x r
  | None =>
      require (negb (bool_decide (q_verdict row = Vcontradict)
                     && bool_decide (dr_approval_mode r = passive_mode)))
        (QueueValidationError "contradictions require explicit approval") ;!
      candidate <-! locked_memory (q_candidate_memory_id row);
      if bool_decide (q_birthplace row = Bcurator)
      then decide_curator_row row candidate r prepared_split amendment
      else decide_candidate row candidate r
  end.

(** [QueueService.decide]: what is prepared before the transaction.  The
    operation itself is [decide_item]: [decide] is the decision procedure of a
    proposition here. *)
Definition prepare_amendment (preflight : option ApprovalQueueItem) (r : QueueDecisionRequest) :
    M (option MemoryUnitChanges) :=
  match dr_amended_body r with
  | None => ret None
  | Some body =>
      match preflight with
      | None => raise QueueNotFoundError
      | Some item =>
          require (bool_decide (q_birthplace item = Bcurator)
                   && bool_decide (q_verdict item ∈ [Vmerge; Vsupersede])
                   && bool_decide (dr_decision r = approve) && bool_decide (dr_actor_class r = human))
            (QueueValidationError "only an explicit curator replacement can be amended") ;!
          changes <-! prepare_curator_amendment settings body;
          ret (Some changes)
      end
  end.

Definition prepare_split (preflight : option ApprovalQueueItem) :
    M (option (list PreparedSplitChild)) :=
  match preflight with
  | Some item =>
      if bool_decide (q_birthplace item = Bcurator) && bool_decide (q_verdict item = Vsplit) then
        children <-! proposal_children (default [] (q_proposal_payload item));
        prepared <-! prepare_curator_split settings children;
        ret (Some prepared)
      else ret None
  | None => ret None
  end.

Definition decide_in_transaction (item_uid : str) (r : QueueDecisionRequest)
    (prepared_split : option (list PreparedSplitChild)) (amendment : option MemoryUnitChanges) :
    M QueueDecisionResponse :=
  transaction (
    d <-! get_db;
    match items d !! item_uid with
    | None => raise QueueNotFoundError
    | Some row => decide_row row r prepared_split amendment
    end).

Definition decide_item (item_uid : str) (r : QueueDecisionRequest) : M QueueDecisionResponse :=
  d <-! get_db;
  let preflight := items d !! item_uid in
  amendment <-! prepare_amendment preflight r;
  prepared_split <-! prepare_split preflight;
  decide_in_transaction item_uid r prepared_split amendment.

(** [QueueService.feedback]. *)
Definition feedback_verdicts (d : db) (item_uid : str) : list (ApprovalQueueItem * CuratorVerdict) :=
  match items d !! item_uid with
  | Some card =>
      if bool_decide (q_birthplace card = Bcurator) then
        (λ v, (card, v)) <$> filter (λ v, Some (cv_finding_uid v) = q_curator_finding_uid card)
                               (rows (curator_verdicts d))
      else []
  | None => []
  end.

Definition insert_curator_action (a : CuratorAction) : M unit :=
  d <-! get_db;
  require (bool_decide (curator_actions d !! ca_action_uid a = None)) (IntegrityError "curator_action_pkey") ;!
  put_db (set_curator_actions (<[ca_action_uid a := a]> (curator_actions d)) d).

Definition queue_feedback (item_uid : str) (r : QueueFeedbackRequest) : M str :=
  transaction (
    d <-! get_db;
    found <-! one_or_none (feedback_verdicts d item_uid);
    match found with
    | None => raise QueueNotFoundError
    | Some (card, verdict) =>
        feedback_uid <-! mint;
        t <-! now;
        insert_curator_action {| ca_action_uid := feedback_uid; ca_verdict_uid := cv_verdict_uid verdict;
          ca_finding_uid := cv_finding_uid verdict; ca_queue_item_uid := Some item_uid;
          ca_outcome := lit "noop";
          ca_detail := [(lit "feedback", JStr (qf_feedback r)); (lit "actor_class", JStr (lit "human"));
                        (lit "machine_id", JStr (qf_machine_id r))];
          ca_created_at := t |} ;!
        ret feedback_uid
    end).

(** [QueueService.decide_batch]: the loop carries the cards and the count of
    cards that were decided before. *)
Definition batch_step (r : QueueDecisionRequest) (st : list QueueCard * Z) (row : ApprovalQueueItem) :
    M (list QueueCard * Z) :=
  let '(cards, already) := st in
  if bool_decide (q_state row ≠ pending) then
    card <-! queue_card row None;
    ret (cards ++ [card], already + 1)
  else
    response <-! decide_row row r None None;
    ret (cards ++ [qr_card response], already).

Definition batch_items (d : db) (batch_uid : uuid) : list ApprovalQueueItem :=
  items_where d (λ q, bool_decide (q_batch_uid q = Some batch_uid)
                      && bool_decide (q_birthplace q ∈ [Bseed; Bsymphony])).

Definition decide_batch (batch_uid : uuid) (r : QueueDecisionRequest) : M BatchDecisionResponse :=
  require (bool_decide (dr_approval_mode r = explicit_mode) && bool_decide (dr_actor_class r = human))
    (QueueValidationError "queue batches require an explicit human decision") ;!
  require (bool_decide (dr_amended_body r = None))
    (QueueValidationError "amend one curator replacement at a time") ;!
  transaction (
    d <-! get_db;
    match batch_items d batch_uid with
    | [] => raise QueueNotFoundError
    | batch =>
        st <-! fold_m (batch_step r) ([], 0) batch;
        ret {| br_batch_uid := batch_uid; br_decision := dr_decision r; br_cards := st.1;
               br_already_decided := st.2 |}
    end).
End queue.
