(* ===== verification/QueueFacts.v ===== *)
(** * What the consent queue guarantees

    The invariant of cards and decisions, kept by every operation of
    [Queue]; the outcome of a decision branch by branch; replay; what an
    approval and a denial leave behind. *)
From S2P Require Import Prelude PyStr PyFloat PyJson PyPath Ids Scorer.
From S2P Require Import Features Embeddings Store MemoryDb MemoryService MemorySplit Queue.
Open Scope Z_scope.

(** ** The invariant of the consent queue *)

(** Curator cards are decided by an explicit human, and no contradiction is
    decided passively. *)
Definition decided_properly (q : ApprovalQueueItem) (x : ApprovalDecision) : Prop :=
  (q_birthplace q = Bcurator → d_approval_mode x = explicit_mode ∧ d_actor_class x = human) ∧
  (q_verdict q = Vcontradict → d_approval_mode x ≠ passive_mode).

Record consent (d : db) : Prop := {
  consent_wf : wf d;
  consent_item : ∀ k q, items d !! k = Some q →
    q_item_uid q = k ∧ item_shape_ok q = true ∧ is_Some (units d !! q_candidate_memory_id q);
  consent_time : ∀ k q, items d !! k = Some q → q_state q = pending ↔ q_decided_at q = None;
  consent_birth : ∀ i j p q, items d !! i = Some p → items d !! j = Some q →
    q_birthplace p ≠ Bcurator → q_birthplace q ≠ Bcurator →
    q_candidate_memory_id p = q_candidate_memory_id q → i = j;
  consent_decision : ∀ k x, decisions d !! k = Some x →
    d_decision_uid x = k ∧ ∃ q, items d !! d_item_uid x = Some q ∧
      q_state q = state_of (d_decision x) ∧ decided_properly q x;
  consent_once : ∀ j k x y, decisions d !! j = Some x → decisions d !! k = Some y →
    d_item_uid x = d_item_uid y → j = k;
  consent_decided : ∀ k q, items d !! k = Some q → q_state q ≠ pending →
    ∃ j x, decisions d !! j = Some x ∧ d_item_uid x = k;
}.

Lemma consent_empty : consent empty_db.
Proof. split; [apply wf_empty|..]; cbn; intros *; rewrite ?lookup_empty; done. Qed.

(** The memory programs keep it: they touch no card and drop no memory. *)
Lemma consent_units d d' :
  consent d → wf d' → items d' = items d → decisions d' = decisions d →
  (∀ id, is_Some (units d !! id) → is_Some (units d' !! id)) → consent d'.
Proof.
  intros [] Hwf Hi Hd Hu. split; [done|rewrite ?Hi, ?Hd; try done..].
  intros k q Hq. destruct (consent_item0 k q Hq) as (? & ? & ?). auto.
Qed.

Lemma units_put_head d u r id : is_Some (units d !! id) → is_Some (units (put_head u r d) !! id).
Proof.
  cbn. destruct (decide (m_id u = id)) as [->|]; [by rewrite lookup_insert_eq|by rewrite lookup_insert_ne].
Qed.

#[export] Instance consent_lineage : Lineage consent.
Proof.
  split.
  - apply consent_wf.
  - intros d u r Hc Ha. apply (consent_units d); [done|by apply wf_put_head, Ha; apply Hc|done..|].
    apply units_put_head.
  - intros d e Hc. apply (consent_units d); [done|by apply lineage_edges, Hc|done..].
Qed.

(** The invariant together with the very cards and decisions there are. *)
Definition consent_at (it : gmap str ApprovalQueueItem) (de : gmap str ApprovalDecision) (d : db) : Prop :=
  consent d ∧ items d = it ∧ decisions d = de.

#[export] Instance consent_at_lineage it de : Lineage (consent_at it de).
Proof.
  split.
  - intros d [Hc _]. by apply consent_wf.
  - intros d u r (Hc & ? & ?) Ha. split; [by apply lineage_put_head|done].
  - intros d e (Hc & ? & ?). split; [by apply lineage_edges|done].
Qed.
#[export] Hint Resolve consent_lineage consent_at_lineage : keeps.

Section facts.
Context {EN : Env} {PG : Postgres} {TK : Tokenizer} {EP : EmbeddingProvider} {UC : Unicode}
  {SH : Sha256}.
Context (settings : MemorySettings).

(** ** Programs that leave the cards alone *)
Section lineage.
Context {I : db → Prop} {LI : Lineage I}.

Lemma queue_card_keeps row n : preserves I (queue_card row n).
Proof. unfold queue_card. keeps. Qed.

Lemma locked_memory_keeps id : preserves I (locked_memory id).
Proof. unfold locked_memory. keeps. Qed.

Lemma memory_row_keeps id p : preserves I (memory_row id p).
Proof. unfold memory_row. keeps. Qed.

Lemma proposal_text_keeps p k : preserves I (proposal_text p k).
Proof. unfold proposal_text. keeps. Qed.

Lemma proposal_keywords_keeps p : preserves I (proposal_keywords p).
Proof. unfold proposal_keywords. keeps. Qed.
Hint Resolve queue_card_keeps locked_memory_keeps memory_row_keeps proposal_text_keeps
  proposal_keywords_keeps : keeps.

Lemma discard_candidate_keeps id m : preserves I (discard_candidate id m).
Proof. unfold discard_candidate. keeps. Qed.
Hint Resolve discard_candidate_keeps : keeps.

Lemma check_targets_keeps m t n c : preserves I (check_targets m t n c).
Proof. unfold check_targets. keeps. Qed.

Lemma active_neighbors_keeps p c : preserves I (active_neighbors p c).
Proof. unfold active_neighbors. keeps. Qed.

Lemma relate_siblings_keeps ids : preserves I (relate_siblings ids).
Proof. unfold relate_siblings. keeps. Qed.

Lemma validate_seed_keeps r : preserves I (validate_seed r).
Proof. unfold validate_seed. keeps. Qed.

Lemma seed_batch_keeps r : preserves I (seed_batch r).
Proof. unfold seed_batch. keeps. Qed.

Lemma curator_candidate_keeps s p m f a ids prop :
  preserves I (curator_candidate settings s p m f a ids prop).
Proof. unfold curator_candidate. keeps. Qed.

Lemma enact_targets_keeps row c m : preserves I (enact_targets row c m).
Proof. unfold enact_targets, enact_target, relate. keeps. Qed.

Lemma curator_cas_keeps c m row s ch : preserves I (curator_cas c m row s ch).
Proof. unfold curator_cas. keeps. Qed.
Hint Resolve enact_targets_keeps curator_cas_keeps : keeps.

Lemma enact_curator_keeps row c r ps am : keeps_ok I (enact_curator row c r ps am).
Proof. unfold enact_curator. keeps. Qed.

Lemma approval_label_keeps c : preserves I (approval_label settings c).
Proof. unfold approval_label. keeps. Qed.

Lemma prepare_amendment_keeps pre r : preserves I (prepare_amendment settings pre r).
Proof. unfold prepare_amendment, prepare_curator_amendment. keeps. Qed.

Lemma prepare_split_keeps pre : preserves I (prepare_split settings pre).
Proof.
  unfold prepare_split, proposal_children, proposal_child, prepare_curator_split,
    prepare_split_child, validate_split_keywords, validate_split_keyword. keeps.
Qed.
End lineage.
Hint Resolve queue_card_keeps locked_memory_keeps memory_row_keeps proposal_text_keeps
  proposal_keywords_keeps discard_candidate_keeps check_targets_keeps active_neighbors_keeps
  relate_siblings_keeps validate_seed_keeps seed_batch_keeps curator_candidate_keeps
  enact_targets_keeps curator_cas_keeps enact_curator_keeps approval_label_keeps
  prepare_amendment_keeps prepare_split_keeps : keeps.

(** ** The writes of the queue, on success *)

Lemma insert_item_ok q w a w' :
  insert_item q w = (Ok a, w') →
  a = q ∧ item_shape_ok q = true ∧ items (w_db w) !! q_item_uid q = None ∧
  is_Some (units (w_db w) !! q_candidate_memory_id q) ∧
  (q_birthplace q ≠ Bcurator → ∀ k p, items (w_db w) !! k = Some p → q_birthplace p ≠ Bcurator →
     q_candidate_memory_id p ≠ q_candidate_memory_id q) ∧
  w' = with_db (set_items (<[q_item_uid q := q]> (items (w_db w))) (w_db w)) w.
Proof.
  unfold insert_item. intros H. apply bind_ok in H as ([] & w1 & [Hs <-]%require_ok & H).
  apply bind_ok in H as (d & w1 & [<- <-]%ret_ok & H).
  apply bind_ok in H as ([] & w1 & [Hn <-]%require_ok & H).
  apply bind_ok in H as ([] & w1 & [_ <-]%require_ok & H).
  apply bind_ok in H as ([] & w1 & [Hb <-]%require_ok & H).
  apply bind_ok in H as ([] & w1 & [Hc <-]%require_ok & H).
  apply bind_ok in H as ([] & w1 & [= <-] & H). apply ret_ok in H as [<- <-]. breflect.
  split_and!; try done.
  - by apply not_eq_None_Some.
  - intros Hq k p Hk Hp Heq.
    apply not_true_iff_false in Hb. apply Hb. rewrite (bool_decide_eq_true_2 _ Hq). cbn.
    apply existsb_exists. exists p. split.
    + apply list_elem_of_In, elem_rows. eauto.
    + rewrite (bool_decide_eq_true_2 _ Hp). cbn. by apply N.eqb_eq.
Qed.

Lemma insert_item_consent q :
  q_state q = pending → q_decided_at q = None → keeps_ok consent (insert_item q).
Proof.
  intros Hs Ht w a w' [] H. apply insert_item_ok in H as (-> & Hsh & Hn & Hc & Hb & ->).
  assert (Hnone : ∀ k x, decisions (w_db w) !! k = Some x → q_item_uid q ≠ d_item_uid x).
  { intros k x Hx E. destruct (consent_decision0 _ _ Hx) as (_ & p & Hp & _).
    rewrite <- E in Hp. congruence. }
  split; cbn; [by apply (wf_tables (w_db w))| | | | |done|].
  - intros k p. rewrite lookup_insert_Some. intros [[<- <-]|[_ Hp]]; eauto.
  - intros k p. rewrite lookup_insert_Some. intros [[<- <-]|[_ Hp]]; [by rewrite Hs, Ht|eauto].
  - intros i j p p'. rewrite !lookup_insert_Some.
    intros [[<- <-]|[_ Hp]] [[<- <-]|[_ Hp']] H1 H2 E; [done|..].
    + by destruct (Hb H1 _ _ Hp' H2).
    + by destruct (Hb H2 _ _ Hp H1).
    + eauto.
  - intros k x Hx. destruct (consent_decision0 _ _ Hx) as (? & p & Hp & ?). split; [done|].
    exists p. rewrite lookup_insert_ne by eauto. done.
  - intros k p. rewrite lookup_insert_Some. intros [[<- <-]|[_ Hp]]; [congruence|eauto].
Qed.

Definition decided_row (row : ApprovalQueueItem) (r : QueueDecisionRequest) (uid : str) (t : Z) :
    ApprovalDecision := {|
  d_decision_uid := uid; d_item_uid := q_item_uid row; d_decision := dr_decision r;
  d_approval_mode := dr_approval_mode r; d_actor_class := dr_actor_class r; d_created_at := t |}.

Definition put_decision (q : ApprovalQueueItem) (x : ApprovalDecision) (t : Z) (d : db) : db :=
  set_items (<[q_item_uid q := decided_item (state_of (d_decision x)) t q]> (items d))
    (set_decisions (<[d_decision_uid x := x]> (decisions d)) d).

Lemma insert_decision_ok x w a w' :
  insert_decision x w = (Ok a, w') →
  decisions (w_db w) !! d_decision_uid x = None ∧
  (∀ k y, decisions (w_db w) !! k = Some y → d_item_uid y ≠ d_item_uid x) ∧
  w' = with_db (set_decisions (<[d_decision_uid x := x]> (decisions (w_db w))) (w_db w)) w.
Proof.
  unfold insert_decision. intros H. apply bind_ok in H as (d & w1 & [<- <-]%ret_ok & H).
  apply bind_ok in H as ([] & w1 & [Hn <-]%require_ok & H).
  apply bind_ok in H as ([] & w1 & [Hu <-]%require_ok & H).
  apply bind_ok in H as ([] & w1 & [_ <-]%require_ok & H). injection H as _ <-. breflect.
  split; [done|]. split; [|done]. intros k y Hk Hy.
  apply not_true_iff_false in Hu. apply Hu, existsb_exists. exists y. split.
  - apply list_elem_of_In, elem_rows. eauto.
  - by apply bool_decide_eq_true_2.
Qed.

Lemma record_decision_ok row r w resp w' :
  record_decision row r w = (Ok resp, w') →
  ∃ uid q, decisions (w_db w) !! uid = None ∧
    (∀ k y, decisions (w_db w) !! k = Some y → d_item_uid y ≠ q_item_uid row) ∧
    items (w_db w) !! q_item_uid row = Some q ∧
    w_db w' = set_items (<[q_item_uid row := decided_item (state_of (dr_decision r)) (w_tx_now w) q]>
                          (items (w_db w)))
      (set_decisions (<[uid := decided_row row r uid (w_tx_now w)]> (decisions (w_db w))) (w_db w)) ∧
    qc_item (qr_card resp) = decided_item (state_of (dr_decision r)) (w_tx_now w) q ∧
    qr_decision_uid resp = uid ∧ qr_decision resp = dr_decision r ∧
    qr_approval_mode resp = dr_approval_mode r ∧ qr_actor_class resp = dr_actor_class r.
Proof.
  unfold record_decision. intros H.
  apply bind_ok in H as (uid & w1 & (Hdb & Hnow & _)%mint_ok & H).
  apply bind_ok in H as (t & w2 & [<- <-]%ret_ok & H).
  apply bind_ok in H as ([] & w2 & (Hn & Hu & ->)%insert_decision_ok & H).
  apply bind_ok in H as (q' & w3 & Hup & H). unfold update_item_state in Hup.
  apply bind_ok in Hup as (d & w2 & [<- <-]%ret_ok & Hup).
  apply bind_ok in Hup as (t & w2 & [<- <-]%ret_ok & Hup). cbn in Hup.
  destruct (items (w_db w1) !! q_item_uid row) as [q|] eqn:Hq; [|done].
  apply bind_ok in Hup as ([] & w2 & [= <-] & Hup). apply ret_ok in Hup as [<- <-].
  apply bind_ok in H as (card & w3 & Hcard & H). apply ret_ok in H as [<- <-].
  unfold queue_card in Hcard. apply bind_ok in Hcard as (d & w2 & [<- <-]%ret_ok & Hcard).
  destruct (units _ !! _); [|done]. apply ret_ok in Hcard as [<- <-]. cbn in *.
  rewrite <- Hdb, <- Hnow. exists uid, q. by split_and!.
Qed.

(** ** Decisions keep the invariant *)

(** The row read from the queue is the stored one up to its state. *)
Definition item_current (row : ApprovalQueueItem) (d : db) : Prop :=
  ∃ q, items d !! q_item_uid row = Some q ∧ q_birthplace q = q_birthplace row ∧
       q_verdict q = q_verdict row ∧ q_candidate_memory_id q = q_candidate_memory_id row.

Definition proper_request (row : ApprovalQueueItem) (r : QueueDecisionRequest) : Prop :=
  (q_birthplace row = Bcurator → dr_approval_mode r = explicit_mode ∧ dr_actor_class r = human) ∧
  (q_verdict row = Vcontradict → dr_approval_mode r ≠ passive_mode).

Lemma record_decision_consent row r w resp w' :
  consent (w_db w) → item_current row (w_db w) → proper_request row r →
  record_decision row r w = (Ok resp, w') → consent (w_db w').
Proof.
  intros [] (q0 & Hq0 & Hb & Hv & _) [Hp1 Hp2] H. rewrite <- Hb in Hp1. rewrite <- Hv in Hp2.
  apply record_decision_ok in H as (uid & q & Hn & Hu & Hq & -> & _).
  rewrite Hq0 in Hq. injection Hq as <-. destruct (consent_item0 _ _ Hq0) as (Hk0 & Hsh & Hc0).
  split; cbn; [by apply (wf_tables (w_db w))|..].
  - intros k p. rewrite lookup_insert_Some. intros [[<- <-]|[_ Hp]]; [|eauto]. done.
  - intros k p. rewrite lookup_insert_Some. intros [[<- <-]|[_ Hp]]; [cbn; by destruct (dr_decision r)|eauto].
  - assert (∀ i p, <[q_item_uid row := decided_item (state_of (dr_decision r)) (w_tx_now w) q0]>
        (items (w_db w)) !! i = Some p → ∃ p', items (w_db w) !! i = Some p' ∧
        q_birthplace p' = q_birthplace p ∧ q_candidate_memory_id p' = q_candidate_memory_id p) as Hback.
    { intros i p. rewrite lookup_insert_Some. intros [[<- <-]|[_ Hp]]; eauto. }
    intros i j p p' (p1 & Hi & <- & <-)%Hback (p2 & Hj & <- & <-)%Hback. eauto.
  - intros k x. rewrite lookup_insert_Some. intros [[<- <-]|[_ Hx]]; cbn.
    + split; [done|]. eexists. rewrite lookup_insert_eq. by split.
    + destruct (consent_decision0 _ _ Hx) as (? & p & ? & ?). split; [done|]. exists p.
      by rewrite lookup_insert_ne by (intros E; by destruct (Hu _ _ Hx)).
  - intros j k x y. rewrite !lookup_insert_Some. intros [[<- <-]|[_ Hx]] [[<- <-]|[_ Hy]] E; [done|..].
    + by destruct (Hu _ _ Hy).
    + by destruct (Hu _ _ Hx).
    + eauto.
  - intros k p. rewrite lookup_insert_Some. intros [[<- <-]|[_ Hp]] Hs.
    + exists uid. eexists. by rewrite lookup_insert_eq.
    + destruct (consent_decided0 _ _ Hp Hs) as (j & x & Hx & Hxk). exists j, x.
      by rewrite lookup_insert_ne by congruence.
Qed.

(** The invariant, with the given rows of a batch current. *)
Definition batch_ok (l : list ApprovalQueueItem) (d : db) : Prop :=
  consent d ∧ Forall (λ row, item_current row d) l.

(** A program that ends in [record_decision] after steps that leave the cards
    alone. *)
Definition finishes (l : list ApprovalQueueItem) {A} (m : M A) : Prop := keeps_ok (batch_ok l) m.

Lemma finishes_record l row r :
  row ∈ l → proper_request row r → finishes l (record_decision row r).
Proof.
  intros Hin Hp w resp w' [Hc Hl] H. rewrite Forall_forall in Hl. split.
  - eapply record_decision_consent; eauto.
  - apply Forall_forall. intros row2 Hrow2. destruct (Hl row2 Hrow2) as (q2 & Hq2 & Hs).
    apply record_decision_ok in H as (uid & q & _ & _ & Hq & -> & _). unfold item_current. cbn.
    destruct (decide (q_item_uid row = q_item_uid row2)) as [E|].
    + rewrite E, lookup_insert_eq. eexists. split; [done|]. rewrite <- E, Hq in Hq2. by injection Hq2 as <-.
    + rewrite lookup_insert_ne by done. eauto.
Qed.

Lemma finishes_at l {A} (m : M A) : (∀ it de, keeps_ok (consent_at it de) m) → finishes l m.
Proof.
  intros Hm w a w' [Hc Hi] H.
  destruct (Hm _ _ _ _ _ (conj Hc (conj eq_refl eq_refl)) H) as (Hc1 & Hi1 & _).
  split; [done|]. unfold item_current in *. by rewrite Hi1.
Qed.

Lemma finishes_bind l {A B} (m : M A) (f : A → M B) :
  finishes l m → (∀ a, finishes l (f a)) → finishes l (bind m f).
Proof. apply keeps_ok_bind. Qed.

Lemma finishes_require l b e {A} (f : unit → M A) :
  (b = true → finishes l (f tt)) → finishes l (bind (require b e) f).
Proof. intros Hf w a w' Hc ([] & w1 & [Hb <-]%require_ok & H)%bind_ok. by eapply Hf. Qed.

Ltac untouched := apply finishes_at; intros ? ?; keeps.

Lemma replay_decision_keeps {I : db → Prop} {LI : Lineage I} row x r : preserves I (replay_decision row x r).
Proof. unfold replay_decision. keeps. Qed.
Hint Resolve replay_decision_keeps : keeps.

Lemma decide_candidate_finishes l row c r :
  row ∈ l → proper_request row r → finishes l (decide_candidate settings row c r).
Proof.
  intros Hin Hp. unfold decide_candidate.
  do 4 (apply finishes_bind; [untouched|intros ?]). by apply finishes_record.
Qed.

Lemma decide_curator_row_finishes l row c r ps am :
  row ∈ l → q_birthplace row = Bcurator →
  (q_verdict row = Vcontradict → dr_approval_mode r ≠ passive_mode) →
  finishes l (decide_curator_row row c r ps am).
Proof.
  intros Hin Hb Hv. unfold decide_curator_row. apply finishes_require. intros Hexp. breflect.
  apply finishes_require. intros _. apply finishes_bind; [untouched|intros _].
  by apply finishes_record.
Qed.

Lemma decide_row_finishes l row r ps am : row ∈ l → finishes l (decide_row settings row r ps am).
Proof.
  intros Hin. unfold decide_row. do 2 (apply finishes_bind; [untouched|intros ?prior]).
  destruct prior0 as [x|]; [untouched|]. apply finishes_require. intros Hpass.
  assert (q_verdict row = Vcontradict → dr_approval_mode r ≠ passive_mode) as Hv.
  { intros Ev Em. by rewrite Ev, Em in Hpass. }
  apply finishes_bind; [untouched|intros candidate].
  destruct (bool_decide (q_birthplace row = Bcurator)) eqn:Eb; breflect.
  - by apply decide_curator_row_finishes.
  - by apply decide_candidate_finishes.
Qed.

Lemma item_current_stored k q d : consent d → items d !! k = Some q → item_current q d.
Proof. intros [] Hq. destruct (consent_item0 _ _ Hq) as [<- _]. by exists q. Qed.

Lemma decide_in_transaction_consent uid r ps am :
  preserves consent (decide_in_transaction settings uid r ps am).
Proof.
  unfold decide_in_transaction. apply preserves_transaction.
  intros w resp w' Hc H. apply bind_ok in H as (d & w1 & [<- <-]%ret_ok & H).
  destruct (items (w_db w) !! uid) as [row|] eqn:Hrow; [|done].
  eapply (decide_row_finishes [row] row); [left| |exact H].
  split; [done|]. constructor; [by eapply item_current_stored|done].
Qed.

Lemma items_where_elem d c row : row ∈ items_where d c ↔ c row = true ∧ ∃ k, items d !! k = Some row.
Proof. unfold items_where. by rewrite sort_by_perm, list_elem_of_filter, elem_rows. Qed.

Lemma decide_batch_consent uid r : preserves consent (decide_batch settings uid r).
Proof.
  unfold decide_batch. do 2 (apply preserves_bind; [apply preserves_require|intros _]).
  apply preserves_transaction.
  intros w resp w' Hc H. apply bind_ok in H as (d & w1 & [<- <-]%ret_ok & H).
  destruct (batch_items (w_db w) uid) as [|row0 l0] eqn:Hl; [done|]. set (l := row0 :: l0) in *.
  revert w resp w' Hc Hl H.
  enough (∀ l', l' ⊆ l → ∀ st, finishes l (fold_m (batch_step settings r) st l')) as Hfold.
  { intros w resp w' Hc Hl H. apply bind_ok in H as (st & w1 & H & [_ <-]%ret_ok).
    eapply (Hfold l ltac:(done)); [|exact H]. split; [done|]. apply Forall_forall.
    intros row Hrow. rewrite <- Hl in Hrow. apply items_where_elem in Hrow as [_ [k Hk]].
    by eapply item_current_stored. }
  intros l' Hsub. induction l' as [|row l' IH]; intros [cards n]; cbn; [untouched|].
  apply finishes_bind; [|intros ?; apply IH; set_solver].
  destruct (bool_decide _); [untouched|]. apply finishes_bind; [|intros ?; untouched].
  apply decide_row_finishes. set_solver.
Qed.

(** ** The other operations keep the invariant *)

Lemma insert_item_then_card q n {A} (f : QueueCard → M A) :
  q_state q = pending → q_decided_at q = None → (∀ c, preserves consent (f c)) →
  keeps_ok consent (row <-! insert_item q; card <-! queue_card row n; f card).
Proof.
  intros Hs Ht Hf. apply keeps_ok_bind; [by apply insert_item_consent|intros row]. keeps.
Qed.

Lemma insert_item_card q n :
  q_state q = pending → q_decided_at q = None →
  keeps_ok consent (row <-! insert_item q; queue_card row n).
Proof.
  intros Hs Ht. apply keeps_ok_bind; [by apply insert_item_consent|intros row]. keeps.
Qed.

Lemma enqueue_consent r v ids c : preserves consent (enqueue r v ids c).
Proof.
  unfold enqueue. do 3 (apply preserves_bind; [auto with keeps|intros ?]).
  apply preserves_transaction, keeps_ok_bind; [auto with keeps|intros ?]. by apply insert_item_card.
Qed.

Lemma enqueue_seed_consent r v ids c : preserves consent (enqueue_seed r v ids c).
Proof.
  unfold enqueue_seed. do 2 (apply preserves_bind; [auto with keeps|intros ?]).
  apply preserves_transaction. do 2 (apply keeps_ok_bind; [auto with keeps|intros ?]).
  by apply insert_item_card.
Qed.
Hint Resolve enqueue_consent enqueue_seed_consent : keeps.

Lemma extract_consent r : preserves consent (extract settings r).
Proof. unfold extract, extract_step. keeps. Qed.

Lemma ingest_seed_consent r : preserves consent (ingest_seed settings r).
Proof. unfold ingest_seed, seed_step. keeps. Qed.

Lemma enqueue_curator_consent run f p m a ids prop :
  preserves consent (enqueue_curator settings run f p m a ids prop).
Proof.
  unfold enqueue_curator. destruct ids as [|first ids]; [auto with keeps|].
  do 2 (apply preserves_bind; [auto with keeps|intros ?source]).
  destruct source0 as [[[c t] n]|]; [|auto with keeps].
  apply preserves_bind; [auto with keeps|intros ?]. apply preserves_transaction.
  apply keeps_ok_bind; [auto with keeps|intros ?]. apply insert_item_then_card; auto with keeps.
Qed.

Lemma insert_curator_action_consent x : preserves consent (insert_curator_action x).
Proof.
  intros w Hc. unfold insert_curator_action, bind, get_db, require, put_db, raise, ret.
  destruct (bool_decide _); [|done]. cbn.
  apply (consent_units (w_db w)); try done. apply (wf_tables (w_db w)); [done..|apply Hc].
Qed.
Hint Resolve insert_curator_action_consent : keeps.

Lemma queue_feedback_consent uid r : preserves consent (queue_feedback uid r).
Proof. unfold queue_feedback. keeps. Qed.

Lemma decide_item_consent uid r : preserves consent (decide_item settings uid r).
Proof.
  unfold decide_item. do 3 (apply preserves_bind; [auto with keeps|intros ?]).
  apply decide_in_transaction_consent.
Qed.

(** ** Enacting a verdict on its targets *)

Definition replaces_targets (v : Verdict) : bool := bool_decide (v ∈ [Vmerge; Vsupersede]).

(** What an enacted target looks like: it was an active memory of the same
    principal, it is tombstoned by a merge or supersede and left alone by a
    contradiction, and the candidate points at it. *)
Definition target_enacted (row : ApprovalQueueItem) (candidate : MemoryUnit) (edge_type : EdgeType)
    (d d' : db) (target_id : uuid) : Prop :=
  ∃ old, units d !! target_id = Some old ∧ m_status old = Sactive ∧
    m_principal_id old = m_principal_id candidate ∧ related d' edge_type (m_id candidate) target_id ∧
    ∃ new, units d' !! target_id = Some new ∧ m_body new = m_body old ∧ m_label new = m_label old ∧
      if replaces_targets (q_verdict row)
      then m_status new = Stombstoned ∧ m_revision new = m_revision old + 1
      else new = old.

Lemma insert_edge_db e w a w' : insert_edge e w = (Ok a, w') →
  edges (w_db w) ⊆ edges (w_db w') ∧ units (w_db w') = units (w_db w) ∧
  items (w_db w') = items (w_db w).
Proof.
  intros H. unfold insert_edge in H. apply bind_ok in H as (d & w1 & [<- <-]%ret_ok & H).
  apply bind_ok in H as ([] & w1 & [Hn <-]%require_ok & H).
  apply bind_ok in H as ([] & w1 & [_ <-]%require_ok & H).
  apply bind_ok in H as ([] & w1 & [_ <-]%require_ok & H). injection H as _ <-. breflect. cbn.
  split_and!; [by apply insert_subseteq|done|done].
Qed.

Lemma relate_db t l r w a w' : relate t l r w = (Ok a, w') →
  edges (w_db w) ⊆ edges (w_db w') ∧ units (w_db w') = units (w_db w) ∧ related (w_db w') t l r.
Proof.
  intros H. pose proof (relate_related _ _ _ _ _ _ H) as Hr. unfold relate in H.
  apply bind_ok in H as (uid & w1 & (<- & _)%mint_ok & H).
  apply bind_ok in H as (t' & w2 & [<- <-]%ret_ok & H). by apply insert_edge_db in H as (? & ? & _).
Qed.

Lemma related_mono d d' t l r : edges d ⊆ edges d' → related d t l r → related d' t l r.
Proof. intros Hs (uid & e & He & Hr). exists uid, e. split; [by eapply lookup_weaken|done]. Qed.

Lemma locked_memory_ok id w u w' :
  locked_memory id w = (Ok u, w') → units (w_db w) !! id = Some u ∧ w' = w.
Proof. unfold locked_memory. intros H. run_inv. by simplify_eq. Qed.

Lemma enact_target_ok row c m et t w a w' :
  wf (w_db w) → enact_target row c m et t w = (Ok a, w') →
  target_enacted row c et (w_db w) (w_db w') t ∧ edges (w_db w) ⊆ edges (w_db w') ∧
  (∀ id, id ≠ t → units (w_db w') !! id = units (w_db w) !! id).
Proof.
  intros Hwf H. unfold enact_target in H.
  apply bind_ok in H as (old & w1 & (Hold & ->)%locked_memory_ok & H).
  apply bind_ok in H as ([] & w1 & [Hact <-]%require_ok & H).
  apply andb_true_iff in Hact as [Hp%bool_decide_eq_true Hs%bool_decide_eq_true].
  apply bind_ok in H as (? & w1 & Hcas & H). apply relate_db in H as (He & Hu & Hrel).
  pose proof (wf_key _ Hwf _ _ Hold) as Hid. rewrite Hid in *. unfold target_enacted, replaces_targets.
  destruct (bool_decide _).
  - apply bind_ok in Hcas as (uid & w2 & (Hdb & _)%mint_ok & Hcas).
    apply bind_ok in Hcas as (new & w3 & Hcas & [_ <-]%ret_ok).
    apply cas_db in Hcas as (old' & b & Hold' & -> & _ & _ & Hunits & Hedges & _); [|by rewrite Hdb].
    cbn [cu_memory_id] in *. rewrite Hdb in *. rewrite Hold in Hold'. injection Hold' as <-.
    rewrite Hedges in He. split_and!; [|done|].
    + exists old. rewrite Hu, Hunits, lookup_insert_eq. split_and!; try done. eexists. split_and!; done.
    + intros id Hne. by rewrite Hu, Hunits, lookup_insert_ne.
  - apply ret_ok in Hcas as [_ <-]. split_and!; [|done|by rewrite Hu].
    exists old. rewrite Hu. split_and!; try done. by exists old.
Qed.

Lemma enact_loop_ok row c m et l w a w' :
  wf (w_db w) → for_each l (enact_target row c m et) w = (Ok a, w') →
  Forall (target_enacted row c et (w_db w) (w_db w')) l ∧ edges (w_db w) ⊆ edges (w_db w') ∧
  (∀ id, id ∉ l → units (w_db w') !! id = units (w_db w) !! id).
Proof.
  revert w. induction l as [|t l IH]; intros w Hwf H; cbn in H.
  { apply ret_ok in H as [_ <-]. done. }
  apply bind_ok in H as (? & w1 & H1 & H2).
  assert (wf (w_db w1)) as Hwf1.
  { eapply (keeps_ok_preserves wf (enact_target row c m et t)); [|exact Hwf|exact H1].
    unfold enact_target, relate. keeps. }
  apply enact_target_ok in H1 as (Ht & He1 & Hu1); [|done].
  apply IH in H2 as (Hl & He2 & Hu2); [|done]. split_and!; [|by etrans|].
  - destruct Ht as (old & Hold & Hs & Hp & Hrel & new & Hnew & Hb & Hlab & Heff).
    constructor.
    + exists old. do 4 (split; [done || by eapply related_mono|]).
      destruct (decide (t ∈ l)) as [Hin|Hout]; [|exists new; by rewrite Hu2].
      rewrite Forall_forall in Hl. destruct (Hl t Hin) as (old2 & Hold2 & Hs2 & _ & _ & new2 & Hnew2 & Hb2 & Hl2 & Heff2).
      rewrite Hnew in Hold2. injection Hold2 as <-. destruct (replaces_targets _).
      * destruct Heff as [E _]. congruence.
      * subst new2. exists new. done.
    + apply Forall_forall. intros t' Hin. rewrite Forall_forall in Hl.
      destruct (Hl t' Hin) as (old2 & Hold2 & Hrest). destruct (decide (t' = t)) as [->|Hne].
      * rewrite Hnew in Hold2. injection Hold2 as <-. destruct (replaces_targets _) eqn:E.
        -- destruct Heff as [E' _], Hrest as [E2 _]. congruence.
        -- subst. eexists. rewrite E. split; [exact Hold|exact Hrest].
      * exists old2. by rewrite <- Hu1.
  - intros id Hid. apply not_elem_of_cons in Hid as [? ?]. by rewrite Hu2, Hu1.
Qed.

(** ** One decision, branch by branch *)

Lemma prior_elem d uid x : x ∈ prior_decisions d uid ↔ d_item_uid x = uid ∧ ∃ k, decisions d !! k = Some x.
Proof. unfold prior_decisions. by rewrite list_elem_of_filter, elem_rows. Qed.

Lemma prior_at d k x : consent d → decisions d !! k = Some x → prior_decisions d (d_item_uid x) = [x].
Proof.
  intros Hc Hk. apply (rows_unique _ _ k x Hk); [done|]. intros k' x' Hk' E.
  by eapply (consent_once d Hc).
Qed.

Lemma prior_pending d row : consent d → items d !! q_item_uid row = Some row →
  prior_decisions d (q_item_uid row) = [] ↔ q_state row = pending.
Proof.
  intros Hc Hrow. split.
  - intros Hn. destruct (decide (q_state row = pending)) as [|Hs]; [done|]. exfalso.
    destruct (consent_decided d Hc _ _ Hrow Hs) as (j & x & Hx & Hk).
    assert (x ∈ prior_decisions d (q_item_uid row)) as Hin by (apply prior_elem; eauto).
    rewrite Hn in Hin. by apply elem_of_nil in Hin.
  - intros Hs. destruct (prior_decisions d (q_item_uid row)) as [|x l] eqn:E; [done|]. exfalso.
    assert (x ∈ x :: l) as Hin by left. rewrite <- E in Hin. apply prior_elem in Hin as [Hi [k Hk]].
    destruct (consent_decision d Hc _ _ Hk) as (_ & q & Hq & Hst & _). rewrite Hi, Hrow in Hq.
    injection Hq as <-. rewrite Hs in Hst. by destruct (d_decision x).
Qed.

(** A read leaves the world's database; a successful one too. *)
Lemma reads {A} (m : M A) w r w' : preserves (same_db (w_db w)) m → m w = (r, w') → w_db w' = w_db w.
Proof. intros Hm H. specialize (Hm w eq_refl). by rewrite H in Hm. Qed.


Lemma decide_row_ok row r ps am w resp w' :
  decide_row settings row r ps am w = (Ok resp, w') →
  (∃ x, prior_decisions (w_db w) (q_item_uid row) = [x] ∧ replay_decision row x r w = (Ok resp, w')) ∨
  (prior_decisions (w_db w) (q_item_uid row) = [] ∧
   (q_verdict row = Vcontradict → dr_approval_mode r ≠ passive_mode) ∧
   ∃ candidate, units (w_db w) !! q_candidate_memory_id row = Some candidate ∧
     (if bool_decide (q_birthplace row = Bcurator)
      then decide_curator_row row candidate r ps am
      else decide_candidate settings row candidate r) w = (Ok resp, w')).
Proof.
  intros H. unfold decide_row in H. apply bind_ok in H as (d & w1 & [<- <-]%ret_ok & H).
  apply bind_ok in H as (prior & w1 & Hp & H). unfold one_or_none in Hp.
  destruct (prior_decisions _ _) as [|x [|? ?]]; [| |done]; apply ret_ok in Hp as [<- <-].
  - right. split; [done|]. apply bind_ok in H as ([] & w1 & [Hpass <-]%require_ok & H).
    split; [intros Ev Em; by rewrite Ev, Em in Hpass|].
    apply bind_ok in H as (c & w1 & (Hc & ->)%locked_memory_ok & H). eauto.
  - left. eauto.
Qed.

Lemma replay_ok row x r w resp w' :
  replay_decision row x r w = (Ok resp, w') →
  w_db w' = w_db w ∧ same_signal x r = true ∧ qc_item (qr_card resp) = row ∧
  qr_decision_uid resp = d_decision_uid x ∧ qr_decision resp = d_decision x.
Proof.
  intros H. split.
  { eapply (reads (replay_decision row x r)); [|exact H].
    unfold replay_decision, locked_memory, queue_card. keeps. }
  unfold replay_decision in H. apply bind_ok in H as (? & w1 & _ & H).
  apply bind_ok in H as ([] & w2 & [Hs <-]%require_ok & H).
  apply bind_ok in H as (card & w2 & Hcard & [<- <-]%ret_ok). cbn. split; [done|]. split; [|done].
  unfold queue_card in Hcard. apply bind_ok in Hcard as (d & w3 & [<- <-]%ret_ok & Hcard).
  destruct (units _ !! _); [|done]. by apply ret_ok in Hcard as [<- _].
Qed.

(** What a first decision about an ordinary card does to the memories. *)
Definition decision_effect (row : ApprovalQueueItem) (candidate : MemoryUnit)
    (r : QueueDecisionRequest) (d d' : db) : Prop :=
  m_status candidate = Scandidate ∧
  ∃ new, units d' !! m_id candidate = Some new ∧ m_body new = m_body candidate ∧
    m_principal_id new = m_principal_id candidate ∧ m_revision new = m_revision candidate + 1 ∧
  match dr_decision r with
  | approve => m_status new = Sactive ∧
      match verdict_edge (q_verdict row) with
      | Some et => Forall (target_enacted row candidate et d d') (q_target_ids row) ∧
          ∀ id, id ≠ m_id candidate → id ∉ q_target_ids row → units d' !! id = units d !! id
      | None => edges d' = edges d ∧ ∀ id, id ≠ m_id candidate → units d' !! id = units d !! id
      end
  | deny => m_status new = Stombstoned ∧ edges d' = edges d ∧
      ∀ id, id ≠ m_id candidate → units d' !! id = units d !! id
  end.

Lemma target_enacted_put row c et d d1 d2 id new t :
  target_enacted row c et d d1 t → id ≠ t → units d2 = <[id := new]> (units d1) → edges d2 = edges d1 →
  target_enacted row c et d d2 t.
Proof.
  intros (old & Hold & Hs & Hp & Hrel & n & Hn & Hrest) Hne Hu He. exists old.
  do 3 (split; [done|]). split; [apply (related_mono d1); [by rewrite He|done]|].
  exists n. split; [by rewrite Hu, lookup_insert_ne|done].
Qed.

Lemma decide_candidate_ok row c r w resp w' :
  wf (w_db w) → units (w_db w) !! m_id c = Some c →
  decide_candidate settings row c r w = (Ok resp, w') →
  ∃ w1, record_decision row r w1 = (Ok resp, w') ∧
    (∀ I, Lineage I → I (w_db w) → I (w_db w1)) ∧ decision_effect row c r (w_db w) (w_db w1).
Proof.
  intros Hwf Hc H. unfold decide_candidate in H.
  apply bind_ok in H as ([] & w1 & [Hs%bool_decide_eq_true <-]%require_ok & H).
  apply bind_ok in H as (changes & w1 & Hch & H).
  apply bind_ok in H as (uid & w2 & (Hdb & _)%mint_ok & H).
  apply bind_ok in H as (row' & w3 & Hcas & H). exists w3. split; [done|]. split.
  { intros I LI HI. eapply (keeps_ok_preserves I); [apply cas_preserves_wf| |exact Hcas].
    rewrite Hdb. revert Hch. refine (λ Hch, (_ : keeps_ok I _) _ _ _ HI Hch). keeps. }
  split; [done|].
  destruct (dr_decision r).
  - apply bind_ok in Hch as (x & w4 & Hen & Hch). apply bind_ok in Hch as (label & w5 & Hl & Hch).
    apply ret_ok in Hch as [<- <-].
    assert (wf (w_db w4)) as Hwf4 by 
      by (pose proof (enact_targets_keeps (I:=wf) row c (dr_machine_id r) _ Hwf) as Hk; by rewrite Hen in Hk).
    assert (w_db w5 = w_db w4) as E5 by (eapply reads; [|exact Hl]; apply approval_label_keeps).
    apply cas_db in Hcas as (old & b & Hold & -> & _ & Hid & Hu & He & _); [|by rewrite Hdb, E5].
    cbn [cu_memory_id cu_changes] in *. rewrite Hdb, E5 in *.
    unfold enact_targets in Hen. destruct (verdict_edge _) as [et|].
    + apply enact_loop_ok in Hen as (Hall & _ & Hrest); [|done].
      assert (m_id c ∉ q_target_ids row) as Hout.
      { intros Hin. rewrite Forall_forall in Hall. destruct (Hall _ Hin) as (o & Ho & Hso & _). congruence. }
      rewrite Hrest, Hc in Hold by done. injection Hold as <-.
      eexists. rewrite Hu, lookup_insert_eq. repeat (split; [done|]). split.
      * apply Forall_forall. intros t Ht. rewrite Forall_forall in Hall.
        eapply target_enacted_put; [by apply Hall| |done|done]. congruence.
      * intros id H1 H2. rewrite lookup_insert_ne by done. by apply Hrest.
    + apply ret_ok in Hen as [_ <-]. rewrite Hc in Hold. injection Hold as <-.
      eexists. rewrite Hu, lookup_insert_eq. repeat (split; [done|]). intros id H1.
      by rewrite lookup_insert_ne.
  - apply ret_ok in Hch as [<- <-].
    apply cas_db in Hcas as (old & b & Hold & -> & _ & Hid & Hu & He & _); [|by rewrite Hdb].
    cbn [cu_memory_id cu_changes] in *. rewrite Hdb in *. rewrite Hc in Hold. injection Hold as <-.
    eexists. rewrite Hu, lookup_insert_eq. repeat (split; [done|]). intros id H1.
    by rewrite lookup_insert_ne.
Qed.

Lemma decision_effect_ext row c r d d1 d2 :
  units d2 = units d1 → edges d2 = edges d1 → decision_effect row c r d d1 → decision_effect row c r d d2.
Proof.
  intros Hu He. unfold decision_effect, target_enacted, related. by rewrite Hu, He.
Qed.

(** The first decision: the record, the state, and the effect. *)
Definition first_decision (row : ApprovalQueueItem) (r : QueueDecisionRequest)
    (resp : QueueDecisionResponse) (d d' : db) : Prop :=
  q_state row = pending ∧ proper_request row r ∧
  ∃ x t, d_item_uid x = q_item_uid row ∧ same_signal x r = true ∧
    qr_decision_uid resp = d_decision_uid x ∧ decisions d !! d_decision_uid x = None ∧
    decisions d' = <[d_decision_uid x := x]> (decisions d) ∧
    items d' = <[q_item_uid row := decided_item (state_of (dr_decision r)) t row]> (items d) ∧
    qc_item (qr_card resp) = decided_item (state_of (dr_decision r)) t row ∧
    (q_birthplace row ≠ Bcurator → ∃ candidate,
       units d !! q_candidate_memory_id row = Some candidate ∧ decision_effect row candidate r d d').

Lemma recorded row r resp d w1 w' :
  consent d → items d !! q_item_uid row = Some row → prior_decisions d (q_item_uid row) = [] →
  items (w_db w1) = items d → decisions (w_db w1) = decisions d → proper_request row r →
  (q_birthplace row ≠ Bcurator → ∃ candidate, units d !! q_candidate_memory_id row = Some candidate ∧
     decision_effect row candidate r d (w_db w1)) →
  record_decision row r w1 = (Ok resp, w') → first_decision row r resp d (w_db w').
Proof.
  intros Hc Hrow Hpr Hi Hd Hp Heff H. split; [by eapply prior_pending|]. split; [done|].
  apply record_decision_ok in H as (uid & q & Hn & Hu & Hq & Hw & Hcard & Hresp).
  rewrite Hi, Hrow in Hq. injection Hq as <-. rewrite Hi, Hd in Hw. rewrite Hd in Hn.
  exists (decided_row row r uid (w_tx_now w1)), (w_tx_now w1). rewrite Hw.
  split; [done|]. split; [unfold same_signal; cbn; by rewrite !bool_decide_eq_true_2|].
  split; [by destruct Hresp as [-> _]|]. repeat (split; [done|]). intros Hb.
  destruct (Heff Hb) as (c & Hc1 & He). exists c. split; [done|].
  by apply (decision_effect_ext _ _ _ _ (w_db w1)).
Qed.

Lemma decide_row_first row r ps am w resp w' :
  consent (w_db w) → items (w_db w) !! q_item_uid row = Some row →
  decide_row settings row r ps am w = (Ok resp, w') →
  (∃ x, prior_decisions (w_db w) (q_item_uid row) = [x] ∧ w_db w' = w_db w ∧ same_signal x r = true ∧
     qc_item (qr_card resp) = row ∧ qr_decision_uid resp = d_decision_uid x ∧
     qr_decision resp = d_decision x) ∨
  (prior_decisions (w_db w) (q_item_uid row) = [] ∧ first_decision row r resp (w_db w) (w_db w')).
Proof.
  intros Hc Hrow H. apply decide_row_ok in H as [(x & Hx & H)|(Hn & Hv & c & Hcand & H)].
  { left. exists x. split; [done|]. by apply replay_ok. }
  right. split; [done|]. pose proof (wf_key _ (consent_wf _ Hc) _ _ Hcand) as Hid.
  assert (Hat : consent_at (items (w_db w)) (decisions (w_db w)) (w_db w)) by done.
  destruct (bool_decide (q_birthplace row = Bcurator)) eqn:Eb; breflect.
  - unfold decide_curator_row in H. apply bind_ok in H as ([] & w1 & [Hexp <-]%require_ok & H).
    apply bind_ok in H as ([] & w1 & [_ <-]%require_ok & H). breflect.
    apply bind_ok in H as ([] & w1 & Hen & H).
    assert (keeps_ok (consent_at (items (w_db w)) (decisions (w_db w)))
      (match dr_decision r with
       | approve => enact_curator row c r ps am
       | deny => if bool_decide (m_status c = Scandidate)
                 then curator_cas c (dr_machine_id r) row "rejected" (status_change Stombstoned)
                 else ret tt
       end)) as Hk by keeps.
    destruct (Hk _ _ _ Hat Hen) as (_ & Hi1 & Hd1).
    eapply recorded; eauto; done.
  - rewrite <- Hid in Hcand.
    apply decide_candidate_ok in H as (w1 & H & Hk & Heff); [|by apply Hc|done].
    destruct (Hk _ (consent_at_lineage _ _) Hat) as (_ & Hi1 & Hd1). rewrite Hid in Hcand.
    eapply recorded; eauto. done.
Qed.

Lemma decide_item_ok uid r w resp w' :
  decide_item settings uid r w = (Ok resp, w') →
  ∃ row ps am w1 w2, items (w_db w) !! uid = Some row ∧ w_db w1 = w_db w ∧
    decide_row settings row r ps am w1 = (Ok resp, w2) ∧ w_db w' = w_db w2.
Proof.
  unfold decide_item. intros H. apply bind_ok in H as (d & w1 & [<- <-]%ret_ok & H).
  apply bind_ok in H as (am & w1 & E1%reads & H); [|apply prepare_amendment_keeps].
  apply bind_ok in H as (ps & w2 & E2%reads & H); [|apply prepare_split_keeps].
  unfold decide_in_transaction in H. apply transaction_ok in H as (w3 & H & ->).
  apply bind_ok in H as (d & w4 & [<- <-]%ret_ok & H). cbn in H. rewrite E2, E1 in H.
  destruct (items (w_db w) !! uid) as [row|]; [|done].
  exists row, ps, am, (begin_tx w2), w3. split_and!; try done. cbn. by rewrite E2, E1.
Qed.

Lemma decide_item_err uid r w e w' : decide_item settings uid r w = (Err e, w') → w_db w' = w_db w.
Proof.
  unfold decide_item. apply err_after_read; [auto with keeps|intros d w1 _].
  apply err_after_read; [apply prepare_amendment_keeps|intros am w2 _].
  apply err_after_read; [apply prepare_split_keeps|intros ps w3 _].
  apply transaction_rollback.
Qed.
End facts.

(** ** Properties *)
Section properties.
Context {EN : Env} {PG : Postgres} {TK : Tokenizer} {EP : EmbeddingProvider} {UC : Unicode}
  {SH : Sha256}.
Context (settings : MemorySettings).



Lemma decide_row_again row r x w :
  consent (w_db w) → items (w_db w) !! q_item_uid row = Some row →
  decisions (w_db w) !! d_decision_uid x = Some x → d_item_uid x = q_item_uid row →
  dr_amended_body r = None →
  decide_row settings row r None None w =
  (if same_signal x r
   then match units (w_db w) !! q_candidate_memory_id row with
        | Some c => (Ok {| qr_card := {| qc_item := row; qc_candidate := c; qc_neighbors :=
                      omap (λ id, card_of (m_embedding c) <$> units (w_db w) !! id) (q_neighbor_ids row) |};
                      qr_decision := d_decision x; qr_approval_mode := d_approval_mode x;
                      qr_actor_class := d_actor_class x; qr_decision_uid := d_decision_uid x |}, w)
        | None => (Err NoResultFound, w)
        end
   else (Err (QueueConflictError "queue item already has a different decision"), w)).
Proof.
  intros Hc Hrow Hx Hi Ham. unfold decide_row, bind at 1, get_db.
  rewrite <- Hi, (prior_at _ _ _ Hc Hx). unfold bind at 1, one_or_none, ret at 1.
  unfold replay_decision. rewrite Ham. unfold bind at 1, ret at 1.
  destruct (same_signal x r) eqn:Es; [|by rewrite require_false].
  rewrite require_true by done. unfold queue_card, bind, get_db. by destruct (units _ !! _).
Qed.

Lemma decide_item_plain uid r w row :
  items (w_db w) !! uid = Some row → dr_amended_body r = None →
  (q_birthplace row = Bcurator → q_verdict row ≠ Vsplit) →
  decide_item settings uid r w = transaction (decide_row settings row r None None) w.
Proof.
  intros Hrow Ham Hsp. unfold decide_item, bind at 1, get_db, prepare_amendment. rewrite Hrow, Ham.
  unfold bind at 1, ret at 1. unfold prepare_split. rewrite (proj2 (andb_false_iff _ _)).
  - unfold bind at 1, ret at 1. unfold decide_in_transaction, transaction, bind, get_db. cbn. by rewrite Hrow.
  - destruct (decide (q_birthplace row = Bcurator)) as [Hb|Hb]; [right|left]; apply bool_decide_eq_false_2; auto.
Qed.

(** The signal a decision records. *)
Definition signal (r : QueueDecisionRequest) : DecisionValue * ApprovalMode * ActorClass :=
  (dr_decision r, dr_approval_mode r, dr_actor_class r).

Lemma same_signal_true x r :
  same_signal x r = true ↔ (d_decision x, d_approval_mode x, d_actor_class x) = signal r.
Proof.
  unfold same_signal, signal. rewrite !andb_true_iff, !bool_decide_eq_true. split; [|by intros [= -> -> ->]].
  by intros [[-> ->] ->].
Qed.


Lemma rejected_body_found d p body id u k q :
  units d !! id = Some u → m_id u = id → m_principal_id u = p → m_status u = Stombstoned → m_body u = body →
  items d !! k = Some q → q_candidate_memory_id q = id → q_principal_id q = p → q_state q = rejected →
  is_Some (rejected_body d p body).
Proof.
  intros Hu Hid Hp Hs Hb Hq Hqc Hqp Hqs. unfold rejected_body.
  destruct (filter _ (rows (units d))) as [|v l] eqn:E; [|by eexists]. exfalso.
  match type of E with filter ?P _ = _ => assert (u ∈ filter P (rows (units d))) as Hin end.
  { apply list_elem_of_filter. split; [|by apply elem_rows; eauto]. split_and!; try done.
    apply Exists_exists. exists q. split; [by apply elem_rows; eauto|]. by rewrite Hid. }
  rewrite E in Hin. by apply elem_of_nil in Hin.
Qed.

Lemma same_db_err {A} (m : M A) w : preserves (same_db (w_db w)) m → w_db (m w).2 = w_db w.
Proof. intros H. exact (H w eq_refl). Qed.

(** What was denied stays denied.  Once an ordinary card was denied, no
    later call brings its text back for that principal: creating a memory
    with this body raises, and an extraction of it is dropped as a duplicate
    (or raises); neither writes anything. *)
Theorem denied_stays_denied uid r w resp w1 row candidate (c : CreateMemoryCommand)
    (replaces : list uuid) w2 :
  consent (w_db w) → decide_item settings uid r w = (Ok resp, w1) → dr_decision r = deny →
  items (w_db w) !! uid = Some row → prior_decisions (w_db w) uid = [] → q_birthplace row ≠ Bcurator →
  units (w_db w) !! q_candidate_memory_id row = Some candidate →
  m_principal_id candidate = q_principal_id row →
  w_db w2 = w_db w1 → cm_principal_id c = q_principal_id row → cm_body c = m_body candidate →
  (∃ e w3, create settings c w2 = (Err e, w3) ∧ w_db w3 = w_db w2) ∧
  (∀ created w3, create_candidate settings c replaces w2 = (created, w3) →
     w_db w3 = w_db w2 ∧ ∀ x, created = Ok x → x = None).
Proof.
  intros Hc H Hdeny Hrow Hprior Hb Hcand Hp E2 Hcp Hcb.
  pose proof (decide_item_consent settings uid r w Hc) as Hc1. rewrite H in Hc1. cbn in Hc1.
  assert (is_Some (rejected_body (w_db w2) (cm_principal_id c) (cm_body c))) as [rid Hrid].
  { apply decide_item_ok in H as (row' & ps & am & w0 & w3 & Hrow' & E0 & H & E1).
    rewrite Hrow in Hrow'. injection Hrow' as <-. rewrite E2, E1. rewrite E1 in Hc1. rewrite <- E0 in *.
    destruct (consent_item _ Hc _ _ Hrow) as (Hk & _). rewrite <- Hk in *.
    apply decide_row_first in H as [(x & Hx & _)|[_ H]]; [congruence| |done|done].
    destruct H as (_ & _ & x & t & _ & _ & _ & _ & _ & Hi & _ & Heff).
    destruct (Heff Hb) as (c' & Hc' & _ & new & Hnew & Hbody & Hpr & _ & Hst). rewrite Hdeny in Hst, Hi.
    destruct Hst as (Hst & _). rewrite Hcand in Hc'. injection Hc' as <-.
    pose proof (wf_key _ (consent_wf _ Hc) _ _ Hcand) as Hcid.
    apply (rejected_body_found _ _ _ (m_id candidate) new (q_item_uid row) (decided_item rejected t row));
      try done; [by eapply (wf_key _ (consent_wf _ Hc1))|congruence|congruence|].
    rewrite Hi. apply lookup_insert_eq. }
  split.
  - destruct (create settings c w2) as [[x|e] w3] eqn:E.
    + exfalso. unfold create in E. apply bind_ok in E as (? & w4 & [_ ->]%validate_label_ok & E).
      apply bind_ok in E as (? & w4 & [_ ->]%validate_body_ok & E).
      apply bind_ok in E as (emb & w4 & [_ ->]%lift_ok & E).
      apply transaction_ok in E as (w5 & E & _). apply bind_ok in E as (d & w6 & [<- <-]%ret_ok & E).
      apply bind_ok in E as (? & w6 & [Hno _]%refuse_rejected_ok & _). cbn in Hno. congruence.
    + exists e, w3. split; [done|]. revert E. unfold create.
      apply err_after_read; [apply validate_label_wf|intros _ w4 _].
      apply err_after_read; [apply validate_body_wf|intros _ w5 _].
      apply err_after_read; [apply embed_wf|intros emb w6 _]. apply transaction_rollback.
  - intros created w3 E.
    unfold create_candidate, validate_label, validate_body, require in E.
    do 2 (destruct (_ <=? _)%Z; [unfold bind at 1, ret at 1 in E|by injection E as <- <-]).
    unfold transaction, bind at 1, get_db in E. cbn [begin_tx w_db] in E. rewrite Hrid in E.
    injection E as <- <-. split; [done|]. by intros x [= <-].
Qed.

Lemma seed_source_label_length r :
  zlen (seed_source_label r) = Z.min 120 (14 + zlen (sd_source_name r)).
Proof.
  unfold seed_source_label, slice_to, zlen. change (120 <? 0) with false. cbv iota.
  rewrite length_take, !length_app. change (length (lit "Seed source ")) with 12%nat. cbn [length]. lia.
Qed.

(** A seed whose file name is longer than 50 characters is never ingested
    under the deployed label limit of 64: the label of its source memory is
    cut to 120 characters, not to the limit, so the memory service refuses it
    and the whole request raises, writing nothing, although the request's own
    limit on the name is 255 characters. *)
Theorem seed_long_name_refused r w :
  label_max settings = 64 → 50 < zlen (sd_source_name r) →
  validate_seed r w = (Ok tt, w) → seed_batch r w = (Ok None, w) →
  ingest_seed settings r w =
    (Err (MemoryValidationError "label exceeds the maximum of Unicode code points"), w).
Proof.
  intros Hmax Hlen Hv Hb. unfold ingest_seed. rewrite (bind_run _ _ _ _ _ Hv), (bind_run _ _ _ _ _ Hb).
  unfold create_split_source, validate_label, bind at 1. cbn [cm_label seed_source_command].
  rewrite require_false; [done|]. apply Z.leb_gt. rewrite Hmax, seed_source_label_length. lia.
Qed.

Lemma cards_of_items l w cards w' :
  map_m (λ row, queue_card row None) l w = (Ok cards, w') → qc_item <$> cards = l.
Proof.
  revert w cards w'. induction l as [|row l IH]; intros w cards w' H; cbn in H.
  { by apply ret_ok in H as [<- _]. }
  apply bind_ok in H as (card & w1 & Hcard & H). apply bind_ok in H as (cs & w2 & Hcs & H).
  apply ret_ok in H as [<- _]. cbn. f_equal; [|by eapply IH].
  unfold queue_card in Hcard. apply bind_ok in Hcard as (d & w3 & [<- <-]%ret_ok & Hcard).
  destruct (units _ !! _); [|done]. by apply ret_ok in Hcard as [<- _].
Qed.

(** A seed document is ingested once.  A batch that left cards is answered
    from them, in the order of their creation, a document some card of which
    was rejected, or whose source memory exists, is answered with no card at
    all, and a batch that names another document is a conflict; none of these
    writes anything. *)
Theorem seed_replay r w res w' :
  validate_seed r w = (Ok tt, w) →
  (items_where (w_db w) (λ q, bool_decide (q_batch_uid q = Some (sd_batch_uid r))) ≠ [] ∨
   (∃ k q, items (w_db w) !! k = Some q ∧ q_principal_id q = sd_principal_id r ∧ q_birthplace q = Bseed ∧
      q_source_sha256 q = Some (sd_source_sha256 r) ∧ q_state q = rejected) ∨
   (∃ id u, units (w_db w) !! id = Some u ∧ m_principal_id u = sd_principal_id r ∧
      m_thread_origin u = Some (seed_thread_origin r))) →
  ingest_seed settings r w = (res, w') →
  w_db w' = w_db w ∧
  ∀ resp, res = Ok resp →
    qc_item <$> er_cards resp =
      items_where (w_db w) (λ q, bool_decide (q_batch_uid q = Some (sd_batch_uid r))) ∧
    er_duplicate_count resp = zlen (sd_candidates r) - zlen (er_cards resp).
Proof.
  intros Hv Hseen H. unfold ingest_seed in H. rewrite (bind_run _ _ _ _ _ Hv) in H.
  assert (Hread : w_db (seed_batch r w).2 = w_db w) by exact (seed_batch_keeps (I:=same_db (w_db w)) r w eq_refl).
  unfold bind in H. destruct (seed_batch r w) as [[[cards|]|e] w1] eqn:E; cbn in Hread.
  - injection H as <- <-. split; [done|]. intros resp [= <-]. cbn. split; [|done].
    unfold seed_batch in E. apply bind_ok in E as (d & w2 & [<- <-]%ret_ok & E).
    destruct (items_where _ _) as [|q0 l] eqn:El.
    + case_match; [by apply ret_ok in E as [[= <-] _]|].
      apply bind_ok in E as (src & w2 & _ & E). destruct src as [s|]; [|by apply ret_ok in E as [? _]].
      apply bind_ok in E as ([] & w3 & _ & E). by apply ret_ok in E as [[= <-] _].
    + apply bind_ok in E as ([] & w2 & _ & E). apply bind_ok in E as (cs & w3 & Hcs & E).
      apply ret_ok in E as [[= <-] _]. by eapply cards_of_items.
  - exfalso. unfold seed_batch in E. apply bind_ok in E as (d & w2 & [<- <-]%ret_ok & E).
    destruct (items_where _ _) as [|q0 l] eqn:El.
    + destruct (existsb _ _) eqn:Ex; [by apply ret_ok in E as [? _]|].
      apply bind_ok in E as (src & w2 & Hsrc & E). destruct src as [s|].
      { apply bind_ok in E as ([] & w3 & _ & E). by apply ret_ok in E as [? _]. }
      destruct Hseen as [?|[(k & q & Hk & Hp & Hb & Hs & Hst)|(id & u & Hu & Hp & Ht)]]; [done|..].
      * apply not_true_iff_false in Ex. apply Ex, existsb_exists. exists q. split.
        -- apply list_elem_of_In, elem_rows. eauto.
        -- by rewrite !bool_decide_eq_true_2.
      * unfold one_or_none in Hsrc. destruct (filter _ _) as [|v lv] eqn:Ef.
        -- match type of Ef with filter ?P _ = _ => assert (u ∈ filter P (rows (units (w_db w)))) as Hin end.
           { apply list_elem_of_filter. split; [done|]. apply elem_rows. eauto. }
           rewrite Ef in Hin. by apply elem_of_nil in Hin.
        -- by destruct lv.
    + apply bind_ok in E as ([] & w2 & _ & E). apply bind_ok in E as (cs & w3 & Hcs & E).
      by apply ret_ok in E as [? _].
  - injection H as <- <-. by split.
Qed.
End properties.

(** ** A concrete queue *)
Definition sample_sha : Sha256 := {| sha256_hex := λ s, s |}.

Definition sample_draft : ExtractionCandidate := {|
  xc_label := lit "tea"; xc_body := lit "likes tea"; xc_kind := Kpreference;
  xc_keywords := [lit "tea"; lit "drink"]; xc_project_key := None; xc_origin_locations := [];
  xc_verdict := Vnew; xc_target_ids := [] |}.

Definition sample_extraction : ExtractionRequest := {|
  xr_principal_id := lit "p"; xr_thread_id := 5%N; xr_machine_id := lit "m";
  xr_editor := lit "agent:a"; xr_origin_location := None; xr_candidates := [sample_draft] |}.

Definition run_extract :=
  @extract sample_env sample_postgres sample_tokenizer sample_provider sample_settings
    sample_extraction empty_world.
Definition queue_world : world := run_extract.2.

Definition sample_decision (value : DecisionValue) : QueueDecisionRequest := {|
  dr_decision := value; dr_approval_mode := explicit_mode; dr_actor_class := human;
  dr_machine_id := lit "m"; dr_amended_body := None |}.

Definition first_card (r : res exn ExtractionResponse) : ApprovalQueueItem :=
  match r with
  | Ok resp => match er_cards resp with
               | card :: _ => qc_item card
               | [] => thread_item sample_extraction Vnew [] [] 0%N [] 0
               end
  | Err _ => thread_item sample_extraction Vnew [] [] 0%N [] 0
  end.
Definition the_card : ApprovalQueueItem := first_card run_extract.1.

Definition the_candidate : MemoryUnit :=
  default sample_head (units (w_db queue_world) !! q_candidate_memory_id the_card).

Definition run_decide (value : DecisionValue) (w : world) :=
  @decide_item sample_env sample_postgres sample_tokenizer sample_provider ascii_unicode sample_settings
    (q_item_uid the_card) (sample_decision value) w.

Lemma queue_world_consent : consent (w_db queue_world).
Proof. apply (@extract_consent sample_env), consent_empty. Qed.



Lemma denied_stays_denied_witness :
  ∃ e w3, run_create (sample_command (lit "again") (lit "likes tea")) (run_decide deny queue_world).2
          = (Err e, w3).
Proof.
  assert (is_ok (run_decide deny queue_world).1 = true) as Hok by (vm_compute; reflexivity).
  destruct (run_decide deny queue_world) as [[resp|] w1] eqn:E; [|discriminate Hok]. cbn.
  destruct (@denied_stays_denied sample_env sample_postgres sample_tokenizer sample_provider ascii_unicode
    sample_settings (q_item_uid the_card) (sample_decision deny) queue_world resp w1 the_card the_candidate
    (sample_command (lit "again") (lit "likes tea")) [] w1 queue_world_consent E eq_refl
    ltac:(vm_compute; reflexivity) ltac:(vm_compute; reflexivity) ltac:(vm_compute; discriminate)
    ltac:(vm_compute; reflexivity) ltac:(vm_compute; reflexivity) eq_refl
    ltac:(vm_compute; reflexivity) ltac:(vm_compute; reflexivity)) as [(e & w3 & H & _) _].
  exists e, w3. exact H.
Defined.

Definition sample_seed (name : str) : SeedRequest := {|
  sd_principal_id := lit "p"; sd_batch_uid := 3%N; sd_source_name := name;
  sd_source_sha256 := lit "likes tea"; sd_markdown := lit "likes tea"; sd_machine_id := lit "m";
  sd_editor := lit "user"; sd_candidates := [sample_draft] |}.

Definition long_name : str := repeat 97%N 60 ++ lit ".md".

Definition run_seed (name : str) (w : world) :=
  @ingest_seed sample_env sample_postgres sample_tokenizer sample_provider ascii_unicode sample_sha
    sample_settings (sample_seed name) w.

Lemma seed_long_name_refused_witness : is_ok (run_seed long_name empty_world).1 = false.
Proof.
  unfold run_seed. rewrite (@seed_long_name_refused sample_env sample_postgres sample_tokenizer
    sample_provider ascii_unicode sample_sha sample_settings (sample_seed long_name) empty_world
    eq_refl ltac:(vm_compute; reflexivity) ltac:(vm_compute; reflexivity) ltac:(vm_compute; reflexivity)).
  reflexivity.
Defined.

Definition seeded : world := (run_seed (lit "tea.md") empty_world).2.

Lemma seed_replay_witness : w_db (run_seed (lit "tea.md") seeded).2 = w_db seeded.
Proof.
  refine (proj1 (@seed_replay sample_env sample_postgres sample_tokenizer
    sample_provider ascii_unicode sample_sha sample_settings (sample_seed (lit "tea.md")) seeded
    (run_seed (lit "tea.md") seeded).1 (run_seed (lit "tea.md") seeded).2
    ltac:(vm_compute; reflexivity) _ (surjective_pairing _))).
  left. vm_compute. discriminate.
Defined.
