(* ===== verification/PyTime.v ===== *)
(** * [datetime.isoformat] of an aware UTC timestamp

    Timestamps are microseconds since the Unix epoch, as PostgreSQL keeps them. *)
From S2P Require Import Prelude PyStr.
Open Scope Z_scope.

(** The proleptic Gregorian date of a day number. *)
Definition civil_from_days (days : Z) : Z * Z * Z :=
  let z := days + 719468 in
  let era := z / 146097 in
  let doe := z mod 146097 in
  let yoe := (doe - doe / 1460 + doe / 36524 - doe / 146096) / 365 in
  let doy := doe - (365 * yoe + yoe / 4 - yoe / 100) in
  let mp := (5 * doy + 2) / 153 in
  let month := if mp <? 10 then mp + 3 else mp - 9 in
  ((yoe + era * 400 + if month <=? 2 then 1 else 0), month, doy - (153 * mp + 2) / 5 + 1).

(** [f"{z:0{n}d}"] of a nonnegative number. *)
Definition zero_padded (n : nat) (z : Z) : str :=
  let digits := str_of_Z z in repeat 48%N (n - length digits) ++ digits.

Definition isoformat (ts : Z) : str :=
  let seconds := ts / 1000000 in
  let micro := ts mod 1000000 in
  let '(year, month, day) := civil_from_days (seconds / 86400) in
  let clock := seconds mod 86400 in
  zero_padded 4 year ++ lit "-" ++ zero_padded 2 month ++ lit "-" ++ zero_padded 2 day
  ++ lit "T" ++ zero_padded 2 (clock / 3600) ++ lit ":" ++ zero_padded 2 (clock / 60 mod 60)
  ++ lit ":" ++ zero_padded 2 (clock mod 60)
  ++ (if micro =? 0 then [] else lit "." ++ zero_padded 6 micro) ++ lit "+00:00".

Example isoformat_epoch : isoformat 0 = lit "1970-01-01T00:00:00+00:00".
Proof. vm_compute. reflexivity. Qed.

Example isoformat_leap : isoformat 1709210096000042 = lit "2024-02-29T12:34:56.000042+00:00".
Proof. vm_compute. reflexivity. Qed.
