(* ===== verification/Decisions.v ===== *)
(** * Commit, feedback and restore: [src/src/spine/inject/decisions.py]

    The outcome of every memory shown at the gate is written once, with its
    effect on the memory's head in the same transaction; feedback may move an
    outcome later, along a fixed set of transitions. *)
From S2P Require Import Prelude PyStr PyFloat PyJson PyTime Ids Renderer Scorer.
From S2P Require Import Embeddings Store MemoryDb.
Open Scope Z_scope.

Definition positive_outcome (o : option Outcome) : bool :=
  bool_decide (o ∈ [Some kept; Some added_back; Some cited]).
Definition feedback_outcome (o : option Outcome) : bool :=
  bool_decide (o ∈ [Some cited; Some mid_thread_removed; Some mid_thread_added]).

Record RemovedDecision := { rd_memory_id : uuid; rd_reason : RemovalReason }.

Record CommitCommand := {
  ic_injection_id : uuid;
  ic_removed : list RemovedDecision;
  ic_added_back : list uuid;
}.

Inductive FeedbackSignal := sig_mid_thread_removed | sig_mid_thread_added | sig_cited.
#[export] Instance feedback_signal_eq_dec : EqDecision FeedbackSignal.
Proof. solve_decision. Defined.

Definition signal_outcome (s : FeedbackSignal) : Outcome :=
  match s with
  | sig_mid_thread_removed => mid_thread_removed
  | sig_mid_thread_added => mid_thread_added
  | sig_cited => cited
  end.

Record FeedbackCommand := {
  fc_injection_id : uuid;
  fc_memory_id : uuid;
  fc_signal : FeedbackSignal;
}.

Record PlannedOutcome := {
  po_event : InjectionEvent;
  po_desired : option Outcome;
  po_is_new : bool;
}.

Record NeverRule := { bias_step : float; quarantine_kills : Z }.

Record CommitResponse := { cr_final_block : str; cr_wrong_removed : list MemoryUnit }.

Definition with_outcome (o : option Outcome) (e : InjectionEvent) : InjectionEvent := {|
  i_id := i_id e; i_event_uid := i_event_uid e; i_injection_id := i_injection_id e;
  i_thread_id := i_thread_id e; i_agent_id := i_agent_id e; i_machine_id := i_machine_id e;
  i_principal_id := i_principal_id e; i_project_key := i_project_key e;
  i_agent_kind := i_agent_kind e; i_prompt_text := i_prompt_text e;
  i_scorer_version := i_scorer_version e; i_memory_id := i_memory_id e;
  i_memory_kind := i_memory_kind e; i_features := i_features e; i_score := i_score e;
  i_rank := i_rank e; i_shown_as := i_shown_as e; i_actor_class := i_actor_class e;
  i_outcome := o; i_ts := i_ts e |}.

(** What the renderer reads of a stored event. *)
Definition rendered (e : InjectionEvent) : render_event := {|
  ev_features := JObj (i_features e); ev_memory_kind := JStr (i_memory_kind e);
  ev_rank := JInt (i_rank e); ev_memory_id := Some (i_memory_id e) |}.

Definition frozen_exn (e : frozen_error) : exn :=
  match e with FrozenMemoryPayloadError msg => FrozenPayloadError msg end.

Definition render (events : list InjectionEvent) : M str :=
  lift frozen_exn (render_final_block (rendered <$> events)).

(** [_load_batch_for_update]: by rank, memory and event. *)
Definition event_leb (a b : InjectionEvent) : bool :=
  (i_rank a <? i_rank b) || ((i_rank a =? i_rank b)
    && ((i_memory_id a <? i_memory_id b)%N
        || ((i_memory_id a =? i_memory_id b)%N && (i_id a <=? i_id b)))).

Definition load_batch (d : db) (injection_id : uuid) : list InjectionEvent :=
  sort_by event_leb (filter (λ e, i_injection_id e = injection_id) (rows (events d))).

(** ** [_plan_commit] *)

(** The members of the batch by memory; a budget-cut row is not a member. *)
Definition members (events : list InjectionEvent) : list InjectionEvent :=
  filter (λ e, i_shown_as e ≠ shown_budget_cut) events.

Definition add_member (by_memory : list (uuid * InjectionEvent)) (event : InjectionEvent) :
    res exn (list (uuid * InjectionEvent)) :=
  match aget (i_memory_id event) by_memory with
  | Some _ => Err (DecisionStateError "injection contains duplicate memory")
  | None => Ok (aset (i_memory_id event) event by_memory)
  end.

Definition add_removed (removed : list (uuid * RemovalReason)) (item : RemovedDecision) :
    res exn (list (uuid * RemovalReason)) :=
  match aget (rd_memory_id item) removed with
  | Some _ => Err (InvalidCommitChoicesError "removed repeats memory")
  | None => Ok (aset (rd_memory_id item) (rd_reason item) removed)
  end.

Definition check_removed (by_memory : list (uuid * InjectionEvent)) (item : uuid * RemovalReason) :
    res exn unit :=
  match aget item.1 by_memory with
  | None => Err (InvalidCommitChoicesError "removed memory is not an injection batch member")
  | Some event =>
      match i_shown_as event with
      | shown_injected | shown_pinned => Ok tt
      | shown_near_miss =>
          if bool_decide (item.2 = never) then Ok tt
          else Err (InvalidCommitChoicesError "removed memory cannot use reason")
      | shown_budget_cut => Err (InvalidCommitChoicesError "removed memory cannot use reason")
      end
  end.

Definition check_added_back (by_memory : list (uuid * InjectionEvent)) (memory_id : uuid) :
    res exn unit :=
  match aget memory_id by_memory with
  | Some event =>
      if bool_decide (i_shown_as event = shown_near_miss) then Ok tt
      else Err (InvalidCommitChoicesError "added_back memory is not a near-miss batch member")
  | None => Err (InvalidCommitChoicesError "added_back memory is not a near-miss batch member")
  end.

(** [_is_feedback_descendant]. *)
Definition is_feedback_descendant (event : InjectionEvent) (current desired : Outcome) : bool :=
  feedback_outcome (Some current)
  && bool_decide (desired = if bool_decide (i_shown_as event = shown_near_miss) then added_back else kept).

(** The outcome the command asks for. *)
Definition desired_outcome (removed : list (uuid * RemovalReason)) (added : list uuid)
    (event : InjectionEvent) : res exn (option Outcome) :=
  let reason := aget (i_memory_id event) removed in
  match i_shown_as event with
  | shown_near_miss =>
      Ok (if bool_decide (reason = Some never) then Some (Store.removed never)
          else if bool_decide (i_memory_id event ∈ added) then Some added_back else None)
  | shown_injected | shown_pinned =>
      Ok (match reason with Some r => Some (Store.removed r) | None => Some kept end)
  | shown_budget_cut => Err (DecisionStateError "event has invalid shown_as")
  end.

Definition plan_event (removed : list (uuid * RemovalReason)) (added : list uuid)
    (event : InjectionEvent) : res exn PlannedOutcome :=
  desired ← desired_outcome removed added event;
  let plan is_new := Ok {| po_event := event; po_desired := desired; po_is_new := is_new |} in
  match desired, i_outcome event with
  | None, Some _ => Err (OutcomeConflictError "event was already committed")
  | None, None => plan false
  | Some _, None => plan true
  | Some o, Some current =>
      if bool_decide (current = o) || is_feedback_descendant event current o then plan false
      else Err (OutcomeConflictError "event already has another outcome")
  end.

Definition plan_commit (events : list InjectionEvent) (c : CommitCommand) :
    res exn (list PlannedOutcome) :=
  by_memory ← res_fold add_member [] (members events);
  removed ← res_fold add_removed [] (ic_removed c);
  guard_ (nodupb (ic_added_back c))
    (InvalidCommitChoicesError "added_back contains duplicate memory IDs");;
  guard_ (forallb (λ r, bool_decide (r.1 ∉ ic_added_back c)) removed)
    (InvalidCommitChoicesError "memory is in both lists");;
  res_map (check_removed by_memory) removed;;
  res_map (check_added_back by_memory) (ic_added_back c);;
  res_map (plan_event removed (ic_added_back c)) (members events).

(** ** Effects on the heads *)

(** [_increment_stat]. *)
Definition increment_stat (stats : list (str * json)) (name : string) : res exn (list (str * json)) :=
  match default (JInt 0) (aget (lit name) stats) with
  | JInt value =>
      if value <? 0 then Err (DecisionStateError "memory stats must be a nonnegative integer")
      else Ok (aset (lit name) (JInt (value + 1)) stats)
  | _ => Err (DecisionStateError "memory stats must be a nonnegative integer")
  end.

Definition stats_change (stats : list (str * json)) (bias : option float)
    (status : option MemoryStatus) : MemoryUnitChanges := {|
  ch_label := None; ch_body := None; ch_kind := None; ch_keywords := None; ch_embedding := None;
  ch_embedding_model := None; ch_project_key := None; ch_thread_origin := None;
  ch_origin_thread_id := None; ch_origin_path := None; ch_origin_location := None; ch_pin := None;
  ch_status := status; ch_stats := Some stats; ch_bias := bias |}.

(** [_commit_head_changes]. *)
Definition quarantined_status (status : MemoryStatus) (kills : json) (rule : NeverRule) : MemoryStatus :=
  if bool_decide (status = Sactive)
     && match kills with JInt k => quarantine_kills rule <=? k | _ => false end
  then Squarantined else status.

Definition commit_head_changes (current : MemoryUnit) (desired : Outcome) (commit_ts : Z)
    (never_rule : option NeverRule) : res exn MemoryUnitChanges :=
  if bool_decide (desired = added_back) then
    stats ← increment_stat (m_stats current) "injections";
    Ok (stats_change (aset (lit "last_injected_at") (JStr (isoformat commit_ts)) stats) None None)
  else
    stats ← increment_stat (m_stats current) "removals";
    if bool_decide (desired ≠ Store.removed never) then Ok (stats_change stats None None)
    else
      match never_rule with
      | None => Err (DecisionStateError "removed:never has no scorer-version rule")
      | Some rule =>
          stats ← increment_stat stats "never_kills";
          Ok (stats_change stats (Some (fadd (m_bias current) (bias_step rule)))
                (Some (quarantined_status (m_status current)
                         (default JNull (aget (lit "never_kills") stats)) rule)))
      end.

(** [_load_never_rules]: the rules by scorer version. *)
Definition never_rule_of (d : db) (version : str) : res exn (str * NeverRule) :=
  match sc_params <$> scorer_configs d !! version with
  | Some (JObj params) =>
      let step := jget_or_null (lit "never_bias_step") params in
      let kills := jget_or_null (lit "quarantine_kills") params in
      step ← match step with
             | JInt z => if isfinite (f_of_Z z) then Ok (f_of_Z z)
                         else Err (Builtin (OverflowError "int too large to convert to float"))
             | JFloat f => Ok f
             | _ => Err (DecisionStateError "never_bias_step is invalid")
             end;
      guard_ (isfinite step && flt step f0) (DecisionStateError "never_bias_step is invalid");;
      match kills with
      | JInt k => guard_ (0 <? k) (DecisionStateError "quarantine_kills is invalid");;
                  Ok (version, {| bias_step := step; quarantine_kills := k |})
      | _ => Err (DecisionStateError "quarantine_kills is invalid")
      end
  | _ => Err (DecisionStateError "scorer_config is missing or invalid")
  end.

Definition load_never_rules (d : db) (versions : list str) : res exn (list (str * NeverRule)) :=
  res_map (never_rule_of d) versions.

(** [_load_heads_for_update]. *)
Definition load_heads (d : db) (memory_ids : list uuid) : gmap uuid MemoryUnit :=
  filter (λ p, p.1 ∈ memory_ids) (units d).

(** Outcome updates: the row count decides. *)
Definition update_outcome (event_id : Z) (expected : option Outcome) (desired : Outcome) : M unit :=
  d <-! get_db;
  match events d !! event_id with
  | Some e =>
      if bool_decide (i_outcome e = expected)
      then put_db (set_events (<[event_id := with_outcome (Some desired) e]> (events d)) (next_event_id d) d)
      else raise (OutcomeConflictError "event outcome changed concurrently")
  | None => raise (OutcomeConflictError "event outcome changed concurrently")
  end.

Definition has_effect (o : Outcome) : bool :=
  match o with added_back | Store.removed _ => true | _ => false end.

(** The planned outcomes that are new, with what they ask for. *)
Definition new_effects (planned : list PlannedOutcome) : list (InjectionEvent * Outcome) :=
  omap (λ p, if po_is_new p then (λ o, (po_event p, o)) <$> po_desired p else None) planned.

Definition effective_event (p : PlannedOutcome) : InjectionEvent :=
  if po_is_new p then with_outcome (po_desired p) (po_event p) else po_event p.

Section service.
Context {EN : Env} {PG : Postgres}.

(** One head change of a commit; the loop carries the snapshots. *)
Definition commit_step (commit_ts : Z) (rules : list (str * NeverRule))
    (snapshots : gmap uuid MemoryUnit) (item : InjectionEvent * Outcome) : M (gmap uuid MemoryUnit) :=
  let '(event, desired) := item in
  if negb (has_effect desired) then ret snapshots
  else
    match snapshots !! i_memory_id event with
    | None => raise (DecisionStateError "memory does not exist")
    | Some current =>
        changes <-! lift id (commit_head_changes current desired commit_ts
                               (aget (i_scorer_version event) rules));
        rev_uid <-! mint;
        row <-! cas_update_memory_unit {|
          cu_memory_id := i_memory_id event; cu_expected_revision := m_revision current;
          cu_rev_uid := rev_uid; cu_editor := lit "system:inject";
          cu_origin_machine_id := i_machine_id event; cu_changes := changes;
          cu_reason := lit "inject/commit:" ++ outcome_str desired |};
        ret (<[i_memory_id event := row]> snapshots)
    end.

Definition memory_order (a b : InjectionEvent * Outcome) : bool := (i_memory_id a.1 <=? i_memory_id b.1)%N.

(** [_event_order]. *)
Definition wrong_order (a b : PlannedOutcome) : bool :=
  (i_rank (po_event a) <? i_rank (po_event b))
  || ((i_rank (po_event a) =? i_rank (po_event b))
      && (i_memory_id (po_event a) <=? i_memory_id (po_event b))%N).

(** The writes and the answer of a commit once its plan stands. *)
Definition commit_planned (c : CommitCommand) (planned : list PlannedOutcome) : M CommitResponse :=
  let effects := new_effects planned in
  d <-! get_db;
  rules <-! lift id (load_never_rules d (remove_dups
              (i_scorer_version ∘ fst <$> filter (λ x, x.2 = Store.removed never) effects)));
  let wrong_ids := rd_memory_id <$> filter (λ x, rd_reason x = wrong) (ic_removed c) in
  let effect_ids := i_memory_id ∘ fst <$> filter (λ x, has_effect x.2 = true) effects in
  let heads := load_heads d (effect_ids ++ wrong_ids) in
  commit_ts <-! clock_timestamp;
  snapshots <-! fold_m (commit_step commit_ts rules) heads (sort_by memory_order effects);
  for_each effects (λ x, update_outcome (i_id x.1) None x.2) ;!
  wrong_removed <-! map_m (λ p, match snapshots !! i_memory_id (po_event p) with
                                | Some row => ret row
                                | None => raise (DecisionStateError "memory does not exist")
                                end)
    (sort_by wrong_order (filter (λ p, po_desired p = Some (Store.removed wrong)) planned));
  final_block <-! render (filter (λ e, positive_outcome (i_outcome e) = true) (effective_event <$> planned));
  ret {| cr_final_block := final_block; cr_wrong_removed := wrong_removed |}.

(** [DecisionService.commit]. *)
Definition commit (c : CommitCommand) : M CommitResponse :=
  transaction (
    d <-! get_db;
    match load_batch d (ic_injection_id c) with
    | [] =>
        require (bool_decide (ic_removed c = []) && bool_decide (ic_added_back c = []))
          InjectionNotFoundError ;!
        final_block <-! render [];
        ret {| cr_final_block := final_block; cr_wrong_removed := [] |}
    | batch =>
        planned <-! lift id (plan_commit batch c);
        commit_planned c planned
    end).

(** [DecisionService.feedback]: the transitions it allows. *)
Definition feedback_allowed (signal : FeedbackSignal) (shown_as : ShownAs) (current : option Outcome) :
    bool :=
  match signal with
  | sig_mid_thread_added =>
      bool_decide (current = Some mid_thread_removed)
      || bool_decide (current = None) && bool_decide (shown_as = shown_near_miss)
  | sig_mid_thread_removed =>
      bool_decide (current ∈ [Some kept; Some added_back; Some auto_entered; Some mid_thread_added])
  | sig_cited => bool_decide (current ∈ [Some kept; Some added_back; Some auto_entered])
  end.

(** [_load_feedback_event_for_update]. *)
Definition feedback_rows (d : db) (c : FeedbackCommand) : list InjectionEvent :=
  filter (λ e, i_injection_id e = fc_injection_id c ∧ i_memory_id e = fc_memory_id c) (rows (events d)).

Definition load_feedback_event (c : FeedbackCommand) : M InjectionEvent :=
  d <-! get_db;
  match feedback_rows d c with
  | [] => raise InjectionNotFoundError
  | [event] => ret event
  | _ => raise (DecisionStateError "feedback membership is not unique")
  end.

(** The counter a signal moves. *)
Definition feedback_stat (signal : FeedbackSignal) : option string :=
  match signal with
  | sig_mid_thread_removed => Some "removals"%string
  | sig_cited => Some "citations"%string
  | sig_mid_thread_added => None
  end.

Definition feedback_effect (c : FeedbackCommand) (event : InjectionEvent) : M unit :=
  match feedback_stat (fc_signal c) with
  | None => ret tt
  | Some stat =>
      d <-! get_db;
      match units d !! i_memory_id event with
      | None => raise (DecisionStateError "memory does not exist")
      | Some current =>
          stats <-! lift id (increment_stat (m_stats current) stat);
          rev_uid <-! mint;
          cas_update_memory_unit {|
            cu_memory_id := i_memory_id event; cu_expected_revision := m_revision current;
            cu_rev_uid := rev_uid; cu_editor := lit "system:feedback";
            cu_origin_machine_id := i_machine_id event; cu_changes := stats_change stats None None;
            cu_reason := lit "feedback/" ++ outcome_str (signal_outcome (fc_signal c)) |} ;!
          ret tt
      end
  end.

Definition feedback (c : FeedbackCommand) : M unit :=
  transaction (
    event <-! load_feedback_event c;
    if bool_decide (i_outcome event = Some (signal_outcome (fc_signal c))) then ret tt
    else
      require (feedback_allowed (fc_signal c) (i_shown_as event) (i_outcome event))
        (OutcomeConflictError "event outcome cannot accept signal") ;!
      feedback_effect c event ;!
      update_outcome (i_id event) (i_outcome event) (signal_outcome (fc_signal c))).
End service.

(** ** [DecisionService.restore] *)
Record RestoredCard := {
  rc_memory_id : uuid;
  rc_label : json;
  rc_body : json;
  rc_pin : json;
  rc_kind : str;
  rc_score : float;
  rc_rank : Z;
  rc_features : list (str * json);
}.

Record RestoredInjection := {
  ri_injection_id : uuid;
  ri_snapshot_ts : Z;
  ri_scorer_version : str;
  ri_injected : list RestoredCard;
  ri_near_misses : list RestoredCard;
  ri_final_block : option str;
  ri_allocation : list (str * json);
  ri_confirmed : list uuid;
  ri_excluded : list uuid;
  ri_event_sources : list (uuid * uuid);
  ri_pending : bool;
}.

Definition restore_positive (o : option Outcome) : bool :=
  bool_decide (o ∈ [Some kept; Some added_back; Some cited; Some auto_entered; Some mid_thread_added]).

(** The loop over the events: the latest event of each memory, the confirmed
    and the excluded memories. *)
Record restored := {
  latest : list (uuid * InjectionEvent);
  confirmed : gset uuid;
  excluded : gset uuid;
}.

Definition excludes (e : InjectionEvent) : bool :=
  match i_outcome e with Some mid_thread_removed | Some (Store.removed _) => true | _ => false end.
Definition confirms (e : InjectionEvent) : bool :=
  bool_decide (i_outcome e = Some mid_thread_added)
  || (bool_decide (i_actor_class e = human) && restore_positive (i_outcome e)).

Definition restore_step (st : restored) (e : InjectionEvent) : restored :=
  let latest := aset (i_memory_id e) e (latest st) in
  if excludes e then
    {| latest := latest; confirmed := confirmed st ∖ {[i_memory_id e]};
       excluded := {[i_memory_id e]} ∪ excluded st |}
  else if confirms e then
    {| latest := latest; confirmed := {[i_memory_id e]} ∪ confirmed st;
       excluded := excluded st ∖ {[i_memory_id e]} |}
  else {| latest := latest; confirmed := confirmed st; excluded := excluded st |}.

Definition restore_state (events : list InjectionEvent) : restored :=
  foldl restore_step {| latest := []; confirmed := ∅; excluded := ∅ |} events.

Definition shown_at_gate (e : InjectionEvent) : bool :=
  bool_decide (i_shown_as e ∈ [shown_injected; shown_pinned]).
Definition undecided (e : InjectionEvent) : bool :=
  bool_decide (i_outcome e = None) && shown_at_gate e.

Definition restore_pending (st : restored) : bool := existsb undecided ((latest st).*2).

Definition restore_selected (st : restored) : list InjectionEvent :=
  filter (λ e, bool_decide (i_memory_id e ∉ excluded st)
               && (restore_positive (i_outcome e) || (restore_pending st && undecided e)) = true)
    ((latest st).*2).

Definition restore_near (st : restored) : list InjectionEvent :=
  filter (λ e, bool_decide (i_shown_as e = shown_near_miss) && negb (restore_positive (i_outcome e))
               && bool_decide (i_memory_id e ∉ excluded st) = true)
    ((latest st).*2).

Definition json_subscript (j : json) (key : string) : res exn json :=
  match j with
  | JObj kv => match aget (lit key) kv with
               | Some v => Ok v
               | None => Err (Builtin (KeyError (lit key)))
               end
  | _ => Err (Builtin (TypeError "object is not subscriptable"))
  end.

Definition restored_card (e : InjectionEvent) : res exn RestoredCard :=
  frozen ← json_subscript (JObj (i_features e)) "_memory";
  label ← json_subscript frozen "label";
  body ← json_subscript frozen "body";
  pin ← json_subscript frozen "pin";
  Ok {| rc_memory_id := i_memory_id e; rc_label := label; rc_body := body; rc_pin := pin;
        rc_kind := i_memory_kind e; rc_score := i_score e; rc_rank := i_rank e;
        rc_features := filter (λ kv, startswith (lit "_") kv.1 = false) (i_features e) |}.

Definition empty_allocation : list (str * json) :=
  [(lit "memory_context_share", JFloat (f_ratio 1 10)); (lit "share_tokens", JInt 0);
   (lit "regular_tokens", JInt 0); (lit "pinned_tokens", JInt 0); (lit "total_tokens", JInt 0);
   (lit "pinned_overflow_tokens", JInt 0)].

Definition last_allocation (last_event : option InjectionEvent) : res exn json :=
  match last_event with
  | None => Ok (JObj empty_allocation)
  | Some e => json_subscript (JObj (i_features e)) "_prepare"
  end.

Definition restored_allocation (allocation : json) : res exn (list (str * json)) :=
  match allocation with
  | JObj kv => Ok (filter (λ p, p.1 ≠ lit "model_context_tokens") kv)
  | _ => Err (Builtin (AttributeError "items"))
  end.

Definition sorted_ids (s : gset uuid) : list uuid := sort_by N.leb (elements s).

(** [ORDER BY ts, id]. *)
Definition time_leb (a b : InjectionEvent) : bool :=
  (i_ts a <? i_ts b) || ((i_ts a =? i_ts b) && (i_id a <=? i_id b)).

Definition thread_events (d : db) (thread_id : uuid) (principal_id : str) : list InjectionEvent :=
  sort_by time_leb (filter (λ e, i_thread_id e = thread_id ∧ i_principal_id e = principal_id)
                      (rows (events d))).

Definition restore (thread_id : uuid) (principal_id : str) : M (option RestoredInjection) :=
  d <-! get_db;
  match threads d !! thread_id with
  | Some thread =>
      match t_snapshot_ts thread with
      | Some snapshot_ts =>
          if negb (bool_decide (t_principal_id thread = principal_id)) then ret None else
          let evs := thread_events d thread_id principal_id in
          let st := restore_state evs in
          let pending := restore_pending st in
          let last_event := last evs in
          allocation <-! lift id (last_allocation last_event);
          injected <-! lift id (res_map restored_card (restore_selected st));
          near <-! lift id (res_map restored_card (restore_near st));
          final_block <-! (if pending then ret None
                           else block <-! render (restore_selected st); ret (Some block));
          stripped <-! lift id (restored_allocation allocation);
          ret (Some {|
            ri_injection_id := match last_event with Some e => i_injection_id e | None => thread_id end;
            ri_snapshot_ts := snapshot_ts;
            ri_scorer_version := match last_event with Some e => i_scorer_version e
                                 | None => lit "empty" end;
            ri_injected := injected; ri_near_misses := near; ri_final_block := final_block;
            ri_allocation := stripped; ri_confirmed := sorted_ids (confirmed st);
            ri_excluded := sorted_ids (excluded st);
            ri_event_sources := (λ p, (p.1, i_injection_id p.2)) <$> latest st;
            ri_pending := pending |})
      | None => ret None
      end
  | None => ret None
  end.
