(* ===== verification/DecisionsFacts.v ===== *)
(** * What commit, feedback and restore guarantee

    The plan of a commit against its specification, the writes of a commit and
    its replay, the life of an outcome under feedback, and what restore reads. *)
From S2P Require Import Prelude PyStr PyFloat PyJson PyTime Ids Renderer Scorer.
From S2P Require Import Features Embeddings Store MemoryDb MemoryService Decisions.
Open Scope Z_scope.

(** ** The plan of a commit *)

(** The choices partition the members of the batch: no repetition, no overlap,
    removals among the injected and pinned members (near misses only for
    "never"), additions among the near misses. *)
Record choices_ok (batch : list InjectionEvent) (c : CommitCommand) : Prop := {
  choices_batch : NoDup (i_memory_id <$> members batch);
  choices_removed : NoDup (rd_memory_id <$> ic_removed c);
  choices_added : NoDup (ic_added_back c);
  choices_disjoint : ∀ r, r ∈ ic_removed c → rd_memory_id r ∉ ic_added_back c;
  choices_removed_in : ∀ r, r ∈ ic_removed c → ∃ e, e ∈ members batch ∧ i_memory_id e = rd_memory_id r ∧
    (i_shown_as e = shown_near_miss → rd_reason r = never);
  choices_added_in : ∀ id, id ∈ ic_added_back c → ∃ e, e ∈ members batch ∧ i_memory_id e = id ∧
    i_shown_as e = shown_near_miss;
}.

(** The outcome a command asks for. *)
Definition removal (c : CommitCommand) (id : uuid) : option RemovalReason :=
  rd_reason <$> head (filter (λ r, rd_memory_id r = id) (ic_removed c)).

Definition wanted (c : CommitCommand) (e : InjectionEvent) : option Outcome :=
  match removal c (i_memory_id e) with
  | Some r => Some (removed r)
  | None => match i_shown_as e with
            | shown_near_miss => if bool_decide (i_memory_id e ∈ ic_added_back c) then Some added_back else None
            | _ => Some kept
            end
  end.

(** What the event already says does not contradict it. *)
Definition compatible (c : CommitCommand) (e : InjectionEvent) : bool :=
  match wanted c e, i_outcome e with
  | _, None => true
  | Some o, Some current => bool_decide (current = o) || is_feedback_descendant e current o
  | None, Some _ => false
  end.

Definition planned_outcome (c : CommitCommand) (e : InjectionEvent) : PlannedOutcome := {|
  po_event := e; po_desired := wanted c e;
  po_is_new := bool_decide (i_outcome e = None) && bool_decide (wanted c e ≠ None) |}.

Lemma add_members_ok events r :
  res_fold add_member [] events = Ok r ↔
  NoDup (i_memory_id <$> events) ∧ r = (λ e, (i_memory_id e, e)) <$> events.
Proof. apply (res_fold_fresh i_memory_id (λ e, e)). constructor. Qed.

Lemma add_removeds_ok l r :
  res_fold add_removed [] l = Ok r ↔
  NoDup (rd_memory_id <$> l) ∧ r = (λ x, (rd_memory_id x, rd_reason x)) <$> l.
Proof. apply (res_fold_fresh rd_memory_id rd_reason). constructor. Qed.

Lemma fst_pairs {A K V} (key : A → K) (val : A → V) (l : list A) :
  ((λ x, (key x, val x)) <$> l).*1 = key <$> l.
Proof. rewrite <- list_fmap_compose. done. Qed.

Lemma aget_member batch id e :
  NoDup (i_memory_id <$> batch) →
  aget id ((λ e, (i_memory_id e, e)) <$> batch) = Some e ↔ e ∈ batch ∧ i_memory_id e = id.
Proof.
  intros Hnd. rewrite aget_elem by by rewrite fst_pairs. rewrite list_elem_of_fmap. split.
  - intros (x & [= -> ->] & Hx). done.
  - intros [Hx <-]. eauto.
Qed.

Lemma aget_removal c id :
  aget id ((λ x, (rd_memory_id x, rd_reason x)) <$> ic_removed c) = removal c id.
Proof.
  unfold removal. induction (ic_removed c) as [|r l IH]; [done|].
  rewrite filter_cons, fmap_cons. cbn [aget fst snd].
  destruct (decide (id = rd_memory_id r)) as [->|Hne]; [by rewrite decide_True|].
  by rewrite decide_False.
Qed.

Lemma removal_elem c id r :
  NoDup (rd_memory_id <$> ic_removed c) →
  removal c id = Some r ↔ {| rd_memory_id := id; rd_reason := r |} ∈ ic_removed c.
Proof.
  intros Hnd. rewrite <- aget_removal, aget_elem by by rewrite fst_pairs.
  rewrite list_elem_of_fmap. split.
  - intros ([id' r'] & [= -> ->] & Hx). done.
  - intros H. eexists. split; [|exact H]. done.
Qed.

Lemma plan_event_ok c e p :
  i_shown_as e ≠ shown_budget_cut →
  (i_shown_as e = shown_near_miss → ∀ r, removal c (i_memory_id e) = Some r → r = never) →
  plan_event ((λ x, (rd_memory_id x, rd_reason x)) <$> ic_removed c) (ic_added_back c) e = Ok p ↔
  compatible c e = true ∧ p = planned_outcome c e.
Proof.
  intros Hcut Hnever.
  assert (desired_outcome ((λ x, (rd_memory_id x, rd_reason x)) <$> ic_removed c) (ic_added_back c) e
          = Ok (wanted c e)) as Hd.
  { unfold desired_outcome, wanted. rewrite aget_removal. destruct (i_shown_as e) eqn:Hs; try done.
    destruct (removal c (i_memory_id e)) as [r|] eqn:Hr; [|done].
    by rewrite (Hnever eq_refl r eq_refl). }
  unfold plan_event. rewrite Hd, Ok_bind. unfold compatible, planned_outcome.
  destruct (wanted c e) as [o|], (i_outcome e) as [cur|]; cbn.
  - destruct (_ || _); (split; [by intros [= <-]|by intros [? ->]]).
  - split; [by intros [= <-]|by intros [_ ->]].
  - split; [done|by intros [? _]].
  - split; [by intros [= <-]|by intros [_ ->]].
Qed.

Lemma member_not_cut batch e : e ∈ members batch → i_shown_as e ≠ shown_budget_cut.
Proof. intros H. by apply list_elem_of_filter in H as [? _]. Qed.

Lemma Forall2_fmap_pointwise {A B} (R : A → B → Prop) (g : A → B) l ys :
  (∀ x y, x ∈ l → R x y → y = g x) → Forall2 R l ys → ys = g <$> l.
Proof.
  intros Hg H. induction H as [|x y l ys Hxy _ IH]; [done|]. cbn. f_equal.
  - apply Hg; [left|done].
  - apply IH. intros x' y' Hin. apply Hg. by right.
Qed.

Lemma Forall2_fmap_self {A B} (R : A → B → Prop) (g : A → B) l :
  (∀ x, x ∈ l → R x (g x)) → Forall2 R l (g <$> l).
Proof.
  intros H. induction l as [|x l IH]; cbn; constructor; [apply H; left|].
  apply IH. intros y Hy. apply H. by right.
Qed.

Lemma check_removed_ok batch r :
  NoDup (i_memory_id <$> members batch) →
  check_removed ((λ e, (i_memory_id e, e)) <$> members batch) (rd_memory_id r, rd_reason r) = Ok tt ↔
  ∃ e, e ∈ members batch ∧ i_memory_id e = rd_memory_id r ∧
    (i_shown_as e = shown_near_miss → rd_reason r = never).
Proof.
  intros Hnd. unfold check_removed. cbn [fst snd]. split.
  - destruct (aget _ _) as [e|] eqn:E; [|done]. apply aget_member in E as [He Hid]; [|done].
    intros H. exists e. split; [done|]. split; [done|]. intros Hs. rewrite Hs in H.
    destruct (bool_decide (rd_reason r = never)) eqn:Eb; [by apply bool_decide_eq_true in Eb|done].
  - intros (e & He & Hid & Hn). rewrite (proj2 (aget_member _ _ e Hnd)) by done.
    pose proof (member_not_cut _ _ He). destruct (i_shown_as e); try done.
    by rewrite bool_decide_eq_true_2 by auto.
Qed.

Lemma check_added_back_ok batch id :
  NoDup (i_memory_id <$> members batch) →
  check_added_back ((λ e, (i_memory_id e, e)) <$> members batch) id = Ok tt ↔
  ∃ e, e ∈ members batch ∧ i_memory_id e = id ∧ i_shown_as e = shown_near_miss.
Proof.
  intros Hnd. unfold check_added_back. split.
  - destruct (aget _ _) as [e|] eqn:E; [|done]. apply aget_member in E as [He Hid]; [|done].
    destruct (bool_decide _) eqn:Eb; [|done]. apply bool_decide_eq_true in Eb. eauto.
  - intros (e & He & Hid & Hs). rewrite (proj2 (aget_member _ _ e Hnd)) by done.
    by rewrite bool_decide_eq_true_2.
Qed.

Lemma plan_commit_iff batch c planned :
  plan_commit batch c = Ok planned ↔
  choices_ok batch c ∧ (∀ e, e ∈ members batch → compatible c e = true) ∧
  planned = planned_outcome c <$> members batch.
Proof.
  assert (Hev : choices_ok batch c → ∀ e, e ∈ members batch → ∀ p,
    plan_event ((λ x, (rd_memory_id x, rd_reason x)) <$> ic_removed c) (ic_added_back c) e = Ok p ↔
    compatible c e = true ∧ p = planned_outcome c e).
  { intros Hok e He p. apply plan_event_ok; [by eapply member_not_cut|].
    intros Hs r Hr. apply removal_elem in Hr; [|by apply Hok].
    destruct (choices_removed_in _ _ Hok _ Hr) as (e' & He' & Hid & Hn). cbn in *. apply Hn.
    by rewrite (NoDup_fmap_elem _ _ e' e (choices_batch _ _ Hok)). }
  unfold plan_commit. split.
  - intros H. apply bind_Ok in H as (by_memory & [Hnd ->]%add_members_ok & H).
    apply bind_Ok in H as (rem & [Hnr ->]%add_removeds_ok & H).
    apply bind_Ok in H as ([] & Ha%guard_Ok & H). apply bind_Ok in H as ([] & Hd%guard_Ok & H).
    apply bind_Ok in H as (us & Hr & H). apply bind_Ok in H as (vs & Hb & H).
    assert (choices_ok batch c) as Hok.
    { split; try done.
      - by apply bool_decide_eq_true in Ha.
      - intros r Hin. rewrite forallb_forall in Hd. specialize (Hd (rd_memory_id r, rd_reason r)).
        apply bool_decide_eq_true in Hd; [done|]. apply list_elem_of_In, list_elem_of_fmap. eauto.
      - intros r Hin. apply check_removed_ok; [done|]. apply (proj1 (res_map_unit _ _) (ex_intro _ us Hr)).
        apply list_elem_of_fmap. eauto.
      - intros id Hin. apply check_added_back_ok; [done|]. by apply (proj1 (res_map_unit _ _) (ex_intro _ vs Hb)). }
    apply res_map_Forall2 in H. split; [done|]. split.
    + intros e He. apply list_elem_of_lookup in He as [i Hi].
      destruct (Forall2_lookup_l _ _ _ _ _ H Hi) as (p & _ & Hp). apply Hev in Hp as [? _]; [done|done|].
      apply list_elem_of_lookup. eauto.
    + eapply Forall2_fmap_pointwise; [|exact H]. intros e p He Hp. by apply Hev in Hp as [_ ?].
  - intros (Hok & Hc & ->).
    rewrite (proj2 (add_members_ok _ _) (conj (choices_batch _ _ Hok) eq_refl)), Ok_bind.
    rewrite (proj2 (add_removeds_ok _ _) (conj (choices_removed _ _ Hok) eq_refl)), Ok_bind.
    rewrite guard_true by by apply bool_decide_eq_true_2, Hok.
    rewrite guard_true.
    2:{ apply forallb_forall. intros x (r & -> & Hr)%list_elem_of_In%list_elem_of_fmap.
        by apply bool_decide_eq_true_2, (choices_disjoint _ _ Hok). }
    destruct (proj2 (res_map_unit (check_removed ((λ e, (i_memory_id e, e)) <$> members batch))
      ((λ x, (rd_memory_id x, rd_reason x)) <$> ic_removed c))) as [us Hus].
    { intros x (r & -> & Hr)%list_elem_of_fmap. apply check_removed_ok; [apply Hok|by apply Hok]. }
    rewrite Hus, Ok_bind.
    destruct (proj2 (res_map_unit (check_added_back ((λ e, (i_memory_id e, e)) <$> members batch))
      (ic_added_back c))) as [vs Hvs].
    { intros id Hin. apply check_added_back_ok; [apply Hok|by apply Hok]. }
    rewrite Hvs, Ok_bind. apply res_map_Forall2, Forall2_fmap_self.
    intros e He. apply Hev; auto.
Qed.

(** ** The event log *)

(** Rows are stored under their identifier. *)
Definition event_keys (d : db) : Prop := ∀ k e, events d !! k = Some e → i_id e = k.

Definition settles (c : CommitCommand) (e : InjectionEvent) : bool :=
  bool_decide (i_injection_id e = ic_injection_id c) && bool_decide (i_shown_as e ≠ shown_budget_cut)
  && bool_decide (i_outcome e = None) && bool_decide (wanted c e ≠ None).

Definition settled (c : CommitCommand) (e : InjectionEvent) : InjectionEvent :=
  if settles c e then with_outcome (wanted c e) e else e.

(** A change of outcome only. *)
Definition outcome_only (f : InjectionEvent → InjectionEvent) : Prop :=
  ∀ e, ∃ o, f e = with_outcome o e.

Lemma with_outcome_same e : with_outcome (i_outcome e) e = e.
Proof. by destruct e. Qed.

Lemma settled_outcome_only c : outcome_only (settled c).
Proof.
  intros e. unfold settled. destruct (settles c e); [by eexists|].
  exists (i_outcome e). by rewrite with_outcome_same.
Qed.

Lemma sort_by_fmap {A B} (leA : A → A → bool) (leB : B → B → bool) (f : A → B) l :
  (∀ x y, leB (f x) (f y) = leA x y) → sort_by leB (f <$> l) = f <$> sort_by leA l.
Proof.
  intros H. induction l as [|x l IH]; [done|]. unfold sort_by in *. cbn. rewrite IH.
  generalize (foldr (insert_sorted leA) [] l) as s. intros s. induction s as [|y s IHs]; [done|]. cbn.
  rewrite H. destruct (leA x y); [done|]. cbn. by rewrite <- IHs.
Qed.

Lemma filter_fmap {A B} (f : A → B) (P : B → Prop) (Q : A → Prop)
    `{∀ x, Decision (P x)} `{∀ x, Decision (Q x)} (l : list A) :
  (∀ x, P (f x) ↔ Q x) → filter P (f <$> l) = f <$> filter Q l.
Proof.
  intros HPQ. induction l as [|x l IH]; [done|]. rewrite fmap_cons, !filter_cons.
  destruct (decide (Q x)) as [HQ|HQ].
  - rewrite decide_True by by apply HPQ. by rewrite fmap_cons, IH.
  - rewrite decide_False by by rewrite HPQ. done.
Qed.

Lemma event_leb_total a b : event_leb a b = true ∨ event_leb b a = true.
Proof. unfold event_leb. lia. Qed.

Lemma event_leb_trans a b c : event_leb a b = true → event_leb b c = true → event_leb a c = true.
Proof. unfold event_leb. lia. Qed.

Lemma load_batch_elem d inj e :
  e ∈ load_batch d inj ↔ i_injection_id e = inj ∧ ∃ k, events d !! k = Some e.
Proof. unfold load_batch. by rewrite sort_by_perm, list_elem_of_filter, elem_rows. Qed.

(** The batch after a change of outcomes is the changed batch, in order. *)
Lemma load_batch_fmap d d' f inj :
  event_keys d → outcome_only f → events d' = f <$> events d →
  load_batch d' inj = f <$> load_batch d inj.
Proof.
  intros Hk Hf Hd'. unfold load_batch.
  assert (Hsame : ∀ x, i_injection_id (f x) = i_injection_id x) by (intros x; by destruct (Hf x) as [o ->]).
  rewrite <- (sort_by_fmap event_leb event_leb f).
  2:{ intros x y. by destruct (Hf x) as [o ->], (Hf y) as [o' ->]. }
  symmetry. apply (sort_by_perm_eq event_leb (λ _, True)).
  - intros. apply event_leb_total.
  - intros ? ? ? _ _ _. apply event_leb_trans.
  - by apply Forall_true.
  - assert (Hff : filter (λ e, i_injection_id e = inj) (f <$> rows (events d))
                  = f <$> filter (λ e, i_injection_id e = inj) (rows (events d))).
    { apply filter_fmap. intros x. by rewrite Hsame. }
    rewrite <- Hff.
    apply filter_Permutation. unfold rows. rewrite Hd', map_to_list_fmap.
    rewrite <- !list_fmap_compose. apply Permutation_refl'. apply list_fmap_ext. by intros ? [] ?.
  - intros x y Hx Hy H1 H2. apply list_elem_of_fmap in Hx as (x' & -> & Hx).
    apply list_elem_of_fmap in Hy as (y' & -> & Hy).
    apply list_elem_of_filter in Hx as [_ [kx Hx]%elem_rows].
    apply list_elem_of_filter in Hy as [_ [ky Hy]%elem_rows]. f_equal.
    pose proof (Hk _ _ Hx). pose proof (Hk _ _ Hy).
    destruct (Hf x') as [o1 E1], (Hf y') as [o2 E2]. rewrite E1, E2 in H1, H2.
    unfold event_leb, with_outcome in H1, H2. cbn in H1, H2. assert (kx = ky) by lia. congruence.
Qed.

Lemma wanted_settled c e : wanted c (settled c e) = wanted c e.
Proof. by destruct (settled_outcome_only c e) as [o ->]. Qed.

Lemma settled_idemp c e : settled c (settled c e) = settled c e.
Proof.
  unfold settled at 2. destruct (settles c e) eqn:E; [|done]. unfold settled at 1.
  destruct (settles c (with_outcome (wanted c e) e)) eqn:E2; [|unfold settled; by rewrite E].
  unfold settles in E, E2. breflect. cbn in *. congruence.
Qed.

Lemma members_settled c l : members (settled c <$> l) = settled c <$> members l.
Proof. apply filter_fmap. intros x. by destruct (settled_outcome_only c x) as [o ->]. Qed.

(** ** The writes of a commit *)

Lemma update_outcome_ok id ex o w a w' :
  update_outcome id ex o w = (Ok a, w') →
  ∃ e, events (w_db w) !! id = Some e ∧ i_outcome e = ex ∧
    w' = with_db (set_events (<[id := with_outcome (Some o) e]> (events (w_db w)))
                   (next_event_id (w_db w)) (w_db w)) w.
Proof.
  unfold update_outcome. intros H. apply bind_ok in H as (d & w1 & [<- <-]%ret_ok & H).
  destruct (events (w_db w) !! id) as [e|]; [|done].
  destruct (bool_decide _) eqn:E; [|done]. apply bool_decide_eq_true in E. injection H as _ <-. eauto.
Qed.

(** The outcome updates, one by one, as a map over the log. *)
Definition written (effects : list (InjectionEvent * Outcome)) (k : Z) : option Outcome :=
  snd <$> head (filter (λ x, i_id x.1 = k) effects).

Lemma update_outcomes_ok effects w a w' :
  NoDup (i_id ∘ fst <$> effects) →
  for_each effects (λ x, update_outcome (i_id x.1) None x.2) w = (Ok a, w') →
  w' = with_db (set_events (events (w_db w')) (next_event_id (w_db w)) (w_db w)) w ∧
  ∀ k, events (w_db w') !! k =
    match written effects k with
    | Some o => with_outcome (Some o) <$> events (w_db w) !! k
    | None => events (w_db w) !! k
    end.
Proof.
  revert w. induction effects as [|[e o] effects IH]; intros w Hnd H; cbn in H.
  { apply ret_ok in H as [_ <-]. split; [|done]. by destruct w as [[] ? ? ?]. }
  apply NoDup_cons in Hnd as [Hn Hnd]. apply bind_ok in H as (? & w1 & H1 & H2).
  apply update_outcome_ok in H1 as (e0 & He0 & Ho & ->). cbn in He0.
  apply IH in H2 as [Hw Hev]; [|done]. cbn in Hw, Hev. split; [exact Hw|]. intros k. rewrite Hev.
  unfold written. rewrite (filter_cons _ (e, o)). cbn [fst].
  destruct (decide (i_id e = k)) as [<-|Hne]; cbn.
  - destruct (head _) as [[e' o']|] eqn:E; cbn.
    + exfalso. apply Hn. apply head_Some_elem_of in E. apply list_elem_of_filter in E as [Hid Hin].
      apply list_elem_of_fmap. exists (e', o'). done.
    + by rewrite lookup_insert_eq, He0.
  - by rewrite lookup_insert_ne.
Qed.

Lemma elem_fmap_eq {A B} (f : A → B) (l : list A) x v : x ∈ l → f x = v → v ∈ f <$> l.
Proof. intros Hx <-. by apply list_elem_of_fmap_2. Qed.

Lemma elem_fmap_filter {A B} (f : A → B) (P : A → Prop) `{∀ x, Decision (P x)} (l : list A) x v :
  x ∈ l → P x → f x = v → v ∈ f <$> filter P l.
Proof. intros Hx Hp. apply elem_fmap_eq. by apply list_elem_of_filter. Qed.

(** Membership in a list written out. *)
Ltac member := repeat (rewrite elem_of_cons in * || rewrite elem_of_nil in *); intuition congruence.

Section commit.
Context {EN : Env} {PG : Postgres}.

(** The head a commit moves: the changes of [_commit_head_changes], applied once. *)
Definition head_moved (ts : Z) (rules : list (str * NeverRule)) (d d' : db)
    (x : InjectionEvent * Outcome) : Prop :=
  ∃ u ch t b, units d !! i_memory_id x.1 = Some u ∧
    commit_head_changes u x.2 ts (aget (i_scorer_version x.1) rules) = Ok ch ∧
    match ch_bias ch with Some y => pg_real y = Ok b | None => b = m_bias u end ∧
    units d' !! i_memory_id x.1 = Some (updated_unit ch t b u).

(** The snapshots agree with the heads. *)
Definition agree (ids : list uuid) (snapshots : gmap uuid MemoryUnit) (d : db) : Prop :=
  ∀ id, id ∈ ids → snapshots !! id = units d !! id.

Lemma commit_step_ok ts rules ids snapshots x w snapshots' w' :
  wf (w_db w) → agree ids snapshots (w_db w) →
  (has_effect x.2 = true → i_memory_id x.1 ∈ ids) →
  commit_step ts rules snapshots x w = (Ok snapshots', w') →
  wf (w_db w') ∧ agree ids snapshots' (w_db w') ∧
  events (w_db w') = events (w_db w) ∧ next_event_id (w_db w') = next_event_id (w_db w) ∧
  (has_effect x.2 = true → head_moved ts rules (w_db w) (w_db w') x) ∧
  (has_effect x.2 = false → w_db w' = w_db w) ∧
  (∀ id, id ≠ i_memory_id x.1 → units (w_db w') !! id = units (w_db w) !! id).
Proof.
  intros Hwf Hag Hin H. destruct x as [e o]. cbn in *. destruct (has_effect o); cbn in H.
  1: specialize (Hin eq_refl).
  2:{ apply ret_ok in H as [<- <-]. by split_and!. }
  destruct (snapshots !! i_memory_id e) as [u|] eqn:Hs; [|done]. rewrite Hag in Hs by done.
  apply bind_ok in H as (ch & w1 & [Hch ->]%lift_ok & H).
  apply bind_ok in H as (uid & w2 & (Hdb & _)%mint_ok & H).
  apply bind_ok in H as (row & w3 & Hcas & H). apply ret_ok in H as [<- <-].
  rewrite <- Hdb in *.
  assert (Hwf' : wf (w_db w3)) by exact (keeps_ok_preserves wf _ (cas_preserves_wf _) _ _ _ Hwf Hcas).
  apply cas_db in Hcas as (u' & b & Hu & -> & Hb & Hid & Hunits & _ & Hev & Hnx & _); [|done].
  cbn [cu_memory_id cu_changes] in *. rewrite Hs in Hu. injection Hu as <-.
  split_and!; try done.
  - intros id Hid'. rewrite Hunits. destruct (decide (i_memory_id e = id)) as [->|].
    + by rewrite !lookup_insert_eq.
    + rewrite !lookup_insert_ne by done. by apply Hag.
  - intros _. exists u, ch, (w_tx_now w2), b. cbn. rewrite Hunits, lookup_insert_eq. by split_and!.
  - intros id Hne. by rewrite Hunits, lookup_insert_ne.
Qed.

Lemma commit_loop_ok ts rules ids snapshots xs w snapshots' w' :
  wf (w_db w) → agree ids snapshots (w_db w) → 
  (∀ x, x ∈ xs → has_effect x.2 = true → i_memory_id x.1 ∈ ids) →
  NoDup (i_memory_id ∘ fst <$> xs) →
  fold_m (commit_step ts rules) snapshots xs w = (Ok snapshots', w') →
  wf (w_db w') ∧ agree ids snapshots' (w_db w') ∧
  events (w_db w') = events (w_db w) ∧ next_event_id (w_db w') = next_event_id (w_db w) ∧
  (∀ x, x ∈ xs → has_effect x.2 = true → head_moved ts rules (w_db w) (w_db w') x) ∧
  (∀ id, (∀ x, x ∈ xs → has_effect x.2 = true → i_memory_id x.1 ≠ id) →
     units (w_db w') !! id = units (w_db w) !! id).
Proof.
  revert snapshots w. induction xs as [|x xs IH]; intros sn w Hwf Hag Hin Hnd H; cbn in H.
  { apply ret_ok in H as [<- <-]. split_and!; try done. by intros x ?%elem_of_nil. }
  apply NoDup_cons in Hnd as [Hn Hnd]. apply bind_ok in H as (sn1 & w1 & H1 & H2).
  apply (commit_step_ok ts rules ids) in H1 as (Hwf1 & Hag1 & Hev1 & Hnx1 & Hm & Hno & Hrest);
    [|done|done|apply Hin; left].
  apply IH in H2 as (Hwf2 & Hag2 & Hev2 & Hnx2 & Hmv & Hrest2);
    [|done|done|intros y Hy; apply Hin; by right|done].
  assert (Hx : units (w_db w') !! i_memory_id x.1 = units (w_db w1) !! i_memory_id x.1).
  { apply Hrest2. intros y Hy _ E. by apply Hn, (elem_fmap_eq _ _ y). }
  split_and!; [done|done|congruence|congruence|..].
  - intros y [->|Hy]%elem_of_cons Heff.
    + destruct (Hm Heff) as (u & ch & t & b & Hu & Hch & Hb & Hnew). exists u, ch, t, b. by rewrite Hx.
    + destruct (Hmv y Hy Heff) as (u & ch & t & b & Hu & Hrest'). exists u, ch, t, b.
      rewrite <- Hrest; [done|]. intros E. by apply Hn, (elem_fmap_eq _ _ y).
  - intros id Hid. rewrite Hrest2 by (intros y Hy; apply Hid; by right).
    destruct (has_effect x.2) eqn:E; [|by rewrite Hno].
    apply Hrest. intros ->. by apply (Hid x); [left|..].
Qed.

(** ** The new effects of a plan *)

Lemma new_effects_eq c l :
  new_effects (planned_outcome c <$> l) =
  (λ e, (e, default kept (wanted c e))) <$> filter (λ e, i_outcome e = None ∧ wanted c e ≠ None) l.
Proof.
  induction l as [|e l IH]; [done|]. rewrite fmap_cons. unfold new_effects in *.
  assert (∀ x xs, omap (λ p, if po_is_new p then (λ o, (po_event p, o)) <$> po_desired p else None) (x :: xs)
    = match (if po_is_new x then (λ o, (po_event x, o)) <$> po_desired x else None) with
      | Some y => y :: omap (λ p, if po_is_new p then (λ o, (po_event p, o)) <$> po_desired p else None) xs
      | None => omap (λ p, if po_is_new p then (λ o, (po_event p, o)) <$> po_desired p else None) xs
      end) as -> by done.
  rewrite IH. unfold planned_outcome at 1 2 3. cbn [po_is_new po_desired po_event].
  destruct (decide (i_outcome e = None ∧ wanted c e ≠ None)) as [[Ho Hw]|Hn].
  - rewrite filter_cons_True by done. rewrite !bool_decide_eq_true_2 by done.
    destruct (wanted c e) as [o|] eqn:Ew; [|done]. rewrite fmap_cons. cbv beta. by rewrite Ew.
  - rewrite filter_cons_False by done. destruct (bool_decide _ && bool_decide _) eqn:E; [|done].
    breflect. by destruct Hn.
Qed.

Lemma new_effects_elem c l x :
  x ∈ new_effects (planned_outcome c <$> l) ↔
  x.1 ∈ l ∧ i_outcome x.1 = None ∧ wanted c x.1 = Some x.2.
Proof.
  rewrite new_effects_eq, list_elem_of_fmap. split.
  - intros (e & -> & ((Ho & Hw) & He)%list_elem_of_filter). cbn. destruct (wanted c e); done.
  - destruct x as [e o]. intros (He & Ho & Hw). cbn in *. exists e. rewrite Hw. split; [done|].
    apply list_elem_of_filter. split; [|done]. split; [done|congruence].
Qed.

Lemma new_effects_NoDup {B} (f : InjectionEvent → B) c l :
  NoDup (f <$> l) → NoDup (f ∘ fst <$> new_effects (planned_outcome c <$> l)).
Proof.
  intros H. rewrite new_effects_eq, <- list_fmap_compose.
  change (NoDup (f <$> filter (λ e, i_outcome e = None ∧ wanted c e ≠ None) l)).
  eapply sublist_NoDup; [exact H|]. apply fmap_sublist, sublist_filter.
Qed.

Lemma new_effects_settled c l : (∀ e, e ∈ l → i_injection_id e = ic_injection_id c) →
  new_effects (planned_outcome c <$> (settled c <$> members l)) = [].
Proof.
  intros Hl. destruct (new_effects _) as [|x xs] eqn:E; [done|]. exfalso.
  assert (x ∈ new_effects (planned_outcome c <$> (settled c <$> members l))) as Hx by (rewrite E; left).
  apply new_effects_elem in Hx as ((e & He & Hin)%list_elem_of_fmap & Ho & Hw).
  rewrite He in Ho, Hw. rewrite wanted_settled in Hw. apply list_elem_of_filter in Hin as [Hcut Hin].
  unfold settled, settles in Ho. destruct (bool_decide (i_outcome e = None)) eqn:En; breflect.
  - rewrite !bool_decide_eq_true_2 in Ho by (congruence || by apply Hl). cbn in Ho. congruence.
  - rewrite andb_false_r in Ho. cbn in Ho. congruence.
Qed.

(** Effective events are the settled ones. *)
Lemma effective_settled c e :
  i_injection_id e = ic_injection_id c → i_shown_as e ≠ shown_budget_cut →
  effective_event (planned_outcome c e) = settled c e.
Proof.
  intros Hi Hs. unfold effective_event, settled, settles. cbn.
  rewrite (bool_decide_eq_true_2 _ Hi), (bool_decide_eq_true_2 _ Hs). cbn. done.
Qed.

(** The rows written are those of the settled log. *)
Lemma written_settled c d k e :
  event_keys d → NoDup (i_memory_id <$> members (load_batch d (ic_injection_id c))) →
  events d !! k = Some e →
  match written (new_effects (planned_outcome c <$> members (load_batch d (ic_injection_id c)))) k with
  | Some o => with_outcome (Some o) e
  | None => e
  end = settled c e.
Proof.
  intros Hk Hnd He. unfold written. destruct (head _) as [[e' o]|] eqn:E; cbn.
  - apply head_Some_elem_of, list_elem_of_filter in E as [Hid Hx].
    apply new_effects_elem in Hx as (Hin & Ho & Hw). cbn in *.
    apply list_elem_of_filter in Hin as [Hcut (Hinj & k' & Hk')%load_batch_elem].
    assert (e' = e) as -> by (pose proof (Hk _ _ Hk'); congruence).
    unfold settled, settles. rewrite !bool_decide_eq_true_2 by congruence. cbn. by rewrite Hw.
  - unfold settled. destruct (settles c e) eqn:Es; [|done]. exfalso. unfold settles in Es. breflect.
    apply head_None in E. destruct (wanted c e) as [o|] eqn:Ew; [|done].
    assert ((e, o) ∈ filter (λ x, i_id x.1 = k)
      (new_effects (planned_outcome c <$> members (load_batch d (ic_injection_id c))))) as Hin.
    { apply list_elem_of_filter. split; [by apply Hk|]. apply new_effects_elem. split; [|done].
      apply list_elem_of_filter. split; [done|]. apply load_batch_elem. eauto. }
    rewrite E in Hin. by apply elem_of_nil in Hin.
Qed.

(** ** A commit, run *)

Definition rank_leb (a b : InjectionEvent) : bool :=
  (i_rank a <? i_rank b) || ((i_rank a =? i_rank b) && (i_memory_id a <=? i_memory_id b)%N).

(** The members removed as wrong, in the order of the answer. *)
Definition wrong_members (c : CommitCommand) (l : list InjectionEvent) : list InjectionEvent :=
  sort_by rank_leb (filter (λ e, wanted c e = Some (removed wrong)) l).

Lemma wrong_planned c l :
  sort_by wrong_order (filter (λ p, po_desired p = Some (removed wrong)) (planned_outcome c <$> l))
  = planned_outcome c <$> wrong_members c l.
Proof.
  unfold wrong_members. rewrite <- (sort_by_fmap rank_leb wrong_order) by done. f_equal.
  by apply filter_fmap.
Qed.

Lemma wrong_members_settled c l : wrong_members c (settled c <$> l) = settled c <$> wrong_members c l.
Proof.
  unfold wrong_members. rewrite <- (sort_by_fmap rank_leb rank_leb (settled c)).
  - f_equal. apply filter_fmap. intros x. by rewrite wanted_settled.
  - intros x y. by destruct (settled_outcome_only c x) as [o ->], (settled_outcome_only c y) as [o' ->].
Qed.

(** The answer of a commit read off the database it leaves. *)
Definition answer (c : CommitCommand) (l : list InjectionEvent) (d : db) (r : CommitResponse) : Prop :=
  render_final_block (rendered <$> filter (λ e, positive_outcome (i_outcome e) = true) (settled c <$> l))
    = Ok (cr_final_block r) ∧
  Forall2 (λ e row, units d !! i_memory_id e = Some row) (wrong_members c l) (cr_wrong_removed r).

Lemma map_lookup_ok (snapshots : gmap uuid MemoryUnit) (f : PlannedOutcome → uuid) l w rows w' :
  map_m (λ p, match snapshots !! f p with
              | Some row => ret row
              | None => raise (DecisionStateError "memory does not exist") end) l w = (Ok rows, w') ↔
  Forall2 (λ p row, snapshots !! f p = Some row) l rows ∧ w' = w.
Proof.
  revert rows w'. induction l as [|p l IH]; intros rows w'; cbn.
  { rewrite ret_ok. split; [intros [<- <-]; by split; [constructor|]|intros [H ->]; by inv H]. }
  rewrite bind_ok. split.
  - intros (row & w1 & H1 & H2). destruct (snapshots !! f p) eqn:E; [|done].
    apply ret_ok in H1 as [-> <-]. apply bind_ok in H2 as (rs & w2 & [H2 ->]%IH & [<- <-]%ret_ok).
    split; [by constructor|done].
  - intros [H ->]. inv H. eexists _, w. rewrite H2. split; [done|]. apply bind_ok.
    eexists _, w. split; [by apply IH|done].
Qed.

Lemma effective_members c d :
  effective_event <$> (planned_outcome c <$> members (load_batch d (ic_injection_id c)))
  = settled c <$> members (load_batch d (ic_injection_id c)).
Proof.
  rewrite <- list_fmap_compose. apply list_fmap_ext. intros i e He.
  apply list_elem_of_lookup_2, list_elem_of_filter in He as [Hs [Hi _]%load_batch_elem].
  by apply effective_settled.
Qed.

Lemma wanted_removed c e r : wanted c e = Some (removed r) → removal c (i_memory_id e) = Some r.
Proof.
  unfold wanted. destruct (removal _ _); [by intros [= ->]|].
  destruct (i_shown_as e); try done. by destruct (bool_decide _).
Qed.

Lemma load_heads_agree d ids : agree ids (load_heads d ids) d.
Proof.
  intros id Hid. unfold load_heads. destruct (units d !! id) as [u|] eqn:E.
  - by apply map_lookup_filter_Some_2.
  - apply map_lookup_filter_None_2. by left.
Qed.

Lemma Forall2_impl_in {A B} (P Q : A → B → Prop) l k :
  Forall2 P l k → (∀ x y, x ∈ l → P x y → Q x y) → Forall2 Q l k.
Proof.
  induction 1 as [|x y l k Hxy _ IH]; intros HPQ; constructor; [apply HPQ; [left|done]|].
  apply IH. intros x' y' Hin. apply HPQ. by right.
Qed.

Lemma commit_planned_ok c w r w' :
  let batch := load_batch (w_db w) (ic_injection_id c) in
  wf (w_db w) → event_keys (w_db w) → choices_ok batch c →
  commit_planned c (planned_outcome c <$> members batch) w = (Ok r, w') →
  ∃ ts rules, wf (w_db w') ∧ events (w_db w') = settled c <$> events (w_db w) ∧
    next_event_id (w_db w') = next_event_id (w_db w) ∧
    (∀ x, x ∈ new_effects (planned_outcome c <$> members batch) → has_effect x.2 = true →
       head_moved ts rules (w_db w) (w_db w') x) ∧
    (∀ id, (∀ x, x ∈ new_effects (planned_outcome c <$> members batch) → has_effect x.2 = true →
              i_memory_id x.1 ≠ id) → units (w_db w') !! id = units (w_db w) !! id) ∧
    answer c (members batch) (w_db w') r.
Proof.
  intros batch Hwf Hkeys Hok H. unfold commit_planned in H. set (eff := new_effects _) in *.
  apply bind_ok in H as (d & w1 & [<- <-]%ret_ok & H).
  apply bind_ok in H as (rules & w1 & [_ ->]%lift_ok & H). cbn zeta in H.
  set (ids := _ ++ _) in H. apply bind_ok in H as (ts & w1 & Hts & H).
  assert (w_db w1 = w_db w) as E1 by (unfold clock_timestamp, bind, tick, ret in Hts; by injection Hts as _ <-).
  assert (Hnd : NoDup (i_memory_id ∘ fst <$> eff)) by apply new_effects_NoDup, Hok.
  apply bind_ok in H as (sn & w2 & Hloop & H).
  apply (commit_loop_ok ts rules ids) in Hloop as (Hwf2 & Hag & Hev2 & Hnx2 & Hmv & Hrest).
  - rewrite E1 in *. exists ts, rules. apply bind_ok in H as (? & w3 & Hup & H).
    apply update_outcomes_ok in Hup as [Hw3 Hev3].
    2:{ apply (new_effects_NoDup i_id). apply NoDup_fmap_2_strong.
        - intros y z Hy Hz E. apply list_elem_of_filter in Hy as [_ [_ [k Hy]]%load_batch_elem].
          apply list_elem_of_filter in Hz as [_ [_ [k' Hz]]%load_batch_elem].
          rewrite <- (Hkeys _ _ Hy) in Hy. rewrite <- (Hkeys _ _ Hz), <- E in Hz. congruence.
        - by eapply NoDup_fmap_1, Hok. }
    apply bind_ok in H as (rows & w4 & Hrows & H). rewrite wrong_planned in Hrows.
    apply map_lookup_ok in Hrows as [Hrows ->].
    apply bind_ok in H as (block & w5 & [Hblock ->]%lift_ok & [<- <-]%ret_ok).
    unfold batch in Hblock. rewrite effective_members in Hblock. fold batch in Hblock.
    assert (Hu : units (w_db w3) = units (w_db w2)) by (rewrite Hw3; done).
    split_and!.
    + apply (wf_tables (w_db w2)); [done|rewrite Hw3; done|done].
    + apply map_eq. intros k. rewrite Hev3, lookup_fmap, Hev2.
      destruct (events (w_db w) !! k) as [e|] eqn:Ek; cbn.
      * rewrite <- (written_settled c (w_db w) k e); [|done|apply Hok|done]. fold batch eff.
        by destruct (written eff k).
      * by destruct (written eff k).
    + rewrite Hw3. done.
    + intros y Hy Heff. destruct (Hmv y) as (u & ch & t & b & ? & ? & ? & ?); [by rewrite sort_by_perm|done|].
      exists u, ch, t, b. by rewrite Hu.
    + intros id Hid. rewrite Hu. apply Hrest. intros y Hy. apply Hid. by rewrite sort_by_perm in Hy.
    + split; [done|]. cbn. rewrite Hu. apply Forall2_fmap_l in Hrows. cbn in Hrows.
      eapply Forall2_impl_in; [exact Hrows|]. intros e row He HH. rewrite <- Hag; [done|].
      unfold wrong_members in He. rewrite sort_by_perm in He.
      apply list_elem_of_filter in He as [Hw%wanted_removed He]. apply removal_elem in Hw; [|apply Hok].
      unfold ids. apply elem_of_app. right. by eapply elem_fmap_filter; [exact Hw|..].
  - by rewrite E1.
  - rewrite E1. apply load_heads_agree.
  - intros y Hy. rewrite sort_by_perm in Hy. unfold ids.
    intros Heff. apply elem_of_app. left.
    by eapply (elem_fmap_filter (i_memory_id ∘ fst)); [exact Hy|..].
  - by rewrite sort_by_perm.
Qed.

(** What a successful commit of a batch did. *)
Definition committed (c : CommitCommand) (d d' : db) (r : CommitResponse) : Prop :=
  let batch := load_batch d (ic_injection_id c) in
  batch ≠ [] ∧ choices_ok batch c ∧ (∀ e, e ∈ members batch → compatible c e = true) ∧
  events d' = settled c <$> events d ∧ answer c (members batch) d' r ∧
  ∃ ts rules,
    (∀ e o, e ∈ members batch → i_outcome e = None → wanted c e = Some o → has_effect o = true →
       head_moved ts rules d d' (e, o)) ∧
    (∀ id, (∀ e o, e ∈ members batch → i_outcome e = None → wanted c e = Some o →
              has_effect o = true → i_memory_id e ≠ id) → units d' !! id = units d !! id).

Lemma commit_ok c w r w' :
  wf (w_db w) → event_keys (w_db w) → commit c w = (Ok r, w') →
  (load_batch (w_db w) (ic_injection_id c) = [] ∧ ic_removed c = [] ∧ ic_added_back c = [] ∧
   w_db w' = w_db w ∧ render_final_block [] = Ok (cr_final_block r) ∧ cr_wrong_removed r = []) ∨
  (wf (w_db w') ∧ committed c (w_db w) (w_db w') r).
Proof.
  intros Hwf Hkeys H. unfold commit in H. apply transaction_ok in H as (w1 & H & ->). cbn.
  apply bind_ok in H as (d & w2 & [<- <-]%ret_ok & H). cbn [w_db begin_tx] in H.
  destruct (load_batch (w_db w) (ic_injection_id c)) as [|e0 l] eqn:Eb.
  - left. apply bind_ok in H as ([] & w3 & [Hr <-]%require_ok & H). breflect.
    apply bind_ok in H as (block & w4 & [<- <-]%ret_ok & [<- <-]%ret_ok). cbn. by split_and!.
  - right. rewrite <- Eb in H. apply bind_ok in H as (planned & w3 & [Hplan ->]%lift_ok & H).
    apply plan_commit_iff in Hplan as (Hok & Hcomp & ->).
    change (w_db w) with (w_db (begin_tx w)) in Hok, Hcomp, Hwf, Hkeys, H |- *.
    destruct (commit_planned_ok c (begin_tx w) r w1 Hwf Hkeys Hok H) as
      (ts & rules & Hwf' & Hev & _ & Hmv & Hrest & Hans).
    split; [done|]. unfold committed. cbn zeta. split; [cbn; by rewrite Eb|]. split_and!; try done.
    exists ts, rules. split.
    + intros e o He Ho Hw Heff. apply (Hmv (e, o)); [|done]. by apply new_effects_elem.
    + intros id Hid. apply Hrest. intros [e o] (He & Ho & Hw)%new_effects_elem Heff. by eapply Hid.
Qed.

Lemma choices_settled batch c : choices_ok batch c → choices_ok (settled c <$> batch) c.
Proof.
  intros [H1 H2 H3 H4 H5 H6].
  assert (Hsame : ∀ e, i_memory_id (settled c e) = i_memory_id e ∧ i_shown_as (settled c e) = i_shown_as e)
    by (intros e; by destruct (settled_outcome_only c e) as [o ->]).
  split; try done; rewrite members_settled.
  - rewrite <- list_fmap_compose.
    rewrite (list_fmap_ext (i_memory_id ∘ settled c) i_memory_id); [done|]. intros _ x _. apply Hsame.
  - intros r Hr. destruct (H5 r Hr) as (e & He & Hid & Hn). exists (settled c e).
    destruct (Hsame e) as [-> ->]. split; [by apply list_elem_of_fmap_2|done].
  - intros id Hid. destruct (H6 id Hid) as (e & He & Hid' & Hs). exists (settled c e).
    destruct (Hsame e) as [-> ->]. split; [by apply list_elem_of_fmap_2|done].
Qed.

Lemma compatible_settled c e : compatible c e = true → compatible c (settled c e) = true.
Proof.
  unfold compatible. rewrite wanted_settled. unfold settled. destruct (settles c e); [|done].
  intros _. cbn. destruct (wanted c e) as [o|]; [|done]. by rewrite bool_decide_eq_true_2.
Qed.

Lemma filter_settled_idemp c (l : list InjectionEvent) :
  filter (λ e, positive_outcome (i_outcome e) = true) (settled c <$> (settled c <$> l))
  = filter (λ e, positive_outcome (i_outcome e) = true) (settled c <$> l).
Proof. f_equal. rewrite <- list_fmap_compose. apply list_fmap_ext. intros _ x _. apply settled_idemp. Qed.

Lemma commit_planned_replay c batch w r :
  (∀ e, e ∈ batch → i_injection_id e = ic_injection_id c) →
  answer c (members batch) (w_db w) r → choices_ok batch c →
  (effective_event <$> (planned_outcome c <$> (settled c <$> members batch))) = settled c <$> members batch →
  ∃ w2, commit_planned c (planned_outcome c <$> (settled c <$> members batch)) w = (Ok r, w2) ∧
        w_db w2 = w_db w.
Proof.
  intros Hinj [Hblock Hrows] Hok Heff. unfold commit_planned. rewrite new_effects_settled by done.
  set (w2 := {| w_db := w_db w; w_tick := S (w_tick w); w_tx_now := w_tx_now w; w_in_tx := w_in_tx w |}).
  exists w2. split; [|done]. apply bind_ok. exists (w_db w), w. split; [done|].
  apply bind_ok. exists [], w. split; [done|]. cbn zeta.
  apply bind_ok. exists (draw_now (w_tick w)), w2. split; [done|].
  apply bind_ok. eexists _, w2. split; [done|]. apply bind_ok. exists tt, w2. split; [done|].
  rewrite wrong_planned, wrong_members_settled.
  apply bind_ok. exists (cr_wrong_removed r), w2. split.
  - apply map_lookup_ok. split; [|done]. apply Forall2_fmap_l, Forall2_fmap_l.
    eapply Forall2_impl_in; [exact Hrows|]. intros e row He HH. cbn.
    destruct (settled_outcome_only c e) as [o ->]. cbn. rewrite <- HH.
    apply load_heads_agree. unfold wrong_members in He. rewrite sort_by_perm in He.
    apply list_elem_of_filter in He as [Hw%wanted_removed He]. apply removal_elem in Hw; [|apply Hok].
    by eapply elem_fmap_filter; [exact Hw|..].
  - rewrite Heff. apply bind_ok. exists (cr_final_block r), w2.
    split; [by apply lift_ok|by destruct r].
Qed.

(** *** Properties of commit *)

(** The plan of a commit, against its specification.  A plan stands exactly
    when the choices partition the batch (nothing repeated, nothing in both
    lists, removals only of members, near misses only for "never", additions
    only of near misses) and no outcome already written contradicts them; it
    then holds every member once, in order, with the outcome asked for, and
    marks as new the members that have none yet. *)
Theorem plan_commit_spec batch c planned :
  plan_commit batch c = Ok planned ↔
  choices_ok batch c ∧ (∀ e, e ∈ members batch → compatible c e = true) ∧
  planned = planned_outcome c <$> members batch.
Proof. apply plan_commit_iff. Qed.

(** C5: a commit is atomic and exact.  When it raises, the database is as it
    was.  When it returns, the choices formed a partition, exactly the members
    without an outcome received the one asked for and no other event changed,
    exactly the heads of removed and added-back members moved, each by the
    change prescribed for its outcome applied once, and the answer shows the
    members now kept, added back or cited. *)
Theorem commit_outcomes c w res w' :
  wf (w_db w) → event_keys (w_db w) → commit c w = (res, w') →
  match res with
  | Err _ => w_db w' = w_db w
  | Ok r =>
      (load_batch (w_db w) (ic_injection_id c) = [] ∧ w_db w' = w_db w ∧ cr_wrong_removed r = []) ∨
      (wf (w_db w') ∧ committed c (w_db w) (w_db w') r)
  end.
Proof.
  intros Hwf Hkeys H. destruct res as [r|e]; [|by eapply transaction_rollback].
  apply commit_ok in H as [(? & _ & _ & ? & _ & ?)|?]; [left; by split_and!|by right|done|done].
Qed.

(** A commit can be repeated.  The same command again returns the same
    answer and writes nothing. *)
Theorem commit_idempotent c w r w1 :
  wf (w_db w) → event_keys (w_db w) → commit c w = (Ok r, w1) →
  ∃ w2, commit c w1 = (Ok r, w2) ∧ w_db w2 = w_db w1.
Proof.
  intros Hwf Hkeys H.
  apply commit_ok in H as [(Hb & Hr & Ha & Hdb & Hblock & Hw)|(Hwf1 & Hne & Hok & Hcomp & Hev & Hans & _)];
    [..|done|done].
  - unfold commit, transaction, bind, get_db. cbn [w_db begin_tx]. rewrite Hdb, Hb, Hr, Ha. cbn.
    exists (leave_tx w1 (begin_tx w1)). split; [|done]. destruct r as [block wrong]. cbn in *.
    unfold render_final_block in Hblock. cbn in Hblock. congruence.
  - assert (Hb1 : load_batch (w_db w1) (ic_injection_id c) = settled c <$> load_batch (w_db w) (ic_injection_id c))
      by (apply load_batch_fmap; [done|apply settled_outcome_only|done]).
    set (batch := load_batch (w_db w) (ic_injection_id c)) in *.
    destruct (commit_planned_replay c batch (begin_tx w1) r) as (w2 & Hrun & Hdb); [|exact Hans|done|..].
    { intros e He. by apply load_batch_elem in He as [? _]. }
    { rewrite <- members_settled. rewrite <- Hb1. rewrite effective_members, Hb1, members_settled.
      rewrite <- list_fmap_compose. apply list_fmap_ext. intros _ x _. apply settled_idemp. }
    exists (leave_tx w1 w2). split; [|done]. unfold commit. apply transaction_ok. exists w2. split; [|done].
    apply bind_ok. exists (w_db w1), (begin_tx w1). split; [done|]. rewrite Hb1.
    destruct batch as [|e0 l] eqn:Eb; [done|]. rewrite fmap_cons, <- fmap_cons, <- Eb.
    apply bind_ok. exists (planned_outcome c <$> members (settled c <$> batch)), (begin_tx w1). split.
    + apply lift_ok. split; [|done]. apply plan_commit_iff. split; [rewrite Eb; by apply choices_settled|].
      split; [|done]. intros e He. rewrite members_settled in He.
      apply list_elem_of_fmap in He as (e1 & -> & He1). apply compatible_settled, Hcomp. by rewrite <- Eb.
    + rewrite members_settled. by rewrite Eb.
Qed.

(** ** Feedback *)

Lemma feedback_effect_ok c e w a w' :
  wf (w_db w) → feedback_effect c e w = (Ok a, w') →
  wf (w_db w') ∧ events (w_db w') = events (w_db w) ∧ next_event_id (w_db w') = next_event_id (w_db w) ∧
  match feedback_stat (fc_signal c) with
  | None => w_db w' = w_db w
  | Some stat => ∃ u stats t, units (w_db w) !! i_memory_id e = Some u ∧
      increment_stat (m_stats u) stat = Ok stats ∧
      units (w_db w') = <[i_memory_id e := updated_unit (stats_change stats None None) t (m_bias u) u]>
                          (units (w_db w))
  end.
Proof.
  intros Hwf H. unfold feedback_effect in H. destruct (feedback_stat _) as [stat|].
  2:{ by apply ret_ok in H as [_ <-]. }
  apply bind_ok in H as (d & w1 & [<- <-]%ret_ok & H).
  destruct (units (w_db w) !! i_memory_id e) as [u|] eqn:Hu; [|done].
  apply bind_ok in H as (stats & w1 & [Hst ->]%lift_ok & H).
  apply bind_ok in H as (uid & w2 & (Hdb & _)%mint_ok & H).
  apply bind_ok in H as (row & w3 & Hcas & [_ <-]%ret_ok). rewrite <- Hdb in *.
  assert (Hwf' : wf (w_db w3)) by exact (keeps_ok_preserves wf _ (cas_preserves_wf _) _ _ _ Hwf Hcas).
  apply cas_db in Hcas as (u' & b & Hu' & -> & Hb & _ & Hunits & _ & Hev & Hnx & _); [|done].
  cbn [cu_memory_id cu_changes ch_bias stats_change] in *. rewrite Hu in Hu'. injection Hu' as <-. subst b.
  split_and!; try done. exists u, stats, (w_tx_now w2). done.
Qed.

(** What an accepted signal does. *)
Definition signalled (c : FeedbackCommand) (e : InjectionEvent) (d d' : db) : Prop :=
  let o := signal_outcome (fc_signal c) in
  feedback_allowed (fc_signal c) (i_shown_as e) (i_outcome e) = true ∧
  events d' = <[i_id e := with_outcome (Some o) e]> (events d) ∧
  match feedback_stat (fc_signal c) with
  | None => units d' = units d
  | Some stat => ∃ u stats t, units d !! i_memory_id e = Some u ∧
      increment_stat (m_stats u) stat = Ok stats ∧
      units d' = <[i_memory_id e := updated_unit (stats_change stats None None) t (m_bias u) u]> (units d)
  end.

Lemma feedback_ok c w a w' :
  wf (w_db w) → event_keys (w_db w) → feedback c w = (Ok a, w') →
  ∃ e, feedback_rows (w_db w) c = [e] ∧
    ((i_outcome e = Some (signal_outcome (fc_signal c)) ∧ w_db w' = w_db w) ∨
     (wf (w_db w') ∧ signalled c e (w_db w) (w_db w'))).
Proof.
  intros Hwf Hkeys H. unfold feedback in H. apply transaction_ok in H as (w1 & H & ->). cbn.
  apply bind_ok in H as (e & w2 & He & H). unfold load_feedback_event in He.
  apply bind_ok in He as (d & w3 & [<- <-]%ret_ok & He). cbn [w_db begin_tx] in He.
  destruct (feedback_rows (w_db w) c) as [|e0 [|? ?]] eqn:Er; [done| |done].
  apply ret_ok in He as [<- <-]. exists e0. split; [done|].
  destruct (bool_decide _) eqn:Eb; [left|right].
  - apply ret_ok in H as [_ <-]. by apply bool_decide_eq_true in Eb.
  - apply bind_ok in H as ([] & w2 & [Hal <-]%require_ok & H).
    apply bind_ok in H as (? & w2 & (Hwf2 & Hev & Hnx & Heff)%feedback_effect_ok & H); [|done].
    apply update_outcome_ok in H as (e1 & He1 & Ho & ->). cbn in *.
    split; [by apply (wf_tables (w_db w2))|].
    assert (e0 ∈ feedback_rows (w_db w) c) as Hin by (rewrite Er; left).
    apply list_elem_of_filter in Hin as [_ [k Hk]%elem_rows].
    assert (e1 = e0) as -> by (rewrite Hev, (Hkeys _ _ Hk), Hk in He1; congruence).
    split; [done|]. split; [by rewrite Hev|]. destruct (feedback_stat _); [done|]. cbn. by rewrite Heff.
Qed.

(** Transitions of an outcome: what a commit writes and what feedback moves. *)
Inductive outcome_step (s : ShownAs) : option Outcome → option Outcome → Prop :=
  | step_kept : s = shown_injected ∨ s = shown_pinned → outcome_step s None (Some kept)
  | step_removed r : s = shown_injected ∨ s = shown_pinned → outcome_step s None (Some (removed r))
  | step_never : s = shown_near_miss → outcome_step s None (Some (removed never))
  | step_added_back : s = shown_near_miss → outcome_step s None (Some added_back)
  | step_feedback sig o : feedback_allowed sig s o = true → outcome_step s o (Some (signal_outcome sig)).

(** Every event of [d] is still there, its outcome moved by at most one step. *)
Definition moved_by_steps (d d' : db) : Prop :=
  ∀ k, match events d !! k, events d' !! k with
       | Some e, Some e' => (∃ o, e' = with_outcome o e) ∧
           (i_outcome e' = i_outcome e ∨ outcome_step (i_shown_as e) (i_outcome e) (i_outcome e'))
       | None, None => True
       | _, _ => False
       end.

Lemma moved_refl d : moved_by_steps d d.
Proof.
  intros k. destruct (events d !! k) as [e|]; [|done]. split; [|by left].
  exists (i_outcome e). by rewrite with_outcome_same.
Qed.

Lemma wanted_step c batch e o :
  choices_ok batch c → e ∈ members batch → wanted c e = Some o → outcome_step (i_shown_as e) None (Some o).
Proof.
  intros Hok He Hw. pose proof (member_not_cut _ _ He) as Hcut. unfold wanted in Hw.
  destruct (removal c (i_memory_id e)) as [r|] eqn:Hr.
  - injection Hw as <-. apply removal_elem in Hr; [|apply Hok].
    destruct (choices_removed_in _ _ Hok _ Hr) as (e' & He' & Hid & Hn). cbn in Hid, Hn.
    assert (e' = e) as -> by (by eapply NoDup_fmap_elem; [apply Hok|..]).
    destruct (i_shown_as e) eqn:Es; try done; [apply step_removed; by left| |apply step_removed; by right].
    rewrite Hn by done. by apply step_never.
  - destruct (i_shown_as e) eqn:Es; try done.
    + injection Hw as <-. apply step_kept. by left.
    + destruct (bool_decide _); [|done]. injection Hw as <-. by apply step_added_back.
    + injection Hw as <-. apply step_kept. by right.
Qed.

Lemma commit_moves c d d' r : event_keys d → committed c d d' r → moved_by_steps d d'.
Proof.
  intros Hkeys (_ & Hok & _ & Hev & _) k. rewrite Hev, lookup_fmap.
  destruct (events d !! k) as [e|] eqn:Ek; [|done]. cbn. split; [apply settled_outcome_only|].
  unfold settled. destruct (settles c e) eqn:Es; [|by left]. right. unfold settles in Es. breflect. cbn.
  destruct (wanted c e) as [o|] eqn:Ew; [|done].
  match goal with H : i_outcome e = None |- _ => rewrite H end.
  eapply wanted_step; [exact Hok| |exact Ew].
  apply list_elem_of_filter. split; [done|]. apply load_batch_elem. eauto.
Qed.

Lemma feedback_moves c e d d' : events d !! i_id e = Some e → signalled c e d d' → moved_by_steps d d'.
Proof.
  intros He (Hal & Hev & _) k. rewrite Hev. destruct (decide (i_id e = k)) as [<-|Hne].
  - rewrite lookup_insert_eq, He. split; [by eexists|]. right. by apply step_feedback.
  - rewrite lookup_insert_ne by done. apply (moved_refl d k).
Qed.

Lemma feedback_rows_after c e d d' :
  event_keys d → feedback_rows d c = [e] → signalled c e d d' →
  feedback_rows d' c = [with_outcome (Some (signal_outcome (fc_signal c))) e].
Proof.
  intros Hkeys Hr (_ & Hev & _).
  assert (e ∈ feedback_rows d c) as Hin by (rewrite Hr; left).
  apply list_elem_of_filter in Hin as [[Hi Hm] [k Hk]%elem_rows].
  unfold feedback_rows. rewrite Hev. apply (rows_unique _ _ (i_id e)); [apply lookup_insert_eq|done|].
  intros k' e' Hk' [Hi' Hm']. destruct (decide (i_id e = k')) as [|Hne]; [done|].
  rewrite lookup_insert_ne in Hk' by done.
  assert (e' ∈ feedback_rows d c) as Hin' by (apply list_elem_of_filter; split; [done|by apply elem_rows; eauto]).
  rewrite Hr in Hin'. apply list_elem_of_singleton in Hin' as ->. symmetry. by apply Hkeys.
Qed.

(** C15: feedback is exactly once.  A call that raises changes nothing; one that
    returns found exactly one event and either found the signal there already
    and wrote nothing, or was allowed to move the outcome, moved this event
    only, and moved exactly one counter of one head (none for an addition).
    The same signal again returns and writes nothing. *)
Theorem feedback_exactly_once c w res w' :
  wf (w_db w) → event_keys (w_db w) → feedback c w = (res, w') →
  match res with
  | Err _ => w_db w' = w_db w
  | Ok _ =>
      (∃ e, feedback_rows (w_db w) c = [e] ∧
        ((i_outcome e = Some (signal_outcome (fc_signal c)) ∧ w_db w' = w_db w) ∨
         signalled c e (w_db w) (w_db w'))) ∧
      ∃ w2, feedback c w' = (Ok tt, w2) ∧ w_db w2 = w_db w'
  end.
Proof.
  intros Hwf Hkeys H. destruct res as [a|x]; [|by eapply transaction_rollback].
  apply feedback_ok in H as (e & Hr & Hcase); [|done|done]. split.
  { exists e. split; [done|]. destruct Hcase as [?|[_ ?]]; [by left|by right]. }
  assert (∃ e', feedback_rows (w_db w') c = [e'] ∧ i_outcome e' = Some (signal_outcome (fc_signal c)))
    as (e' & Hr' & Ho').
  { destruct Hcase as [[Ho ->]|[_ Hs]]; [eauto|]. eexists. split; [by eapply feedback_rows_after|done]. }
  exists (leave_tx w' (begin_tx w')). split; [|done]. unfold feedback. apply transaction_ok.
  exists (begin_tx w'). split; [|done]. apply bind_ok. exists e', (begin_tx w'). split.
  - unfold load_feedback_event. apply bind_ok. exists (w_db w'), (begin_tx w'). split; [done|].
    by rewrite Hr'.
  - by rewrite bool_decide_eq_true_2.
Qed.

(** The outcomes a fresh row of a kind can come to. *)
Definition reachable (s : ShownAs) (o : option Outcome) : Prop :=
  match s with
  | shown_budget_cut => o = None
  | shown_near_miss =>
      o ∈ [None; Some added_back; Some (removed never); Some mid_thread_added;
           Some mid_thread_removed; Some cited]
  | _ => (∃ r, o = Some (removed r)) ∨
         o ∈ [None; Some kept; Some mid_thread_added; Some mid_thread_removed; Some cited]
  end.

Lemma reachable_step s o o' : reachable s o → outcome_step s o o' → reachable s o'.
Proof.
  intros H Hstep. destruct Hstep as [Hs|r Hs|Hs|Hs|sig cur Hal].
  - destruct Hs; subst; cbn; member.
  - destruct Hs; subst; cbn; eauto.
  - subst; cbn. member.
  - subst; cbn. member.
  - destruct s; cbn in *.
    + right. destruct sig; member.
    + destruct sig; member.
    + right. destruct sig; member.
    + subst cur. by destruct sig.
Qed.

Lemma outcome_reach s o : rtc (outcome_step s) None o → reachable s o.
Proof.
  intros H. refine (rtc_ind_r (λ o, reachable s o) None _ _ o H).
  - destruct s; cbn; member.
  - intros y z _ Hstep Hy. by eapply reachable_step.
Qed.

(** C35: the life of an outcome.  Commit and feedback move every event of the
    log by at most one transition, and change nothing else of it.  Along these
    transitions an outcome that says removed, cited, exited or cut is final;
    a budget-cut row never gets another outcome; from a fresh row the kept,
    removed and added-back outcomes are reached only for the kinds of row they
    are meant for. *)
Theorem outcome_lifecycle w :
  wf (w_db w) → event_keys (w_db w) →
  (∀ c, moved_by_steps (w_db w) (w_db (commit c w).2)) ∧
  (∀ c, moved_by_steps (w_db w) (w_db (feedback c w).2)) ∧
  (∀ s o o', outcome_step s (Some o) o' →
     o ∈ [kept; added_back; auto_entered; mid_thread_added; mid_thread_removed]) ∧
  (∀ s o, rtc (outcome_step s) None o →
     (s = shown_budget_cut → o = None) ∧ (s = shown_near_miss → o ≠ Some kept) ∧
     (∀ r, s = shown_near_miss → o = Some (removed r) → r = never) ∧
     (s ≠ shown_near_miss → o ≠ Some added_back)).
Proof.
  intros Hwf Hkeys. split_and!.
  - intros c. destruct (commit c w) as [[r|e] w'] eqn:E; cbn.
    + apply commit_ok in E as [(_ & _ & _ & -> & _)|[_ Hc]]; [apply moved_refl|by eapply commit_moves|done|done].
    + unfold commit in E. apply transaction_rollback in E as ->. apply moved_refl.
  - intros c. destruct (feedback c w) as [[r|e] w'] eqn:E; cbn.
    + apply feedback_ok in E as (e & Hr & [[_ ->]|[_ Hs]]); [apply moved_refl| |done|done].
      eapply feedback_moves; [|exact Hs]. assert (e ∈ feedback_rows (w_db w) c) as Hin by (rewrite Hr; left).
      apply list_elem_of_filter in Hin as [_ [k Hk]%elem_rows]. by rewrite (Hkeys _ _ Hk).
    + unfold feedback in E. apply transaction_rollback in E as ->. apply moved_refl.
  - intros s o o' H. inversion H as [| | | |sig cur Hal Hcur]; subst.
    destruct sig, s; cbn in Hal; breflect; destruct o; try done; member.
  - intros s o H%outcome_reach. split_and!.
    + by intros ->.
    + intros -> ->. cbn in H. member.
    + intros r -> ->. cbn in H. member.
    + intros Hs ->. destruct s; try done; destruct H as [[? ?]|?]; member.
Qed.

Lemma feedback_not_unique c w e1 e2 l :
  feedback_rows (w_db w) c = e1 :: e2 :: l →
  ∃ w', feedback c w = (Err (DecisionStateError "feedback membership is not unique"), w') ∧
    w_db w' = w_db w.
Proof.
  intros Hr. exists (leave_tx w (with_db (w_db w) (begin_tx w))). split; [|done].
  unfold feedback, transaction, load_feedback_event, bind, get_db. cbn [w_db begin_tx].
  by rewrite Hr.
Qed.
End commit.

(** ** Restore *)

(** The last event of a memory that decides about it. *)
Definition decisive (id : uuid) (events : list InjectionEvent) : option InjectionEvent :=
  last (filter (λ e, i_memory_id e = id ∧ excludes e || confirms e = true) events).

Definition last_of (id : uuid) (events : list InjectionEvent) : option InjectionEvent :=
  last (filter (λ e, i_memory_id e = id) events).

Lemma restore_state_snoc events e : restore_state (events ++ [e]) = restore_step (restore_state events) e.
Proof. unfold restore_state. by rewrite foldl_app. Qed.

Lemma last_filter_snoc {A} (P : A → Prop) `{∀ x, Decision (P x)} l x :
  last (filter P (l ++ [x])) = if decide (P x) then Some x else last (filter P l).
Proof.
  rewrite filter_app, filter_cons, filter_nil. case_decide; [apply last_snoc|by rewrite app_nil_r].
Qed.

Lemma restore_state_facts events :
  let st := restore_state events in
  (∀ id, id ∈ excluded st ↔ ∃ e, decisive id events = Some e ∧ excludes e = true) ∧
  (∀ id, id ∈ confirmed st ↔ ∃ e, decisive id events = Some e ∧ excludes e = false) ∧
  (∀ id, aget id (latest st) = last_of id events) ∧ NoDup (latest st).*1.
Proof.
  induction events as [|e events (IHe & IHc & IHl & IHn)] using rev_ind.
  { cbn. split_and!; [|intros id|done|constructor]; try intros id;
      (split; [by intros ?%elem_of_empty|by intros (? & ? & _)]). }
  cbn zeta in *. rewrite restore_state_snoc. set (st := restore_state events) in *.
  assert (Hl : latest (restore_step st e) = aset (i_memory_id e) e (latest st)).
  { unfold restore_step. destruct (excludes e); [done|]. by destruct (confirms e). }
  assert (Hdec : ∀ id, decisive id (events ++ [e]) =
    if bool_decide (i_memory_id e = id) && (excludes e || confirms e) then Some e else decisive id events).
  { intros id. unfold decisive. rewrite last_filter_snoc. case_decide as Hd.
    - destruct Hd as [-> Hd]. by rewrite bool_decide_eq_true_2, Hd.
    - destruct (bool_decide (i_memory_id e = id)) eqn:E; [|done]. breflect. cbn.
      destruct (excludes e || confirms e) eqn:E2; [|done]. by destruct Hd. }
  split_and!.
  - intros id. rewrite Hdec. unfold restore_step. destruct (excludes e) eqn:Ex; cbn.
    + rewrite elem_of_union, elem_of_singleton, IHe. case_bool_decide as E; cbn; [|split; [|by right]].
      * split; [by eauto|]. intros _. by left.
      * by intros [->|?].
    + destruct (confirms e) eqn:Ec; cbn; [|by rewrite andb_false_r].
      rewrite elem_of_difference, elem_of_singleton, IHe. case_bool_decide as E; cbn.
      * split; [by intros [_ []]|]. intros (x & [= <-] & ?). congruence.
      * split; [by intros [? _]|]. intros ?. split; [done|congruence].
  - intros id. rewrite Hdec. unfold restore_step. destruct (excludes e) eqn:Ex; cbn.
    + rewrite elem_of_difference, elem_of_singleton, IHc. case_bool_decide as E; cbn.
      * split; [by intros [_ []]|]. intros (x & [= <-] & ?). congruence.
      * split; [by intros [? _]|]. intros ?. split; [done|congruence].
    + destruct (confirms e) eqn:Ec; cbn; [|by rewrite andb_false_r].
      rewrite elem_of_union, elem_of_singleton, IHc. case_bool_decide as E; cbn; [|split; [|by right]].
      * split; [by eauto|]. intros _. by left.
      * by intros [->|?].
  - intros id. rewrite Hl. unfold last_of. rewrite last_filter_snoc. case_decide as E.
    + subst. apply aget_aset_eq.
    + rewrite aget_aset_ne by done. apply IHl.
  - rewrite Hl. destruct (aget (i_memory_id e) (latest st)) eqn:E.
    + by rewrite aset_keys by (by eexists).
    + apply aget_None in E. rewrite aset_fresh by done. rewrite fmap_app. apply NoDup_app.
      split_and!; [done| |apply NoDup_singleton]. cbn. by intros k Hk ->%list_elem_of_singleton.
Qed.

Lemma latest_rows events e :
  e ∈ (latest (restore_state events)).*2 ↔ last_of (i_memory_id e) events = Some e.
Proof.
  destruct (restore_state_facts events) as (_ & _ & Hl & Hn). rewrite <- Hl, aget_elem by done.
  rewrite list_elem_of_fmap. split; [|intros H; by eexists (_, _)].
  intros ([k e'] & -> & Hin). cbn. apply aget_elem in Hin as Hk; [|done]. rewrite Hl in Hk.
  unfold last_of in Hk. apply last_Some_elem_of, list_elem_of_filter in Hk as [-> _]. done.
Qed.

Lemma latest_NoDup events : NoDup (i_memory_id <$> (latest (restore_state events)).*2).
Proof.
  destruct (restore_state_facts events) as (_ & _ & Hl & Hn). rewrite <- list_fmap_compose.
  erewrite (list_fmap_ext (i_memory_id ∘ snd) fst); [exact Hn|]. intros i [k e] Hi. cbn.
  apply list_elem_of_lookup_2, aget_elem in Hi; [|done]. rewrite Hl in Hi. unfold last_of in Hi.
  by apply last_Some_elem_of, list_elem_of_filter in Hi as [-> _].
Qed.

Lemma cards_ids l cards : res_map restored_card l = Ok cards → rc_memory_id <$> cards = i_memory_id <$> l.
Proof.
  intros H%res_map_Forall2. induction H as [|e card l cards Hc _ IH]; [done|]. cbn. f_equal; [|done].
  unfold restored_card in Hc. repeat (apply bind_Ok in Hc as (? & _ & Hc)). by injection Hc as <-.
Qed.

Lemma sorted_ids_elem s id : id ∈ sorted_ids s ↔ id ∈ s.
Proof. unfold sorted_ids. by rewrite sort_by_perm, elem_of_elements. Qed.

Lemma selected_not_near st e : e ∈ restore_selected st → e ∈ restore_near st → False.
Proof.
  intros [Hs _]%list_elem_of_filter [Hn _]%list_elem_of_filter. unfold undecided, shown_at_gate in Hs.
  breflect. match goal with H : _ || _ = true |- _ => apply orb_true_iff in H as [Hs|Hs] end; [congruence|].
  breflect. match goal with H : i_shown_as e = _ |- _ => rewrite H in * end. member.
Qed.

Lemma restore_ok tid p w r w' :
  restore tid p w = (Ok (Some r), w') →
  let st := restore_state (thread_events (w_db w) tid p) in
  w' = w ∧ res_map restored_card (restore_selected st) = Ok (ri_injected r) ∧
  res_map restored_card (restore_near st) = Ok (ri_near_misses r) ∧
  ri_confirmed r = sorted_ids (confirmed st) ∧ ri_excluded r = sorted_ids (excluded st) ∧
  ri_pending r = restore_pending st ∧ (ri_pending r = true ↔ ri_final_block r = None).
Proof.
  unfold restore. intros H. apply bind_ok in H as (d & w1 & [<- <-]%ret_ok & H).
  destruct (threads (w_db w) !! tid) as [th|]; [|done]. destruct (t_snapshot_ts th) as [ts|]; [|done].
  destruct (negb _); [done|]. cbn zeta in *. set (st := restore_state _) in *.
  apply bind_ok in H as (al & w1 & [_ ->]%lift_ok & H).
  apply bind_ok in H as (inj & w1 & [Hi ->]%lift_ok & H).
  apply bind_ok in H as (near & w1 & [Hn ->]%lift_ok & H).
  apply bind_ok in H as (block & w1 & Hblock & H).
  apply bind_ok in H as (stripped & w2 & [_ ->]%lift_ok & [[= <-] <-]%ret_ok). cbn.
  destruct (restore_pending st).
  - apply ret_ok in Hblock as [<- <-]. by split_and!.
  - apply bind_ok in Hblock as (b & w3 & [_ ->]%lift_ok & [<- <-]%ret_ok). by split_and!.
Qed.

(** What a restored thread shows.  Restoring reads only.  A memory is
    excluded exactly when the last event that decides about it removed it, and
    confirmed exactly when that event kept or added it; the two are disjoint.
    No memory is shown twice, none that is excluded is shown, and the thread is
    pending, with no final block, exactly when some memory's last event is a
    gate row without an outcome. *)
Theorem restore_spec tid p w r w' :
  restore tid p w = (Ok (Some r), w') →
  let evs := thread_events (w_db w) tid p in
  let shown := (rc_memory_id <$> ri_injected r) ++ (rc_memory_id <$> ri_near_misses r) in
  w' = w ∧
  (∀ id, id ∈ ri_excluded r ↔ ∃ e, decisive id evs = Some e ∧ excludes e = true) ∧
  (∀ id, id ∈ ri_confirmed r ↔ ∃ e, decisive id evs = Some e ∧ excludes e = false) ∧
  (∀ id, id ∈ ri_excluded r → id ∉ ri_confirmed r) ∧
  NoDup shown ∧ (∀ id, id ∈ shown → id ∉ ri_excluded r) ∧
  (ri_pending r = true ↔ ∃ id e, last_of id evs = Some e ∧ undecided e = true) ∧
  (ri_pending r = true ↔ ri_final_block r = None).
Proof.
  intros H evs shown. apply restore_ok in H as (-> & Hi & Hn & Hc & He & Hp & Hb). fold evs in Hi, Hn, Hc, He, Hp.
  destruct (restore_state_facts evs) as (Hx & Hcf & _ & _). set (st := restore_state evs) in *.
  assert (Hex : ∀ id, id ∈ ri_excluded r ↔ ∃ e, decisive id evs = Some e ∧ excludes e = true)
    by (intros id; by rewrite He, sorted_ids_elem).
  assert (Hco : ∀ id, id ∈ ri_confirmed r ↔ ∃ e, decisive id evs = Some e ∧ excludes e = false)
    by (intros id; by rewrite Hc, sorted_ids_elem).
  assert (Hshown : shown = i_memory_id <$> (restore_selected st ++ restore_near st))
    by (unfold shown; by rewrite (cards_ids _ _ Hi), (cards_ids _ _ Hn), fmap_app).
  split_and!; try done.
  - intros id (e & Hd & Ht)%Hex (e' & Hd' & Hf)%Hco. congruence.
  - rewrite Hshown. apply NoDup_fmap_2_strong.
    + intros x y Hx' Hy'. apply NoDup_fmap_elem with (l := (latest st).*2); [apply latest_NoDup|..].
      * by apply elem_of_app in Hx' as [[_ ?]%list_elem_of_filter|[_ ?]%list_elem_of_filter].
      * by apply elem_of_app in Hy' as [[_ ?]%list_elem_of_filter|[_ ?]%list_elem_of_filter].
    + pose proof (NoDup_fmap_1 _ _ (latest_NoDup evs)) as Hnd. apply NoDup_app. split_and!.
      * by apply NoDup_filter.
      * intros e Hs Hnr. by eapply selected_not_near.
      * by apply NoDup_filter.
  - intros id Hid. rewrite Hshown in Hid. apply list_elem_of_fmap in Hid as (e & -> & Hin).
    rewrite He, sorted_ids_elem.
    apply elem_of_app in Hin as [[Hs _]%list_elem_of_filter|[Hs _]%list_elem_of_filter]; by breflect.
  - rewrite Hp. unfold restore_pending. rewrite existsb_exists. split.
    + intros (e & Hin & Hu). apply list_elem_of_In, latest_rows in Hin. eauto.
    + intros (id & e & Hl & Hu). exists e. split; [|done]. apply list_elem_of_In, latest_rows.
      assert (i_memory_id e = id) as -> by (by apply last_Some_elem_of, list_elem_of_filter in Hl as [? _]).
      done.
Qed.

(** ** A concrete thread: one injected memory, shown and not yet decided *)
Definition sample_event (o : option Outcome) : InjectionEvent := {|
  i_id := 1; i_event_uid := sample_uid 9; i_injection_id := 5; i_thread_id := 3;
  i_agent_id := lit "a"; i_machine_id := lit "m"; i_principal_id := lit "p"; i_project_key := None;
  i_agent_kind := lit "k"; i_prompt_text := lit "tea?"; i_scorer_version := lit "v1";
  i_memory_id := 7; i_memory_kind := lit "fact";
  i_features := [(lit "_memory", JObj [(lit "label", JStr (lit "tea")); (lit "body", JStr (lit "green"));
                                       (lit "pin", JBool false); (lit "updated_at", JStr (lit "t"))]);
                 (lit "_prepare", JObj [(lit "share_tokens", JInt 0)])];
  i_score := f1; i_rank := 1; i_shown_as := shown_injected; i_actor_class := human;
  i_outcome := o; i_ts := 4 |}.

Definition sample_thread : Thread := {|
  t_id := 3; t_principal_id := lit "p"; t_agent_id := lit "a"; t_machine_id := lit "m";
  t_project_key := None; t_snapshot_ts := Some 4; t_created_at := 4 |}.

Definition gate_world (o : option Outcome) : world :=
  with_db (set_events {[1 := sample_event o]} 2 (set_threads {[3%N := sample_thread]} sample_db)) sample_world.

Lemma gate_wf o : wf (w_db (gate_world o)).
Proof. apply (wf_tables sample_db); [done..|exact sample_db_wf]. Qed.

Lemma gate_world_keys o : event_keys (w_db (gate_world o)).
Proof.
  intros k e. change (events _) with ({[1 := sample_event o]} : gmap Z InjectionEvent).
  by intros [<- <-]%lookup_singleton_Some.
Qed.

Definition sample_removal : CommitCommand := {|
  ic_injection_id := 5; ic_removed := [{| rd_memory_id := 7; rd_reason := wrong |}]; ic_added_back := [] |}.
Definition sample_commit := @commit sample_env sample_postgres sample_removal (gate_world None).
Definition sample_feedback :=
  @feedback sample_env sample_postgres
    {| fc_injection_id := 5; fc_memory_id := 7; fc_signal := sig_cited |} (gate_world (Some kept)).

Lemma commit_outcomes_witness :
  is_ok sample_commit.1 = true ∧
  ∃ r, sample_commit.1 = Ok r ∧ @committed sample_postgres sample_removal (w_db (gate_world None)) (w_db sample_commit.2) r.
Proof.
  assert (is_ok sample_commit.1 = true) as Hc by (vm_compute; reflexivity). split; [exact Hc|].
  pose proof (@commit_outcomes sample_env sample_postgres sample_removal (gate_world None) sample_commit.1
    sample_commit.2 (gate_wf _) (gate_world_keys _) (surjective_pairing _)) as H.
  assert (bool_decide (load_batch (w_db (gate_world None)) 5 = []) = false) as Hb by (vm_compute; reflexivity).
  apply bool_decide_eq_false_1 in Hb.
  destruct sample_commit.1 as [r|]; [|discriminate Hc]. exists r. split; [reflexivity|].
  destruct H as [(H & _)|[_ H]]; [destruct (Hb H)|exact H].
Defined.

Lemma commit_idempotent_witness :
  ∃ r w2, sample_commit.1 = Ok r ∧ @commit sample_env sample_postgres sample_removal sample_commit.2 = (Ok r, w2).
Proof.
  assert (is_ok sample_commit.1 = true) as Hc by (vm_compute; reflexivity).
  destruct sample_commit as [[r|?] w1] eqn:E; [|discriminate Hc].
  destruct (@commit_idempotent sample_env sample_postgres sample_removal (gate_world None) r w1
    (gate_wf _) (gate_world_keys _) E) as (w2 & H & _).
  exists r, w2. split; [reflexivity|exact H].
Defined.

Lemma feedback_exactly_once_witness :
  is_ok sample_feedback.1 = true ∧
  (omap i_outcome (rows (events (w_db sample_feedback.2)))) = [cited] ∧
  ∃ w2, @feedback sample_env sample_postgres
    {| fc_injection_id := 5; fc_memory_id := 7; fc_signal := sig_cited |} sample_feedback.2 = (Ok tt, w2).
Proof.
  assert (is_ok sample_feedback.1 = true) as Hc by (vm_compute; reflexivity).
  split; [exact Hc|]. split; [vm_compute; reflexivity|].
  pose proof (@feedback_exactly_once sample_env sample_postgres _ (gate_world (Some kept)) sample_feedback.1
    sample_feedback.2 (gate_wf _) (gate_world_keys _) (surjective_pairing _)) as H.
  destruct sample_feedback.1; [|discriminate Hc]. destruct H as [_ (w2 & H & _)]. exists w2. exact H.
Defined.

Lemma outcome_lifecycle_witness :
  moved_by_steps (w_db (gate_world None)) (w_db sample_commit.2) ∧
  moved_by_steps (w_db (gate_world (Some kept))) (w_db sample_feedback.2).
Proof.
  split.
  - exact (proj1 (@outcome_lifecycle sample_env sample_postgres (gate_world None) (gate_wf _) (gate_world_keys _))
             sample_removal).
  - exact (proj1 (proj2 (@outcome_lifecycle sample_env sample_postgres (gate_world (Some kept))
             (gate_wf _) (gate_world_keys _))) _).
Defined.

Definition sample_restore := restore 3 (lit "p") (gate_world (Some kept)).
Definition is_restored (r : res exn (option RestoredInjection)) : bool :=
  match r with Ok (Some _) => true | _ => false end.

Lemma restore_spec_witness :
  ∃ r, sample_restore.1 = Ok (Some r) ∧ ri_pending r = false ∧ 7%N ∈ ri_confirmed r.
Proof.
  assert (is_restored sample_restore.1 = true) as Hc by (vm_compute; reflexivity).
  destruct sample_restore as [[[r|]|?] w1] eqn:E; try discriminate Hc. exists r. split; [reflexivity|].
  destruct (restore_spec 3 (lit "p") (gate_world (Some kept)) r w1 E) as (_ & _ & Hco & _ & _ & _ & Hp & _).
  split.
  - destruct (ri_pending r) eqn:Er; [|reflexivity]. exfalso.
    assert (sample_restore.1 = Ok (Some r)) as Hr by (rewrite E; reflexivity).
    assert (match sample_restore.1 with Ok (Some x) => ri_pending x | _ => true end = false) as Hf
      by (vm_compute; reflexivity).
    rewrite Hr in Hf. congruence.
  - apply Hco. exists (sample_event (Some kept)). split; vm_compute; reflexivity.
Defined.
