(* ===== verification/Prepare.v ===== *)
(** * Prepare: [src/src/spine/inject/service.py]

    The one-shot injection of a thread: the thread is stamped with its
    snapshot, the candidates are loaded, scored and selected, the heads of the
    injected memories are counted, and every decision is logged, all in one
    REPEATABLE READ transaction that is retried when a concurrent commit gets
    in its way. *)
From S2P Require Import Prelude PyStr PyFloat PyJson PyTime Ids Axes Scorer Features Selection.
From S2P Require Import Renderer Embeddings Store MemoryDb Decisions.
Open Scope Z_scope.

Definition PREPARE_DIMENSIONS : Z := 1536.
Definition FTS_CANDIDATE_POOL : nat := 50.
Definition MAX_TRANSACTION_ATTEMPTS : nat := 3.

Inductive prepare_mode := gate | autonomous.
#[export] Instance prepare_mode_eq_dec : EqDecision prepare_mode.
Proof. solve_decision. Defined.

Record PrepareCommand := {
  p_thread_id : uuid;
  p_agent_id : str;
  p_machine_id : str;
  p_principal_id : str;
  p_project_key : option str;
  p_location_path : option str;
  p_current_location : option str;
  p_agent_kind : str;
  p_prompt : str;
  p_model_context_tokens : Z;
  p_mode : prepare_mode;
  p_current : list uuid;
  p_confirmed : list uuid;
  p_excluded : list uuid;
}.

(** [_validate_command]. *)
Definition validate_command (c : PrepareCommand) : M unit :=
  require (nodupb (p_current c)) (InvalidRescoreStateError "current_memory_ids contains duplicates") ;!
  require (nodupb (p_confirmed c)) (InvalidRescoreStateError "confirmed_memory_ids contains duplicates") ;!
  require (nodupb (p_excluded c)) (InvalidRescoreStateError "excluded_memory_ids contains duplicates") ;!
  match p_mode c with
  | gate =>
      require (bool_decide (p_current c = []) && bool_decide (p_confirmed c = [])
               && bool_decide (p_excluded c = []))
        (InvalidRescoreStateError "gate mode does not accept thread disposition sets")
  | autonomous =>
      require (forallb (λ id, bool_decide (id ∈ p_current c)) (p_confirmed c))
        (InvalidRescoreStateError "confirmed_memory_ids must be a subset of current_memory_ids") ;!
      require (forallb (λ id, bool_decide (id ∉ p_current c ++ p_confirmed c)) (p_excluded c))
        (InvalidRescoreStateError "excluded_memory_ids must be disjoint from current state")
  end.

(** PostgreSQL's full-text search: the rank of a row for a query, when it
    matches. *)
Class FullText := { fts_rank : str → MemoryUnit → option float }.

(** What other sessions do, by draw: the commits that land before an attempt
    takes its snapshot, a thread row that was committed after the snapshot, and
    an update that PostgreSQL refuses with SQLSTATE 40001. *)
Class Concurrency := {
  others_commit : nat → db → db;
  hidden_thread : nat → bool;
  serialization_failure : nat → bool;
}.

(** ** Loading the candidates *)
Definition id_order (a b : MemoryUnit) : bool := (m_id a <=? m_id b)%N.

Definition latest_of (l : list Z) : option Z :=
  foldr (λ t acc, Some (match acc with Some m => Z.max t m | None => t end)) None l.

(** The [human_edits] subquery. *)
Definition last_human_edit (d : db) (id : uuid) : option Z :=
  latest_of (r_ts <$> filter (λ r, r_memory_id r = id ∧ r_editor r = lit "user") (rows (revisions d))).

Definition never_in_thread (d : db) (c : PrepareCommand) : list uuid :=
  i_memory_id <$> filter (λ e, i_principal_id e = p_principal_id c ∧ i_thread_id e = p_thread_id c ∧
                               i_outcome e = Some (removed never)) (rows (events d)).

(** [base_filters]. *)
Definition eligible (d : db) (c : PrepareCommand) (u : MemoryUnit) : bool :=
  bool_decide (m_principal_id u = p_principal_id c) && bool_decide (m_status u = Sactive)
  && bool_decide (m_id u ∉ never_in_thread d c)
  && (bool_decide (m_project_key u = None) || bool_decide (m_project_key u = p_project_key c))
  && bool_decide (m_id u ∉ p_excluded c).

Definition eligible_units (d : db) (c : PrepareCommand) (pinned : bool) : list MemoryUnit :=
  filter (λ u, eligible d c u && Bool.eqb (m_pin u) pinned = true) (rows (units d)).

(** [_candidate_from_row]. *)
Definition candidate_from_row (d : db) (sources : list str) (u : MemoryUnit) : ScoringCandidate := {|
  memory_id := m_id u; label := m_label u; body := m_body u; kind := kind_str (m_kind u);
  keywords := m_keywords u; embedding := m_embedding u; project_key := m_project_key u;
  origin_thread_id := m_origin_thread_id u; origin_path := m_origin_path u;
  origin_location := m_origin_location u; pin := m_pin u; updated_at := m_updated_at u;
  last_human_edit_at := last_human_edit d (m_id u); stats := m_stats u; bias := m_bias u;
  revision := m_revision u; pool_sources := sources |}.

(** [merged[memory_id][1].append(source)], with the row at first sight. *)
Definition merge_row (source : str) (merged : list (uuid * (MemoryUnit * list str))) (u : MemoryUnit) :
    list (uuid * (MemoryUnit * list str)) :=
  match aget (m_id u) merged with
  | Some (row, sources) => aset (m_id u) (row, sources ++ [source]) merged
  | None => aset (m_id u) (u, [source]) merged
  end.

Definition merge_current (merged : list (uuid * (MemoryUnit * list str))) (u : MemoryUnit) :
    list (uuid * (MemoryUnit * list str)) :=
  match aget (m_id u) merged with
  | Some (_, sources) => if bool_decide (lit "current" ∈ sources) then merged
                         else merge_row (lit "current") merged u
  | None => merge_row (lit "current") merged u
  end.

Definition join_or (terms : list str) : str :=
  match terms with [] => [] | t :: ts => foldl (λ acc x, acc ++ lit " | " ++ x) t ts end.

Section prepare.
Context {EN : Env} {PG : Postgres} {EP : EmbeddingProvider} {TK : Tokenizer} {UC : Unicode} {LM : Libm}.
Context {AD : AxisDecoder} {FT : FullText} {CC : Concurrency}.

(** The exact cosine boundary: by distance, then id. *)
Definition distance_order (q : list float) (a b : MemoryUnit) : bool :=
  let da := pg_cosine_distance (m_embedding a) q in
  let db := pg_cosine_distance (m_embedding b) q in
  pg_ltb da db || (pg_leb da db && (m_id a <=? m_id b)%N).

Definition vector_rows (d : db) (c : PrepareCommand) (q : list float) (pool : Z) : list MemoryUnit :=
  take (Z.to_nat pool) (sort_by (distance_order q) (eligible_units d c false)).

Definition search_terms (c : PrepareCommand) : list str :=
  sort_by str_leb (elements (prompt_keywords (p_prompt c))).

(** The matching rows by rank, highest first, then id. *)
Definition rank_order (a b : float * MemoryUnit) : bool :=
  pg_ltb b.1 a.1 || (pg_leb b.1 a.1 && (m_id a.2 <=? m_id b.2)%N).

Definition fts_rows (d : db) (c : PrepareCommand) : list MemoryUnit :=
  match search_terms c with
  | [] => []
  | terms =>
      let query := join_or terms in
      take FTS_CANDIDATE_POOL (snd <$> sort_by rank_order
        (omap (λ u, (λ r, (r, u)) <$> fts_rank query u) (eligible_units d c false)))
  end.

Definition retrieved (d : db) (c : PrepareCommand) (q : list float) (pool : Z) :
    list (uuid * (MemoryUnit * list str)) :=
  foldl (merge_row (lit "fts")) (foldl (merge_row (lit "vector")) [] (vector_rows d c q pool))
    (fts_rows d c).

Definition explicit_rows (d : db) (c : PrepareCommand) : list MemoryUnit :=
  sort_by id_order (filter (λ u, m_id u ∈ p_current c) (eligible_units d c false)).

(** [_load_candidates]. *)
Definition load_candidates (c : PrepareCommand) (q : list float) (pool : Z) :
    M (list ScoringCandidate * list ScoringCandidate) :=
  d <-! get_db;
  let pinned_rows := sort_by id_order (eligible_units d c true) in
  let merged := retrieved d c q pool in
  merged <-! (if bool_decide (p_current c = []) then ret merged
              else
                let found := (m_id <$> pinned_rows) ++ (m_id <$> explicit_rows d c) in
                require (forallb (λ id, bool_decide (id ∈ found)) (p_current c))
                  (InvalidRescoreStateError "current memory is not active and eligible for this thread") ;!
                ret (foldl merge_current merged (explicit_rows d c)));
  ret (candidate_from_row d [lit "pinned"] <$> pinned_rows,
       (λ p : uuid * (MemoryUnit * list str), candidate_from_row d p.2.2 p.2.1) <$>
         sort_by (λ a b : uuid * (MemoryUnit * list str), (a.1 <=? b.1)%N) merged).

(** ** Statements under concurrency *)

(** A write that a concurrent commit may have made impossible. *)
Definition concurrent_write : M unit :=
  n <-! tick; require (negb (serialization_failure n)) SerializationFailure.

(** The commits of other sessions since the last attempt. *)
Definition others : M unit := n <-! tick; d <-! get_db; put_db (others_commit n d).

Definition new_thread (c : PrepareCommand) (snapshot_ts created_at : Z) : Thread := {|
  t_id := p_thread_id c; t_principal_id := p_principal_id c; t_agent_id := p_agent_id c;
  t_machine_id := p_machine_id c; t_project_key := p_project_key c;
  t_snapshot_ts := Some snapshot_ts; t_created_at := created_at |}.

Definition with_snapshot (snapshot_ts : Z) (t : Thread) : Thread := {|
  t_id := t_id t; t_principal_id := t_principal_id t; t_agent_id := t_agent_id t;
  t_machine_id := t_machine_id t; t_project_key := t_project_key t;
  t_snapshot_ts := Some snapshot_ts; t_created_at := t_created_at t |}.

Definition same_identity (c : PrepareCommand) (t : Thread) : bool :=
  bool_decide (t_principal_id t = p_principal_id c) && bool_decide (t_agent_id t = p_agent_id c)
  && bool_decide (t_machine_id t = p_machine_id c) && bool_decide (t_project_key t = p_project_key c).

Definition put_thread (id : uuid) (t : Thread) : M unit :=
  d <-! get_db; put_db (set_threads (<[id := t]> (threads d)) d).

(** [_stamp_thread]. *)
Definition stamp_thread (c : PrepareCommand) (snapshot_ts : Z) : M unit :=
  d <-! get_db;
  n <-! tick;
  match threads d !! p_thread_id c with
  | None =>
      require (negb (hidden_thread n)) RetryTransaction ;!
      created_at <-! now;
      put_thread (p_thread_id c) (new_thread c snapshot_ts created_at) ;!
      require (bool_decide (p_mode c = gate))
        (InvalidRescoreStateError "autonomous mode requires an already prepared thread")
  | Some existing =>
      concurrent_write ;!
      require (same_identity c existing) (ThreadIdentityConflictError (p_thread_id c)) ;!
      require (negb (bool_decide (p_mode c = gate) && some (t_snapshot_ts existing)))
        (ThreadAlreadyPreparedError (p_thread_id c)) ;!
      require (negb (bool_decide (p_mode c = autonomous) && negb (some (t_snapshot_ts existing))))
        (InvalidRescoreStateError "autonomous mode requires a completed gate prepare") ;!
      put_thread (p_thread_id c) (with_snapshot snapshot_ts existing)
  end.

(** [_active_scorer_config]: KeyError, TypeError and ValueError are wrapped. *)
Definition config_exn (e : pyexn) : exn :=
  match e with
  | ValueError _ | KeyError _ | TypeError _ => ScorerConfigurationError "active scorer_config is invalid"
  | _ => Builtin e
  end.

Definition config_of_row (r : ScorerConfigRow) : res pyexn ScorerConfig :=
  match sc_params r, sc_weights r with
  | JObj params, JObj weights => from_mappings (sc_version r) weights params
  | JObj _, _ => Err (TypeError "weights are not a mapping")
  | _, _ => Err (AttributeError "get")
  end.

Definition active_rows (d : db) : list ScorerConfigRow :=
  filter (λ r, sc_active r = true) (rows (scorer_configs d)).

Definition active_scorer_config : M ScorerConfig :=
  d <-! get_db;
  match active_rows d with
  | [row] => lift config_exn (config_of_row row)
  | _ => raise (ScorerConfigurationError "expected exactly one active scorer_config row")
  end.

(** ** Counting the injections *)
Definition injected_stats (snapshot_ts : Z) (stats : list (str * json)) : res exn (list (str * json)) :=
  match default (JInt 0) (aget (lit "injections") stats) with
  | JInt injections =>
      Ok (aset (lit "last_injected_at") (JStr (isoformat snapshot_ts))
            (aset (lit "injections") (JInt (injections + 1)) stats))
  | _ => Err (ScorerConfigurationError "memory stats.injections must be an integer")
  end.

Definition count_injection (c : PrepareCommand) (snapshot_ts : Z) (item : ScoredCandidate) : M unit :=
  let candidate := s_candidate item in
  stats <-! lift id (injected_stats snapshot_ts (stats candidate));
  rev_uid <-! mint;
  concurrent_write ;!
  cas_update_memory_unit {|
    cu_memory_id := memory_id candidate; cu_expected_revision := revision candidate;
    cu_rev_uid := rev_uid; cu_editor := lit "system:inject"; cu_origin_machine_id := p_machine_id c;
    cu_changes := MemoryDb.stats_change stats; cu_reason := lit "inject/prepare" |} ;!
  ret tt.

Definition candidate_order (a b : ScoredCandidate) : bool := (s_id a <=? s_id b)%N.

(** [_increment_injection_stats]. *)
Definition increment_injection_stats (c : PrepareCommand) (snapshot_ts : Z)
    (injected : list ScoredCandidate) : M unit :=
  for_each (sort_by candidate_order injected) (count_injection c snapshot_ts).

(** ** The event log *)
Record MemoryAllocation := {
  al_memory_context_share : float;
  al_share_tokens : Z;
  al_regular_tokens : Z;
  al_pinned_tokens : Z;
  al_total_tokens : Z;
  al_pinned_overflow_tokens : Z;
}.

Definition allocation_valid (a : MemoryAllocation) : bool :=
  fle (f_ratio 1 100) (al_memory_context_share a) && fle (al_memory_context_share a) (f_ratio 1 2)
  && (0 <=? al_share_tokens a) && (0 <=? al_regular_tokens a) && (0 <=? al_pinned_tokens a)
  && (0 <=? al_total_tokens a) && (0 <=? al_pinned_overflow_tokens a).

Definition allocation_of (config : ScorerConfig) (selection : ScoringSelection) : MemoryAllocation := {|
  al_memory_context_share := memory_context_share (params config);
  al_share_tokens := regular_budget selection; al_regular_tokens := regular_token_cost selection;
  al_pinned_tokens := pin_token_cost selection; al_total_tokens := total_token_cost selection;
  al_pinned_overflow_tokens := pinned_overflow_tokens selection |}.

Definition json_option {A} (f : A → json) (o : option A) : json :=
  match o with Some a => f a | None => JNull end.

(** [asdict(features)], the empty [axes] dropped. *)
Definition features_dict (f : ScoreFeatures) : list (str * json) :=
  [(lit "sem", JFloat (f_sem f)); (lit "kw", JFloat (f_kw f)); (lit "time", JFloat (f_time f));
   (lit "proj", JFloat (f_proj f)); (lit "freq", JFloat (f_freq f)); (lit "hist", JFloat (f_hist f));
   (lit "loc", json_option JFloat (f_loc f)); (lit "thread", json_option JFloat (f_thread f));
   (lit "where", json_option JFloat (f_where f))]
  ++ match f_axes f with
     | [] => []
     | axes => [(lit "axes", JObj ((λ p, (p.1, JFloat p.2)) <$> axes))]
     end.

Definition frozen_payload (s : ScoringCandidate) : list (str * json) :=
  [(lit "label", JStr (label s)); (lit "body", JStr (body s)); (lit "pin", JBool (pin s));
   (lit "updated_at", JStr (isoformat (updated_at s)))].

Definition prepare_payload (c : PrepareCommand) (a : MemoryAllocation) : list (str * json) :=
  [(lit "model_context_tokens", JInt (p_model_context_tokens c));
   (lit "memory_context_share", JFloat (al_memory_context_share a));
   (lit "share_tokens", JInt (al_share_tokens a)); (lit "regular_tokens", JInt (al_regular_tokens a));
   (lit "pinned_tokens", JInt (al_pinned_tokens a)); (lit "total_tokens", JInt (al_total_tokens a));
   (lit "pinned_overflow_tokens", JInt (al_pinned_overflow_tokens a))].

(** What one row says of one card. *)
Record entry := {
  en_item : ScoredCandidate;
  en_shown_as : ShownAs;
  en_outcome : option Outcome;
}.

Definition actor_of (c : PrepareCommand) : ActorClass :=
  match p_mode c with autonomous => passive | gate => human end.

(** [_event_values]; the row's own id is assigned when it is inserted. *)
Definition event_row (c : PrepareCommand) (snapshot_ts : Z) (injection_id : uuid) (version : str)
    (a : MemoryAllocation) (event_uid : str) (en : entry) : InjectionEvent :=
  let item := en_item en in
  let candidate := s_candidate item in {|
  i_id := 0; i_event_uid := event_uid; i_injection_id := injection_id; i_thread_id := p_thread_id c;
  i_agent_id := p_agent_id c; i_machine_id := p_machine_id c; i_principal_id := p_principal_id c;
  i_project_key := p_project_key c; i_agent_kind := p_agent_kind c; i_prompt_text := p_prompt c;
  i_scorer_version := version; i_memory_id := memory_id candidate; i_memory_kind := kind candidate;
  i_features := features_dict (s_features item)
    ++ [(lit "_memory", JObj (frozen_payload candidate)); (lit "_prepare", JObj (prepare_payload c a));
        (lit "_location", JObj [(lit "cwd", json_option JStr (p_location_path c));
                                (lit "where", json_option JStr (p_current_location c))]);
        (lit "_retrieval", JObj [(lit "sources", JList (JStr <$> pool_sources candidate))])];
  i_score := s_score item; i_rank := s_rank item; i_shown_as := en_shown_as en;
  i_actor_class := actor_of c; i_outcome := en_outcome en; i_ts := snapshot_ts |}.

(** The four loops of [_insert_events]. *)
Definition injected_entry (c : PrepareCommand) (item : ScoredCandidate) : entry := {|
  en_item := item;
  en_shown_as := if pin (s_candidate item) then shown_pinned else shown_injected;
  en_outcome := match p_mode c with
                | autonomous => Some (if bool_decide (s_id item ∈ p_current c) then kept else auto_entered)
                | gate => None
                end |}.

Definition near_entry (c : PrepareCommand) (item : ScoredCandidate) : entry := {|
  en_item := item; en_shown_as := shown_near_miss;
  en_outcome := if bool_decide (p_mode c = autonomous) && bool_decide (s_id item ∈ p_current c)
                then Some auto_exited else None |}.

Definition cut_entry (item : ScoredCandidate) : entry :=
  {| en_item := item; en_shown_as := shown_budget_cut; en_outcome := Some out_budget_cut |}.

Definition exit_step (c : PrepareCommand) (st : list uuid * list entry) (item : ScoredCandidate) :
    list uuid * list entry :=
  let '(recorded, entries) := st in
  if bool_decide (s_id item ∈ p_current c) && bool_decide (s_id item ∉ recorded)
  then (s_id item :: recorded,
        entries ++ [{| en_item := item; en_shown_as := shown_near_miss; en_outcome := Some auto_exited |}])
  else st.

Definition log_entries (c : PrepareCommand) (sel : ScoringSelection) : list entry :=
  let recorded := s_id <$> (injected sel ++ near_misses sel) in
  (injected_entry c <$> injected sel) ++ (near_entry c <$> near_misses sel)
  ++ (cut_entry <$> budget_cuts sel)
  ++ match p_mode c with
     | autonomous => (foldl (exit_step c) (recorded, []) (unselected sel)).2
     | gate => []
     end.

Definition with_row_id (id : Z) (score : float) (e : InjectionEvent) : InjectionEvent := {|
  i_id := id; i_event_uid := i_event_uid e; i_injection_id := i_injection_id e;
  i_thread_id := i_thread_id e; i_agent_id := i_agent_id e; i_machine_id := i_machine_id e;
  i_principal_id := i_principal_id e; i_project_key := i_project_key e;
  i_agent_kind := i_agent_kind e; i_prompt_text := i_prompt_text e;
  i_scorer_version := i_scorer_version e; i_memory_id := i_memory_id e;
  i_memory_kind := i_memory_kind e; i_features := i_features e; i_score := score;
  i_rank := i_rank e; i_shown_as := i_shown_as e; i_actor_class := i_actor_class e;
  i_outcome := i_outcome e; i_ts := i_ts e |}.

Definition insert_event (e : InjectionEvent) : M unit :=
  d <-! get_db;
  require (negb (existsb (λ x, bool_decide (i_event_uid x = i_event_uid e)) (rows (events d))))
    (IntegrityError "injection_event_event_uid_key") ;!
  score <-! lift DataError (pg_real (i_score e));
  let id := next_event_id d in
  put_db (set_events (<[id := with_row_id id score e]> (events d)) (id + 1) d).

(** [_insert_events]. *)
Definition insert_events (c : PrepareCommand) (snapshot_ts : Z) (injection_id : uuid) (version : str)
    (sel : ScoringSelection) (a : MemoryAllocation) : M (list InjectionEvent) :=
  values <-! map_m (λ en, uid <-! mint; ret (event_row c snapshot_ts injection_id version a uid en))
               (log_entries c sel);
  for_each values insert_event ;!
  ret values.

(** ** [PrepareService.prepare] *)
Record PrepareResponse := {
  pr_injection_id : uuid;
  pr_snapshot_ts : Z;
  pr_scorer_version : str;
  pr_injected : list ScoredCandidate;
  pr_near_misses : list ScoredCandidate;
  pr_final_block : option str;
  pr_memory_allocation : MemoryAllocation;
}.

Definition select_request (c : PrepareCommand) (q : list float) (snapshot_ts : Z) (locked : gset uuid)
    (pinned regular : list ScoringCandidate) : SelectRequest := {|
  prompt := p_prompt c; query_embedding := q; snapshot_ts := snapshot_ts;
  thread_project_key := p_project_key c; thread_id := Some (p_thread_id c);
  location_path := p_location_path c; current_location := p_current_location c;
  pinned_candidates := pinned; regular_candidates := regular; locked_memory_ids := locked;
  model_context_tokens := p_model_context_tokens c |}.

Definition prepare_body (c : PrepareCommand) (q : list float) : M PrepareResponse :=
  snapshot_ts <-! clock_timestamp;
  stamp_thread c snapshot_ts ;!
  config <-! active_scorer_config;
  '(pinned, regular) <-! load_candidates c q (candidate_pool (params config));
  sel <-! lift Builtin (score_and_select
            (select_request c q snapshot_ts (list_to_set (p_confirmed c)) pinned regular) config);
  let a := allocation_of config sel in
  require (allocation_valid a) (Builtin (ValueError "MemoryAllocation")) ;!
  injection_id <-! gen_random_uuid;
  increment_injection_stats c snapshot_ts (injected sel) ;!
  values <-! insert_events c snapshot_ts injection_id (version config) sel a;
  final_block <-! match p_mode c with
                  | autonomous =>
                      block <-! render (filter (λ e, i_outcome e = Some kept ∨ i_outcome e = Some auto_entered)
                                          values);
                      ret (Some block)
                  | gate => ret None
                  end;
  ret {| pr_injection_id := injection_id; pr_snapshot_ts := snapshot_ts;
         pr_scorer_version := version config; pr_injected := injected sel;
         pr_near_misses := near_misses sel; pr_final_block := final_block; pr_memory_allocation := a |}.

(** [_prepare_once]. *)
Definition prepare_once (c : PrepareCommand) (q : list float) : M PrepareResponse :=
  transaction (prepare_body c q).

(** What the loop catches. *)
Definition transient (e : exn) : bool :=
  match e with RetryTransaction | MemoryCasConflictError _ | SerializationFailure => true | _ => false end.

Fixpoint attempts (n : nat) {A} (once : M A) : M A :=
  match n with
  | O => raise PrepareConflictError
  | S n' => others ;! try_catch once (λ e, if transient e then attempts n' once else raise e)
  end.

(** [PrepareService.prepare]. *)
Definition prepare (c : PrepareCommand) : M PrepareResponse :=
  validate_command c ;!
  q <-! lift EmbeddingProviderError (embed_one (p_prompt c) (Some PREPARE_DIMENSIONS));
  attempts MAX_TRANSACTION_ATTEMPTS (prepare_once c q).

(** [PrepareService.preview_scores]. *)
Definition preview_scores (c : PrepareCommand) (memory_ids : list uuid) : M (list (str * float)) :=
  q <-! lift EmbeddingProviderError (embed_one (p_prompt c) (Some PREPARE_DIMENSIONS));
  now <-! clock_timestamp;
  config <-! active_scorer_config;
  d <-! get_db;
  let candidates := candidate_from_row d [lit "panel"] <$>
    filter (λ u, m_principal_id u = p_principal_id c ∧ m_id u ∈ memory_ids ∧ m_status u = Sactive)
      (rows (units d)) in
  sel <-! lift Builtin (score_and_select
            (select_request c q now ∅ (filter (λ s, pin s = true) candidates)
               (filter (λ s, pin s = false) candidates)) config);
  ret ((λ s, (uuid_str (s_id s), s_score s)) <$> (injected sel ++ unselected sel)).
End prepare.
