(* ===== verification/PrepareFacts.v ===== *)
(** * What preparing a thread guarantees

    The candidates that are loaded, the writes of one attempt, the retry loop
    against its atomic specification, and the log rows of a preparation. *)
From S2P Require Import Prelude PyStr PyFloat PyJson PyTime Ids Axes Scorer Features Selection.
From S2P Require Import Renderer Embeddings Store MemoryDb Decisions DecisionsFacts Prepare.
Open Scope Z_scope.

(** ** The order of PostgreSQL's floats *)
Lemma pg_leb_total x y : pg_leb x y = true ∨ pg_leb y x = true.
Proof.
  unfold pg_leb. destruct (is_nan x) eqn:Ex, (is_nan y) eqn:Ey; cbn; auto. by apply fle_total.
Qed.

Lemma pg_leb_trans x y z : pg_leb x y = true → pg_leb y z = true → pg_leb x z = true.
Proof.
  unfold pg_leb. destruct (is_nan z) eqn:Ez; [done|]. cbn. destruct (is_nan y) eqn:Ey.
  - cbn. intros _ H. by destruct y, z.
  - cbn. destruct (is_nan x) eqn:Ex; [by destruct x, y|]. by apply fle_trans.
Qed.

(** A sort by a key that PostgreSQL compares, ties by identifier. *)
Section keyed_order.
Context {A : Type} (key : A → float) (ident : A → uuid).
Definition keyed_leb (a b : A) : bool :=
  pg_ltb (key a) (key b) || (pg_leb (key a) (key b) && (ident a <=? ident b)%N).

Lemma keyed_leb_total a b : keyed_leb a b = true ∨ keyed_leb b a = true.
Proof.
  unfold keyed_leb, pg_ltb. destruct (pg_leb_total (key a) (key b)) as [H|H]; rewrite H; cbn;
    destruct (pg_leb (key b) (key a)), (pg_leb (key a) (key b)); cbn; lia.
Qed.

Lemma keyed_leb_trans a b c : keyed_leb a b = true → keyed_leb b c = true → keyed_leb a c = true.
Proof.
  unfold keyed_leb, pg_ltb.
  pose proof (pg_leb_trans (key a) (key b) (key c)). pose proof (pg_leb_trans (key c) (key b) (key a)).
  pose proof (pg_leb_trans (key b) (key a) (key c)). pose proof (pg_leb_trans (key c) (key a) (key b)).
  pose proof (pg_leb_trans (key b) (key c) (key a)). pose proof (pg_leb_trans (key a) (key c) (key b)).
  pose proof (pg_leb_total (key a) (key b)). pose proof (pg_leb_total (key b) (key c)).
  destruct (pg_leb (key a) (key b)), (pg_leb (key b) (key a)), (pg_leb (key b) (key c)),
    (pg_leb (key c) (key b)), (pg_leb (key a) (key c)), (pg_leb (key c) (key a)); cbn in *;
    intuition (try discriminate); lia.
Qed.
End keyed_order.

(** The head of a sorted list is below its tail. *)
Lemma sorted_take_drop {A} (R : A → A → Prop) (l : list A) n x y :
  StronglySorted R l → x ∈ take n l → y ∈ drop n l → R x y.
Proof.
  intros Hs. revert n. induction Hs as [|z l Hs IH Hz]; intros n Hx Hy.
  - rewrite take_nil in Hx. by apply elem_of_nil in Hx.
  - destruct n as [|n]; [by apply elem_of_nil in Hx|]. cbn in *.
    apply elem_of_cons in Hx as [->|Hx]; [|by eapply IH].
    rewrite Forall_forall in Hz. apply Hz. rewrite <- (take_drop n l). apply elem_of_app. by right.
Qed.

Lemma elem_take {A} n (l : list A) x : x ∈ take n l → x ∈ l.
Proof. intros Hx. rewrite <- (take_drop n l). apply elem_of_app. by left. Qed.

(** ** Merging the retrieved rows *)
Definition merged_rows := list (uuid * (MemoryUnit * list str)).

Definition sources_of (id : uuid) (m : merged_rows) : list str :=
  match aget id m with Some (_, s) => s | None => [] end.

(** Every entry is a row [P] under its identifier, once, found by something. *)
Definition merged_ok (P : MemoryUnit → Prop) (m : merged_rows) : Prop :=
  NoDup m.*1 ∧ ∀ id row s, aget id m = Some (row, s) → m_id row = id ∧ P row ∧ s ≠ [].

Lemma merge_row_ok P source m u :
  merged_ok P m → P u → merged_ok P (merge_row source m u).
Proof.
  intros [Hn Hr] Hu. unfold merge_row. destruct (aget (m_id u) m) as [[row s]|] eqn:E; split.
  - by rewrite aset_keys by (by eexists).
  - intros id row' s'. destruct (decide (m_id u = id)) as [<-|Hne].
    + rewrite aget_aset_eq. intros [= <- <-]. destruct (Hr _ _ _ E) as (? & ? & ?). split_and!; [done..|].
      by destruct s.
    + rewrite aget_aset_ne by done. apply Hr.
  - apply aget_None in E. rewrite aset_fresh by done. rewrite fmap_app. apply NoDup_app.
    split_and!; [done| |apply NoDup_singleton]. cbn. by intros k Hk ->%list_elem_of_singleton.
  - intros id row' s'. destruct (decide (m_id u = id)) as [<-|Hne].
    + rewrite aget_aset_eq. by intros [= <- <-].
    + rewrite aget_aset_ne by done. apply Hr.
Qed.

Lemma sources_merge_row source m u id :
  sources_of id (merge_row source m u) =
  if decide (m_id u = id) then sources_of id m ++ [source] else sources_of id m.
Proof.
  unfold sources_of, merge_row. case_decide as Hd.
  - subst. destruct (aget (m_id u) m) as [[row s]|]; by rewrite aget_aset_eq.
  - destruct (aget (m_id u) m) as [[row s]|]; by rewrite aget_aset_ne.
Qed.

Lemma merge_rows_ok P source us m :
  merged_ok P m → Forall P us →
  merged_ok P (foldl (merge_row source) m us) ∧
  ∀ id s, s ∈ sources_of id (foldl (merge_row source) m us) ↔
    s ∈ sources_of id m ∨ (s = source ∧ id ∈ m_id <$> us).
Proof.
  revert m. induction us as [|u us IH]; intros m Hm Hus; cbn [foldl].
  { split; [done|]. intros id s. cbn. rewrite elem_of_nil. tauto. }
  apply Forall_cons in Hus as [Hu Hus]. destruct (IH (merge_row source m u)) as [Hok Hs]; [|done|].
  { by apply merge_row_ok. }
  split; [done|]. intros id s. rewrite Hs, sources_merge_row, fmap_cons, elem_of_cons. case_decide.
  - rewrite elem_of_app, list_elem_of_singleton. intuition.
  - intuition congruence.
Qed.

Lemma merge_current_ok P us m :
  merged_ok P m → Forall P us →
  merged_ok P (foldl merge_current m us) ∧
  ∀ id s, s ∈ sources_of id (foldl merge_current m us) ↔
    s ∈ sources_of id m ∨ (s = lit "current" ∧ id ∈ m_id <$> us).
Proof.
  revert m. induction us as [|u us IH]; intros m Hm Hus; cbn [foldl].
  { split; [done|]. intros id s. cbn. rewrite elem_of_nil. tauto. }
  apply Forall_cons in Hus as [Hu Hus].
  assert (Hstep : merge_current m u = merge_row (lit "current") m u ∨
    merge_current m u = m ∧ lit "current" ∈ sources_of (m_id u) m).
  { unfold merge_current, sources_of. destruct (aget (m_id u) m) as [[row s]|]; [|by left].
    destruct (bool_decide _) eqn:E; [|by left]. breflect. by right. }
  assert (Hm' : merged_ok P (merge_current m u)).
  { destruct Hstep as [->|[-> _]]; [by apply merge_row_ok|done]. }
  destruct (IH _ Hm' Hus) as [Hok Hs]. split; [done|]. intros id s.
  rewrite Hs, fmap_cons, elem_of_cons. destruct Hstep as [->|[-> Hc]].
  - rewrite sources_merge_row. case_decide.
    + rewrite elem_of_app, list_elem_of_singleton. intuition.
    + intuition congruence.
  - split; [intuition|]. intros [?|(-> & [->|?])]; auto.
Qed.

Lemma merged_keys P m id : merged_ok P m → id ∈ m.*1 ↔ ∃ s, s ∈ sources_of id m.
Proof.
  intros [Hn Hr]. unfold sources_of. destruct (aget id m) as [[row s]|] eqn:E.
  - destruct (Hr _ _ _ E) as (_ & _ & Hs). split.
    + intros _. destruct s as [|x s]; [done|]. exists x. left.
    + intros _. apply aget_Some_elem in E. apply list_elem_of_fmap. by exists (id, (row, s)).
  - apply aget_None in E. split; [done|]. by intros [? ?%elem_of_nil].
Qed.

(** ** The pools *)
Section candidates.
Context {EN : Env} {PG : Postgres} {EP : EmbeddingProvider} {TK : Tokenizer} {UC : Unicode} {LM : Libm}.
Context {AD : AxisDecoder} {FT : FullText} {CC : Concurrency}.

Lemma eligible_elem d c b u :
  u ∈ eligible_units d c b ↔ eligible d c u = true ∧ m_pin u = b ∧ ∃ id, units d !! id = Some u.
Proof.
  unfold eligible_units. rewrite list_elem_of_filter, elem_rows, andb_true_iff, eqb_true_iff. tauto.
Qed.

Lemma explicit_elem d c u :
  u ∈ explicit_rows d c ↔ u ∈ eligible_units d c false ∧ m_id u ∈ p_current c.
Proof. unfold explicit_rows. rewrite sort_by_perm, list_elem_of_filter. tauto. Qed.

Definition merged (d : db) (c : PrepareCommand) (q : list float) (pool : Z) : merged_rows :=
  foldl merge_current (retrieved d c q pool) (explicit_rows d c).

Definition pinned_pool (d : db) (c : PrepareCommand) : list ScoringCandidate :=
  candidate_from_row d [lit "pinned"] <$> sort_by id_order (eligible_units d c true).

Definition regular_candidate (d : db) (p : uuid * (MemoryUnit * list str)) : ScoringCandidate :=
  candidate_from_row d p.2.2 p.2.1.

Definition regular_pool (d : db) (c : PrepareCommand) (q : list float) (pool : Z) : list ScoringCandidate :=
  regular_candidate d <$> sort_by (λ a b, (a.1 <=? b.1)%N) (merged d c q pool).

Lemma load_candidates_ok c q pool w pins regs w' :
  load_candidates c q pool w = (Ok (pins, regs), w') →
  w' = w ∧ pins = pinned_pool (w_db w) c ∧ regs = regular_pool (w_db w) c q pool ∧
  ∀ id, id ∈ p_current c → ∃ u, m_id u = id ∧
    (u ∈ eligible_units (w_db w) c true ∨ u ∈ eligible_units (w_db w) c false).
Proof.
  unfold load_candidates. intros H. apply bind_ok in H as (d & w1 & [<- <-]%ret_ok & H). cbn zeta in H.
  apply bind_ok in H as (m & w1 & Hm & H). apply ret_ok in H as [[= <- <-] <-].
  destruct (bool_decide (p_current c = [])) eqn:E; breflect.
  - apply ret_ok in Hm as [<- <-]. split_and!; [done|done| |].
    + unfold regular_pool, merged. destruct (explicit_rows (w_db w) c) as [|u l] eqn:Ex; [done|].
      assert (u ∈ explicit_rows (w_db w) c) as Hu by (rewrite Ex; left).
      apply explicit_elem in Hu as [_ Hu]. rewrite E in Hu. by apply elem_of_nil in Hu.
    + rewrite E. by intros id ?%elem_of_nil.
  - apply bind_ok in Hm as (? & w2 & [Hf <-]%require_ok & [<- <-]%ret_ok). split_and!; [done..|].
    intros id Hid%list_elem_of_In. rewrite forallb_forall in Hf. specialize (Hf id Hid). breflect.
    apply elem_of_app in Hf as [(u & -> & Hu)%list_elem_of_fmap|(u & -> & Hu)%list_elem_of_fmap]; exists u.
    + rewrite sort_by_perm in Hu. auto.
    + apply explicit_elem in Hu as [Hu _]. auto.
Qed.

Lemma vector_elem d c q pool u : u ∈ vector_rows d c q pool → u ∈ eligible_units d c false.
Proof. unfold vector_rows. intros H%elem_take. by rewrite sort_by_perm in H. Qed.

Lemma fts_elem d c u : u ∈ fts_rows d c → u ∈ eligible_units d c false.
Proof.
  unfold fts_rows. destruct (search_terms c); [by intros ?%elem_of_nil|].
  intros ([r v] & -> & H)%elem_take%list_elem_of_fmap. rewrite sort_by_perm in H.
  apply list_elem_of_omap in H as (v' & Hv & E). destruct (fts_rank _ v'); [|done]. by injection E as _ <-.
Qed.

Lemma merged_facts d c q pool :
  merged_ok (λ u, u ∈ eligible_units d c false) (merged d c q pool) ∧
  ∀ id s, s ∈ sources_of id (merged d c q pool) ↔
    (s = lit "vector" ∧ id ∈ m_id <$> vector_rows d c q pool) ∨
    (s = lit "fts" ∧ id ∈ m_id <$> fts_rows d c) ∨
    (s = lit "current" ∧ id ∈ m_id <$> explicit_rows d c).
Proof.
  set (P := λ u, u ∈ eligible_units d c false).
  destruct (merge_rows_ok P (lit "vector") (vector_rows d c q pool) []) as [H1 S1].
  { split; [constructor|done]. }
  { apply Forall_forall. intros u. apply vector_elem. }
  destruct (merge_rows_ok P (lit "fts") (fts_rows d c) _ H1) as [H2 S2].
  { apply Forall_forall. intros u. apply fts_elem. }
  destruct (merge_current_ok P (explicit_rows d c) _ H2) as [H3 S3].
  { apply Forall_forall. intros u [? _]%explicit_elem. done. }
  split; [exact H3|]. intros id s. unfold merged, retrieved. rewrite S3, S2, S1.
  unfold sources_of at 1. cbn. rewrite elem_of_nil. tauto.
Qed.

Lemma regular_pool_elem d c q pool s :
  s ∈ regular_pool d c q pool ↔
  ∃ u, u ∈ eligible_units d c false ∧ sources_of (m_id u) (merged d c q pool) = pool_sources s ∧
       pool_sources s ≠ [] ∧ (∃ srcs, aget (m_id u) (merged d c q pool) = Some (u, srcs)) ∧
       s = candidate_from_row d (pool_sources s) u.
Proof.
  destruct (merged_facts d c q pool) as [[Hn Hr] _]. unfold regular_pool. rewrite list_elem_of_fmap. split.
  - intros ([id [u srcs]] & -> & Hin). rewrite sort_by_perm in Hin. apply aget_elem in Hin; [|done].
    destruct (Hr _ _ _ Hin) as (<- & Hu & Hs). exists u. unfold sources_of. rewrite Hin. cbn. split_and!; eauto.
  - intros (u & Hu & Hs & Hne & [srcs Hin] & ->). unfold sources_of in Hs. rewrite Hin in Hs.
    exists (m_id u, (u, srcs)). cbn in Hs |- *. subst. split; [done|]. rewrite sort_by_perm.
    by apply aget_elem.
Qed.

Lemma regular_pool_ids d c q pool :
  memory_id <$> regular_pool d c q pool = (sort_by (λ a b, (a.1 <=? b.1)%N) (merged d c q pool)).*1.
Proof.
  unfold regular_pool. rewrite <- list_fmap_compose.
  apply list_fmap_ext. intros i [id [u s]] Hi%list_elem_of_lookup_2. rewrite sort_by_perm in Hi.
  destruct (merged_facts d c q pool) as [[Hn Hr] _]. apply aget_elem in Hi; [|done]. cbn.
  by apply Hr in Hi as [-> _].
Qed.

Lemma regular_pool_NoDup d c q pool : NoDup (memory_id <$> regular_pool d c q pool).
Proof.
  rewrite regular_pool_ids. destruct (merged_facts d c q pool) as [[Hn _] _].
  by rewrite sort_by_perm.
Qed.

(** A unit is a candidate exactly when one of the retrievals found it. *)
Lemma regular_pool_iff d c q pool u :
  wf d → u ∈ eligible_units d c false →
  (∃ s, s ∈ regular_pool d c q pool ∧ memory_id s = m_id u) ↔
  u ∈ vector_rows d c q pool ∨ u ∈ fts_rows d c ∨ m_id u ∈ p_current c.
Proof.
  intros Hwf Hu. destruct (merged_facts d c q pool) as [Hok Hs].
  assert (Hsame : ∀ l : list MemoryUnit, (∀ v, v ∈ l → v ∈ eligible_units d c false) → m_id u ∈ m_id <$> l → u ∈ l).
  { intros l Hl (v & Ev & Hv)%list_elem_of_fmap. apply eligible_elem in Hu as (_ & _ & i & Hi).
    pose proof (Hl _ Hv) as (_ & _ & j & Hj)%eligible_elem.
    assert (u = v) as ->; [|done]. pose proof (wf_key _ Hwf _ _ Hi). pose proof (wf_key _ Hwf _ _ Hj).
    congruence. }
  transitivity (m_id u ∈ (merged d c q pool).*1).
  - rewrite <- (sort_by_perm (λ a b, (a.1 <=? b.1)%N) (merged d c q pool)), <- regular_pool_ids.
    rewrite list_elem_of_fmap. split; intros (s & ? & ?); exists s; auto.
  - rewrite (merged_keys _ _ _ Hok). split.
    + intros [s Hin]. apply Hs in Hin as [[_ ?]|[[_ ?]|[_ Hc]]].
      * left. apply Hsame; [apply vector_elem|done].
      * right; left. apply Hsame; [apply fts_elem|done].
      * right; right. apply list_elem_of_fmap in Hc as (v & -> & [_ Hv]%explicit_elem). done.
    + intros [H|[H|H]]; [exists (lit "vector")|exists (lit "fts")|exists (lit "current")]; apply Hs.
      * left. split; [done|]. by apply list_elem_of_fmap_2.
      * right; left. split; [done|]. by apply list_elem_of_fmap_2.
      * right; right. split; [done|]. apply list_elem_of_fmap_2. by apply explicit_elem.
Qed.

(** The vector rows are the nearest ones. *)
Lemma vector_rows_nearest d c q pool u v :
  v ∈ eligible_units d c false → v ∉ vector_rows d c q pool →
  length (vector_rows d c q pool) = Z.to_nat pool ∧
  (u ∈ vector_rows d c q pool → distance_order q u v = true).
Proof.
  unfold vector_rows. set (l := sort_by (distance_order q) (eligible_units d c false)). intros Hv Hn.
  assert (v ∈ drop (Z.to_nat pool) l) as Hd.
  { rewrite <- (sort_by_perm (distance_order q)) in Hv. fold l in Hv.
    rewrite <- (take_drop (Z.to_nat pool) l) in Hv. by apply elem_of_app in Hv as [?|?]. }
  split.
  - rewrite length_take. assert (Z.to_nat pool ≤ length l)%nat; [|lia].
    destruct (decide (length l ≤ Z.to_nat pool)%nat); [|lia].
    rewrite drop_ge in Hd by done. by apply elem_of_nil in Hd.
  - intros Hu. apply (sorted_take_drop (λ a b, distance_order q a b = true) l (Z.to_nat pool)); [|done|done].
    apply (sort_by_sorted (distance_order q) (λ _, True)).
    + intros x y _ _. exact (keyed_leb_total (λ u, pg_cosine_distance (m_embedding u) q) m_id x y).
    + intros x y z _ _ _. exact (keyed_leb_trans (λ u, pg_cosine_distance (m_embedding u) q) m_id x y z).
    + by apply Forall_true.
Qed.
End candidates.

(** ** The writes of one attempt *)

(** Only heads and revisions differ. *)
Definition heads_only (d d' : db) : Prop := d' = set_units (units d') (set_revisions (revisions d') d).

Lemma heads_only_refl d : heads_only d d.
Proof. by destruct d. Qed.

Lemma heads_only_trans d1 d2 d3 : heads_only d1 d2 → heads_only d2 d3 → heads_only d1 d3.
Proof. unfold heads_only. intros -> ->. done. Qed.

(** How a successful attempt leaves the row of its thread. *)
Inductive stamped (c : PrepareCommand) (ts now : Z) : option Thread → Thread → Prop :=
  | stamped_new : p_mode c = gate → stamped c ts now None (new_thread c ts now)
  | stamped_gate t : same_identity c t = true → p_mode c = gate → t_snapshot_ts t = None →
      stamped c ts now (Some t) (with_snapshot ts t)
  | stamped_again t : same_identity c t = true → p_mode c = autonomous → t_snapshot_ts t ≠ None →
      stamped c ts now (Some t) (with_snapshot ts t).

(** The heads of the injected memories, each counted once. *)
Definition counted `{Postgres} (ts now : Z) (shown : list ScoredCandidate) (d d' : db) : Prop :=
  (∀ s, s ∈ shown → ∃ u st,
     units d !! s_id s = Some u ∧ m_revision u = revision (s_candidate s) ∧
     injected_stats ts (stats (s_candidate s)) = Ok st ∧
     units d' !! s_id s = Some (updated_unit (MemoryDb.stats_change st) now (m_bias u) u)) ∧
  (∀ id, id ∉ s_id <$> shown → units d' !! id = units d !! id).

Definition log_row `{Postgres} (c : PrepareCommand) (ts : Z) (inj : uuid) (ver : str) (a : MemoryAllocation)
    (en : entry) (e : InjectionEvent) : Prop :=
  ∃ uid score, pg_real (s_score (en_item en)) = Ok score ∧
    e = with_row_id (i_id e) score (event_row c ts inj ver a uid en).

(** The log grows by one row per entry, in order. *)
Definition logged `{Postgres} (c : PrepareCommand) (ts : Z) (inj : uuid) (ver : str) (a : MemoryAllocation)
    (entries : list entry) (d d' : db) (new : list InjectionEvent) : Prop :=
  Forall2 (log_row c ts inj ver a) entries new ∧
  i_id <$> new = seqZ (next_event_id d) (zlen new) ∧
  next_event_id d' = next_event_id d + zlen new ∧
  events d' = list_to_map ((λ e, (i_id e, e)) <$> new) ∪ events d.

(** Identifiers are drawn from a sequence. *)
Definition log_wf (d : db) : Prop := event_keys d ∧ ∀ k, is_Some (events d !! k) → k < next_event_id d.

Section writes.
Context {EN : Env} {PG : Postgres} {EP : EmbeddingProvider} {TK : Tokenizer} {UC : Unicode} {LM : Libm}.
Context {AD : AxisDecoder} {FT : FullText} {CC : Concurrency}.

Definition same_session (w w' : world) : Prop :=
  w_db w' = w_db w ∧ w_tx_now w' = w_tx_now w ∧ w_in_tx w' = w_in_tx w.

Lemma tick_ok w n w' : tick w = (Ok n, w') → same_session w w'.
Proof. by intros [= _ <-]. Qed.

Lemma concurrent_write_ok w a w' : concurrent_write w = (Ok a, w') → same_session w w'.
Proof.
  unfold concurrent_write. intros H. apply bind_ok in H as (n & w1 & H1%tick_ok & H).
  by apply require_ok in H as [_ <-].
Qed.

Lemma stamp_thread_ok c ts w a w' :
  stamp_thread c ts w = (Ok a, w') →
  ∃ t, stamped c ts (w_tx_now w) (threads (w_db w) !! p_thread_id c) t ∧
    w_db w' = set_threads (<[p_thread_id c := t]> (threads (w_db w))) (w_db w) ∧
    w_tx_now w' = w_tx_now w ∧ w_in_tx w' = w_in_tx w.
Proof.
  unfold stamp_thread. intros H. apply bind_ok in H as (d & w1 & [<- <-]%ret_ok & H).
  apply bind_ok in H as (n & w1 & (Hdb & Hnow & Hin)%tick_ok & H).
  destruct (threads (w_db w) !! p_thread_id c) as [t|] eqn:E.
  - apply bind_ok in H as (? & w2 & (Hdb2 & Hnow2 & Hin2)%concurrent_write_ok & H).
    apply bind_ok in H as (? & w3 & [Hid <-]%require_ok & H).
    apply bind_ok in H as (? & w3 & [Hg <-]%require_ok & H).
    apply bind_ok in H as (? & w3 & [Ha <-]%require_ok & H).
    apply bind_ok in H as (d & w3 & [<- <-]%ret_ok & H). injection H as _ <-. cbn.
    exists (with_snapshot ts t). rewrite Hdb2, Hdb. split_and!; [|done|congruence..].
    destruct (p_mode c) eqn:Em, (t_snapshot_ts t) eqn:Et; try done.
    + by apply stamped_gate.
    + apply stamped_again; [done..|]. by rewrite Et.
  - apply bind_ok in H as (? & w2 & [_ <-]%require_ok & H).
    apply bind_ok in H as (now & w2 & [<- <-]%ret_ok & H).
    apply bind_ok in H as (? & w2 & Hput & H). apply require_ok in H as [Hg <-].
    apply bind_ok in Hput as (d & w3 & [<- <-]%ret_ok & Hput). injection Hput as _ <-. cbn.
    breflect. exists (new_thread c ts (w_tx_now w1)). rewrite Hdb, Hnow.
    split_and!; [by constructor|done..].
Qed.

Lemma count_injection_ok c ts s w a w' :
  wf (w_db w) → count_injection c ts s w = (Ok a, w') →
  wf (w_db w') ∧ heads_only (w_db w) (w_db w') ∧ w_tx_now w' = w_tx_now w ∧
  ∃ u st, units (w_db w) !! s_id s = Some u ∧ m_revision u = revision (s_candidate s) ∧
    injected_stats ts (stats (s_candidate s)) = Ok st ∧
    units (w_db w') = <[s_id s := updated_unit (MemoryDb.stats_change st) (w_tx_now w) (m_bias u) u]>
                        (units (w_db w)).
Proof.
  intros Hwf H. unfold count_injection in H. apply bind_ok in H as (st & w1 & [Hst ->]%lift_ok & H).
  apply bind_ok in H as (uid & w1 & (D1 & N1 & _)%mint_ok & H).
  apply bind_ok in H as (? & w2 & (D2 & N2 & _)%concurrent_write_ok & H).
  apply bind_ok in H as (row & w3 & Hcas & H). apply ret_ok in H as [_ <-].
  rewrite <- D1, <- D2 in *. rewrite <- N1, <- N2.
  assert (Hwf' : wf (w_db w3)) by exact (keeps_ok_preserves wf _ (cas_preserves_wf _) _ _ _ Hwf Hcas).
  split; [done|].
  apply cas_ok in Hcas as (u & b & p & Hu & Hr & -> & -> & _ & _ & _ & _ & _ & ->).
  cbn in *. split_and!; [done|done|]. exists u, st. rewrite (wf_key _ Hwf _ _ Hu). done.
Qed.

Lemma increment_stats_ok c ts shown w a w' :
  wf (w_db w) → NoDup (s_id <$> shown) → increment_injection_stats c ts shown w = (Ok a, w') →
  wf (w_db w') ∧ heads_only (w_db w) (w_db w') ∧ w_tx_now w' = w_tx_now w ∧
  counted ts (w_tx_now w) shown (w_db w) (w_db w').
Proof.
  unfold increment_injection_stats. intros Hwf Hnd H.
  assert (Hp : Permutation (sort_by candidate_order shown) shown) by apply sort_by_perm.
  assert (Hc : wf (w_db w') ∧ heads_only (w_db w) (w_db w') ∧ w_tx_now w' = w_tx_now w ∧
    counted ts (w_tx_now w) (sort_by candidate_order shown) (w_db w) (w_db w')).
  2:{ destruct Hc as (? & ? & ? & Hc1 & Hc2). split_and!; try done. split.
      - intros s Hs. apply Hc1. by rewrite Hp.
      - intros id Hid. apply Hc2. by rewrite Hp. }
  rewrite <- Hp in Hnd. clear Hp. revert w Hwf Hnd H.
  generalize (sort_by candidate_order shown) as l. clear shown.
  induction l as [|s l IH]; intros w Hwf Hnd H; cbn in H.
  { apply ret_ok in H as [_ <-]. split_and!; [done|apply heads_only_refl|done|].
    split; [by intros s ?%elem_of_nil|done]. }
  rewrite fmap_cons in Hnd. apply NoDup_cons in Hnd as [Hn Hnd]. apply bind_ok in H as (? & w1 & H1 & H2).
  apply count_injection_ok in H1 as (Hwf1 & Ho1 & Hn1 & u & st & Hu & Hr & Hst & Hun); [|done].
  apply IH in H2 as (Hwf2 & Ho2 & Hn2 & Hc1 & Hc2); [|done|done]. rewrite Hn1 in *.
  split_and!; [done|by eapply heads_only_trans|done|]. split.
  - intros y [->|Hx]%elem_of_cons.
    + exists u, st. by rewrite Hc2, Hun, lookup_insert_eq.
    + destruct (Hc1 y Hx) as (u' & st' & Hu' & Hrest). exists u', st'.
      rewrite Hun, lookup_insert_ne in Hu'; [done|]. intros E. apply Hn. rewrite E.
      by apply list_elem_of_fmap_2.
  - intros id Hid. rewrite fmap_cons in Hid. apply not_elem_of_cons in Hid as [? ?].
    by rewrite Hc2, Hun, lookup_insert_ne.
Qed.

Lemma event_values_ok c ts inj ver a l w values w' :
  map_m (λ en, uid <-! mint; ret (event_row c ts inj ver a uid en)) l w = (Ok values, w') →
  same_session w w' ∧ Forall2 (λ en e, ∃ uid, e = event_row c ts inj ver a uid en) l values.
Proof.
  revert w values. induction l as [|en l IH]; intros w values H; cbn [map_m] in H.
  { apply ret_ok in H as [<- <-]. split; [done|constructor]. }
  apply bind_ok in H as (e & w1 & H1 & H). apply bind_ok in H as (es & w2 & H2 & [<- <-]%ret_ok).
  apply bind_ok in H1 as (uid & w3 & (D & N & I)%mint_ok & [<- <-]%ret_ok).
  apply IH in H2 as [(D2 & N2 & I2) Hes]. unfold same_session. split; [split_and!; congruence|].
  constructor; [by exists uid|done].
Qed.

Definition row_set (new : list InjectionEvent) : gmap Z InjectionEvent :=
  list_to_map ((λ e, (i_id e, e)) <$> new).

Lemma insert_event_ok e w a w' :
  insert_event e w = (Ok a, w') →
  ∃ score, pg_real (i_score e) = Ok score ∧
    w' = with_db (set_events (<[next_event_id (w_db w) := with_row_id (next_event_id (w_db w)) score e]>
                                (events (w_db w))) (next_event_id (w_db w) + 1) (w_db w)) w.
Proof.
  unfold insert_event. intros H. apply bind_ok in H as (d & w1 & [<- <-]%ret_ok & H).
  apply bind_ok in H as (? & w1 & [_ <-]%require_ok & H).
  apply bind_ok in H as (score & w1 & [Hs ->]%lift_ok & H). injection H as _ <-. by exists score.
Qed.

Lemma row_set_None new k : k ∉ i_id <$> new → row_set new !! k = None.
Proof.
  intros Hk. unfold row_set. apply not_elem_of_list_to_map_1. rewrite <- list_fmap_compose. exact Hk.
Qed.

Lemma insert_rows_ok values w a w' :
  for_each values insert_event w = (Ok a, w') →
  ∃ new, Forall2 (λ e r, ∃ score, pg_real (i_score e) = Ok score ∧ r = with_row_id (i_id r) score e)
      values new ∧
    i_id <$> new = seqZ (next_event_id (w_db w)) (zlen new) ∧
    w' = with_db (set_events (row_set new ∪ events (w_db w)) (next_event_id (w_db w) + zlen new) (w_db w)) w.
Proof.
  revert w. induction values as [|e values IH]; intros w H; cbn in H.
  { apply ret_ok in H as [_ <-]. exists []. split_and!; [constructor|done|]. destruct w as [d ? ? ?].
    unfold row_set. cbn. rewrite (left_id_L ∅ (∪)), Z.add_0_r. by destruct d. }
  apply bind_ok in H as (? & w1 & (score & Hs & ->)%insert_event_ok & H).
  apply IH in H as (new & HF & Hids & ->). cbn in Hids |- *. clear IH.
  set (n := next_event_id (w_db w)) in *. set (r := with_row_id n score e).
  exists (r :: new). unfold zlen in *. cbn [length]. split_and!.
  - constructor; [|done]. by exists score.
  - rewrite fmap_cons, Hids. rewrite (seqZ_cons n) by lia.
    change (n :: seqZ (n + 1) (Z.of_nat (length new)) = n :: seqZ (Z.succ n) (Z.pred (Z.of_nat (S (length new))))).
    f_equal. f_equal; lia.
  - assert (row_set new ∪ <[n := r]> (events (w_db w)) = row_set (r :: new) ∪ events (w_db w)) as ->.
    { unfold row_set. cbn. rewrite <- insert_union_l. symmetry. apply insert_union_r, row_set_None.
      rewrite Hids, elem_of_seqZ. lia. }
    by replace (n + 1 + Z.of_nat (length new)) with (n + Z.of_nat (S (length new))) by lia.
Qed.

Lemma insert_events_ok c ts inj ver sel a w values w' :
  insert_events c ts inj ver sel a w = (Ok values, w') →
  Forall2 (λ en e, ∃ uid, e = event_row c ts inj ver a uid en) (log_entries c sel) values ∧
  ∃ new, logged c ts inj ver a (log_entries c sel) (w_db w) (w_db w') new ∧
    w_db w' = set_events (events (w_db w')) (next_event_id (w_db w')) (w_db w).
Proof.
  unfold insert_events. intros H. apply bind_ok in H as (vs & w1 & Hv & H).
  apply bind_ok in H as (? & w2 & Hr & [<- <-]%ret_ok).
  apply event_values_ok in Hv as ((D & N & I) & Hvs). split; [done|].
  apply insert_rows_ok in Hr as (new & Hnew & Hids & ->). cbn. rewrite D in *.
  exists new. split; [|done]. split_and!; [|done..].
  eapply Forall2_trans; [|exact Hvs|exact Hnew].
  intros en e r [uid ->] (score & Hs & ->). exists uid, score. done.
Qed.

Lemma logged_wf c ts inj ver a en d d' new :
  log_wf d → logged c ts inj ver a en d d' new → log_wf d'.
Proof.
  intros [Hk Hb] (_ & Hids & Hnx & Hev).
  assert (Hin : ∀ k e, row_set new !! k = Some e → i_id e = k ∧ k < next_event_id d + zlen new).
  { intros k e Hke. apply elem_of_list_to_map_2, list_elem_of_fmap in Hke as (x & [= -> ->] & Hx).
    split; [done|]. apply (list_elem_of_fmap_2 i_id) in Hx. rewrite Hids, elem_of_seqZ in Hx. lia. }
  unfold log_wf. rewrite Hnx. split.
  - intros k e. rewrite Hev. fold (row_set new). intros [H|[_ H]]%lookup_union_Some_raw; [by apply Hin|by apply Hk].
  - intros k [e H]. rewrite Hev in H. fold (row_set new) in H.
    apply lookup_union_Some_raw in H as [H|[_ H]]; [by apply Hin in H as [_ ?]|].
    specialize (Hb k (ex_intro _ e H)). unfold zlen in *. lia.
Qed.
End writes.

(** ** One attempt *)

(** The rows the final block of an autonomous preparation is rendered from. *)
Definition entered (en : entry) : bool :=
  bool_decide (en_outcome en = Some kept) || bool_decide (en_outcome en = Some auto_entered).

Section attempt.
Context {EN : Env} {PG : Postgres} {EP : EmbeddingProvider} {TK : Tokenizer} {UC : Unicode} {LM : Libm}.
Context {AD : AxisDecoder} {FT : FullText} {CC : Concurrency}.

Definition selected (c : PrepareCommand) (q : list float) (ts : Z) (d : db) (config : ScorerConfig)
    (sel : ScoringSelection) : Prop :=
  score_and_select (select_request c q ts (list_to_set (p_confirmed c)) (pinned_pool d c)
    (regular_pool d c q (candidate_pool (params config)))) config = Ok sel.

(** The answer of a preparation, from its selection. *)
Definition answers (c : PrepareCommand) (config : ScorerConfig) (sel : ScoringSelection)
    (r : PrepareResponse) : Prop :=
  let a := allocation_of config sel in
  pr_scorer_version r = version config ∧ pr_injected r = injected sel ∧
  pr_near_misses r = near_misses sel ∧ pr_memory_allocation r = a ∧ allocation_valid a = true ∧
  match p_mode c with
  | gate => pr_final_block r = None
  | autonomous => ∃ block, pr_final_block r = Some block ∧
      render_final_block (rendered ∘ event_row c (pr_snapshot_ts r) (pr_injection_id r) (version config) a []
                            <$> filter (λ en, entered en = true) (log_entries c sel)) = Ok block
  end.

(** What one atomic preparation does to the database: the thread is stamped,
    the heads of the injected memories are counted, the log grows, and nothing
    else changes. *)
Definition prepared (c : PrepareCommand) (q : list float) (d d' : db) (r : PrepareResponse) : Prop :=
  ∃ row config sel t now new,
    active_rows d = [row] ∧ config_of_row row = Ok config ∧ selected c q (pr_snapshot_ts r) d config sel ∧
    (∀ id, id ∈ p_current c → ∃ u, m_id u = id ∧ eligible d c u = true ∧ units d !! id = Some u) ∧
    stamped c (pr_snapshot_ts r) now (threads d !! p_thread_id c) t ∧
    threads d' = <[p_thread_id c := t]> (threads d) ∧
    counted (pr_snapshot_ts r) now (injected sel) d d' ∧
    logged c (pr_snapshot_ts r) (pr_injection_id r) (version config) (allocation_of config sel)
      (log_entries c sel) d d' new ∧
    d' = set_threads (threads d') (set_events (events d') (next_event_id d')
           (set_units (units d') (set_revisions (revisions d') d))) ∧
    answers c config sel r.

Lemma rendered_rows c ts inj ver a l values :
  Forall2 (λ en e, ∃ uid, e = event_row c ts inj ver a uid en) l values →
  rendered <$> filter (λ e, i_outcome e = Some kept ∨ i_outcome e = Some auto_entered) values =
  rendered ∘ event_row c ts inj ver a [] <$> filter (λ en, entered en = true) l.
Proof.
  induction 1 as [|en e l values [uid ->] _ IH]; [done|]. rewrite !filter_cons.
  assert (entered en = true ↔ (i_outcome (event_row c ts inj ver a uid en) = Some kept ∨
    i_outcome (event_row c ts inj ver a uid en) = Some auto_entered)) as Hd.
  { unfold entered. by rewrite orb_true_iff, !bool_decide_eq_true. }
  destruct (decide (entered en = true)) as [E|E].
  - rewrite decide_True by by apply Hd. rewrite !fmap_cons, IH. done.
  - rewrite decide_False by by rewrite <- Hd. done.
Qed.

Lemma active_config_ok w config w' :
  active_scorer_config w = (Ok config, w') →
  w' = w ∧ ∃ row, active_rows (w_db w) = [row] ∧ config_of_row row = Ok config.
Proof.
  unfold active_scorer_config. intros H. apply bind_ok in H as (d & w1 & [<- <-]%ret_ok & H).
  destruct (active_rows (w_db w)) as [|row [|? ?]]; [done| |done].
  apply lift_ok in H as [H ->]. eauto.
Qed.

Lemma selection_request_units d ts c q config sel s :
  selected c q ts d config sel → s ∈ injected sel ++ unselected sel →
  ∃ u b srcs, u ∈ eligible_units d c b ∧ s_candidate s = candidate_from_row d srcs u.
Proof.
  intros Hsel Hs. destruct (selection_places _ _ _ Hsel) as (Hp & _ & _). cbn in Hp.
  apply (list_elem_of_fmap_2 s_candidate) in Hs. rewrite Hp in Hs. apply elem_of_app in Hs as [Hs|Hs].
  - unfold pinned_pool in Hs. apply list_elem_of_fmap in Hs as (u & -> & Hu). rewrite sort_by_perm in Hu. eauto.
  - apply regular_pool_elem in Hs as (u & Hu & _ & _ & _ & ->). eauto.
Qed.

Lemma draw_ok {A} (f : nat → A) w a w' : bind tick (λ n, ret (f n)) w = (Ok a, w') → same_session w w'.
Proof. intros H. apply bind_ok in H as (n & w1 & Ht%tick_ok & [_ <-]%ret_ok). done. Qed.

Lemma final_block_ok c ts inj ver a l values w (b : option str) w' :
  Forall2 (λ en e, ∃ uid, e = event_row c ts inj ver a uid en) l values →
  match p_mode c with
  | autonomous =>
      block <-! render (filter (λ e, i_outcome e = Some kept ∨ i_outcome e = Some auto_entered) values);
      ret (Some block)
  | gate => ret None
  end w = (Ok b, w') →
  w' = w ∧
  match p_mode c with
  | gate => b = None
  | autonomous => ∃ block, b = Some block ∧
      render_final_block (rendered ∘ event_row c ts inj ver a [] <$> filter (λ en, entered en = true) l)
        = Ok block
  end.
Proof.
  intros Hv H. destruct (p_mode c).
  - by apply ret_ok in H as [<- <-].
  - apply bind_ok in H as (block & w1 & Hr & [<- <-]%ret_ok). unfold render in Hr.
    apply lift_ok in Hr as [Hr ->]. rewrite (rendered_rows _ _ _ _ _ _ _ Hv) in Hr. eauto.
Qed.

Lemma prepare_body_ok c q w r w' :
  wf (w_db w) → log_wf (w_db w) → prepare_body c q w = (Ok r, w') →
  prepared c q (w_db w) (w_db w') r ∧ wf (w_db w') ∧ log_wf (w_db w').
Proof.
  intros Hwf Hlog H. unfold prepare_body in H.
  apply bind_ok in H as (ts & w1 & (D1 & N1 & _)%draw_ok & H).
  apply bind_ok in H as (? & w2 & (t & Hst & D2 & N2 & _)%stamp_thread_ok & H).
  apply bind_ok in H as (config & w3 & [-> (row & Hrow & Hconf)]%active_config_ok & H).
  apply bind_ok in H as ([pins regs] & w3 & (-> & -> & -> & Hcur)%load_candidates_ok & H).
  apply bind_ok in H as (sel & w3 & [Hsel ->]%lift_ok & H). cbn zeta in H.
  apply bind_ok in H as (? & w3 & [Hal <-]%require_ok & H).
  apply bind_ok in H as (inj & w3 & (D3 & N3 & _)%draw_ok & H).
  apply bind_ok in H as (? & w4 & Hcount & H). apply bind_ok in H as (values & w5 & Hins & H).
  apply bind_ok in H as (block & w6 & Hblock & [<- <-]%ret_ok).
  apply insert_events_ok in Hins as (Hv & new & Hlogged & D5).
  apply (final_block_ok _ _ _ _ _ _ _ _ _ _ Hv) in Hblock as [-> Hblock].
  rewrite D1 in *. rewrite D2 in Hrow, Hcur, Hsel. change (active_rows (w_db w) = [row]) in Hrow.
  change (selected c q ts (w_db w) config sel) in Hsel.
  destruct (selection_ids _ _ _ Hsel) as (Hnd & _ & _). rewrite fmap_app in Hnd.
  apply NoDup_app in Hnd as (Hnd & _ & _).
  assert (Hwf2 : wf (w_db w3)) by (rewrite D3, D2; by apply (wf_tables (w_db w))).
  apply increment_stats_ok in Hcount as (Hwf4 & Ho & N4 & Hc); [|done|done].
  assert (Hwf5 : wf (w_db w5)) by (rewrite D5; by apply (wf_tables (w_db w4))).
  rewrite D3, D2 in Ho. unfold heads_only in Ho.
  assert (Hev : events (w_db w4) = events (w_db w)) by by rewrite Ho.
  assert (Hnx : next_event_id (w_db w4) = next_event_id (w_db w)) by by rewrite Ho.
  split_and!; [|done|].
  2:{ eapply logged_wf; [|exact Hlogged]. unfold log_wf, event_keys. by rewrite Hev, Hnx. }
  exists row, config, sel, t, (w_tx_now w), new. cbn. split_and!; try done.
  - intros id Hid. destruct (Hcur id Hid) as (u & Hu & [He|He]); exists u;
      apply eligible_elem in He as (He & _ & i & Hi); change (units (w_db w) !! i = Some u) in Hi;
      rewrite <- (wf_key _ Hwf _ _ Hi), Hu in Hi; done.
  - congruence.
  - by rewrite D5, Ho.
  - rewrite N3, N2, N1 in Hc. destruct Hc as [Hc1 Hc2]. rewrite D3, D2 in Hc1, Hc2. cbn in Hc1, Hc2.
    split; intros; rewrite D5; cbn; auto.
  - unfold logged in *. by rewrite Hev, Hnx in Hlogged.
  - rewrite D5. cbn. rewrite Ho at 1 2. done.
Qed.
End attempt.

(** ** Transient failures *)
Section transient.
Context {EN : Env} {PG : Postgres} {EP : EmbeddingProvider} {TK : Tokenizer} {UC : Unicode} {LM : Libm}.
Context {AD : AxisDecoder} {FT : FullText} {CC : Concurrency}.

(** What leaves a preparation: any error but the three that are retried. *)
Definition lasting (e : exn) : Prop :=
  match e with RetryTransaction | MemoryCasConflictError _ | SerializationFailure => False | _ => True end.
Lemma lasting_transient e : lasting e ↔ transient e = false.
Proof. destruct e; by split. Qed.

Lemma cas_err_transient c w e w' :
  cas_update_memory_unit c w = (Err e, w') →
  lasting e ∨ ∃ u, units (w_db w) !! cu_memory_id c = Some u ∧ m_revision u ≠ cu_expected_revision c.
Proof.
  intros H. unfold cas_update_memory_unit, cas_post_init in H.
  apply bind_err in H as [H|([] & w1 & [_ <-]%require_ok & H)];
    [left; by refine (raises_require lasting _ _ _ _ _ _ H)|].
  apply bind_err in H as [H|(begun & w1 & [<- <-]%ret_ok & H)]; [done|].
  apply bind_err in H as [H|([] & w1 & [_ <-]%require_ok & H)];
    [left; by refine (raises_require lasting _ _ _ _ _ _ H)|].
  unfold savepoint, cas_update_body in H. destruct (bind _ _ w) as [[a|x] w1] eqn:E; [done|].
  injection H as -> <-.
  apply bind_err in E as [E|([] & w2 & [_ <-]%require_ok & E)];
    [left; by refine (raises_require lasting _ _ _ _ _ _ E)|].
  unfold cas_write in E. apply bind_err in E as [E|([row|] & w2 & Hu & E)].
  - left. revert E. apply (raises_update_head lasting); done.
  - left. revert E. apply (λ H, H : raises lasting _). unfold insert_revision. raising; done.
  - apply update_head_none in Hu as [-> Hrev].
    apply bind_err in E as [E|(d & w2 & [<- <-]%ret_ok & E)]; [done|].
    destruct (units (w_db w) !! cu_memory_id c) as [u|] eqn:Eu; [right; eauto|].
    left. by injection E as <- _.
Qed.

(** No other session gets in the way of a statement. *)
Definition calm : Prop := ∀ n, hidden_thread n = false ∧ serialization_failure n = false.
Hypothesis Hcalm : calm.

Lemma concurrent_write_calm : raises lasting concurrent_write.
Proof using Hcalm.
  intros w e w'. unfold concurrent_write, bind, tick. destruct (Hcalm (w_tick w)) as [_ ->]. done.
Qed.

Lemma stamp_thread_calm c ts : raises lasting (stamp_thread c ts).
Proof using Hcalm.
  unfold stamp_thread. apply raises_bind; [apply raises_get_db|]. intros d w e w' H.
  apply bind_err in H as [H|(n & w1 & [= <- <-] & H)]; [done|].
  destruct (threads d !! p_thread_id c) as [t|].
  - revert H. apply (λ H, H : raises lasting _).
    apply raises_bind; [apply concurrent_write_calm|]. intros _. unfold put_thread. raising; done.
  - destruct (Hcalm (w_tick w)) as [Hh _]. rewrite Hh in H. revert H. apply (λ H, H : raises lasting _).
    apply raises_bind; [apply raises_ret|]. intros _. unfold put_thread. raising; done.
Qed.

Lemma count_injection_calm c ts s w e w' :
  (∀ u, units (w_db w) !! s_id s = Some u → m_revision u = revision (s_candidate s)) →
  count_injection c ts s w = (Err e, w') → lasting e.
Proof using Hcalm.
  intros Hrev H. unfold count_injection in H.
  apply bind_err in H as [H|(st & w1 & [Hst ->]%lift_ok & H)].
  { unfold injected_stats in H. apply lift_err in H as (x & Hx & -> & _).
    destruct (default _ _); try discriminate Hx; by injection Hx as <-. }
  apply bind_err in H as [H|(uid & w1 & (D1 & _)%mint_ok & H)]; [done|].
  apply bind_err in H as [H|(? & w2 & (D2 & _)%concurrent_write_ok & H)]; [by eapply concurrent_write_calm|].
  apply bind_err in H as [H|(row & w3 & _ & H)]; [|done].
  apply cas_err_transient in H as [H|(u & Hu & Hne)]; [done|]. cbn in *. rewrite D2, D1 in Hu.
  by apply Hrev in Hu.
Qed.

Lemma increment_stats_calm c ts shown w e w' :
  wf (w_db w) → NoDup (s_id <$> shown) →
  (∀ s u, s ∈ shown → units (w_db w) !! s_id s = Some u → m_revision u = revision (s_candidate s)) →
  increment_injection_stats c ts shown w = (Err e, w') → lasting e.
Proof using Hcalm.
  unfold increment_injection_stats. intros Hwf Hnd Hrev.
  assert (Hp : Permutation (sort_by candidate_order shown) shown) by apply sort_by_perm.
  setoid_rewrite <- Hp in Hrev. rewrite <- Hp in Hnd. clear Hp. revert w Hwf Hnd Hrev.
  generalize (sort_by candidate_order shown) as l.
  induction l as [|s l IH]; intros w Hwf Hnd Hrev H; cbn in H; [done|].
  rewrite fmap_cons in Hnd. apply NoDup_cons in Hnd as [Hn Hnd].
  apply bind_err in H as [H|(? & w1 & H1 & H)].
  - eapply count_injection_calm; [|exact H]. intros u. apply Hrev. left.
  - apply count_injection_ok in H1 as (Hwf1 & _ & _ & u & st & _ & _ & _ & Hun); [|done].
    apply (IH w1); [done..| |done]. intros y v Hy. rewrite Hun, lookup_insert_ne.
    + apply Hrev. by right.
    + intros E. apply Hn. rewrite E. by apply list_elem_of_fmap_2.
Qed.

Lemma prepare_body_calm c q w e w' :
  wf (w_db w) → prepare_body c q w = (Err e, w') → lasting e.
Proof using Hcalm.
  intros Hwf H. unfold prepare_body in H.
  apply bind_err in H as [H|(ts & w1 & (D1 & _)%draw_ok & H)]; [done|].
  apply bind_err in H as [H|(? & w2 & (t & _ & D2 & _)%stamp_thread_ok & H)].
  { by eapply stamp_thread_calm. }
  apply bind_err in H as [H|(config & w3 & [-> _]%active_config_ok & H)].
  { revert H. apply (λ H, H : raises lasting _). unfold active_scorer_config. raising; try done.
    match goal with x : pyexn |- _ => by destruct x end. }
  apply bind_err in H as [H|([pins regs] & w3 & (-> & -> & -> & _)%load_candidates_ok & H)].
  { revert H. apply (λ H, H : raises lasting _). unfold load_candidates. raising; done. }
  apply bind_err in H as [H|(sel & w3 & [Hsel ->]%lift_ok & H)].
  { by apply lift_err in H as (? & _ & -> & _). }
  cbn zeta in H. apply bind_err in H as [H|(? & w3 & [_ <-]%require_ok & H)].
  { by apply require_err in H as (_ & -> & _). }
  apply bind_err in H as [H|(inj & w3 & (D3 & _)%draw_ok & H)]; [done|].
  rewrite D2 in Hsel. rewrite D1 in *.
  change (selected c q ts (w_db w) config sel) in Hsel.
  destruct (selection_ids _ _ _ Hsel) as (Hnd & _ & _). rewrite fmap_app in Hnd.
  apply NoDup_app in Hnd as (Hnd & _ & _).
  apply bind_err in H as [H|(? & w4 & _ & H)].
  { eapply increment_stats_calm; [..|exact H].
    - rewrite D3, D2. by apply (wf_tables (w_db w)).
    - done.
    - intros s u Hs Hu. rewrite D3, D2 in Hu. cbn in Hu.
      destruct (selection_request_units _ _ _ _ _ _ s Hsel) as (v & b & srcs & (_ & _ & i & Hi)%eligible_elem & Hc).
      { apply elem_of_app. by left. }
      unfold s_id in Hu. rewrite Hc in *. cbn in *. rewrite (wf_key _ Hwf _ _ Hi) in Hu. congruence. }
  revert H. apply (λ H, H : raises lasting _). unfold insert_events, insert_event, mint, render.
  raising; try done. match goal with x : frozen_error |- _ => by destruct x end.
Qed.

Lemma prepare_once_calm c q w e w' : wf (w_db w) → prepare_once c q w = (Err e, w') → lasting e.
Proof using Hcalm.
  unfold prepare_once, transaction. intros Hwf. destruct (prepare_body c q _) as [[?|?] w1] eqn:E; [done|].
  intros [= <- _]. by eapply prepare_body_calm; [|exact E].
Qed.
End transient.

(** ** The retry loop *)
Section retry.
Context {EN : Env} {PG : Postgres} {EP : EmbeddingProvider} {TK : Tokenizer} {UC : Unicode} {LM : Libm}.
Context {AD : AxisDecoder} {FT : FullText} {CC : Concurrency}.

(** [k] commits of other sessions. *)
Definition interfered (k : nat) : db → db → Prop := nsteps (λ a b, ∃ n, b = others_commit n a) k.

(** An invariant that no other session breaks. *)
Definition stable (P : db → Prop) : Prop := ∀ n d, P d → P (others_commit n d).

Lemma interfered_stable P k d d' : stable P → interfered k d d' → P d → P d'.
Proof. intros HP. induction 1 as [|k d1 d2 d3 [n ->] _ IH]; [done|]. intros H. by apply IH, HP. Qed.

Lemma others_ok w a w' : others w = (Ok a, w') → interfered 1 (w_db w) (w_db w').
Proof. intros [= _ <-]. apply nsteps_once. by eexists. Qed.

Lemma attempts_spec {A} n (once : M A) w r w' :
  (∀ w e w', once w = (Err e, w') → w_db w' = w_db w) →
  attempts n once w = (r, w') →
  ∃ k w0, interfered k (w_db w) (w_db w0) ∧
    ((0 < k ≤ n)%nat ∧ once w0 = (r, w') ∧ (∀ e, r = Err e → lasting e) ∨
     k = n ∧ r = Err PrepareConflictError ∧ w' = w0) ∧
    ((k ≤ 1)%nat ∨ ∃ w1 e w2, interfered 1 (w_db w) (w_db w1) ∧ once w1 = (Err e, w2) ∧ ¬ lasting e).
Proof.
  intros Hroll. revert w. induction n as [|n IH]; intros w H; cbn [attempts] in H.
  { unfold raise in H. injection H as <- <-. exists O, w. split; [constructor|]. split; [by right|left; lia]. }
  unfold bind in H. destruct (others w) as [[[]|e] w1] eqn:Eo; [|done]. apply others_ok in Eo.
  unfold try_catch in H. destruct (once w1) as [[a|e] w2] eqn:E1.
  - injection H as <- <-. exists 1%nat, w1. split; [done|]. split; [left|left; lia].
    split_and!; [lia|lia|done|done].
  - destruct (transient e) eqn:Et.
    + apply IH in H as (k & w0 & Hk & Hcase & _). rewrite (Hroll _ _ _ E1) in Hk.
      exists (S k), w0. split; [by apply (nsteps_trans 1 k _ (w_db w1))|]. split.
      * destruct Hcase as [(? & ? & ?)|(-> & ? & ?)]; [left; split_and!; [lia|lia|done|done]|by right].
      * right. exists w1, e, w2. rewrite lasting_transient. split_and!; [done|done|congruence].
    + unfold raise in H. injection H as <- <-. exists 1%nat, w1. split; [done|]. split; [left|left; lia].
      split_and!; [lia|lia|done|]. intros ? [= <-]. by apply lasting_transient.
Qed.

(** The atomic specification: one preparation, or a refusal that writes nothing. *)
Inductive prepare_step (c : PrepareCommand) : db → res exn PrepareResponse → db → Prop :=
  | step_prepared q d d' r : embed_one (p_prompt c) (Some PREPARE_DIMENSIONS) = Ok q →
      prepared c q d d' r → prepare_step c d (Ok r) d'
  | step_refused d e : lasting e → prepare_step c d (Err e) d.

Lemma validate_command_same c w r w' : validate_command c w = (r, w') → w' = w.
Proof.
  unfold validate_command, bind, require, raise, ret.
  repeat match goal with |- context [if ?b then _ else _] => destruct b end; try (by intros [= _ <-]);
  destruct (p_mode c);
  repeat match goal with |- context [if ?b then _ else _] => destruct b end; by intros [= _ <-].
Qed.

Lemma prepare_cases c w r w' :
  prepare c w = (r, w') →
  (∃ e, r = Err e ∧ w' = w ∧ lasting e) ∨
  ∃ q, embed_one (p_prompt c) (Some PREPARE_DIMENSIONS) = Ok q ∧
    attempts MAX_TRANSACTION_ATTEMPTS (prepare_once c q) w = (r, w').
Proof.
  unfold prepare. intros H. unfold bind at 1 in H. destruct (validate_command c w) as [[[]|e] w1] eqn:Ev.
  - apply validate_command_same in Ev as ->. unfold bind in H.
    destruct (embed_one _ _) as [q|e] eqn:Eq; cbn in H; [right; eauto|].
    injection H as <- <-. left. by eexists.
  - injection H as <- <-. apply validate_command_same in Ev as Ew. left. exists e. split_and!; [done..|].
    revert Ev. apply (λ H, H : raises lasting _). unfold validate_command. raising; done.
Qed.
End retry.

Section properties.
Context {EN : Env} {PG : Postgres} {EP : EmbeddingProvider} {TK : Tokenizer} {UC : Unicode} {LM : Libm}.
Context {AD : AxisDecoder} {FT : FullText} {CC : Concurrency}.

(** C12: the retry loop refines an atomic preparation.  Whatever other sessions
    commit between the attempts, a call behaves as one atomic step on the
    database it finally saw, at most three of their commits later: either the
    complete preparation, or a refusal that writes nothing.  When no statement
    is disturbed the first attempt decides. *)
Theorem prepare_refines c w r w' :
  stable wf → stable log_wf → wf (w_db w) → log_wf (w_db w) → prepare c w = (r, w') →
  ∃ k d, (k ≤ MAX_TRANSACTION_ATTEMPTS)%nat ∧ interfered k (w_db w) d ∧
    prepare_step c d r (w_db w') ∧ wf (w_db w') ∧ log_wf (w_db w') ∧ (calm → (k ≤ 1)%nat).
Proof.
  intros Sw Sl Hwf Hlog H. apply prepare_cases in H as [(e & -> & -> & He)|(q & Hq & H)].
  { exists O, (w_db w). split_and!; [lia|constructor|by constructor|done|done|lia]. }
  assert (Hroll : ∀ w e w', prepare_once c q w = (Err e, w') → w_db w' = w_db w)
    by (intros ? ? ?; apply transaction_rollback).
  assert (Hdone : ∀ k w0, interfered k (w_db w) (w_db w0) → prepare_once c q w0 = (r, w') →
    (∀ e, r = Err e → lasting e) →
    prepare_step c (w_db w0) r (w_db w') ∧ wf (w_db w') ∧ log_wf (w_db w')).
  { intros k w0 Hk H0 Hl. pose proof (interfered_stable _ _ _ _ Sw Hk Hwf) as Hwf0.
    pose proof (interfered_stable _ _ _ _ Sl Hk Hlog) as Hlog0. destruct r as [r|e].
    - apply transaction_ok in H0 as (w1 & H0 & ->).
      destruct (prepare_body_ok c q (begin_tx w0) r w1 Hwf0 Hlog0 H0) as (Hp & ? & ?).
      split_and!; [by econstructor|done|done].
    - rewrite (Hroll _ _ _ H0). split_and!; [constructor; by apply Hl|done|done]. }
  destruct (attempts_spec _ _ _ _ _ Hroll H) as (k & w0 & Hk & Hcase & Hretry).
  exists k, (w_db w0). assert (calm → (k ≤ 1)%nat) as Hc.
  { intros Hc. destruct Hretry as [?|(w1 & e & w2 & H1 & He & Hl)]; [done|]. destruct Hl.
    eapply (prepare_once_calm Hc); [|exact He]. by eapply interfered_stable. }
  destruct Hcase as [(Hkn & H0 & Hl)|(-> & -> & ->)].
  - destruct (Hdone k w0 Hk H0 Hl) as (? & ? & ?). split_and!; [lia|done..].
  - split_and!; [lia|done|by constructor|by eapply interfered_stable..|done].
Qed.
End properties.

Section more_properties.
Context {EN : Env} {PG : Postgres} {EP : EmbeddingProvider} {TK : Tokenizer} {UC : Unicode} {LM : Libm}.
Context {AD : AxisDecoder} {FT : FullText} {CC : Concurrency}.

Lemma prepare_ok c w r w' :
  stable wf → stable log_wf → wf (w_db w) → log_wf (w_db w) → prepare c w = (Ok r, w') →
  ∃ k d q, interfered k (w_db w) d ∧ prepared c q d (w_db w') r ∧ wf (w_db w') ∧ log_wf (w_db w').
Proof.
  intros Sw Sl Hwf Hlog H. apply prepare_cases in H as [(e & ? & _)|(q & _ & H)]; [done|].
  apply attempts_spec in H as (k & w0 & Hk & [(_ & H & _)|(_ & ? & _)] & _);
    [..|intros ? ? ?; apply transaction_rollback]; [|done].
  apply transaction_ok in H as (w1 & H & ->). exists k, (w_db w0), q. split; [done|].
  exact (prepare_body_ok c q (begin_tx w0) r w1
    (interfered_stable _ _ _ _ Sw Hk Hwf) (interfered_stable _ _ _ _ Sl Hk Hlog) H).
Qed.

Definition has_snapshot (id : uuid) (d : db) : Prop :=
  ∃ t, threads d !! id = Some t ∧ t_snapshot_ts t ≠ None.

(** C4: a thread is prepared at the gate at most once.  A preparation leaves
    its thread with a snapshot, and from any database where a thread has one,
    every further gate preparation of that thread is refused and writes
    nothing, whoever asks. *)
Theorem prepare_one_shot c w r w' :
  stable wf → stable log_wf → stable (has_snapshot (p_thread_id c)) →
  wf (w_db w) → log_wf (w_db w) → prepare c w = (Ok r, w') →
  has_snapshot (p_thread_id c) (w_db w') ∧
  ∀ c2 w2 r2 w3, p_thread_id c2 = p_thread_id c → p_mode c2 = gate →
    wf (w_db w2) → log_wf (w_db w2) → has_snapshot (p_thread_id c) (w_db w2) →
    prepare c2 w2 = (r2, w3) →
    ∃ e k, r2 = Err e ∧ interfered k (w_db w2) (w_db w3).
Proof.
  intros Sw Sl Ss Hwf Hlog H. split.
  - apply prepare_ok in H as (k & d & q & Hk & Hp & _); [|done..].
    destruct Hp as (row & config & sel & t & now & new & _ & _ & _ & _ & Hst & Hth & _).
    exists t. rewrite Hth, lookup_insert_eq. split; [done|]. by destruct Hst.
  - intros c2 w2 r2 w3 Hid Hg Hwf2 Hlog2 Hs H2.
    apply prepare_cases in H2 as [(e & -> & -> & _)|(q & _ & H2)].
    { exists e, O. split; [done|constructor]. }
    assert (Hroll : ∀ w e w', prepare_once c2 q w = (Err e, w') → w_db w' = w_db w)
      by (intros ? ? ?; apply transaction_rollback).
    apply attempts_spec in H2 as (k & w0 & Hk & [(_ & H2 & _)|(-> & -> & ->)] & _);
      [..|done]; [|by eexists _, _].
    destruct r2 as [r2|e]; [|exists e, k; split; [done|by rewrite (Hroll _ _ _ H2)]].
    exfalso. pose proof (interfered_stable _ _ _ _ Ss Hk Hs) as (t & Ht & Hsnap).
    apply transaction_ok in H2 as (w1 & H2 & ->).
    apply prepare_body_ok in H2 as (Hp & _); [|by eapply interfered_stable..].
    destruct Hp as (row & config & sel & t' & now & new & _ & _ & _ & _ & Hst & _).
    rewrite Hid in Hst. cbn in Hst. rewrite Ht in Hst. inversion Hst; congruence.
Qed.

(** A memory an agent may be shown in this thread. *)
Definition may_be_shown (c : PrepareCommand) (d : db) (id : uuid) : Prop :=
  ∃ u, units d !! id = Some u ∧ m_principal_id u = p_principal_id c ∧ m_status u = Sactive ∧
    (m_project_key u = None ∨ m_project_key u = p_project_key c) ∧ id ∉ p_excluded c ∧
    (∀ k e, events d !! k = Some e → i_thread_id e = p_thread_id c → i_principal_id e = p_principal_id c →
       i_memory_id e = id → i_outcome e ≠ Some (removed never)).

Lemma eligible_shown c d u id : units d !! id = Some u → m_id u = id → eligible d c u = true → may_be_shown c d id.
Proof.
  intros Hu Hid He. unfold eligible in He. breflect. exists u. rewrite Hid in *. split_and!; try done.
  - match goal with H : _ || _ = true |- _ => apply orb_true_iff in H as [H|H] end; breflect; auto.
  - intros k e Hk Ht Hp Hm Ho.
    match goal with H : id ∉ never_in_thread d c |- _ => apply H end.
    unfold never_in_thread. apply (elem_fmap_filter _ _ _ e); [|done..]. apply elem_rows. eauto.
Qed.

Lemma elem_slice_to {A} n (l : list A) x : x ∈ slice_to n l → x ∈ l.
Proof. unfold slice_to. destruct (n <? 0); apply elem_take. Qed.

(** What a preparation may show.  Every injected memory and every near
    miss belongs to the principal, is active, is visible to the thread's
    project, is not excluded and was never removed for good in this thread;
    none is shown twice; every pinned memory that may be shown and every
    confirmed memory is injected. *)
Theorem prepare_only_eligible c q w r w' :
  wf (w_db w) → log_wf (w_db w) → prepare_once c q w = (Ok r, w') →
  let shown := s_id <$> (pr_injected r ++ pr_near_misses r) in
  (∀ id, id ∈ shown → may_be_shown c (w_db w) id) ∧ NoDup shown ∧
  (∀ u, u ∈ eligible_units (w_db w) c true → m_id u ∈ s_id <$> pr_injected r) ∧
  (∀ id, id ∈ p_confirmed c → id ∈ s_id <$> pr_injected r).
Proof.
  intros Hwf Hlog H. apply transaction_ok in H as (w1 & H & ->).
  apply prepare_body_ok in H as (Hp & _); [|done..]. cbn [w_db begin_tx] in Hp. set (d := w_db w) in *.
  destruct Hp as (row & config & sel & t & now & new & _ & _ & Hsel & _ & _ & _ & _ & _ & _ & Hans).
  destruct Hans as (_ & -> & -> & _). cbn zeta. destruct (selection_ids _ _ _ Hsel) as (Hnd & Hnear & _).
  assert (Hsub : sublist (injected sel ++ near_misses sel) (injected sel ++ unselected sel)).
  { apply sublist_app; [done|]. rewrite Hnear. unfold slice_to. destruct (_ <? 0); apply sublist_take. }
  split_and!.
  - intros id (s & -> & Hs)%list_elem_of_fmap.
    destruct (selection_request_units _ _ _ _ _ _ s Hsel) as (u & b & srcs & (He & _ & i & Hi)%eligible_elem & Hc).
    { by eapply elem_of_sublist. }
    pose proof (wf_key _ Hwf _ _ Hi) as Hk. unfold s_id. rewrite Hc. cbn.
    eapply eligible_shown; [|done|done]. by rewrite Hk.
  - eapply sublist_NoDup; [exact Hnd|]. by apply fmap_sublist.
  - intros u Hu. destruct (selection_places _ _ _ Hsel) as (_ & _ & Hin). rewrite s_id_candidates.
    change (m_id u) with (memory_id (candidate_from_row d [lit "pinned"] u)).
    apply list_elem_of_fmap_2, Hin. left. cbn. unfold pinned_pool. apply list_elem_of_fmap_2.
    by rewrite sort_by_perm.
  - intros id Hid. eapply selection_locked; [exact Hsel|]. cbn. by apply elem_of_list_to_set.
Qed.
End more_properties.

(** ** The batch a preparation leaves *)
Definition row_key (e : InjectionEvent) : uuid * ShownAs * option Outcome :=
  (i_memory_id e, i_shown_as e, i_outcome e).
Definition entry_key (en : entry) : uuid * ShownAs * option Outcome :=
  (s_id (en_item en), en_shown_as en, en_outcome en).

(** No earlier row carries the injection's fresh identifier. *)
Definition fresh_injection (d : db) (inj : uuid) : Prop :=
  ∀ k e, events d !! k = Some e → i_injection_id e ≠ inj.

Section batch.
Context {EN : Env} {PG : Postgres} {EP : EmbeddingProvider} {TK : Tokenizer} {UC : Unicode} {LM : Libm}.
Context {AD : AxisDecoder} {FT : FullText} {CC : Concurrency}.

Lemma log_row_keys c ts inj ver a entries new :
  Forall2 (log_row c ts inj ver a) entries new →
  row_key <$> new = entry_key <$> entries ∧ Forall (λ e, i_injection_id e = inj) new.
Proof.
  induction 1 as [|en e entries new (uid & score & _ & ->) _ [IH1 IH2]]; [done|].
  rewrite !fmap_cons, IH1. split; [done|by constructor].
Qed.

Lemma logged_NoDup c ts inj ver a entries d d' new :
  logged c ts inj ver a entries d d' new → NoDup (i_id <$> new).
Proof. intros (_ & -> & _). apply NoDup_seqZ. Qed.

Lemma rows_ids d : event_keys d → NoDup (i_id <$> rows (events d)).
Proof.
  intros Hk. unfold rows. rewrite <- list_fmap_compose.
  erewrite (list_fmap_ext (i_id ∘ snd) fst); [apply NoDup_fst_map_to_list|].
  intros i [k e] Hi%list_elem_of_lookup_2%elem_of_map_to_list. by apply Hk.
Qed.

(** A row of the log after the preparation is an old one or a new one. *)
Lemma logged_rows c ts inj ver a entries d d' new e :
  log_wf d → logged c ts inj ver a entries d d' new →
  (∃ k, events d' !! k = Some e) ↔ e ∈ new ∨ ∃ k, events d !! k = Some e.
Proof.
  intros [_ Hb] Hl. pose proof (logged_NoDup _ _ _ _ _ _ _ _ _ Hl) as Hnd.
  destruct Hl as (_ & Hids & _ & Hev). rewrite Hev.
  assert (Hin : ∀ k x, row_set new !! k = Some x ↔ x ∈ new ∧ i_id x = k).
  { intros k x. unfold row_set. rewrite <- elem_of_list_to_map by by rewrite <- list_fmap_compose.
    rewrite list_elem_of_fmap. split; [by intros (y & [= -> ->] & ?)|intros [? <-]; by exists x]. }
  fold (row_set new). split.
  - intros [k [H|[_ H]]%lookup_union_Some_raw]; [left; by apply Hin in H as [? _]|right; eauto].
  - intros [H|[k H]].
    + exists (i_id e). apply lookup_union_Some_raw. left. by apply Hin.
    + exists k. apply lookup_union_Some_raw. right. split; [|done].
      apply row_set_None. rewrite Hids, elem_of_seqZ. specialize (Hb k (ex_intro _ e H)). lia.
Qed.

Lemma load_batch_perm c ts inj ver a entries d d' new :
  log_wf d → fresh_injection d inj → logged c ts inj ver a entries d d' new →
  load_batch d' inj ≡ₚ new.
Proof.
  intros Hlog Hf Hl. apply list.NoDup_Permutation.
  - unfold load_batch. rewrite sort_by_perm. apply NoDup_filter, (NoDup_fmap_1 i_id), rows_ids.
    by eapply logged_wf.
  - by eapply NoDup_fmap_1, logged_NoDup.
  - intros e. rewrite load_batch_elem, (logged_rows _ _ _ _ _ _ _ _ _ _ Hlog Hl).
    destruct Hl as (Hrows & _). apply log_row_keys in Hrows as [_ Hinj]. rewrite Forall_forall in Hinj.
    split; [|intros He; split; [by apply Hinj|by left]]. intros [Hi [?|[k Hk]]]; [done|].
    by apply Hf in Hk.
Qed.

(** The kinds of row of a gate batch. *)
Definition shown_key (sel : ScoringSelection) (x : uuid * ShownAs * option Outcome) : Prop :=
  (∃ s, s ∈ injected sel ∧ x = (s_id s, if pin (s_candidate s) then shown_pinned else shown_injected, None)) ∨
  (∃ s, s ∈ near_misses sel ∧ x = (s_id s, shown_near_miss, None)) ∨
  (∃ s, s ∈ budget_cuts sel ∧ x = (s_id s, shown_budget_cut, Some out_budget_cut)).

Lemma gate_entries c sel :
  p_mode c = gate →
  log_entries c sel = (injected_entry c <$> injected sel) ++ (near_entry c <$> near_misses sel)
                      ++ (cut_entry <$> budget_cuts sel).
Proof. intros Hg. unfold log_entries. by rewrite Hg, app_nil_r. Qed.

Lemma gate_keys c sel x :
  p_mode c = gate → x ∈ entry_key <$> log_entries c sel ↔ shown_key sel x.
Proof.
  intros Hg. rewrite gate_entries by done. rewrite !fmap_app, !elem_of_app, <- !list_fmap_compose.
  unfold shown_key. rewrite !list_elem_of_fmap.
  assert (∀ s, entry_key (injected_entry c s) =
    (s_id s, if pin (s_candidate s) then shown_pinned else shown_injected, None)) as H1.
  { intros s. unfold entry_key, injected_entry. cbn. by rewrite Hg. }
  assert (∀ s, entry_key (near_entry c s) = (s_id s, shown_near_miss, None)) as H2.
  { intros s. unfold entry_key, near_entry. cbn. by rewrite Hg. }
  split; intros [(s & H & Hs)|[(s & H & Hs)|(s & H & Hs)]];
    [left|right; left|right; right|left|right; left|right; right]; exists s; cbn in *;
    rewrite ?H1, ?H2 in *; auto.
Qed.

Definition key_shown (x : uuid * ShownAs * option Outcome) : Prop := x.1.2 ≠ shown_budget_cut.
#[local] Instance key_shown_dec x : Decision (key_shown x).
Proof. unfold key_shown. apply _. Defined.

Lemma gate_members c ts inj ver a sel d d' new :
  p_mode c = gate → logged c ts inj ver a (log_entries c sel) d d' new →
  i_memory_id <$> members new = s_id <$> (injected sel ++ near_misses sel).
Proof.
  intros Hg (Hrows & _). apply log_row_keys in Hrows as [Hk _].
  transitivity ((λ x, x.1.1) <$> filter key_shown (row_key <$> new)).
  { rewrite (filter_fmap row_key key_shown (λ e, i_shown_as e ≠ shown_budget_cut)) by done.
    by rewrite <- list_fmap_compose. }
  rewrite Hk, (filter_fmap entry_key key_shown (λ en, en_shown_as en ≠ shown_budget_cut)) by done.
  rewrite <- list_fmap_compose, gate_entries, !filter_app by done.
  rewrite (filter_fmap (injected_entry c) _ (λ _, True)), (filter_fmap (near_entry c) _ (λ _, True)),
    (filter_fmap cut_entry _ (λ _, False)).
  - assert (∀ l : list ScoredCandidate, filter (λ _, True) l = l) as HT
      by (induction l as [|x l IH]; [done|]; rewrite filter_cons_True by done; by rewrite IH).
    assert (∀ l : list ScoredCandidate, filter (λ _, False) l = []) as HF
      by (induction l as [|x l IH]; [done|]; by rewrite filter_cons_False by tauto).
    rewrite !HT, HF, app_nil_r, !fmap_app, <- !list_fmap_compose. done.
  - intros s. cbn. tauto.
  - intros s. cbn. by split.
  - intros s. cbn. by destruct (pin _).
Qed.
End batch.

Section composition.
Context {EN : Env} {PG : Postgres} {EP : EmbeddingProvider} {TK : Tokenizer} {UC : Unicode} {LM : Libm}.
Context {AD : AxisDecoder} {FT : FullText} {CC : Concurrency}.

(** The choices a client may send for the cards it was shown. *)
Record gate_choices (r : PrepareResponse) (cc : CommitCommand) : Prop := {
  gate_removed : NoDup (rd_memory_id <$> ic_removed cc);
  gate_added : NoDup (ic_added_back cc);
  gate_disjoint : ∀ x, x ∈ ic_removed cc → rd_memory_id x ∉ ic_added_back cc;
  gate_removed_in : ∀ x, x ∈ ic_removed cc → rd_memory_id x ∈ s_id <$> pr_injected r ∨
    rd_memory_id x ∈ s_id <$> pr_near_misses r ∧ rd_reason x = never;
  gate_added_in : ∀ id, id ∈ ic_added_back cc → id ∈ s_id <$> pr_near_misses r;
}.

Lemma prepare_once_log c q w r w' :
  wf (w_db w) → log_wf (w_db w) → prepare_once c q w = (Ok r, w') →
  ∃ row config sel new, active_rows (w_db w) = [row] ∧ config_of_row row = Ok config ∧
    selected c q (pr_snapshot_ts r) (w_db w) config sel ∧ pr_injected r = injected sel ∧ pr_near_misses r = near_misses sel ∧
    logged c (pr_snapshot_ts r) (pr_injection_id r) (version config) (allocation_of config sel)
      (log_entries c sel) (w_db w) (w_db w') new ∧ log_wf (w_db w').
Proof.
  intros Hwf Hlog H. apply transaction_ok in H as (w1 & H & ->).
  destruct (prepare_body_ok c q (begin_tx w) r w1 Hwf Hlog H) as (Hp & _ & Hl1).
  destruct Hp as (row & config & sel & t & now & new & Hrow & Hconf & Hsel & _ & _ & _ & _ & Hlogged & _ & Hans).
  destruct Hans as (_ & Hi & Hn & _). exists row, config, sel, new. by split_and!.
Qed.

Lemma shown_NoDup c q ts d config sel :
  selected c q ts d config sel → NoDup (s_id <$> (injected sel ++ near_misses sel)).
Proof.
  intros Hsel. destruct (selection_ids _ _ _ Hsel) as (Hnd & Hnear & _).
  eapply sublist_NoDup; [exact Hnd|]. apply fmap_sublist, sublist_app; [done|].
  rewrite Hnear. unfold slice_to. destruct (_ <? 0); apply sublist_take.
Qed.

(** The members of the batch by what they say. *)
Lemma batch_members c sel batch e :
  p_mode c = gate → row_key <$> batch ≡ₚ entry_key <$> log_entries c sel →
  e ∈ members batch → i_outcome e = None ∧
    ((i_shown_as e ≠ shown_near_miss ∧ i_memory_id e ∈ s_id <$> injected sel) ∨
     (i_shown_as e = shown_near_miss ∧ i_memory_id e ∈ s_id <$> near_misses sel)).
Proof.
  intros Hg Hp [Hcut He]%list_elem_of_filter.
  apply (list_elem_of_fmap_2 row_key) in He. rewrite Hp, gate_keys in He by done. unfold row_key in He.
  destruct He as [(s & Hs & E)|[(s & Hs & E)|(s & Hs & E)]]; injection E as E1 E2 E3.
  - split; [done|]. left. rewrite E1, E2. split; [by destruct (pin _)|by apply list_elem_of_fmap_2].
  - split; [done|]. right. rewrite E1. split; [done|by apply list_elem_of_fmap_2].
  - congruence.
Qed.

Lemma members_batch c sel batch x :
  p_mode c = gate → row_key <$> batch ≡ₚ entry_key <$> log_entries c sel →
  shown_key sel x → x.1.2 ≠ shown_budget_cut →
  ∃ e, e ∈ members batch ∧ i_memory_id e = x.1.1 ∧ i_shown_as e = x.1.2.
Proof.
  intros Hg Hp Hx Hc. apply gate_keys with (c := c) in Hx; [|done]. rewrite <- Hp in Hx.
  apply list_elem_of_fmap in Hx as (e & -> & He). exists e. split; [|done]. by apply list_elem_of_filter.
Qed.

Lemma prepare_batch c q w r w' :
  wf (w_db w) → log_wf (w_db w) → p_mode c = gate → fresh_injection (w_db w) (pr_injection_id r) →
  prepare_once c q w = (Ok r, w') →
  ∃ sel batch, load_batch (w_db w') (pr_injection_id r) = batch ∧
    pr_injected r = injected sel ∧ pr_near_misses r = near_misses sel ∧
    row_key <$> batch ≡ₚ entry_key <$> log_entries c sel ∧ NoDup (i_memory_id <$> members batch).
Proof.
  intros Hwf Hlog Hg Hf H. apply prepare_once_log in H as (row & config & sel & new & _ & _ & Hsel & Hi & Hn & Hl & _); [|done..].
  pose proof (load_batch_perm _ _ _ _ _ _ _ _ _ Hlog Hf Hl) as Hb.
  exists sel, (load_batch (w_db w') (pr_injection_id r)). split_and!; [done..| |].
  - rewrite Hb. destruct Hl as (Hrows & _). by apply log_row_keys in Hrows as [-> _].
  - assert (Permutation (members (load_batch (w_db w') (pr_injection_id r))) (members new)) as Hm
      by (unfold members; by rewrite Hb).
    rewrite Hm, (gate_members _ _ _ _ _ _ _ _ _ Hg Hl). by eapply shown_NoDup.
Qed.

(** C34: prepare and commit fit together.  The batch a gate preparation leaves
    accepts exactly the choices that partition the cards it showed: removals
    of injected cards, "never" also for near misses, additions of near misses,
    nothing twice.  No other state of the log can make the first commit fail
    to plan. *)
Theorem prepare_commit_composes c q w r w' cc :
  wf (w_db w) → log_wf (w_db w) → p_mode c = gate → fresh_injection (w_db w) (pr_injection_id r) →
  prepare_once c q w = (Ok r, w') →
  (∃ planned, plan_commit (load_batch (w_db w') (pr_injection_id r)) cc = Ok planned) ↔ gate_choices r cc.
Proof.
  intros Hwf Hlog Hg Hf H. destruct (prepare_batch _ _ _ _ _ Hwf Hlog Hg Hf H)
    as (sel & batch & -> & Hi & Hn & Hp & Hnd). setoid_rewrite plan_commit_iff. split.
  - intros (planned & [_ Hr Ha Hd Hri Hai] & _ & _). split; [done..| |]; rewrite ?Hi, ?Hn.
    + intros x Hx. destruct (Hri x Hx) as (e & He & <- & Hnev).
      apply (batch_members _ _ _ _ Hg Hp) in He as (_ & [[_ ?]|[? ?]]); auto.
    + intros id Hid. destruct (Hai id Hid) as (e & He & <- & Hs).
      apply (batch_members _ _ _ _ Hg Hp) in He as (_ & [[? _]|[_ ?]]); done.
  - intros [Hr Ha Hd Hri Hai]. rewrite Hi, Hn in *. eexists. split_and!; [split; try done| |reflexivity].
    + intros x Hx. destruct (Hri x Hx) as [(s & Es & Hs)%list_elem_of_fmap|[(s & Es & Hs)%list_elem_of_fmap Hnev]].
      * edestruct (members_batch c sel batch) as (e & He & Hid & Hsh); [done|done|left; by exists s|cbn; by destruct (pin _)|].
        exists e. split_and!; [done|cbn in Hid; congruence|]. cbn in Hsh. rewrite Hsh. by destruct (pin _).
      * edestruct (members_batch c sel batch) as (e & He & Hid & Hsh); [done|done|right; left; by exists s|done|].
        exists e. split_and!; [done|cbn in Hid; congruence|done].
    + intros id Hid. apply Hai in Hid as (s & -> & Hs)%list_elem_of_fmap.
      edestruct (members_batch c sel batch) as (e & He & Hid & Hsh); [done|done|right; left; by exists s|done|].
      by exists e.
    + intros e He. apply (batch_members _ _ _ _ Hg Hp) in He as (Ho & _). unfold compatible.
      rewrite Ho. by destruct (wanted cc e).
Qed.

Lemma logged_entry c ts inj ver a entries d d' new en :
  log_wf d → logged c ts inj ver a entries d d' new → en ∈ entries →
  ∃ e, (∃ k, events d' !! k = Some e) ∧ row_key e = entry_key en ∧ i_injection_id e = inj.
Proof.
  intros Hlog Hl Hen. pose proof Hl as (Hrows & _).
  apply list_elem_of_lookup in Hen as [i Hi]. destruct (Forall2_lookup_l _ _ _ _ _ Hrows Hi) as (e & He & Hrow).
  exists e. split.
  - apply (logged_rows _ _ _ _ _ _ _ _ _ _ Hlog Hl). left. by eapply list_elem_of_lookup_2.
  - destruct Hrow as (uid & score & _ & ->). done.
Qed.

Lemma two_elements {A} (l : list A) x y : x ∈ l → y ∈ l → x ≠ y → ∃ e1 e2 l', l = e1 :: e2 :: l'.
Proof.
  destruct l as [|a [|b l]]; [by intros ?%elem_of_nil| |by eauto].
  intros ->%list_elem_of_singleton ->%list_elem_of_singleton. done.
Qed.

(** A near miss that the budget cut cannot take feedback.  When a near
    miss reaches the score threshold it is also logged as a budget cut, and
    every later feedback on it, a citation or a mid-thread addition, raises
    "feedback membership is not unique" and changes nothing. *)
Theorem near_miss_cut_stuck c q w r w' row config s fc w2 :
  wf (w_db w) → log_wf (w_db w) → prepare_once c q w = (Ok r, w') →
  active_rows (w_db w) = [row] → config_of_row row = Ok config →
  s ∈ pr_near_misses r → fle (tau (params config)) (s_score s) = true →
  fc_injection_id fc = pr_injection_id r → fc_memory_id fc = s_id s → w_db w2 = w_db w' →
  (feedback fc w2).1 = Err (DecisionStateError "feedback membership is not unique") ∧
  w_db (feedback fc w2).2 = w_db w'.
Proof.
  intros Hwf Hlog H Hrow Hconf Hs Ht Hinj Hmem Hw2.
  apply prepare_once_log in H as (row' & config' & sel & new & Hrow' & Hconf' & Hsel & _ & Hn & Hl & _); [|done..].
  assert (config' = config) as -> by congruence.
  destruct (selection_ids _ _ _ Hsel) as (_ & Hnear & Hcuts). rewrite Hn in Hs.
  assert (s ∈ budget_cuts sel) as Hc.
  { rewrite Hcuts. apply list_elem_of_filter. split; [done|]. rewrite Hnear in Hs. by eapply elem_slice_to. }
  destruct (logged_entry _ _ _ _ _ _ _ _ _ (near_entry c s) Hlog Hl) as (x & Hx & Kx & Ix).
  { unfold log_entries. rewrite !elem_of_app. right; left. by apply list_elem_of_fmap_2. }
  destruct (logged_entry _ _ _ _ _ _ _ _ _ (cut_entry s) Hlog Hl) as (y & Hy & Ky & Iy).
  { unfold log_entries. rewrite !elem_of_app. right; right; left. by apply list_elem_of_fmap_2. }
  unfold row_key, entry_key in Kx, Ky. injection Kx as Mx Sx _. injection Ky as My Sy _.
  assert (∀ e, (∃ k, events (w_db w') !! k = Some e) → i_injection_id e = pr_injection_id r →
    i_memory_id e = s_id s → e ∈ feedback_rows (w_db w2) fc) as Hin.
  { intros e He Hi Hm. unfold feedback_rows. apply list_elem_of_filter.
    rewrite Hw2, elem_rows. split; [split; congruence|done]. }
  destruct (two_elements (feedback_rows (w_db w2) fc) x y) as (e1 & e2 & l & Hrows);
    [by apply Hin|by apply Hin|intros ->; cbn in *; congruence|].
  destruct (feedback_not_unique fc w2 e1 e2 l Hrows) as (w3 & -> & Hdb). split; [done|]. by rewrite <- Hw2.
Qed.

(** Retrieval is exact.  The regular candidates are, each once, exactly the
    eligible unpinned memories that are among the [candidate_pool] nearest
    vectors, among the fifty best text matches, or currently in the thread; a
    memory outside the vector pool is no nearer than any inside it, and the
    pool is full; loading fails when a current memory is not eligible. *)
Theorem candidates_exact c q pool w pins regs w' :
  wf (w_db w) → load_candidates c q pool w = (Ok (pins, regs), w') →
  let d := w_db w in
  w' = w ∧ NoDup (memory_id <$> regs) ∧
  (∀ s, s ∈ pins → ∃ u, u ∈ eligible_units d c true ∧ s = candidate_from_row d [lit "pinned"] u) ∧
  (∀ s, s ∈ regs → ∃ u, u ∈ eligible_units d c false ∧ s = candidate_from_row d (pool_sources s) u) ∧
  (∀ u, u ∈ eligible_units d c false →
     (∃ s, s ∈ regs ∧ memory_id s = m_id u) ↔
     u ∈ vector_rows d c q pool ∨ u ∈ fts_rows d c ∨ m_id u ∈ p_current c) ∧
  (∀ v, v ∈ eligible_units d c false → v ∉ vector_rows d c q pool →
     length (vector_rows d c q pool) = Z.to_nat pool ∧
     ∀ u, u ∈ vector_rows d c q pool → distance_order q u v = true) ∧
  (length (fts_rows d c) ≤ FTS_CANDIDATE_POOL)%nat ∧
  (∀ id, id ∈ p_current c → ∃ u, m_id u = id ∧ eligible d c u = true).
Proof.
  intros Hwf (-> & -> & -> & Hcur)%load_candidates_ok d. subst d. set (d := w_db w) in *. split_and!; [done|..].
  - apply regular_pool_NoDup.
  - intros s (u & -> & Hu)%list_elem_of_fmap. rewrite sort_by_perm in Hu. eauto.
  - intros s (u & Hu & _ & _ & _ & Hs)%regular_pool_elem. eauto.
  - intros u Hu. by apply regular_pool_iff.
  - intros v Hv Hn. split; [by eapply vector_rows_nearest|]. intros u Hu. by eapply vector_rows_nearest.
  - unfold fts_rows. destruct (search_terms c); [cbn; lia|]. rewrite length_take. lia.
  - intros id Hid. destruct (Hcur id Hid) as (u & Hu & [He|He]); exists u; split; try done;
      by apply eligible_elem in He as [? _].
Qed.
End composition.
