(* ===== verification/PrepareSamples.v ===== *)
(** * Preparations of a concrete thread

    One active memory, one active scorer configuration, no other session: the
    runs that show the hypotheses of the theorems on preparing can hold. *)
From S2P Require Import Prelude PyStr PyFloat PyJson PyTime Ids Axes Scorer Features Selection.
From S2P Require Import Renderer Embeddings Store MemoryDb Decisions DecisionsFacts Prepare PrepareFacts.
Open Scope Z_scope.

Definition flat (n : nat) : list float := repeat f1 n.

Definition sample_vector (n : nat) : MemoryUnit := {|
  m_id := 7; m_principal_id := lit "p"; m_label := lit "tea"; m_body := lit "green tea";
  m_kind := Kfact; m_keywords := []; m_embedding := flat n; m_embedding_model := lit "m";
  m_project_key := None; m_thread_origin := None; m_origin_thread_id := None;
  m_origin_path := None; m_origin_location := None; m_origin_locations := []; m_run_id := None;
  m_origin_agent := None; m_pin := false; m_status := Sactive; m_revision := 1; m_stats := [];
  m_bias := f0; m_created_at := 0; m_updated_at := 0 |}.

Definition sample_row : ScorerConfigRow := {|
  sc_version := lit "v1";
  sc_weights := JObj [(lit "sem", JFloat (f_ratio 1 2)); (lit "kw", JFloat (f_ratio 1 8));
    (lit "time", JFloat (f_ratio 1 8)); (lit "proj", JFloat (f_ratio 1 8));
    (lit "freq", JFloat (f_ratio 1 16)); (lit "hist", JFloat (f_ratio 1 16))];
  sc_params := JObj [(lit "tau", JFloat f0); (lit "near_miss_k", JInt 2);
    (lit "memory_context_share", JFloat (f_ratio 1 10)); (lit "half_life_time_days", JInt 30);
    (lit "half_life_hist_days", JInt 30); (lit "candidate_pool", JInt 50)];
  sc_created_at := 0; sc_active := true |}.

Definition prepare_db (n : nat) : db :=
  let d := put_head (sample_vector n) (root_revision (sample_vector n) (sample_uid 1)) empty_db in {|
  units := units d; revisions := revisions d; edges := ∅; items := ∅; decisions := ∅; threads := ∅;
  events := ∅; next_event_id := 1; scorer_configs := {[lit "v1" := sample_row]};
  curator_verdicts := ∅; curator_actions := ∅ |}.

Definition prepare_world (n : nat) : world :=
  {| w_db := prepare_db n; w_tick := 0; w_tx_now := 5; w_in_tx := false |}.

Definition sample_prepare (mode : prepare_mode) (current : list uuid) (tokens : Z) : PrepareCommand := {|
  p_thread_id := 3; p_agent_id := lit "a"; p_machine_id := lit "m"; p_principal_id := lit "p";
  p_project_key := None; p_location_path := None; p_current_location := None; p_agent_kind := lit "k";
  p_prompt := lit "tea?"; p_model_context_tokens := tokens; p_mode := mode; p_current := current;
  p_confirmed := []; p_excluded := [] |}.

#[local] Instance sample_axes : AxisDecoder := {| decode_axis := λ _, None |}.
#[local] Instance sample_fts : FullText := {| fts_rank := λ _ _, Some f1 |}.
#[local] Instance quiet : Concurrency := {|
  others_commit := λ _ d, d; hidden_thread := λ _, false; serialization_failure := λ _, false |}.
#[local] Instance flat_provider : EmbeddingProvider := {|
  provider_embed := λ _, Ok [JFloat <$> flat 1536]; provider_model := lit "m"; provider_dimensions := 1536 |}.
#[local] Existing Instances sample_env sample_postgres sample_tokenizer ascii_unicode sample_libm.

Definition gate_command := sample_prepare gate [] 1000.
Definition gate_run := prepare_once gate_command (flat 2) (prepare_world 2).
Definition tight_run := prepare_once (sample_prepare gate [] 50) (flat 2) (prepare_world 2).
Definition full_run := prepare gate_command (prepare_world 1536).


Lemma prepare_db_wf n : wf (prepare_db n).
Proof.
  apply (wf_tables (put_head (sample_vector n) (root_revision (sample_vector n) (sample_uid 1)) empty_db));
    [done..|]. apply wf_put_head; [apply wf_empty|]. vm_compute. repeat split.
Qed.

Lemma prepare_db_log n : log_wf (prepare_db n).
Proof.
  split.
  - intros k e H. cbn in H. by rewrite lookup_empty in H.
  - intros k [e H]. cbn in H. by rewrite lookup_empty in H.
Qed.

Lemma prepare_db_fresh inj n : fresh_injection (prepare_db n) inj.
Proof. intros k e H. cbn in H. by rewrite lookup_empty in H. Qed.

Lemma quiet_stable P : stable P.
Proof. by intros n d. Qed.

Lemma quiet_calm : calm.
Proof. by intros n. Qed.

Lemma prepare_refines_witness :
  is_ok full_run.1 = true ∧
  ∃ k d, (k ≤ 1)%nat ∧ prepare_step gate_command d full_run.1 (w_db full_run.2).
Proof.
  split; [vm_compute; reflexivity|].
  destruct (prepare_refines gate_command (prepare_world 1536) full_run.1 full_run.2 (quiet_stable _)
    (quiet_stable _) (prepare_db_wf _) (prepare_db_log _) (surjective_pairing _))
    as (k & d & _ & _ & H & _ & _ & Hk).
  exists k, d. split; [apply Hk, quiet_calm|exact H].
Defined.

Lemma ok_run {A} (p : res exn A * world) : is_ok p.1 = true → ∃ a w, p = (Ok a, w).
Proof. destruct p as [[a|e] w]; [by exists a, w|done]. Qed.

Lemma full_run_ok : ∃ r w1, prepare gate_command (prepare_world 1536) = (Ok r, w1).
Proof. apply ok_run. vm_compute. reflexivity. Qed.

Lemma prepare_one_shot_witness :
  ∃ r w1 e w2, prepare gate_command (prepare_world 1536) = (Ok r, w1) ∧ prepare gate_command w1 = (Err e, w2).
Proof.
  destruct full_run_ok as (r & w1 & E).
  destruct (prepare_ok gate_command (prepare_world 1536) r w1 (quiet_stable _)
    (quiet_stable _) (prepare_db_wf _) (prepare_db_log _) E) as (k & d & q & _ & _ & Hw & Hl).
  destruct (prepare_one_shot gate_command (prepare_world 1536) r w1 (quiet_stable _) (quiet_stable _)
    (quiet_stable _) (prepare_db_wf _) (prepare_db_log _) E) as [Hs Hagain].
  destruct (prepare gate_command w1) as [r2 w2] eqn:E2.
  destruct (Hagain gate_command w1 r2 w2 eq_refl eq_refl Hw Hl Hs E2) as (e & _ & -> & _).
  exists r, w1, e, w2. split; [exact E|exact E2].
Defined.

Lemma prepare_only_eligible_witness :
  ∃ r, gate_run.1 = Ok r ∧ ∀ id, id ∈ s_id <$> pr_injected r → may_be_shown gate_command (prepare_db 2) id.
Proof.
  assert (is_ok gate_run.1 = true) as Hok by (vm_compute; reflexivity).
  destruct gate_run as [[r|?] w1] eqn:E; [|discriminate Hok]. exists r. split; [reflexivity|].
  destruct (prepare_only_eligible gate_command (flat 2) (prepare_world 2) r w1 (prepare_db_wf _)
    (prepare_db_log _) E) as (H & _).
  intros id Hid. apply H. rewrite fmap_app. apply elem_of_app. left. exact Hid.
Defined.

Definition sample_choices (inj : uuid) : CommitCommand :=
  {| ic_injection_id := inj; ic_removed := []; ic_added_back := [] |}.

Lemma prepare_commit_composes_witness :
  ∃ r planned, gate_run.1 = Ok r ∧
    plan_commit (load_batch (w_db gate_run.2) (pr_injection_id r)) (sample_choices (pr_injection_id r)) = Ok planned.
Proof.
  assert (is_ok gate_run.1 = true) as Hok by (vm_compute; reflexivity).
  destruct gate_run as [[r|?] w1] eqn:E; [|discriminate Hok]. exists r.
  destruct (proj2 (prepare_commit_composes gate_command (flat 2) (prepare_world 2) r w1
    (sample_choices (pr_injection_id r)) (prepare_db_wf _) (prepare_db_log _) eq_refl (prepare_db_fresh _ _) E))
    as [planned Hp].
  - split; cbn; [apply NoDup_nil_2|apply NoDup_nil_2|..]; intros x Hx; apply elem_of_nil in Hx; destruct Hx.
  - exists planned. split; [reflexivity|exact Hp].
Defined.

Definition tight_near : option ScoredCandidate :=
  match tight_run.1 with Ok r => head (pr_near_misses r) | Err _ => None end.
Definition tight_config : option ScorerConfig :=
  match config_of_row sample_row with Ok c => Some c | Err _ => None end.

(** The one memory does not fit the five tokens: a near miss, cut by budget. *)
Lemma near_miss_cut_stuck_witness :
  ∃ r s, tight_run.1 = Ok r ∧ s ∈ pr_near_misses r ∧
    (feedback {| fc_injection_id := pr_injection_id r; fc_memory_id := s_id s; fc_signal := sig_mid_thread_added |}
       tight_run.2).1 = Err (DecisionStateError "feedback membership is not unique").
Proof.
  assert (match tight_near, tight_config with
          | Some s, Some c => fle (tau (params c)) (s_score s) | _, _ => false end = true) as Hs
    by (vm_compute; reflexivity).
  assert (active_rows (prepare_db 2) = [sample_row]) as Hrow by (vm_compute; reflexivity).
  unfold tight_near, tight_config in Hs.
  destruct (config_of_row sample_row) as [c|] eqn:Ec; [|destruct tight_run.1 as [r|]; [destruct (head _)|]; discriminate Hs].
  destruct tight_run as [[r|?] w1] eqn:E; [|discriminate Hs]. cbn [fst snd] in *.
  destruct (pr_near_misses r) as [|s l] eqn:En; [discriminate Hs|]. cbn [head] in Hs.
  exists r, s. split; [reflexivity|]. rewrite En. split; [left|].
  refine (proj1 (near_miss_cut_stuck (sample_prepare gate [] 50) (flat 2) (prepare_world 2) r w1 sample_row c s
    _ w1 (prepare_db_wf _) (prepare_db_log _) E Hrow Ec _ Hs _ _ _)); try reflexivity.
  rewrite En. left.
Defined.

Definition loaded := load_candidates gate_command (flat 2) 50 (prepare_world 2).

Lemma candidates_exact_witness :
  ∃ pins regs, loaded.1 = Ok (pins, regs) ∧ NoDup (memory_id <$> regs).
Proof.
  assert (is_ok loaded.1 = true) as Hok by (vm_compute; reflexivity).
  destruct loaded as [[[pins regs]|?] w1] eqn:E; [|discriminate Hok]. exists pins, regs. split; [reflexivity|].
  exact (proj1 (proj2 (candidates_exact gate_command (flat 2) 50 (prepare_world 2) pins regs w1
    (prepare_db_wf _) E))).
Defined.
