(* ===== verification/Learner.v ===== *)
(** * The learner's fit and replay: [src/src/spine/learner/model.py]

    The pure mathematics behind a proposed scorer configuration: labels from
    recorded outcomes, a holdout of the newest gates, a pairwise fit by
    projected gradient with its bounded coordinate fits, and the replay that
    compares a challenger with the incumbent.  Floats are binary64 in the
    source's order of evaluation, actor weights are decimals, and the bounded
    [for] loops count their iterations down on a natural number. *)
From Stdlib Require Import SpecFloat.
From S2P Require Import Prelude PyStr PyFloat PyDecimal PyJson Ids Axes Scorer Store.
Open Scope Z_scope.

(** ** Data *)
Record LearningExample := {
  le_event_uid : str;
  le_injection_id : uuid;
  le_memory_id : uuid;
  le_ts : Z;
  le_features : list float;
  le_baseline_bias : float;
  le_target_injected : bool;
  le_actor_weight : dec;
  le_shown_as : ShownAs;
  le_body_tokens : Z;
  le_location_feature : option float;
  le_location_weight : float;
  le_thread_feature : option float;
  le_thread_id : option uuid;
  le_where_feature : option float;
  le_where_weight : float;
  le_project_key : option str;
}.

Definition recorded_injected (e : LearningExample) : bool :=
  match le_shown_as e with shown_near_miss | shown_budget_cut => false | _ => true end.

Inductive boundary_kind := valuable_budget_cut | marginal_uncited | marginal_removed | pin_overflow.

Record ShareBoundary := {
  sb_event_uid : str;
  sb_injection_id : uuid;
  sb_required_share : float;
  sb_target_at_least : bool;
  sb_actor_weight : dec;
  sb_kind : boundary_kind;
}.

Record FitSettings := { pair_margin : float; bias_l2 : float }.

Record FitResult := {
  fr_weights : list float;
  fr_thread_weight : float;
  fr_where_weight : float;
  fr_tau : float;
  fr_memory_context_share : float;
  fr_share_tau_active : bool;
  fr_bias_offsets : list (uuid * float);
  fr_pair_count : Z;
  fr_iterations : Z;
  fr_objective : float;
  fr_project_offsets : list (str * list (string * float));
}.

Record ReplayScore := {
  disagreements : Z;
  weighted_disagreements : dec;
  injected_tokens : Z;
  share_disagreements : Z;
  weighted_share_disagreements : dec;
}.

(** ** Labels and hygiene *)
Definition one_of (l : list string) (s : str) : bool := existsb (λ n, bool_decide (s = lit n)) l.

Definition EXPLICIT_POSITIVE_OUTCOMES : list string := ["added_back"; "cited"; "mid_thread_added"].
Definition NEGATIVE_OUTCOMES : list string := ["removed:not_relevant"; "removed:never"; "mid_thread_removed"].
Definition PASSIVE_POSITIVE_OUTCOMES : list string := ["kept"; "auto_entered"].

Definition disposition (outcome : option str) (actor_class : str) (passive_discount : dec) :
    option (bool * dec) :=
  let among l := match outcome with Some o => one_of l o | None => false end in
  if among EXPLICIT_POSITIVE_OUTCOMES then Some (true, d1)
  else if among NEGATIVE_OUTCOMES then Some (false, d1)
  else if bool_decide (actor_class = lit "human") then
    if among ["kept"%string] then Some (true, d1) else None
  else if bool_decide (actor_class = lit "passive") && among PASSIVE_POSITIVE_OUTCOMES
  then Some (true, passive_discount) else None.

Section identity.
Context `{Unicode}.

Definition reserved_identity : list string := ["test"; "fixture"; "verification"].

Definition normalize_identity (value : str) : str := replace_char 95 [45%N] (py_lower (strip value)).

Definition identity_value_is_excluded (value : str) : bool :=
  let normalized := normalize_identity value in
  one_of reserved_identity normalized
  || existsb (one_of reserved_identity)
       (filter (λ part, part ≠ []) (split_on 45 (replace_char 58 [45%N] normalized))).

Definition identity_is_excluded (principal_id machine_id : str) : bool :=
  let literal_principal := py_lower (strip principal_id) in
  let literal_machine := py_lower (strip machine_id) in
  identity_value_is_excluded principal_id
  || identity_value_is_excluded machine_id
  || bool_decide (literal_machine = lit "d1-relay")
  || startswith (lit "nocturne-deploy-verify-") literal_principal.
End identity.

(** ** The holdout *)

(** [max(l)] of a non-empty list of integers. *)
Definition zmax (x : Z) (l : list Z) : Z := foldl Z.max x l.

(** [math.ceil]. *)
Definition py_ceil (x : float) : res pyexn Z :=
  match x with
  | S754_zero _ => Ok 0
  | S754_finite s m e =>
      let z := cond_Zopp s (Zpos m) in
      Ok (if 0 <=? e then z * 2 ^ e else - ((- z) / 2 ^ (- e)))
  | S754_infinity _ => Err (OverflowError "cannot convert float infinity to integer")
  | S754_nan => Err (ValueError "cannot convert float NaN to integer")
  end.

Definition newest_ts (rows : list LearningExample) : Z :=
  match le_ts <$> rows with [] => 0 | t :: ts => zmax t ts end.

(** The sort key of a gate: its newest row, then its identifier. *)
Definition gate_leb (g g' : uuid * list LearningExample) : bool :=
  let t := newest_ts g.2 in let t' := newest_ts g'.2 in
  (t <? t') || (t =? t') && (g.1 <=? g'.1)%N.

Definition split_gates (examples : list LearningExample) (holdout_fraction : float) :
    res pyexn (list LearningExample * list LearningExample * Z) :=
  let gates := sort_by gate_leb (group_by le_injection_id examples) in
  guard_ (negb (zlen gates <? 2)) (ValueError "at least two eligible gates are required");;
  c ← py_ceil (fmul (f_of_Z (zlen gates)) holdout_fraction);
  let holdout_count := Z.min (Z.max 1 c) (zlen gates - 1) in
  let training_gates := slice_to (- holdout_count) gates in
  let holdout_gates := drop (Z.to_nat (zlen gates - holdout_count)) gates in
  let training := training_gates ≫= snd in
  let holdout := holdout_gates ≫= snd in
  Ok (training, holdout, newest_ts training).

(** ** The pairwise objective *)
Definition training_pair := (LearningExample * LearningExample * float)%type.

Definition uid_leb (a b : LearningExample) : bool := str_leb (le_event_uid a) (le_event_uid b).

Definition gate_pairs (rows : list LearningExample) : list training_pair :=
  let positives := sort_by uid_leb (filter (λ row, le_target_injected row = true) rows) in
  let negatives := sort_by uid_leb (filter (λ row, le_target_injected row = false) rows) in
  positive ← positives; negative ← negatives;
  [(positive, negative, float_of_dec (dec_min (le_actor_weight positive) (le_actor_weight negative)))].

Definition pairs (examples : list LearningExample) : list training_pair :=
  let grouped := group_by le_injection_id examples in
  injection_id ← sort_by N.leb grouped.*1;
  gate_pairs (default [] (aget injection_id grouped)).

(** [_linearized]. *)
Definition linearized (e : LearningExample) (tw ww : float) : list float * float :=
  let bias := le_baseline_bias e in
  let '(scale, constant) := match le_location_feature e with
    | Some v => (fmul f1 (fsub f1 (le_location_weight e)), fadd bias (fmul (le_location_weight e) v))
    | None => (f1, bias)
    end in
  let '(scale, constant) := match le_thread_feature e with
    | Some v => (fmul scale (fsub f1 tw),
                 fadd (fadd bias (fmul (fsub f1 tw) (fsub constant bias))) (fmul tw v))
    | None => (scale, constant)
    end in
  let '(scale, constant) := match le_where_feature e with
    | Some v => (fmul scale (fsub f1 ww),
                 fadd (fadd bias (fmul (fsub f1 ww) (fsub constant bias))) (fmul ww v))
    | None => (scale, constant)
    end in
  (fmul scale <$> le_features e, constant).

(** [fsum(a * b for a, b in zip(l, l', strict=True))]. *)
Definition dot (l l' : list float) : res pyexn float :=
  products ← zip_strict fmul l l'; fsum products.

(** [tuple(a - b for a, b in zip(l, l', strict=True))]. *)
Definition vsub (l l' : list float) : res pyexn (list float) :=
  zip_strict fsub l l'.

Definition example_score (e : LearningExample) (weights : list float) (tw ww : float) :
    res pyexn float :=
  let '(features, constant) := linearized e tw ww in
  s ← dot weights features; Ok (fadd s constant).

(** [for i, d in enumerate(delta): gradient[i] += factor * d]. *)
Fixpoint add_scaled (factor : float) (gradient delta : list float) : res pyexn (list float) :=
  match gradient, delta with
  | _, [] => Ok gradient
  | [], _ :: _ => Err (IndexError "list index out of range")
  | g :: gradient, d :: delta =>
      rest ← add_scaled factor gradient delta; Ok (fadd g (fmul factor d) :: rest)
  end.

(** [biases[memory_id]]. *)
Definition bias_of (biases : list (uuid * float)) (memory_id : uuid) : res pyexn float :=
  match aget memory_id biases with Some b => Ok b | None => Err (KeyError []) end.

Definition f2 : float := f_of_Z 2.
Definition FEATURE_COUNT : nat := 6.

(** One pair's contribution to the objective and the gradients. *)
Definition pair_step (weights : list float) (biases : list (uuid * float)) (tw ww : float)
    (settings : FitSettings) (st : float * list float * list (uuid * float)) (p : training_pair) :
    res pyexn (float * list float * list (uuid * float)) :=
  let '(objective, weight_gradient, bias_gradient) := st in
  let '(positive, negative, actor_weight) := p in
  let '(positive_features, positive_constant) := linearized positive tw ww in
  let '(negative_features, negative_constant) := linearized negative tw ww in
  feature_delta ← vsub positive_features negative_features;
  difference ← dot weights feature_delta;
  let difference := fadd difference (fsub positive_constant negative_constant) in
  bp ← bias_of biases (le_memory_id positive);
  bn ← bias_of biases (le_memory_id negative);
  let difference := fadd difference (fsub bp bn) in
  let hinge := fsub (pair_margin settings) difference in
  if fle hinge f0 then Ok st
  else
    let objective := fadd objective (fmul (fmul actor_weight hinge) hinge) in
    let factor := fmul (fmul (fneg f2) actor_weight) hinge in
    weight_gradient ← add_scaled factor weight_gradient feature_delta;
    gp ← bias_of bias_gradient (le_memory_id positive);
    let bias_gradient := aset (le_memory_id positive) (fadd gp factor) bias_gradient in
    gn ← bias_of bias_gradient (le_memory_id negative);
    let bias_gradient := aset (le_memory_id negative) (fsub gn factor) bias_gradient in
    Ok (objective, weight_gradient, bias_gradient).

Definition objective_and_gradient (weights : list float) (biases : list (uuid * float))
    (ps : list training_pair) (tw ww : float) (settings : FitSettings) :
    res pyexn (float * list float * list (uuid * float)) :=
  let bias_gradient := (λ kv : uuid * float, (kv.1, fmul (fmul f2 (bias_l2 settings)) kv.2)) <$> biases in
  squares ← fsum_squares biases.*2;
  res_fold (pair_step weights biases tw ww settings)
    (fmul (bias_l2 settings) squares, replicate FEATURE_COUNT f0, bias_gradient) ps.

Definition objective_of (weights : list float) (biases : list (uuid * float)) (ps : list training_pair)
    (tw ww : float) (settings : FitSettings) : res pyexn float :=
  r ← objective_and_gradient weights biases ps tw ww settings; Ok r.1.1.

(** ** The bounded coordinate fits *)
Definition MAX_ITERATIONS : Z := 10000.
Definition LOCALITY_CEILING : float := fsub f1 (f_ratio 1 (10 ^ 12)).
Definition CHANGE_TOLERANCE : float := f_ratio 1 (10 ^ 11).

(** [min(max(x, 0.0), 1.0 - 1e-12)]. *)
Definition clamp_locality (x : float) : float := fmin (fmax x f0) LOCALITY_CEILING.

Section coordinate.
(** The score of an example and the whole objective as functions of the one
    coefficient being fitted. *)
Context (score : LearningExample → float → res pyexn float).
Context (biases : list (uuid * float)) (settings : FitSettings).

Definition coordinate_gradient_step (w gradient : float) (pd : training_pair * float) : res pyexn float :=
  let '(positive, negative, actor_weight, derivative) := pd in
  sp ← score positive w;
  sn ← score negative w;
  bp ← bias_of biases (le_memory_id positive);
  bn ← bias_of biases (le_memory_id negative);
  let difference := fadd (fsub sp sn) (fsub bp bn) in
  let hinge := fsub (pair_margin settings) difference in
  Ok (if flt f0 hinge
      then fadd gradient (fmul (fmul (fmul (fneg f2) actor_weight) hinge) derivative) else gradient).

Fixpoint coordinate_loop (fuel : nat) (iteration : Z) (step w : float) (pds : list (training_pair * float)) :
    res pyexn (float * Z) :=
  match fuel with
  | O => Ok (w, iteration)
  | S fuel =>
      gradient ← res_fold (coordinate_gradient_step w) f0 pds;
      let next := clamp_locality (fsub w (fmul step gradient)) in
      if fle (fabs (fsub next w)) CHANGE_TOLERANCE then Ok (next, iteration + 1)
      else coordinate_loop fuel (iteration + 1) step next pds
  end.

Definition fit_coordinate (derivative : LearningExample → res pyexn float)
    (objective : float → res pyexn float) (ps : list training_pair) (initial : float) :
    res pyexn (float * Z * float) :=
  let w := clamp_locality initial in
  derivatives ← res_map (λ p : training_pair, dp ← derivative p.1.1; dn ← derivative p.1.2; Ok (fsub dp dn)) ps;
  let pds := zip ps derivatives in
  total ← fsum ((λ pd : training_pair * float, fmul (fmul pd.1.2 pd.2) pd.2) <$> pds);
  let lipschitz := fmul f2 total in
  if fle lipschitz f0 then (o ← objective w; Ok (w, 0, o))
  else
    step ← pydiv f1 lipschitz;
    '(w, iterations) ← coordinate_loop (Z.to_nat MAX_ITERATIONS) 0 step w pds;
    o ← objective w; Ok (w, iterations, o).
End coordinate.

Definition thread_derivative (e : LearningExample) (weights : list float) (ww : float) : res pyexn float :=
  match le_thread_feature e with
  | None => Ok f0
  | Some tf =>
      pre_thread ← dot weights (le_features e);
      let pre_thread := match le_location_feature e with
        | Some v => fadd (fmul (fsub f1 (le_location_weight e)) pre_thread) (fmul (le_location_weight e) v)
        | None => pre_thread end in
      Ok (fmul (fsub f1 ww) (fsub tf pre_thread))
  end.

Definition where_derivative (e : LearningExample) (weights : list float) (tw : float) : res pyexn float :=
  match le_where_feature e with
  | None => Ok f0
  | Some wf =>
      pre_where ← dot weights (le_features e);
      let pre_where := match le_location_feature e with
        | Some v => fadd (fmul (fsub f1 (le_location_weight e)) pre_where) (fmul (le_location_weight e) v)
        | None => pre_where end in
      let pre_where := match le_thread_feature e with
        | Some v => fadd (fmul (fsub f1 tw) pre_where) (fmul tw v)
        | None => pre_where end in
      Ok (fsub wf pre_where)
  end.

Definition fit_thread_weight (weights : list float) (biases : list (uuid * float)) (ps : list training_pair)
    (initial ww : float) (settings : FitSettings) : res pyexn (float * Z * float) :=
  fit_coordinate (λ e tw, example_score e weights tw ww) biases settings
    (λ e, thread_derivative e weights ww)
    (λ tw, objective_of weights biases ps tw ww settings) ps initial.

Definition fit_where_weight (weights : list float) (biases : list (uuid * float)) (ps : list training_pair)
    (initial tw : float) (settings : FitSettings) : res pyexn (float * Z * float) :=
  fit_coordinate (λ e ww, example_score e weights tw ww) biases settings
    (λ e, where_derivative e weights tw)
    (λ ww, objective_of weights biases ps tw ww settings) ps initial.

(** ** The fit *)

(** The builtin [sum] of floats from Python 3.12 on: Neumaier's compensated
    sum, whose compensation is added at the end when it is finite. *)
Definition sum_step (st : float * float) (x : float) : float * float :=
  let '(total, c) := st in
  let t := fadd total x in
  (t, fadd c (if fle (fabs x) (fabs total) then fadd (fsub total t) x else fadd (fsub x t) total)).
Definition py_sum (l : list float) : float :=
  match l with
  | [] => f0
  | x :: l =>
      let '(total, c) := foldl sum_step (fadd f0 x, f0) l in
      if negb (feq c f0) && isfinite c then fadd total c else total
  end.

(** [max(iterable)] and [min(iterable)]. *)
Definition fmax_of (l : list float) : res pyexn float :=
  match l with [] => Err (ValueError "max() iterable argument is empty") | x :: l => Ok (foldl fmax x l) end.
Definition fmin_of (l : list float) : res pyexn float :=
  match l with [] => Err (ValueError "min() iterable argument is empty") | x :: l => Ok (foldl fmin x l) end.

(** A value next to its project residual, in [FEATURE_NAMES] order. *)
Definition delta_of (tw ww : float) (p : training_pair) : res pyexn (list float) :=
  vsub (linearized p.1.1 tw ww).1 (linearized p.1.2 tw ww).1.

Definition project_pair (weights : list float) (biases : list (uuid * float)) (tw ww : float) (p : training_pair) :
    res pyexn (list float * float * float) :=
  let '(positive, negative, actor_weight) := p in
  delta ← delta_of tw ww p;
  sp ← example_score positive weights tw ww;
  sn ← example_score negative weights tw ww;
  let bias m := default f0 (aget m biases) in
  let baseline := fsub (fadd (fsub sp sn) (bias (le_memory_id positive))) (bias (le_memory_id negative)) in
  Ok (delta, baseline, actor_weight).

Definition residual_gradient_step (offsets : list float) (settings : FitSettings) (gradient : list float)
    (d : list float * float * float) : res pyexn (list float) :=
  let '(delta, baseline, actor_weight) := d in
  shift ← dot offsets delta;
  let hinge := fmax f0 (fsub (fsub (pair_margin settings) baseline) shift) in
  let scale := fmul (fmul f2 actor_weight) hinge in
  guard_ (length delta <=? length gradient)%nat (IndexError "list index out of range");;
  Ok (zip_with (λ g v, fsub g (fmul scale v)) (take (length delta) gradient) delta
        ++ drop (length delta) gradient).

Fixpoint residual_loop (fuel : nat) (step : float) (weights : list float)
    (deltas : list (list float * float * float)) (settings : FitSettings) (offsets : list float) :
    res pyexn (list float) :=
  match fuel with
  | O => Ok offsets
  | S fuel =>
      gradient ← res_fold (residual_gradient_step offsets settings)
                   ((λ value, fmul (fmul f2 (bias_l2 settings)) value) <$> offsets) deltas;
      shifted ← zip_strict fadd weights offsets;
      moved ← zip_strict (λ wo grad, fsub wo (fmul step grad)) shifted gradient;
      effective ← project_simplex moved;
      updated ← vsub effective weights;
      moved ← vsub updated offsets;
      change ← fmax_of (fabs <$> moved);
      if flt change CHANGE_TOLERANCE then Ok updated
      else residual_loop fuel step weights deltas settings updated
  end.

Definition fit_project (ps : list training_pair) (weights : list float) (biases : list (uuid * float))
    (tw ww : float) (settings : FitSettings) : res pyexn (list (string * float)) :=
  deltas ← res_map (project_pair weights biases tw ww) ps;
  norms ← res_map (λ d : list float * float * float,
            n ← fsum_squares d.1.1; Ok (fmul (fmul f2 d.2) n)) deltas;
  step ← pydiv f1 (fmax f1 (fadd (fmul f2 (bias_l2 settings)) (py_sum norms)));
  offsets ← residual_loop (Z.to_nat MAX_ITERATIONS) step weights deltas settings (replicate FEATURE_COUNT f0);
  zip_strict pair weight_names offsets.

(** [sorted({row.project_key for row in examples if row.project_key is not None})]. *)
Definition project_keys (examples : list LearningExample) : list str :=
  sort_by str_leb (remove_dups (omap le_project_key examples)).

Definition project_step (examples : list LearningExample) (weights : list float)
    (biases : list (uuid * float)) (tw ww : float) (settings : FitSettings)
    (result : list (str * list (string * float))) (project : str) :
    res pyexn (list (str * list (string * float))) :=
  match pairs (filter (λ row, le_project_key row = Some project) examples) with
  | [] => Ok result
  | ps => offsets ← fit_project ps weights biases tw ww settings; Ok (aset project offsets result)
  end.

Definition fit_project_offsets (examples : list LearningExample) (weights : list float)
    (biases : list (uuid * float)) (tw ww : float) (settings : FitSettings) :
    res pyexn (list (str * list (string * float))) :=
  res_fold (project_step examples weights biases tw ww settings) [] (project_keys examples).

(** *** The threshold and the share *)

(** [sorted({incumbent, *controls})]. *)
Definition control_leb (a b : float) : bool := fle a b.
Definition add_control (l : list float) (x : float) : list float :=
  if existsb (feq x) l then l else l ++ [x].
Definition controls (incumbent : float) (l : list float) : list float :=
  sort_by control_leb (foldl add_control [incumbent] l).

Definition hundredths (first count : Z) : list float :=
  (λ i, f_ratio i 100) <$> seqZ first count.

(** [key < best_key] on the tuples [(Decimal, int, float)]. *)
Definition fit_key := (dec * Z * float)%type.
Definition key_lt (a b : fit_key) : bool :=
  match dec_compare a.1.1 b.1.1 with
  | Lt => true
  | Gt => false
  | Eq => (a.1.2 <? b.1.2) || (a.1.2 =? b.1.2) && flt a.2 b.2
  end.

(** The loop over the candidates: the first one of least key. *)
Definition better (key : float → res pyexn fit_key) (st : float * option fit_key) (candidate : float) :
    res pyexn (float * option fit_key) :=
  k ← key candidate;
  Ok (match st.2 with
      | Some best_key => if key_lt k best_key then (candidate, Some k) else st
      | None => (candidate, Some k)
      end).
Definition best_control (key : float → res pyexn fit_key) (incumbent : float) (candidates : list float) :
    res pyexn (float * Z) :=
  '(best, _) ← res_fold (better key) (incumbent, None) candidates;
  Ok (best, zlen candidates).

Section tau.
Context (examples : list LearningExample) (weights : list float) (biases : list (uuid * float)).
Context (tw ww : float).

Definition selected_at (candidate : float) (e : LearningExample) : res pyexn bool :=
  if bool_decide (le_shown_as e = shown_pinned) then Ok true
  else s ← example_score e weights tw ww;
       Ok (fle candidate (fadd s (default f0 (aget (le_memory_id e) biases)))).

Definition tau_step (candidate : float) (st : dec * Z) (e : LearningExample) : res pyexn (dec * Z) :=
  selected ← selected_at candidate e;
  Ok (if Bool.eqb selected (le_target_injected e) then st.1 else dec_add st.1 (le_actor_weight e),
      if selected then st.2 + le_body_tokens e else st.2).

Definition tau_key (candidate : float) : res pyexn fit_key :=
  '(missed, tokens) ← res_fold (tau_step candidate) (d0, 0) examples;
  Ok (missed, tokens, fneg candidate).

Definition fit_tau (incumbent : float) : res pyexn (float * Z) :=
  best_control tau_key incumbent (controls incumbent (hundredths 0 101)).
End tau.

Definition share_fits (candidate : float) (b : ShareBoundary) : bool :=
  fle (sb_required_share b) (fadd candidate (f_ratio 1 (10 ^ 12))).

Definition share_step (candidate : float) (st : dec * Z) (b : ShareBoundary) : dec * Z :=
  if Bool.eqb (share_fits candidate b) (sb_target_at_least b) then st
  else (dec_add st.1 (sb_actor_weight b), st.2 + 1).

Definition share_wrong (boundaries : list ShareBoundary) (candidate : float) : dec * Z :=
  foldl (share_step candidate) (d0, 0) boundaries.

Definition share_key (boundaries : list ShareBoundary) (candidate : float) : res pyexn fit_key :=
  Ok (share_wrong boundaries candidate, candidate).

(** [range(round(0.01 * 100), round(0.50 * 100) + 1)] is [range(1, 51)]. *)
Definition fit_share (boundaries : list ShareBoundary) (incumbent : float) : res pyexn (float * Z) :=
  match boundaries with
  | [] => Ok (incumbent, 0)
  | _ => best_control (share_key boundaries) incumbent  (controls incumbent (hundredths 1 50))
  end.

(** *** [fit_pairwise] *)
Record descent := {
  d_weights : list float;
  d_biases : list (uuid * float);
  d_objective : float;
  d_iterations : Z;
}.

Definition IMPROVEMENT_TOLERANCE : float := f_ratio 1 (10 ^ 13).

(** The body of the projected gradient loop; [true] when it breaks. *)
Definition descend_once (ps : list training_pair) (tw ww : float) (settings : FitSettings)
    (memory_ids : list uuid) (step : float) (d : descent) : res pyexn (descent * bool) :=
  '(current, weight_gradient, bias_gradient) ←
    objective_and_gradient (d_weights d) (d_biases d) ps tw ww settings;
  moved ← zip_strict (λ value gradient, fsub value (fmul step gradient)) (d_weights d) weight_gradient;
  next_weights ← project_simplex moved;
  next_biases ← res_map (λ m, b ← bias_of (d_biases d) m; g ← bias_of bias_gradient m;
                              Ok (m, fsub b (fmul step g))) memory_ids;
  next_objective ← objective_of next_weights next_biases ps tw ww settings;
  weight_moves ← zip_strict (λ a b, fabs (fsub a b)) (d_weights d) next_weights;
  weight_change ← fmax_of weight_moves;
  bias_moves ← res_map (λ m, b ← bias_of (d_biases d) m; b' ← bias_of next_biases m;
                             Ok (fabs (fsub b b'))) memory_ids;
  bias_change ← fmax_of bias_moves;
  let change := fmax weight_change bias_change in
  let improvement := fsub current next_objective in
  Ok ({| d_weights := next_weights; d_biases := next_biases; d_objective := next_objective;
         d_iterations := d_iterations d + 1 |},
      fle change CHANGE_TOLERANCE || fle f0 improvement && fle improvement IMPROVEMENT_TOLERANCE).

Fixpoint descend (fuel : nat) (ps : list training_pair) (tw ww : float) (settings : FitSettings)
    (memory_ids : list uuid) (step : float) (d : descent) : res pyexn descent :=
  match fuel with
  | O => Ok d
  | S fuel =>
      '(d, stop) ← descend_once ps tw ww settings memory_ids step d;
      if stop : bool then Ok d else descend fuel ps tw ww settings memory_ids step d
  end.

Definition pair_memory_ids (ps : list training_pair) : list uuid :=
  sort_by N.leb (remove_dups (ps ≫= λ p, [le_memory_id p.1.1; le_memory_id p.1.2])).

Definition lipschitz_step (tw ww : float) (lipschitz : float) (p : training_pair) : res pyexn float :=
  delta ← delta_of tw ww p;
  norm ← fsum_squares delta;
  Ok (fadd lipschitz (fmul (fmul f2 p.2) (fadd norm f2))).

(** The globals: everything before the project residuals. *)
Definition fit_globals (ps : list training_pair) (incumbent_weights : list float) (tw ww : float)
    (settings : FitSettings) : res pyexn (descent * (float * Z) * (float * Z) * float) :=
  weights ← project_simplex incumbent_weights;
  guard_ (bool_decide (ps ≠ [])) (ValueError "at least one positive-negative training pair is required");;
  let memory_ids := pair_memory_ids ps in
  lipschitz ← res_fold (lipschitz_step tw ww) (fmul f2 (bias_l2 settings)) ps;
  step ← pydiv f1 (fmax lipschitz f1);
  d ← descend (Z.to_nat MAX_ITERATIONS) ps tw ww settings memory_ids step
        {| d_weights := weights; d_biases := (λ m, (m, f0)) <$> memory_ids;
           d_objective := S754_infinity false; d_iterations := 0 |};
  '(thread_weight, thread_iterations, _) ←
    fit_thread_weight (d_weights d) (d_biases d) ps tw ww settings;
  '(where_weight, where_iterations, objective) ←
    fit_where_weight (d_weights d) (d_biases d) ps ww thread_weight settings;
  Ok (d, (thread_weight, thread_iterations), (where_weight, where_iterations), objective).

Definition normalized_biases (biases : list (uuid * float)) : list (uuid * float) :=
  filter (λ kv, flt (f_ratio 1 (10 ^ 12)) (fabs kv.2) = true) biases.

Record FitRequest := {
  incumbent_weights : list float;
  incumbent_thread_weight : float;
  incumbent_where_weight : float;
  incumbent_tau : float;
  incumbent_memory_context_share : float;
  fit_share_boundaries : list ShareBoundary;
  tune_share_and_tau : bool;
  fit_settings : FitSettings;
}.

Definition fit_pairwise (examples : list LearningExample) (q : FitRequest) : res pyexn FitResult :=
  guard_ (length (incumbent_weights q) =? FEATURE_COUNT)%nat
    (ValueError "incumbent weights must have six values");;
  let ps := pairs examples in
  '(d, (thread_weight, thread_iterations), (where_weight, where_iterations), objective) ←
    fit_globals ps (incumbent_weights q) (incumbent_thread_weight q) (incumbent_where_weight q)
      (fit_settings q);
  let offsets := normalized_biases (d_biases d) in
  project_offsets ← fit_project_offsets examples (d_weights d) offsets thread_weight where_weight
                      (fit_settings q);
  '(tau, memory_context_share, boundary_iterations) ←
    (if tune_share_and_tau q then
       '(tau, tau_iterations) ← fit_tau examples (d_weights d) (d_biases d) thread_weight where_weight
                                  (incumbent_tau q);
       '(share, share_iterations) ← fit_share (fit_share_boundaries q) (incumbent_memory_context_share q);
       Ok (tau, share, tau_iterations + share_iterations)
     else Ok (incumbent_tau q, incumbent_memory_context_share q, 0));
  Ok {| fr_weights := d_weights d; fr_thread_weight := thread_weight; fr_where_weight := where_weight;
        fr_tau := tau; fr_memory_context_share := memory_context_share;
        fr_share_tau_active := tune_share_and_tau q; fr_bias_offsets := offsets;
        fr_pair_count := zlen ps;
        fr_iterations := d_iterations d + thread_iterations + where_iterations + boundary_iterations;
        fr_objective := objective; fr_project_offsets := project_offsets |}.

(** ** Replay *)
Definition replay_step (predicted : LearningExample → res pyexn bool) (st : ReplayScore) (e : LearningExample) :
    res pyexn ReplayScore :=
  prediction ← predicted e;
  let right := Bool.eqb prediction (le_target_injected e) in
  Ok {| disagreements := if right then disagreements st else disagreements st + 1;
        weighted_disagreements := if right then weighted_disagreements st
                                  else dec_add (weighted_disagreements st) (le_actor_weight e);
        injected_tokens := if prediction then injected_tokens st + le_body_tokens e else injected_tokens st;
        share_disagreements := 0; weighted_share_disagreements := d0 |}.

Definition no_score : ReplayScore :=
  {| disagreements := 0; weighted_disagreements := d0; injected_tokens := 0;
     share_disagreements := 0; weighted_share_disagreements := d0 |}.

Definition replay_score (examples : list LearningExample) (predicted : LearningExample → res pyexn bool) :
    res pyexn ReplayScore :=
  res_fold (replay_step predicted) no_score examples.

Definition with_share_score (score : ReplayScore) (boundaries : list ShareBoundary) (share : float) :
    ReplayScore :=
  let '(weighted, count) := share_wrong boundaries share in
  {| disagreements := disagreements score + count;
     weighted_disagreements := dec_add (weighted_disagreements score) weighted;
     injected_tokens := injected_tokens score;
     share_disagreements := count; weighted_share_disagreements := weighted |}.

Definition recorded_score (examples : list LearningExample) (boundaries : list ShareBoundary) (share : float) :
    res pyexn ReplayScore :=
  score ← replay_score examples (λ e, Ok (recorded_injected e));
  Ok (with_share_score score boundaries share).

(** [example_features]: absent entries and [None] read alike. *)
Definition example_features (e : LearningExample) : res pyexn features_map :=
  kv ← zip_strict pair weight_names (le_features e);
  let six (name : string) : option float := aget name kv in
  Ok (λ f, match f with
           | Fsem => six "sem" | Fkw => six "kw" | Ftime => six "time" | Fproj => six "proj"
           | Ffreq => six "freq" | Fhist => six "hist"
           | Floc => le_location_feature e | Fthread => le_thread_feature e
           | Fwhere => le_where_feature e
           end%string).

Record Challenger := {
  ch_weights : list float;
  ch_bias_offsets : list (uuid * float);
  ch_thread_weight : float;
  ch_where_weight : float;
  ch_tau : float;
  ch_project_offsets : list (str * list (string * float));
  ch_axes : list (str * AxisNomination);
}.

Definition challenger_predicted (c : Challenger) (e : LearningExample) : res pyexn bool :=
  if bool_decide (le_shown_as e = shown_pinned) then Ok true
  else
    let offsets := default [] (k ← le_project_key e; aget k (ch_project_offsets c)) in
    effective ← zip_strict (λ name value, fadd value (default f0 (aget name offsets)))
                  weight_names (ch_weights c);
    least ← fmin_of effective;
    effective ← (if flt least f0 then project_simplex effective else Ok effective);
    score ← example_score e effective (ch_thread_weight c) (ch_where_weight c);
    features ← example_features e;
    let score := fadd (apply_axes (fsub score (le_baseline_bias e)) features (ch_axes c))
                   (le_baseline_bias e) in
    Ok (fle (ch_tau c) (fadd score (default f0 (aget (le_memory_id e) (ch_bias_offsets c))))).

Definition challenger_score (examples : list LearningExample) (c : Challenger)
    (boundaries : list ShareBoundary) (share : float) : res pyexn ReplayScore :=
  score ← replay_score examples (challenger_predicted c);
  Ok (with_share_score score boundaries share).

Definition challenger_wins (incumbent challenger : ReplayScore) (margin : dec) : bool :=
  let improvement := dec_sub (weighted_disagreements incumbent) (weighted_disagreements challenger) in
  if dec_leb margin improvement then true
  else if negb (dec_eqb improvement d0) then false
  else injected_tokens challenger <? injected_tokens incumbent.
