(* ===== verification/LearnerFacts.v ===== *)
(** * What the learner's fit and replay guarantee *)
From Stdlib Require Import SpecFloat.
From stdpp Require Import sorting relations.
From S2P Require Import Prelude PyStr PyFloat PyDecimal PyJson Ids Axes Scorer Store Learner.
Open Scope Z_scope.

(** ** The holdout split *)
Lemma zmax_spec x l : (∀ y, y ∈ x :: l → y ≤ zmax x l) ∧ zmax x l ∈ x :: l.
Proof.
  unfold zmax. revert x. induction l as [|y l IH]; intros x; cbn.
  - split; [by intros y ->%list_elem_of_singleton|left].
  - destruct (IH (Z.max x y)) as [Hle Hin]. split.
    + assert (Z.max x y ≤ foldl Z.max (Z.max x y) l) by (apply Hle; left).
      intros z [->|[->|Hz]%elem_of_cons]%elem_of_cons; [lia..|]. apply Hle. by right.
    + apply elem_of_cons in Hin as [->|Hin]; [|by repeat right].
      destruct (Z.max_spec x y) as [[_ ->]|[_ ->]]; [right; left|left].
Qed.

Lemma newest_ts_le rows e : e ∈ rows → le_ts e ≤ newest_ts rows.
Proof.
  intros He. apply (list_elem_of_fmap_2 le_ts) in He. unfold newest_ts.
  destruct (le_ts <$> rows); [by apply elem_of_nil in He|]. by apply zmax_spec.
Qed.

Lemma newest_ts_attained rows : rows ≠ [] → ∃ e, e ∈ rows ∧ le_ts e = newest_ts rows.
Proof.
  intros Hne. unfold newest_ts. destruct (le_ts <$> rows) as [|t ts] eqn:E.
  - by destruct rows.
  - destruct (zmax_spec t ts) as [_ Hin]. rewrite <- E in Hin.
    apply list_elem_of_fmap in Hin as (e & ? & ?). eauto.
Qed.

Lemma gate_leb_total g g' : gate_leb g g' = true ∨ gate_leb g' g = true.
Proof. unfold gate_leb. lia. Qed.

Lemma gate_leb_trans g g' g'' : gate_leb g g' = true → gate_leb g' g'' = true → gate_leb g g'' = true.
Proof. unfold gate_leb. lia. Qed.

Lemma gate_leb_newest g g' : gate_leb g g' = true → newest_ts g.2 ≤ newest_ts g'.2.
Proof. unfold gate_leb. lia. Qed.

(** The newest row of the gate an example belongs to. *)
Definition gate_ts (examples : list LearningExample) (e : LearningExample) : Z :=
  newest_ts (filter (λ x, le_injection_id x = le_injection_id e) examples).

Definition gates_of (l : list LearningExample) : list uuid := remove_dups (le_injection_id <$> l).

Section gates.
Context (examples : list LearningExample).
Let gates := sort_by gate_leb (group_by le_injection_id examples).

Lemma gates_elem g :
  g ∈ gates ↔ g.2 = filter (λ x, le_injection_id x = g.1) examples ∧ g.2 ≠ [].
Proof.
  unfold gates. rewrite (sort_by_perm gate_leb). destruct g. apply group_by_elem.
Qed.

Lemma gates_keys : NoDup gates.*1.
Proof. unfold gates. rewrite (sort_by_perm gate_leb). apply group_by_keys. Qed.

Lemma gates_values : Permutation (gates ≫= snd) examples.
Proof. unfold gates. rewrite (sort_by_perm gate_leb). apply group_by_values. Qed.

Lemma gates_member (gs : list (uuid * list LearningExample)) e :
  (∀ g, g ∈ gs → g ∈ gates) → e ∈ gs ≫= snd →
  ∃ rows, (le_injection_id e, rows) ∈ gs ∧ rows = filter (λ x, le_injection_id x = le_injection_id e) examples.
Proof.
  intros Hgs (g & He & Hg)%list_elem_of_bind.
  pose proof (Hgs g Hg) as [E _]%gates_elem. rewrite E in He.
  apply list_elem_of_filter in He as [He _]. exists g.2. rewrite He. by destruct g.
Qed.

(** A selection of gates flattens to exactly its gates. *)
Lemma gates_count (gs : list (uuid * list LearningExample)) :
  (∀ g, g ∈ gs → g ∈ gates) → NoDup gs.*1 → length (gates_of (gs ≫= snd)) = length gs.
Proof.
  intros Hgs Hnd. rewrite <- (length_fmap fst gs). apply Permutation_length, list.NoDup_Permutation.
  - apply NoDup_remove_dups.
  - done.
  - intros k. unfold gates_of. rewrite elem_of_remove_dups, !list_elem_of_fmap. split.
    + intros (e & -> & He). destruct (gates_member gs e Hgs He) as (rows & Hg & _). by exists (le_injection_id e, rows).
    + intros (g & -> & Hg). pose proof (Hgs g Hg) as [E Hne]%gates_elem.
      destruct g.2 as [|e rows] eqn:Hr; [done|]. exists e. split.
      * assert (e ∈ filter (λ x, le_injection_id x = g.1) examples) as He by (rewrite <- E; left).
        by apply list_elem_of_filter in He as [-> _].
      * apply list_elem_of_bind. exists g. rewrite Hr. split; [left|done].
Qed.

Lemma gates_length : length gates = length (gates_of examples).
Proof.
  rewrite <- (gates_count gates) by (done || apply gates_keys). unfold gates_of.
  apply Permutation_length, list.NoDup_Permutation; [apply NoDup_remove_dups..|].
  intros k. by rewrite !elem_of_remove_dups, gates_values.
Qed.

(** The two ends of the sorted gates. *)
Lemma gates_cut n g g' : g ∈ take n gates → g' ∈ drop n gates →
  g.1 ≠ g'.1 ∧ newest_ts g.2 ≤ newest_ts g'.2.
Proof.
  intros Hg Hg'. split.
  - pose proof gates_keys as Hnd. rewrite <- (take_drop n gates), fmap_app in Hnd.
    apply NoDup_app in Hnd as (_ & Hd & _). intros E.
    apply (Hd g.1); [by apply list_elem_of_fmap_2|]. rewrite E. by apply list_elem_of_fmap_2.
  - apply gate_leb_newest.
    assert (StronglySorted (λ a b, gate_leb a b = true) gates) as Hs.
    { apply (sort_by_sorted _ (λ _, True)); auto using gate_leb_total, Forall_true.
      intros; by eapply gate_leb_trans. }
    rewrite <- (take_drop n gates) in Hs.
    exact (StronglySorted_app_1_elem_of _ _ _ g g' Hs Hg Hg').
Qed.
End gates.

(** The holdout split is a partition by whole gates.  Every example lands on
    exactly one side, no gate is on both, both sides are non-empty, no training
    gate is newer than a holdout gate, the cutoff is the newest training row,
    and the number of held-out gates is the requested fraction rounded up,
    within [1, gates - 1].  It succeeds exactly when there are two gates. *)
Theorem split_gates_spec (examples : list LearningExample) (fraction : float) :
  (∀ training holdout cutoff, split_gates examples fraction = Ok (training, holdout, cutoff) →
     Permutation (training ++ holdout) examples ∧ holdout ≠ [] ∧
     (∀ e e', e ∈ training → e' ∈ holdout →
        le_injection_id e ≠ le_injection_id e' ∧ gate_ts examples e ≤ gate_ts examples e') ∧
     (∀ e, e ∈ training → le_ts e ≤ cutoff) ∧ (∃ e, e ∈ training ∧ le_ts e = cutoff) ∧
     ∃ c, py_ceil (fmul (f_of_Z (zlen (gates_of examples))) fraction) = Ok c ∧
       zlen (gates_of holdout) = Z.min (Z.max 1 c) (zlen (gates_of examples) - 1) ∧
       zlen (gates_of training) = zlen (gates_of examples) - zlen (gates_of holdout)) ∧
  (is_ok (split_gates examples fraction) = true ↔
     2 ≤ zlen (gates_of examples) ∧
     isfinite (fmul (f_of_Z (zlen (gates_of examples))) fraction) = true).
Proof.
  set (gates := sort_by gate_leb (group_by le_injection_id examples)).
  assert (Hlen : zlen gates = zlen (gates_of examples)) by (unfold zlen, gates; by rewrite gates_length).
  split.
  - intros training holdout cutoff Hs. unfold split_gates in Hs. fold gates in Hs. rewrite Hlen in Hs.
    ok_inv. rename x0 into c. set (n := zlen (gates_of examples)) in *.
    set (h := Z.min _ _) in *. assert (1 ≤ h ∧ h ≤ n - 1) as Hh by (unfold h; lia).
    unfold slice_to. destruct (- h <? 0) eqn:?; [|lia].
    replace (Z.of_nat (length gates) + - h) with (n - h) by (unfold n, zlen in *; lia).
    set (k := Z.to_nat (n - h)).
    assert (Hk : (k < length gates)%nat ∧ (0 < k)%nat) by (unfold k, zlen in *; lia).
    assert (Ht : ∀ g, g ∈ take k gates → g ∈ gates) by (intros g; rewrite <- (take_drop k gates) at 2; rewrite elem_of_app; auto).
    assert (Hd : ∀ g, g ∈ drop k gates → g ∈ gates) by (intros g; rewrite <- (take_drop k gates) at 2; rewrite elem_of_app; auto).
    pose proof (gates_keys examples) as Hnd. fold gates in Hnd.
    rewrite <- (take_drop k gates), fmap_app in Hnd. apply NoDup_app in Hnd as (Hndt & _ & Hndd).
    pose proof (gates_count examples (take k gates) Ht Hndt) as Ct.
    pose proof (gates_count examples (drop k gates) Hd Hndd) as Cd.
    rewrite length_take in Ct. rewrite length_drop in Cd.
    assert (take k gates ≫= snd ≠ []) as Hne by (intros E; rewrite E in Ct; cbn in Ct; lia).
    split_and!.
    + rewrite <- bind_app, take_drop. apply gates_values.
    + intros E. rewrite E in Cd. cbn in Cd. lia.
    + intros e e' He He'. destruct (gates_member examples _ e Ht He) as (rows & Hg & ->).
      destruct (gates_member examples _ e' Hd He') as (rows' & Hg' & ->).
      exact (gates_cut examples k _ _ Hg Hg').
    + apply newest_ts_le.
    + by apply newest_ts_attained.
    + assert (Hn : Z.of_nat (length gates) = n) by exact Hlen.
      exists c. split; [done|]. unfold zlen. rewrite Cd, Ct. fold h. split; lia.
  - unfold split_gates. fold gates. rewrite Hlen.
    destruct (Z.ltb_spec (zlen (gates_of examples)) 2); cbn; [split; [done|lia]|].
    destruct (fmul _ _); cbn; split; (done || by intros []).
Qed.

(** ** The fit does not depend on the order of its rows *)
Lemma res_fold_ext {E A S} (f g : S → A → res E S) l s :
  (∀ s x, x ∈ l → f s x = g s x) → res_fold f s l = res_fold g s l.
Proof.
  revert s. induction l as [|x l IH]; intros s H; [done|]. cbn. rewrite H by left.
  destruct (g s x); [|done]. cbn. apply IH. intros s' y Hy. apply H. by right.
Qed.

Lemma res_fold_map {E A S S'} (g : S → S') (f : S' → A → res E S') (h : S → A → res E S) l s :
  (∀ s x, f (g s) x = g <$> h s x) → res_fold f (g s) l = g <$> res_fold h s l.
Proof.
  intros H. revert s. induction l as [|x l IH]; intros s; [done|]. cbn [res_fold]. rewrite H.
  destruct (h s x); [apply IH|done].
Qed.

Lemma res_fold_ok {E A S} (f : S → A → res E S) l s :
  (∀ s x, x ∈ l → is_ok (f s x) = true) → is_ok (res_fold f s l) = true.
Proof.
  revert s. induction l as [|x l IH]; intros s H; [done|]. cbn [res_fold].
  pose proof (H s x ltac:(left)) as Hx. destruct (f s x); [|done].
  apply IH. intros s' y Hy. apply H. by right.
Qed.

Lemma group_rows (l : list LearningExample) k :
  default [] (aget k (group_by le_injection_id l)) = filter (λ x, le_injection_id x = k) l.
Proof. rewrite group_by_get. by destruct (filter _ l). Qed.

Lemma pairs_gates l :
  pairs l = k ← sort_by N.leb (group_by le_injection_id l).*1;
            gate_pairs (filter (λ x, le_injection_id x = k) l).
Proof. unfold pairs. apply list_bind_ext; [|done]. intros k. by rewrite group_rows. Qed.

Lemma sorted_uids (P : LearningExample → Prop) `{!∀ x, Decision (P x)} l l' :
  NoDup (le_event_uid <$> l) → Permutation l l' →
  sort_by uid_leb (filter P l) = sort_by uid_leb (filter P l').
Proof.
  intros Hnd Hp. apply (sort_by_perm_eq _ (λ _, True)).
  - intros x y _ _. apply str_leb_total.
  - intros x y z _ _ _. apply str_leb_trans.
  - by apply Forall_true.
  - by rewrite Hp.
  - intros x y [_ Hx]%list_elem_of_filter [_ Hy]%list_elem_of_filter H1 H2.
    eapply NoDup_fmap_elem; [done..|]. by apply str_leb_antisym.
Qed.

Lemma uids_filter (P : LearningExample → Prop) `{!∀ x, Decision (P x)} l :
  NoDup (le_event_uid <$> l) → NoDup (le_event_uid <$> filter P l).
Proof.
  induction l as [|x l IH]; [done|]. rewrite fmap_cons. intros [Hx Hl]%NoDup_cons.
  rewrite filter_cons. case_decide; [|by apply IH]. cbn. apply NoDup_cons. split; [|by apply IH].
  intros (y & E & [_ Hy]%list_elem_of_filter)%list_elem_of_fmap. apply Hx. rewrite E.
  by apply list_elem_of_fmap_2.
Qed.

Lemma gate_pairs_perm l l' :
  NoDup (le_event_uid <$> l) → Permutation l l' → gate_pairs l = gate_pairs l'.
Proof.
  intros Hnd Hp. unfold gate_pairs.
  by rewrite !(sorted_uids (λ row, le_target_injected row = _) l l' Hnd Hp).
Qed.

Lemma pairs_perm l l' :
  NoDup (le_event_uid <$> l) → Permutation l l' → pairs l = pairs l'.
Proof.
  intros Hnd Hp. rewrite !pairs_gates.
  assert (sort_by N.leb (group_by le_injection_id l).*1 = sort_by N.leb (group_by le_injection_id l').*1) as ->.
  { apply (sort_by_perm_eq _ (λ _, True)); try (intros; lia); [by apply Forall_true|by apply group_by_perm]. }
  apply list_bind_ext; [|done]. intros k. apply gate_pairs_perm; [by apply uids_filter|]. by rewrite Hp.
Qed.

Lemma project_keys_perm l l' : Permutation l l' → project_keys l = project_keys l'.
Proof.
  intros Hp. unfold project_keys. apply (sort_by_perm_eq _ (λ _, True)).
  - intros x y _ _. apply str_leb_total.
  - intros x y z _ _ _. apply str_leb_trans.
  - by apply Forall_true.
  - apply list.NoDup_Permutation; [apply NoDup_remove_dups..|]. intros k.
    rewrite !elem_of_remove_dups, !list_elem_of_omap. by setoid_rewrite Hp.
  - intros x y _ _. apply str_leb_antisym.
Qed.

Lemma project_offsets_perm l l' weights biases tw ww settings :
  NoDup (le_event_uid <$> l) → Permutation l l' →
  fit_project_offsets l weights biases tw ww settings = fit_project_offsets l' weights biases tw ww settings.
Proof.
  intros Hnd Hp. unfold fit_project_offsets. rewrite (project_keys_perm l l' Hp).
  apply res_fold_ext. intros s k _. unfold project_step.
  rewrite (pairs_perm _ (filter (λ row, le_project_key row = Some k) l')); [done| |by rewrite Hp].
  by apply uids_filter.
Qed.

(** The pairwise fit depends on the training rows as a set: rows in another
    order (with distinct event identifiers, as the log has them) give the
    same weights, biases, locality coefficients, project residuals, objective
    and iteration counts, or the same error. *)
Theorem fit_order_independent (examples examples' : list LearningExample) (q : FitRequest) :
  NoDup (le_event_uid <$> examples) → Permutation examples examples' →
  tune_share_and_tau q = false →
  fit_pairwise examples q = fit_pairwise examples' q.
Proof.
  intros Hnd Hp Ht. unfold fit_pairwise. rewrite Ht, (pairs_perm _ _ Hnd Hp).
  destruct (guard_ _ _); [|done]. cbn [mbind res_bind].
  destruct (fit_globals _ _ _ _ _) as [[[[d [? ?]] [? ?]] ?]|]; [|done]. cbn [mbind res_bind].
  by rewrite (project_offsets_perm _ _ _ _ _ _ _ Hnd Hp).
Qed.

(** ** The best control *)
Lemma flt_trans x y z : flt x y = true → flt y z = true → flt x z = true.
Proof.
  intros H1 H2.
  assert (is_nan x = false ∧ is_nan y = false ∧ is_nan z = false) as (Hx & Hy & Hz).
  { destruct x, y, z; done. }
  unfold flt, SFltb in *. rewrite fcompare_key in * by done.
  destruct (key_compare (fkey x) (fkey y)) eqn:E1; try done.
  destruct (key_compare (fkey y) (fkey z)) eqn:E2; try done.
  by rewrite (key_compare_lt_trans _ _ _ E1 E2).
Qed.

Lemma flt_irrefl x : flt x x = false.
Proof.
  unfold flt, SFltb. destruct (is_nan x) eqn:E; [by destruct x|].
  by rewrite fcompare_key, key_compare_refl.
Qed.

Lemma key_lt_trans a b c : key_lt a b = true → key_lt b c = true → key_lt a c = true.
Proof.
  destruct a as [[a1 a2] a3], b as [[b1 b2] b3], c as [[c1 c2] c3]. unfold key_lt. cbn [fst snd].
  destruct (dec_compare_scale3 a1 b1 c1) as (x & y & z & -> & -> & ->).
  destruct (Z.compare_spec x y), (Z.compare_spec y z), (Z.compare_spec x z); try (done || lia).
  rewrite !orb_true_iff, !andb_true_iff, !Z.ltb_lt, !Z.eqb_eq.
  intros [?|[-> H3]] [?|[-> H4]]; [left; lia..|]. right. split; [done|]. by eapply flt_trans.
Qed.

Lemma key_lt_irrefl a : key_lt a a = false.
Proof.
  unfold key_lt. by rewrite dec_compare_refl, Z.ltb_irrefl, Z.eqb_refl, flt_irrefl.
Qed.

Lemma flt_cotrans x y z :
  is_nan y = false → flt x z = true → flt x y = true ∨ flt y z = true.
Proof.
  intros Hy H. assert (is_nan x = false ∧ is_nan z = false) as [Hx Hz] by (by destruct x, z).
  rewrite !flt_not_fle in * by done. destruct (fle y x) eqn:E1; [|by left]. right.
  destruct (fle z y) eqn:E2; [|done]. by rewrite (fle_trans z y x) in H.
Qed.

Lemma key_lt_cotrans a b c :
  is_nan b.2 = false → key_lt a c = true → key_lt a b = true ∨ key_lt b c = true.
Proof.
  destruct a as [[a1 a2] a3], b as [[b1 b2] b3], c as [[c1 c2] c3]. unfold key_lt. cbn [fst snd].
  intros Hb. destruct (dec_compare_scale3 a1 b1 c1) as (x & y & z & -> & -> & ->).
  destruct (Z.compare_spec x y), (Z.compare_spec y z), (Z.compare_spec x z); auto; try lia.
  rewrite !orb_true_iff, !andb_true_iff, !Z.ltb_lt, !Z.eqb_eq. intros [Hlt|[-> H3]].
  - destruct (Z.lt_trichotomy a2 b2) as [?|[->|?]]; auto. right. left. lia.
  - destruct (Z.lt_trichotomy b2 c2) as [?|[->|?]]; auto.
    destruct (flt_cotrans a3 b3 c3 Hb H3); auto.
Qed.

Section best.
Context (key : float → res pyexn fit_key).
Hypothesis key_proper : ∀ c k, key c = Ok k → is_nan c = false → is_nan k.2 = false.

(** [kb] is at least as good as the key of every control of [cs]. *)
Definition least_of (kb : fit_key) (cs : list float) : Prop :=
  ∀ c, c ∈ cs → ∃ k, key c = Ok k ∧ key_lt k kb = false.

Lemma better_fold cs b kb b' ob :
  key b = Ok kb → is_nan b = false → res_fold (better key) (b, Some kb) cs = Ok (b', ob) →
  Forall (λ c, is_nan c = false) cs →
  ∃ kb', ob = Some kb' ∧ key b' = Ok kb' ∧ (b' = b ∨ b' ∈ cs) ∧
    least_of kb' cs ∧ key_lt kb kb' = false.
Proof using key_proper.
  intros Hb Hnb H Hcs. revert b kb Hb Hnb H.
  induction Hcs as [|c cs Hnc Hcs IH]; intros b kb Hb Hnb; cbn [res_fold].
  { intros [= <- <-]. exists kb. split_and!; auto using key_lt_irrefl. by intros c ?%elem_of_nil. }
  change (better key (b, Some kb) c)
    with (k ← key c; Ok (if key_lt k kb then (c, Some k) else (b, Some kb))).
  destruct (key c) as [k|] eqn:Hc; cbn [mbind res_bind]; [|done].
  pose proof (key_proper _ _ Hb Hnb). pose proof (key_proper _ _ Hc Hnc).
  destruct (key_lt k kb) eqn:E; intros H'.
  - apply IH in H' as (kb' & -> & Hb' & Hin & Hl & Hlt); [|done..]. exists kb'. split_and!; try done.
    + right. destruct Hin as [->|?]; [left|by right].
    + intros d [->|Hd]%elem_of_cons; [by eauto|by apply Hl].
    + destruct (key_lt kb kb') eqn:E'; [|done]. rewrite <- Hlt. symmetry. by eapply key_lt_trans.
  - apply IH in H' as (kb' & -> & Hb' & Hin & Hl & Hlt); [|done..]. exists kb'. split_and!; try done.
    + destruct Hin as [->|?]; [by left|right; by right].
    + intros d [->|Hd]%elem_of_cons; [|by apply Hl]. exists k. split; [done|].
      destruct (key_lt k kb') eqn:E'; [|done].
      destruct (key_lt_cotrans k kb kb') as [?|?]; congruence.
Qed.

Lemma best_control_spec cs incumbent best n :
  cs ≠ [] → Forall (λ c, is_nan c = false) cs → best_control key incumbent cs = Ok (best, n) →
  best ∈ cs ∧ n = zlen cs ∧ ∃ kb, key best = Ok kb ∧ least_of kb cs.
Proof using key_proper.
  intros Hne Hcs. unfold best_control. destruct Hcs as [|c cs Hnc Hcs]; [done|]. cbn [res_fold].
  change (better key (incumbent, None) c) with (k ← key c; @Ok pyexn _ (c, Some k)).
  destruct (key c) as [k|] eqn:Hc; cbn [mbind res_bind]; [|done].
  destruct (res_fold _ _ _) as [[b ob]|] eqn:E; cbn [mbind res_bind]; [|done]. intros [= <- <-].
  eapply better_fold in E as (kb & -> & Hb & Hin & Hl & Hlt); [|done..].
  split_and!; [|done|].
  - destruct Hin as [->|?]; [left|by right].
  - exists kb. split; [done|]. intros d [->|Hd]%elem_of_cons; [by eauto|by apply Hl].
Qed.

Lemma best_control_ok cs incumbent :
  (∀ c, c ∈ cs → is_ok (key c) = true) → is_ok (best_control key incumbent cs) = true.
Proof using Type.
  intros H. unfold best_control. generalize (incumbent, @None fit_key) as st.
  intros st. assert (is_ok (res_fold (better key) st cs) = true) as Hf.
  { apply res_fold_ok. intros s c Hc%H. unfold better. by destruct (key c). }
  by destruct (res_fold _ _ _) as [[]|].
Qed.
End best.

(** The controls are the incumbent and the grid, up to float equality. *)
Lemma add_control_elem l x y : y ∈ add_control l x → y ∈ l ∨ y = x.
Proof. unfold add_control. case_match; [auto|]. rewrite elem_of_app, list_elem_of_singleton. tauto. Qed.

Lemma controls_elem incumbent grid c : c ∈ controls incumbent grid → c = incumbent ∨ c ∈ grid.
Proof.
  unfold controls. rewrite (sort_by_perm control_leb).
  assert (∀ l, c ∈ foldl add_control l grid → c ∈ l ∨ c ∈ grid) as H; [|by intros [?%list_elem_of_singleton|?]%H; auto].
  induction grid as [|x grid IH]; intros l; cbn; [auto|].
  intros [[?| ->]%add_control_elem|?]%IH; auto using list_elem_of_here, list_elem_of_further.
Qed.

Lemma controls_incumbent incumbent grid : incumbent ∈ controls incumbent grid.
Proof.
  unfold controls. rewrite (sort_by_perm control_leb).
  assert (∀ l, incumbent ∈ l → incumbent ∈ foldl add_control l grid) as H; [|apply H; left].
  induction grid as [|x grid IH]; intros l Hl; cbn; [done|]. apply IH.
  unfold add_control. case_match; [done|]. apply elem_of_app. by left.
Qed.

Lemma controls_keep c grid l :
  (∃ c', c' ∈ l ∧ feq c c' = true) → ∃ c', c' ∈ foldl add_control l grid ∧ feq c c' = true.
Proof.
  revert l. induction grid as [|x grid IH]; intros l H; cbn; [done|]. apply IH.
  destruct H as (c' & ? & ?). exists c'. split; [|done]. unfold add_control.
  case_match; [done|]. apply elem_of_app. by left.
Qed.

Lemma controls_cover incumbent grid c :
  c ∈ grid → is_nan c = false → ∃ c', c' ∈ controls incumbent grid ∧ feq c c' = true.
Proof.
  intros Hc Hn. unfold controls. setoid_rewrite (sort_by_perm control_leb).
  generalize [incumbent] as l. induction grid as [|x grid IH]; intros l; cbn; [by apply elem_of_nil in Hc|].
  apply elem_of_cons in Hc as [<-|Hc]; [|by apply IH]. apply controls_keep. unfold add_control.
  case_match eqn:E.
  - apply existsb_exists in E as (c' & ? & ?). exists c'. by rewrite list_elem_of_In.
  - exists c. split; [apply elem_of_app; right; left|].
    unfold feq, SFeqb. by rewrite fcompare_key, key_compare_refl.
Qed.

(** Both grids lie between their ends. *)
Definition within (lo hi x : float) : bool := fle lo x && fle x hi.

Lemma forallb_Forall' {A} (f : A → bool) l : forallb f l = true → Forall (λ x, f x = true) l.
Proof. induction l; cbn; [constructor|]. intros [? ?]%andb_true_iff. constructor; auto. Qed.

Lemma tau_grid : Forall (λ c, within f0 f1 c = true) (hundredths 0 101).
Proof. apply forallb_Forall'. vm_compute. reflexivity. Qed.

Lemma share_grid :
  Forall (λ c, within Scorer.MIN_MEMORY_CONTEXT_SHARE Scorer.MAX_MEMORY_CONTEXT_SHARE c = true) (hundredths 1 50).
Proof. apply forallb_Forall'. vm_compute. reflexivity. Qed.

Lemma within_not_nan lo hi x : within lo hi x = true → is_nan x = false.
Proof. destruct x; try done. unfold within, fle, SFleb. by destruct lo. Qed.

Lemma controls_within lo hi incumbent grid :
  within lo hi incumbent = true → Forall (λ c, within lo hi c = true) grid →
  Forall (λ c, within lo hi c = true) (controls incumbent grid).
Proof.
  intros Hi Hg. apply Forall_forall. intros c [->|Hc]%controls_elem; [done|].
  by eapply (proj1 (Forall_forall _ _) Hg).
Qed.

Lemma controls_proper incumbent grid :
  is_nan incumbent = false → Forall (λ c, is_nan c = false) grid →
  Forall (λ c, is_nan c = false) (controls incumbent grid).
Proof.
  intros Hi Hg. apply Forall_forall. intros c [->|Hc]%controls_elem; [done|].
  by eapply (proj1 (Forall_forall _ _) Hg).
Qed.

Lemma controls_nonempty incumbent grid : controls incumbent grid ≠ [].
Proof. intros E. pose proof (controls_incumbent incumbent grid) as H. rewrite E in H. by apply elem_of_nil in H. Qed.

(** ** The threshold and the share are best on the replay's own referee *)
Lemma tau_replay examples weights biases tw ww c :
  tau_key examples weights biases tw ww c =
  (λ s, (weighted_disagreements s, injected_tokens s, fneg c)) <$>
    replay_score examples (selected_at weights biases tw ww c).
Proof.
  unfold tau_key, replay_score.
  change (d0, 0) with ((λ s, (weighted_disagreements s, injected_tokens s)) no_score).
  rewrite (res_fold_map _ _ (replay_step (selected_at weights biases tw ww c))).
  - by destruct (res_fold _ _ _).
  - intros s e. unfold tau_step, replay_step. cbn [fst snd]. by destruct (selected_at _ _ _ _ c e).
Qed.

(** The order of two replays: weighted disagreements, then tokens spent. *)
Definition replay_key (s : ReplayScore) (c : float) : fit_key :=
  (weighted_disagreements s, injected_tokens s, fneg c).

(** The fitted threshold is optimal for the replay.  Among the incumbent and
    every hundredth from 0 to 1, no other threshold gives the training
    examples fewer weighted disagreements, or as few with fewer injected
    tokens, or the same of both while being higher; and the search always
    has a result when the examples can be scored. *)
Theorem fit_tau_optimal (examples : list LearningExample) (weights : list float)
    (biases : list (uuid * float)) (tw ww incumbent : float) :
  is_nan incumbent = false →
  (∀ best n, fit_tau examples weights biases tw ww incumbent = Ok (best, n) →
     let cs := controls incumbent (hundredths 0 101) in
     (best = incumbent ∨ best ∈ hundredths 0 101) ∧ n = zlen cs ∧ incumbent ∈ cs ∧
     (∀ c, c ∈ hundredths 0 101 → ∃ c', c' ∈ cs ∧ feq c c' = true) ∧
     ∃ sb, replay_score examples (selected_at weights biases tw ww best) = Ok sb ∧
       ∀ c, c ∈ cs → ∃ s, replay_score examples (selected_at weights biases tw ww c) = Ok s ∧
         key_lt (replay_key s c) (replay_key sb best) = false) ∧
  ((∀ e, e ∈ examples → is_ok (example_score e weights tw ww) = true) →
     is_ok (fit_tau examples weights biases tw ww incumbent) = true).
Proof.
  intros Hi.
  assert (Hn : Forall (λ c, is_nan c = false) (hundredths 0 101)).
  { eapply Forall_impl; [apply tau_grid|]. intros c. apply within_not_nan. }
  unfold fit_tau. generalize dependent (hundredths 0 101). intros grid Hn. split.
  - intros best n H. set (cs := controls incumbent grid) in *.
    apply best_control_spec in H as (Hb & -> & kb & Hkb & Hl).
    + rewrite tau_replay in Hkb. split_and!; [by apply controls_elem|done|apply controls_incumbent| |].
      * intros c Hc. apply controls_cover; [done|]. by eapply (proj1 (Forall_forall _ _) Hn).
      * destruct (replay_score _ _) as [sb|]; [|done]. injection Hkb as <-. exists sb. split; [done|].
        intros c Hc. destruct (Hl c Hc) as (k & Hk & Hlt). rewrite tau_replay in Hk.
        destruct (replay_score _ _) as [s|]; [|done]. injection Hk as <-. by exists s.
    + intros c k Hk Hc. rewrite tau_replay in Hk. destruct (replay_score _ _); [|done].
      injection Hk as <-. cbn. by rewrite fneg_is_nan.
    + apply controls_nonempty.
    + by apply controls_proper.
  - intros Hs. apply best_control_ok. intros c _. rewrite tau_replay.
    assert (is_ok (replay_score examples (selected_at weights biases tw ww c)) = true) as H.
    { apply res_fold_ok. intros s e He%Hs. unfold replay_step, selected_at.
      case_bool_decide; [done|]. by destruct (example_score e weights tw ww). }
    by destruct (replay_score _ _).
Qed.

(** The fitted memory share is optimal for the replay's share referee: no
    control leaves less weight of violated boundaries, or as little with
    fewer of them, or the same of both with a smaller share; without
    boundaries the incumbent stays.  The result is always within the share
    limits when the incumbent is. *)
Theorem fit_share_optimal (boundaries : list ShareBoundary) (incumbent : float) :
  within Scorer.MIN_MEMORY_CONTEXT_SHARE Scorer.MAX_MEMORY_CONTEXT_SHARE incumbent = true →
  ∃ best n, fit_share boundaries incumbent = Ok (best, n) ∧
    within Scorer.MIN_MEMORY_CONTEXT_SHARE Scorer.MAX_MEMORY_CONTEXT_SHARE best = true ∧
    (boundaries = [] → best = incumbent) ∧
    (boundaries ≠ [] → ∀ c score, c = incumbent ∨ c ∈ controls incumbent (hundredths 1 50) →
       let s := with_share_score score boundaries c in
       let sb := with_share_score score boundaries best in
       key_lt (weighted_share_disagreements s, share_disagreements s, c)
         (weighted_share_disagreements sb, share_disagreements sb, best) = false).
Proof.
  intros Hi. destruct (decide (boundaries = [])) as [->|Hne]; [by exists incumbent, 0|].
  assert (fit_share boundaries incumbent
          = best_control (share_key boundaries) incumbent (controls incumbent (hundredths 1 50))) as ->
    by (by destruct boundaries).
  pose proof (controls_within _ _ _ _ Hi share_grid) as Hw.
  pose proof (controls_incumbent incumbent (hundredths 1 50)) as Hin.
  pose proof (controls_nonempty incumbent (hundredths 1 50)) as Hcs.
  generalize dependent (controls incumbent (hundredths 1 50)). intros cs Hw Hin Hcs.
  assert (is_ok (best_control (share_key boundaries) incumbent cs) = true) as Hok by (by apply best_control_ok).
  destruct (best_control _ _ _) as [[best n]|] eqn:E; [|done]. exists best, n. split; [done|].
  apply best_control_spec in E as (Hb & -> & kb & [= <-] & Hl); [| |done|].
  - split_and!; [by eapply (proj1 (Forall_forall _ _) Hw)|done|]. intros _ c score Hc.
    assert (c ∈ cs) as Hin' by (by destruct Hc as [->|?]).
    destruct (Hl c Hin') as (k & [= <-] & Hlt). unfold with_share_score.
    by destruct (share_wrong boundaries c), (share_wrong boundaries best).
  - by intros c k [= <-].
  - eapply Forall_impl; [exact Hw|]. intros c. apply within_not_nan.
Qed.

(** ** Promotion always makes progress *)

(** [b] replaces [a] as the incumbent. *)
Definition promoted (margin : dec) (a b : ReplayScore) : Prop := challenger_wins a b margin = true.

(** Fewer weighted disagreements, or as few with fewer tokens. *)
Definition score_lt (b a : ReplayScore) : Prop :=
  dec_ltb (weighted_disagreements b) (weighted_disagreements a) = true ∨
  dec_eqb (weighted_disagreements b) (weighted_disagreements a) = true ∧
  injected_tokens b < injected_tokens a.

Lemma promoted_lt margin a b : 0 < coef margin → promoted margin a b → score_lt b a.
Proof.
  intros Hm. unfold promoted, challenger_wins, score_lt, dec_leb, dec_ltb, dec_eqb.
  pose proof (dec_sub_sign (weighted_disagreements a) (weighted_disagreements b)) as Hs.
  rewrite (dec_compare_antisym (weighted_disagreements a)).
  set (d := dec_sub _ _) in *. rewrite (dec_compare_zero d).
  destruct (dec_compare_scale3 margin d d0) as (x & y & z & Hmd & Hd & Hmz).
  rewrite (dec_compare_zero d) in Hd. rewrite (dec_compare_zero margin) in Hmz. rewrite Hmd.
  destruct (Z.compare_spec x y), (Z.compare_spec y z), (Z.compare_spec x z),
    (Z.compare_spec (coef d) 0), (Z.compare_spec (coef margin) 0), (dec_compare _ _);
    cbn; try done; try lia; intros; auto; lia.
Qed.

Lemma score_lt_trans a b c : score_lt a b → score_lt b c → score_lt a c.
Proof.
  unfold score_lt, dec_ltb, dec_eqb.
  destruct (dec_compare_scale3 (weighted_disagreements a) (weighted_disagreements b) (weighted_disagreements c))
    as (x & y & z & -> & -> & ->).
  destruct (Z.compare_spec x y), (Z.compare_spec y z), (Z.compare_spec x z);
    intros [?|[? ?]] [?|[? ?]]; try done; try lia; auto; right; split; (done || lia).
Qed.

(** With a positive margin the learner cannot cycle.  Every promotion
    strictly lowers (weighted disagreements, injected tokens) on the holdout,
    so no sequence of promotions leads back to a score already held, and two
    configurations never beat each other. *)
Theorem promotion_progress (margin : dec) :
  0 < coef margin →
  (∀ a b, promoted margin a b → score_lt b a) ∧
  (∀ a, ¬ tc (promoted margin) a a) ∧
  (∀ a b, promoted margin a b → ¬ promoted margin b a).
Proof.
  intros Hm.
  assert (Hlt : ∀ a b, tc (promoted margin) a b → score_lt b a).
  { intros a b H. induction H as [a b H|a b c H _ IH]; [by eapply promoted_lt|].
    eapply score_lt_trans; [done|]. by eapply promoted_lt. }
  assert (Hirr : ∀ a, ¬ score_lt a a).
  { intros a [H|[_ H]]; [|lia]. by rewrite dec_ltb_irrefl in H. }
  split_and!.
  - intros a b. by apply promoted_lt.
  - intros a H%Hlt. by eapply Hirr.
  - intros a b Hab Hba. eapply (Hirr a), Hlt, (tc_l _ _ b); [done|]. by apply tc_once.
Qed.

(** ** Bounds of a fit *)
Lemma zip_strict_length {A B C} (f : A → B → C) l l' zs :
  zip_strict f l l' = Ok zs → length zs = length l ∧ length l' = length l.
Proof.
  revert l' zs. induction l as [|x l IH]; intros [|y l'] zs; cbn; try done; [by intros [= <-]|].
  intros H. apply bind_Ok in H as (? & H & [= <-]). apply IH in H as [? ?]. cbn. lia.
Qed.

Lemma zip_strict_pair {A B} (l : list A) (l' : list B) zs : zip_strict pair l l' = Ok zs → zs.*1 = l.
Proof.
  revert l' zs. induction l as [|x l IH]; intros [|y l'] zs; cbn; try done; [by intros [= <-]|].
  intros H. apply bind_Ok in H as (? & H & [= <-]). apply IH in H. cbn. by rewrite H.
Qed.

Lemma replace_last_length f l : length (replace_last f l) = length l.
Proof. induction l as [|x [|y l] IH]; [done..|]. apply (f_equal S), IH. Qed.

Lemma project_simplex_length values l : project_simplex values = Ok l → length l = length values.
Proof.
  unfold project_simplex. intros H. apply bind_Ok in H as ([c rho] & _ & H). destruct (rho =? 0).
  - by apply res_map_length in H.
  - ok_inv. rewrite replace_last_length.
    match goal with H : res_map _ _ = Ok _ |- _ => apply res_map_length in H; rewrite H end.
    by rewrite length_fmap.
Qed.

(** A locality coefficient is below one, unless the fit overflowed to NaN. *)
Definition locality_ok (x : float) : Prop := is_nan x = true ∨ within f0 LOCALITY_CEILING x = true.

Lemma clamp_within x c :
  is_nan x = false → fle f0 c = true → within f0 c (fmin (fmax x f0) c) = true.
Proof.
  intros Hx Hc. assert (is_nan c = false) as Hcn by (by destruct c).
  assert (fle f0 (fmax x f0) = true ∧ is_nan (fmax x f0) = false) as [Hm Hmn].
  { unfold fmax. destruct (flt x f0) eqn:E; [done|]. rewrite flt_not_fle in E by done.
    split; [|done]. by destruct (fle f0 x). }
  unfold within. rewrite andb_true_iff. unfold fmin. destruct (flt c (fmax x f0)) eqn:E.
  - split; [done|by apply fle_refl].
  - rewrite flt_not_fle in E by done. split; [done|]. by destruct (fle (fmax x f0) _).
Qed.

Lemma locality_ceiling : fle f0 LOCALITY_CEILING && flt LOCALITY_CEILING f1 = true.
Proof. vm_compute. reflexivity. Qed.

Lemma clamp_locality_ok x : locality_ok (clamp_locality x).
Proof.
  pose proof locality_ceiling as [Hc _]%andb_true_iff.
  unfold clamp_locality, locality_ok. generalize dependent LOCALITY_CEILING. intros c Hc.
  destruct (is_nan x) eqn:Hx; [left; by destruct x, c|right]. by apply clamp_within.
Qed.

Lemma coordinate_loop_bounds score biases settings fuel i step w pds w' n :
  locality_ok w → coordinate_loop score biases settings fuel i step w pds = Ok (w', n) →
  locality_ok w' ∧ i ≤ n ≤ i + Z.of_nat fuel.
Proof.
  revert i w. induction fuel as [|fuel IH]; intros i w Hw; cbn [coordinate_loop].
  - intros [= <- <-]. split; [done|lia].
  - intros H. apply bind_Ok in H as (g & _ & H). case_match.
    + apply Ok_inj, pair_equal_spec in H as [<- <-]. split; [apply clamp_locality_ok|lia].
    + apply IH in H as [? ?]; [|apply clamp_locality_ok]. split; [done|lia].
Qed.

Lemma fit_coordinate_bounds score biases settings derivative objective ps initial w n o :
  fit_coordinate score biases settings derivative objective ps initial = Ok (w, n, o) →
  locality_ok w ∧ 0 ≤ n ≤ MAX_ITERATIONS.
Proof.
  assert (0 ≤ MAX_ITERATIONS) as Hmax by (unfold MAX_ITERATIONS; lia). unfold fit_coordinate. intros H.
  apply bind_Ok in H as (ds & _ & H). apply bind_Ok in H as (total & _ & H). case_match.
  - apply bind_Ok in H as (? & _ & H). apply Ok_inj, pair_equal_spec in H as [[<- <-]%pair_equal_spec _].
    split; [apply clamp_locality_ok|lia].
  - apply bind_Ok in H as (? & _ & H). apply bind_Ok in H as ([w1 n1] & Hl & H).
    apply bind_Ok in H as (? & _ & H).
    apply Ok_inj, pair_equal_spec in H as [[<- <-]%pair_equal_spec _].
    apply coordinate_loop_bounds in Hl as [? Hn]; [|apply clamp_locality_ok].
    split; [done|]. rewrite Z2Nat.id in Hn by (unfold MAX_ITERATIONS; lia). exact Hn.
Qed.

Lemma descend_bounds fuel ps tw ww settings ids step d d' :
  descend fuel ps tw ww settings ids step d = Ok d' →
  length (d_weights d') = length (d_weights d) ∧
  d_iterations d ≤ d_iterations d' ≤ d_iterations d + Z.of_nat fuel.
Proof.
  revert d. induction fuel as [|fuel IH]; intros d; cbn [descend].
  - intros [= <-]. split; [done|lia].
  - intros H. apply bind_Ok in H as ([d1 stop] & Hd & H).
    assert (length (d_weights d1) = length (d_weights d) ∧ d_iterations d1 = d_iterations d + 1) as [Hw Hi].
    { clear IH H. unfold descend_once in Hd.
      apply bind_Ok in Hd as ([[cur wg] bg] & _ & Hd). apply bind_Ok in Hd as (moved & Hm & Hd).
      apply bind_Ok in Hd as (nw & Hp & Hd).
      apply zip_strict_length in Hm as [Hm _]. apply project_simplex_length in Hp.
      do 6 (apply bind_Ok in Hd as (? & _ & Hd)). injection Hd as <- <-. cbn. split; [congruence|done]. }
    destruct stop; [injection H as <-; lia|]. apply IH in H as [? ?]. split; [congruence|lia].
Qed.

Lemma add_controls_length grid l : (length (foldl add_control l grid) ≤ length l + length grid)%nat.
Proof.
  revert l. induction grid as [|x grid IH]; intros l; cbn; [lia|]. etrans; [apply IH|].
  unfold add_control. case_match; rewrite ?length_app; cbn; lia.
Qed.

Lemma controls_length incumbent grid : zlen (controls incumbent grid) ≤ 1 + zlen grid.
Proof.
  unfold controls, zlen. rewrite (Permutation_length (sort_by_perm control_leb _)).
  pose proof (add_controls_length grid [incumbent]). cbn in *. lia.
Qed.

Lemma hundredths_length a n : 0 ≤ n → zlen (hundredths a n) = n.
Proof. intros. unfold zlen, hundredths. rewrite length_fmap, length_seqZ. lia. Qed.

Lemma fit_tau_within examples weights biases tw ww incumbent tau n :
  within f0 f1 incumbent = true → fit_tau examples weights biases tw ww incumbent = Ok (tau, n) →
  within f0 f1 tau = true ∧ 0 ≤ n ≤ 102.
Proof.
  intros Hi. unfold fit_tau. pose proof (controls_within _ _ _ _ Hi tau_grid) as Hw.
  pose proof (controls_length incumbent (hundredths 0 101)) as Hl. rewrite hundredths_length in Hl by lia.
  pose proof (controls_nonempty incumbent (hundredths 0 101)) as Hne.
  generalize dependent (controls incumbent (hundredths 0 101)). intros cs Hw Hl Hne H.
  apply best_control_spec in H as (Hb & -> & _); [| |done|].
  - split; [by eapply (proj1 (Forall_forall _ _) Hw)|unfold zlen in *; lia].
  - intros c k Hk Hc. rewrite tau_replay in Hk. destruct (replay_score _ _); [|done].
    injection Hk as <-. cbn. by rewrite fneg_is_nan.
  - eapply Forall_impl; [exact Hw|]. intros c. apply within_not_nan.
Qed.

Lemma fit_share_within boundaries incumbent share n :
  within Scorer.MIN_MEMORY_CONTEXT_SHARE Scorer.MAX_MEMORY_CONTEXT_SHARE incumbent = true →
  fit_share boundaries incumbent = Ok (share, n) →
  within Scorer.MIN_MEMORY_CONTEXT_SHARE Scorer.MAX_MEMORY_CONTEXT_SHARE share = true ∧ 0 ≤ n ≤ 51.
Proof.
  intros Hi. unfold fit_share. pose proof (controls_within _ _ _ _ Hi share_grid) as Hw.
  pose proof (controls_length incumbent (hundredths 1 50)) as Hl. rewrite hundredths_length in Hl by lia.
  pose proof (controls_nonempty incumbent (hundredths 1 50)) as Hne.
  generalize dependent (controls incumbent (hundredths 1 50)). intros cs Hw Hl Hne H.
  destruct boundaries as [|b bs]; [by injection H as <- <-|].
  apply best_control_spec in H as (Hb & -> & _); [| |done|].
  - split; [by eapply (proj1 (Forall_forall _ _) Hw)|unfold zlen in *; lia].
  - by intros c k [= <-].
  - eapply Forall_impl; [exact Hw|]. intros c. apply within_not_nan.
Qed.

Lemma fit_globals_bounds ps weights tw ww settings d t n w m o :
  fit_globals ps weights tw ww settings = Ok (d, (t, n), (w, m), o) →
  ps ≠ [] ∧ length (d_weights d) = length weights ∧ locality_ok t ∧ locality_ok w ∧
  0 ≤ d_iterations d + n + m ≤ 3 * MAX_ITERATIONS.
Proof.
  unfold fit_globals. intros H.
  apply bind_Ok in H as (pw & Hp%project_simplex_length & H).
  apply bind_Ok in H as ([] & Hne%guard_Ok & H). apply bind_Ok in H as (l & _ & H).
  apply bind_Ok in H as (step & _ & H). apply bind_Ok in H as (d1 & Hd & H).
  apply bind_Ok in H as ([[t1 n1] o1] & Ht & H). apply bind_Ok in H as ([[w1 m1] o2] & Hw & H).
  injection H as <- <- <- <- <- <-.
  apply descend_bounds in Hd as [Hdw Hdi]. cbn [d_weights d_iterations] in Hdw, Hdi.
  apply fit_coordinate_bounds in Ht as [? ?]. apply fit_coordinate_bounds in Hw as [? ?].
  rewrite Z2Nat.id in Hdi by (unfold MAX_ITERATIONS; lia). breflect. split_and!; try done; [congruence|lia..].
Qed.

Lemma project_offsets_names examples weights biases tw ww settings r k offsets :
  fit_project_offsets examples weights biases tw ww settings = Ok r →
  (k, offsets) ∈ r → offsets.*1 = weight_names.
Proof.
  unfold fit_project_offsets.
  assert (∀ keys r0, (∀ k offsets, (k, offsets) ∈ r0 → offsets.*1 = weight_names) →
    res_fold (project_step examples weights biases tw ww settings) r0 keys = Ok r →
    (k, offsets) ∈ r → offsets.*1 = weight_names) as H.
  { intros keys. induction keys as [|key keys IH]; intros r0 Hr0; cbn [res_fold].
    - intros [= ->]. apply Hr0.
    - intros H. apply bind_Ok in H as (r1 & Hs & H). revert H. apply IH. unfold project_step in Hs.
      destruct (pairs _); [by injection Hs as <-|]. apply bind_Ok in Hs as (offs & Ho & [= <-]).
      assert (offs.*1 = weight_names) as Hn.
      { unfold fit_project in Ho. do 4 (apply bind_Ok in Ho as (? & _ & Ho)). by apply zip_strict_pair in Ho. }
      clear -Hr0 Hn. intros k' offs' Hin.
      induction r0 as [|[k0 o0] r0 IH]; cbn in Hin.
      + apply list_elem_of_singleton in Hin. by injection Hin as -> ->.
      + case_decide; apply elem_of_cons in Hin as [[= -> ->]|Hin]; try done.
        * eapply Hr0. by right.
        * eapply Hr0. by left.
        * apply IH; [|done]. intros k1 o1 H1. eapply Hr0. by right. }
  apply H. by intros ? ? ?%elem_of_nil.
Qed.


(** ** Concrete inputs *)
Definition sample_example (uid : string) (gate memory : uuid) (ts : Z) (wanted : bool) (sem : float) :
    LearningExample := {|
  le_event_uid := lit uid; le_injection_id := gate; le_memory_id := memory; le_ts := ts;
  le_features := sem :: replicate 5 f0; le_baseline_bias := f0; le_target_injected := wanted;
  le_actor_weight := d1; le_shown_as := if wanted then shown_injected else shown_near_miss;
  le_body_tokens := 10; le_location_feature := None; le_location_weight := f0;
  le_thread_feature := None; le_thread_id := None; le_where_feature := None; le_where_weight := f0;
  le_project_key := Some (lit "p") |}.

Definition sample_examples : list LearningExample :=
  [sample_example "a" 1 1 5 true (f_ratio 1 2); sample_example "b" 1 2 6 false (f_ratio 1 2);
   sample_example "c" 2 1 9 true f1].

Definition sample_request (tune : bool) : FitRequest := {|
  incumbent_weights := replicate 6 (f_ratio 1 6); incumbent_thread_weight := f_ratio 1 4;
  incumbent_where_weight := f0; incumbent_tau := f_ratio 11 20;
  incumbent_memory_context_share := f_ratio 1 10;
  fit_share_boundaries := [{| sb_event_uid := lit "a"; sb_injection_id := 1;
    sb_required_share := f_ratio 1 5; sb_target_at_least := true; sb_actor_weight := d1;
    sb_kind := valuable_budget_cut |}];
  tune_share_and_tau := tune; fit_settings := {| pair_margin := f_ratio 1 10; bias_l2 := f1 |} |}.

Lemma ok_fit {E A} (r : res E A) : is_ok r = true → ∃ a, r = Ok a.
Proof. destruct r; [eauto|done]. Qed.

Lemma fit_order_independent_witness :
  fit_pairwise sample_examples (sample_request false) = fit_pairwise (rev sample_examples) (sample_request false).
Proof.
  apply fit_order_independent.
  - refine (bool_decide_eq_true_1 _ _). vm_compute. reflexivity.
  - symmetry. apply Permutation_rev.
  - reflexivity.
Defined.


Lemma fit_tau_optimal_witness :
  let fit := fit_tau sample_examples (replicate 6 (f_ratio 1 6)) [] f0 f0 in
  (∀ best n, fit (f_ratio 11 20) = Ok (best, n) →
     best = f_ratio 11 20 ∨ best ∈ hundredths 0 101) ∧ is_ok (fit (f_ratio 11 20)) = true.
Proof.
  assert (Hi : is_nan (f_ratio 11 20) = false) by (vm_compute; reflexivity).
  destruct (fit_tau_optimal sample_examples (replicate 6 (f_ratio 1 6)) [] f0 f0 (f_ratio 11 20) Hi)
    as [Hbest Hok].
  split; [intros best n H; exact (proj1 (Hbest best n H))|]. apply Hok.
  intros e He. assert (forallb (λ e, is_ok (example_score e (replicate 6 (f_ratio 1 6)) f0 f0)) sample_examples = true)
    as Hs by (vm_compute; reflexivity).
  apply forallb_Forall' in Hs. exact (proj1 (Forall_forall _ _) Hs e He).
Defined.

Lemma fit_share_optimal_witness : ∃ best n,
  fit_share (fit_share_boundaries (sample_request true)) (f_ratio 1 10) = Ok (best, n) ∧
  within Scorer.MIN_MEMORY_CONTEXT_SHARE Scorer.MAX_MEMORY_CONTEXT_SHARE best = true.
Proof.
  assert (Hi : within Scorer.MIN_MEMORY_CONTEXT_SHARE Scorer.MAX_MEMORY_CONTEXT_SHARE (f_ratio 1 10) = true)
    by (vm_compute; reflexivity).
  destruct (fit_share_optimal (fit_share_boundaries (sample_request true)) (f_ratio 1 10) Hi)
    as (best & n & Hf & Hw & _).
  exists best, n. split; [exact Hf|exact Hw].
Defined.

Lemma promotion_progress_witness :
  promoted (Dec 5 (-1)) {| disagreements := 2; weighted_disagreements := Dec 125 (-2); injected_tokens := 9;
      share_disagreements := 0; weighted_share_disagreements := d0 |} no_score ∧
  ¬ promoted (Dec 5 (-1)) no_score {| disagreements := 2; weighted_disagreements := Dec 125 (-2);
      injected_tokens := 9; share_disagreements := 0; weighted_share_disagreements := d0 |}.
Proof.
  assert (Hm : 0 < coef (Dec 5 (-1))) by reflexivity.
  destruct (promotion_progress (Dec 5 (-1)) Hm) as (_ & _ & Hasym).
  assert (Hp : promoted (Dec 5 (-1)) {| disagreements := 2; weighted_disagreements := Dec 125 (-2);
    injected_tokens := 9; share_disagreements := 0; weighted_share_disagreements := d0 |} no_score)
    by (vm_compute; reflexivity).
  split; [exact Hp|]. apply Hasym. exact Hp.
Defined.

(** With a zero margin two equal scores would replace each other for ever. *)
Example zero_margin_cycles : promoted d0 no_score no_score.
Proof. vm_compute. reflexivity. Qed.
