(* ===== verification/Jobs.v ===== *)
(** * Scheduled jobs: [src/src/spine/jobs.py]

    Named workflow recipes with a durable schedule cursor, and the runs claimed
    from them.  A request handler is one transaction over the two tables
    ([workflow_job], locked with [FOR UPDATE] by a claim, and [workflow_run]):
    it returns a row and the new tables, or raises and leaves them alone.  The
    host clock and the transaction's [now()] are arguments. *)
From S2P Require Import Prelude PyStr PyDecimal PyTime Ids.
Open Scope Z_scope.

(** ** The croniter package *)
Class Croniter := {
  cron_is_valid : str → bool;
  (** [croniter(line, t).get_next(datetime)]; [None] when it raises. *)
  cron_get_next : str → Z → option Z;
}.
(** Documented: the next occurrence is later than the start time. *)
Class CroniterLaws `{Croniter} := {
  cron_get_next_later : ∀ line t t', cron_get_next line t = Some t' → t < t';
}.

(** ** Data *)
Inductive tools_mode := tools_pydantic | tools_none.
Inductive scope_mode := scope_workspace | scope_none.
Inductive trigger_kind := trigger_file | trigger_queue | trigger_palace.
Inductive RunState := running | completed | failed | cancelled | interrupted.

#[export] Instance trigger_kind_eq_dec : EqDecision trigger_kind.
Proof. solve_decision. Defined.
#[export] Instance run_state_eq_dec : EqDecision RunState.
Proof. solve_decision. Defined.

Record WorkflowDefinition := {
  wd_name : str;
  wd_prompt : str;
  wd_folder : str;
  wd_model_policy : str;
  wd_tools : tools_mode;
  wd_memory_scope : scope_mode;
  wd_budget_usd : dec;
  wd_exit_condition : str;
  wd_cron : option str;
  wd_trigger : option trigger_kind;
  wd_trigger_path : option str;
}.

Record SaveJob := {
  sj_principal_id : str;
  sj_machine_id : str;
  sj_definition : WorkflowDefinition;
  sj_expected_revision : Z;
  sj_enabled : bool;
  sj_trigger_cursor : option str;
}.

Record ClaimJob := {
  cj_principal_id : str;
  cj_machine_id : str;
  cj_run_id : str;
  cj_thread_id : uuid;
  cj_trigger_key : str;
  cj_expected_revision : Z;
  cj_trigger_cursor : option str;
  cj_manual : bool;
}.

(** [FinishJob.state] admits every state but [running]. *)
Record FinishJob := {
  fj_principal_id : str;
  fj_machine_id : str;
  fj_state : RunState;
  fj_verdict : str;
}.
Definition finish_valid (b : FinishJob) : bool := negb (bool_decide (fj_state b = running)).

Record WorkflowJob := {
  j_id : str;
  j_principal_id : str;
  j_machine_id : str;
  j_definition : WorkflowDefinition;
  j_revision : Z;
  j_enabled : bool;
  j_next_run_at : option Z;
  j_trigger_cursor : option str;
  j_created_at : Z;
}.

Record WorkflowRun := {
  r_id : str;
  r_job_id : str;
  r_thread_id : uuid;
  r_trigger_key : str;
  r_definition : WorkflowDefinition;
  r_state : RunState;
  r_verdict : option str;
  r_started_at : Z;
  r_finished_at : option Z;
}.

Record jobs_db := { jobs : gmap str WorkflowJob; runs : gmap str WorkflowRun }.

Inductive job_error :=
  | HTTP (status_code : Z) (detail : string)
  | ServerError (what : string).

(** ** Validation *)

(** [value.split()]: the maximal runs of non-blank characters. *)
Fixpoint split_words (current : str) (s : str) : list str :=
  let flush := match current with [] => [] | _ => [current] end in
  match s with
  | [] => flush
  | c :: s => if is_space c then flush ++ split_words [] s else split_words (current ++ [c]) s
  end.

Definition truthy (o : option str) : bool :=
  match o with Some (_ :: _) => true | _ => false end.

Section service.
Context `{Croniter}.

Definition cron_line_ok (value : option str) (now : Z) : bool :=
  match value with
  | None => true
  | Some line =>
      (length (split_words [] line) =? 5)%nat && cron_is_valid line
      && match cron_get_next line now with Some _ => true | None => false end
  end.

Definition schedule_shape (d : WorkflowDefinition) : bool :=
  negb (truthy (wd_cron d) && bool_decide (wd_trigger d ≠ None))
  && Bool.eqb (bool_decide (wd_trigger d = Some trigger_file)) (truthy (wd_trigger_path d)).

(** [WorkflowDefinition.model_validate] accepts. *)
Definition definition_valid (d : WorkflowDefinition) (now : Z) : bool :=
  forallb (λ s, negb (blank s))
    [wd_name d; wd_prompt d; wd_folder d; wd_model_policy d; wd_exit_condition d]
  && (0 <? coef (wd_budget_usd d))
  && cron_line_ok (wd_cron d) now && schedule_shape d.

Definition save_valid (b : SaveJob) (now : Z) : bool :=
  definition_valid (sj_definition b) now && (0 <=? sj_expected_revision b).

(** ** Handlers *)
Definition INT4_MAX : Z := 2147483647.

Definition get_next (line : str) (now : Z) : res job_error Z :=
  match cron_get_next line now with Some t => Ok t | None => Err (ServerError "CroniterBadDateError") end.

Definition save_next_run (b : SaveJob) (now : Z) : res job_error (option Z) :=
  match wd_cron (sj_definition b) with
  | Some line => if truthy (Some line) && sj_enabled b then t ← get_next line now; Ok (Some t) else Ok None
  | None => Ok None
  end.

Definition new_job (job_id : str) (b : SaveJob) (next_run : option Z) (tx_now : Z) : WorkflowJob := {|
  j_id := job_id; j_principal_id := sj_principal_id b; j_machine_id := sj_machine_id b;
  j_definition := sj_definition b; j_revision := 1; j_enabled := sj_enabled b;
  j_next_run_at := next_run; j_trigger_cursor := sj_trigger_cursor b; j_created_at := tx_now |}.

Definition saved_job (b : SaveJob) (next_run : option Z) (j : WorkflowJob) : WorkflowJob := {|
  j_id := j_id j; j_principal_id := j_principal_id j; j_machine_id := j_machine_id j;
  j_definition := sj_definition b; j_revision := j_revision j + 1; j_enabled := sj_enabled b;
  j_next_run_at := next_run; j_trigger_cursor := sj_trigger_cursor b; j_created_at := j_created_at j |}.

Definition owned (p m : str) (j : WorkflowJob) : bool :=
  bool_decide (j_principal_id j = p) && bool_decide (j_machine_id j = m).

Definition put_job (j : WorkflowJob) (d : jobs_db) : jobs_db :=
  {| jobs := <[j_id j := j]> (jobs d); runs := runs d |}.
Definition put_run (r : WorkflowRun) (d : jobs_db) : jobs_db :=
  {| jobs := jobs d; runs := <[r_id r := r]> (runs d) |}.

Definition changed_conflict : job_error := HTTP 409 "The workflow changed. Refresh before saving.".

(** [JobService.save]. *)
Definition save (job_id : str) (b : SaveJob) (now tx_now : Z) (d : jobs_db) :
    res job_error (WorkflowJob * jobs_db) :=
  next_run ← save_next_run b now;
  if sj_expected_revision b =? 0 then
    match jobs d !! job_id with
    | None => let j := new_job job_id b next_run tx_now in Ok (j, put_job j d)
    | Some _ => Err changed_conflict
    end
  else
    guard_ (sj_expected_revision b <=? INT4_MAX) (ServerError "DataError");;
    match jobs d !! job_id with
    | Some j =>
        if owned (sj_principal_id b) (sj_machine_id b) j && (j_revision j =? sj_expected_revision b) then
          guard_ (j_revision j + 1 <=? INT4_MAX) (ServerError "NumericValueOutOfRange");;
          let j' := saved_job b next_run j in Ok (j', put_job j' d)
        else Err changed_conflict
    | None => Err changed_conflict
    end.

Definition run_list (d : jobs_db) : list WorkflowRun := (map_to_list (runs d)).*2.

Definition is_running (job_id : str) (r : WorkflowRun) : bool :=
  bool_decide (r_job_id r = job_id) && bool_decide (r_state r = running).

(** A new run clashes with the primary key or a unique constraint. *)
Definition run_clash (n r : WorkflowRun) : bool :=
  bool_decide (r_id r = r_id n) || bool_decide (r_thread_id r = r_thread_id n)
  || bool_decide (r_job_id r = r_job_id n) && bool_decide (r_trigger_key r = r_trigger_key n).

Definition new_run (job_id : str) (b : ClaimJob) (definition : WorkflowDefinition) (tx_now : Z) :
    WorkflowRun := {|
  r_id := cj_run_id b; r_job_id := job_id; r_thread_id := cj_thread_id b;
  r_trigger_key := cj_trigger_key b; r_definition := definition; r_state := running;
  r_verdict := None; r_started_at := tx_now; r_finished_at := None |}.

(** The guards of a scheduled claim. *)
Definition scheduled_guard (j : WorkflowJob) (b : ClaimJob) (now : Z) : res job_error unit :=
  guard_ (j_enabled j) (HTTP 409 "This schedule is paused.");;
  if truthy (wd_cron (j_definition j)) then
    match j_next_run_at j with
    | Some t =>
        guard_ (t <=? now) (HTTP 409 "This schedule is not due.");;
        guard_ (bool_decide (cj_trigger_key b = isoformat t)) (HTTP 409 "The scheduled occurrence changed.")
    | None => Err (HTTP 409 "This schedule is not due.")
    end
  else
    guard_ (bool_decide (wd_trigger (j_definition j) ≠ None)
            && bool_decide (cj_trigger_cursor b ≠ None)
            && negb (bool_decide (cj_trigger_cursor b = j_trigger_cursor j)))
      (HTTP 409 "No new trigger event.").

Definition advanced_job (b : ClaimJob) (next_run : option Z) (j : WorkflowJob) : WorkflowJob := {|
  j_id := j_id j; j_principal_id := j_principal_id j; j_machine_id := j_machine_id j;
  j_definition := j_definition j; j_revision := j_revision j; j_enabled := j_enabled j;
  j_next_run_at := next_run; j_trigger_cursor := cj_trigger_cursor b; j_created_at := j_created_at j |}.

Definition claim_next_run (j : WorkflowJob) (now : Z) : res job_error (option Z) :=
  match wd_cron (j_definition j) with
  | Some line => if truthy (Some line) then t ← get_next line now; Ok (Some t) else Ok None
  | None => Ok None
  end.

(** [JobService.claim]. *)
Definition claim (job_id : str) (b : ClaimJob) (now tx_now : Z) (d : jobs_db) :
    res job_error (WorkflowRun * jobs_db) :=
  match jobs d !! job_id with
  | None => Err (HTTP 404 "Workflow not found.")
  | Some j =>
      guard_ (owned (cj_principal_id b) (cj_machine_id b) j) (HTTP 404 "Workflow not found.");;
      guard_ (negb (existsb (is_running job_id) (run_list d)) && (j_revision j =? cj_expected_revision b))
        (HTTP 409 "Workflow is already running or changed. Refresh it.");;
      guard_ (definition_valid (j_definition j) now) (ServerError "ValidationError");;
      (if cj_manual b then Ok tt else scheduled_guard j b now);;
      let r := new_run job_id b (j_definition j) tx_now in
      guard_ (negb (existsb (run_clash r) (run_list d))) (HTTP 409 "This occurrence was already started.");;
      let d := put_run r d in
      if cj_manual b then Ok (r, d)
      else next_run ← claim_next_run j now; Ok (r, put_job (advanced_job b next_run j) d)
  end.

Definition finished_run (b : FinishJob) (tx_now : Z) (r : WorkflowRun) : WorkflowRun := {|
  r_id := r_id r; r_job_id := r_job_id r; r_thread_id := r_thread_id r;
  r_trigger_key := r_trigger_key r; r_definition := r_definition r; r_state := fj_state b;
  r_verdict := Some (fj_verdict b); r_started_at := r_started_at r; r_finished_at := Some tx_now |}.

(** [JobService.finish]. *)
Definition finish (run_id : str) (b : FinishJob) (tx_now : Z) (d : jobs_db) :
    res job_error (WorkflowRun * jobs_db) :=
  let absent := HTTP 409 "Run is absent or already finished." in
  match runs d !! run_id with
  | Some r =>
      match jobs d !! r_job_id r with
      | Some j =>
          guard_ (owned (fj_principal_id b) (fj_machine_id b) j && bool_decide (r_state r = running)) absent;;
          let r' := finished_run b tx_now r in Ok (r', put_run r' d)
      | None => Err absent
      end
  | None => Err absent
  end.

(** ** [JobService.list] *)

(** The receipts of the spend ledger that a run's cost is summed from. *)
Record SpendReceipt := { sp_principal_id : str; sp_thread_id : option uuid; sp_cost_usd : option dec }.

(** A sum of [numeric] values is exact. *)
Definition numeric_add (a b : dec) : dec :=
  let e := Z.min (dexp a) (dexp b) in Dec (rescaled e a + rescaled e b) e.

Definition run_receipts (spend : list SpendReceipt) (j : WorkflowJob) (r : WorkflowRun) : list SpendReceipt :=
  filter (λ s, sp_principal_id s = j_principal_id j ∧ sp_thread_id s = Some (r_thread_id r)) spend.

Definition job_leb (a b : WorkflowJob) : bool :=
  (j_created_at a <? j_created_at b)
  || (j_created_at a =? j_created_at b) && str_leb (j_id a) (j_id b).
Definition run_leb (a b : WorkflowRun) : bool :=
  (r_started_at a <? r_started_at b)
  || (r_started_at a =? r_started_at b) && str_leb (r_id a) (r_id b).

Definition list_jobs (p m : str) (d : jobs_db) : list WorkflowJob :=
  sort_by job_leb (filter (λ j, owned p m j = true) (map_to_list (jobs d)).*2).

(** A run with [spend_usd] and [unpriced_lines]. *)
Definition run_spend (spend : list SpendReceipt) (j : WorkflowJob) (r : WorkflowRun) :
    WorkflowRun * dec * Z :=
  let receipts := run_receipts spend j r in
  (r, foldr numeric_add d0 (omap sp_cost_usd receipts),
   zlen (filter (λ s, sp_cost_usd s = None) receipts)).

Definition list_runs (spend : list SpendReceipt) (p m : str) (d : jobs_db) : list (WorkflowRun * dec * Z) :=
  r ← sort_by run_leb (run_list d);
  match jobs d !! r_job_id r with
  | Some j => if owned p m j then [run_spend spend j r] else []
  | None => []
  end.

(** ** The service as a transition system: any client, any interleaving of
    transactions, any clock readings. *)
Definition no_jobs : jobs_db := {| jobs := ∅; runs := ∅ |}.

Inductive jobs_step (d : jobs_db) : jobs_db → Prop :=
  | step_save job_id b now0 now tx_now j d' :
      save_valid b now0 = true → save job_id b now tx_now d = Ok (j, d') → jobs_step d d'
  | step_claim job_id b now tx_now r d' :
      claim job_id b now tx_now d = Ok (r, d') → jobs_step d d'
  | step_finish run_id b tx_now r d' :
      finish_valid b = true → finish run_id b tx_now d = Ok (r, d') → jobs_step d d'.

Definition reachable : jobs_db → Prop := rtc jobs_step no_jobs.
End service.
