(* ===== verification/JobsFacts.v ===== *)
(** * What scheduled jobs guarantee *)
From stdpp Require Import relations.
From S2P Require Import Prelude PyStr PyDecimal PyTime Ids Jobs.
Open Scope Z_scope.

(** ** The invariant of the two tables *)
Record jobs_inv (d : jobs_db) : Prop := {
  inv_job_key : ∀ k j, jobs d !! k = Some j → j_id j = k;
  inv_run_key : ∀ k r, runs d !! k = Some r → r_id r = k;
  inv_run_job : ∀ k r, runs d !! k = Some r → is_Some (jobs d !! r_job_id r);
  inv_single : ∀ k k' r r', runs d !! k = Some r → runs d !! k' = Some r' →
    r_job_id r = r_job_id r' → r_state r = running → r_state r' = running → k = k';
  inv_occurrence : ∀ k k' r r', runs d !! k = Some r → runs d !! k' = Some r' →
    r_job_id r = r_job_id r' → r_trigger_key r = r_trigger_key r' → k = k';
  inv_thread : ∀ k k' r r', runs d !! k = Some r → runs d !! k' = Some r' →
    r_thread_id r = r_thread_id r' → k = k';
  inv_finished : ∀ k r, runs d !! k = Some r →
    (r_state r = running ↔ r_finished_at r = None) ∧ (r_state r = running ↔ r_verdict r = None);
  inv_revision : ∀ k j, jobs d !! k = Some j → 1 ≤ j_revision j ≤ INT4_MAX;
}.

Lemma run_list_elem d r : r ∈ run_list d ↔ ∃ k, runs d !! k = Some r.
Proof.
  unfold run_list. rewrite list_elem_of_fmap. split.
  - intros ([k ?] & -> & Hin%elem_of_map_to_list). by exists k.
  - intros [k Hk]. exists (k, r). by rewrite elem_of_map_to_list.
Qed.

Lemma no_run_such d (f : WorkflowRun → bool) k r :
  existsb f (run_list d) = false → runs d !! k = Some r → f r = false.
Proof.
  intros Hf Hr. destruct (f r) eqn:E; [|done]. rewrite <- Hf. symmetry. apply existsb_exists.
  exists r. rewrite <- list_elem_of_In. split; [apply run_list_elem; eauto|done].
Qed.

Lemma run_clash_false n r : run_clash n r = false →
  r_id r ≠ r_id n ∧ r_thread_id r ≠ r_thread_id n ∧ ¬ (r_job_id r = r_job_id n ∧ r_trigger_key r = r_trigger_key n).
Proof. unfold run_clash. intros H. split_and!; intros ?; destruct_and?; repeat case_bool_decide; done. Qed.

Lemma inv_put_job d j :
  jobs_inv d → 1 ≤ j_revision j ≤ INT4_MAX → jobs_inv (put_job j d).
Proof.
  intros [] Hr. split; cbn; try done.
  - intros k j'. rewrite lookup_insert_Some. intros [[<- <-]|[_ ?]]; eauto.
  - intros k r Hk. rewrite lookup_insert_is_Some. destruct (decide (j_id j = r_job_id r)); eauto.
  - intros k j'. rewrite lookup_insert_Some. intros [[_ <-]|[_ ?]]; eauto.
Qed.

(** Adding a run that clashes with none and is the only running one. *)
Lemma inv_put_new d r :
  jobs_inv d → is_Some (jobs d !! r_job_id r) →
  existsb (is_running (r_job_id r)) (run_list d) = false → existsb (run_clash r) (run_list d) = false →
  (r_state r = running ↔ r_finished_at r = None) → (r_state r = running ↔ r_verdict r = None) →
  jobs_inv (put_run r d).
Proof.
  intros Hinv Hj Hrun Hclash Hf Hv.
  assert (Hc : ∀ k r', runs d !! k = Some r' → run_clash r r' = false) by (intros; by eapply no_run_such).
  assert (Hs : ∀ k r', runs d !! k = Some r' → is_running (r_job_id r) r' = false)
    by (intros; by eapply (no_run_such d (is_running (r_job_id r)))).
  assert (Hn : ∀ k r', runs d !! k = Some r' → r_job_id r' = r_job_id r → r_state r' ≠ running).
  { intros k r' Hk E1 E2. specialize (Hs k r' Hk). unfold is_running in Hs.
    by rewrite E1, E2, !bool_decide_true in Hs. }
  destruct Hinv. split; cbn; try done.
  - intros k r'. rewrite lookup_insert_Some. intros [[<- <-]|[_ ?]]; eauto.
  - intros k r'. rewrite lookup_insert_Some. intros [[_ <-]|[_ ?]]; eauto.
  - intros k k' r1 r2. rewrite !lookup_insert_Some.
    intros [[<- <-]|[_ H1]] [[<- <-]|[_ H2]] E S1 S2; try done; [..|by eauto].
    + by destruct (Hn k' r2).
    + by destruct (Hn k r1).
  - intros k k' r1 r2. rewrite !lookup_insert_Some.
    intros [[<- <-]|[_ H1]] [[<- <-]|[_ H2]] E1 E2; try done; [..|by eauto].
    + apply Hc, run_clash_false in H2 as (_ & _ & []). done.
    + apply Hc, run_clash_false in H1 as (_ & _ & []). done.
  - intros k k' r1 r2. rewrite !lookup_insert_Some.
    intros [[<- <-]|[_ H1]] [[<- <-]|[_ H2]] E1; try done; [..|by eauto].
    + by apply Hc, run_clash_false in H2 as (_ & [] & _).
    + by apply Hc, run_clash_false in H1 as (_ & [] & _).
  - intros k r'. rewrite lookup_insert_Some. intros [[_ <-]|[_ ?]]; eauto.
Qed.

(** Finishing a run in place. *)
Lemma inv_put_finished d k r b tx_now :
  jobs_inv d → runs d !! k = Some r → finish_valid b = true → jobs_inv (put_run (finished_run b tx_now r) d).
Proof.
  intros [] Hr Hb. pose proof (inv_run_key0 _ _ Hr) as Hid.
  assert (fj_state b ≠ running) as Hnr.
  { unfold finish_valid in Hb. by apply negb_true_iff, bool_decide_eq_false_1 in Hb. }
  split; cbn; rewrite ?Hid; try done.
  - intros k' r'. rewrite lookup_insert_Some. intros [[<- <-]|[_ ?]]; eauto.
  - intros k' r'. rewrite lookup_insert_Some. intros [[_ <-]|[_ ?]]; cbn; eauto.
  - intros k1 k2 r1 r2. rewrite !lookup_insert_Some.
    intros [[<- <-]|[_ H1]] [[<- <-]|[_ H2]] E S1 S2; cbn in *; congruence || by eauto.
  - intros k1 k2 r1 r2. rewrite !lookup_insert_Some.
    intros [[<- <-]|[_ H1]] [[<- <-]|[_ H2]] E1 E2; cbn in *; congruence || by eauto.
  - intros k1 k2 r1 r2. rewrite !lookup_insert_Some.
    intros [[<- <-]|[_ H1]] [[<- <-]|[_ H2]] E1; cbn in *; congruence || by eauto.
  - intros k' r'. rewrite lookup_insert_Some. intros [[_ <-]|[_ ?]]; cbn; [split; split; congruence|eauto].
Qed.

Section facts.
Context `{Croniter}.

(** ** Each handler, on success *)
Lemma save_Ok job_id b now tx_now d j d' :
  save job_id b now tx_now d = Ok (j, d') →
  ∃ next, save_next_run b now = Ok next ∧ d' = put_job j d ∧
  (sj_expected_revision b = 0 ∧ jobs d !! job_id = None ∧ j = new_job job_id b next tx_now ∨
   sj_expected_revision b ≠ 0 ∧ ∃ j0, jobs d !! job_id = Some j0 ∧
     owned (sj_principal_id b) (sj_machine_id b) j0 = true ∧
     j_revision j0 = sj_expected_revision b ∧ j_revision j0 < INT4_MAX ∧ j = saved_job b next j0).
Proof.
  unfold save. intros H'. apply bind_Ok in H' as (next & Hn & H'). exists next. split; [done|].
  destruct (Z.eqb_spec (sj_expected_revision b) 0).
  - destruct (jobs d !! job_id); [done|]. injection H' as <- <-. auto.
  - apply bind_Ok in H' as ([] & _ & H'). destruct (jobs d !! job_id) as [j0|]; [|done].
    destruct (owned _ _ j0 && _) eqn:E; [|done]. apply andb_true_iff in E as [Ho Hr].
    apply bind_Ok in H' as ([] & Hm%guard_Ok & H'). injection H' as <- <-.
    split; [done|]. right. split; [done|]. exists j0. split_and!; try done; lia.
Qed.

Lemma claim_Ok job_id b now tx_now d r d' :
  claim job_id b now tx_now d = Ok (r, d') ↔
  ∃ j, jobs d !! job_id = Some j ∧ owned (cj_principal_id b) (cj_machine_id b) j = true ∧
    existsb (is_running job_id) (run_list d) = false ∧ j_revision j = cj_expected_revision b ∧
    definition_valid (j_definition j) now = true ∧
    (cj_manual b = false → scheduled_guard j b now = Ok tt) ∧
    r = new_run job_id b (j_definition j) tx_now ∧
    existsb (run_clash r) (run_list d) = false ∧
    if cj_manual b then d' = put_run r d
    else ∃ next, claim_next_run j now = Ok next ∧ d' = put_job (advanced_job b next j) (put_run r d).
Proof.
  unfold claim. destruct (jobs d !! job_id) as [j|]; [|split; [done|by intros (? & [=] & _)]]. split.
  - intros H'. exists j. apply bind_Ok in H' as ([] & Ho%guard_Ok & H').
    apply bind_Ok in H' as ([] & [Hr%negb_true_iff He%Z.eqb_eq]%guard_Ok%andb_true_iff & H').
    apply bind_Ok in H' as ([] & Hv%guard_Ok & H'). apply bind_Ok in H' as ([] & Hg & H').
    apply bind_Ok in H' as ([] & Hc%guard_Ok%negb_true_iff & H').
    destruct (cj_manual b).
    + injection H' as <- <-. split_and!; done.
    + apply bind_Ok in H' as (next & Hn & H'). injection H' as <- <-. split_and!; eauto.
  - intros (j0 & [= <-] & Ho & Hr & He & Hv & Hg & -> & Hc & Hd). rewrite Ho. cbn [guard_ mbind res_bind].
    rewrite Hr, He, Z.eqb_refl. cbn [guard_ mbind res_bind negb andb]. rewrite Hv. cbn [guard_ mbind res_bind].
    rewrite Hc. destruct (cj_manual b); cbn [guard_ mbind res_bind negb]; [by subst|].
    rewrite Hg by done. cbn. destruct Hd as (next & -> & ->). done.
Qed.

Lemma finish_Ok run_id b tx_now d r d' :
  finish run_id b tx_now d = Ok (r, d') ↔
  ∃ r0 j, runs d !! run_id = Some r0 ∧ jobs d !! r_job_id r0 = Some j ∧
    owned (fj_principal_id b) (fj_machine_id b) j = true ∧ r_state r0 = running ∧
    r = finished_run b tx_now r0 ∧ d' = put_run r d.
Proof.
  unfold finish. destruct (runs d !! run_id) as [r0|]; [|split; [done|by intros (? & ? & [=] & _)]].
  destruct (jobs d !! r_job_id r0) as [j|] eqn:Ej.
  - split.
    + intros H'. apply bind_Ok in H' as ([] & [Ho Hs%bool_decide_eq_true_1]%guard_Ok%andb_true_iff & [= <- <-]).
      exists r0, j. split_and!; done.
    + intros (r1 & j1 & [= <-] & Hj & Ho & Hs & -> & ->). rewrite Ej in Hj. injection Hj as <-.
      by rewrite Ho, bool_decide_true.
  - split; [done|]. intros (r1 & j1 & [= <-] & Hj & _). congruence.
Qed.

Lemma step_inv d d' : jobs_inv d → jobs_step d d' → jobs_inv d'.
Proof.
  intros Hinv [job_id b now0 now tx_now j d1 _ Hs|job_id b now tx_now r d1 Hs|run_id b tx_now r d1 Hb Hs].
  - apply save_Ok in Hs as (next & _ & -> & [(_ & _ & ->)|(_ & j0 & Hj & _ & _ & Hlt & ->)]);
      apply inv_put_job; cbn; try done. pose proof (inv_revision d Hinv _ _ Hj). lia.
  - apply claim_Ok in Hs as (j & Hj & _ & Hr & _ & _ & _ & -> & Hc & Hd).
    assert (jobs_inv (put_run (new_run job_id b (j_definition j) tx_now) d)) as Hinv'
      by (apply inv_put_new; try done; by exists j).
    destruct (cj_manual b); [by subst|]. destruct Hd as (next & _ & ->).
    apply inv_put_job; [done|]. apply (inv_revision d Hinv _ _ Hj).
  - apply finish_Ok in Hs as (r0 & j & Hr & _ & _ & _ & -> & ->). by eapply inv_put_finished.
Qed.

Lemma steps_inv d d' : rtc jobs_step d d' → jobs_inv d → jobs_inv d'.
Proof. induction 1; eauto using step_inv. Qed.

Lemma no_jobs_inv : jobs_inv no_jobs.
Proof. split; cbn; by intros. Qed.

Lemma reachable_inv d : reachable d → jobs_inv d.
Proof. intros Hr. eapply steps_inv; [done|apply no_jobs_inv]. Qed.

(** ** What a step keeps *)

(** A run's later version: its frozen part is the same and a finished run is final. *)
Definition later_run (r r' : WorkflowRun) : Prop :=
  r_id r' = r_id r ∧ r_job_id r' = r_job_id r ∧ r_thread_id r' = r_thread_id r ∧
  r_trigger_key r' = r_trigger_key r ∧ r_definition r' = r_definition r ∧
  r_started_at r' = r_started_at r ∧ (r_state r ≠ running → r' = r).

(** A job's later version: the owner is the same, the revision counts the
    saves, and the recipe of a revision does not change. *)
Definition later_job (j j' : WorkflowJob) : Prop :=
  j_id j' = j_id j ∧ j_principal_id j' = j_principal_id j ∧ j_machine_id j' = j_machine_id j ∧
  j_created_at j' = j_created_at j ∧ j_revision j ≤ j_revision j' ∧
  (j_revision j' = j_revision j → j_definition j' = j_definition j ∧ j_enabled j' = j_enabled j).

Definition later (d d' : jobs_db) : Prop :=
  (∀ k r, runs d !! k = Some r → ∃ r', runs d' !! k = Some r' ∧ later_run r r') ∧
  (∀ k j, jobs d !! k = Some j → ∃ j', jobs d' !! k = Some j' ∧ later_job j j').

Lemma later_run_refl r : later_run r r.
Proof. by split_and!. Qed.
Lemma later_job_refl j : later_job j j.
Proof. by split_and!. Qed.

Lemma later_run_trans r1 r2 r3 : later_run r1 r2 → later_run r2 r3 → later_run r1 r3.
Proof.
  intros (?&?&?&?&?&?&Ha) (?&?&?&?&?&?&Hb). split_and!; try congruence.
  intros Hr. rewrite Hb; [by apply Ha|]. by rewrite Ha.
Qed.

Lemma later_job_trans j1 j2 j3 : later_job j1 j2 → later_job j2 j3 → later_job j1 j3.
Proof.
  intros (?&?&?&?&?&Ha) (?&?&?&?&?&Hb). split_and!; try congruence; [lia|].
  intros Hr. destruct Ha as [<- <-]; [lia|]. apply Hb. lia.
Qed.

#[local] Instance later_preorder : PreOrder later.
Proof.
  split.
  - intros d. split; eauto using later_run_refl, later_job_refl.
  - intros d1 d2 d3 [R1 J1] [R2 J2]. split.
    + intros k r (r2 & H2 & L1)%R1. apply R2 in H2 as (r3 & H3 & L2). eauto using later_run_trans.
    + intros k j (j2 & H2 & L1)%J1. apply J2 in H2 as (j3 & H3 & L2). eauto using later_job_trans.
Qed.

Lemma later_put_job d j0 j :
  jobs d !! j_id j = Some j0 ∧ later_job j0 j ∨ jobs d !! j_id j = None → later d (put_job j d).
Proof.
  intros Hj. split; cbn; [eauto using later_run_refl|]. intros k j1 Hk.
  destruct (decide (j_id j = k)) as [<-|Hne].
  - rewrite lookup_insert_eq. exists j. split; [done|]. destruct Hj as [[Hj ?]|Hj]; congruence.
  - rewrite lookup_insert_ne by done. eauto using later_job_refl.
Qed.

Lemma later_put_run d r0 r :
  runs d !! r_id r = Some r0 ∧ later_run r0 r ∨ runs d !! r_id r = None → later d (put_run r d).
Proof.
  intros Hr. split; cbn; [|eauto using later_job_refl]. intros k r1 Hk.
  destruct (decide (r_id r = k)) as [<-|Hne].
  - rewrite lookup_insert_eq. exists r. split; [done|]. destruct Hr as [[Hr ?]|Hr]; congruence.
  - rewrite lookup_insert_ne by done. eauto using later_run_refl.
Qed.

Lemma fresh_run d r : existsb (run_clash r) (run_list d) = false → jobs_inv d → runs d !! r_id r = None.
Proof.
  intros Hc Hinv. destruct (runs d !! r_id r) as [r'|] eqn:E; [|done].
  pose proof (inv_run_key d Hinv _ _ E) as Hid.
  eapply no_run_such in Hc as (Hne & _)%run_clash_false; [|exact E]. done.
Qed.

Lemma step_later d d' : jobs_inv d → jobs_step d d' → later d d'.
Proof.
  intros Hinv [job_id b now0 now tx_now j d1 _ Hs|job_id b now tx_now r d1 Hs|run_id b tx_now r d1 Hb Hs].
  - apply save_Ok in Hs as (next & _ & -> & [(_ & Hj & ->)|(_ & j0 & Hj & _ & _ & Hlt & ->)]).
    + apply (later_put_job _ (new_job job_id b next tx_now)). by right.
    + apply (later_put_job _ j0). left. cbn. pose proof (inv_job_key d Hinv _ _ Hj) as ->.
      split; [done|]. split_and!; cbn; (done || lia).
  - apply claim_Ok in Hs as (j & Hj & _ & _ & _ & _ & _ & -> & Hc & Hd).
    assert (later d (put_run (new_run job_id b (j_definition j) tx_now) d)) as Hl.
    { apply (later_put_run _ (new_run job_id b (j_definition j) tx_now)). right. by apply fresh_run. }
    destruct (cj_manual b); [by subst|]. destruct Hd as (next & _ & ->). etrans; [exact Hl|].
    apply (later_put_job _ j). left. cbn. pose proof (inv_job_key d Hinv _ _ Hj) as ->.
    split; [done|]. split_and!; cbn; (done || lia).
  - apply finish_Ok in Hs as (r0 & j & Hr & _ & _ & Hst & -> & ->). apply (later_put_run _ r0). left.
    cbn. rewrite (inv_run_key d Hinv _ _ Hr). split; [done|]. by split_and!.
Qed.

Lemma steps_later d d' : jobs_inv d → rtc jobs_step d d' → later d d'.
Proof.
  intros Hinv Hs. induction Hs as [d|d1 d2 d3 H1 _ IH]; [done|].
  etrans; [by apply step_later|]. apply IH. by eapply step_inv.
Qed.

(** C10: in every reachable state of the job tables, whatever the clients, the
    clock and the interleaving of transactions: a job has at most one running
    run, an occurrence was started at most once, threads are not shared, every
    run has its job, exactly the finished runs carry a finish time and a
    verdict, and revisions stay in their integer column. *)
Theorem jobs_reachable_inv (d : jobs_db) : reachable d → jobs_inv d.
Proof. apply reachable_inv. Qed.

(** History is kept.  From a reachable state no sequence of requests removes
    a run or a job, changes what a run froze (job, thread, occurrence, recipe,
    start) or anything of a finished run, moves a job to another owner, lowers
    its revision, or changes the recipe of a revision. *)
Theorem job_history (d d' : jobs_db) : reachable d → rtc jobs_step d d' → later d d'.
Proof. intros Hr. by apply steps_later, reachable_inv. Qed.

(** No lost update.  Once a save against a revision succeeded, no save
    against the same revision (or a second creation) ever succeeds for that
    job, whoever sends it and whatever happens in between. *)
Theorem save_no_lost_update job_id b now tx_now d j d1 d2 b' now' tx_now' :
  reachable d → save_valid b now = true → save job_id b now tx_now d = Ok (j, d1) → rtc jobs_step d1 d2 →
  sj_expected_revision b' = sj_expected_revision b →
  j_revision j = sj_expected_revision b + 1 ∧ is_ok (save job_id b' now' tx_now' d2) = false.
Proof.
  intros Hr Hv Hs Hsteps Hb. pose proof (reachable_inv d Hr) as Hinv.
  assert (jobs_step d d1) as Hstep by (by eapply step_save).
  pose proof (steps_later _ _ (step_inv _ _ Hinv Hstep) Hsteps) as [_ Hl].
  apply save_Ok in Hs as (next & _ & -> & Hcase).
  assert (jobs (put_job j d) !! job_id = Some j ∧ j_revision j = sj_expected_revision b + 1) as [Hj Hrev].
  { cbn. destruct Hcase as [(-> & Hj & ->)|(_ & j0 & Hj & _ & <- & _ & ->)]; cbn; [by rewrite lookup_insert_eq|].
    rewrite (inv_job_key d Hinv _ _ Hj). by rewrite lookup_insert_eq. }
  split; [done|]. apply Hl in Hj as (j' & Hj' & _ & _ & _ & _ & Hle & _).
  destruct (save job_id b' now' tx_now' d2) as [[j2 d3]|] eqn:E; [|done].
  apply save_Ok in E as (next' & _ & _ & [(_ & Hnone & _)|(_ & j0 & Hj0 & _ & Hrev' & _)]); [congruence|].
  rewrite Hj' in Hj0. injection Hj0 as <-. lia.
Qed.

(** An occurrence starts exactly once.  After a successful claim the run is
    recorded with the recipe of the revision the client named; while it runs,
    every claim of that job is refused, and for ever after every claim of the
    same occurrence (the same trigger key) is refused; a scheduled cron claim
    moves the schedule past the present. *)
Theorem claim_exactly_once `{!CroniterLaws} job_id b now tx_now d r d1 d2 b' now' tx_now' :
  reachable d → claim job_id b now tx_now d = Ok (r, d1) → rtc jobs_step d1 d2 →
  (∃ j, jobs d !! job_id = Some j ∧ j_revision j = cj_expected_revision b ∧
     r_definition r = j_definition j ∧ r_state r = running ∧ runs d1 !! cj_run_id b = Some r ∧
     (cj_manual b = false → ∀ line t, wd_cron (j_definition j) = Some line → truthy (Some line) = true →
        j_next_run_at j = Some t → ∃ j1 t1, jobs d1 !! job_id = Some j1 ∧ j_next_run_at j1 = Some t1 ∧ t ≤ now < t1)) ∧
  ∃ r2, runs d2 !! cj_run_id b = Some r2 ∧ later_run r r2 ∧
    (r_state r2 = running ∨ cj_trigger_key b' = cj_trigger_key b →
       is_ok (claim job_id b' now' tx_now' d2) = false).
Proof.
  intros Hr Hc Hsteps. pose proof (reachable_inv d Hr) as Hinv.
  assert (jobs_step d d1) as Hstep by (by eapply step_claim).
  pose proof (steps_later _ _ (step_inv _ _ Hinv Hstep) Hsteps) as [Hl _].
  apply claim_Ok in Hc as (j & Hj & _ & _ & Hrev & _ & Hg & Er & _ & Hd).
  assert (runs d1 !! cj_run_id b = Some r) as Hr1.
  { destruct (cj_manual b); [|destruct Hd as (next & _ & Hd)]; subst; cbn; by rewrite lookup_insert_eq. }
  split.
  - exists j. split_and!; try done; try (by rewrite Er). intros Hm line t Hline Htr Ht.
    rewrite Hm in Hd. destruct Hd as (next & Hn & ->).
    specialize (Hg Hm). unfold scheduled_guard in Hg. rewrite Hline, Htr, Ht in Hg.
    apply bind_Ok in Hg as (? & _ & Hg). apply bind_Ok in Hg as (? & Hle%guard_Ok & _).
    unfold claim_next_run, get_next in Hn. rewrite Hline, Htr in Hn.
    apply bind_Ok in Hn as (t1 & Hget & [= <-]). destruct (cron_get_next line now) as [t2|] eqn:E; [|done].
    injection Hget as ->. eexists _, t1. cbn. rewrite (inv_job_key d Hinv _ _ Hj), lookup_insert_eq.
    split_and!; [done..|lia|]. by eapply cron_get_next_later.
  - apply Hl in Hr1 as (r2 & Hr2 & Hlater). exists r2. split_and!; try done. intros Hcase.
    destruct (claim job_id b' now' tx_now' d2) as [[r3 d3]|] eqn:E; [|done].
    apply claim_Ok in E as (j2 & _ & _ & Hrun & _ & _ & _ & Er3 & Hclash & _).
    destruct Hlater as (_ & Hjob & _ & Hkey & _). rewrite Er in Hjob, Hkey. cbn in Hjob, Hkey.
    destruct Hcase as [Hst|Hk].
    + eapply no_run_such in Hrun; [|exact Hr2]. unfold is_running in Hrun.
      by rewrite Hjob, Hst, !bool_decide_true in Hrun.
    + eapply no_run_such in Hclash as (_ & _ & Hne)%run_clash_false; [|exact Hr2].
      destruct Hne. rewrite Er3. cbn. split; congruence.
Qed.

Lemma due_claim d job_id j line t now (tx_now : Z) run_id thread :
  jobs_inv d → jobs d !! job_id = Some j → j_enabled j = true →
  wd_cron (j_definition j) = Some line → truthy (Some line) = true → definition_valid (j_definition j) now = true →
  j_next_run_at j = Some t → t ≤ now → existsb (is_running job_id) (run_list d) = false →
  (∀ k r, runs d !! k = Some r → r_id r ≠ run_id ∧ r_thread_id r ≠ thread ∧
     (r_job_id r = job_id → r_trigger_key r ≠ isoformat t)) →
  let b := {| cj_principal_id := j_principal_id j; cj_machine_id := j_machine_id j; cj_run_id := run_id;
    cj_thread_id := thread; cj_trigger_key := isoformat t; cj_expected_revision := j_revision j;
    cj_trigger_cursor := None; cj_manual := false |} in
  ∃ r d', claim job_id b now tx_now d = Ok (r, d').
Proof.
  intros Hinv Hj Hen Hline Htr Hv Ht Hle Hrun Hfree b.
  assert (∃ t', cron_get_next line now = Some t') as [t' Ht'].
  { unfold definition_valid in Hv. rewrite Hline in Hv. apply andb_true_iff in Hv as [[_ Hv]%andb_true_iff _].
    cbn [cron_line_ok] in Hv. apply andb_true_iff in Hv as [_ Hv]. destruct (cron_get_next line now); [eauto|done]. }
  eexists _, _. apply claim_Ok. exists j. split_and!; try done.
  - unfold owned. by rewrite !bool_decide_true.
  - intros _. unfold scheduled_guard. rewrite Hen, Hline, Htr, Ht. cbn [guard_ mbind res_bind].
    rewrite (proj2 (Z.leb_le t now) Hle). cbn [guard_ mbind res_bind]. by rewrite bool_decide_true.
  - apply not_true_iff_false. intros (r & Hin & Hc)%existsb_exists.
    rewrite <- list_elem_of_In in Hin. apply run_list_elem in Hin as [k Hk].
    destruct (Hfree k r Hk) as (H1 & H2 & H3). unfold run_clash in Hc. cbn in Hc.
    rewrite !orb_true_iff, andb_true_iff, !bool_decide_eq_true in Hc.
    destruct Hc as [[?|?]|[? ?]]; [done..|]. by apply H3.
  - cbn. unfold claim_next_run, get_next. rewrite Hline, Htr, Ht'. cbn. eauto.
Qed.

(** A due schedule can always be started.  In every reachable state, for an
    enabled cron job whose next occurrence is due and was not started before,
    the owner can start that occurrence with a fresh run and thread: at once
    when the job is idle, else after one [finish] of its running run.  The
    schedule then moves past the present, so it is never stuck behind a run. *)
Theorem due_job_starts d job_id j line t now (tx_now : Z) run_id thread :
  reachable d → jobs d !! job_id = Some j → j_enabled j = true →
  wd_cron (j_definition j) = Some line → truthy (Some line) = true → definition_valid (j_definition j) now = true →
  j_next_run_at j = Some t → t ≤ now →
  (∀ k r, runs d !! k = Some r → r_id r ≠ run_id ∧ r_thread_id r ≠ thread ∧
     (r_job_id r = job_id → r_trigger_key r ≠ isoformat t)) →
  ∃ d1 d2 r, (d1 = d ∨ jobs_step d d1) ∧ jobs_step d1 d2 ∧ runs d2 !! run_id = Some r ∧
    r_state r = running ∧ r_job_id r = job_id ∧ r_trigger_key r = isoformat t ∧ r_definition r = j_definition j ∧
    ∃ j', jobs d2 !! job_id = Some j' ∧ j_next_run_at j' = cron_get_next line now.
Proof.
  intros Hr Hj Hen Hline Htr Hv Ht Hle Hfree. pose proof (reachable_inv d Hr) as Hinv.
  assert (∃ d1, (d1 = d ∨ jobs_step d d1) ∧ jobs_inv d1 ∧ jobs d1 !! job_id = Some j ∧
    existsb (is_running job_id) (run_list d1) = false ∧
    ∀ k r, runs d1 !! k = Some r → r_id r ≠ run_id ∧ r_thread_id r ≠ thread ∧
      (r_job_id r = job_id → r_trigger_key r ≠ isoformat t)) as (d1 & Hd1 & Hinv1 & Hj1 & Hrun1 & Hfree1).
  { destruct (existsb (is_running job_id) (run_list d)) eqn:E; [|exists d; auto 6].
    apply existsb_exists in E as (r0 & Hin & Hr0). rewrite <- list_elem_of_In in Hin.
    apply run_list_elem in Hin as [k0 Hk0]. unfold is_running in Hr0.
    apply andb_true_iff in Hr0 as [Hjob%bool_decide_eq_true_1 Hst%bool_decide_eq_true_1].
    set (b := {| fj_principal_id := j_principal_id j; fj_machine_id := j_machine_id j;
                 fj_state := interrupted; fj_verdict := [] |}).
    assert (finish k0 b tx_now d = Ok (finished_run b tx_now r0, put_run (finished_run b tx_now r0) d)) as Hf.
    { apply finish_Ok. exists r0, j. rewrite Hjob. unfold owned. rewrite !bool_decide_true by done. auto 8. }
    assert (jobs_step d (put_run (finished_run b tx_now r0) d)) as Hstep by (by eapply (step_finish d k0 b)).
    eexists. split_and!; [by right|by eapply step_inv|done|..].
    - apply not_true_iff_false. intros (r & Hin & Hc)%existsb_exists.
      rewrite <- list_elem_of_In in Hin. apply run_list_elem in Hin as [k Hk]. cbn in Hk. rewrite (inv_run_key d Hinv _ _ Hk0) in Hk.
      unfold is_running in Hc. apply andb_true_iff in Hc as [Hc1%bool_decide_eq_true_1 Hc2%bool_decide_eq_true_1].
      apply lookup_insert_Some in Hk as [[_ <-]|[Hne Hk]]; [done|]. apply Hne.
      eapply (inv_single d Hinv); [exact Hk0|exact Hk|congruence..].
    - intros k r. cbn. rewrite (inv_run_key d Hinv _ _ Hk0), lookup_insert_Some.
      intros [[<- <-]|[_ Hk]]; [apply (Hfree _ _ Hk0)|eauto]. }
  destruct (due_claim d1 job_id j line t now tx_now run_id thread) as (r & d2 & Hc); try done.
  exists d1, d2, r. split; [done|]. split; [by eapply step_claim|].
  apply claim_Ok in Hc as (j1 & Hj1' & _ & _ & _ & _ & _ & -> & _ & next & Hn & ->).
  rewrite Hj1 in Hj1'. injection Hj1' as <-. cbn. rewrite lookup_insert_eq. split_and!; try done.
  rewrite (inv_job_key d1 Hinv1 _ _ Hj1), lookup_insert_eq. eexists. split; [done|]. cbn.
  unfold claim_next_run, get_next in Hn. rewrite Hline, Htr in Hn.
  apply bind_Ok in Hn as (t1 & Hget & [= <-]). destruct (cron_get_next line now); [by injection Hget as ->|done].
Qed.
End facts.

(** ** Concrete inputs *)

(** A cron table that fires at every whole minute. *)
#[local] Instance sample_cron : Croniter := {|
  cron_is_valid := λ _, true;
  cron_get_next := λ _ t, Some ((t / 60000000 + 1) * 60000000) |}.
#[local] Instance sample_cron_laws : CroniterLaws.
Proof.
  split. cbn. intros _ t t' [= <-]. pose proof (Z.mod_pos_bound t 60000000 ltac:(lia)).
  rewrite (Z.div_mod t 60000000) at 1 by lia. lia.
Qed.

Definition sample_definition : WorkflowDefinition := {|
  wd_name := lit "tidy"; wd_prompt := lit "tidy the folder"; wd_folder := lit "/work"; wd_model_policy := lit "best";
  wd_tools := tools_pydantic; wd_memory_scope := scope_workspace; wd_budget_usd := Dec 5 (-1);
  wd_exit_condition := lit "done"; wd_cron := Some (lit "* * * * *"); wd_trigger := None; wd_trigger_path := None |}.
Definition sample_save (revision : Z) : SaveJob := {|
  sj_principal_id := lit "p"; sj_machine_id := lit "m"; sj_definition := sample_definition;
  sj_expected_revision := revision; sj_enabled := true; sj_trigger_cursor := None |}.
Definition sample_claim (run : string) (thread : uuid) : ClaimJob := {|
  cj_principal_id := lit "p"; cj_machine_id := lit "m"; cj_run_id := lit run; cj_thread_id := thread;
  cj_trigger_key := isoformat 60000000; cj_expected_revision := 1; cj_trigger_cursor := None; cj_manual := false |}.

Definition db_of {A} (r : res job_error (A * jobs_db)) : jobs_db :=
  match r with Ok (_, d) => d | Err _ => no_jobs end.
Definition row_of {A} (a : A) (r : res job_error (A * jobs_db)) : A :=
  match r with Ok (x, _) => x | Err _ => a end.
Lemma ok_rows {A} (a : A) (r : res job_error (A * jobs_db)) : is_ok r = true → r = Ok (row_of a r, db_of r).
Proof. by destruct r as [[]|]. Qed.

Definition sample_job : WorkflowJob := new_job (lit "J") (sample_save 0) (Some 60000000) 7.
Definition sample_jobs : jobs_db := db_of (save (lit "J") (sample_save 0) 5 7 no_jobs).
Definition sample_run : WorkflowRun := new_run (lit "J") (sample_claim "R" 1) sample_definition 70000001.
Definition sample_running : jobs_db := db_of (claim (lit "J") (sample_claim "R" 1) 70000000 70000001 sample_jobs).

Lemma sample_saved : save (lit "J") (sample_save 0) 5 7 no_jobs = Ok (sample_job, sample_jobs).
Proof. vm_compute. reflexivity. Qed.

Lemma sample_jobs_step : jobs_step no_jobs sample_jobs.
Proof. eapply (step_save _ (lit "J") (sample_save 0) 5 5 7 sample_job); [vm_compute; reflexivity|apply sample_saved]. Qed.

Lemma sample_jobs_reachable : reachable sample_jobs.
Proof. apply rtc_once, sample_jobs_step. Qed.

Lemma sample_claimed :
  claim (lit "J") (sample_claim "R" 1) 70000000 70000001 sample_jobs = Ok (sample_run, sample_running).
Proof. vm_compute. reflexivity. Qed.

Lemma sample_running_step : jobs_step sample_jobs sample_running.
Proof. eapply step_claim, sample_claimed. Qed.

Lemma sample_job_stored : jobs sample_jobs !! lit "J" = Some sample_job.
Proof. vm_compute. reflexivity. Qed.

Lemma jobs_reachable_inv_witness : reachable sample_jobs ∧ jobs_inv sample_jobs.
Proof. split; [apply sample_jobs_reachable|]. apply jobs_reachable_inv, sample_jobs_reachable. Defined.

Lemma job_history_witness : later sample_jobs sample_running.
Proof. apply job_history; [apply sample_jobs_reachable|]. apply rtc_once, sample_running_step. Defined.

Lemma save_no_lost_update_witness :
  j_revision sample_job = 1 ∧ is_ok (save (lit "J") (sample_save 0) 9 9 sample_running) = false.
Proof.
  refine (save_no_lost_update (lit "J") (sample_save 0) 5 7 no_jobs sample_job sample_jobs sample_running
    (sample_save 0) 9 9 _ _ sample_saved _ eq_refl).
  - apply rtc_refl.
  - vm_compute. reflexivity.
  - apply rtc_once, sample_running_step.
Defined.

Lemma claim_exactly_once_witness :
  ∃ r2, runs sample_running !! lit "R" = Some r2 ∧ later_run sample_run r2 ∧
    is_ok (claim (lit "J") (sample_claim "S" 2) 80000000 80000001 sample_running) = false.
Proof.
  destruct (claim_exactly_once (lit "J") (sample_claim "R" 1) 70000000 70000001 sample_jobs sample_run
    sample_running sample_running (sample_claim "S" 2) 80000000 80000001) as (_ & r2 & Hr2 & Hl & Hno).
  - apply sample_jobs_reachable.
  - apply sample_claimed.
  - apply rtc_refl.
  - exists r2. split; [exact Hr2|]. split; [exact Hl|]. apply Hno. right. reflexivity.
Defined.

Lemma due_job_starts_witness : ∃ d1 d2 r,
  (d1 = sample_jobs ∨ jobs_step sample_jobs d1) ∧ jobs_step d1 d2 ∧ runs d2 !! lit "R" = Some r ∧ r_state r = running.
Proof.
  destruct (due_job_starts sample_jobs (lit "J") sample_job (lit "* * * * *") 60000000 70000000 70000001 (lit "R") 1)
    as (d1 & d2 & r & H1 & H2 & H3 & H4 & _).
  - apply sample_jobs_reachable.
  - apply sample_job_stored.
  - reflexivity.
  - reflexivity.
  - reflexivity.
  - vm_compute. reflexivity.
  - reflexivity.
  - lia.
  - intros k r Hk. assert (runs sample_jobs = ∅) as E by (vm_compute; reflexivity). rewrite E in Hk. done.
  - exists d1, d2, r. split; [exact H1|]. split; [exact H2|]. split; [exact H3|exact H4].
Defined.
