(* ===== verification/Policy.v ===== *)
(** * Model policies: [src/src/spine/model_policy.py], parsing and selection

    The five policy forms and the choice each makes from a benchmark table:
    the most capable model, the cheapest above a floor, the elbow of the
    cost-intelligence frontier, or the frontier point a price per intelligence
    point pays for.  Prices and indices are decimals with the context's
    rounding at every arithmetic step. *)
From S2P Require Import Prelude PyStr PyFloat PyDecimal.
Open Scope Z_scope.

Inductive policy_exn :=
  | ModelPolicyConfigurationError (msg : string)
  | ModelCatalogUnavailable (msg : string)
  | NamedModelResolutionError (msg : string)
  | PyExn (e : pyexn).

(** A pure call of the standard library inside the component. *)
Definition py {A} (r : res pyexn A) : res policy_exn A :=
  match r with Ok a => Ok a | Err e => Err (PyExn e) end.

Inductive ModelPolicy :=
  | policy_pinned (model : str)
  | policy_max
  | policy_elbow
  | policy_slope (willingness_to_pay : dec)
  | policy_floor (index : dec).

Record BenchmarkModel := {
  permaslug : str;
  intelligence_index : dec;
  prompt_price : dec;
  completion_price : dec;
}.

(** ** [parse_model_policy] *)
Definition validate_model_name (model : str) : res policy_exn unit :=
  guard_ (trimmed model)
    (ModelPolicyConfigurationError "pinned model must be nonblank without surrounding whitespace");;
  match split_once 58 model with
  | None => Err (ModelPolicyConfigurationError "pinned model must use the existing provider:model syntax")
  | Some (provider, model_name) =>
      guard_ (bool_decide (provider ≠ []) && bool_decide (model_name ≠ [])
              && bool_decide (strip provider = provider) && bool_decide (strip model_name = model_name))
        (ModelPolicyConfigurationError "pinned model must use the existing provider:model syntax")
  end.

Section parse.
Context `{DecimalDigits}.

(** [Decimal(raw)] as a positive finite number. *)
Definition positive_number (raw : str) : res policy_exn dec :=
  match parse_decimal raw with
  | Some (Some number) =>
      guard_ (0 <? coef number) (ModelPolicyConfigurationError "policy requires a positive finite number");;
      Ok number
  | _ => Err (ModelPolicyConfigurationError "policy requires a positive finite number")
  end.

Definition parse_model_policy (value : str) : res policy_exn ModelPolicy :=
  guard_ (trimmed value)
    (ModelPolicyConfigurationError "model policy must be nonblank without surrounding whitespace");;
  if bool_decide (value = lit "max") then Ok policy_max
  else if bool_decide (value = lit "elbow") then Ok policy_elbow
  else if startswith (lit "pinned:") value then
    let model := removeprefix (lit "pinned:") value in
    validate_model_name model;; Ok (policy_pinned model)
  else if startswith (lit "slope:") value then
    n ← positive_number (removeprefix (lit "slope:") value); Ok (policy_slope n)
  else if startswith (lit "floor:") value then
    n ← positive_number (removeprefix (lit "floor:") value); Ok (policy_floor n)
  else Err (ModelPolicyConfigurationError
              "model policy must be pinned:<model>, max, elbow, slope:<lambda>, or floor:<n>").
End parse.

(** ** Orders *)

(** Tuples compare by their first differing component. *)
Definition and_then (c d : comparison) : comparison := match c with Eq => d | _ => c end.
Definition not_gt (c : comparison) : bool := match c with Gt => false | _ => true end.

Definition floor_leb (a b : BenchmarkModel) : bool :=
  not_gt (and_then (dec_compare (prompt_price a) (prompt_price b))
         (and_then (dec_compare (completion_price a) (completion_price b))
                   (str_compare (permaslug a) (permaslug b)))).

(** A row under a computed first key, then price, then name. *)
Definition keyed_row_leb (a b : dec * BenchmarkModel) : bool :=
  not_gt (and_then (dec_compare a.1 b.1)
         (and_then (dec_compare (prompt_price a.2) (prompt_price b.2))
                   (str_compare (permaslug a.2) (permaslug b.2)))).

Definition index_leb (a b : BenchmarkModel) : bool := dec_leb (intelligence_index a) (intelligence_index b).

(** [-value] in a sort key is an operation: it rounds to the 28 digits. *)
Definition negated (value : dec) : res pyexn dec := ctx_neg DECIMAL_PREC value.

(** [min(l, key=...)] over rows keyed by the negation of a value. *)
Definition min_negated (l : list (dec * BenchmarkModel)) : res pyexn BenchmarkModel :=
  keyed ← res_map (λ vr : dec * BenchmarkModel, n ← negated vr.1; Ok (n, vr.2)) l;
  match keyed with
  | [] => Err (ValueError "min() iterable argument is empty")
  | k :: ks => Ok (min_by keyed_row_leb k ks).2
  end.

Definition select_max (rows : list BenchmarkModel) : res pyexn BenchmarkModel :=
  min_negated ((λ row, (intelligence_index row, row)) <$> rows).

(** ** The frontier *)
Definition same_coordinate (a b : BenchmarkModel) : bool :=
  dec_eqb (intelligence_index a) (intelligence_index b) && dec_eqb (prompt_price a) (prompt_price b).

(** [by_coordinate], a dict keyed by the two values. *)
Fixpoint put_coordinate (row : BenchmarkModel) (l : list BenchmarkModel) : list BenchmarkModel :=
  match l with
  | [] => [row]
  | incumbent :: l' =>
      if same_coordinate incumbent row
      then (if str_ltb (permaslug row) (permaslug incumbent) then row else incumbent) :: l'
      else incumbent :: put_coordinate row l'
  end.

(** [other] has no less intelligence for no more money, and one strictly; a row
    does not dominate itself, so the source's [other is not row] is implied. *)
Definition dominates (other row : BenchmarkModel) : bool :=
  dec_leb (intelligence_index row) (intelligence_index other)
  && dec_leb (prompt_price other) (prompt_price row)
  && (dec_ltb (intelligence_index row) (intelligence_index other)
      || dec_ltb (prompt_price other) (prompt_price row)).

Definition unique_rows (rows : list BenchmarkModel) : list BenchmarkModel :=
  foldl (λ l row, put_coordinate row l) [] rows.

Definition pareto_frontier (rows : list BenchmarkModel) : list BenchmarkModel :=
  let unique := unique_rows rows in
  sort_by index_leb (filter (λ row, existsb (λ other, dominates other row) unique = false) unique).

Definition elbow_price_floor (frontier rows : list BenchmarkModel) : res pyexn (option dec) :=
  match frontier with
  | first :: _ :: _ :: _ =>
      if 0 <? coef (prompt_price first) then Ok None
      else match filter (λ p, 0 < coef p) (prompt_price <$> rows) with
           | [] => Err (ValueError "min() iterable argument is empty")
           | p :: ps => Ok (Some (min_by dec_leb p ps))
           end
  | _ => Ok None
  end.

(** ** The elbow *)
Definition LOG_PRECISION : Z := 48.

Section elbow.
Context `{DecimalLog}.

(** No row reaches this with a zero price: [elbow_price_floor] replaces it. *)
Definition log_price (floor : option dec) (row : BenchmarkModel) : res pyexn dec :=
  let p := match floor with
           | Some f => if coef (prompt_price row) =? 0 then f else prompt_price row
           | None => prompt_price row end in
  if 0 <? coef p then Ok (dec_log10 LOG_PRECISION p) else Err (DecimalException "InvalidOperation").

Definition elbow_offset (min_index index_span min_log log_span : dec) (rl : BenchmarkModel * dec) :
    res pyexn dec :=
  dx ← ctx_sub LOG_PRECISION (intelligence_index rl.1) min_index;
  x ← ctx_div LOG_PRECISION dx index_span;
  dy ← ctx_sub LOG_PRECISION rl.2 min_log;
  y ← ctx_div LOG_PRECISION dy log_span;
  ctx_sub LOG_PRECISION x y.

Definition select_elbow (frontier : list BenchmarkModel) (floor : option dec) : res policy_exn BenchmarkModel :=
  match frontier with
  | [] => Err (ModelCatalogUnavailable "benchmark frontier is empty")
  | first :: _ =>
      if (length frontier <? 3)%nat then py (select_max frontier)
      else
        let final := List.last frontier first in
        logs ← py (res_map (log_price floor) frontier);
        let min_log := default d0 (head logs) in
        let max_log := List.last logs d0 in
        index_span ← py (ctx_sub LOG_PRECISION (intelligence_index final) (intelligence_index first));
        log_span ← py (ctx_sub LOG_PRECISION max_log min_log);
        guard_ ((0 <? coef index_span) && (0 <? coef log_span))
          (ModelCatalogUnavailable "elbow frontier has a degenerate axis");;
        offsets ← py (res_map (λ rl : BenchmarkModel * dec,
                      o ← elbow_offset (intelligence_index first) index_span min_log log_span rl;
                      Ok (o, rl.1)) (zip frontier logs));
        match filter (λ orow, 0 < coef orow.1) offsets with
        | [] => py (select_max frontier)
        | positive => py (min_negated positive)
        end
  end.
End elbow.

(** ** The slope *)
Definition cross (first middle last : BenchmarkModel) : res pyexn dec :=
  a ← ctx_sub DECIMAL_PREC (intelligence_index middle) (intelligence_index first);
  b ← ctx_sub DECIMAL_PREC (prompt_price last) (prompt_price first);
  ab ← ctx_mul DECIMAL_PREC a b;
  c ← ctx_sub DECIMAL_PREC (prompt_price middle) (prompt_price first);
  d ← ctx_sub DECIMAL_PREC (intelligence_index last) (intelligence_index first);
  cd ← ctx_mul DECIMAL_PREC c d;
  ctx_sub DECIMAL_PREC ab cd.

(** The hull is kept with its newest vertex first. *)
Fixpoint pop_hull (hull : list BenchmarkModel) (row : BenchmarkModel) : res pyexn (list BenchmarkModel) :=
  match hull with
  | last :: ((previous :: _) as rest) =>
      c ← cross previous last row;
      if coef c <? 0 then pop_hull rest row else Ok hull
  | _ => Ok hull
  end.

Definition hull_step (hull : list BenchmarkModel) (row : BenchmarkModel) : res pyexn (list BenchmarkModel) :=
  hull ← pop_hull hull row; Ok (row :: hull).

Definition lower_convex_hull (frontier : list BenchmarkModel) : res pyexn (list BenchmarkModel) :=
  hull ← res_fold hull_step [] frontier; Ok (rev hull).

(** One hull edge is worth its price. *)
Definition affordable (willingness_to_pay : dec) (lower upper : BenchmarkModel) : res pyexn bool :=
  price_delta ← ctx_sub DECIMAL_PREC (prompt_price upper) (prompt_price lower);
  index_delta ← ctx_sub DECIMAL_PREC (intelligence_index upper) (intelligence_index lower);
  worth ← ctx_mul DECIMAL_PREC willingness_to_pay index_delta;
  Ok (dec_leb price_delta worth).

Fixpoint climb (willingness_to_pay : dec) (selected : BenchmarkModel) (rest : list BenchmarkModel) :
    res pyexn BenchmarkModel :=
  match rest with
  | [] => Ok selected
  | upper :: rest =>
      ok ← affordable willingness_to_pay selected upper;
      if ok : bool then climb willingness_to_pay upper rest else Ok selected
  end.

Definition select_slope (frontier : list BenchmarkModel) (willingness_to_pay : dec) :
    res policy_exn BenchmarkModel :=
  guard_ (2 <=? length frontier)%nat (ModelCatalogUnavailable "slope frontier has fewer than two points");;
  hull ← py (lower_convex_hull frontier);
  match hull with
  | [] => Err (PyExn (IndexError "tuple index out of range"))
  | selected :: rest => py (climb willingness_to_pay selected rest)
  end.

(** ** [select_model] *)
Section select.
Context `{DecimalLog}.

(** [except DecimalException]. *)
Definition degenerate {A} (r : res policy_exn A) : res policy_exn A :=
  match r with
  | Err (PyExn (DecimalException _)) =>
      Err (ModelCatalogUnavailable "benchmark table arithmetic is degenerate")
  | _ => r
  end.

Definition select_model (policy : ModelPolicy) (rows : list BenchmarkModel) : res policy_exn BenchmarkModel :=
  guard_ (bool_decide (rows ≠ [])) (ModelCatalogUnavailable "benchmark table has no complete rows");;
  match policy with
  | policy_max => py (select_max rows)
  | policy_floor n =>
      match filter (λ row, dec_leb n (intelligence_index row) = true) rows with
      | [] => Err (ModelCatalogUnavailable "benchmark table has no model meeting the floor")
      | row :: rest => Ok (min_by floor_leb row rest)
      end
  | policy_elbow =>
      degenerate (let frontier := pareto_frontier rows in
                  floor ← py (elbow_price_floor frontier rows); select_elbow frontier floor)
  | policy_slope w => degenerate (select_slope (pareto_frontier rows) w)
  | policy_pinned _ =>
      Err (ModelPolicyConfigurationError "pinned policies do not consult the benchmark table")
  end.
End select.
