(* ===== verification/PolicyFacts.v ===== *)
(** * What the model policies guarantee *)
From stdpp Require Import sorting.
From S2P Require Import Prelude PyStr PyFloat PyDecimal Policy.
Open Scope Z_scope.

(** ** Orders *)
Lemma min_by_spec {A} (le : A → A → bool) x l :
  (∀ a b, le a b = true ∨ le b a = true) → (∀ a b c, le a b = true → le b c = true → le a c = true) →
  min_by le x l ∈ x :: l ∧ ∀ y, y ∈ x :: l → le (min_by le x l) y = true.
Proof.
  intros Htot Htr. unfold min_by. revert x. induction l as [|y l IH]; intros x; cbn.
  - split; [left|]. intros z ->%list_elem_of_singleton. destruct (Htot x x); done.
  - destruct (IH (if le x y then x else y)) as [Hin Hle]. split.
    + destruct (le x y); apply elem_of_cons in Hin as [->|?]; rewrite ?elem_of_cons; auto.
    + assert (le (foldl (λ best y, if le best y then best else y) (if le x y then x else y) l)
                 (if le x y then x else y) = true) as Hm by (apply Hle; left).
      intros z [->|[->|Hz]%elem_of_cons]%elem_of_cons; [| |apply Hle; by right].
      * destruct (le x y) eqn:E; [done|]. eapply Htr; [done|]. destruct (Htot x y); congruence.
      * destruct (le x y) eqn:E; [|done]. by eapply Htr.
Qed.

Lemma dec_leb_total a b : dec_leb a b = true ∨ dec_leb b a = true.
Proof. unfold dec_leb. rewrite (dec_compare_antisym a b). destruct (dec_compare a b); auto. Qed.

Lemma dec_leb_trans a b c : dec_leb a b = true → dec_leb b c = true → dec_leb a c = true.
Proof.
  unfold dec_leb. destruct (dec_compare_scale3 a b c) as (x & y & z & -> & -> & ->).
  destruct (Z.compare_spec x y), (Z.compare_spec y z), (Z.compare_spec x z); try done; lia.
Qed.

Lemma dec_eqb_trans a b c : dec_eqb a b = true → dec_eqb b c = true → dec_eqb a c = true.
Proof.
  unfold dec_eqb. destruct (dec_compare_scale3 a b c) as (x & y & z & -> & -> & ->).
  destruct (Z.compare_spec x y), (Z.compare_spec y z), (Z.compare_spec x z); try done; lia.
Qed.

Lemma dec_eqb_sym a b : dec_eqb a b = dec_eqb b a.
Proof. unfold dec_eqb. rewrite (dec_compare_antisym a b). by destruct (dec_compare a b). Qed.

Lemma dec_eqb_refl a : dec_eqb a a = true.
Proof. unfold dec_eqb. by rewrite dec_compare_refl. Qed.

(** A lexicographic comparison of two preorders. *)
Record preorder {A} (cmp : A → A → comparison) : Prop := {
  cmp_antisym : ∀ a b, cmp b a = CompOpp (cmp a b);
  cmp_trans : ∀ a b c, not_gt (cmp a b) = true → not_gt (cmp b c) = true →
    not_gt (cmp a c) = true ∧ (cmp a c = Eq → cmp a b = Eq ∧ cmp b c = Eq);
}.

Lemma preorder_lex {A} (f g : A → A → comparison) :
  preorder f → preorder g → preorder (λ a b, and_then (f a b) (g a b)).
Proof.
  intros [Fa Ft] [Ga Gt]. split.
  - intros a b. rewrite Fa, Ga. by destruct (f a b).
  - intros a b c Hab Hbc.
    assert (not_gt (f a b) = true) as H1 by (by destruct (f a b)).
    assert (not_gt (f b c) = true) as H2 by (by destruct (f b c)).
    destruct (Ft a b c H1 H2) as [H3 H4]. destruct (f a c) eqn:E; [|split; done|done].
    destruct (H4 eq_refl) as [E1 E2]. rewrite E1 in Hab. rewrite E2 in Hbc. cbn in *.
    destruct (Gt a b c Hab Hbc) as [? Hg]. split; [done|]. rewrite E1, E2. done.
Qed.

Lemma preorder_dec {A} (f : A → dec) : preorder (λ a b, dec_compare (f a) (f b)).
Proof.
  split; [intros; apply dec_compare_antisym|]. intros a b c.
  destruct (dec_compare_scale3 (f a) (f b) (f c)) as (x & y & z & -> & -> & ->).
  destruct (Z.compare_spec x y), (Z.compare_spec y z), (Z.compare_spec x z); try done; lia.
Qed.

Lemma preorder_str {A} (f : A → str) : preorder (λ a b, str_compare (f a) (f b)).
Proof.
  split; [intros; apply str_compare_antisym|]. intros a b c Hab Hbc.
  destruct (str_compare (f a) (f b)) eqn:E1; [| |done].
  - apply str_compare_eq in E1. rewrite E1. destruct (str_compare (f b) (f c)); done.
  - destruct (str_compare (f b) (f c)) eqn:E2; [| |done].
    + apply str_compare_eq in E2. rewrite <- E2, E1. done.
    + by rewrite (str_compare_lt_trans _ _ _ E1 E2).
Qed.

Lemma preorder_total {A} (cmp : A → A → comparison) a b :
  preorder cmp → not_gt (cmp a b) = true ∨ not_gt (cmp b a) = true.
Proof. intros [Ha _]. rewrite (Ha a b). destruct (cmp a b); auto. Qed.

Lemma floor_preorder : preorder (λ a b, and_then (dec_compare (prompt_price a) (prompt_price b))
  (and_then (dec_compare (completion_price a) (completion_price b)) (str_compare (permaslug a) (permaslug b)))).
Proof. auto using preorder_lex, preorder_dec, preorder_str. Qed.

Lemma keyed_preorder : preorder (λ a b : dec * BenchmarkModel, and_then (dec_compare a.1 b.1)
  (and_then (dec_compare (prompt_price a.2) (prompt_price b.2)) (str_compare (permaslug a.2) (permaslug b.2)))).
Proof.
  apply (preorder_lex (λ a b : dec * BenchmarkModel, dec_compare a.1 b.1)); [apply (preorder_dec fst)|].
  apply (preorder_lex (λ a b : dec * BenchmarkModel, dec_compare (prompt_price a.2) (prompt_price b.2)));
    [apply (preorder_dec (λ a : dec * BenchmarkModel, prompt_price a.2))|
     apply (preorder_str (λ a : dec * BenchmarkModel, permaslug a.2))].
Qed.

Lemma min_floor row rest :
  min_by floor_leb row rest ∈ row :: rest ∧ ∀ y, y ∈ row :: rest → floor_leb (min_by floor_leb row rest) y = true.
Proof.
  apply min_by_spec; intros.
  - by apply (preorder_total _ _ _ floor_preorder).
  - by eapply (cmp_trans _ floor_preorder).
Qed.

Lemma min_keyed k ks :
  min_by keyed_row_leb k ks ∈ k :: ks ∧ ∀ y, y ∈ k :: ks → keyed_row_leb (min_by keyed_row_leb k ks) y = true.
Proof.
  apply min_by_spec; intros.
  - by apply (preorder_total _ _ _ keyed_preorder).
  - by eapply (cmp_trans _ keyed_preorder).
Qed.

(** The least row under a negated key. *)
Lemma min_negated_Ok l r :
  min_negated l = Ok r → ∃ v n, (v, r) ∈ l ∧ negated v = Ok n ∧
    ∀ v' r', (v', r') ∈ l → ∃ n', negated v' = Ok n' ∧ keyed_row_leb (n, r) (n', r') = true.
Proof.
  unfold min_negated. intros H. apply bind_Ok in H as (keyed & Hk%res_map_Forall2 & H).
  destruct keyed as [|k ks]; [done|]. injection H as <-.
  destruct (min_keyed k ks) as [Hin Hle]. set (m := min_by keyed_row_leb k ks) in *.
  assert (Hof : ∀ n row, (n, row) ∈ k :: ks → ∃ v, (v, row) ∈ l ∧ negated v = Ok n).
  { intros n row [i Hi]%list_elem_of_lookup. eapply Forall2_lookup_r in Hk as ([v row'] & Hl & Hn); [|done].
    cbn in Hn. apply bind_Ok in Hn as (n' & Hn & [= <- <-]). exists v.
    split; [by eapply list_elem_of_lookup_2|done]. }
  destruct m as [n row] eqn:Em. destruct (Hof n row Hin) as (v & Hv & Hn). exists v, n. split_and!; try done.
  intros v' r' [i Hi]%list_elem_of_lookup. eapply Forall2_lookup_l in Hk as ([n' row'] & Hl & Hn'); [|done].
  cbn in Hn'. apply bind_Ok in Hn' as (n'' & Hn' & [= <- <-]). exists n''. split; [done|].
  apply (Hle (n'', r')). by eapply list_elem_of_lookup_2.
Qed.

Lemma keyed_leb_key a b : keyed_row_leb a b = true → dec_leb a.1 b.1 = true.
Proof. unfold keyed_row_leb, dec_leb. by destruct (dec_compare a.1 b.1). Qed.

(** ** The frontier *)
Lemma same_coordinate_sym a b : same_coordinate a b = same_coordinate b a.
Proof. unfold same_coordinate. by rewrite dec_eqb_sym, (dec_eqb_sym (prompt_price a)). Qed.

Lemma same_coordinate_refl a : same_coordinate a a = true.
Proof. unfold same_coordinate. by rewrite !dec_eqb_refl. Qed.

Lemma same_coordinate_trans a b c :
  same_coordinate a b = true → same_coordinate b c = true → same_coordinate a c = true.
Proof.
  unfold same_coordinate. rewrite !andb_true_iff. intros [? ?] [? ?].
  split; by eapply dec_eqb_trans.
Qed.

Lemma put_coordinate_elem row l u : u ∈ put_coordinate row l → u = row ∨ u ∈ l.
Proof.
  induction l as [|x l IH]; cbn; [rewrite list_elem_of_singleton; auto|].
  destruct (same_coordinate x row).
  - intros [->|?]%elem_of_cons; [case_match; auto using list_elem_of_here|].
    right. by right.
  - intros [->|[?|?]%IH]%elem_of_cons; auto using list_elem_of_here, list_elem_of_further.
Qed.

(** [u] stands for [r]: the same coordinate, and no later in the alphabet. *)
Definition stands_for (u r : BenchmarkModel) : Prop :=
  same_coordinate u r = true ∧ str_leb (permaslug u) (permaslug r) = true.

Lemma stands_for_trans a b c : stands_for a b → stands_for b c → stands_for a c.
Proof. intros [? ?] [? ?]. split; [by eapply same_coordinate_trans|by eapply str_leb_trans]. Qed.

Lemma str_ltb_leb s t : str_ltb s t = true → str_leb s t = true.
Proof. unfold str_ltb, str_leb. by destruct (str_compare s t). Qed.

Lemma str_ltb_false s t : str_ltb s t = false → str_leb t s = true.
Proof. unfold str_ltb, str_leb. rewrite (str_compare_antisym s t). by destruct (str_compare s t). Qed.

Lemma put_coordinate_covers row l r :
  r = row ∨ (∃ u, u ∈ l ∧ stands_for u r) → ∃ u, u ∈ put_coordinate row l ∧ stands_for u r.
Proof.
  assert (Hrefl : stands_for row row) by (split; [apply same_coordinate_refl|apply str_leb_refl]).
  induction l as [|x l IH]; cbn.
  - intros [->|(u & Hu & _)]; [|by apply elem_of_nil in Hu]. exists row. split; [left|done].
  - destruct (same_coordinate x row) eqn:E.
    + intros [->|(u & [->|Hu]%elem_of_cons & Hs)].
      * eexists. split; [left|]. destruct (str_ltb (permaslug row) (permaslug x)) eqn:El; [done|].
        split; [done|]. by apply str_ltb_false.
      * eexists. split; [left|]. destruct (str_ltb (permaslug row) (permaslug x)) eqn:El; [|done].
        eapply stands_for_trans; [|done]. split; [by rewrite same_coordinate_sym|by apply str_ltb_leb].
      * exists u. split; [by right|done].
    + intros [->|(u & [->|Hu]%elem_of_cons & Hs)].
      * destruct IH as (u & ? & ?); [by left|]. exists u. split; [by right|done].
      * exists x. split; [left|done].
      * destruct IH as (u' & ? & ?); [right; eauto|]. exists u'. split; [by right|done].
Qed.

Definition distinct_coordinates (l : list BenchmarkModel) : Prop :=
  NoDup l ∧ ∀ a b, a ∈ l → b ∈ l → same_coordinate a b = true → a = b.

Lemma put_coordinate_distinct row l :
  distinct_coordinates l → distinct_coordinates (put_coordinate row l).
Proof.
  induction l as [|x l IH]; cbn.
  - intros _. split; [apply NoDup_singleton|].
    by intros a b ->%list_elem_of_singleton ->%list_elem_of_singleton.
  - intros [[Hx Hnd]%NoDup_cons Hd].
    assert (Hdl : distinct_coordinates l) by (split; [done|]; intros; apply Hd; (done || by right)).
    assert (Hne : ∀ u, u ∈ l → same_coordinate x u = false).
    { intros u Hu. destruct (same_coordinate x u) eqn:E; [|done]. destruct Hx.
      rewrite (Hd x u); [done|left|by right|done]. }
    destruct (same_coordinate x row) eqn:E.
    + set (y := if str_ltb _ _ then row else x).
      assert (Hy : same_coordinate y x = true).
      { unfold y. case_match; [by rewrite same_coordinate_sym|apply same_coordinate_refl]. }
      assert (Hyne : ∀ u, u ∈ l → same_coordinate y u = false).
      { intros u Hu. destruct (same_coordinate y u) eqn:Eu; [|done]. rewrite <- (Hne u Hu). symmetry.
        eapply same_coordinate_trans; [|done]. by rewrite same_coordinate_sym. }
      split.
      * apply NoDup_cons. split; [|done]. intros Hin. pose proof (Hyne y Hin) as Hyy. by rewrite same_coordinate_refl in Hyy.
      * intros a b [->|Ha]%elem_of_cons [->|Hb]%elem_of_cons Hs; try done.
        -- by rewrite Hyne in Hs.
        -- rewrite same_coordinate_sym, Hyne in Hs; done.
        -- by apply Hdl.
    + destruct (IH Hdl) as [Hnd' Hd'].
      assert (Hxp : ∀ u, u ∈ put_coordinate row l → same_coordinate x u = false).
      { intros u [->|Hu]%put_coordinate_elem; [done|by apply Hne]. }
      split.
      * apply NoDup_cons. split; [|done]. intros Hin. pose proof (Hxp x Hin) as Hxx. by rewrite same_coordinate_refl in Hxx.
      * intros a b [->|Ha]%elem_of_cons [->|Hb]%elem_of_cons Hs; try done.
        -- by rewrite Hxp in Hs.
        -- rewrite same_coordinate_sym, Hxp in Hs; done.
        -- by apply Hd'.
Qed.

Lemma unique_rows_spec rows :
  (∀ u, u ∈ unique_rows rows → u ∈ rows) ∧ distinct_coordinates (unique_rows rows) ∧
  ∀ r, r ∈ rows → ∃ u, u ∈ unique_rows rows ∧ stands_for u r.
Proof.
  unfold unique_rows. induction rows as [|r rows (IH1 & IH2 & IH3)] using rev_ind; cbn.
  { split_and!; [by intros u ?%elem_of_nil| |by intros u ?%elem_of_nil].
    split; [constructor|by intros a b ?%elem_of_nil]. }
  rewrite foldl_app. cbn. split_and!.
  - intros u [->|Hu]%put_coordinate_elem; apply elem_of_app; [right; left|left; auto].
  - by apply put_coordinate_distinct.
  - intros r' [Hr| ->%list_elem_of_singleton]%elem_of_app; apply put_coordinate_covers; auto.
Qed.

(** A common scale turns the comparisons of a finite table into integer ones. *)
Section scale.
Context (rows : list BenchmarkModel).

Definition scaled_at (e : Z) (r : BenchmarkModel) : Prop :=
  e ≤ dexp (intelligence_index r) ∧ e ≤ dexp (prompt_price r).

Lemma common_scale : ∃ e, ∀ r, r ∈ rows → scaled_at e r.
Proof.
  induction rows as [|r l (e & IH)]; [exists 0; by intros r ?%elem_of_nil|].
  exists (Z.min e (Z.min (dexp (intelligence_index r)) (dexp (prompt_price r)))).
  intros r' [->|Hr]%elem_of_cons; unfold scaled_at in *; [lia|]. specialize (IH r' Hr). lia.
Qed.

Lemma dec_at e a b : e ≤ dexp a → e ≤ dexp b →
  dec_leb a b = (rescaled e a <=? rescaled e b) ∧ dec_ltb a b = (rescaled e a <? rescaled e b) ∧
  dec_eqb a b = (rescaled e a =? rescaled e b).
Proof.
  intros Ha Hb. unfold dec_leb, dec_ltb, dec_eqb. rewrite (dec_compare_at e) by done.
  destruct (Z.compare_spec (rescaled e a) (rescaled e b)); lia.
Qed.

Lemma dominates_at e a b : scaled_at e a → scaled_at e b →
  dominates a b = true ↔
  rescaled e (intelligence_index b) ≤ rescaled e (intelligence_index a) ∧
  rescaled e (prompt_price a) ≤ rescaled e (prompt_price b) ∧
  (rescaled e (intelligence_index b) < rescaled e (intelligence_index a) ∨
   rescaled e (prompt_price a) < rescaled e (prompt_price b)).
Proof.
  intros [Ha1 Ha2] [Hb1 Hb2]. unfold dominates.
  destruct (dec_at e (intelligence_index b) (intelligence_index a)) as (-> & -> & _); [done..|].
  destruct (dec_at e (prompt_price a) (prompt_price b)) as (-> & -> & _); [done..|].
  rewrite !andb_true_iff, orb_true_iff, !Z.leb_le, !Z.ltb_lt. tauto.
Qed.

Lemma same_at e a b : scaled_at e a → scaled_at e b →
  same_coordinate a b = true ↔
  rescaled e (intelligence_index a) = rescaled e (intelligence_index b) ∧
  rescaled e (prompt_price a) = rescaled e (prompt_price b).
Proof.
  intros [Ha1 Ha2] [Hb1 Hb2]. unfold same_coordinate.
  destruct (dec_at e (intelligence_index a) (intelligence_index b)) as (_ & _ & ->); [done..|].
  destruct (dec_at e (prompt_price a) (prompt_price b)) as (_ & _ & ->); [done..|].
  rewrite !andb_true_iff, !Z.eqb_eq. tauto.
Qed.
End scale.

Lemma frontier_elem rows r :
  r ∈ pareto_frontier rows ↔
  r ∈ unique_rows rows ∧ ∀ o, o ∈ unique_rows rows → dominates o r = false.
Proof.
  unfold pareto_frontier. rewrite (sort_by_perm index_leb), list_elem_of_filter. split.
  - intros [Hf Hr]. split; [done|]. intros o Ho. destruct (dominates o r) eqn:E; [|done].
    rewrite <- Hf. symmetry. apply existsb_exists. exists o. by rewrite <- list_elem_of_In.
  - intros [Hr Hd]. split; [|done]. apply not_true_iff_false. intros (o & Ho & E)%existsb_exists.
    rewrite <- list_elem_of_In in Ho. by rewrite Hd in E.
Qed.

(** Among the rows that cover [o] one has no dominator. *)
Lemma best_cover e (l : list BenchmarkModel) o :
  (∀ r, r ∈ l → scaled_at e r) → o ∈ l →
  ∃ r, r ∈ l ∧ rescaled e (intelligence_index o) ≤ rescaled e (intelligence_index r) ∧
    rescaled e (prompt_price r) ≤ rescaled e (prompt_price o) ∧
    ∀ r', r' ∈ l → dominates r' r = false.
Proof.
  intros Hs Ho.
  set (gain r := rescaled e (intelligence_index r) - rescaled e (prompt_price r)).
  set (covers r := (rescaled e (intelligence_index o) <=? rescaled e (intelligence_index r))
                   && (rescaled e (prompt_price r) <=? rescaled e (prompt_price o))).
  assert (∃ r, r ∈ l ∧ covers r = true ∧ ∀ r', r' ∈ l → covers r' = true → gain r' ≤ gain r)
    as (r & Hr & Hc & Hmax).
  { clear Hs. assert (covers o = true) as Hoc by (unfold covers; lia). revert Ho Hoc. clearbody covers gain.
    generalize o as o'. induction l as [|x l IH]; intros o' Ho Hoc; [by apply elem_of_nil in Ho|].
    destruct (existsb covers l) eqn:Ex.
    - apply existsb_exists in Ex as (y & Hy & Hcy). rewrite <- list_elem_of_In in Hy.
      destruct (IH y Hy Hcy) as (r & Hr & Hcr & Hm).
      destruct (covers x && (gain r <? gain x)) eqn:Ebest.
      + apply andb_true_iff in Ebest as [Hcx Hgx]. exists x. split_and!; [left|done|].
        intros r' [->|Hr']%elem_of_cons Hc'; [lia|]. specialize (Hm r' Hr' Hc'). lia.
      + exists r. split_and!; [by right|done|].
        intros r' [->|Hr']%elem_of_cons Hc'; [|by apply Hm]. rewrite Hc' in Ebest. cbn in Ebest. lia.
    - assert (Hno : ∀ y, y ∈ l → covers y = false).
      { intros y Hy. destruct (covers y) eqn:E; [|done]. rewrite <- Ex. symmetry. apply existsb_exists.
        exists y. by rewrite <- list_elem_of_In. }
      apply elem_of_cons in Ho as [->|Ho]; [|rewrite Hno in Hoc; done].
      exists x. split_and!; [left|done|]. intros r' [->|Hr']%elem_of_cons Hc'; [lia|].
      by rewrite Hno in Hc'. }
  exists r. unfold covers in Hc. split_and!; [done|lia|lia|]. intros r' Hr'. destruct (dominates r' r) eqn:E; [|done].
  apply (dominates_at e) in E as (H1 & H2 & H3); [|by apply Hs..].
  assert (gain r' ≤ gain r) by (apply Hmax; [done|unfold covers; lia]). unfold gain in *. lia.
Qed.

Lemma frontier_undominated rows r :
  r ∈ pareto_frontier rows → r ∈ rows ∧ ∀ o, o ∈ rows → dominates o r = false.
Proof.
  intros Hr. apply frontier_elem in Hr as [Hu Hd]. destruct (unique_rows_spec rows) as (Hin & _ & Hcov).
  split; [by apply Hin|]. destruct (common_scale rows) as [e He]. intros o Ho.
  destruct (Hcov o Ho) as (u & Hu' & Hs & _). destruct (dominates o r) eqn:E; [|done].
  rewrite <- (Hd u Hu'). symmetry. apply (dominates_at e) in E; [|auto..].
  apply (same_at e) in Hs as [E1 E2]; [|auto..]. apply (dominates_at e); [auto..|]. lia.
Qed.

Definition above (a b : BenchmarkModel) : Prop :=
  dec_ltb (intelligence_index a) (intelligence_index b) = true ∧
  dec_ltb (prompt_price a) (prompt_price b) = true.

(** The frontier is the Pareto front of the benchmark table: its members are
    rows that no row dominates, every row is covered by a member (no less
    intelligence, no higher price), it rises strictly in intelligence and in
    price, and among rows of one coordinate it keeps the first name. *)
Theorem frontier_correct (rows : list BenchmarkModel) :
  (∀ r, r ∈ pareto_frontier rows → r ∈ rows ∧ ∀ o, o ∈ rows → dominates o r = false) ∧
  (∀ o, o ∈ rows → ∃ r, r ∈ pareto_frontier rows ∧
     dec_leb (intelligence_index o) (intelligence_index r) = true ∧
     dec_leb (prompt_price r) (prompt_price o) = true) ∧
  StronglySorted above (pareto_frontier rows) ∧
  (∀ r o, r ∈ pareto_frontier rows → o ∈ rows → same_coordinate r o = true →
     str_leb (permaslug r) (permaslug o) = true).
Proof.
  destruct (unique_rows_spec rows) as (Hin & [Hnd Hdist] & Hcov). destruct (common_scale rows) as [e He].
  assert (Heu : ∀ u, u ∈ unique_rows rows → scaled_at e u) by auto.
  split_and!.
  - intros r. apply frontier_undominated.
  - intros o Ho. destruct (Hcov o Ho) as (u & Hu & Hs & _).
    apply (same_at e) in Hs as [E1 E2]; [|auto..].
    destruct (best_cover e (unique_rows rows) u Heu Hu) as (r & Hr & Hi & Hp & Hd).
    exists r. split; [by apply frontier_elem|]. destruct (He o Ho), (Heu r Hr).
    destruct (dec_at e (intelligence_index o) (intelligence_index r)) as (-> & _); [done..|].
    destruct (dec_at e (prompt_price r) (prompt_price o)) as (-> & _); [done..|]. lia.
  - assert (Hs : StronglySorted (λ a b, index_leb a b = true) (pareto_frontier rows)).
    { apply (sort_by_sorted _ (λ _, True)); [| |by apply Forall_true].
      - intros x y _ _. apply dec_leb_total.
      - intros x y z _ _ _. apply dec_leb_trans. }
    assert (Hndf : NoDup (pareto_frontier rows)).
    { unfold pareto_frontier. rewrite (sort_by_perm index_leb). by apply list.NoDup_filter. }
    assert (Hall : ∀ r, r ∈ pareto_frontier rows → r ∈ unique_rows rows ∧ ∀ o, o ∈ rows → dominates o r = false).
    { intros r Hr. split; [by apply frontier_elem in Hr as [? _]|by apply frontier_undominated]. }
    revert Hs Hndf Hall. generalize (pareto_frontier rows) as fr. intros fr Hs.
    induction Hs as [|x l Hs IH Hx]; intros Hndf Hall; [constructor|].
    apply NoDup_cons in Hndf as [Hxl Hndl]. constructor; [apply IH; [done|]; intros; apply Hall; by right|].
    apply Forall_forall. intros y Hy. pose proof (proj1 (Forall_forall _ _) Hx y Hy) as Hle.
    destruct (Hall x) as [Hxu Hxd]; [left|]. destruct (Hall y) as [Hyu Hyd]; [by right|].
    specialize (Hxd y (Hin y Hyu)). specialize (Hyd x (Hin x Hxu)).
    destruct (Heu x Hxu) as [Hx1 Hx2], (Heu y Hyu) as [Hy1 Hy2]. unfold above, index_leb in *.
    destruct (dec_at e (intelligence_index x) (intelligence_index y)) as (Ei & -> & _); [done..|].
    destruct (dec_at e (prompt_price x) (prompt_price y)) as (_ & -> & _); [done..|].
    rewrite Ei in Hle.
    assert (¬ (rescaled e (intelligence_index x) = rescaled e (intelligence_index y) ∧
               rescaled e (prompt_price x) = rescaled e (prompt_price y))) as Hne.
    { intros Heq. apply Hxl. rewrite (Hdist x y); [done..|]. by apply (same_at e); [split..|]. }
    pose proof (proj2 (dominates_at e y x (conj Hy1 Hy2) (conj Hx1 Hx2))) as D1.
    pose proof (proj2 (dominates_at e x y (conj Hx1 Hx2) (conj Hy1 Hy2))) as D2.
    apply Z.leb_le in Hle. rewrite !Z.ltb_lt.
    destruct (Z.lt_trichotomy (rescaled e (prompt_price x)) (rescaled e (prompt_price y))) as [?|[?|?]].
    + split; [|done]. destruct (decide (rescaled e (intelligence_index x) = rescaled e (intelligence_index y))); [|lia].
      rewrite D2 in Hyd; [done|lia].
    + exfalso. rewrite D1 in Hxd; [done|lia].
    + exfalso. rewrite D1 in Hxd; [done|lia].
  - intros r o [Hr _]%frontier_elem Ho Hs. destruct (Hcov o Ho) as (u & Hu & Hsu & Hle).
    assert (r = u) as ->; [|done]. apply Hdist; [done..|]. eapply same_coordinate_trans; [done|].
    by rewrite same_coordinate_sym.
Qed.

(** ** Selection *)

(** The table's indices are written in the 28 digits the context keeps. *)
Definition plain_index (r : BenchmarkModel) : Prop :=
  negated (intelligence_index r) = Ok (dec_neg (intelligence_index r)).

Lemma dec_neg_leb a b : dec_leb (dec_neg a) (dec_neg b) = dec_leb b a.
Proof.
  unfold dec_leb, dec_compare, rescaled, dec_neg. cbn. rewrite !Z.mul_opp_l, Z.compare_opp, Z.min_comm. done.
Qed.

Lemma select_max_Ok rows r :
  select_max rows = Ok r → r ∈ rows ∧
  (Forall plain_index rows → ∀ o, o ∈ rows → dec_leb (intelligence_index o) (intelligence_index r) = true ∧
     dominates o r = false).
Proof.
  intros (v & n & Hv & Hn & Hle)%min_negated_Ok.
  apply list_elem_of_fmap in Hv as (r' & E & Hr). injection E as -> <-. split; [done|].
  intros Hp o Ho. pose proof (proj1 (Forall_forall _ _) Hp r Hr) as Hpr. pose proof (proj1 (Forall_forall _ _) Hp o Ho) as Hpo.
  unfold plain_index in *. rewrite Hpr in Hn. injection Hn as <-.
  destruct (Hle (intelligence_index o) o) as (n' & Hn' & Hk); [apply list_elem_of_fmap; by exists o|].
  rewrite Hpo in Hn'. injection Hn' as <-.
  pose proof (keyed_leb_key _ _ Hk) as Hi. cbn in Hi. rewrite dec_neg_leb in Hi. split; [done|].
  destruct (dominates o r) eqn:E; [|done]. unfold dominates in E.
  apply andb_true_iff in E as [[Hi' Hp']%andb_true_iff Hs].
  unfold keyed_row_leb in Hk. cbn in Hk.
  assert (dec_compare (dec_neg (intelligence_index r)) (dec_neg (intelligence_index o)) = Eq) as Ec.
  { pose proof (dec_neg_leb (intelligence_index o) (intelligence_index r)) as Hrev. rewrite Hi' in Hrev.
    unfold dec_leb in Hrev. rewrite dec_compare_antisym in Hrev.
    pose proof (keyed_leb_key (dec_neg (intelligence_index r), r) (dec_neg (intelligence_index o), o) Hk) as Hk'.
    unfold dec_leb in Hk'. cbn in Hk'. by destruct (dec_compare (dec_neg (intelligence_index r)) _). }
  rewrite Ec in Hk. cbn in Hk.
  assert (dec_ltb (intelligence_index r) (intelligence_index o) = false) as Hf.
  { unfold dec_leb in Hi. unfold dec_ltb. rewrite (dec_compare_antisym (intelligence_index o)).
    by destruct (dec_compare (intelligence_index o) _). }
  rewrite Hf in Hs. cbn in Hs. unfold dec_ltb in Hs. rewrite (dec_compare_antisym (prompt_price r)) in Hs.
  by destruct (dec_compare (prompt_price r) (prompt_price o)).
Qed.

(** A stack of hull vertices, newest first: every turn is convex as computed. *)
Inductive taut : list BenchmarkModel → Prop :=
  | taut_nil : taut []
  | taut_one a : taut [a]
  | taut_two a b : taut [b; a]
  | taut_more a b c h v : cross a b c = Ok v → 0 ≤ coef v → taut (b :: a :: h) → taut (c :: b :: a :: h).

Lemma taut_tail x h : taut (x :: h) → taut h.
Proof. intros H. inversion H; subst; (constructor || done). Qed.

Lemma pop_hull_Ok hull row h :
  pop_hull hull row = Ok h → taut hull →
  taut (row :: h) ∧ (∃ dropped, hull = dropped ++ h) ∧ List.last h row = List.last hull row ∧
  (hull ≠ [] → h ≠ []).
Proof.
  induction hull as [|last [|previous rest] IH]; cbn [pop_hull].
  - intros [= <-] _. split_and!; [constructor|by exists []|done..].
  - intros [= <-] _. split_and!; [constructor|by exists []|done..].
  - intros H Ht. apply bind_Ok in H as (c & Hc & H). destruct (Z.ltb_spec (coef c) 0) as [Hneg|Hpos].
    + apply IH in H as (? & (dr & E) & Hl & Hne); [|by eapply taut_tail].
      split_and!; [done|exists (last :: dr); by rewrite E| |intros _; by apply Hne]. rewrite Hl. done.
    + injection H as <-. split_and!; [by eapply taut_more|by exists []|done..].
Qed.

Lemma sublist_suffix {A} (d h : list A) : sublist h (d ++ h).
Proof. by apply sublist_inserts_l. Qed.

Lemma last_rev_head {A} (l : list A) d : List.last l d = default d (head (rev l)).
Proof.
  induction l as [|x l IH]; [done|]. cbn [rev]. destruct l as [|y l]; [done|].
  transitivity (List.last (y :: l) d); [done|]. rewrite IH. destruct (rev (y :: l)) eqn:E; [|done].
  apply (f_equal length) in E. rewrite length_rev in E. done.
Qed.

Lemma hull_fold_Ok rows hull h :
  res_fold hull_step hull rows = Ok h → taut hull →
  taut h ∧ sublist (rev h) (rev hull ++ rows) ∧
  (hull ≠ [] → head (rev h) = head (rev hull)) ∧ (hull = [] → head (rev h) = head rows).
Proof.
  revert hull. induction rows as [|row rows IH]; intros hull; cbn [res_fold].
  { intros [= <-] Ht. rewrite app_nil_r. split_and!; try done. by intros ->. }
  intros H Ht. apply bind_Ok in H as (hull1 & Hs & H). unfold hull_step in Hs.
  apply bind_Ok in Hs as (hull2 & Hp & [= <-]).
  apply pop_hull_Ok in Hp as (Ht2 & (dropped & Ed) & Hlast & Hne); [|done].
  apply IH in H as (Ht' & Hsub & Hfst & _); [|done].
  assert (Hrow : head (rev (row :: hull2)) = match hull with [] => Some row | _ => head (rev hull) end).
  { destruct hull as [|x hull].
    - symmetry in Ed. apply app_eq_nil in Ed as [_ ->]. done.
    - specialize (Hne ltac:(done)). rewrite !last_rev_head in Hlast. cbn [rev].
      destruct (rev hull2) as [|y l] eqn:E1.
      { apply (f_equal length) in E1. rewrite length_rev in E1. by destruct hull2. }
      destruct (rev hull ++ [x]) as [|z l'] eqn:E2; [by destruct (rev hull)|].
      cbn [rev] in Hlast. rewrite E2 in Hlast. cbn in *. by rewrite Hlast. }
  split_and!; [done|..].
  - etrans; [exact Hsub|]. cbn [rev]. rewrite <- (assoc_L (++)). apply sublist_app; [|done].
    rewrite Ed, rev_app_distr. by apply sublist_inserts_r.
  - intros Hh. rewrite Hfst by done. rewrite Hrow. by destruct hull.
  - intros ->. rewrite Hfst by done. by rewrite Hrow.
Qed.

Lemma res_fold_app {E A S} (f : S → A → res E S) l1 l2 s :
  res_fold f s (l1 ++ l2) = (s' ← res_fold f s l1; res_fold f s' l2).
Proof. revert s. induction l1 as [|x l IH]; intros s; [done|]. cbn. destruct (f s x); [apply IH|done]. Qed.

Lemma hull_fold_last rows hull h :
  rows ≠ [] → res_fold hull_step hull rows = Ok h → head h = last rows.
Proof.
  destruct rows as [|row rows _] using rev_ind; [done|]. intros _. rewrite last_snoc, res_fold_app.
  intros H. apply bind_Ok in H as (h1 & _ & H). cbn in H. apply bind_Ok in H as (h2 & H & [= <-]).
  unfold hull_step in H. apply bind_Ok in H as (h3 & _ & [= <-]). done.
Qed.

(** What the hull is: part of the frontier in its order, with both its ends,
    and no computed turn of it is concave. *)
Definition taut_string (frontier hull : list BenchmarkModel) : Prop :=
  sublist hull frontier ∧ head hull = head frontier ∧ last hull = last frontier ∧
  ∀ l1 a b c l2, hull = l1 ++ a :: b :: c :: l2 → ∃ v, cross a b c = Ok v ∧ 0 ≤ coef v.

Lemma taut_triples h l1 a b c l2 :
  taut h → h = l2 ++ c :: b :: a :: l1 → ∃ v, cross a b c = Ok v ∧ 0 ≤ coef v.
Proof.
  intros Ht. revert l2. induction Ht as [|x|x y|x y z h v Hc Hv Ht IH]; intros l2 E.
  - by destruct l2.
  - by destruct l2 as [|? [|]].
  - by destruct l2 as [|? [|? [|]]].
  - destruct l2 as [|w l2]; cbn in E; [injection E as -> -> -> ->; eauto|].
    injection E as -> E. by eapply IH.
Qed.

Lemma hull_correct frontier hull :
  frontier ≠ [] → lower_convex_hull frontier = Ok hull → taut_string frontier hull ∧ hull ≠ [].
Proof.
  intros Hne H. unfold lower_convex_hull in H. apply bind_Ok in H as (h & Hf & [= <-]).
  pose proof (hull_fold_last _ _ _ Hne Hf) as Hlast.
  apply hull_fold_Ok in Hf as (Ht & Hsub & _ & Hhd); [|constructor].
  specialize (Hhd eq_refl). cbn in Hsub. split.
  - split_and!; [done|done|rewrite rev_alt; etrans; [apply last_reverse|done]|].
    intros l1 a b c l2 E. eapply (taut_triples h (rev l1) a b c (rev l2)); [done|].
    apply (f_equal (@rev _)) in E. rewrite rev_involutive in E. rewrite E, rev_app_distr. cbn.
    by rewrite <- !(assoc_L (++)).
  - intros E. rewrite E in Hhd. by destruct frontier.
Qed.

(** The walk up the hull stops at the first edge that is not worth its price. *)
Lemma climb_Ok w selected rest r :
  climb w selected rest = Ok r →
  ∃ l1 l2, selected :: rest = l1 ++ r :: l2 ∧
    (∀ l lower upper l', l1 ++ [r] = l ++ lower :: upper :: l' → affordable w lower upper = Ok true) ∧
    match l2 with [] => True | upper :: _ => affordable w r upper = Ok false end.
Proof.
  revert selected. induction rest as [|upper rest IH]; intros selected; cbn [climb].
  - intros [= <-]. exists [], []. split_and!; [done| |done]. by intros [|? [|]] lower upper l'.
  - intros H. apply bind_Ok in H as ([] & Ha & H).
    + apply IH in H as (l1 & l2 & E & Hall & Hnext). exists (selected :: l1), l2. rewrite E.
      split_and!; [done| |done]. intros [|x l] lower u l' El.
      * destruct l1 as [|y l1]; injection El as <- <- _.
        -- by injection E as -> _.
        -- by injection E as -> _.
      * injection El as _ El. by eapply Hall.
    + injection H as <-. exists [], (upper :: rest). split_and!; [done| |done].
      by intros [|? [|]] lower u l'.
Qed.

Section select.
Context `{DecimalLog}.

Lemma select_elbow_elem frontier floor r : select_elbow frontier floor = Ok r → r ∈ frontier.
Proof.
  destruct frontier as [|first rest]; [done|]. cbn [select_elbow].
  assert (Hmax : ∀ r, py (select_max (first :: rest)) = Ok r → r ∈ first :: rest).
  { intros r' Hm. destruct (select_max (first :: rest)) as [a|] eqn:E; [|done]. injection Hm as <-.
    by apply select_max_Ok in E as [? _]. }
  case_match; [apply Hmax|]. intros Hr.
  apply bind_Ok in Hr as (logs & _ & Hr). apply bind_Ok in Hr as (isp & _ & Hr).
  apply bind_Ok in Hr as (lsp & _ & Hr). apply bind_Ok in Hr as ([] & _ & Hr).
  apply bind_Ok in Hr as (offsets & Ho & Hr).
  destruct (res_map _ (zip _ _)) as [os|] eqn:Eo; [|done]. injection Ho as <-.
  apply res_map_Forall2 in Eo.
  destruct (filter _ os) as [|p ps] eqn:Ef; [by apply Hmax|].
  destruct (min_negated (p :: ps)) as [m|] eqn:Em; [|done]. injection Hr as <-.
  apply min_negated_Ok in Em as (v & n & Hv & _). rewrite <- Ef in Hv.
  apply list_elem_of_filter in Hv as [_ [i Hi]%list_elem_of_lookup].
  eapply Forall2_lookup_r in Eo as ([row l] & Hl & Hrow); [|exact Hi].
  apply bind_Ok in Hrow as (o & _ & [= <- <-]). apply list_elem_of_lookup_2 in Hl.
  by apply elem_of_zip_l in Hl.
Qed.

Lemma select_slope_Ok frontier w r :
  select_slope frontier w = Ok r →
  ∃ hull l1 l2, lower_convex_hull frontier = Ok hull ∧ taut_string frontier hull ∧ hull = l1 ++ r :: l2 ∧
    (∀ l lower upper l', l1 ++ [r] = l ++ lower :: upper :: l' → affordable w lower upper = Ok true) ∧
    match l2 with [] => True | upper :: _ => affordable w r upper = Ok false end.
Proof.
  unfold select_slope. intros Hr. apply bind_Ok in Hr as ([] & Hlen%guard_Ok & Hr).
  apply bind_Ok in Hr as (hull & Hh & Hr).
  destruct (lower_convex_hull frontier) as [hull'|] eqn:E; [|done]. injection Hh as ->.
  destruct (hull_correct frontier hull) as [Ht Hne]; [by intros ->|done|].
  destruct hull as [|selected rest]; [done|].
  destruct (climb w selected rest) as [r'|] eqn:Ec; [|done]. injection Hr as ->.
  apply climb_Ok in Ec as (l1 & l2 & El & Hall & Hn). exists (selected :: rest), l1, l2. auto.
Qed.

Lemma degenerate_Ok {A} (x : res policy_exn A) a : degenerate x = Ok a → x = Ok a.
Proof. destruct x as [|[]]; try done. by destruct e. Qed.

(** A policy chooses from the table what it promises.  The choice is always a
    row of the table; [max] takes a highest index (the cheapest of those),
    [floor] the cheapest row at or above the floor, and fails exactly when
    there is none; [elbow] and [slope] take a point of the frontier, [slope]
    the last vertex of a taut string from end to end of the frontier up to
    which every edge is worth its price and no longer the next.  Except under
    [floor], no row of the table is both better and no dearer. *)
Theorem select_model_correct (policy : ModelPolicy) (rows : list BenchmarkModel) :
  (∀ r, select_model policy rows = Ok r →
     r ∈ rows ∧
     match policy with
     | policy_max => Forall plain_index rows → ∀ o, o ∈ rows →
         dec_leb (intelligence_index o) (intelligence_index r) = true ∧ dominates o r = false
     | policy_floor n => dec_leb n (intelligence_index r) = true ∧
         ∀ o, o ∈ rows → dec_leb n (intelligence_index o) = true → floor_leb r o = true
     | policy_elbow => r ∈ pareto_frontier rows ∧ ∀ o, o ∈ rows → dominates o r = false
     | policy_slope w => (∀ o, o ∈ rows → dominates o r = false) ∧
         ∃ hull l1 l2, taut_string (pareto_frontier rows) hull ∧ hull = l1 ++ r :: l2 ∧
           (∀ l lower upper l', l1 ++ [r] = l ++ lower :: upper :: l' → affordable w lower upper = Ok true) ∧
           match l2 with [] => True | upper :: _ => affordable w r upper = Ok false end
     | policy_pinned _ => False
     end) ∧
  (∀ n, policy = policy_floor n → is_ok (select_model policy rows) = true ↔
     ∃ o, o ∈ rows ∧ dec_leb n (intelligence_index o) = true).
Proof.
  split.
  - intros r Hr. unfold select_model in Hr. apply bind_Ok in Hr as ([] & _ & Hr). destruct policy as [m| | |w|n].
    + done.
    + destruct (select_max rows) as [r'|] eqn:E; [|done]. injection Hr as ->. by apply select_max_Ok in E.
    + apply degenerate_Ok, bind_Ok in Hr as (floor & _ & Hr%select_elbow_elem).
      apply frontier_undominated in Hr as Hd. by destruct Hd.
    + apply degenerate_Ok, select_slope_Ok in Hr as (hull & l1 & l2 & _ & Ht & E & Hall & Hn).
      destruct (frontier_undominated rows r) as [? ?].
      { eapply elem_of_sublist; [|apply Ht]. rewrite E. apply elem_of_app. right. left. }
      split_and!; [done|done|]. by exists hull, l1, l2.
    + destruct (filter _ rows) as [|row rest] eqn:Ef; [done|]. injection Hr as <-.
      destruct (min_floor row rest) as [Hin Hle]. set (best := min_by floor_leb row rest) in *.
      rewrite <- Ef in Hin. apply list_elem_of_filter in Hin as [Hb Hin]. split_and!; [done|done|].
      intros o Ho Hn. apply Hle. rewrite <- Ef. by apply list_elem_of_filter.
  - intros n ->. unfold select_model. destruct (decide (rows = [])) as [->|Hne].
    { split; [done|]. intros (o & Ho & _). by apply elem_of_nil in Ho. }
    rewrite bool_decide_true by done. cbn [guard_ mbind res_bind].
    destruct (filter _ rows) as [|row rest] eqn:Ef.
    + split; [done|]. intros (o & Ho & Hn). exfalso. apply (elem_of_nil o). rewrite <- Ef.
      by apply list_elem_of_filter.
    + split; [|done]. intros _. assert (row ∈ row :: rest) as Hin by left. rewrite <- Ef in Hin.
      apply list_elem_of_filter in Hin as [? ?]. by exists row.
Qed.
End select.
