(* ===== verification/Catalog.v ===== *)
(** * The model catalog: [src/src/spine/model_policy.py], OpenRouterCatalogClient

    How the two broker tables become benchmark rows, executable routes and the
    browsable listing, and the client that caches them.  The HTTP replies and
    the clock readings are arguments; a JSON reply is a [json] value. *)
From Stdlib Require Import SpecFloat.
From S2P Require Import Prelude PyStr PyFloat PyDecimal PyJson Policy.
Open Scope Z_scope.

Record ModelRoute := {
  route_model_id : str;
  route_context_tokens : Z;
  route_input_modalities : option (gset str);
  route_supported_parameters : option (gset str);
}.

#[export] Instance model_route_eq_dec : EqDecision ModelRoute.
Proof. solve_decision. Defined.

Record ListedModel := {
  listed_model_id : str;
  listed_name : str;
  listed_context_tokens : option Z;
  listed_prompt_price : option dec;
  listed_completion_price : option dec;
  listed_reasoning : bool;
  listed_intelligence_index : option dec;
  listed_supported_parameters : option (gset str);
}.

Record ModelCatalog := {
  catalog_rows : list BenchmarkModel;
  catalog_routes : list (str * ModelRoute);
  catalog_fetched_at : Z;
  catalog_listing : list ListedModel;
}.

(** [str(value)]. *)
Definition py_str `{PyRepr} (value : json) : str := match value with JStr s => s | _ => py_repr value end.

(** ** Reading values *)
Definition float_decimal (f : float) : option dec :=
  match f with
  | S754_zero _ => Some d0
  | S754_finite s _ _ =>
      match repr_decimal (fabs f) with
      | Some (c, p) => Some (Dec (if s then - c else c) p)
      | None => None
      end
  | _ => None
  end.

(** [_finite_decimal]: a list or an object never prints as a number. *)
Definition finite_decimal `{DecimalDigits} (value : json) : option dec :=
  match value with
  | JInt z => Some (Dec z 0)
  | JFloat f => float_decimal f
  | JStr s => match parse_decimal s with Some (Some d) => Some d | _ => None end
  | JNull | JBool _ | JList _ | JObj _ => None
  end.

Definition PRICE_PER_MILLION : dec := Dec 1000000 0.
Definition per_million (price : dec) : res policy_exn dec := py (ctx_mul DECIMAL_PREC price PRICE_PER_MILLION).

(** [raw.get(key)]. *)
Definition field (key : string) (kv : list (str * json)) : json := jget_or_null (lit key) kv.

(** A nonblank string without surrounding blanks. *)
Definition trimmed_str (value : json) : option str :=
  match value with JStr s => if trimmed s then Some s else None | _ => None end.

Definition payload_data (payload : json) : res policy_exn (list json) :=
  match payload with
  | JObj kv => match field "data" kv with
               | JList data => Ok data
               | _ => Err (ModelCatalogUnavailable "OpenRouter response has no data array")
               end
  | _ => Err (ModelCatalogUnavailable "OpenRouter response has no data array")
  end.

Definition strings_of (l : list json) : list str := omap as_str l.

Definition parse_supported_parameters (kv : list (str * json)) : option (gset str) :=
  match field "supported_parameters" kv with
  | JList supported => Some (list_to_set (strings_of supported))
  | _ => None
  end.

Definition parse_input_modalities (kv : list (str * json)) : option (gset str) :=
  match field "architecture" kv with
  | JObj architecture =>
      match field "input_modalities" architecture with
      | JList value => l ← mapM trimmed_str value; Some (list_to_set l)
      | _ => None
      end
  | _ => None
  end.

(** Python's [==] between two decoded JSON values: numbers compare by value
    across [bool], [int] and [float], objects without their order.  The decoder's
    one NaN object equals itself inside a tuple. *)
Definition numeric_value (value : json) : option (Z * Z) :=
  match value with
  | JBool b => Some (if b then 1 else 0, 0)
  | JInt z => Some (z, 0)
  | JFloat (S754_zero _) => Some (0, 0)
  | JFloat (S754_finite s m e) => Some (cond_Zopp s (Zpos m), e)
  | _ => None
  end.

Definition numeric_eq (a b : Z * Z) : bool :=
  let e := Z.min a.2 b.2 in a.1 * 2 ^ (a.2 - e) =? b.1 * 2 ^ (b.2 - e).

Fixpoint py_eq (a b : json) {struct a} : bool :=
  match numeric_value a, numeric_value b with
  | Some x, Some y => numeric_eq x y
  | _, _ =>
      match a, b with
      | JNull, JNull => true
      | JFloat f, JFloat g => feq f g || is_nan f && is_nan g
      | JStr s, JStr t => bool_decide (s = t)
      | JList l, JList m =>
          (fix list_eq (l m : list json) {struct l} : bool :=
             match l, m with
             | [], [] => true
             | x :: l, y :: m => py_eq x y && list_eq l m
             | _, _ => false
             end) l m
      | JObj kv, JObj kw =>
          (length kv =? length kw)%nat
          && (fix keys_eq (kv : list (str * json)) : bool :=
                match kv with
                | [] => true
                | (k, x) :: kv => match aget k kw with Some y => py_eq x y | None => false end && keys_eq kv
                end) kv
      | _, _ => false
      end
  end.

(** ** The benchmark table *)
Section parse.
Context `{DecimalDigits} `{PyRepr}.

(** One row, or [None] where the loop continues. *)
Definition parse_benchmark_row (raw : json) : res policy_exn (option BenchmarkModel) :=
  match raw with
  | JObj kv =>
      if negb (bool_decide (as_str (field "source" kv) = Some (lit "artificial-analysis"))) then Ok None
      else
        match field "pricing" kv with
        | JObj pricing =>
            match trimmed_str (field "model_permaslug" kv), finite_decimal (field "intelligence_index" kv),
                  finite_decimal (field "prompt" pricing), finite_decimal (field "completion" pricing) with
            | Some slug, Some intelligence, Some prompt, Some completion =>
                if (coef prompt <? 0) || (coef completion <? 0) then Ok None
                else
                  p ← per_million prompt;
                  c ← per_million completion;
                  Ok (Some {| permaslug := slug; intelligence_index := intelligence;
                              prompt_price := p; completion_price := c |})
            | _, _, _, _ => Ok None
            end
        | _ => Ok None
        end
  | _ => Ok None
  end.

(** Dataclass equality: the decimals compare by value. *)
Definition row_eq (a b : BenchmarkModel) : bool :=
  bool_decide (permaslug a = permaslug b) && dec_eqb (intelligence_index a) (intelligence_index b)
  && dec_eqb (prompt_price a) (prompt_price b) && dec_eqb (completion_price a) (completion_price b).

Definition benchmark_step (rows : list (str * BenchmarkModel)) (raw : json) :
    res policy_exn (list (str * BenchmarkModel)) :=
  parsed ← parse_benchmark_row raw;
  match parsed with
  | None => Ok rows
  | Some row =>
      match aget (permaslug row) rows with
      | Some existing =>
          guard_ (row_eq existing row)
            (ModelCatalogUnavailable "benchmark table contains conflicting model rows");;
          Ok (aset (permaslug row) row rows)
      | None => Ok (aset (permaslug row) row rows)
      end
  end.

Definition parse_benchmark_rows (payload : json) : res policy_exn (list BenchmarkModel) :=
  data ← payload_data payload;
  rows ← res_fold benchmark_step [] data;
  guard_ (bool_decide (rows ≠ [])) (ModelCatalogUnavailable "benchmark table has no complete rows");;
  Ok rows.*2.

(** ** The routes *)
Definition route_value := (json * option (gset str) * option (gset str))%type.

Definition route_value_eq (a b : route_value) : bool :=
  py_eq a.1.1 b.1.1 && bool_decide (a.1.2 = b.1.2) && bool_decide (a.2 = b.2).

Record route_table := {
  rt_grouped : list (str * list (str * route_value));
  rt_canonical : list (str * str);
}.

Definition route_step (t : route_table) (raw : json) : res policy_exn route_table :=
  match raw with
  | JObj kv =>
      match trimmed_str (field "id" kv), trimmed_str (field "canonical_slug" kv) with
      | Some model_id, Some slug =>
          guard_ (match aget model_id (rt_canonical t) with Some c => bool_decide (c = slug) | None => true end)
            (ModelCatalogUnavailable "model table maps one route to multiple models");;
          let routes := default [] (aget slug (rt_grouped t)) in
          let value := (field "context_length" kv, parse_input_modalities kv, parse_supported_parameters kv) in
          guard_ (match aget model_id routes with Some v => route_value_eq v value | None => true end)
            (ModelCatalogUnavailable "model table contains conflicting route rows");;
          Ok {| rt_grouped := aset slug (aset model_id value routes) (rt_grouped t);
                rt_canonical := aset model_id slug (rt_canonical t) |}
      | _, _ => Ok t
      end
  | _ => Ok t
  end.

(** The one route a model is unambiguously reached by: its only plain
    identifier, or its only identifier when it has no plain one. *)
Definition selected_id (by_id : list (str * route_value)) : option str :=
  match filter (λ model_id, mem_char 58 model_id = false) by_id.*1 with
  | [model_id] => Some model_id
  | [] => match by_id.*1 with [model_id] => Some model_id | _ => None end
  | _ => None
  end.

Definition positive_context (value : json) : option Z :=
  match value with JInt z => if 0 <? z then Some z else None | _ => None end.

Definition resolve_route (by_id : list (str * route_value)) : option ModelRoute :=
  model_id ← selected_id by_id;
  v ← aget model_id by_id;
  context ← positive_context v.1.1;
  Some {| route_model_id := model_id; route_context_tokens := context;
          route_input_modalities := v.1.2; route_supported_parameters := v.2 |}.

Definition resolved_routes (grouped : list (str * list (str * route_value))) : list (str * ModelRoute) :=
  omap (λ sb : str * list (str * route_value), r ← resolve_route sb.2; Some (sb.1, r)) grouped.

Definition parse_model_routes (payload : json) : res policy_exn (list (str * ModelRoute)) :=
  data ← payload_data payload;
  t ← res_fold route_step {| rt_grouped := []; rt_canonical := [] |} data;
  let resolved := resolved_routes (rt_grouped t) in
  guard_ (bool_decide (resolved ≠ []))
    (ModelCatalogUnavailable "model table has no unambiguous positive-context routes");;
  Ok resolved.

Definition named_route_of (raw : json) : option ModelRoute :=
  match raw with
  | JObj kv =>
      model_id ← trimmed_str (field "id" kv);
      context ← positive_context (field "context_length" kv);
      Some {| route_model_id := model_id; route_context_tokens := context;
              route_input_modalities := parse_input_modalities kv;
              route_supported_parameters := parse_supported_parameters kv |}
  | _ => None
  end.

Definition named_step (resolved : list (str * ModelRoute)) (raw : json) :
    res policy_exn (list (str * ModelRoute)) :=
  match named_route_of raw with
  | None => Ok resolved
  | Some route =>
      guard_ (match aget (route_model_id route) resolved with Some r => bool_decide (r = route) | None => true end)
        (ModelCatalogUnavailable "model table contains conflicting named routes");;
      Ok (aset (route_model_id route) route resolved)
  end.

Definition parse_named_routes (payload : json) : res policy_exn (list (str * ModelRoute)) :=
  data ← payload_data payload;
  resolved ← res_fold named_step [] data;
  guard_ (bool_decide (resolved ≠ []))
    (ModelCatalogUnavailable "model table has no positive-context named routes");;
  Ok resolved.

(** ** The listing *)
Definition negative_price (price : option dec) : bool :=
  match price with Some p => coef p <? 0 | None => false end.

Definition priced (price : option dec) : res policy_exn (option dec) :=
  match price with Some p => q ← per_million p; Ok (Some q) | None => Ok None end.

Definition listing_step (index : list (str * dec)) (listed : list (str * ListedModel)) (raw : json) :
    res policy_exn (list (str * ListedModel)) :=
  match raw with
  | JObj kv =>
      match trimmed_str (field "id" kv) with
      | Some model_id =>
          let '(prompt, completion) := match field "pricing" kv with
            | JObj pricing => (finite_decimal (field "prompt" pricing), finite_decimal (field "completion" pricing))
            | _ => (None, None) end in
          if startswith (lit "openrouter/") model_id || negative_price prompt || negative_price completion
          then Ok listed
          else
            p ← priced prompt;
            c ← priced completion;
            Ok (aset model_id {|
                  listed_model_id := model_id;
                  listed_name := match field "name" kv with
                                 | JStr s => if blank s then model_id else strip s
                                 | _ => model_id end;
                  listed_context_tokens := positive_context (field "context_length" kv);
                  listed_prompt_price := p; listed_completion_price := c;
                  listed_reasoning := match field "supported_parameters" kv with
                                      | JList l => existsb (λ v, bool_decide (as_str v = Some (lit "reasoning"))) l
                                      | _ => false end;
                  listed_intelligence_index := aget (py_str (field "canonical_slug" kv)) index;
                  listed_supported_parameters := parse_supported_parameters kv |} listed)
      | None => Ok listed
      end
  | _ => Ok listed
  end.

Definition parse_model_listing (payload : json) (rows : list BenchmarkModel) : res policy_exn (list ListedModel) :=
  let index := foldl (λ d row, aset (permaslug row) (intelligence_index row) d) [] rows in
  data ← payload_data payload;
  listed ← res_fold (listing_step index) [] data;
  Ok listed.*2.

(** ** The client *)
Inductive http_reply :=
  | http_error
  | http_response (is_success : bool) (body : option json).

Record client := {
  c_api_key : option str;
  c_cached : option ModelCatalog;
  c_cached_at_monotonic : float;
  c_named_routes : list (str * (ModelRoute * Z));
}.

(** The stripped key of the constructor. *)
Definition new_client (api_key : option str) : client := {|
  c_api_key := strip <$> api_key; c_cached := None; c_cached_at_monotonic := f0; c_named_routes := [] |}.

Definition CATALOG_TTL_SECONDS : Z := 24 * 60 * 60.

Definition fresh_cache (c : client) (monotonic : float) : option ModelCatalog :=
  catalog ← c_cached c;
  let age := fsub monotonic (c_cached_at_monotonic c) in
  if fle f0 age && flt age (f_of_Z CATALOG_TTL_SECONDS) then Some catalog else None.

Definition request_client (c : client) : res policy_exn unit :=
  guard_ (match c_api_key c with Some (_ :: _) => true | _ => false end)
    (ModelCatalogUnavailable "OPENROUTER_API_KEY is unavailable for model policy lookup").

(** A failed request is an [httpx.HTTPError], which both callers catch. *)
Definition response_json (reply : http_reply) : res policy_exn json :=
  match reply with
  | http_error => Err (PyExn (ValueError "httpx.HTTPError"))
  | http_response is_success body =>
      guard_ is_success (ModelCatalogUnavailable "OpenRouter request returned an HTTP error");;
      match body with
      | Some payload => Ok payload
      | None => Err (ModelCatalogUnavailable "OpenRouter response was not JSON")
      end
  end.

(** A naive clock reading is [None]. *)
Definition aware (reading : option Z) : res policy_exn Z :=
  match reading with
  | Some t => Ok t
  | None => Err (ModelCatalogUnavailable "catalog clock returned a naive timestamp")
  end.

(** [asyncio.gather]: one failed request fails the pair. *)
Definition gathered (benchmarks models : http_reply) : res policy_exn unit :=
  match benchmarks, models with
  | http_response _ _, http_response _ _ => Ok tt
  | _, _ => Err (PyExn (ValueError "httpx.HTTPError"))
  end.

Definition fetch_catalog (benchmarks models : http_reply) (reading : option Z) :
    res policy_exn (ModelCatalog * list (str * ModelRoute)) :=
  gathered benchmarks models;;
  benchmark_payload ← response_json benchmarks;
  models_payload ← response_json models;
  fetched_at ← aware reading;
  rows ← parse_benchmark_rows benchmark_payload;
  routes ← parse_model_routes models_payload;
  listing ← parse_model_listing models_payload rows;
  named ← parse_named_routes models_payload;
  Ok ({| catalog_rows := rows; catalog_routes := routes; catalog_fetched_at := fetched_at;
         catalog_listing := listing |}, named).

(** [except (httpx.HTTPError, ValueError, TypeError, DecimalException)]. *)
Definition unavailable {A} (msg : string) (r : res policy_exn A) : res policy_exn A :=
  match r with
  | Err (PyExn _) => Err (ModelCatalogUnavailable msg)
  | _ => r
  end.

(** [load]: the monotonic clock is read before the lock, under it, and after
    the fetch. *)
Definition load (c : client) (before locked after : float) (benchmarks models : http_reply)
    (reading : option Z) : res policy_exn ModelCatalog * client :=
  match fresh_cache c before, fresh_cache c locked with
  | Some catalog, _ => (Ok catalog, c)
  | None, Some catalog => (Ok catalog, c)
  | None, None =>
      match (request_client c;; unavailable "OpenRouter catalog request failed" (fetch_catalog benchmarks models reading)) with
      | Ok (catalog, named) =>
          (Ok catalog,
           {| c_api_key := c_api_key c; c_cached := Some catalog; c_cached_at_monotonic := after;
              c_named_routes := foldl (λ d kr, aset kr.1 (kr.2, catalog_fetched_at catalog) d)
                                  (c_named_routes c) named |})
      | Err e => (Err e, c)
      end
  end.

Definition stamp_routes (fetched_at : Z) (routes : list (str * ModelRoute)) : list (str * (ModelRoute * Z)) :=
  (λ kr : str * ModelRoute, (kr.1, (kr.2, fetched_at))) <$> routes.

Definition fetch_named (models : http_reply) (reading : option Z) : res policy_exn (list (str * (ModelRoute * Z))) :=
  payload ← response_json models;
  fetched_at ← aware reading;
  routes ← parse_named_routes payload;
  Ok (stamp_routes fetched_at routes).

Definition with_named (c : client) (named : list (str * (ModelRoute * Z))) : client := {|
  c_api_key := c_api_key c; c_cached := c_cached c; c_cached_at_monotonic := c_cached_at_monotonic c;
  c_named_routes := named |}.

(** [load_named_route]: a failed fetch falls back to the last table that named
    the model. *)
Definition load_named_route (c : client) (model_id : str) (models : http_reply) (reading : option Z) :
    res policy_exn (ModelRoute * Z) * client :=
  match request_client c with
  | Err e => (Err e, c)
  | Ok _ =>
      match fetch_named models reading with
      | Ok named =>
          (match aget model_id named with
           | Some route => Ok route
           | None => Err (NamedModelResolutionError "unknown OpenRouter model")
           end, with_named c named)
      | Err _ =>
          (match aget model_id (c_named_routes c) with
           | Some route => Ok route
           | None => Err (ModelCatalogUnavailable "OpenRouter model-list request failed")
           end, c)
      end
  end.
End parse.
