(* ===== verification/CatalogFacts.v ===== *)
(** * What the model catalog guarantees *)
From S2P Require Import Prelude PyStr PyFloat PyDecimal PyJson Policy Catalog.
Open Scope Z_scope.

Section facts.
Context `{DecimalDigits} `{PyRepr}.

(** ** Routes *)

(** A row of the model table that names a route. *)
Definition names (kv : list (str * json)) (model_id slug : str) : Prop :=
  trimmed_str (field "id" kv) = Some model_id ∧ trimmed_str (field "canonical_slug" kv) = Some slug.

Definition row_value (kv : list (str * json)) : route_value :=
  (field "context_length" kv, parse_input_modalities kv, parse_supported_parameters kv).

(** What the table under construction knows of the rows read so far. *)
Record table_inv (t : route_table) (read : list json) : Prop := {
  ti_from : ∀ slug by_id model_id v, aget slug (rt_grouped t) = Some by_id → aget model_id by_id = Some v →
    ∃ kv, JObj kv ∈ read ∧ names kv model_id slug ∧ v = row_value kv;
  ti_to : ∀ kv model_id slug, JObj kv ∈ read → names kv model_id slug →
    aget model_id (rt_canonical t) = Some slug ∧
    ∃ by_id v, aget slug (rt_grouped t) = Some by_id ∧ aget model_id by_id = Some v;
}.

Lemma route_step_inv t read raw t' :
  table_inv t read → route_step t raw = Ok t' → table_inv t' (read ++ [raw]).
Proof.
  intros [Hfrom Hto] Hs.
  assert (Hskip : (∀ kv model_id slug, raw = JObj kv → ¬ names kv model_id slug) → t' = t → table_inv t' (read ++ [raw])).
  { intros Hno ->. split.
    - intros slug by_id model_id v H1 H2. destruct (Hfrom _ _ _ _ H1 H2) as (kv & ? & ?).
      exists kv. split; [apply elem_of_app; by left|done].
    - intros kv model_id slug [Hin|E%list_elem_of_singleton]%elem_of_app Hn; [by eapply Hto|].
      by destruct (Hno kv model_id slug). }
  destruct raw as [| | | | | |kv]; cbn [route_step] in Hs; try (injection Hs as <-; by apply Hskip).
  destruct (trimmed_str (field "id" kv)) as [model_id|] eqn:Eid;
    [|injection Hs as <-; apply Hskip; [|done]; intros ? ? ? [= <-] [? _]; congruence].
  destruct (trimmed_str (field "canonical_slug" kv)) as [slug|] eqn:Esl;
    [|injection Hs as <-; apply Hskip; [|done]; intros ? ? ? [= <-] [_ ?]; congruence].
  clear Hskip. apply bind_Ok in Hs as ([] & Hcan%guard_Ok & Hs). apply bind_Ok in Hs as ([] & _ & Hs).
  injection Hs as <-. set (routes := default [] (aget slug (rt_grouped t))). split; cbn.
  - intros s by_id m v Hs Hm. destruct (decide (s = slug)) as [->|Hne].
    + rewrite aget_aset_eq in Hs. injection Hs as <-. destruct (decide (m = model_id)) as [->|Hm'].
      * rewrite aget_aset_eq in Hm. injection Hm as <-. exists kv.
        split; [apply elem_of_app; right; left|by split].
      * rewrite aget_aset_ne in Hm by done. unfold routes in Hm.
        destruct (aget slug (rt_grouped t)) as [by_id|] eqn:E; [|done].
        destruct (Hfrom _ _ _ _ E Hm) as (kv' & ? & ?). exists kv'. split; [apply elem_of_app; by left|done].
    + rewrite aget_aset_ne in Hs by done. destruct (Hfrom _ _ _ _ Hs Hm) as (kv' & ? & ?).
      exists kv'. split; [apply elem_of_app; by left|done].
  - intros kv' m s Hin Hn.
    assert (Hcase : (m = model_id ∧ s = slug) ∨ JObj kv' ∈ read).
    { apply elem_of_app in Hin as [?|E%list_elem_of_singleton]; [by right|].
      injection E as ->. destruct Hn. left. split; congruence. }
    destruct Hcase as [[-> ->]|Hold].
    + rewrite !aget_aset_eq. split; [done|]. eexists _, _. split; [done|]. by rewrite aget_aset_eq.
    + destruct (Hto kv' m s Hold Hn) as (Hc & by_id & v & Hg & Hv). split.
      * destruct (decide (m = model_id)) as [->|]; [|by rewrite aget_aset_ne].
        rewrite Hc in Hcan. apply bool_decide_eq_true_1 in Hcan as ->. by rewrite aget_aset_eq.
      * destruct (decide (s = slug)) as [->|]; [|rewrite aget_aset_ne by done; eauto].
        rewrite aget_aset_eq. unfold routes. rewrite Hg. cbn.
        destruct (decide (m = model_id)) as [->|]; eexists _, _; (split; [done|]).
        -- by rewrite aget_aset_eq.
        -- by rewrite aget_aset_ne.
Qed.

Lemma route_fold_inv data t read t' :
  table_inv t read → res_fold route_step t data = Ok t' → table_inv t' (read ++ data).
Proof.
  revert t read. induction data as [|raw data IH]; intros t read Hi; cbn [res_fold].
  - intros [= <-]. by rewrite app_nil_r.
  - intros Hs. apply bind_Ok in Hs as (t1 & H1 & Hs). apply (route_step_inv _ _ _ _ Hi) in H1.
    apply (IH _ _ H1) in Hs. by rewrite <- (assoc_L (++)) in Hs.
Qed.

Lemma resolved_get grouped slug route :
  aget slug (resolved_routes grouped) = Some route →
  ∃ by_id, (slug, by_id) ∈ grouped ∧ resolve_route by_id = Some route.
Proof.
  intros Ha. apply aget_Some_elem in Ha. unfold resolved_routes in Ha.
  apply list_elem_of_omap in Ha as ([s by_id] & Hin & Hr). cbn in Hr.
  destruct (resolve_route by_id) eqn:E; [|done]. injection Hr as -> ->. eauto.
Qed.

Lemma selected_plain by_id model_id m :
  selected_id by_id = Some model_id → m ∈ by_id.*1 → mem_char 58 m = false → m = model_id.
Proof.
  unfold selected_id. intros Hs Hm Hp.
  assert (m ∈ filter (λ model_id, mem_char 58 model_id = false) by_id.*1) as Hf by (by apply list_elem_of_filter).
  destruct (filter _ by_id.*1) as [|x [|y l]]; [by apply elem_of_nil in Hf| |done].
  injection Hs as <-. by apply list_elem_of_singleton in Hf.
Qed.

Lemma aset_nodup {K V} `{EqDecision K} (k : K) (v : V) (l : list (K * V)) : NoDup l.*1 → NoDup (aset k v l).*1.
Proof.
  intros Hnd. destruct (aget k l) eqn:E.
  - rewrite aset_keys by (rewrite E; eauto). done.
  - apply aget_None in E. rewrite aset_fresh, fmap_app by done. apply NoDup_app.
    split_and!; [done| |apply NoDup_singleton]. cbn. by intros x Hx ->%list_elem_of_singleton.
Qed.

Lemma route_fold_nodup data t t' :
  NoDup (rt_grouped t).*1 → res_fold route_step t data = Ok t' → NoDup (rt_grouped t').*1.
Proof.
  revert t. induction data as [|raw data IH]; intros t Hnd; cbn [res_fold]; [by intros [= <-]|].
  intros Hs. apply bind_Ok in Hs as (t1 & H1 & Hs). revert Hs. apply IH. unfold route_step in H1.
  destruct raw as [| | | | | |kv]; try by injection H1 as <-.
  destruct (trimmed_str (field "id" kv)); [|by injection H1 as <-].
  destruct (trimmed_str (field "canonical_slug" kv)); [|by injection H1 as <-].
  apply bind_Ok in H1 as ([] & _ & H1). apply bind_Ok in H1 as ([] & _ & H1).
  injection H1 as <-. by apply aset_nodup.
Qed.

(** The table behind a parse, and the group behind a route. *)
Lemma parsed_route payload routes slug route :
  parse_model_routes payload = Ok routes → aget slug routes = Some route →
  ∃ data t by_id v ctx, payload_data payload = Ok data ∧ table_inv t data ∧
    aget slug (rt_grouped t) = Some by_id ∧ selected_id by_id = Some (route_model_id route) ∧
    aget (route_model_id route) by_id = Some v ∧ positive_context v.1.1 = Some ctx ∧
    route = {| route_model_id := route_model_id route; route_context_tokens := ctx;
               route_input_modalities := v.1.2; route_supported_parameters := v.2 |}.
Proof.
  unfold parse_model_routes. intros Hp Hr. apply bind_Ok in Hp as (data & Hd & Hp).
  apply bind_Ok in Hp as (t & Ht & Hp). apply bind_Ok in Hp as ([] & _ & [= <-]).
  assert (NoDup (rt_grouped t).*1) as Hnd by (eapply route_fold_nodup; [|exact Ht]; constructor).
  assert (table_inv {| rt_grouped := []; rt_canonical := [] |} []) as Hi0
    by (split; [done|by intros ? ? ? ?%elem_of_nil]).
  pose proof (route_fold_inv _ _ _ _ Hi0 Ht) as Hi. cbn in Hi.
  apply resolved_get in Hr as (by_id & Hin & Hr). apply aget_elem in Hin; [|done].
  unfold resolve_route in Hr.
  destruct (selected_id by_id) as [model_id|] eqn:Es; [|done]. cbn in Hr.
  destruct (aget model_id by_id) as [v|] eqn:Ev; [|done]. cbn in Hr.
  destruct (positive_context v.1.1) as [ctx|] eqn:Ec; [|done]. injection Hr as <-.
  exists data, t, by_id, v, ctx. by split_and!.
Qed.

Lemma positive_context_Some value ctx : positive_context value = Some ctx → value = JInt ctx ∧ 0 < ctx.
Proof. unfold positive_context. destruct value; try done. destruct (Z.ltb_spec 0 z); [by intros [= ->]|done]. Qed.

(** The row of the broker's table behind a route. *)
Lemma route_row payload routes slug route :
  parse_model_routes payload = Ok routes → aget slug routes = Some route →
  ∃ data kv, payload_data payload = Ok data ∧ JObj kv ∈ data ∧ names kv (route_model_id route) slug ∧
    field "context_length" kv = JInt (route_context_tokens route) ∧ 0 < route_context_tokens route ∧
    parse_input_modalities kv = route_input_modalities route ∧
    parse_supported_parameters kv = route_supported_parameters route.
Proof.
  intros Hp Hr. destruct (parsed_route _ _ _ _ Hp Hr) as (data & t & by_id & v & ctx & Hd & [Hfrom _] & Hin & _ & Ev & Ec & ->).
  destruct (Hfrom _ _ _ _ Hin Ev) as (kv & Hkv & Hn & ->).
  apply positive_context_Some in Ec as [Ef Hpos]. exists data, kv. cbn. by split_and!.
Qed.

(** An executable route is unambiguous.  A model's route is a row of the
    broker's table that names the model and has a positive whole context
    window; every row with that identifier names the same model, and no other
    plain identifier (one without a colon) is listed for the model. *)
Theorem routes_unambiguous (payload : json) (routes : list (str * ModelRoute)) slug route :
  parse_model_routes payload = Ok routes → aget slug routes = Some route →
  ∃ data, payload_data payload = Ok data ∧
    (∃ kv, JObj kv ∈ data ∧ names kv (route_model_id route) slug ∧
       field "context_length" kv = JInt (route_context_tokens route) ∧ 0 < route_context_tokens route) ∧
    (∀ kv s, JObj kv ∈ data → names kv (route_model_id route) s → s = slug) ∧
    (∀ kv model_id, JObj kv ∈ data → names kv model_id slug → mem_char 58 model_id = false →
       model_id = route_model_id route).
Proof.
  intros Hp Hr. destruct (route_row _ _ _ _ Hp Hr) as (data & kv & Hd & Hkv & Hn & Hc & Hpos & _).
  destruct (parsed_route _ _ _ _ Hp Hr) as (data' & t & by_id & v & ctx & Hd' & [_ Hto] & Hin & Es & Ev & _ & _).
  rewrite Hd in Hd'. injection Hd' as <-. destruct (Hto _ _ _ Hkv Hn) as (Hcan & _).
  exists data. split_and!; [done|by exists kv|..].
  - intros kv' s Hin' Hn'. destruct (Hto _ _ _ Hin' Hn') as (Hc' & _). congruence.
  - intros kv' m Hin' Hn' Hpl. destruct (Hto _ _ _ Hin' Hn') as (_ & by_id' & v' & Hg & Hv').
    rewrite Hin in Hg. injection Hg as <-. eapply selected_plain; [done| |done].
    apply aget_Some_elem in Hv'. apply list_elem_of_fmap. by exists (m, v').
Qed.

(** ** The cache *)

(** Errors of the parsing pipeline: an unavailable catalog, or a builtin one. *)
Definition catalog_error (e : policy_exn) : Prop :=
  (∃ msg, e = ModelCatalogUnavailable msg) ∨ ∃ x, e = PyExn x.
Definition safe {A} (r : res policy_exn A) : Prop := ∀ e, r = Err e → catalog_error e.

Lemma safe_ok {A} (a : A) : safe (Ok a).
Proof. by intros e. Qed.
Lemma safe_err {A} msg : safe (@Err _ A (ModelCatalogUnavailable msg)).
Proof. intros e [= <-]. left. eauto. Qed.
Lemma safe_builtin {A} x : safe (@Err _ A (PyExn x)).
Proof. intros e [= <-]. right. eauto. Qed.
Lemma safe_bind {A B} (m : res policy_exn A) (f : A → res policy_exn B) :
  safe m → (∀ a, safe (f a)) → safe (m ≫= f).
Proof. intros Hm Hf e [?|(a & _ & ?)]%bind_Err; [by apply Hm|by eapply Hf]. Qed.
Lemma safe_guard b msg : safe (guard_ b (ModelCatalogUnavailable msg)).
Proof. destruct b; [apply safe_ok|apply safe_err]. Qed.
Lemma safe_py {A} (r : res pyexn A) : safe (py r).
Proof. destruct r; [apply safe_ok|apply safe_builtin]. Qed.
Lemma safe_fold {A S} (f : S → A → res policy_exn S) l s : (∀ s x, safe (f s x)) → safe (res_fold f s l).
Proof. intros Hf. revert s. induction l as [|x l IH]; intros s; cbn; [apply safe_ok|by apply safe_bind]. Qed.

Create HintDb catalog.
#[local] Hint Resolve safe_ok safe_err safe_builtin safe_guard safe_py : catalog.

Ltac safe_step :=
  match goal with
  | |- safe (_ ≫= _) => apply safe_bind; [|intros ?]
  | |- safe (res_fold _ _ _) => apply safe_fold; intros ? ?
  | |- safe (match ?x with _ => _ end) => destruct x
  end.
Ltac safety := repeat first [solve [eauto with catalog] | safe_step].

Lemma safe_payload_data payload : safe (payload_data payload).
Proof. unfold payload_data. safety. Qed.
Lemma safe_per_million price : safe (per_million price).
Proof. unfold per_million. safety. Qed.
#[local] Hint Resolve safe_payload_data safe_per_million : catalog.

Lemma safe_benchmark_rows payload : safe (parse_benchmark_rows payload).
Proof. unfold parse_benchmark_rows, benchmark_step, parse_benchmark_row. safety. Qed.
Lemma safe_model_routes payload : safe (parse_model_routes payload).
Proof. unfold parse_model_routes, route_step. safety. Qed.
Lemma safe_named_routes payload : safe (parse_named_routes payload).
Proof. unfold parse_named_routes, named_step. safety. Qed.
Lemma safe_listing payload rows : safe (parse_model_listing payload rows).
Proof. unfold parse_model_listing, listing_step, priced. safety. Qed.
#[local] Hint Resolve safe_benchmark_rows safe_model_routes safe_named_routes safe_listing : catalog.

Lemma safe_fetch benchmarks models reading : safe (fetch_catalog benchmarks models reading).
Proof. unfold fetch_catalog, gathered, response_json, aware. safety. Qed.

Lemma unavailable_error {A} msg (r : res policy_exn A) e :
  safe r → unavailable msg r = Err e → ∃ m, e = ModelCatalogUnavailable m.
Proof.
  intros Hs. destruct r as [a|e']; cbn; [done|]. destruct (Hs e' eq_refl) as [(m & ->)|(x & ->)]; intros [= <-]; eauto.
Qed.

(** The catalog client answers from its cache exactly while the last fetch
    is less than a day old; otherwise it fetches.  A fetched catalog is what
    the two replies say and is kept, so that the next load within the day is
    answered alike whatever the replies; a failed fetch keeps the client as it
    is and reports the catalog as unavailable, never another error. *)
Theorem load_spec (c : client) (before locked after : float) (benchmarks models : http_reply) (reading : option Z)
    (r : res policy_exn ModelCatalog) (c' : client) :
  load c before locked after benchmarks models reading = (r, c') →
  match r with
  | Ok catalog =>
      (c' = c ∧ (fresh_cache c before = Some catalog ∨ fresh_cache c locked = Some catalog)) ∨
      (fresh_cache c before = None ∧ fresh_cache c locked = None ∧
       (∃ named, fetch_catalog benchmarks models reading = Ok (catalog, named)) ∧
       c_cached c' = Some catalog ∧
       ∀ now now' after' b' m' reading', fle f0 (fsub now after) = true →
         flt (fsub now after) (f_of_Z CATALOG_TTL_SECONDS) = true →
         load c' now now' after' b' m' reading' = (Ok catalog, c'))
  | Err e => c' = c ∧ fresh_cache c before = None ∧ fresh_cache c locked = None ∧
      ∃ msg, e = ModelCatalogUnavailable msg
  end.
Proof.
  unfold load. destruct (fresh_cache c before) as [k|] eqn:E1; [intros [= <- <-]; auto|].
  destruct (fresh_cache c locked) as [k|] eqn:E2; [intros [= <- <-]; auto|].
  destruct (request_client c) as [[]|e] eqn:Er; cbn [mbind res_bind].
  - destruct (unavailable _ (fetch_catalog benchmarks models reading)) as [[catalog named]|e] eqn:Eu;
      intros [= <- <-].
    + right. split_and!; [done|done| |done|].
      * exists named. destruct (fetch_catalog _ _ _) as [[]|[]]; cbn in Eu; by simplify_eq.
      * intros now now' after' b' m' reading' H1 H2. unfold fresh_cache at 1. cbn.
        by rewrite H1, H2.
    + split_and!; try done. eapply unavailable_error; [|exact Eu]. apply safe_fetch.
  - intros [= <- <-]. split_and!; try done. unfold request_client in Er.
    apply guard_Err in Er as [_ <-]. eauto.
Qed.
End facts.
