(* ===== verification/Resolver.v ===== *)
(** * The per-thread model choice: [src/src/spine/model_policy.py], ModelPolicyResolver

    The resolver keeps one model per thread for the daemon's life.  Its methods
    await the catalog, so each is cut at its awaits: a beginning that reads
    the state, and an end that takes the catalog's answer and the state as it
    then is.  One asyncio lock is held from the beginning to the end of a
    resolution ([s_locked]), and the transition system lets every other method
    run in between. *)
From S2P Require Import Prelude PyStr PyFloat PyDecimal PyJson Policy Catalog.
Open Scope Z_scope.

(** ** Data *)
Record ModelRequestParameters := {
  temperature : option float;
  top_p : option float;
  top_k : option Z;
  max_tokens : option Z;
  effort : option str;
}.

Definition no_parameters : ModelRequestParameters :=
  {| temperature := None; top_p := None; top_k := None; max_tokens := None; effort := None |}.

Definition between (lo hi : Z) (z : Z) : bool := (lo <=? z) && (z <=? hi).
Definition opt_ok {A} (f : A → bool) (o : option A) : bool := match o with Some a => f a | None => true end.

(** [ModelRequestParameters.__post_init__]. *)
Definition parameters_post_init (p : ModelRequestParameters) : res policy_exn unit :=
  guard_ (opt_ok (λ t, fle f0 t && fle t (f_of_Z 2)) (temperature p))
    (PyExn (ValueError "temperature must be between 0 and 2"));;
  guard_ (opt_ok (λ t, fle f0 t && fle t f1) (top_p p)) (PyExn (ValueError "top_p must be between 0 and 1"));;
  guard_ (opt_ok (between 0 500) (top_k p)) (PyExn (ValueError "top_k must be an integer between 0 and 500"));;
  guard_ (opt_ok (between 1 131072) (max_tokens p))
    (PyExn (ValueError "max_tokens must be an integer between 1 and 131072")).

Record ThreadModelResolution := {
  t_model : str;
  t_context_tokens : Z;
  t_policy : str;
  t_price_sorted : bool;
  t_input_modalities : option (gset str);
  t_benchmark : option BenchmarkModel;
  t_catalog_fetched_at : option Z;
  t_stickiness_epoch : Z;
  t_supported_parameters : option (gset str);
  t_request_parameters : ModelRequestParameters;
}.

(** [ThreadModelResolution.__post_init__]; the constructor returns the value. *)
Definition resolution_post_init (r : ThreadModelResolution) : res policy_exn ThreadModelResolution :=
  validate_model_name (t_model r);;
  guard_ (0 <? t_context_tokens r) (PyExn (ValueError "context_tokens must be a positive integer"));;
  guard_ (0 <=? t_stickiness_epoch r) (PyExn (ValueError "stickiness_epoch must be a non-negative integer"));;
  guard_ (match t_input_modalities r with Some m => forallb trimmed (elements m) | None => true end)
    (PyExn (ValueError "input_modalities must be a frozenset of nonblank strings or None"));;
  Ok r.

Definition OPENROUTER : str := lit "openrouter:".
Definition uses_openrouter (r : ThreadModelResolution) : bool := startswith OPENROUTER (t_model r).

Definition plain_resolution (model : str) (context : Z) (policy : str) (price_sorted : bool) : ThreadModelResolution := {|
  t_model := model; t_context_tokens := context; t_policy := policy; t_price_sorted := price_sorted;
  t_input_modalities := None; t_benchmark := None; t_catalog_fetched_at := None; t_stickiness_epoch := 0;
  t_supported_parameters := None; t_request_parameters := no_parameters |}.

(** [replace(resolution, input_modalities=..., catalog_fetched_at=...)]. *)
Definition with_modalities (modalities : option (gset str)) (fetched_at : option Z) (r : ThreadModelResolution) :
    ThreadModelResolution := {|
  t_model := t_model r; t_context_tokens := t_context_tokens r; t_policy := t_policy r;
  t_price_sorted := t_price_sorted r; t_input_modalities := modalities; t_benchmark := t_benchmark r;
  t_catalog_fetched_at := fetched_at; t_stickiness_epoch := t_stickiness_epoch r;
  t_supported_parameters := t_supported_parameters r; t_request_parameters := t_request_parameters r |}.

(** The lock's holder and what it awaits. *)
Inductive pending :=
  | awaiting_named (thread_id : str)
  | awaiting_catalog (thread_id : str).

Definition image_key := (str * str * Z)%type.

Record resolver := {
  s_policy_text : str;
  s_policy : ModelPolicy;
  s_static_model : str;
  s_static_context_tokens : Z;
  s_has_catalog : bool;
  s_resolutions : gmap str ThreadModelResolution;
  s_image_resolutions : gmap image_key ThreadModelResolution;
  s_image_input : gmap str (gset str);
  s_locked : option pending;
}.

Definition with_lock (l : option pending) (s : resolver) : resolver := {|
  s_policy_text := s_policy_text s; s_policy := s_policy s; s_static_model := s_static_model s;
  s_static_context_tokens := s_static_context_tokens s; s_has_catalog := s_has_catalog s;
  s_resolutions := s_resolutions s; s_image_resolutions := s_image_resolutions s;
  s_image_input := s_image_input s; s_locked := l |}.
Definition with_resolution (tid : str) (r : ThreadModelResolution) (s : resolver) : resolver := {|
  s_policy_text := s_policy_text s; s_policy := s_policy s; s_static_model := s_static_model s;
  s_static_context_tokens := s_static_context_tokens s; s_has_catalog := s_has_catalog s;
  s_resolutions := <[tid := r]> (s_resolutions s); s_image_resolutions := s_image_resolutions s;
  s_image_input := s_image_input s; s_locked := s_locked s |}.
Definition with_image (k : image_key) (r : ThreadModelResolution) (s : resolver) : resolver := {|
  s_policy_text := s_policy_text s; s_policy := s_policy s; s_static_model := s_static_model s;
  s_static_context_tokens := s_static_context_tokens s; s_has_catalog := s_has_catalog s;
  s_resolutions := s_resolutions s; s_image_resolutions := <[k := r]> (s_image_resolutions s);
  s_image_input := s_image_input s; s_locked := s_locked s |}.
Definition with_known (model : str) (m : gset str) (s : resolver) : resolver := {|
  s_policy_text := s_policy_text s; s_policy := s_policy s; s_static_model := s_static_model s;
  s_static_context_tokens := s_static_context_tokens s; s_has_catalog := s_has_catalog s;
  s_resolutions := s_resolutions s; s_image_resolutions := s_image_resolutions s;
  s_image_input := <[model := m]> (s_image_input s); s_locked := s_locked s |}.
Definition with_policy (text : str) (p : ModelPolicy) (s : resolver) : resolver := {|
  s_policy_text := text; s_policy := p; s_static_model := s_static_model s;
  s_static_context_tokens := s_static_context_tokens s; s_has_catalog := s_has_catalog s;
  s_resolutions := s_resolutions s; s_image_resolutions := s_image_resolutions s;
  s_image_input := s_image_input s; s_locked := s_locked s |}.

Section resolver.
Context `{DecimalDigits} `{DecimalLog}.

(** [ModelPolicyResolver.__init__]. *)
Definition new_resolver (policy static_model : str) (static_context_tokens : Z) (has_catalog : bool) :
    res policy_exn resolver :=
  parsed ← parse_model_policy policy;
  validate_model_name static_model;;
  guard_ (0 <? static_context_tokens)
    (ModelPolicyConfigurationError "static model context tokens must be a positive integer");;
  Ok {| s_policy_text := policy; s_policy := parsed; s_static_model := static_model;
        s_static_context_tokens := static_context_tokens; s_has_catalog := has_catalog;
        s_resolutions := ∅; s_image_resolutions := ∅; s_image_input := ∅; s_locked := None |}.

Definition set_policy (policy : str) (s : resolver) : res policy_exn resolver :=
  parsed ← parse_model_policy policy; Ok (with_policy policy parsed s).

(** [_parse_named_model] and [_qualify_model] for the OpenRouter client, which
    has neither hook. *)
Definition parse_named_model (model : str) : res policy_exn str :=
  guard_ (startswith OPENROUTER model && bool_decide (model = strip model)
          && bool_decide (removeprefix OPENROUTER model ≠ []))
    (NamedModelResolutionError "model must be an openrouter:<broker-model-id> string");;
  Ok (removeprefix OPENROUTER model).
Definition qualify_model (model_id : str) : str := OPENROUTER ++ model_id.

Definition nonblank_thread (tid : str) : res policy_exn unit :=
  guard_ (negb (blank tid)) (PyExn (ValueError "thread_id must not be blank")).

(** The answer of [load_named_route] for the route asked for. *)
Definition named_answer := res policy_exn (ModelRoute * Z).

(** [resolve_named]: it keeps nothing. *)
Definition resolve_named (s : resolver) (tid model : str) (answer : str → named_answer) :
    res policy_exn ThreadModelResolution :=
  nonblank_thread tid;;
  slug ← parse_named_model model;
  guard_ (s_has_catalog s) (ModelCatalogUnavailable "model router catalog is not configured");;
  '(route, fetched_at) ← answer slug;
  resolution_post_init {|
    t_model := qualify_model (route_model_id route); t_context_tokens := route_context_tokens route;
    t_policy := lit "human_command"; t_price_sorted := false;
    t_input_modalities := route_input_modalities route; t_benchmark := None;
    t_catalog_fetched_at := Some fetched_at; t_stickiness_epoch := 0;
    t_supported_parameters := route_supported_parameters route; t_request_parameters := no_parameters |}.

(** [except (ModelCatalogUnavailable, NamedModelResolutionError)]. *)
Definition catalog_failure (e : policy_exn) : bool :=
  match e with ModelCatalogUnavailable _ | NamedModelResolutionError _ => true | _ => false end.

Definition resolve_hydrated (s : resolver) (tid model : str) (answer : str → named_answer) :
    res policy_exn ThreadModelResolution :=
  match resolve_named s tid model answer with
  | Ok r => Ok r
  | Err e =>
      if catalog_failure e
      then resolution_post_init (plain_resolution model (s_static_context_tokens s) (lit "hydrated_unverified") false)
      else Err e
  end.

(** ** [resolve] *)

(** [self._policy.value] when it is a model name. *)
Definition pinned_model (s : resolver) : option str :=
  match s_policy s with policy_pinned m => Some m | _ => None end.

(** The end of the pinned branch: the model is the policy's as it now is. *)
Definition pinned_resolution (s : resolver) (context : Z) (parameters modalities : option (gset str)) :
    res policy_exn ThreadModelResolution :=
  match pinned_model s with
  | None => Err (ModelPolicyConfigurationError "pinned model must be nonblank without surrounding whitespace")
  | Some model =>
      resolution_post_init {|
        t_model := model; t_context_tokens := context; t_policy := s_policy_text s; t_price_sorted := false;
        t_input_modalities := modalities; t_benchmark := None; t_catalog_fetched_at := None;
        t_stickiness_epoch := 0; t_supported_parameters := parameters; t_request_parameters := no_parameters |}
  end.

Definition fallback_resolution (s : resolver) : res policy_exn ThreadModelResolution :=
  resolution_post_init (plain_resolution (s_static_model s) (s_static_context_tokens s) (s_policy_text s) true).

(** The choice from a loaded catalog, under the policy as it now is. *)
Definition catalog_choice (s : resolver) (answer : res policy_exn ModelCatalog) :
    res policy_exn (ModelCatalog * BenchmarkModel * ModelRoute) :=
  catalog ← answer;
  selected ← select_model (s_policy s) (catalog_rows catalog);
  match aget (permaslug selected) (catalog_routes catalog) with
  | Some route => Ok (catalog, selected, route)
  | None => Err (ModelCatalogUnavailable "selected model has no unambiguous positive-context route")
  end.

Definition catalog_resolution (s : resolver) (answer : res policy_exn ModelCatalog) :
    res policy_exn ThreadModelResolution :=
  match catalog_choice s answer with
  | Ok (catalog, selected, route) =>
      resolution_post_init {|
        t_model := qualify_model (route_model_id route); t_context_tokens := route_context_tokens route;
        t_policy := s_policy_text s; t_price_sorted := true;
        t_input_modalities := route_input_modalities route; t_benchmark := Some selected;
        t_catalog_fetched_at := Some (catalog_fetched_at catalog); t_stickiness_epoch := 0;
        t_supported_parameters := route_supported_parameters route; t_request_parameters := no_parameters |}
  | Err (ModelCatalogUnavailable _) => fallback_resolution s
  | Err e => Err e
  end.

(** Store the result and release the lock; an error only releases it. *)
Definition settle (tid : str) (s : resolver) (r : res policy_exn ThreadModelResolution) :
    res policy_exn ThreadModelResolution * resolver :=
  match r with
  | Ok resolved => (Ok resolved, with_lock None (with_resolution tid resolved s))
  | Err e => (Err e, with_lock None s)
  end.

Inductive begun :=
  | answered (r : res policy_exn ThreadModelResolution)
  | blocked
  | waiting.

(** [resolve] up to its first await. *)
Definition resolve_begin (s : resolver) (tid : str) : begun * resolver :=
  match nonblank_thread tid with
  | Err e => (answered (Err e), s)
  | Ok _ =>
      match s_resolutions s !! tid, s_locked s with
      | Some resolved, _ => (answered (Ok resolved), s)
      | None, Some _ => (blocked, s)
      | None, None =>
          match s_policy s with
          | policy_pinned model =>
              if bool_decide (model ≠ s_static_model s) && s_has_catalog s
              then (waiting, with_lock (Some (awaiting_named tid)) s)
              else let '(r, s') := settle tid s (pinned_resolution s (s_static_context_tokens s) None None) in
                   (answered r, s')
          | _ =>
              if s_has_catalog s then (waiting, with_lock (Some (awaiting_catalog tid)) s)
              else let '(r, s') := settle tid s (fallback_resolution s) in (answered r, s')
          end
      end
  end.

(** The end of [resolve] once [load] answered. *)
Definition resolve_end_catalog (s : resolver) (tid : str) (answer : res policy_exn ModelCatalog) :
    res policy_exn ThreadModelResolution * resolver :=
  settle tid s (catalog_resolution s answer).

(** The end of [resolve] once [resolve_named] answered. *)
Definition resolve_end_named (s : resolver) (tid : str) (answer : res policy_exn ThreadModelResolution) :
    res policy_exn ThreadModelResolution * resolver :=
  match answer with
  | Ok named =>
      let s := match t_input_modalities named, pinned_model s with
               | Some m, Some model => with_known model m s
               | _, _ => s end in
      settle tid s (pinned_resolution s (t_context_tokens named) (t_supported_parameters named)
                      (t_input_modalities named))
  | Err e =>
      if catalog_failure e then settle tid s (pinned_resolution s (s_static_context_tokens s) None None)
      else settle tid s (Err e)
  end.

(** ** [resolve_image_capability] *)
Definition image_key_of (tid : str) (r : ThreadModelResolution) : image_key :=
  (tid, t_model r, t_stickiness_epoch r).

(** Up to the await: an answer, or the broker identifier to ask for. *)
Definition image_begin (s : resolver) (tid : str) (r : ThreadModelResolution) :
    res policy_exn ThreadModelResolution + str :=
  match nonblank_thread tid with
  | Err e => inl (Err e)
  | Ok _ =>
      if negb (uses_openrouter r) || bool_decide (t_input_modalities r ≠ None) then inl (Ok r)
      else if negb (s_has_catalog s) then inl (Err (ModelCatalogUnavailable "OpenRouter catalog is not configured"))
      else
        match s_image_resolutions s !! image_key_of tid r, s_image_input s !! t_model r with
        | Some cached, _ => inl (Ok cached)
        | None, Some known => inl (resolution_post_init (with_modalities (Some known) (t_catalog_fetched_at r) r))
        | None, None => inr (removeprefix OPENROUTER (t_model r))
        end
  end.

(** The route's answer, up to the lock. *)
Definition image_answer (s : resolver) (r : ThreadModelResolution) (answer : named_answer) :
    res policy_exn ThreadModelResolution * resolver :=
  match answer with
  | Err e => (Err e, s)
  | Ok (route, fetched_at) =>
      if bool_decide (route_model_id route = removeprefix OPENROUTER (t_model r)) then
        match resolution_post_init (with_modalities (route_input_modalities route) (Some fetched_at) r) with
        | Ok enriched =>
            (Ok enriched, match t_input_modalities enriched with
                          | Some m => with_known (t_model r) m s | None => s end)
        | Err e => (Err e, s)
        end
      else (Err (NamedModelResolutionError "unknown OpenRouter model"), s)
  end.

(** Under the lock: the first confirmed answer of a (thread, model, epoch) is
    kept, and takes the place of the thread's own resolution of that model. *)
Definition image_commit (s : resolver) (tid : str) (r enriched : ThreadModelResolution) :
    ThreadModelResolution * resolver :=
  let '(current, s) := match s_image_resolutions s !! image_key_of tid r with
    | Some current => (current, s)
    | None => (enriched, with_image (image_key_of tid r) enriched s) end in
  match s_resolutions s !! tid with
  | Some retained =>
      if bool_decide (t_model retained = t_model r) && (t_stickiness_epoch retained =? t_stickiness_epoch r)
      then (current, with_resolution tid current s) else (current, s)
  | None => (current, s)
  end.

(** ** The transition system *)
Inductive resolver_step (s : resolver) : resolver → Prop :=
  | step_set_policy policy s' : set_policy policy s = Ok s' → resolver_step s s'
  | step_begin tid b s' : resolve_begin s tid = (b, s') → resolver_step s s'
  | step_end_catalog tid answer r s' : s_locked s = Some (awaiting_catalog tid) →
      resolve_end_catalog s tid answer = (r, s') → resolver_step s s'
  | step_end_named tid answer r s' : s_locked s = Some (awaiting_named tid) →
      resolve_end_named s tid answer = (r, s') → resolver_step s s'
  | step_image_answer r answer e s' : image_answer s r answer = (e, s') → resolver_step s s'
  | step_image_commit tid r route fetched_at s' current enriched : s_locked s = None →
      resolution_post_init (with_modalities (route_input_modalities route) (Some fetched_at) r) = Ok enriched →
      image_commit s tid r enriched = (current, s') → resolver_step s s'.
End resolver.
