(* ===== verification/ResolverFacts.v ===== *)
(** * What the per-thread model choice guarantees *)
From stdpp Require Import relations.
From S2P Require Import Prelude PyStr PyFloat PyDecimal PyJson Policy Catalog CatalogFacts Resolver.
Open Scope Z_scope.

(** ** Qualified names *)
Lemma qualified_trimmed id : trimmed id = true → trimmed (qualify_model id) = true.
Proof.
  intros [Hne [Hl Hr]%strip_parts]%trimmed_spec. apply trimmed_spec.
  split; [done|]. unfold strip, qualify_model. rewrite lstrip_solid by done. by apply rstrip_app.
Qed.

Lemma qualified_valid id : trimmed id = true → validate_model_name (qualify_model id) = Ok tt.
Proof.
  intros Ht. unfold validate_model_name. rewrite (qualified_trimmed id Ht). cbn [guard_ mbind res_bind].
  apply trimmed_spec in Ht as [Hne Hs].
  change (split_once 58 (qualify_model id)) with (Some (lit "openrouter", id)). cbv beta iota.
  rewrite !bool_decide_true by done. done.
Qed.

(** ** The states a resolver goes through *)
Record resolver_inv (s : resolver) : Prop := {
  ri_images : ∀ tid model epoch r, s_image_resolutions s !! (tid, model, epoch) = Some r →
    t_model r = model ∧ t_stickiness_epoch r = epoch;
  ri_locked : ∀ tid, s_locked s = Some (awaiting_named tid) ∨ s_locked s = Some (awaiting_catalog tid) →
    s_resolutions s !! tid = None;
  ri_static : validate_model_name (s_static_model s) = Ok tt ∧ 0 < s_static_context_tokens s;
}.

(** The choice that sticks: the model and its epoch. *)
Definition same_choice (r r' : ThreadModelResolution) : Prop :=
  t_model r' = t_model r ∧ t_stickiness_epoch r' = t_stickiness_epoch r.

Definition kept (s s' : resolver) : Prop :=
  ∀ tid r, s_resolutions s !! tid = Some r → ∃ r', s_resolutions s' !! tid = Some r' ∧ same_choice r r'.

Lemma kept_same s s' : s_resolutions s' = s_resolutions s → kept s s'.
Proof. intros E tid r Hr. exists r. rewrite E. by split. Qed.

Lemma kept_trans s1 s2 s3 : kept s1 s2 → kept s2 s3 → kept s1 s3.
Proof.
  intros H1 H2 tid r Hr. destruct (H1 tid r Hr) as (r2 & Hr2 & [? ?]).
  destruct (H2 tid r2 Hr2) as (r3 & Hr3 & [? ?]). exists r3. split; [done|]. split; congruence.
Qed.

Lemma kept_fresh tid r s : s_resolutions s !! tid = None → kept s (with_resolution tid r s).
Proof.
  intros Hn tid' r' Hr. exists r'. cbn. rewrite lookup_insert_ne by congruence. by split.
Qed.

Section facts.
Context `{DecimalDigits} `{DecimalLog}.

Lemma settle_spec tid s x r s' :
  settle tid s x = (r, s') → resolver_inv s → s_resolutions s !! tid = None → resolver_inv s' ∧ kept s s'.
Proof.
  intros Hs [Hi Hl Hst] Hn. destruct x as [resolved|e]; injection Hs as <- <-.
  - split; [split; cbn; [done|by intros ? [?|?]|done]|]. by apply (kept_fresh tid resolved s).
  - split; [split; cbn; [done|by intros ? [?|?]|done]|]. by apply kept_same.
Qed.

Lemma begin_spec s tid b s' :
  resolve_begin s tid = (b, s') → resolver_inv s → resolver_inv s' ∧ kept s s'.
Proof.
  unfold resolve_begin. intros Hb Hi.
  assert (Hsame : s' = s → resolver_inv s' ∧ kept s s') by (intros ->; split; [done|by apply kept_same]).
  destruct (nonblank_thread tid); [|by injection Hb as _ <-; apply Hsame].
  destruct (s_resolutions s !! tid) eqn:En; [by injection Hb as _ <-; apply Hsame|].
  destruct (s_locked s) eqn:El; [by injection Hb as _ <-; apply Hsame|].
  assert (Hlock : ∀ p, (p = awaiting_named tid ∨ p = awaiting_catalog tid) →
    resolver_inv (with_lock (Some p) s) ∧ kept s (with_lock (Some p) s)).
  { intros p Hp. destruct Hi as [Hi Hl Hst]. split; [|by apply kept_same]. split; cbn; [done| |done].
    intros t [[= E]|[= E]]; destruct Hp; by simplify_eq. }
  assert (Hset : ∀ x, (let '(r, s1) := settle tid s x in (answered r, s1)) = (b, s') → resolver_inv s' ∧ kept s s').
  { intros x Hx. destruct (settle tid s x) as [r s1] eqn:E. injection Hx as _ <-. by eapply settle_spec. }
  destruct (s_policy s); case_match; try (by injection Hb as _ <-; apply Hlock; auto); by eapply Hset.
Qed.

Lemma image_commit_spec s tid r enriched current s' :
  image_commit s tid r enriched = (current, s') → resolver_inv s → s_locked s = None →
  same_choice r enriched → resolver_inv s' ∧ kept s s'.
Proof.
  unfold image_commit. intros Hc [Hi Hl Hst] Hlock [Hm He].
  set (found := s_image_resolutions s !! image_key_of tid r) in *.
  assert (∃ cur s1, (match found with Some c => (c, s) | None => (enriched, with_image (image_key_of tid r) enriched s) end)
    = (cur, s1) ∧ resolver_inv s1 ∧ s_resolutions s1 = s_resolutions s ∧ s_locked s1 = None ∧
    t_model cur = t_model r ∧ t_stickiness_epoch cur = t_stickiness_epoch r) as (cur & s1 & E & Hi1 & Hr1 & Hl1 & Hcm & Hce).
  { destruct found as [c|] eqn:Ef.
    - exists c, s. apply Hi in Ef as [? ?]. by split_and!.
    - eexists _, _. split; [done|]. split_and!; try done. split; cbn; [|done|done].
      intros t m e r' [[E <-]|[_ ?]]%lookup_insert_Some; [unfold image_key_of in E; by simplify_eq|eauto]. }
  rewrite E in Hc. cbv beta iota in Hc. destruct (s_resolutions s1 !! tid) as [retained|] eqn:Et.
  - destruct (bool_decide _ && _) eqn:Eq; injection Hc as <- <-.
    + apply andb_true_iff in Eq as [Em%bool_decide_eq_true_1 Ee%Z.eqb_eq]. split.
      * destruct Hi1 as [Hi1 _ Hst1]. split; cbn; [done| |done]. rewrite Hl1. by intros ? [?|?].
      * intros t r0 Hr0. cbn. rewrite Hr1. destruct (decide (tid = t)) as [<-|Hne].
        -- rewrite lookup_insert_eq. exists cur. split; [done|]. rewrite Hr1 in Et. rewrite Et in Hr0.
           injection Hr0 as <-. split; congruence.
        -- rewrite lookup_insert_ne by done. by exists r0.
    + split; [done|by apply kept_same].
  - injection Hc as <- <-. split; [done|by apply kept_same].
Qed.

Lemma with_known_inv m v s : resolver_inv s → resolver_inv (with_known m v s).
Proof. intros [? ? ?]. by split. Qed.

Lemma step_spec s s' : resolver_inv s → resolver_step s s' → resolver_inv s' ∧ kept s s'.
Proof.
  intros Hi Hstep.
  destruct Hstep as [policy s1 Hs|tid b s1 Hs|tid answer r s1 Hl Hs|tid answer r s1 Hl Hs|r answer e s1 Hs
    |tid r route fetched_at s1 current enriched Hl He Hs].
  - unfold set_policy in Hs. apply bind_Ok in Hs as (p & _ & [= <-]). split; [|by apply kept_same].
    destruct Hi. by split.
  - by eapply begin_spec.
  - eapply settle_spec; [exact Hs|done|]. apply (ri_locked s Hi). by right.
  - assert (Hn : s_resolutions s !! tid = None) by (apply (ri_locked s Hi); by left).
    unfold resolve_end_named in Hs. destruct answer as [named|e].
    + set (s2 := match t_input_modalities named with Some _ => _ | None => _ end) in Hs.
      assert (resolver_inv s2 ∧ s_resolutions s2 = s_resolutions s) as [Hi2 Hr2].
      { unfold s2. repeat case_match; (split; [|done]); [by apply with_known_inv|done..]. }
      eapply settle_spec in Hs as [? Hk]; [|done|by rewrite Hr2]. split; [done|].
      eapply kept_trans; [by apply kept_same|exact Hk].
    + case_match; by eapply settle_spec.
  - unfold image_answer in Hs. repeat case_match; simplify_eq; (split; [|by apply kept_same]); try done.
    by apply with_known_inv.
  - eapply image_commit_spec; [exact Hs|done|done|]. unfold resolution_post_init in He.
    repeat (apply bind_Ok in He as (? & _ & He)). by injection He as <-.
Qed.

Lemma steps_spec s s' : rtc resolver_step s s' → resolver_inv s → resolver_inv s' ∧ kept s s'.
Proof.
  induction 1 as [s|s1 s2 s3 H1 _ IH]; intros Hi; [split; [done|by apply kept_same]|].
  destruct (step_spec _ _ Hi H1) as [Hi2 Hk]. destruct (IH Hi2) as [? ?]. split; [done|]. by eapply kept_trans.
Qed.

Lemma new_resolver_inv policy model context has s :
  new_resolver policy model context has = Ok s → resolver_inv s.
Proof.
  unfold new_resolver. intros Hn. apply bind_Ok in Hn as (p & _ & Hn). apply bind_Ok in Hn as ([] & Hv & Hn).
  apply bind_Ok in Hn as ([] & Hc%guard_Ok & [= <-]).
  split; cbn; [by intros ? ? ? ? ?|done|split; [done|lia]].
Qed.

(** C11: a thread's model sticks.  Once a thread has a resolution, its model and
    epoch never change for the life of the resolver, whatever the interleaving
    of resolutions, image lookups and policy changes and whatever the catalog
    answers; every later [resolve] of the thread answers with them at once and
    changes nothing. *)
Theorem thread_model_sticky policy model context has s0 s s' tid r :
  new_resolver policy model context has = Ok s0 → rtc resolver_step s0 s →
  s_resolutions s !! tid = Some r → blank tid = false → rtc resolver_step s s' →
  ∃ r', s_resolutions s' !! tid = Some r' ∧ t_model r' = t_model r ∧
    t_stickiness_epoch r' = t_stickiness_epoch r ∧ resolve_begin s' tid = (answered (Ok r'), s').
Proof.
  intros Hn Hpre Hr Hb Hs. apply new_resolver_inv in Hn.
  destruct (steps_spec _ _ Hpre Hn) as [Hi _]. destruct (steps_spec _ _ Hs Hi) as [_ Hk].
  destruct (Hk tid r Hr) as (r' & Hr' & [? ?]). exists r'. split_and!; try done.
  unfold resolve_begin, nonblank_thread. by rewrite Hb, Hr'.
Qed.

(** ** The end of a resolution *)
Context `{PyRepr}.

Lemma forallb_trimmed (l : list json) strs :
  mapM trimmed_str l = Some strs → Forall (λ s, trimmed s = true) strs.
Proof.
  intros Hm. apply mapM_Some in Hm. induction Hm as [|v s l' l'' Hv _ IH]; constructor; [|done].
  unfold trimmed_str in Hv. destruct v; try done. destruct (trimmed s0) eqn:E; [|done]. by injection Hv as <-.
Qed.

Lemma modalities_trimmed kv m : parse_input_modalities kv = Some m → forallb trimmed (elements m) = true.
Proof.
  unfold parse_input_modalities. destruct (field "architecture" kv) as [| | | | | |kw]; try done.
  destruct (field "input_modalities" kw); try done.
  destruct (mapM trimmed_str l) as [strs|] eqn:E; [|done]. cbn. intros [= <-].
  apply forallb_trimmed in E. apply forallb_forall. intros x Hx. rewrite <- list_elem_of_In in Hx.
  apply elem_of_elements, elem_of_list_to_set in Hx. by eapply (proj1 (Forall_forall _ _) E).
Qed.

Lemma trimmed_str_Some v s : trimmed_str v = Some s → trimmed s = true.
Proof. destruct v; try done. cbn. destruct (trimmed s0) eqn:E; [|done]. by intros [= <-]. Qed.

(** Resolving under a table policy fails open.  With the policy the
    resolver has when the catalog answers: a route found gives the route's
    model and context window, kept for the thread; an unavailable catalog, an
    unusable table or a missing route gives the configured model and window;
    both are recorded under the policy's text, and nothing is raised. *)
Theorem resolve_fails_open policy model context has s0 s tid answer :
  new_resolver policy model context has = Ok s0 → rtc resolver_step s0 s →
  s_locked s = Some (awaiting_catalog tid) →
  (∀ catalog, answer = Ok catalog → ∃ named benchmarks models reading,
     fetch_catalog benchmarks models reading = Ok (catalog, named)) →
  match catalog_choice s answer with
  | Ok (catalog, selected, route) => ∃ r s', resolve_end_catalog s tid answer = (Ok r, s') ∧
      t_model r = qualify_model (route_model_id route) ∧ t_context_tokens r = route_context_tokens route ∧
      t_benchmark r = Some selected ∧ t_policy r = s_policy_text s ∧
      s_resolutions s' !! tid = Some r ∧ s_locked s' = None
  | Err (ModelCatalogUnavailable _) => ∃ r s', resolve_end_catalog s tid answer = (Ok r, s') ∧
      t_model r = s_static_model s ∧ t_context_tokens r = s_static_context_tokens s ∧
      t_benchmark r = None ∧ t_policy r = s_policy_text s ∧
      s_resolutions s' !! tid = Some r ∧ s_locked s' = None
  | Err e => resolve_end_catalog s tid answer = (Err e, with_lock None s)
  end.
Proof.
  intros Hn Hpre Hl Hans. apply new_resolver_inv in Hn. destruct (steps_spec _ _ Hpre Hn) as [[_ _ [Hv Hc]] _].
  unfold resolve_end_catalog, catalog_resolution.
  destruct (catalog_choice s answer) as [[[catalog selected] route]|[msg|msg|msg|x]] eqn:E; [|done| |done|done].
  - unfold catalog_choice in E. apply bind_Ok in E as (k & Ha & E). apply bind_Ok in E as (sel & _ & E).
    destruct (aget (permaslug sel) (catalog_routes k)) as [rt|] eqn:Er; [|done]. injection E as -> -> ->.
    destruct (Hans catalog Ha) as (named & benchmarks & models & reading & Hf).
    unfold fetch_catalog in Hf. apply bind_Ok in Hf as ([] & _ & Hf). apply bind_Ok in Hf as (bp & _ & Hf).
    apply bind_Ok in Hf as (mp & _ & Hf). apply bind_Ok in Hf as (t & _ & Hf). apply bind_Ok in Hf as (rows & _ & Hf).
    apply bind_Ok in Hf as (routes & Hroutes & Hf). apply bind_Ok in Hf as (listing & _ & Hf).
    apply bind_Ok in Hf as (nm & _ & [= <- <-]). cbn in Er.
    destruct (route_row _ _ _ _ Hroutes Er) as (data & kv & _ & _ & [Hid%trimmed_str_Some _] & _ & Hpos & Hm & _).
    unfold resolution_post_init. cbn [t_model t_context_tokens t_stickiness_epoch t_input_modalities].
    rewrite (qualified_valid _ Hid). cbn [mbind res_bind]. rewrite (proj2 (Z.ltb_lt _ _) Hpos). cbn [guard_ mbind res_bind].
    assert ((match route_input_modalities route with Some m => forallb trimmed (elements m) | None => true end) = true) as ->.
    { destruct (route_input_modalities route) eqn:Em; [|done]. by eapply modalities_trimmed. }
    cbn [guard_ mbind res_bind settle Z.leb Z.compare]. eexists _, _. split; [done|]. cbn.
    by rewrite lookup_insert_eq.
  - unfold fallback_resolution, resolution_post_init. cbn [plain_resolution t_model t_context_tokens t_stickiness_epoch t_input_modalities].
    rewrite Hv. cbn [mbind res_bind]. rewrite (proj2 (Z.ltb_lt _ _) Hc). cbn [guard_ mbind res_bind settle Z.leb Z.compare].
    eexists _, _. split; [done|]. cbn. by rewrite lookup_insert_eq.
Qed.

(** A policy switch during a resolution makes it fail.  When a thread's
    resolution awaits the catalog and the operator pins a model meanwhile, a
    complete catalog makes [resolve] raise a configuration error, and the
    thread keeps no model, although both policies are valid. *)
Theorem policy_switch_race s tid text model s1 catalog :
  s_locked s = Some (awaiting_catalog tid) → parse_model_policy text = Ok (policy_pinned model) →
  set_policy text s = Ok s1 → catalog_rows catalog ≠ [] →
  ∃ msg, resolve_end_catalog s1 tid (Ok catalog) = (Err (ModelPolicyConfigurationError msg), with_lock None s1).
Proof.
  intros Hl Hp Hs Hne. unfold set_policy in Hs. rewrite Hp in Hs. cbn [mbind res_bind] in Hs. injection Hs as <-.
  eexists. unfold resolve_end_catalog, catalog_resolution, catalog_choice. cbn [mbind res_bind].
  unfold select_model. rewrite bool_decide_true by done. cbn. done.
Qed.
End facts.
