(* ===== verification/PolicySamples.v ===== *)
(** * Model policies on concrete tables *)
From stdpp Require Import relations.
From S2P Require Import Prelude PyStr PyFloat PyDecimal PyJson Policy PolicyFacts Catalog CatalogFacts.
From S2P Require Import Resolver ResolverFacts.
Open Scope Z_scope.

#[local] Instance sample_log : DecimalLog := {| dec_log10 := λ _ a, Dec (digit_count (coef a) + dexp a) 0 |}.
#[local] Instance sample_repr : PyRepr := {| py_repr := λ _, lit "None" |}.

(** ** Selection *)
Definition sample_row (slug : string) (index price : Z) : BenchmarkModel := {|
  permaslug := lit slug; intelligence_index := Dec index 0; prompt_price := Dec price (-1);
  completion_price := Dec price 0 |}.
Definition sample_rows : list BenchmarkModel :=
  [sample_row "mid" 50 10; sample_row "bad" 40 20; sample_row "top" 60 100; sample_row "low" 30 1;
   sample_row "mid2" 50 10].

Example sample_frontier : permaslug <$> pareto_frontier sample_rows = lit <$> ["low"; "mid"; "top"]%string.
Proof. vm_compute. reflexivity. Qed.

Example sample_slope : permaslug <$> select_model (policy_slope (Dec 5 (-2))) sample_rows = Ok (lit "mid").
Proof. vm_compute. reflexivity. Qed.

Example sample_floor : permaslug <$> select_model (policy_floor (Dec 55 0)) sample_rows = Ok (lit "top").
Proof. vm_compute. reflexivity. Qed.

Example sample_elbow : is_ok (select_model policy_elbow sample_rows) = true.
Proof. vm_compute. reflexivity. Qed.

(** ** The catalog *)
Definition model_row (id slug : string) (context : Z) : json :=
  JObj [(lit "id", JStr (lit id)); (lit "canonical_slug", JStr (lit slug)); (lit "context_length", JInt context)].
Definition sample_models : json :=
  JObj [(lit "data", JList [model_row "a/top" "top" 1000; model_row "a/top:free" "top" 500; JNull;
                            model_row "a/mid" "mid" 800])].
Definition benchmark_row (slug : string) (index : Z) (price : string) : json :=
  JObj [(lit "source", JStr (lit "artificial-analysis")); (lit "model_permaslug", JStr (lit slug));
        (lit "intelligence_index", JInt index);
        (lit "pricing", JObj [(lit "prompt", JStr (lit price)); (lit "completion", JStr (lit price))])].
Definition sample_benchmarks : json :=
  JObj [(lit "data", JList [benchmark_row "top" 60 "0.00001"; benchmark_row "mid" 50 "1e-6"])].

Definition ok_or {E A} (d : A) (r : res E A) : A := match r with Ok a => a | Err _ => d end.
Lemma ok_or_eq {E A} (d : A) (r : res E A) : is_ok r = true → r = Ok (ok_or d r).
Proof. by destruct r. Qed.

Definition top_route : ModelRoute := {|
  route_model_id := lit "a/top"; route_context_tokens := 1000; route_input_modalities := None;
  route_supported_parameters := None |}.

Lemma routes_unambiguous_witness : ∃ data,
  payload_data sample_models = Ok data ∧
  ∀ kv model_id, JObj kv ∈ data → names kv model_id (lit "top") → mem_char 58 model_id = false → model_id = lit "a/top".
Proof.
  assert (Hok : is_ok (parse_model_routes sample_models) = true) by (vm_compute; reflexivity).
  pose proof (ok_or_eq [] _ Hok) as Hp.
  assert (Hr : aget (lit "top") (ok_or [] (parse_model_routes sample_models)) = Some top_route)
    by (vm_compute; reflexivity).
  destruct (routes_unambiguous sample_models _ (lit "top") top_route Hp Hr) as (data & Hd & _ & _ & Hu).
  exists data. split; [exact Hd|exact Hu].
Defined.

Definition ok_reply (payload : json) : http_reply := http_response true (Some payload).
Definition sample_load := load (new_client (Some (lit "key"))) f0 f0 f1 (ok_reply sample_benchmarks)
  (ok_reply sample_models) (Some 7).

Definition sample_catalog : ModelCatalog :=
  ok_or {| catalog_rows := []; catalog_routes := []; catalog_fetched_at := 0; catalog_listing := [] |} sample_load.1.

Lemma load_spec_witness :
  sample_load.1 = Ok sample_catalog ∧
  load sample_load.2 f1 f1 f1 http_error http_error None = (Ok sample_catalog, sample_load.2).
Proof.
  assert (Hok : is_ok sample_load.1 = true) by (vm_compute; reflexivity).
  assert (Hc : sample_load.1 = Ok sample_catalog) by (apply ok_or_eq; exact Hok).
  assert (Hl : sample_load = (Ok sample_catalog, sample_load.2))
    by (rewrite <- Hc; apply surjective_pairing).
  assert (Hn : fresh_cache (new_client (Some (lit "key"))) f0 = None) by reflexivity.
  destruct (load_spec _ _ _ _ _ _ _ _ _ Hl) as [[_ [H|H]]|(_ & _ & _ & _ & H)].
  - rewrite Hn in H. discriminate H.
  - rewrite Hn in H. discriminate H.
  - split; [exact Hc|]. apply H; vm_compute; reflexivity.
Defined.

(** ** The resolver *)
Definition sample_resolver : resolver := {|
  s_policy_text := lit "max"; s_policy := policy_max; s_static_model := lit "openai:fallback";
  s_static_context_tokens := 4000; s_has_catalog := true; s_resolutions := ∅; s_image_resolutions := ∅;
  s_image_input := ∅; s_locked := None |}.

Lemma sample_new : new_resolver (lit "max") (lit "openai:fallback") 4000 true = Ok sample_resolver.
Proof. vm_compute. reflexivity. Qed.

Definition sample_waiting : resolver := with_lock (Some (awaiting_catalog (lit "t"))) sample_resolver.

Lemma sample_begin : resolver_step sample_resolver sample_waiting.
Proof. apply (step_begin _ (lit "t") waiting). vm_compute. reflexivity. Qed.

Definition sample_fetched : ModelCatalog * list (str * ModelRoute) :=
  ok_or (sample_catalog, []) (fetch_catalog (ok_reply sample_benchmarks) (ok_reply sample_models) (Some 7)).

Definition top_resolution : ThreadModelResolution := {|
  t_model := lit "openrouter:a/top"; t_context_tokens := 1000; t_policy := lit "max"; t_price_sorted := true;
  t_input_modalities := None;
  t_benchmark := Some {| permaslug := lit "top"; intelligence_index := Dec 60 0;
                         prompt_price := Dec 1000000 (-5); completion_price := Dec 1000000 (-5) |};
  t_catalog_fetched_at := Some 7; t_stickiness_epoch := 0; t_supported_parameters := None;
  t_request_parameters := no_parameters |}.

Definition sample_settled : resolver := with_lock None (with_resolution (lit "t") top_resolution sample_waiting).

Lemma sample_end :
  resolve_end_catalog sample_waiting (lit "t") (Ok sample_fetched.1) = (Ok top_resolution, sample_settled).
Proof. vm_compute. reflexivity. Qed.

Lemma sample_steps : rtc resolver_step sample_resolver sample_settled.
Proof.
  eapply rtc_l; [apply sample_begin|]. apply rtc_once.
  eapply (step_end_catalog _ (lit "t")); [reflexivity|apply sample_end].
Qed.

Lemma thread_model_sticky_witness : ∃ s r',
  set_policy (lit "pinned:openai:other") sample_settled = Ok s ∧
  s_resolutions s !! lit "t" = Some r' ∧ t_model r' = lit "openrouter:a/top" ∧
  resolve_begin s (lit "t") = (answered (Ok r'), s).
Proof.
  exists (with_policy (lit "pinned:openai:other") (policy_pinned (lit "openai:other")) sample_settled).
  assert (Hs : set_policy (lit "pinned:openai:other") sample_settled =
    Ok (with_policy (lit "pinned:openai:other") (policy_pinned (lit "openai:other")) sample_settled))
    by (vm_compute; reflexivity).
  assert (Hr : s_resolutions sample_settled !! lit "t" = Some top_resolution) by (vm_compute; reflexivity).
  assert (Hb : blank (lit "t") = false) by (vm_compute; reflexivity).
  destruct (thread_model_sticky _ _ _ _ _ _ _ _ _ sample_new sample_steps Hr Hb
    (rtc_once _ _ (step_set_policy _ _ _ Hs))) as (r' & Hr' & Hm & _ & Ha).
  exists r'. split; [exact Hs|]. split; [exact Hr'|]. split; [exact Hm|exact Ha].
Defined.

Lemma resolve_fails_open_witness : ∃ r s',
  resolve_end_catalog sample_waiting (lit "t") (Err (ModelCatalogUnavailable "down")) = (Ok r, s') ∧
  t_model r = lit "openai:fallback".
Proof.
  destruct (resolve_fails_open _ _ _ _ _ sample_waiting (lit "t") (Err (ModelCatalogUnavailable "down"))
    sample_new (rtc_once _ _ sample_begin) eq_refl) as (r & s' & Hr & Hm & _).
  - intros catalog Hc. discriminate Hc.
  - exists r, s'. split; [exact Hr|exact Hm].
Defined.

Lemma policy_switch_race_witness : ∃ s1 msg,
  set_policy (lit "pinned:openai:other") sample_waiting = Ok s1 ∧
  resolve_end_catalog s1 (lit "t") (Ok sample_fetched.1) = (Err (ModelPolicyConfigurationError msg), with_lock None s1).
Proof.
  exists (with_policy (lit "pinned:openai:other") (policy_pinned (lit "openai:other")) sample_waiting).
  assert (Hs : set_policy (lit "pinned:openai:other") sample_waiting =
    Ok (with_policy (lit "pinned:openai:other") (policy_pinned (lit "openai:other")) sample_waiting))
    by (vm_compute; reflexivity).
  destruct (policy_switch_race sample_waiting (lit "t") (lit "pinned:openai:other") (lit "openai:other") _
    sample_fetched.1 eq_refl ltac:(vm_compute; reflexivity) Hs) as (msg & Hm).
  - vm_compute. discriminate.
  - exists msg. split; [exact Hs|exact Hm].
Defined.
