(* ===== verification/Breaker.v ===== *)
(** * The billing circuit breaker ([infra/billing-breaker/billing_breaker.py], [main.py])

    One Pub/Sub notification is parsed, validated and, at or over budget,
    answered by setting the project's billing account to nothing.  The handler
    is a function of the event and of what the Cloud Billing client does; it
    returns how it ended and the ordered list of its effects: the lines it
    emits and the calls it makes.  The client, its credentials and the event
    transport are outside the repository: [gateway] says for one delivery
    whether the client can be created and what a call answers. *)
From S2P Require Import Prelude PyStr PyFloat PyJson JsonText JsonFacts PyBytes PyDecimal.
Open Scope Z_scope.

Definition PROJECT_ID : str := lit "n8-memory-palace".
Definition PROJECT_RESOURCE : str := lit "projects/" ++ PROJECT_ID.

(** ** Decimals *)
(** [Decimal(text)] for the text of a JSON number; [None] is InvalidOperation. *)
Definition decimal_of_text (text : str) : option Decimal :=
  match parse_decimal text with
  | Some (Some d) => Some {| d_negative := startswith [45%N] text; d_value := d |}
  | _ => None
  end.

(** ** Validation *)
Inductive breaker_error :=
  | InvalidNotification (reason : str)
  | InvalidOperation
  | ReaderFuel.

Record BudgetNotification := {
  message_id : str;
  billing_account_id : str;
  budget_id : str;
  cost_amount : Decimal;
  budget_amount : Decimal;
}.

Definition invalid {A} (reason : string) : res breaker_error A := Err (InvalidNotification (lit reason)).

Definition reject_json_constant (value : str) : res breaker_error Decimal :=
  Err (InvalidNotification (lit "non_finite_json_number:" ++ value)).

Definition decimal_hook (text : str) : res breaker_error Decimal :=
  match decimal_of_text text with Some d => Ok d | None => Err InvalidOperation end.

Definition decimal_hooks : number_hooks breaker_error Decimal := {|
  parse_int := decimal_hook; parse_float := decimal_hook; parse_constant := reject_json_constant |}.

(** [_mapping], on the decoded event and on the decoded payload. *)
Definition mapping (value : json) (reason : string) : res breaker_error (list (str * json)) :=
  match value with JObj kv => Ok kv | _ => invalid reason end.
Definition payload_mapping (value : jtree Decimal) (reason : string) :
    res breaker_error (list (str * jtree Decimal)) :=
  match value with TObj kv => Ok kv | _ => invalid reason end.

Definition tree_get (k : string) (kv : list (str * jtree Decimal)) : jtree Decimal :=
  default TNull (aget (lit k) kv).

(** [_amount]. *)
Definition amount (value : jtree Decimal) (reason : string) (strictly_positive : bool) :
    res breaker_error Decimal :=
  match value with
  | TNum d =>
      if dec_ltb (d_value d) d0 || strictly_positive && dec_eqb (d_value d) d0 then invalid reason else Ok d
  | _ => invalid reason
  end.

(** [_message_id]. *)
Definition message_id_of (event_data : json) : str :=
  match event_data with
  | JObj envelope =>
      match jget_or_null (lit "message") envelope with
      | JObj message =>
          match default (jget_or_null (lit "message_id") message) (aget (lit "messageId") message) with
          | JStr ((_ :: _) as value) => value
          | _ => lit "unknown"
          end
      | _ => lit "unknown"
      end
  | _ => lit "unknown"
  end.

(** [attributes.get(k) != expected]. *)
Definition is_str (expected : str) (value : json) : bool :=
  match value with JStr s => bool_decide (s = expected) | _ => false end.
Definition is_text (expected : string) (value : jtree Decimal) : bool :=
  match value with TStr s => bool_decide (s = lit expected) | _ => false end.

(** The encoded payload of the message, decoded. *)
Definition message_text (message : list (str * json)) : res breaker_error str :=
  match jget_or_null (lit "data") message with
  | JStr encoded =>
      match encoded ← encode_ascii encoded; raw ← b64decode encoded; utf8_decode raw with
      | Some decoded => Ok decoded
      | None => invalid "message_data_not_base64_utf8"
      end
  | _ => invalid "message_data_missing"
  end.

Definition payload_of (decoded : str) : res breaker_error (list (str * jtree Decimal)) :=
  match loads decimal_hooks decoded with
  | Ok payload => payload_mapping payload "budget_payload_not_object"
  | Err JSONDecodeError => invalid "message_data_not_json"
  | Err (HookError e) => Err e
  | Err OutOfFuel => Err ReaderFuel
  end.

Definition parse_budget_notification (event_data : json) (account budget : str) :
    res breaker_error BudgetNotification :=
  envelope ← mapping event_data "event_data_not_object";
  message ← mapping (jget_or_null (lit "message") envelope) "message_missing";
  attributes ← mapping (jget_or_null (lit "attributes") message) "attributes_missing";
  guard_ (is_str (lit "1.0") (jget_or_null (lit "schemaVersion") attributes))
    (InvalidNotification (lit "schema_version_mismatch"));;
  guard_ (is_str account (jget_or_null (lit "billingAccountId") attributes))
    (InvalidNotification (lit "billing_account_mismatch"));;
  guard_ (is_str budget (jget_or_null (lit "budgetId") attributes))
    (InvalidNotification (lit "budget_id_mismatch"));;
  decoded ← message_text message;
  payload ← payload_of decoded;
  guard_ (is_text "USD" (tree_get "currencyCode" payload)) (InvalidNotification (lit "currency_mismatch"));;
  guard_ (is_text "SPECIFIED_AMOUNT" (tree_get "budgetAmountType" payload))
    (InvalidNotification (lit "budget_amount_type_mismatch"));;
  cost ← amount (tree_get "costAmount" payload) "invalid_cost_amount" false;
  limit ← amount (tree_get "budgetAmount" payload) "invalid_budget_amount" true;
  Ok {| message_id := message_id_of (JObj envelope); billing_account_id := account; budget_id := budget;
        cost_amount := cost; budget_amount := limit |}.

(** ** Effects *)
Inductive effect :=
  | Emit (line : str)
  | CreateGateway
  | SetBillingAccount (project_name billing_account_name : str).

(** An exception of the client: its type's name, and whether it is an
    [Exception] (and not only a [BaseException]). *)
Record exc := { exc_type : str; exc_is_exception : bool }.

(** What the client does in one delivery; [None] is success. *)
Record gateway := {
  gw_create : option exc;
  gw_set_billing_account : str → str → option exc;
}.

(** The fields of [_emit] that are not always there. *)
Record emission := {
  em_action : string;
  em_severity : string;
  em_message_id : str;
  em_amounts : option (Decimal * Decimal);
  em_reason : option str;
  em_error_type : option str;
}.

Definition optional_field (k : string) (v : option str) : list (str * str) :=
  match v with Some v => [(lit k, v)] | None => [] end.

Definition emission_record (account budget : str) (m : emission) : list (str * str) :=
  [(lit "action", lit (em_action m)); (lit "billing_account_id", account); (lit "budget_id", budget);
   (lit "component", lit "billing-breaker"); (lit "message_id", em_message_id m);
   (lit "project_id", PROJECT_ID); (lit "severity", lit (em_severity m))]
  ++ optional_field "cost_amount" (str_of_decimal ∘ fst <$> em_amounts m)
  ++ optional_field "budget_amount" (str_of_decimal ∘ snd <$> em_amounts m)
  ++ optional_field "reason" (em_reason m)
  ++ optional_field "error_type" (em_error_type m).

(** [_emit]. *)
Definition emit (account budget : str) (m : emission) : effect :=
  Emit (dumps_sorted (emission_record account budget m)).

(** ** The handler *)
Inductive handled :=
  | Returned (action : string)
  | Raised (e : exc)
  | Escaped (e : breaker_error).

Definition rejected (event_data : json) (reason : str) : emission := {|
  em_action := "invalid_notification"; em_severity := "WARNING"; em_message_id := message_id_of event_data;
  em_amounts := None; em_reason := Some reason; em_error_type := None |}.

Definition about (n : BudgetNotification) (action severity : string) (error_type : option str) : emission := {|
  em_action := action; em_severity := severity; em_message_id := message_id n;
  em_amounts := Some (cost_amount n, budget_amount n); em_reason := None; em_error_type := error_type |}.

(** [gateway_factory().set_billing_account(...)]: the calls made and how they end. *)
Definition detach (g : gateway) : list effect * option exc :=
  match gw_create g with
  | Some e => ([CreateGateway], Some e)
  | None => ([CreateGateway; SetBillingAccount PROJECT_RESOURCE []], gw_set_billing_account g PROJECT_RESOURCE [])
  end.

Definition handle_budget_notification (event_data : json) (account budget : str) (g : gateway) :
    handled * list effect :=
  match parse_budget_notification event_data account budget with
  | Err (InvalidNotification reason) =>
      (Returned "invalid_notification", [emit account budget (rejected event_data reason)])
  | Err e => (Escaped e, [])
  | Ok n =>
      if dec_ltb (d_value (cost_amount n)) (d_value (budget_amount n))
      then (Returned "below_budget", [emit account budget (about n "below_budget" "INFO" None)])
      else
        let requested := emit account budget (about n "detach_requested" "CRITICAL" None) in
        match detach g with
        | (calls, None) =>
            (Returned "billing_detached",
             requested :: calls ++ [emit account budget (about n "billing_detached" "CRITICAL" None)])
        | (calls, Some e) =>
            (Raised e,
             requested :: calls ++
               (if exc_is_exception e
                then [emit account budget (about n "detach_failed" "ERROR" (Some (exc_type e)))] else []))
        end
  end.

(** ** The adapter of [main.py] *)

(** [_required_environment]. *)
Definition required_environment (environ : list (str * str)) (name : string) : res string str :=
  match aget (lit name) environ with
  | Some ((_ :: _) as value) => Ok value
  | _ => Err "required environment variable is missing"%string
  end.

(** [GoogleBillingGateway]: the answer of the API is the pair of
    [billing_enabled] and [billing_account_name]. *)
Definition google_gateway (create : option exc) (update : str → str → res exc (bool * str)) : gateway := {|
  gw_create := create;
  gw_set_billing_account := λ project_name billing_account_name,
    match update project_name billing_account_name with
    | Err e => Some e
    | Ok (billing_enabled, name) =>
        if billing_enabled || negb (bool_decide (name = []))
        then Some {| exc_type := lit "RuntimeError"; exc_is_exception := true |} else None
    end;
|}.

(** [stop_billing]; a missing variable is a RuntimeError before any effect. *)
Definition stop_billing (environ : list (str * str)) (data : json) (create : option exc)
    (update : str → str → res exc (bool * str)) : res string (handled * list effect) :=
  account ← required_environment environ "EXPECTED_BILLING_ACCOUNT_ID";
  budget ← required_environment environ "EXPECTED_BUDGET_ID";
  Ok (handle_budget_notification data account budget (google_gateway create update)).
