(* ===== verification/BreakerFacts.v ===== *)
(** * The circuit breaker detaches exactly on a valid notification at or over budget *)
From S2P Require Import Prelude PyStr PyFloat PyJson JsonText JsonFacts PyBytes PyDecimal Breaker.
Open Scope Z_scope.

(** ** What a valid notification is *)

(** The payload with its amounts: an object in USD with a specified, positive
    budget and a non-negative cost. *)
Record payload_amounts (p : list (str * jtree Decimal)) (cost limit : Decimal) : Prop := {
  pa_currency : aget (lit "currencyCode") p = Some (TStr (lit "USD"));
  pa_type : aget (lit "budgetAmountType") p = Some (TStr (lit "SPECIFIED_AMOUNT"));
  pa_cost : aget (lit "costAmount") p = Some (TNum cost);
  pa_cost_sign : dec_leb d0 (d_value cost) = true;
  pa_limit : aget (lit "budgetAmount") p = Some (TNum limit);
  pa_limit_sign : dec_ltb d0 (d_value limit) = true;
}.

(** The event is the envelope of that payload for this account and budget. *)
Inductive notifies (event : json) (account budget : str) (cost limit : Decimal) : Prop :=
  | notifies_intro envelope message attributes encoded ascii raw text p :
      event = JObj envelope →
      aget (lit "message") envelope = Some (JObj message) →
      aget (lit "attributes") message = Some (JObj attributes) →
      aget (lit "schemaVersion") attributes = Some (JStr (lit "1.0")) →
      aget (lit "billingAccountId") attributes = Some (JStr account) →
      aget (lit "budgetId") attributes = Some (JStr budget) →
      aget (lit "data") message = Some (JStr encoded) →
      encode_ascii encoded = Some ascii → b64decode ascii = Some raw → utf8_decode raw = Some text →
      loads decimal_hooks text = Ok (TObj p) → payload_amounts p cost limit →
      notifies event account budget cost limit.

Lemma mapping_Ok value reason kv : mapping value reason = Ok kv ↔ value = JObj kv.
Proof. destruct value; cbn; split; try done; congruence. Qed.

Lemma jget_or_null_obj k kv v : v ≠ JNull → jget_or_null k kv = v ↔ aget k kv = Some v.
Proof. intros Hv. unfold jget_or_null. destruct (aget k kv); cbn; split; congruence. Qed.

Lemma is_str_get expected k kv :
  is_str expected (jget_or_null k kv) = true ↔ aget k kv = Some (JStr expected).
Proof.
  unfold jget_or_null. destruct (aget k kv) as [[]|]; cbn; try done. rewrite bool_decide_eq_true. 
  split; congruence.
Qed.

Lemma is_text_get expected k p :
  is_text expected (tree_get k p) = true ↔ aget (lit k) p = Some (TStr (lit expected)).
Proof.
  unfold tree_get. destruct (aget (lit k) p) as [[]|]; cbn; try done. rewrite bool_decide_eq_true.
  split; congruence.
Qed.

Lemma dec_sign_cases a :
  (dec_ltb a d0 = true ∧ dec_leb d0 a = false ∧ dec_ltb d0 a = false ∧ dec_eqb a d0 = false) ∨
  (dec_ltb a d0 = false ∧ dec_leb d0 a = true ∧ dec_ltb d0 a = false ∧ dec_eqb a d0 = true) ∨
  (dec_ltb a d0 = false ∧ dec_leb d0 a = true ∧ dec_ltb d0 a = true ∧ dec_eqb a d0 = false).
Proof.
  unfold dec_ltb, dec_leb, dec_eqb. rewrite (dec_compare_antisym a d0).
  destruct (dec_compare a d0); cbn; tauto.
Qed.

Lemma accepted_unless (b : bool) reason (v d : Decimal) :
  (if b then invalid reason else Ok v) = Ok d ↔ b = false ∧ v = d.
Proof. destruct b; cbn; split; try done; try (by intros [? _]). - by intros [= <-]. - by intros [_ <-]. Qed.

Lemma amount_Ok value reason d :
  amount value reason false = Ok d ↔ value = TNum d ∧ dec_leb d0 (d_value d) = true.
Proof.
  destruct value as [| |v| | |]; cbn; try (split; [done|by intros [? _]]).
  rewrite orb_false_r, accepted_unless. split.
  - intros [Hs <-]. split; [done|]. destruct (dec_sign_cases (d_value v)) as [(H & _)|[?|?]]; [congruence|tauto..].
  - intros [[= <-] Hs]. split; [|done]. destruct (dec_sign_cases (d_value v)) as [(? & Hf & _)|[?|?]]; [|tauto..].
    by rewrite Hs in Hf.
Qed.

Lemma amount_positive_Ok value reason d :
  amount value reason true = Ok d ↔ value = TNum d ∧ dec_ltb d0 (d_value d) = true.
Proof.
  destruct value as [| |v| | |]; cbn; try (split; [done|by intros [? _]]).
  rewrite accepted_unless. split.
  - intros [[H1 H2]%orb_false_iff <-]. split; [done|].
    destruct (dec_sign_cases (d_value v)) as [(H & _)|[(_ & _ & _ & H)|?]]; [congruence..|tauto].
  - intros [[= <-] Hs]. split; [|done]. apply orb_false_iff.
    destruct (dec_sign_cases (d_value v)) as [(_ & _ & H & _)|[(_ & _ & H & _)|?]]; [congruence..|tauto].
Qed.

Lemma tree_get_num k p d : tree_get k p = TNum d ↔ aget (lit k) p = Some (TNum d).
Proof. unfold tree_get. destruct (aget _ _); cbn; split; congruence. Qed.

Lemma message_text_Ok message text :
  message_text message = Ok text ↔
  ∃ encoded ascii raw, aget (lit "data") message = Some (JStr encoded) ∧
    encode_ascii encoded = Some ascii ∧ b64decode ascii = Some raw ∧ utf8_decode raw = Some text.
Proof.
  unfold message_text, jget_or_null. split.
  - destruct (aget _ message) as [[]|]; cbn; try done.
    destruct (encode_ascii s) as [a|] eqn:Ea; cbn; [|done].
    destruct (b64decode a) as [raw|] eqn:Eb; cbn; [|done].
    destruct (utf8_decode raw) eqn:Eu; [|done]. intros [= <-]. eauto 10.
  - intros (encoded & ascii & raw & -> & Ea & Eb & Eu). cbn. by rewrite Ea; cbn; rewrite Eb; cbn; rewrite Eu.
Qed.

Lemma payload_of_Ok text p : payload_of text = Ok p ↔ loads decimal_hooks text = Ok (TObj p).
Proof.
  unfold payload_of. destruct (loads _ _) as [[]|[]]; cbn; split; try done; congruence.
Qed.

(** The parser accepts exactly the valid notifications. *)
Lemma parse_spec event account budget n :
  parse_budget_notification event account budget = Ok n ↔
  notifies event account budget (cost_amount n) (budget_amount n) ∧
  n = {| message_id := message_id_of event; billing_account_id := account; budget_id := budget;
         cost_amount := cost_amount n; budget_amount := budget_amount n |}.
Proof.
  unfold parse_budget_notification. split.
  - repeat setoid_rewrite bind_Ok.
    intros (env & He & msg & Hm & att & Ha & [] & Hs & [] & Hacc & [] & Hb & text & Ht & p & Hp & [] & Hc & [] &
      Hty & cost & Hcost & limit & Hlimit & [= <-]).
    apply mapping_Ok in He as ->. apply mapping_Ok, jget_or_null_obj in Hm; [|done].
    apply mapping_Ok, jget_or_null_obj in Ha; [|done].
    apply guard_Ok, is_str_get in Hs, Hacc, Hb. apply message_text_Ok in Ht as (enc & asc & raw & ? & ? & ? & ?).
    apply payload_of_Ok in Hp. apply guard_Ok, is_text_get in Hc, Hty.
    apply amount_Ok in Hcost as [Hcost ?]. apply amount_positive_Ok in Hlimit as [Hlimit ?].
    rewrite tree_get_num in Hcost, Hlimit. cbn. split; [|done]. by econstructor.
  - intros [[env msg att enc asc raw text p -> Hm Ha Hs Hacc Hb Hd Hasc Hraw Htext Hp [Hc Hty Hcost Hcs Hl Hls]] ->].
    apply bind_Ok. exists env. split; [done|]. apply bind_Ok. exists msg. split.
    { by apply mapping_Ok, jget_or_null_obj. }
    apply bind_Ok. exists att. split; [by apply mapping_Ok, jget_or_null_obj|].
    rewrite !guard_true by (by apply is_str_get).
    apply bind_Ok. exists text. split; [apply message_text_Ok; eauto 10|].
    apply bind_Ok. exists p. split; [by apply payload_of_Ok|].
    rewrite !guard_true by (by apply is_text_get).
    apply bind_Ok. eexists. split; [apply amount_Ok; split; [by apply tree_get_num|done]|].
    apply bind_Ok. eexists. split; [apply amount_positive_Ok; split; [by apply tree_get_num|done]|]. done.
Qed.

(** ** Errors of the parser *)
Definition expected_error (e : breaker_error) : Prop :=
  match e with InvalidNotification reason => scalars reason | InvalidOperation => True | ReaderFuel => False end.

Lemma hook_errors text : match loads decimal_hooks text with
  | Err OutOfFuel => False | Err (HookError e) => expected_error e | _ => True end.
Proof.
  apply loads_answers.
  - cbn. unfold decimal_hook. intros s e. destruct (decimal_of_text s); [done|]. by intros [= <-].
  - cbn. unfold decimal_hook. intros s e. destruct (decimal_of_text s); [done|]. by intros [= <-].
  - intros name e Hn [= <-]. cbn. rewrite !elem_of_cons, elem_of_nil in Hn.
    destruct Hn as [->|[->|[->|[]]]]; by vm_compute.
Qed.

Lemma mapping_Err value reason e : scalars (lit reason) → mapping value reason = Err e → expected_error e.
Proof. intros Hr. destruct value; cbn; try done; by intros [= <-]. Qed.
Lemma amount_Err value reason b e : scalars (lit reason) → amount value reason b = Err e → expected_error e.
Proof. intros Hr. destruct value; cbn; try (by intros [= <-]). case_match; [by intros [= <-]|done]. Qed.
Lemma guard_InvalidNotification b reason e :
  scalars (lit reason) → guard_ b (InvalidNotification (lit reason)) = Err e → expected_error e.
Proof. intros Hr [_ <-]%guard_Err. done. Qed.

Lemma message_text_Err message e : message_text message = Err e → expected_error e.
Proof.
  unfold message_text. case_match; try (by intros [= <-]). 
  destruct (_ ≫= _); [done|]. by intros [= <-].
Qed.

Lemma payload_of_Err text e : payload_of text = Err e → expected_error e.
Proof.
  unfold payload_of. pose proof (hook_errors text) as H.
  destruct (loads _ _) as [v|[]]; cbn in H; [|by intros [= <-]|by intros [= <-]|done].
  unfold payload_mapping. destruct v; try done; by intros [= <-].
Qed.

(** The reader's fuel is never used up, and every reason is plain text. *)
Lemma parse_errors event account budget e :
  parse_budget_notification event account budget = Err e → expected_error e.
Proof.
  unfold parse_budget_notification.
  repeat (intros [H|(? & _ & H)]%bind_Err; [
    first [by eapply mapping_Err, H|by eapply guard_InvalidNotification, H|by eapply message_text_Err, H
          |by eapply payload_of_Err, H|by eapply amount_Err, H]|revert H]).
  done.
Qed.

(** ** The decision *)
Definition is_call (e : effect) : bool := match e with Emit _ => false | _ => true end.
Definition calls (effects : list effect) : list effect := filter (λ e, is_call e = true) effects.

(** At or over budget. *)
Definition over_budget (event : json) (account budget : str) : Prop :=
  ∃ cost limit, notifies event account budget cost limit ∧ dec_ltb (d_value cost) (d_value limit) = false.

Lemma parse_notifies event account budget cost limit :
  notifies event account budget cost limit →
  parse_budget_notification event account budget =
    Ok {| message_id := message_id_of event; billing_account_id := account; budget_id := budget;
          cost_amount := cost; budget_amount := limit |}.
Proof. intros H. by apply parse_spec. Qed.

Section decision.
Context (event : json) (account budget : str) (g : gateway).

(** The calls of a delivery and how it ends. *)
Lemma handle_over cost limit :
  notifies event account budget cost limit → dec_ltb (d_value cost) (d_value limit) = false →
  ∃ announced rest,
    (handle_budget_notification event account budget g).2 = Emit announced :: rest ∧
    calls rest = (detach g).1 ∧
    (handle_budget_notification event account budget g).1 =
      match (detach g).2 with None => Returned "billing_detached" | Some e => Raised e end ∧
    ∃ lines, rest = (detach g).1 ++ (Emit <$> lines).
Proof.
  intros Hn Hover. unfold handle_budget_notification. rewrite (parse_notifies _ _ _ _ _ Hn).
  cbn [cost_amount budget_amount]. rewrite Hover. unfold detach.
  assert (Hc : ∀ es : list effect, Forall (λ e, is_call e = true) es → ∀ lines, calls (es ++ (Emit <$> lines)) = es).
  { intros es Hes lines. unfold calls. rewrite filter_app. 
    assert (filter (λ e, is_call e = true) (Emit <$> lines) = []) as -> by (induction lines; done).
    rewrite app_nil_r. induction Hes as [|x es Hx _ IH]; [done|]. rewrite filter_cons_True by done. by rewrite IH. }
  assert (Hone : ∀ es l, Forall (λ e, is_call e = true) es → calls (es ++ [Emit l]) = es)
    by (intros es l Hes; apply (Hc es Hes [l])).
  assert (Hnil : ∀ es, Forall (λ e, is_call e = true) es → calls (es ++ []) = es)
    by (intros es Hes; apply (Hc es Hes [])).
  destruct (gw_create g) as [e|]; [|destruct (gw_set_billing_account _ _ _) as [e|]]; cbn [fst snd].
  - eexists _, _. split; [done|]. destruct (exc_is_exception e).
    + split_and!; [by apply Hone; repeat constructor|done|by eexists [_]].
    + split_and!; [by apply Hnil; repeat constructor|done|by exists []].
  - eexists _, _. split; [done|]. destruct (exc_is_exception e).
    + split_and!; [by apply Hone; repeat constructor|done|by eexists [_]].
    + split_and!; [by apply Hnil; repeat constructor|done|by exists []].
  - eexists _, _. split; [done|]. split_and!; [by apply Hone; repeat constructor|done|by eexists [_]].
Qed.

Lemma handle_below cost limit :
  notifies event account budget cost limit → dec_ltb (d_value cost) (d_value limit) = true →
  ∃ line, handle_budget_notification event account budget g = (Returned "below_budget", [Emit line]).
Proof.
  intros Hn Hb. unfold handle_budget_notification. rewrite (parse_notifies _ _ _ _ _ Hn).
  cbn [cost_amount budget_amount]. rewrite Hb. by eexists.
Qed.

Lemma handle_invalid :
  (∀ cost limit, ¬ notifies event account budget cost limit) →
  (∃ line, handle_budget_notification event account budget g = (Returned "invalid_notification", [Emit line])) ∨
  handle_budget_notification event account budget g = (Escaped InvalidOperation, []).
Proof.
  intros Hn. unfold handle_budget_notification.
  destruct (parse_budget_notification event account budget) as [n|e] eqn:E.
  - apply parse_spec in E as [Hnot _]. by destruct (Hn _ _ Hnot).
  - apply parse_errors in E. destruct e; cbn in E; [left; by eexists|by right|done].
Qed.
End decision.

Lemma notifies_decided event account budget :
  (∃ cost limit, notifies event account budget cost limit) ∨ (∀ cost limit, ¬ notifies event account budget cost limit).
Proof.
  destruct (parse_budget_notification event account budget) as [n|e] eqn:E.
  - apply parse_spec in E as [H _]. left. eauto.
  - right. intros cost limit H. apply parse_notifies in H. congruence.
Qed.

(** C13: The breaker touches Cloud Billing exactly on a valid notification for
    its own account and budget that is at or over budget.  Then it first
    announces the decision, makes the calls of one detach, sets the account of
    the fixed project to nothing and to nothing else, and surfaces a failure of
    the client.  A valid notification below budget and one that is not valid
    are acknowledged without a call; the only other ending is the escape of an
    out-of-range number. *)
Theorem breaker_decision (event : json) (account budget : str) (g : gateway) :
  let '(out, effects) := handle_budget_notification event account budget g in
  (calls effects ≠ [] ↔ over_budget event account budget) ∧
  (over_budget event account budget → ∃ line rest,
     effects = Emit line :: rest ∧
     match gw_create g, gw_set_billing_account g PROJECT_RESOURCE [] with
     | Some e, _ => calls effects = [CreateGateway] ∧ out = Raised e
     | None, Some e =>
         calls effects = [CreateGateway; SetBillingAccount PROJECT_RESOURCE []] ∧ out = Raised e
     | None, None =>
         calls effects = [CreateGateway; SetBillingAccount PROJECT_RESOURCE []] ∧
         out = Returned "billing_detached"
     end) ∧
  (¬ over_budget event account budget →
     calls effects = [] ∧
     ((out = Returned "below_budget" ∧ ∃ cost limit, notifies event account budget cost limit) ∨
      ((∀ cost limit, ¬ notifies event account budget cost limit) ∧
       (out = Returned "invalid_notification" ∨ out = Escaped InvalidOperation)))).
Proof.
  destruct (handle_budget_notification event account budget g) as [out effects] eqn:E.
  destruct (notifies_decided event account budget) as [(cost & limit & Hn)|Hn].
  - destruct (dec_ltb (d_value cost) (d_value limit)) eqn:Hlt.
    + destruct (handle_below event account budget g _ _ Hn Hlt) as [line Hb]. rewrite E in Hb.
      injection Hb as -> ->.
      assert (¬ over_budget event account budget) as Hno.
      { intros (c & l & H & Hf). apply parse_notifies in Hn, H. rewrite Hn in H. injection H as <- <-. congruence. }
      split_and!; [split; done|done|]. intros _. split; [done|]. left. eauto.
    + destruct (handle_over event account budget g _ _ Hn Hlt) as (line & rest & He & Hc & Ho & _).
      rewrite E in He, Ho. cbn in He, Ho. subst out effects.
      assert (Hyes : over_budget event account budget) by (by exists cost, limit).
      change (calls (Emit line :: rest)) with (calls rest). rewrite Hc. unfold detach.
      destruct (gw_create g); [|destruct (gw_set_billing_account _ _ _)]; cbn;
        (split_and!; [by split|by eauto|by intros []]).
  - assert (¬ over_budget event account budget) as Hno by (intros (c & l & H & _); by apply (Hn c l)).
    destruct (handle_invalid event account budget g Hn) as [[line H]|H]; rewrite E in H; injection H as -> ->;
      (split_and!; [by split|done|]); intros _; (split; [done|]); right; auto.
Qed.

(** ** Deliveries in any order, any number of times *)
Record delivery := { dl_event : json; dl_gateway : gateway }.

(** The call that removes the billing account was made and answered. *)
Definition detaches (g : gateway) (e : effect) : bool :=
  match e with
  | SetBillingAccount project name =>
      bool_decide (project = PROJECT_RESOURCE) && bool_decide (name = []) &&
      match gw_set_billing_account g project name with None => true | Some _ => false end
  | _ => false
  end.

Definition billing_step (account budget : str) (attached : bool) (d : delivery) : bool :=
  attached && negb (existsb (detaches (dl_gateway d))
    (handle_budget_notification (dl_event d) account budget (dl_gateway d)).2).

Definition succeeds (g : gateway) : Prop :=
  gw_create g = None ∧ gw_set_billing_account g PROJECT_RESOURCE [] = None.

Lemma existsb_calls g es : existsb (detaches g) es = existsb (detaches g) (calls es).
Proof.
  induction es as [|e es IH]; [done|]. unfold calls. destruct (decide (is_call e = true)) as [H|H].
  - rewrite filter_cons_True by done. cbn. f_equal. exact IH.
  - rewrite filter_cons_False by done. destruct e; [|done..]. exact IH.
Qed.

Lemma billing_step_spec account budget d :
  billing_step account budget true d = false ↔
  over_budget (dl_event d) account budget ∧ succeeds (dl_gateway d).
Proof.
  unfold billing_step, succeeds. rewrite andb_true_l, negb_false_iff, existsb_calls.
  set (event := dl_event d). set (g := dl_gateway d).
  destruct (notifies_decided event account budget) as [(cost & limit & Hn)|Hn].
  - destruct (dec_ltb (d_value cost) (d_value limit)) eqn:Hlt.
    + destruct (handle_below event account budget g _ _ Hn Hlt) as [line ->]. split; [done|].
      intros [(c & l & H & Hf) _]. apply parse_notifies in Hn, H. rewrite Hn in H. injection H as <- <-. congruence.
    + destruct (handle_over event account budget g _ _ Hn Hlt) as (line & rest & -> & Hc & _).
      change (calls (Emit line :: rest)) with (calls rest). rewrite Hc. unfold detach.
      destruct (gw_create g); [split; [done|by intros [_ [? _]]]|]. cbn [existsb fst detaches].
      rewrite bool_decide_true by done. cbn.
      destruct (gw_set_billing_account g PROJECT_RESOURCE []); cbn; split; try done; [by intros [_ [_ ?]]|].
      intros _. split; [by exists cost, limit|done].
  - split; [|intros [(c & l & H & _) _]; by destruct (Hn _ _ H)].
    destruct (handle_invalid event account budget g Hn) as [[line ->]| -> ]; done.
Qed.

(** Duplicated, repeated and reordered deliveries do no harm: after any
    sequence of them the project is detached exactly when one was a valid
    notification at or over budget whose client calls succeeded. *)
Theorem breaker_converges (account budget : str) (ds : list delivery) :
  foldl (billing_step account budget) true ds = false ↔
  ∃ d, d ∈ ds ∧ over_budget (dl_event d) account budget ∧ succeeds (dl_gateway d).
Proof.
  assert (Hoff : ∀ ds, foldl (billing_step account budget) false ds = false) by (intros l; by induction l).
  induction ds as [|d ds IH]; cbn [foldl].
  { split; [done|]. intros (d & H & _). by apply not_elem_of_nil in H. }
  destruct (billing_step account budget true d) eqn:E.
  - rewrite IH. split; [intros (x & H & ?); exists x; split; [by right|done]|].
    intros (x & H & Hx). apply elem_of_cons in H as [->|H]; [|eauto]. apply billing_step_spec in Hx. congruence.
  - rewrite Hoff. split; [|done]. intros _. exists d. split; [by left|]. by apply billing_step_spec.
Qed.

(** ** The log *)
Lemma hex_scalars s : Forall ascii_printable s → scalars s.
Proof.
  unfold scalars, ascii_printable. induction 1 as [|c s Hc _ IH]; cbn; [done|]. rewrite IH, andb_true_r.
  unfold scalar_value, high_surrogate, low_surrogate. lia.
Qed.

Lemma digits_printable n : Forall ascii_printable (str_of_N n).
Proof. eapply Forall_impl; [apply str_of_N_digits|]. unfold ascii_printable. cbn. intros. lia. Qed.

Lemma str_of_Z_printable z : Forall ascii_printable (str_of_Z z).
Proof.
  unfold str_of_Z. case_match; [apply Forall_cons; split; [unfold ascii_printable; lia|]|]; apply digits_printable.
Qed.


Lemma zeros_printable n : Forall ascii_printable (zeros n).
Proof. unfold zeros. induction (Z.to_nat n); cbn; constructor; [unfold ascii_printable; lia|done]. Qed.

Lemma str_of_decimal_printable d : Forall ascii_printable (str_of_decimal d).
Proof.
  unfold str_of_decimal. pose proof (digits_printable (Z.to_N (Z.abs (coef (d_value d))))) as Hd.
  set (int := str_of_N _) in *. clearbody int. cbn zeta.
  assert (Hlit : ∀ s, forallb (λ c, (32 <=? c) && (c <=? 126))%N (lit s) = true → Forall ascii_printable (lit s)).
  { intros s Hs. apply Forall_forall. intros c Hc. apply list_elem_of_In in Hc.
    rewrite forallb_forall in Hs. specialize (Hs c Hc). unfold ascii_printable. lia. }
  repeat first [apply Forall_app_2 | case_match]; try done; try apply zeros_printable; try apply str_of_Z_printable;
    try (by apply Hlit); try (by apply Forall_take); try (by apply Forall_drop).
Qed.

(** Plain fields: the settings, the message's own id and the names of error types. *)
Definition plain_emission (account budget : str) (m : emission) : Prop :=
  scalars account ∧ scalars budget ∧ scalars (lit (em_action m)) ∧ scalars (lit (em_severity m)) ∧
  scalars (em_message_id m) ∧ (∀ r, em_reason m = Some r → scalars r) ∧
  (∀ r, em_error_type m = Some r → scalars r).

Lemma emission_keys account budget m : NoDup (emission_record account budget m).*1.
Proof.
  unfold emission_record, optional_field.
  destruct (em_amounts m), (em_reason m), (em_error_type m);
    apply (bool_decide_unpack (NoDup _)); vm_compute; exact I.
Qed.

Lemma emission_scalars account budget m :
  plain_emission account budget m → Forall (λ p, scalars p.1 ∧ scalars p.2) (emission_record account budget m).
Proof.
  intros (Ha & Hb & Hac & Hs & Hm & Hr & He). unfold emission_record.
  assert (Hopt : ∀ (k : string) v, scalars (lit k) → (∀ s, v = Some s → scalars s) →
    Forall (λ p, scalars p.1 ∧ scalars p.2) (optional_field k v)).
  { intros k [v|] Hk Hv; cbn; [|constructor]. constructor; [|constructor]. split; [done|]. by apply Hv. }
  repeat (apply Forall_app_2); [repeat (apply Forall_cons; split; [split; cbn [fst snd]; done|]); constructor|..];
    apply Hopt; try done; intros s; destruct (em_amounts m); cbn; try done;
    intros [= <-]; apply hex_scalars, str_of_decimal_printable.
Qed.

(** The emissions of a delivery. *)
Lemma handle_emissions event account budget g line :
  scalars (message_id_of event) → (∀ e, gw_create g = Some e ∨ (∃ p a, gw_set_billing_account g p a = Some e) →
    scalars (exc_type e)) → scalars account → scalars budget →
  Emit line ∈ (handle_budget_notification event account budget g).2 →
  ∃ m, Emit line = emit account budget m ∧ plain_emission account budget m ∧ em_message_id m = message_id_of event.
Proof.
  intros Hid Hg Ha Hb. unfold handle_budget_notification.
  destruct (parse_budget_notification event account budget) as [n|e] eqn:E.
  - apply parse_spec in E as [_ En].
    assert (Habout : ∀ action severity et, scalars (lit action) → scalars (lit severity) →
      (∀ r, et = Some r → scalars r) → Emit line = emit account budget (about n action severity et) →
      ∃ m, Emit line = emit account budget m ∧ plain_emission account budget m ∧ em_message_id m = message_id_of event).
    { intros action severity et Hac Hs Het Hl. eexists. split; [exact Hl|]. rewrite En. cbn.
      unfold plain_emission. cbn. split_and!; done. }
    destruct (dec_ltb _ _); cbn [snd].
    { rewrite list_elem_of_singleton. by apply Habout. }
    unfold detach. destruct (gw_create g) as [e|] eqn:Ec; [|destruct (gw_set_billing_account _ _ _) as [e|] eqn:Es];
      cbn [snd app]; intros [Hl|Hl]%elem_of_cons; try (by revert Hl; apply Habout).
    + apply elem_of_cons in Hl as [?|Hl]; [done|]. destruct (exc_is_exception e); [|by apply elem_of_nil in Hl].
      apply list_elem_of_singleton in Hl. revert Hl. apply Habout; [done..|]. intros ? [= <-]. eauto.
    + do 2 (apply elem_of_cons in Hl as [?|Hl]; [done|]). destruct (exc_is_exception e); [|by apply elem_of_nil in Hl].
      apply list_elem_of_singleton in Hl. revert Hl. apply Habout; [done..|]. intros ? [= <-]. eauto.
    + do 2 (apply elem_of_cons in Hl as [?|Hl]; [done|]). apply list_elem_of_singleton in Hl. revert Hl.
      by apply Habout.
  - apply parse_errors in E. destruct e as [reason| |]; cbn [snd]; [|by intros ?%elem_of_nil..].
    rewrite list_elem_of_singleton. intros ->. eexists. split; [done|]. unfold plain_emission. cbn.
    split_and!; try done. by intros ? [= <-].
Qed.

(** The log of the breaker is one JSON object a line: every line it emits is
    printable ASCII without a line break, and reads back to exactly the fields
    of a decision about the message that was delivered, in key order. *)
Theorem breaker_log_reads_back (event : json) (account budget : str) (g : gateway) (line : str)
  (Hid : scalars (message_id_of event)) (Ha : scalars account) (Hb : scalars budget)
  (Hg : ∀ e, gw_create g = Some e ∨ (∃ p a, gw_set_billing_account g p a = Some e) → scalars (exc_type e)) :
  Emit line ∈ (handle_budget_notification event account budget g).2 →
  Forall ascii_printable line ∧
  ∃ m, em_message_id m = message_id_of event ∧
    loads decimal_hooks line = Ok (TObj (text_field <$> sort_by key_leb (emission_record account budget m))).
Proof.
  intros H. destruct (handle_emissions _ _ _ _ _ Hid Hg Ha Hb H) as (m & Hl & Hm & Hmid).
  injection Hl as ->. split.
  - by apply dumps_sorted_printable.
  - exists m. split; [done|]. apply loads_dumps_sorted; [apply emission_keys|by apply emission_scalars].
Qed.

(** ** Samples *)

(** The event of a published payload. *)
Definition published (account budget : str) (text : str) : json :=
  JObj [(lit "message", JObj [
    (lit "attributes", JObj [(lit "schemaVersion", JStr (lit "1.0")); (lit "billingAccountId", JStr account);
                             (lit "budgetId", JStr budget)]);
    (lit "messageId", JStr (lit "1042")); (lit "data", JStr (wire text))])].

Definition usd (costs : string) : str :=
  quoted "{'currencyCode':'USD','budgetAmountType':'SPECIFIED_AMOUNT'," ++ quoted costs ++ lit "}".
Definition quiet : gateway := {| gw_create := None; gw_set_billing_account := λ _ _, None |}.
Definition sample_handle (costs : string) : handled * list effect :=
  handle_budget_notification (published (lit "A-1") (lit "b-2") (usd costs)) (lit "A-1") (lit "b-2") quiet.

Example detaches_at_equality :
  (sample_handle "'costAmount': 100.00, 'budgetAmount': 1e2").1 = Returned "billing_detached".
Proof. vm_compute. reflexivity. Qed.
Example waits_below : (sample_handle "'costAmount': 99.999, 'budgetAmount': 100").1 = Returned "below_budget".
Proof. vm_compute. reflexivity. Qed.
Example refuses_nan : sample_handle "'costAmount': NaN, 'budgetAmount': 100" =
  (Returned "invalid_notification", [Emit (quoted
    "{'action':'invalid_notification','billing_account_id':'A-1','budget_id':'b-2','component':'billing-breaker','message_id':'1042','project_id':'n8-memory-palace','reason':'non_finite_json_number:NaN','severity':'WARNING'}")]).
Proof. vm_compute. reflexivity. Qed.
Example prints_amounts :
  (str_of_decimal <$> decimal_of_text (lit "-0.0"), str_of_decimal <$> decimal_of_text (lit "0.0000001"),
   str_of_decimal <$> decimal_of_text (lit "123e3"), str_of_decimal <$> decimal_of_text (lit "12.50"))
  = (Some (lit "-0.0"), Some (lit "1E-7"), Some (lit "1.23E+5"), Some (lit "12.50")).
Proof. vm_compute. reflexivity. Qed.

Lemma breaker_log_reads_back_witness :
  let text := usd "'costAmount': 99.999, 'budgetAmount': 100" in
  ∃ line m, em_message_id m = lit "1042" ∧ Forall ascii_printable line ∧
    loads decimal_hooks line = Ok (TObj (text_field <$> sort_by key_leb (emission_record (lit "A-1") (lit "b-2") m))).
Proof.
  cbn zeta. eexists.
  destruct (breaker_log_reads_back
    (published (lit "A-1") (lit "b-2") (usd "'costAmount': 99.999, 'budgetAmount': 100"))
    (lit "A-1") (lit "b-2") quiet (quoted
    "{'action':'below_budget','billing_account_id':'A-1','budget_amount':'100','budget_id':'b-2','component':'billing-breaker','cost_amount':'99.999','message_id':'1042','project_id':'n8-memory-palace','severity':'INFO'}")
    ltac:(vm_compute; reflexivity) ltac:(vm_compute; reflexivity) ltac:(vm_compute; reflexivity)
    ltac:(intros e [He|(p & a & He)]; discriminate He)) as [Hp (m & Hm & Hl)].
  - apply list_elem_of_singleton. vm_compute. reflexivity.
  - exists m. split; [exact Hm|]. split; [exact Hp|exact Hl].
Defined.

