(* ===== verification/Deployment.v ===== *)
(** * The deployment checks of the circuit breaker ([infra/billing-breaker/deployment_checks.py])

    Every check reads one JSON document that [gcloud] printed and either
    passes, perhaps printing something, or refuses.  The documents are the
    [json] values of the reader; a refusal is [UnsafeDeployment] with the
    source's message without its interpolated values, and what Python would
    raise on the way (an unhashable set member, a decimal overflow) is kept as
    [PyError].  [str.casefold] is a Unicode table and a parameter. *)
From Stdlib Require Import SpecFloat.
From S2P Require Import Prelude PyStr PyFloat PyJson JsonText PyDecimal Catalog.
Open Scope Z_scope.

Inductive deploy_error :=
  | UnsafeDeployment (message : string)
  | PyError (e : pyexn).

Abbreviation checked A := (res deploy_error A).
Definition unsafe {A} (message : string) : checked A := Err (UnsafeDeployment message).
Definition check (b : bool) (message : string) : checked unit := guard_ b (UnsafeDeployment message).

(** [str.casefold]. *)
Class Casefold := { casefold : str → str }.
#[export] Instance ascii_casefold : Casefold := {| casefold := fmap ascii_lower_char |}.

(** ** Constants *)
Definition PROJECT_ID : str := lit "n8-memory-palace".
Definition PROJECT_RESOURCE : str := lit "projects/" ++ PROJECT_ID.
Definition PUBSUB_EVENT_TYPE : str := lit "google.cloud.pubsub.topic.v1.messagePublished".
Definition PUBLIC_MEMBERS : list str := [lit "allUsers"; lit "allAuthenticatedUsers"].
Definition DANGEROUS_PERMISSIONS : list str := lit <$> [
  "billing.accounts.close"; "billing.accounts.setIamPolicy"; "billing.budgets.update";
  "billing.resourcebudgets.write"; "billing.resourceAssociations.create"; "billing.resourceAssociations.delete";
  "cloudfunctions.functions.call"; "cloudfunctions.functions.setIamPolicy"; "cloudfunctions.functions.update";
  "eventarc.triggers.setIamPolicy"; "eventarc.triggers.update"; "iam.roles.create"; "iam.roles.update";
  "iam.roles.undelete"; "iam.serviceAccountKeys.create"; "iam.serviceAccountKeys.enable";
  "iam.serviceAccountKeys.upload"; "iam.serviceAccounts.actAs"; "iam.serviceAccounts.getAccessToken";
  "iam.serviceAccounts.getOpenIdToken"; "iam.serviceAccounts.implicitDelegation";
  "iam.serviceAccounts.setIamPolicy"; "iam.serviceAccounts.signBlob"; "iam.serviceAccounts.signJwt";
  "pubsub.subscriptions.setIamPolicy"; "pubsub.subscriptions.update"; "pubsub.topics.attachSubscription";
  "pubsub.topics.detachSubscription"; "pubsub.topics.publish"; "pubsub.topics.setIamPolicy";
  "pubsub.topics.update"; "resourcemanager.projects.createBillingAssignment";
  "resourcemanager.projects.deleteBillingAssignment"; "resourcemanager.projects.setIamPolicy";
  "run.routes.invoke"; "run.services.setIamPolicy"; "run.services.update"]%string.
Definition BILLING_ASSOCIATION_PERMISSIONS : list str := lit <$> [
  "billing.resourceAssociations.create"; "billing.resourceAssociations.delete";
  "resourcemanager.projects.createBillingAssignment"; "resourcemanager.projects.deleteBillingAssignment"]%string.
Definition RUNTIME_PROJECT_BILLING_PERMISSIONS : list str := lit <$> [
  "resourcemanager.projects.createBillingAssignment"; "resourcemanager.projects.deleteBillingAssignment"]%string.
Definition GOOGLE_SERVICE_AGENT_DOMAINS : list str := lit <$> [
  "compute-system.iam.gserviceaccount.com"; "containerregistry.iam.gserviceaccount.com";
  "gcf-admin-robot.iam.gserviceaccount.com"; "gcp-sa-artifactregistry.iam.gserviceaccount.com";
  "gcp-sa-cloudbuild.iam.gserviceaccount.com"; "gcp-sa-eventarc.iam.gserviceaccount.com";
  "gcp-sa-pubsub.iam.gserviceaccount.com"; "serverless-robot-prod.iam.gserviceaccount.com"]%string.
Definition BILLING_CONTROL_PERMISSIONS : list str := lit <$> [
  "billing.accounts.close"; "billing.accounts.setIamPolicy"; "billing.budgets.update";
  "billing.resourceAssociations.create"; "billing.resourceAssociations.delete";
  "billing.resourcebudgets.write"]%string.

(** ** Python on JSON values *)
Definition mapping (value : json) (message : string) : checked (list (str * json)) :=
  match value with JObj kv => Ok kv | _ => unsafe message end.
Definition sequence (value : json) (message : string) : checked (list json) :=
  match value with JList l => Ok l | _ => unsafe message end.

Definition get (k : string) (kv : list (str * json)) : json := jget_or_null (lit k) kv.
Definition get_or (k : string) (d : json) (kv : list (str * json)) : json := default d (aget (lit k) kv).

(** [v == s] for a string [s]. *)
Definition equals (s : str) (v : json) : bool :=
  match v with JStr t => bool_decide (t = s) | _ => false end.
(** [v == 0]: a zero of any numeric type, and [False]. *)
Definition equals_zero (v : json) : bool :=
  match v with JInt z => z =? 0 | JFloat f => feq f f0 | JBool b => negb b | _ => false end.

(** Lists and dicts do not hash. *)
Definition hashable (v : json) : bool := match v with JList _ | JObj _ => false | _ => true end.
Definition hashed (v : json) : checked json :=
  if hashable v then Ok v else Err (PyError (TypeError "unhashable type")).

(** [v in {...}] for a set of strings. *)
Definition in_set (v : json) (l : list str) : checked bool :=
  v ← hashed v; Ok (existsb (λ s, equals s v) l).

(** [set(l) == {s}]. *)
Definition set_is (l : list json) (s : str) : checked bool :=
  l ← res_map hashed l; Ok (negb (bool_decide (length l = 0%nat)) && forallb (equals s) l).

Definition strs (l : list str) : list str := remove_dups l.
Definition sorted_set (l : list str) : list str := sort_by str_leb (remove_dups l).
Definition mem_str (s : str) (l : list str) : bool := bool_decide (s ∈ l).

(** ** Billing and budget *)
Definition validate_billing_info (info : json) (billing_account_id : str) : checked unit :=
  record ← mapping info "billing info must be an object";
  check (equals (lit "billingAccounts/" ++ billing_account_id) (get "billingAccountName" record)
         && match get "billingEnabled" record with JBool true => true | _ => false end)
    "target project is not enabled on the expected billing account".

(** A parsed [Decimal] that is not finite. *)
Inductive special := Infinite (negative : bool) | QuietNaN | SignalingNaN.
Definition special_of (s : str) : special :=
  let '(sign, s) := take_sign (filter (λ c, c ≠ 95%N) (strip s)) in
  let s := ascii_lower_char <$> s in
  if startswith (lit "snan") s then SignalingNaN
  else if startswith (lit "nan") s then QuietNaN
  else Infinite (sign <? 0).

(** [Decimal(str(v))]; [None] is InvalidOperation. *)
Definition decimal_of_json (v : json) : option (special + dec) :=
  match v with
  | JInt z => Some (inr (dec_of_Z z))
  | JFloat S754_nan => Some (inl QuietNaN)
  | JFloat (S754_infinity s) => Some (inl (Infinite s))
  | JFloat f => inr <$> float_decimal f
  | JStr s =>
      match parse_decimal s with
      | Some (Some d) => Some (inr d)
      | Some None => Some (inl (special_of s))
      | None => None
      end
  | JNull | JBool _ | JList _ | JObj _ => None
  end.

(** [units + nanos / Decimal(1_000_000_000)]: [None] is a value that is not finite. *)
Definition malformed {A} : checked A := unsafe "existing budget amount is malformed".
Definition arithmetic {A} (r : res pyexn A) : checked A :=
  match r with
  | Ok a => Ok a
  | Err (DecimalException s) =>
      if bool_decide (s = "InvalidOperation"%string) then malformed else Err (PyError (DecimalException s))
  | Err e => Err (PyError e)
  end.
Definition money_value (units nanos : special + dec) : checked (option dec) :=
  nanos ← match nanos with
          | inl SignalingNaN => malformed
          | inl s => Ok (inl s)
          | inr n => q ← arithmetic (ctx_div DECIMAL_PREC n (dec_of_Z 1000000000)); Ok (inr q)
          end;
  match units, nanos with
  | inl SignalingNaN, _ => malformed
  | inl (Infinite a), inl (Infinite b) => if eqb a b then Ok None else malformed
  | inl _, _ | _, inl _ => Ok None
  | inr u, inr n => v ← arithmetic (ctx_add DECIMAL_PREC u n); Ok (Some v)
  end.

Definition specified_amount (budget : list (str * json)) : checked (option dec) :=
  amount ← mapping (get "amount" budget) "budget.amount must be an object";
  money ← mapping (get "specifiedAmount" amount) "budget specified amount must be an object";
  check (equals (lit "USD") (get "currencyCode" money)) "existing budget must use USD";;
  match decimal_of_json (get_or "units" (JStr (lit "0")) money),
        decimal_of_json (get_or "nanos" (JStr (lit "0")) money) with
  | Some units, Some nanos => money_value units nanos
  | _, _ => malformed
  end.

Definition narrowing_fields : list string :=
  ["creditTypes"; "labels"; "resourceAncestors"; "services"; "subaccounts"]%string.

Definition validate_budget (budget : json) (project_number expected_topic : str) : checked unit :=
  record ← mapping budget "budget must be an object";
  check (equals (lit "BILLING_ACCOUNT") (get "ownershipScope" record))
    "budget ownershipScope must be BILLING_ACCOUNT";;
  value ← specified_amount record;
  check match value with Some v => dec_eqb v (dec_of_Z 100) | None => false end
    "existing budget must be exactly USD 100.00";;
  budget_filter ← mapping (get "budgetFilter" record) "budget filter must be an object";
  projects ← sequence (get_or "projects" (JList []) budget_filter) "projects must be an array";
  check match projects with [p] => equals (lit "projects/" ++ project_number) p | _ => false end
    "budget projects must be exactly the target project";;
  check (equals (lit "MONTH") (get "calendarPeriod" budget_filter))
    "budget must use the recurring MONTH calendar period";;
  check (negb (py_truthy (get "customPeriod" budget_filter))) "budget must not use a custom period";;
  check (forallb (λ field, negb (py_truthy (get field budget_filter))) narrowing_fields)
    "budget must not narrow spend with a field";;
  let credit_treatment := get_or "creditTypesTreatment" (JStr []) budget_filter in
  check (equals [] credit_treatment || equals (lit "INCLUDE_ALL_CREDITS") credit_treatment)
    "budget creditTypesTreatment must be INCLUDE_ALL_CREDITS or absent";;
  rule ← mapping (get_or "notificationsRule" (JObj []) record) "notifications rule must be an object";
  check (equals expected_topic (get_or "pubsubTopic" (JStr []) rule))
    "budget notification topic does not match the required deployment phase";;
  allowed ← in_set (get_or "schemaVersion" (JStr []) rule)
              (if bool_decide (expected_topic = []) then [[]; lit "1.0"] else [lit "1.0"]);
  check allowed "budget notification schema must be one of the allowed".

(** ** IAM policies *)

(** [_mapping] and [_sequence] on the bindings of a policy. *)
Definition policy_bindings (policy : json) (what bindings : string) : checked (list json) :=
  record ← mapping policy what;
  sequence (get_or "bindings" (JList []) record) bindings.
Definition binding_members (binding : list (str * json)) (what : string) : checked (list json) :=
  sequence (get_or "members" (JList []) binding) what.

(** One binding of a role to one member, unconditional. *)
Definition sole_binding (binding : list (str * json)) (role member : str) (members : list json) : checked bool :=
  exact ← set_is members member;
  Ok (equals role (get "role" binding) && exact && negb (py_truthy (get "condition" binding))).

Definition validate_topic_policy (policy : json) (budget_publisher : str) : checked unit :=
  bindings ← policy_bindings policy "topic policy must be an object" "topic bindings must be an array";
  match bindings with
  | [value] =>
      binding ← mapping value "topic binding must be an object";
      members ← binding_members binding "topic members must be an array";
      ok ← sole_binding binding (lit "roles/pubsub.publisher") (lit "serviceAccount:" ++ budget_publisher) members;
      check ok "topic policy must grant unconditional Publisher only to the Cloud Billing budget publisher"
  | _ => unsafe "topic policy must contain exactly one direct binding for the budget publisher"
  end.

Definition validate_empty_policy (policy : json) : checked unit :=
  bindings ← policy_bindings policy "policy must be an object" "IAM bindings must be an array";
  check (bool_decide (length bindings = 0%nat)) "new resource unexpectedly has direct IAM bindings".

Definition nonempty_str (v : json) (message : string) : checked str :=
  match v with JStr ((_ :: _) as s) => Ok s | _ => unsafe message end.

(** The loop body of [project_bindings]: the members of a role accumulate. *)
Definition add_binding (combined : list (str * list str)) (value : json) : checked (list (str * list str)) :=
  binding ← mapping value "project binding must be an object";
  role ← nonempty_str (get "role" binding) "project binding role must be a non-empty string";
  members ← binding_members binding "project members must be an array";
  names ← res_map (λ m, nonempty_str m "project binding member must be a non-empty string") members;
  Ok (aset role (default [] (aget role combined) ++ names) combined).

Definition role_leb (p q : str * list str) : bool := str_leb p.1 q.1.

Definition project_bindings (policy : json) : checked (list (str * list str)) :=
  bindings ← policy_bindings policy "project policy must be an object" "project bindings must be an array";
  combined ← res_fold add_binding [] bindings;
  Ok ((λ p : str * list str, (p.1, sorted_set p.2)) <$> sort_by role_leb combined).

(** ** Who may hold what *)
Definition is_project_service_agent (member project_number : str) : bool :=
  let prefix := lit "serviceAccount:" in
  if startswith prefix member then
    let email := removeprefix prefix member in
    if mem_str email [project_number ++ lit "@cloudbuild.gserviceaccount.com";
                      project_number ++ lit "@cloudservices.gserviceaccount.com";
                      project_number ++ lit "-compute@developer.gserviceaccount.com";
                      PROJECT_ID ++ lit "@appspot.gserviceaccount.com"] then true
    else
      match split_once 64 email with
      | Some (local_part, domain) =>
          bool_decide (local_part = lit "service-" ++ project_number) &&
          (mem_str domain GOOGLE_SERVICE_AGENT_DOMAINS ||
           startswith (lit "gcp-sa-") domain && endswith (lit ".iam.gserviceaccount.com") domain)
      | None => false
      end
  else false.

Section access.
Context `{Casefold}.

Definition norm_member (value : str) : str :=
  match split_once 58 value with
  | Some (prefix, email) => prefix ++ [58%N] ++ casefold email
  | None => value ++ casefold []
  end.
Definition members_match (member trusted : str) : bool :=
  bool_decide (norm_member member = norm_member trusted).

(** [_role_permissions]; the set as a list. *)
Definition role_permissions (role : json) (role_name : str) : checked (list str) :=
  record ← mapping role "role definition must be an object";
  check (equals role_name (get "name" record)) "described role name does not match the IAM binding";;
  check match get "deleted" record with JBool true => false | _ => true end "bound role is deleted";;
  match aget (lit "includedPermissions") record with
  | None => unsafe "described role omitted includedPermissions"
  | Some raw =>
      raw_permissions ← sequence raw "included permissions must be an array";
      match mapM as_str raw_permissions with
      | Some permissions => Ok permissions
      | None => unsafe "role permissions must be strings"
      end
  end.

Definition both (l l' : list str) : list str := filter (λ s, mem_str s l' = true) l.

(** The members of a dangerous role that nothing excuses. *)
Definition excused (billing_danger : bool) (dangerous : list str)
    (role_name trusted_member runtime_member project_number : str) (runtime_should_exist : bool) (member : str) :
    bool :=
  members_match member trusted_member
  || billing_danger && runtime_should_exist && bool_decide (role_name = lit "roles/billing.projectManager")
     && bool_decide (member = runtime_member)
     && forallb (λ p, mem_str p RUNTIME_PROJECT_BILLING_PERMISSIONS) dangerous
  || negb billing_danger && is_project_service_agent member project_number.

Definition validate_role_access (role : json) (role_name : str) (members : list str)
    (trusted_member runtime_member project_number : str) (runtime_should_exist : bool) : checked unit :=
  permissions ← role_permissions role role_name;
  check (bool_decide (both members PUBLIC_MEMBERS = [])) "public project members are forbidden";;
  let dangerous := both permissions DANGEROUS_PERMISSIONS in
  if bool_decide (dangerous = []) then Ok tt
  else
    let billing_danger := negb (bool_decide (both permissions BILLING_ASSOCIATION_PERMISSIONS = [])) in
    check (forallb (excused billing_danger dangerous role_name trusted_member runtime_member project_number
                      runtime_should_exist) members)
      "untrusted direct members have breaker permissions".

Definition validate_billing_role_access (role : json) (role_name : str) (members : list str)
    (trusted_member : str) : checked unit :=
  permissions ← role_permissions role role_name;
  check (bool_decide (both members PUBLIC_MEMBERS = [])) "public billing-account members are forbidden";;
  if bool_decide (both permissions BILLING_CONTROL_PERMISSIONS = []) then Ok tt
  else check (forallb (λ m, members_match m trusted_member) members)
         "untrusted direct billing-account members have breaker permissions".
End access.

(** ** Exact bindings *)
Definition role_bindings (role : str) (values : list json) : checked (list (list (str * json))) :=
  bindings ← res_map (λ v, mapping v "project binding must be an object") values;
  Ok (filter (λ b, equals role (get "role" b) = true) bindings).

Definition validate_exact_project_role (policy : json) (role : str) (expected_member : option str) : checked unit :=
  values ← policy_bindings policy "project policy must be an object" "project bindings must be an array";
  bindings ← role_bindings role values;
  match expected_member with
  | None => check (bool_decide (length bindings = 0%nat)) "project role must be completely absent"
  | Some expected_member =>
      match bindings with
      | [binding] =>
          members ← binding_members binding "project members must be an array";
          exact ← set_is members expected_member;
          check (exact && negb (py_truthy (get "condition" binding)))
            "project role must grant only one unconditional member"
      | _ => unsafe "project role must have exactly one binding"
      end
  end.

Definition validate_run_policy (policy : json) (trigger_service_account : str) : checked unit :=
  bindings ← policy_bindings policy "Cloud Run policy must be an object" "Cloud Run bindings must be an array";
  match bindings with
  | [value] =>
      binding ← mapping value "Cloud Run binding must be an object";
      members ← binding_members binding "Cloud Run members must be an array";
      ok ← sole_binding binding (lit "roles/run.invoker") (lit "serviceAccount:" ++ trigger_service_account) members;
      check ok "Cloud Run policy must grant unconditional Invoker only to the D2 trigger"
  | _ => unsafe "Cloud Run policy must contain exactly one direct trigger binding"
  end.

(** [validate_project_role]: the loop stops at the first binding that grants. *)
Fixpoint role_found (role member : str) (should_exist : bool) (values : list json) : checked bool :=
  match values with
  | [] => Ok false
  | value :: values =>
      binding ← mapping value "project binding must be an object";
      if negb (equals role (get "role" binding)) then role_found role member should_exist values
      else
        members ← binding_members binding "project members must be an array";
        members ← res_map hashed members;
        if existsb (equals member) members && (negb should_exist || negb (py_truthy (get "condition" binding)))
        then Ok true else role_found role member should_exist values
  end.

Definition validate_project_role (policy : json) (role member : str) (should_exist : bool) : checked unit :=
  values ← policy_bindings policy "project policy must be an object" "project bindings must be an array";
  found ← role_found role member should_exist values;
  check (eqb found should_exist) "member must be present or absent in project role".

(** ** Resources *)
Fixpoint nested_field (value : json) (parts : list str) : checked json :=
  match parts with
  | [] => Ok value
  | part :: parts =>
      record ← mapping value "nested field must be an object";
      nested_field (jget_or_null part record) parts
  end.

Definition validate_absent_resources (resources : json) (field forbidden_value : str) : checked unit :=
  values ← sequence resources "resource list must be an array";
  fields ← res_map (λ value, record ← mapping value "resource must be an object";
                             nested_field (JObj record) (split_on 46 field)) values;
  check (negb (existsb (equals forbidden_value) fields)) "fresh deployment requires the value to be absent".

Definition subscription_name (value : json) : checked str :=
  name ← match value with
         | JStr s => Ok (JStr s)
         | _ => item ← mapping value "topic subscription must be an object"; Ok (get "name" item)
         end;
  match name with
  | JStr s =>
      match split_on 47 s with
      | [a; b; c; d] =>
          check (bool_decide (a = lit "projects") && negb (bool_decide (b = []))
                 && bool_decide (c = lit "subscriptions") && negb (bool_decide (d = [])))
            "malformed attached subscription name";;
          Ok s
      | _ => unsafe "malformed attached subscription name"
      end
  | _ => unsafe "topic subscription name must be a string"
  end.

Definition topic_subscription_names (document : json) : checked (list str) :=
  values ← match document with
           | JObj kv => sequence (get_or "subscriptions" (JList []) kv) "topic subscriptions must be an array"
           | _ => sequence document "topic subscriptions must be an array"
           end;
  names ← res_map subscription_name values;
  Ok (sorted_set names).

Definition validate_topic_subscriptions (document : json) (require_empty : bool) : checked (list str) :=
  names ← topic_subscription_names document;
  check (negb (require_empty && negb (bool_decide (names = [])))) "topic still has attached subscriptions";;
  Ok names.

Definition validate_single_topic_subscription (document : json) (project_id : str) : checked str :=
  names ← topic_subscription_names document;
  match names with
  | [name] =>
      check (startswith (lit "projects/" ++ project_id ++ lit "/subscriptions/") name)
        "armed topic must have exactly one target-project subscription";;
      Ok name
  | _ => unsafe "armed topic must have exactly one target-project subscription"
  end.

Definition validate_message_resource (resource : json) (expected_name : str) (expected_topic : option str) :
    checked unit :=
  record ← mapping resource "resource must be an object";
  check (equals expected_name (get "name" record)) "name does not match the requested resource";;
  check match expected_topic with Some topic => equals topic (get "topic" record) | None => true end
    "resource is not attached to the D2 topic";;
  transforms ← sequence (get_or "messageTransforms" (JList []) record) "message transforms must be an array";
  check (bool_decide (length transforms = 0%nat)) "resource must not contain message transforms".

(** ** Eventarc and the function *)

(** Whether an old trigger can reach a fresh resource. *)
Definition trigger_conflict (topic_resource function_resource run_service_name run_service_resource : str)
    (value : json) : checked bool :=
  trigger ← mapping value "Eventarc trigger must be an object";
  transport ← mapping (get_or "transport" (JObj []) trigger) "Eventarc transport must be an object";
  pubsub ← mapping (get_or "pubsub" (JObj []) transport) "Eventarc Pub/Sub transport must be an object";
  destination ← mapping (get_or "destination" (JObj []) trigger) "Eventarc destination must be an object";
  cloud_run ← mapping (get_or "cloudRun" (JObj []) destination)
                "Eventarc Cloud Run destination must be an object";
  if equals topic_resource (get "topic" pubsub) || equals function_resource (get "cloudFunction" destination)
  then Ok true
  else in_set (get "service" cloud_run) [run_service_name; run_service_resource].

Definition validate_eventarc_isolation (triggers : json)
    (topic_resource function_resource run_service_name run_service_resource : str) : checked unit :=
  values ← sequence triggers "Eventarc trigger list must be an array";
  conflicts ← res_map (trigger_conflict topic_resource function_resource run_service_name run_service_resource) values;
  check (negb (existsb id conflicts)) "old Eventarc triggers can reconnect to D2 resources".

Definition function_trigger_resource (function : json) (region : str) : checked str :=
  record ← mapping function "function must be an object";
  trigger ← mapping (get "eventTrigger" record) "function eventTrigger must be an object";
  let prefix := PROJECT_RESOURCE ++ lit "/locations/" ++ region ++ lit "/triggers/" in
  match get "trigger" trigger with
  | JStr s =>
      let rest := removeprefix prefix s in
      check (startswith prefix s && negb (mem_char 47 rest) && negb (bool_decide (rest = [])))
        "function Eventarc trigger resource is unexpected";;
      Ok s
  | _ => unsafe "function Eventarc trigger resource is unexpected"
  end.

(** The event filters as the dict the check compares. *)
Definition add_filter (filters : list (str * json)) (value : json) : checked (list (str * json)) :=
  event_filter ← mapping value "Eventarc event filter must be an object";
  match get "attribute" event_filter with
  | JStr attribute =>
      check (bool_decide (aget attribute filters = None) && negb (py_truthy (get_or "operator" (JStr []) event_filter)))
        "Eventarc event filters are malformed";;
      Ok (aset attribute (get "value" event_filter) filters)
  | _ => unsafe "Eventarc event filters are malformed"
  end.

Definition event_filters (raw_filters : json) : checked (list (str * json)) :=
  match raw_filters with
  | JObj kv => Ok kv
  | _ => values ← sequence raw_filters "Eventarc event filters must be an array"; res_fold add_filter [] values
  end.

Definition destination_of (destination : list (str * json))
    (function_resource run_service_name run_service_resource region : str) : checked unit :=
  match aget (lit "cloudFunction") destination with
  | Some function =>
      check (equals function_resource function && bool_decide (length destination = 1%nat))
        "Eventarc Cloud Function destination is unexpected"
  | None =>
      cloud_run ← mapping (get "cloudRun" destination) "Eventarc Cloud Run destination must be an object";
      check (forallb (λ p : str * json, bool_decide (p.1 = lit "cloudRun")) destination)
        "Eventarc destination union is unexpected";;
      service ← in_set (get "service" cloud_run) [run_service_name; run_service_resource];
      check service "Eventarc Cloud Run destination is unexpected";;
      check (equals region (get "region" cloud_run)) "Eventarc Cloud Run destination region is unexpected";;
      check (forallb (λ p : str * json, mem_str p.1 [lit "service"; lit "region"; lit "path"]) cloud_run)
        "Eventarc Cloud Run destination is unexpected";;
      path ← in_set (get_or "path" (JStr []) cloud_run) [[]; lit "/"];
      check path "Eventarc Cloud Run destination path is unexpected"
  end.

Definition healthy_condition (p : str * json) : checked unit :=
  match p.2 with
  | JBool true => Ok tt
  | value =>
      condition ← mapping value "Eventarc condition must be an object";
      let code := get_or "code" (JStr (lit "OK")) condition in
      check ((equals (lit "OK") code || equals_zero code) && negb (py_truthy (get_or "message" (JStr []) condition)))
        "Eventarc trigger condition is not healthy"
  end.

Record trigger_expectation := {
  te_name : str;
  te_topic_resource : str;
  te_subscription_resource : str;
  te_trigger_service_account : str;
  te_function_resource : str;
  te_run_service_name : str;
  te_run_service_resource : str;
  te_region : str;
}.

Definition validate_eventarc_trigger (trigger : json) (x : trigger_expectation) : checked unit :=
  record ← mapping trigger "Eventarc trigger must be an object";
  check (equals (te_name x) (get "name" record)) "Eventarc trigger name does not match the function";;
  filters ← event_filters (get "eventFilters" record);
  check match filters with
        | [(k, v)] => bool_decide (k = lit "type") && equals PUBSUB_EVENT_TYPE v
        | _ => false
        end "Eventarc trigger event filters are unexpected";;
  check (equals (te_trigger_service_account x) (get "serviceAccount" record))
    "Eventarc trigger service account is unexpected";;
  transport ← mapping (get "transport" record) "Eventarc transport must be an object";
  pubsub ← mapping (get "pubsub" transport) "Eventarc Pub/Sub transport must be an object";
  check (equals (te_topic_resource x) (get "topic" pubsub)) "Eventarc transport topic is unexpected";;
  check (equals (te_subscription_resource x) (get "subscription" pubsub))
    "Eventarc transport subscription is unexpected";;
  destination ← mapping (get "destination" record) "Eventarc destination must be an object";
  destination_of destination (te_function_resource x) (te_run_service_name x) (te_run_service_resource x)
    (te_region x);;
  conditions ← mapping (get_or "conditions" (JObj []) record) "Eventarc conditions must be an object";
  res_map healthy_condition conditions;;
  Ok tt.

Record function_expectation := {
  fe_runtime_service_account : str;
  fe_trigger_service_account : str;
  fe_build_service_account_resource : str;
  fe_topic_resource : str;
  fe_expected_billing_account_id : str;
  fe_expected_budget_id : str;
  fe_region : str;
}.

Definition validate_function (function : json) (x : function_expectation) : checked unit :=
  record ← mapping function "function must be an object";
  check (equals (lit "GEN_2") (get "environment" record)) "function environment must be GEN_2";;
  check (equals (lit "ACTIVE") (get "state" record)) "function state must be ACTIVE";;
  service ← mapping (get "serviceConfig" record) "function serviceConfig must be an object";
  check (equals (fe_runtime_service_account x) (get "serviceAccountEmail" service))
    "function runtime service account is unexpected";;
  environment ← mapping (get "environmentVariables" service)
                  "function serviceConfig.environmentVariables must be an object";
  check (equals (fe_expected_billing_account_id x) (get "EXPECTED_BILLING_ACCOUNT_ID" environment))
    "function environment variable EXPECTED_BILLING_ACCOUNT_ID is unexpected";;
  check (equals (fe_expected_budget_id x) (get "EXPECTED_BUDGET_ID" environment))
    "function environment variable EXPECTED_BUDGET_ID is unexpected";;
  build ← mapping (get "buildConfig" record) "function buildConfig must be an object";
  check (equals (fe_build_service_account_resource x) (get "serviceAccount" build))
    "function build service account is unexpected";;
  check (equals (lit "python312") (get "runtime" build)) "function runtime must be python312";;
  check (equals (lit "stop_billing") (get "entryPoint" build)) "function entry point must be stop_billing";;
  trigger ← mapping (get "eventTrigger" record) "function eventTrigger must be an object";
  check (equals PUBSUB_EVENT_TYPE (get "eventType" trigger)) "function eventTrigger.eventType is unexpected";;
  check (equals (fe_topic_resource x) (get "pubsubTopic" trigger)) "function eventTrigger.pubsubTopic is unexpected";;
  check (equals (lit "RETRY_POLICY_DO_NOT_RETRY") (get "retryPolicy" trigger))
    "function eventTrigger.retryPolicy is unexpected";;
  check (equals (fe_trigger_service_account x) (get "serviceAccountEmail" trigger))
    "function eventTrigger.serviceAccountEmail is unexpected";;
  check (equals (fe_region x) (get "triggerRegion" trigger)) "function eventTrigger.triggerRegion is unexpected";;
  function_trigger_resource (JObj record) (fe_region x);;
  Ok tt.

(** ** The command line ([main]) *)

(** [_json_stdin]; a number that [int] refuses is a plain ValueError. *)
Definition read_json (text message : string) (raw : str) : checked json :=
  match json_loads raw with
  | Ok v => Ok v
  | Err JSONDecodeError => unsafe message
  | Err (HookError e) => Err (PyError e)
  | Err OutOfFuel => Err (PyError (ValueError text))
  end.
Definition json_stdin (raw : str) : checked json :=
  read_json "stdin" "gcloud did not return valid JSON" raw.

(** [_members_argument]. *)
Definition members_argument (value : str) : checked (list str) :=
  members ← read_json "members" "project binding members argument is not JSON" value;
  values ← sequence members "project binding members must be an array";
  res_map (λ m, nonempty_str m "project binding members must be non-empty strings") values.

Inductive subscription_state := sub_list | sub_empty | sub_single.

(** The parsed arguments, a constructor per subcommand; [argparse] refuses
    any other command line. *)
Inductive check_args :=
  | c_billing (billing_account_id : str)
  | c_budget (project_number expected_topic : str)
  | c_topic_policy (budget_publisher : str)
  | c_empty_policy (resource : str)
  | c_project_bindings
  | c_role_access (role_name members_json trusted_member runtime_member project_number : str) (runtime_present : bool)
  | c_billing_role_access (role_name members_json trusted_member : str)
  | c_exact_project_role (role : str) (member : option str) (exact : bool)
  | c_absent (field value : str)
  | c_eventarc_isolation (topic_resource function_resource run_service_name run_service_resource : str)
  | c_topic_subscriptions (state : subscription_state) (project_id : option str)
  | c_message_resource (resource_label expected_name : str) (expected_topic : option str)
  | c_function_trigger (region : str)
  | c_eventarc_trigger (x : trigger_expectation)
  | c_run_policy (trigger_service_account : str)
  | c_function (x : function_expectation)
  | c_project_role (role member : str) (present : bool).

Definition newline : str := [10%N].
Definition printed (line : str) : str := line ++ newline.

(** A row of [project-bindings]. *)
Definition binding_row (p : str * list str) : str := printed (p.1 ++ [9%N] ++ dumps_list p.2).

(** [not args.member]: an option left out or empty. *)
Definition given (o : option str) : bool := match o with Some (_ :: _) => true | _ => false end.

Section main.
Context `{Casefold}.

(** What the check prints when it passes. *)
Definition run_check (a : check_args) (document : json) : checked str :=
  let silent (r : checked unit) : checked str := r;; Ok [] in
  match a with
  | c_billing account => silent (validate_billing_info document account)
  | c_budget number topic => silent (validate_budget document number topic)
  | c_topic_policy publisher => silent (validate_topic_policy document publisher)
  | c_empty_policy _ => silent (validate_empty_policy document)
  | c_project_bindings => rows ← project_bindings document; Ok (rows ≫= binding_row)
  | c_role_access role members trusted runtime number present =>
      members ← members_argument members;
      silent (validate_role_access document role members trusted runtime number present)
  | c_billing_role_access role members trusted =>
      members ← members_argument members;
      silent (validate_billing_role_access document role members trusted)
  | c_exact_project_role role member exact =>
      check (negb (exact && negb (given member))) "exact project role validation requires --member";;
      check (negb (negb exact && given member)) "absent project role validation forbids --member";;
      silent (validate_exact_project_role document role (if exact then member else None))
  | c_absent field value => silent (validate_absent_resources document field value)
  | c_eventarc_isolation topic function name service =>
      silent (validate_eventarc_isolation document topic function name service)
  | c_topic_subscriptions sub_single project_id =>
      match project_id with
      | Some ((_ :: _) as project_id) =>
          name ← validate_single_topic_subscription document project_id; Ok (printed name)
      | _ => unsafe "single topic subscription validation requires --project-id"
      end
  | c_topic_subscriptions state project_id =>
      check (negb (given project_id)) "--project-id is only valid for single subscription state";;
      names ← validate_topic_subscriptions document (match state with sub_empty => true | _ => false end);
      Ok (match state with sub_list => printed (join newline names) | _ => [] end)
  | c_message_resource _ name topic => silent (validate_message_resource document name topic)
  | c_function_trigger region => name ← function_trigger_resource document region; Ok (printed name)
  | c_eventarc_trigger x => silent (validate_eventarc_trigger document x)
  | c_run_policy account => silent (validate_run_policy document account)
  | c_function x => silent (validate_function document x)
  | c_project_role role member present => silent (validate_project_role document role member present)
  end.

(** How the process ends: an exit code with what it printed, or a traceback. *)
Inductive outcome :=
  | Exit (code : Z) (stdout : str)
  | Traceback (e : deploy_error).

(** [main]: the document is read before the guarded block. *)
Definition main (a : check_args) (stdin : str) : outcome :=
  match json_stdin stdin with
  | Err e => Traceback e
  | Ok document =>
      match run_check a document with
      | Ok stdout => Exit 0 stdout
      | Err (UnsafeDeployment _) => Exit 1 []
      | Err e => Traceback e
      end
  end.

(** ** [check_project_access] of [deploy.sh]: every row of the project policy is
    checked against the current definition of its role, and the first refusal
    stops the script.  [describe] is [gcloud iam roles describe]. *)
Definition check_project_access (describe : str → str) (policy : str)
    (trusted_member runtime_member project_number : str) (runtime_present : bool) : bool :=
  match json_stdin policy with
  | Err _ => false
  | Ok document =>
      match project_bindings document with
      | Err _ => false
      | Ok rows =>
          forallb (λ row : str * list str,
            match main (c_role_access row.1 (dumps_list row.2) trusted_member runtime_member project_number
                          runtime_present) (describe row.1) with
            | Exit 0 _ => true
            | _ => false
            end) rows
      end
  end.
End main.
