(* ===== verification/DeploymentFacts.v ===== *)
(** * The access audit of a deployment is sound and complete *)
From S2P Require Import Prelude PyStr PyFloat PyJson JsonText JsonFacts PyDecimal Deployment.
Open Scope Z_scope.

(** ** What a policy document grants *)
Definition bindings_in (document : json) : list json :=
  match document with
  | JObj kv => match get_or "bindings" (JList []) kv with JList l => l | _ => [] end
  | _ => []
  end.
Definition binds (value : json) (role : str) (b : list (str * json)) : Prop :=
  value = JObj b ∧ get "role" b = JStr role.
Definition bound (document : json) (role : str) : Prop :=
  ∃ value b, value ∈ bindings_in document ∧ binds value role b.
Definition member_of (b : list (str * json)) (member : str) : Prop :=
  ∃ l, get_or "members" (JList []) b = JList l ∧ JStr member ∈ l.
Definition granted (document : json) (role member : str) : Prop :=
  ∃ value b, value ∈ bindings_in document ∧ binds value role b ∧ member_of b member.

(** ** The rows [project-bindings] prints *)
Lemma nonempty_str_Ok v message s : nonempty_str v message = Ok s → v = JStr s ∧ s ≠ [].
Proof. destruct v as [| | | |[]| |]; cbn; try done. by intros [= <-]. Qed.

Lemma names_spec l names :
  res_map (λ m, nonempty_str m "project binding member must be a non-empty string") l = Ok names →
  ∀ m, m ∈ names ↔ JStr m ∈ l.
Proof.
  intros H%res_map_Forall2. induction H as [|v s l names Hv _ IH]; [set_solver|].
  apply nonempty_str_Ok in Hv as [-> _]. intros m. rewrite !elem_of_cons, IH. naive_solver.
Qed.

Lemma add_binding_spec combined value combined' :
  add_binding combined value = Ok combined' →
  ∃ role b names, binds value role b ∧ (∀ m, m ∈ names ↔ member_of b m) ∧
    combined' = aset role (default [] (aget role combined) ++ names) combined.
Proof.
  unfold add_binding. intros (b & Hb & H)%bind_Ok. destruct value; try done. cbn in Hb. injection Hb as ->.
  apply bind_Ok in H as (role & Hr & H). apply nonempty_str_Ok in Hr as [Hr _].
  apply bind_Ok in H as (members & Hm & H). apply bind_Ok in H as (names & Hn & [= <-]).
  exists role, b, names. split; [done|]. split; [|done].
  unfold binding_members, sequence in Hm. intros m. rewrite (names_spec _ _ Hn). unfold member_of.
  destruct (get_or "members" (JList []) b) eqn:E; try done. injection Hm as ->.
  split; [eauto|]. by intros (l & [= ->] & ?).
Qed.

Lemma combined_spec values combined combined' :
  NoDup combined.*1 → res_fold add_binding combined values = Ok combined' →
  NoDup combined'.*1 ∧
  (∀ role, role ∈ combined'.*1 ↔ role ∈ combined.*1 ∨ ∃ value b, value ∈ values ∧ binds value role b) ∧
  (∀ role m, m ∈ default [] (aget role combined') ↔ m ∈ default [] (aget role combined) ∨
     ∃ value b, value ∈ values ∧ binds value role b ∧ member_of b m).
Proof.
  revert combined. induction values as [|v values IH]; intros combined Hnd H; cbn in H.
  { injection H as <-. split_and!; [done|..]; set_solver. }
  apply bind_Ok in H as (mid & Hv & H). apply add_binding_spec in Hv as (role & b & names & Hb & Hnames & ->).
  assert (Hkeys : ∀ r, r ∈ (aset role (default [] (aget role combined) ++ names) combined).*1 ↔
    r = role ∨ r ∈ combined.*1).
  { intros r. destruct (aget role combined) as [ms|] eqn:E.
    - rewrite aset_keys by eauto. apply aget_Some_elem in E. split; [by right|].
      intros [->|?]; [|done]. by apply (list_elem_of_fmap_2 fst) in E.
    - apply aget_None in E. rewrite aset_fresh, fmap_app by done. cbn. set_solver. }
  apply IH in H as (Hnd' & Hk & Hm).
  - split; [done|]. split.
    + intros r. rewrite Hk, Hkeys. split.
      * intros [[->|?]|(v' & b' & ? & ?)]; [right; exists v, b; set_solver|by left|right; exists v', b'; set_solver].
      * intros [?|(v' & b' & [->|?]%elem_of_cons & Hb')]; [by left; right| |right; eauto].
        left. left. destruct Hb as [-> Hr], Hb' as [[= ->] Hr']. rewrite Hr in Hr'. by injection Hr' as ->.
    + intros r m. rewrite Hm. destruct (decide (r = role)) as [->|Hne].
      * rewrite aget_aset_eq. cbn. rewrite elem_of_app, Hnames. split.
        -- intros [[?|?]|(v' & b' & ? & ? & ?)]; [by left|right; exists v, b; set_solver|right; exists v', b'; set_solver].
        -- intros [?|(v' & b' & [->|?]%elem_of_cons & Hb' & ?)]; [by left; left| |right; eauto].
           left. right. destruct Hb as [-> _], Hb' as [[= ->] _]. done.
      * rewrite aget_aset_ne by done. split.
        -- intros [?|(v' & b' & ? & ? & ?)]; [by left|right; exists v', b'; split_and!; [by right|done..]].
        -- intros [?|(v' & b' & [->|?]%elem_of_cons & Hb' & ?)]; [by left| |right; eauto].
           destruct Hb as [-> Hr], Hb' as [[= ->] Hr']. congruence.
  - destruct (aget role combined) as [ms|] eqn:E; [by rewrite aset_keys by eauto|].
    apply aget_None in E. rewrite aset_fresh, fmap_app by done. apply NoDup_app.
    split_and!; [done|set_solver|cbn; apply NoDup_singleton].
Qed.

Lemma sorted_set_elem l m : m ∈ sorted_set l ↔ m ∈ l.
Proof. unfold sorted_set. by rewrite (sort_by_perm str_leb), elem_of_remove_dups. Qed.

Lemma bindings_read document bindings :
  policy_bindings document "project policy must be an object" "project bindings must be an array" = Ok bindings →
  bindings_in document = bindings.
Proof.
  unfold policy_bindings, bindings_in. intros (kv & Hkv & H)%bind_Ok. destruct document; try done.
  cbn in Hkv. injection Hkv as ->. unfold sequence in H. destruct (get_or _ _ kv); try done. by injection H.
Qed.

(** A row per bound role, with exactly the members it is granted to. *)
Lemma project_bindings_spec document rows :
  project_bindings document = Ok rows →
  (∀ role, role ∈ rows.*1 ↔ bound document role) ∧
  (∀ role members, (role, members) ∈ rows → ∀ m, m ∈ members ↔ granted document role m).
Proof.
  unfold project_bindings. intros (bindings & Hb & H)%bind_Ok. apply bind_Ok in H as (combined & Hc & [= <-]).
  apply bindings_read in Hb. apply combined_spec in Hc as (Hnd & Hk & Hm); [|constructor].
  set (f := λ p : str * list str, (p.1, sorted_set p.2)).
  assert (Hf : (f <$> sort_by role_leb combined).*1 = (sort_by role_leb combined).*1).
  { rewrite <- list_fmap_compose. by apply list_fmap_ext. }
  split.
  - intros role. rewrite Hf, (sort_by_perm role_leb combined), Hk. unfold bound. rewrite Hb. set_solver.
  - intros role members H m. apply list_elem_of_fmap in H as ([r ms] & [= -> ->] & Hin). cbn.
    rewrite (sort_by_perm role_leb) in Hin. apply (aget_elem r ms) in Hin; [|done].
    rewrite sorted_set_elem. specialize (Hm r m). rewrite Hin in Hm. cbn in Hm. rewrite Hm.
    unfold granted. rewrite Hb. set_solver.
Qed.

(** ** The members travel to the next check as a JSON argument *)
Lemma members_argument_dumps (members : list str) :
  Forall scalars members → Forall (λ m, m ≠ []) members → members_argument (dumps_list members) = Ok members.
Proof.
  intros Hs Hne. unfold members_argument, read_json, json_loads. rewrite (loads_dumps_list python_hooks members Hs).
  cbn. clear Hs. induction Hne as [|m l Hm _ IH]; [done|]. cbn.
  destruct m; [done|]. cbn. cbn in IH. by rewrite IH.
Qed.

(** The checked bindings hold non-empty member names only. *)
Lemma member_nonempty values acc acc' value b role m :
  res_fold add_binding acc values = Ok acc' → value ∈ values → binds value role b → member_of b m → m ≠ [].
Proof.
  revert acc. induction values as [|v values IH]; intros acc H Hin Hb (l & Hl & Hm); [by apply elem_of_nil in Hin|].
  cbn in H. apply bind_Ok in H as (mid & Hv & H). apply elem_of_cons in Hin as [->|Hin]; [|eapply IH; eauto; by exists l].
  destruct Hb as [-> _]. unfold add_binding in Hv. cbn in Hv. apply bind_Ok in Hv as (r & _ & Hv).
  unfold binding_members in Hv. rewrite Hl in Hv. cbn in Hv. apply bind_Ok in Hv as (names & Hn & _).
  apply res_map_Forall2 in Hn. apply list_elem_of_lookup in Hm as [i Hi].
  destruct (Forall2_lookup_l _ _ _ _ _ Hn Hi) as (y & _ & Hy). apply nonempty_str_Ok in Hy as [[= ->] Hy]. done.
Qed.

Lemma rows_nonempty document rows role members m :
  project_bindings document = Ok rows → (role, members) ∈ rows → m ∈ members → m ≠ [].
Proof.
  intros H Hin Hm. pose proof (project_bindings_spec _ _ H) as [_ Hg].
  apply (Hg _ _ Hin) in Hm as (value & b & Hv & Hb & Hmem).
  unfold project_bindings in H. apply bind_Ok in H as (bindings & Hbs & H). apply bind_Ok in H as (combined & Hc & _).
  apply bindings_read in Hbs. rewrite Hbs in Hv. by eapply member_nonempty.
Qed.

(** ** Who may hold a dangerous permission *)
Section access.
Context `{Casefold}.

(** The permissions of a role, read from its current description. *)
Definition described (describe : str → str) (role : str) (permissions : list str) : Prop :=
  ∃ document, json_stdin (describe role) = Ok document ∧ role_permissions document role = Ok permissions.

(** A member may hold a role: it is not public, and it is the deployer, or the
    armed runtime in its one role, or a Google-managed agent of the project in
    a role without billing association, or the role has nothing dangerous. *)
Definition safe (trusted runtime number : str) (runtime_present : bool) (permissions : list str)
    (role member : str) : Prop :=
  (member ∉ PUBLIC_MEMBERS) ∧
  ((∀ p, p ∈ permissions → p ∉ DANGEROUS_PERMISSIONS) ∨
   members_match member trusted = true ∨
   (runtime_present = true ∧ role = lit "roles/billing.projectManager" ∧ member = runtime ∧
    (∃ p, p ∈ permissions ∧ p ∈ BILLING_ASSOCIATION_PERMISSIONS) ∧
    ∀ p, p ∈ permissions → p ∈ DANGEROUS_PERMISSIONS → p ∈ RUNTIME_PROJECT_BILLING_PERMISSIONS) ∨
   (is_project_service_agent member number = true ∧
    ∀ p, p ∈ permissions → p ∉ BILLING_ASSOCIATION_PERMISSIONS)).

Lemma elem_of_both l l' p : p ∈ both l l' ↔ p ∈ l ∧ p ∈ l'.
Proof. unfold both, mem_str. rewrite list_elem_of_filter, bool_decide_eq_true. tauto. Qed.

Lemma both_nil l l' : both l l' = [] ↔ ∀ p, p ∈ l → p ∉ l'.
Proof.
  split; [intros E p Hp Hp'|intros Hn].
  - assert (p ∈ both l l') as Hin by (by apply elem_of_both). rewrite E in Hin. by apply elem_of_nil in Hin.
  - destruct (both l l') as [|p r] eqn:E; [done|].
    assert (p ∈ both l l') as [? ?]%elem_of_both by (rewrite E; by left). by destruct (Hn p).
Qed.

Lemma excused_spec permissions trusted runtime number present role m :
  both permissions DANGEROUS_PERMISSIONS ≠ [] → m ∉ PUBLIC_MEMBERS →
  excused (negb (bool_decide (both permissions BILLING_ASSOCIATION_PERMISSIONS = [])))
    (both permissions DANGEROUS_PERMISSIONS) role trusted runtime number present m = true ↔
  safe trusted runtime number present permissions role m.
Proof.
  intros Hd Hpub. unfold excused, safe. rewrite !orb_true_iff, !andb_true_iff, negb_involutive, !bool_decide_eq_true.
  rewrite forallb_forall, negb_true_iff, bool_decide_eq_false, (both_nil permissions BILLING_ASSOCIATION_PERMISSIONS).
  assert (Hne : ¬ (∀ p, p ∈ permissions → p ∉ BILLING_ASSOCIATION_PERMISSIONS) ↔
    ∃ p, p ∈ permissions ∧ p ∈ BILLING_ASSOCIATION_PERMISSIONS).
  { rewrite <- both_nil. destruct (both permissions BILLING_ASSOCIATION_PERMISSIONS) as [|p r] eqn:E.
    - split; [done|]. intros (p & Hp & Hp') _. rewrite both_nil in E. by destruct (E p).
    - split; [|done]. intros _. exists p. apply elem_of_both. rewrite E. by left. }
  rewrite Hne. rewrite both_nil in Hd.
  assert (Hin : (∀ x, In x (both permissions DANGEROUS_PERMISSIONS) → mem_str x RUNTIME_PROJECT_BILLING_PERMISSIONS = true)
    ↔ ∀ p, p ∈ permissions → p ∈ DANGEROUS_PERMISSIONS → p ∈ RUNTIME_PROJECT_BILLING_PERMISSIONS).
  { unfold mem_str. setoid_rewrite bool_decide_eq_true. split.
    - intros Hx p ? ?. apply Hx, list_elem_of_In, elem_of_both. done.
    - intros Hx p [? ?]%list_elem_of_In%elem_of_both. by apply Hx. }
  rewrite Hin. tauto.
Qed.

(** A passed check of one role is safety of all its members. *)
Lemma role_access_spec document role members trusted runtime number present permissions :
  role_permissions document role = Ok permissions →
  validate_role_access document role members trusted runtime number present = Ok tt ↔
  ∀ m, m ∈ members → safe trusted runtime number present permissions role m.
Proof.
  intros Hp. unfold validate_role_access. rewrite Hp. cbn [mbind res_bind]. unfold check.
  destruct (bool_decide (both members PUBLIC_MEMBERS = [])) eqn:Epub; cbn [guard_ mbind res_bind].
  2: { split; [done|]. intros Hs. apply bool_decide_eq_false in Epub. destruct Epub. apply both_nil.
       intros m Hm. by destruct (Hs m Hm). }
  apply bool_decide_eq_true in Epub. rewrite both_nil in Epub.
  destruct (bool_decide (both permissions DANGEROUS_PERMISSIONS = [])) eqn:Ed.
  - apply bool_decide_eq_true in Ed. rewrite both_nil in Ed. split; [|done].
    intros _ m Hm. split; [by apply Epub|by left].
  - apply bool_decide_eq_false in Ed. rewrite guard_Ok, forallb_forall. split.
    + intros Hall m Hm. apply excused_spec; [done|by apply Epub|]. apply Hall. by apply list_elem_of_In.
    + intros Hs m Hm%list_elem_of_In. apply excused_spec; [done|by apply Epub|by apply Hs].
Qed.

(** C14: The access audit of the deployment is sound and complete: it passes exactly
    when the policy is well formed, every role it binds has a readable current
    definition, and every member the policy grants a role to is safe to hold
    the permissions of that role, however the bindings of a role are split.
    The members travel from one check to the next as a JSON argument and are
    read back unchanged. *)
Theorem access_audit (describe : str → str) (policy trusted runtime number : str) (present : bool)
  (Hplain : ∀ document role m, json_stdin policy = Ok document → granted document role m → scalars m) :
  check_project_access describe policy trusted runtime number present = true ↔
  ∃ document, json_stdin policy = Ok document ∧ is_ok (project_bindings document) = true ∧
    ∀ role, bound document role → ∃ permissions, described describe role permissions ∧
      ∀ m, granted document role m → safe trusted runtime number present permissions role m.
Proof.
  unfold check_project_access. destruct (json_stdin policy) as [document|e]; [|split; [done|by intros (? & ? & _)]].
  specialize (λ role m, Hplain document role m eq_refl).
  destruct (project_bindings document) as [rows|e] eqn:Erows;
    [|split; [done|]; intros (d & [= <-] & Hok & _); by rewrite Erows in Hok].
  pose proof (project_bindings_spec _ _ Erows) as [Hroles Hmembers].
  assert (Hrow : ∀ role members, (role, members) ∈ rows →
    (match main (c_role_access role (dumps_list members) trusted runtime number present) (describe role) with
     | Exit 0 _ => true | _ => false end = true ↔
     ∃ permissions, described describe role permissions ∧
       ∀ m, m ∈ members → safe trusted runtime number present permissions role m)).
  { intros role members Hin. unfold main, described.
    destruct (json_stdin (describe role)) as [rd|e]; [|split; [done|by intros (? & (? & ? & _) & _)]].
    cbn [run_check]. rewrite members_argument_dumps.
    2: { apply Forall_forall. intros m Hm. eapply Hplain. by apply (Hmembers role members). }
    2: { apply Forall_forall. intros m Hm. by eapply rows_nonempty. }
    cbn [mbind res_bind].
    destruct (role_permissions rd role) as [perms|e] eqn:Ep.
    - pose proof (role_access_spec rd role members trusted runtime number present perms Ep) as Hs.
      destruct (validate_role_access _ _ _ _ _ _ _) as [[]|e]; cbn.
      + split; [|done]. intros _. exists perms. split; [by exists rd|]. by apply Hs.
      + split; [by destruct e|]. intros (perms' & (rd' & [= <-] & Ep') & Hall). rewrite Ep in Ep'. injection Ep' as <-.
        by apply Hs in Hall.
    - unfold validate_role_access. rewrite Ep. cbn. split; [by destruct e|].
      intros (perms' & (rd' & [= <-] & Ep') & _). congruence. }
  rewrite forallb_forall. split.
  - intros Hall. exists document. rewrite Erows. split_and!; [done..|]. intros role Hb.
    apply Hroles, list_elem_of_fmap in Hb as ([r members] & -> & Hin). cbn.
    destruct (proj1 (Hrow r members Hin)) as (perms & Hd & Hs); [by apply (Hall (r, members)), list_elem_of_In|].
    exists perms. split; [done|]. intros m Hm. apply Hs. by apply (Hmembers r members).
  - intros (? & [= <-] & _ & Hall) [role members] Hin%list_elem_of_In. cbn [fst snd]. apply (Hrow role members Hin).
    destruct (Hall role) as (perms & Hd & Hs); [apply Hroles; by apply (list_elem_of_fmap_2 fst) in Hin|].
    exists perms. split; [done|]. intros m Hm. apply Hs. by apply (Hmembers role members).
Qed.
End access.

(** ** Samples *)
Definition sample_policy : str := quoted
  "{'bindings': [{'role': 'roles/run.admin', 'members': ['user:Ann@x.org', 'serviceAccount:77-compute@developer.gserviceaccount.com']}, {'role': 'roles/run.admin', 'members': ['user:ann@x.org']}]}".
Definition sample_role (permission : string) (_ : str) : str :=
  quoted "{'name': 'roles/run.admin', 'includedPermissions': ['" ++ lit permission ++ quoted "', 'run.services.get']}".
Definition sample_audit (permission : string) : bool :=
  check_project_access (sample_role permission) sample_policy (lit "user:ann@x.org") (lit "serviceAccount:breaker")
    (lit "77") false.

Example sample_audit_passes : sample_audit "run.services.update" = true.
Proof. vm_compute. reflexivity. Qed.
Example sample_audit_refuses : sample_audit "billing.resourceAssociations.delete" = false.
Proof. vm_compute. reflexivity. Qed.

Lemma access_audit_witness :
  ∃ document, json_stdin sample_policy = Ok document ∧ is_ok (project_bindings document) = true ∧
    ∀ role, bound document role → ∃ permissions,
      described (sample_role "run.services.update") role permissions ∧
      ∀ m, granted document role m →
        safe (lit "user:ann@x.org") (lit "serviceAccount:breaker") (lit "77") false permissions role m.
Proof.
  apply (access_audit (sample_role "run.services.update") sample_policy); [|vm_compute; reflexivity].
  intros document role m Hdoc (value & b & Hv & [-> _] & (l & Hl & Hm)). vm_compute in Hdoc. injection Hdoc as <-.
  apply list_elem_of_In in Hv. vm_compute in Hv.
  destruct Hv as [[= <-]|[[= <-]|[]]]; vm_compute in Hl; injection Hl as <-; apply list_elem_of_In in Hm;
    vm_compute in Hm; destruct_or?; simplify_eq; vm_compute; reflexivity.
Defined.
