(* ===== verification/Transcripts.v ===== *)
(** * Transcript backup: [src/src/spine/transcripts]

    An owner's conversation journals are copied line by line into one
    append-only table, keyed by principal, thread and sequence number.  A
    request is one transaction under an advisory lock of its principal, so the
    requests of a principal run one after the other.  SHA-256 is a parameter;
    so is [datetime.fromisoformat], of which only whether a text is an aware
    timestamp matters here. *)
From S2P Require Import Prelude PyStr PyFloat PyJson JsonText JsonFacts Ids Store Queue.
Open Scope Z_scope.

Class IsoDatetime := { aware_timestamp : str → bool }.

(** ** Contracts ([transcripts/contracts.py]) *)
Record TranscriptRecordInput := {
  tr_thread_id : uuid;
  tr_sequence : Z;
  tr_journal_line : str;
  tr_sha256 : str;
}.

Record AppendTranscriptsRequest := {
  ar_principal_id : str;
  ar_records : list TranscriptRecordInput;
}.

Definition hex_char (c : N) : bool := is_digit c || ((97 <=? c) && (c <=? 102))%N.

Section contracts.
Context `{Sha256} `{IsoDatetime}.

(** [exact_valid_journal_line] with the field constraints. *)
Definition record_valid (r : TranscriptRecordInput) : bool :=
  (0 <? tr_sequence r)
  && bool_decide (length (tr_sha256 r) = 64%nat) && forallb hex_char (tr_sha256 r)
  && negb (mem_char 10 (tr_journal_line r)) && negb (mem_char 13 (tr_journal_line r))
  && forallb scalar_value (tr_journal_line r)
  && bool_decide (sha256_hex (tr_journal_line r) = tr_sha256 r)
  && match json_loads (tr_journal_line r) with
     | Ok (JObj value) =>
         match jget_or_null (lit "thread_id") value, jget_or_null (lit "captured_at") value with
         | JStr thread, JStr captured_at =>
             bool_decide (thread = uuid_str (tr_thread_id r))
             && aware_timestamp (replace_char 90 (lit "+00:00") captured_at)
         | _, _ => false
         end
     | _ => false
     end.

Definition record_key (r : TranscriptRecordInput) : uuid * Z := (tr_thread_id r, tr_sequence r).
(** Python's order on the pairs [(str(thread_id), sequence)]. *)
Definition key_leb (a b : uuid * Z) : bool :=
  match str_compare (uuid_str a.1) (uuid_str b.1) with Lt => true | Eq => a.2 <=? b.2 | Gt => false end.

(** [unique_ordered_records] with the field constraints. *)
Definition request_valid (b : AppendTranscriptsRequest) : bool :=
  let keys := record_key <$> ar_records b in
  trimmed (ar_principal_id b)
  && (1 <=? zlen (ar_records b)) && (zlen (ar_records b) <=? 100)
  && forallb record_valid (ar_records b)
  && nodupb keys && bool_decide (keys = sort_by key_leb keys).
End contracts.

(** ** The table *)
Record TranscriptRecord := {
  tx_journal_line : str;
  tx_sha256 : str;
  tx_received_at : Z;
}.
Abbreviation transcripts := (gmap (str * uuid * Z) TranscriptRecord).

Inductive transcript_error :=
  | TranscriptConflict (reason : string)
  | ColumnOverflow.

(** ** The service ([transcripts/service.py]) *)

(** [max(sequence)] of a thread, [or 0]. *)
Definition thread_sequences (p : str) (t : uuid) (d : transcripts) : list Z :=
  omap (λ kv : str * uuid * Z * TranscriptRecord,
          let '(p', t', s) := kv.1 in
          if bool_decide (p' = p) && bool_decide (t' = t) then Some s else None) (map_to_list d).
Definition latest (p : str) (t : uuid) (d : transcripts) : Z := foldr Z.max 0 (thread_sequences p t d).

Definition new_row (r : TranscriptRecordInput) (now : Z) : TranscriptRecord := {|
  tx_journal_line := tr_journal_line r; tx_sha256 := tr_sha256 r; tx_received_at := now |}.

Definition same_line (r : TranscriptRecordInput) (row : TranscriptRecord) : bool :=
  bool_decide (tx_journal_line row = tr_journal_line r) && bool_decide (tx_sha256 row = tr_sha256 r).

(** The accepted and replayed counts, and the table. *)
Definition tally : Type := Z * Z * transcripts.

(** One record; a sequence beyond [BIGINT] fails in the lookup. *)
Definition append_record (p : str) (now : Z) (s : tally) (r : TranscriptRecordInput) : res transcript_error tally :=
  let '(accepted, replayed, d) := s in
  guard_ (tr_sequence r <? 2 ^ 63) ColumnOverflow;;
  match d !! (p, tr_thread_id r, tr_sequence r) with
  | Some existing =>
      guard_ (same_line r existing) (TranscriptConflict "changed_replay");;
      Ok (accepted, replayed + 1, d)
  | None =>
      guard_ (tr_sequence r =? latest p (tr_thread_id r) d + 1) (TranscriptConflict "non_contiguous_sequence");;
      Ok (accepted + 1, replayed, <[(p, tr_thread_id r, tr_sequence r) := new_row r now]> d)
  end.

Record TranscriptStatus := {
  ts_principal_id : str;
  ts_record_count : Z;
  ts_thread_count : Z;
  ts_latest_received_at : option Z;
}.

Definition own_rows (p : str) (d : transcripts) : list (uuid * Z * TranscriptRecord) :=
  omap (λ kv : str * uuid * Z * TranscriptRecord,
          let '(p', t, s) := kv.1 in if bool_decide (p' = p) then Some (t, s, kv.2) else None) (map_to_list d).

(** [_status]. *)
Definition status (p : str) (d : transcripts) : TranscriptStatus :=
  let rows := own_rows p d in {|
  ts_principal_id := p;
  ts_record_count := zlen rows;
  ts_thread_count := zlen (remove_dups ((λ r : uuid * Z * TranscriptRecord, r.1.1) <$> rows));
  ts_latest_received_at :=
    match (λ r : uuid * Z * TranscriptRecord, tx_received_at r.2) <$> rows with
    | [] => None
    | t :: ts => Some (foldr Z.max t ts)
    end;
|}.

Record TranscriptAppendResult := {
  ta_accepted : Z;
  ta_replayed : Z;
  ta_status : TranscriptStatus;
}.

(** [append]: a raise rolls the transaction back. *)
Definition append (b : AppendTranscriptsRequest) (now : Z) (d : transcripts) :
    res transcript_error (TranscriptAppendResult * transcripts) :=
  '(accepted, replayed, d) ← res_fold (append_record (ar_principal_id b) now) (0, 0, d) (ar_records b);
  Ok ({| ta_accepted := accepted; ta_replayed := replayed; ta_status := status (ar_principal_id b) d |}, d).

(** [list]. *)
Definition row_leb (a b : uuid * Z * TranscriptRecord) : bool :=
  (a.1.1 <? b.1.1)%N || (a.1.1 =? b.1.1)%N && (a.1.2 <=? b.1.2).
Definition list_records (p : str) (d : transcripts) : list (uuid * Z * TranscriptRecord) :=
  sort_by row_leb (own_rows p d).

(** ** The service as a transition system *)
Inductive transcripts_step `{Sha256} `{IsoDatetime} (d : transcripts) : transcripts → Prop :=
  | step_append b now result d' :
      request_valid b = true → append b now d = Ok (result, d') → transcripts_step d d'.
