(* ===== verification/TranscriptsFacts.v ===== *)
(** * Journals are contiguous, immutable prefixes, and appends are exact *)
From S2P Require Import Prelude PyStr PyFloat PyJson JsonText JsonFacts Ids Store Queue Transcripts.
Open Scope Z_scope.

(** ** The latest sequence *)
Lemma thread_sequences_elem p t d s : s ∈ thread_sequences p t d ↔ is_Some (d !! (p, t, s)).
Proof.
  unfold thread_sequences. rewrite list_elem_of_omap. split.
  - intros ([[[p' t'] s'] row] & Hin & Heq). apply elem_of_map_to_list in Hin. cbn in Heq.
    destruct (bool_decide (p' = p) && bool_decide (t' = t)) eqn:E; [|done]. injection Heq as ->.
    apply andb_true_iff in E as [->%bool_decide_eq_true ->%bool_decide_eq_true]. eauto.
  - intros [row Hrow]. exists (p, t, s, row). split; [by apply elem_of_map_to_list|]. cbn.
    by rewrite !bool_decide_true by done.
Qed.

Lemma max_elem l : Forall (λ x, 0 < x) l → foldr Z.max 0 l = 0 ∧ l = [] ∨ foldr Z.max 0 l ∈ l.
Proof.
  induction 1 as [|x l Hx _ IH]; [by left|]. right. cbn.
  destruct (Z.max_spec x (foldr Z.max 0 l)) as [[? ->]|[? ->]]; [|by left].
  destruct IH as [[IH _]|IH]; [lia|by right].
Qed.

Lemma max_upper l x : x ∈ l → x ≤ foldr Z.max 0 l.
Proof. induction 1; cbn; lia. Qed.

(** Every row is the first of its thread or has its predecessor. *)
Definition contiguous (d : transcripts) : Prop :=
  ∀ p t s, is_Some (d !! (p, t, s)) → 0 < s ∧ (s = 1 ∨ is_Some (d !! (p, t, s - 1))).

Lemma contiguous_below d p t s n :
  contiguous d → is_Some (d !! (p, t, s)) → 0 < n ≤ s → is_Some (d !! (p, t, n)).
Proof.
  intros Hc Hs Hn. replace n with (s - Z.of_nat (Z.to_nat (s - n))) by lia.
  assert (∀ k, Z.of_nat k < s → is_Some (d !! (p, t, s - Z.of_nat k))) as H; [|apply H; lia].
  induction k as [|k IH]; intros Hk; [by rewrite Z.sub_0_r|].
  destruct (Hc p t (s - Z.of_nat k)) as [_ [?|H]]; [apply IH; lia|lia|].
  by replace (s - Z.of_nat (S k)) with (s - Z.of_nat k - 1) by lia.
Qed.

(** The next free sequence of a thread is the one after its latest. *)
Lemma next_sequence d p t s :
  contiguous d → d !! (p, t, s) = None →
  (s =? latest p t d + 1) = true ↔ 0 < s ∧ (s = 1 ∨ is_Some (d !! (p, t, s - 1))).
Proof.
  intros Hc Hnone. rewrite Z.eqb_eq. unfold latest.
  assert (Hpos : Forall (λ x, 0 < x) (thread_sequences p t d)).
  { apply Forall_forall. intros x Hx. apply thread_sequences_elem, Hc in Hx. tauto. }
  pose proof (max_elem _ Hpos) as Hmax. set (m := foldr Z.max 0 (thread_sequences p t d)) in *.
  assert (Hub : ∀ x, is_Some (d !! (p, t, x)) → x ≤ m).
  { intros x Hx. by apply max_upper, thread_sequences_elem. }
  assert (Hlow : 0 ≤ m).
  { destruct Hmax as [[-> _]|H]; [lia|]. apply thread_sequences_elem, Hc in H. lia. }
  split.
  - intros ->. split; [lia|]. replace (m + 1 - 1) with m by lia.
    destruct Hmax as [[Hm _]|H]; [left; lia|right; by apply thread_sequences_elem].
  - intros [Hs Hprev]. destruct (decide (s ≤ m)) as [Hle|Hgt].
    + destruct Hmax as [[Hm _]|H]; [lia|]. apply thread_sequences_elem in H.
      assert (is_Some (d !! (p, t, s))) as Hsome by (eapply contiguous_below; [done|exact H|lia]).
      rewrite Hnone in Hsome. by destruct Hsome.
    + destruct Hprev as [->|Hprev]; [lia|]. apply Hub in Hprev. lia.
Qed.

(** ** One record *)
Definition key_of (p : str) (r : TranscriptRecordInput) : str * uuid * Z := (p, tr_thread_id r, tr_sequence r).

(** The reference: put the records that are not there yet. *)
Definition put_record (p : str) (now : Z) (d : transcripts) (r : TranscriptRecordInput) : transcripts :=
  match d !! key_of p r with Some _ => d | None => <[key_of p r := new_row r now]> d end.
Definition put_records (p : str) (now : Z) (rs : list TranscriptRecordInput) (d : transcripts) : transcripts :=
  foldl (put_record p now) d rs.

(** The record is there with this line, or not there at all. *)
Definition agrees (p : str) (d : transcripts) (r : TranscriptRecordInput) : Prop :=
  ∀ row, d !! key_of p r = Some row → same_line r row = true.

Definition fresh (p : str) (d : transcripts) (r : TranscriptRecordInput) : bool :=
  bool_decide (d !! key_of p r = None).

Lemma put_record_mono p now d r : d ⊆ put_record p now d r.
Proof. unfold put_record. destruct (d !! _) eqn:E; [done|]. by apply insert_subseteq. Qed.

Lemma put_records_mono p now rs d : d ⊆ put_records p now rs d.
Proof.
  revert d. induction rs as [|r rs IH]; intros d; [done|]. etrans; [apply put_record_mono|apply IH].
Qed.

Lemma append_record_Ok p now a n d r s :
  contiguous d → append_record p now (a, n, d) r = Ok s →
  agrees p d r ∧ contiguous (put_record p now d r) ∧ tr_sequence r < 2 ^ 63 ∧
  s = (if fresh p d r then a + 1 else a, if fresh p d r then n else n + 1, put_record p now d r).
Proof.
  intros Hc. unfold append_record, agrees, fresh, put_record. intros ([] & Hlt & H)%bind_Ok.
  apply guard_Ok, Z.ltb_lt in Hlt. fold (key_of p r) in *. destruct (d !! key_of p r) as [row|] eqn:E.
  - apply bind_Ok in H as ([] & Hs & [= <-]). apply guard_Ok in Hs. rewrite bool_decide_false by done.
    split_and!; [by intros ? [= <-]|done|done|done].
  - apply bind_Ok in H as ([] & Hn & [= <-]). apply guard_Ok in Hn. rewrite bool_decide_true by done.
    apply next_sequence in Hn as [Hpos Hprev]; [|done..]. split_and!; [done| |done|done].
    intros p' t' s' Hsome. destruct (decide ((p', t', s') = key_of p r)) as [[= -> -> ->]|Hne].
    + split; [done|]. destruct Hprev as [?|Hprev]; [by left|right].
      destruct Hprev as [row Hrow]. exists row. rewrite lookup_insert_ne; [done|]. intros [= Heq]. lia.
    + rewrite lookup_insert_ne in Hsome by done. apply Hc in Hsome as [? [?|[row Hrow]]]; split; auto.
      right. destruct (decide (key_of p r = (p', t', s' - 1))) as [Hk|Hne']; [rewrite <- Hk, lookup_insert_eq; eauto|].
      rewrite lookup_insert_ne by done. eauto.
Qed.

Lemma append_record_accepts p now a n d r :
  contiguous d → agrees p d r → tr_sequence r < 2 ^ 63 →
  (d !! key_of p r = None → 0 < tr_sequence r ∧
     (tr_sequence r = 1 ∨ is_Some (d !! (p, tr_thread_id r, tr_sequence r - 1)))) →
  is_ok (append_record p now (a, n, d) r) = true.
Proof.
  intros Hc Ha Hlt Hnext. unfold append_record. rewrite guard_true by (by apply Z.ltb_lt). fold (key_of p r).
  destruct (d !! key_of p r) as [row|] eqn:E.
  - by rewrite guard_true by (by apply Ha).
  - rewrite guard_true; [done|]. apply next_sequence; [done..|]. by apply Hnext.
Qed.

(** ** One request *)
Definition count {A} (f : A → bool) (l : list A) : Z := zlen (filter (λ x, f x = true) l).

Lemma count_cons {A} (f : A → bool) x l : count f (x :: l) = (if f x then 1 else 0) + count f l.
Proof. unfold count, zlen. rewrite filter_cons. destruct (f x); cbn; repeat case_decide; cbn; try done; lia. Qed.

Lemma count_ext {A} (f g : A → bool) l : (∀ x, x ∈ l → f x = g x) → count f l = count g l.
Proof.
  induction l as [|x l IH]; intros H; [done|]. rewrite !count_cons, (H x), IH; [done|..|by left].
  intros y Hy. apply H. by right.
Qed.

Lemma put_record_other p now d r r' :
  record_key r' ≠ record_key r → put_record p now d r !! key_of p r' = d !! key_of p r'.
Proof.
  intros Hne. unfold put_record. destruct (d !! key_of p r); [done|]. rewrite lookup_insert_ne; [done|].
  intros [= Ht Hs]. apply Hne. unfold record_key. by rewrite Ht, Hs.
Qed.

Lemma put_record_self p now d r : is_Some (put_record p now d r !! key_of p r).
Proof. unfold put_record. destruct (d !! key_of p r) eqn:E; rewrite ?E, ?lookup_insert_eq; eauto. Qed.

Section fold.
Context (p : str) (now : Z).

Lemma append_fold_Ok rs a n d s :
  NoDup (record_key <$> rs) → contiguous d →
  res_fold (append_record p now) (a, n, d) rs = Ok s →
  Forall (agrees p d) rs ∧ contiguous (put_records p now rs d) ∧ Forall (λ r, tr_sequence r < 2 ^ 63) rs ∧
  s = (a + count (fresh p d) rs, n + (zlen rs - count (fresh p d) rs), put_records p now rs d).
Proof.
  revert a n d. induction rs as [|r rs IH]; intros a n d Hnd Hc H; cbn in H.
  { injection H as <-. split_and!; [constructor|done|constructor|]. cbn. by rewrite !Z.add_0_r. }
  apply bind_Ok in H as (s1 & H1 & H). apply append_record_Ok in H1 as (Ha & Hc1 & Hlt & ->); [|done].
  cbn [fmap list_fmap] in Hnd. apply NoDup_cons in Hnd as [Hr Hnd].
  apply IH in H as (Hall & Hc2 & Hlts & ->); [|done..].
  assert (Hsame : ∀ r', r' ∈ rs → put_record p now d r !! key_of p r' = d !! key_of p r').
  { intros r' Hr'. apply put_record_other. intros Heq. apply Hr. rewrite <- Heq. by apply list_elem_of_fmap_2. }
  assert (Hcount : count (fresh p (put_record p now d r)) rs = count (fresh p d) rs).
  { apply count_ext. intros r' Hr'. unfold fresh. by rewrite Hsame. }
  split_and!; [|done|by constructor|].
  - constructor; [done|]. apply Forall_forall. intros r' Hr'. rewrite Forall_forall in Hall.
    intros row Hrow. apply (Hall r' Hr'). by rewrite Hsame.
  - rewrite Hcount, count_cons. unfold zlen. cbn [length]. destruct (fresh p d r); f_equal; f_equal; lia.
Qed.

(** Records of one thread come in rising order. *)
Definition rising (rs : list TranscriptRecordInput) : Prop :=
  ∀ i j r r', rs !! i = Some r → rs !! j = Some r' → (i < j)%nat → tr_thread_id r = tr_thread_id r' →
    tr_sequence r < tr_sequence r'.

Lemma put_records_lookup rs d k :
  is_Some (put_records p now rs d !! k) ↔ is_Some (d !! k) ∨ ∃ r, r ∈ rs ∧ k = key_of p r.
Proof.
  revert d. induction rs as [|r rs IH]; intros d.
  { split; [by left|]. intros [?|(r & H & _)]; [done|]. by apply not_elem_of_nil in H. }
  change (put_records p now (r :: rs) d) with (put_records p now rs (put_record p now d r)). rewrite IH. split.
  - intros [H|(r' & ? & ->)]; [|right; exists r'; split; [by right|done]].
    destruct (decide (k = key_of p r)) as [->|Hne]; [right; exists r; split; [by left|done]|left].
    unfold put_record in H. destruct (d !! key_of p r); [done|]. by rewrite lookup_insert_ne in H.
  - intros [[row H]|(r' & H & ->)].
    + left. exists row. eapply lookup_weaken; [done|apply put_record_mono].
    + apply elem_of_cons in H as [->|H]; [left; apply put_record_self|right; eauto].
Qed.

Lemma append_fold_accepts rs a n d :
  NoDup (record_key <$> rs) → rising rs → contiguous d → Forall (agrees p d) rs →
  Forall (λ r, tr_sequence r < 2 ^ 63) rs → contiguous (put_records p now rs d) →
  is_ok (res_fold (append_record p now) (a, n, d) rs) = true.
Proof.
  revert a n d. induction rs as [|r rs IH]; intros a n d Hnd Hup Hc Ha Hlt Hall; [done|]. cbn [res_fold].
  apply Forall_cons in Ha as [Har Ha]. apply Forall_cons in Hlt as [Hltr Hlt].
  assert (is_ok (append_record p now (a, n, d) r) = true) as Hok.
  { apply append_record_accepts; [done..|]. intros Hnone.
    destruct (Hall p (tr_thread_id r) (tr_sequence r)) as [Hpos Hprev].
    { apply put_records_lookup. right. exists r. split; [by left|done]. }
    split; [done|]. destruct Hprev as [?|Hprev]; [by left|right].
    apply put_records_lookup in Hprev as [?|(r' & Hr' & [= Ht Hs])]; [done|].
    apply elem_of_cons in Hr' as [->|Hr']; [lia|]. apply list_elem_of_lookup in Hr' as [j Hj].
    specialize (Hup 0%nat (S j) r r' eq_refl Hj ltac:(lia) Ht). lia. }
  destruct (append_record p now (a, n, d) r) as [s|] eqn:E; [|done].
  apply append_record_Ok in E as (_ & Hc1 & _ & ->); [|done]. cbn [mbind res_bind].
  cbn [fmap list_fmap] in Hnd. apply NoDup_cons in Hnd as [Hr Hnd].
  apply IH; [done| |done| |done|done].
  - intros i j x y Hi Hj Hij. apply (Hup (S i) (S j) x y); [done..|lia].
  - apply Forall_forall. intros r' Hr' row Hrow. rewrite Forall_forall in Ha. apply (Ha r' Hr').
    rewrite put_record_other in Hrow; [done|]. intros Heq. apply Hr. rewrite <- Heq. by apply list_elem_of_fmap_2.
Qed.
End fold.

(** The records of a request are in the table afterwards, with their lines. *)
Lemma put_records_line p now rs d r :
  NoDup (record_key <$> rs) → Forall (agrees p d) rs → r ∈ rs →
  ∃ row, put_records p now rs d !! key_of p r = Some row ∧ same_line r row = true.
Proof.
  revert d. induction rs as [|x rs IH]; intros d Hnd Ha Hin; [by apply not_elem_of_nil in Hin|].
  apply Forall_cons in Ha as [Hax Ha]. cbn [fmap list_fmap] in Hnd. apply NoDup_cons in Hnd as [Hx Hnd].
  change (put_records p now (x :: rs) d) with (put_records p now rs (put_record p now d x)).
  apply elem_of_cons in Hin as [->|Hin].
  - assert (∃ row, put_record p now d x !! key_of p x = Some row ∧ same_line x row = true) as (row & Hrow & Hl).
    { unfold put_record. destruct (d !! key_of p x) as [row|] eqn:E; [exists row; split; [done|by apply Hax]|].
      exists (new_row x now). rewrite lookup_insert_eq. split; [done|]. unfold same_line. by rewrite !bool_decide_true. }
    exists row. split; [|done]. eapply lookup_weaken; [done|apply put_records_mono].
  - apply IH; [done| |done]. apply Forall_forall. intros r' Hr' row Hrow. rewrite Forall_forall in Ha.
    apply (Ha r' Hr'). rewrite put_record_other in Hrow; [done|]. intros Heq. apply Hx. rewrite <- Heq.
    by apply list_elem_of_fmap_2.
Qed.

Lemma put_records_id p now rs d :
  (∀ r, r ∈ rs → is_Some (d !! key_of p r)) → put_records p now rs d = d ∧ count (fresh p d) rs = 0.
Proof.
  induction rs as [|r rs IH]; intros Hall; [done|].
  change (put_records p now (r :: rs) d) with (put_records p now rs (put_record p now d r)).
  destruct (Hall r) as [row Hrow]; [by left|]. rewrite count_cons. unfold put_record, fresh at 1. rewrite Hrow.
  rewrite bool_decide_false by done. apply IH. intros x Hx. apply Hall. by right.
Qed.

(** ** The service *)
Section service.
Context {SH : Sha256} {ID : IsoDatetime}.

Lemma key_leb_total a b : key_leb a b = true ∨ key_leb b a = true.
Proof.
  unfold key_leb. rewrite (str_compare_antisym (uuid_str a.1) (uuid_str b.1)).
  destruct (str_compare _ _); cbn; [lia|by left|by right].
Qed.

Lemma key_leb_trans a b c : key_leb a b = true → key_leb b c = true → key_leb a c = true.
Proof.
  unfold key_leb. destruct (str_compare (uuid_str a.1) (uuid_str b.1)) eqn:E1; [| |done].
  - apply str_compare_eq in E1 as ->. destruct (str_compare _ _); [lia|done|done].
  - destruct (str_compare (uuid_str b.1) (uuid_str c.1)) eqn:E2; [| |done].
    + apply str_compare_eq in E2 as <-. by rewrite E1.
    + by rewrite (str_compare_lt_trans _ _ _ E1 E2).
Qed.

(** A valid request names each key once and each thread in rising order. *)
Lemma request_valid_rising b :
  request_valid b = true → NoDup (record_key <$> ar_records b) ∧ rising (ar_records b).
Proof.
  unfold request_valid. rewrite !andb_true_iff. intros [[_ Hnd] Hs].
  apply bool_decide_eq_true in Hnd, Hs. split; [done|].
  assert (StronglySorted (λ a b, key_leb a b = true) (record_key <$> ar_records b)) as Hsorted.
  { rewrite Hs. apply (sort_by_sorted key_leb (λ _, True)); [by intros; apply key_leb_total| |by apply Forall_true].
    intros x y z _ _ _. apply key_leb_trans. }
  intros i j r r' Hi Hj Hij Ht.
  assert (Hki : (record_key <$> ar_records b) !! i = Some (record_key r)) by (by rewrite list_lookup_fmap, Hi).
  assert (Hkj : (record_key <$> ar_records b) !! j = Some (record_key r')) by (by rewrite list_lookup_fmap, Hj).
  assert (Hle : key_leb (record_key r) (record_key r') = true).
  { clear Hs Hnd Hi Hj. revert i j Hij Hki Hkj. induction Hsorted as [|k l _ IH Hk]; intros [|i] [|j] Hij Hki Hkj;
      try done; try lia; cbn in Hki, Hkj.
    - injection Hki as ->. rewrite Forall_forall in Hk. apply Hk. by eapply list_elem_of_lookup_2.
    - apply (IH i j); [lia|done..]. }
  unfold key_leb, record_key in Hle. cbn in Hle. rewrite Ht, str_compare_refl in Hle. apply Z.leb_le in Hle.
  destruct (decide (tr_sequence r = tr_sequence r')) as [Heq|]; [|lia].
  assert (i = j); [|lia]. eapply (NoDup_lookup _ _ _ _ Hnd Hki). rewrite Hkj. unfold record_key. by rewrite Ht, Heq.
Qed.

Lemma append_put b now d result d' :
  NoDup (record_key <$> ar_records b) → contiguous d → append b now d = Ok (result, d') →
  d' = put_records (ar_principal_id b) now (ar_records b) d ∧ contiguous d' ∧
  Forall (agrees (ar_principal_id b) d) (ar_records b) ∧ Forall (λ r, tr_sequence r < 2 ^ 63) (ar_records b) ∧
  ta_accepted result = count (fresh (ar_principal_id b) d) (ar_records b) ∧
  ta_replayed result = zlen (ar_records b) - count (fresh (ar_principal_id b) d) (ar_records b) ∧
  ta_status result = status (ar_principal_id b) d'.
Proof.
  intros Hnd Hc. unfold append. intros ([[a n] d1] & Hf & [= <- <-])%bind_Ok.
  apply append_fold_Ok in Hf as (Ha & Hc' & Hlt & [= -> -> ->]); done.
Qed.

(** In every reachable table the journals are contiguous. *)
Lemma reachable_contiguous d : rtc transcripts_step ∅ d → contiguous d.
Proof.
  apply rtc_ind_r.
  - intros p t s [row H]. by rewrite lookup_empty in H.
  - intros d1 d2 _ [b now result d2' Hv Ha] Hc. apply request_valid_rising in Hv as [Hnd _].
    by eapply append_put in Ha as (_ & ? & _).
Qed.

(** A transcript backup is an exact copy of a prefix of every journal.  In every
    reachable table the lines of a thread are numbered from one without a gap;
    a request is accepted exactly when its lines agree with what is stored,
    fit the column and leave no gap; then nothing stored changes, exactly the
    missing lines are added, the counts say how many were new and how many
    replayed, and sending the request again changes nothing. *)
Theorem transcripts_exact (d : transcripts) (b : AppendTranscriptsRequest) (now : Z) :
  rtc transcripts_step ∅ d → request_valid b = true →
  let p := ar_principal_id b in
  let rs := ar_records b in
  contiguous d ∧
  (is_ok (append b now d) = true ↔
     Forall (agrees p d) rs ∧ Forall (λ r, tr_sequence r < 2 ^ 63) rs ∧ contiguous (put_records p now rs d)) ∧
  (∀ result d', append b now d = Ok (result, d') →
     d ⊆ d' ∧ contiguous d' ∧
     (∀ r, r ∈ rs → ∃ row, d' !! key_of p r = Some row ∧ tx_journal_line row = tr_journal_line r ∧
                          tx_sha256 row = tr_sha256 r) ∧
     (∀ k, is_Some (d' !! k) → is_Some (d !! k) ∨ ∃ r, r ∈ rs ∧ k = key_of p r) ∧
     ta_accepted result = count (fresh p d) rs ∧ ta_accepted result + ta_replayed result = zlen rs ∧
     ∀ later, ∃ again, append b later d' = Ok (again, d') ∧ ta_accepted again = 0).
Proof.
  intros Hr Hv p rs. pose proof (reachable_contiguous d Hr) as Hc. apply request_valid_rising in Hv as [Hnd Hup].
  split; [done|]. assert (Haccept : ∀ now d, contiguous d → Forall (agrees p d) rs → Forall (λ r, tr_sequence r < 2 ^ 63) rs →
    contiguous (put_records p now rs d) → is_ok (append b now d) = true).
  { intros now0 d0 Hc0 Ha Hlt Hcont. unfold append. pose proof (append_fold_accepts p now0 rs 0 0 d0 Hnd Hup Hc0 Ha Hlt Hcont) as H1.
    fold p rs. by destruct (res_fold _ _ _) as [[[]]|]. }
  split.
  - split; [|by intros (? & ? & ?); apply Haccept].
    destruct (append b now d) as [[result d']|] eqn:E; [|done]. intros _.
    apply append_put in E as (-> & ? & ? & ? & _); done.
  - intros result d' E. destruct (append_put _ _ _ _ _ Hnd Hc E) as (Hd' & Hc' & Ha & Hlt & Hacc & Hrep & _).
    assert (Hline : ∀ r, r ∈ rs → ∃ row, d' !! key_of p r = Some row ∧ same_line r row = true).
    { intros r Hin. rewrite Hd'. by apply put_records_line. }
    assert (Hagree : Forall (agrees p d') rs).
    { apply Forall_forall. intros r Hin row Hrow. destruct (Hline r Hin) as (row' & Hrow' & Hl). congruence. }
    split_and!; [rewrite Hd'; apply put_records_mono|done| | |done|rewrite Hacc, Hrep; unfold rs; lia|].
    + intros r Hin. destruct (Hline r Hin) as (row & Hrow & Hl). exists row. split; [done|].
      unfold same_line in Hl. by apply andb_true_iff in Hl as [?%bool_decide_eq_true ?%bool_decide_eq_true].
    + intros k Hk. rewrite Hd' in Hk. by apply put_records_lookup in Hk.
    + intros later. destruct (put_records_id p later rs d') as [Hsame Hzero].
      { intros r Hin. destruct (Hline r Hin) as (? & ? & _); eauto. }
      assert (is_ok (append b later d') = true) as Hok by (apply Haccept; [done..|by rewrite Hsame]).
      destruct (append b later d') as [[again d2]|] eqn:E2; [|done].
      destruct (append_put _ _ _ _ _ Hnd Hc' E2) as (-> & _ & _ & _ & Hz & _). fold p rs. rewrite Hsame.
      exists again. by rewrite Hz.
Qed.
End service.

(** ** A sample request *)
Definition sample_sha : Sha256 := {| sha256_hex := λ _, repeat 97%N 64 |}.
Definition sample_iso : IsoDatetime := {| aware_timestamp := λ _, true |}.
Definition sample_line (n : Z) : TranscriptRecordInput := {|
  tr_thread_id := 5; tr_sequence := n; tr_sha256 := repeat 97%N 64;
  tr_journal_line := quoted "{'thread_id': '00000000-0000-0000-0000-000000000005', 'captured_at': '2026-08-01T10:00:00Z', 'turn': "
    ++ str_of_Z n ++ lit "}" |}.
Definition sample_request (l : list Z) : AppendTranscriptsRequest :=
  {| ar_principal_id := lit "nate"; ar_records := sample_line <$> l |}.

Example gap_refused : append (sample_request [1; 3]) 9 ∅ = Err (TranscriptConflict "non_contiguous_sequence").
Proof. vm_compute. reflexivity. Qed.

Lemma transcripts_exact_witness :
  let b := sample_request [1; 2] in
  ∃ result d', append b 9 ∅ = Ok (result, d') ∧ contiguous d' ∧ ta_accepted result + ta_replayed result = 2.
Proof.
  cbn zeta.
  destruct (@transcripts_exact sample_sha sample_iso ∅ (sample_request [1; 2]) 9 (rtc_refl _ _)
    ltac:(vm_compute; reflexivity)) as (_ & _ & Hok).
  assert (Ho : is_ok (append (sample_request [1; 2]) 9 ∅) = true) by (vm_compute; reflexivity).
  revert Ho Hok. generalize (append (sample_request [1; 2]) 9 ∅) as r. intros [[result d']|e] Ho Hok; [|discriminate Ho].
  destruct (Hok result d' eq_refl) as (_ & Hc & _ & _ & _ & Hn & _).
  exists result, d'. split; [reflexivity|]. split; [exact Hc|]. etransitivity; [exact Hn|vm_compute; reflexivity].
Defined.
