(* ===== verification/Annotations.v ===== *)
(** * Hygiene annotations: [src/src/spine/inject/annotations.py]

    An injection event may be classified once, for good, as the product of a
    verification run.  A batch is one transaction under the learner's advisory
    lock: it checks every target against the identities the caller expects,
    then adds the classifications that are missing. *)
From S2P Require Import Prelude PyStr PyFloat PyJson Ids Store.
Open Scope Z_scope.

(** ** Data *)
Record InjectionEventAnnotationInput := {
  an_target_event_uid : str;
  an_expected_principal_id : str;
  an_expected_machine_id : str;
  an_reason : str;
  an_annotator_principal_id : str;
  an_annotator_machine_id : str;
  an_annotator_origin_agent : str;
}.

(** [kind] is always ['verification_only']. *)
Record InjectionEventAnnotation := {
  ia_target_principal_id : str;
  ia_target_machine_id : str;
  ia_reason : str;
  ia_annotator_principal_id : str;
  ia_annotator_machine_id : str;
  ia_annotator_origin_agent : str;
  ia_ts : Z;
}.
Abbreviation annotations := (gmap str InjectionEventAnnotation).

Inductive annotation_error :=
  | BatchError (message : string)
  | AnnotationTargetNotFoundError (target_event_uid : str)
  | AnnotationFingerprintMismatchError (target_event_uid : str)
  | AnnotationConflictError (target_event_uid : str).

(** ** The service *)

(** The event of a uid, which is unique in the table. *)
Definition event_of_uid (uid : str) (d : db) : option InjectionEvent :=
  head (filter (λ e, i_event_uid e = uid) (map_to_list (events d)).*2).

Definition annotation_values (a : InjectionEventAnnotationInput) (target : InjectionEvent) (now : Z) :
    InjectionEventAnnotation := {|
  ia_target_principal_id := i_principal_id target; ia_target_machine_id := i_machine_id target;
  ia_reason := an_reason a; ia_annotator_principal_id := an_annotator_principal_id a;
  ia_annotator_machine_id := an_annotator_machine_id a; ia_annotator_origin_agent := an_annotator_origin_agent a;
  ia_ts := now |}.

(** [_row_values(row) == values]: the time is not compared. *)
Definition same_values (r r' : InjectionEventAnnotation) : bool :=
  bool_decide (ia_target_principal_id r = ia_target_principal_id r')
  && bool_decide (ia_target_machine_id r = ia_target_machine_id r')
  && bool_decide (ia_reason r = ia_reason r')
  && bool_decide (ia_annotator_principal_id r = ia_annotator_principal_id r')
  && bool_decide (ia_annotator_machine_id r = ia_annotator_machine_id r')
  && bool_decide (ia_annotator_origin_agent r = ia_annotator_origin_agent r').

Definition check_target (d : db) (a : InjectionEventAnnotationInput) : res annotation_error InjectionEvent :=
  match event_of_uid (an_target_event_uid a) d with
  | None => Err (AnnotationTargetNotFoundError (an_target_event_uid a))
  | Some target =>
      guard_ (bool_decide (i_principal_id target = an_expected_principal_id a)
              && bool_decide (i_machine_id target = an_expected_machine_id a))
        (AnnotationFingerprintMismatchError (an_target_event_uid a));;
      Ok target
  end.

(** The rows to add: those of the targets without an annotation. *)
Definition pending_row (t : annotations) (now : Z) (x : InjectionEventAnnotationInput * InjectionEvent) :
    res annotation_error (option (str * InjectionEventAnnotation)) :=
  let '(a, target) := x in
  let values := annotation_values a target now in
  match t !! an_target_event_uid a with
  | Some row =>
      guard_ (same_values row values) (AnnotationConflictError (an_target_event_uid a));;
      Ok None
  | None => Ok (Some (an_target_event_uid a, values))
  end.

Definition append_annotations (batch : list InjectionEventAnnotationInput) (now : Z) (d : db) (t : annotations) :
    res annotation_error (Z * annotations) :=
  guard_ (negb (bool_decide (length batch = 0%nat))) (BatchError "injection event annotation batch must not be empty");;
  guard_ (nodupb (an_target_event_uid <$> batch)) (BatchError "injection event annotation targets must be unique");;
  targets ← res_map (check_target d) batch;
  pending ← res_map (pending_row t now) (zip batch targets);
  Ok (zlen batch, list_to_map (omap id pending) ∪ t).

(** ** What a batch does *)
Definition classifies (d : db) (now : Z) (a : InjectionEventAnnotationInput) (row : InjectionEventAnnotation) : Prop :=
  ∃ target, event_of_uid (an_target_event_uid a) d = Some target ∧
    i_principal_id target = an_expected_principal_id a ∧ i_machine_id target = an_expected_machine_id a ∧
    row = annotation_values a target now.

Lemma check_target_Ok d a target :
  check_target d a = Ok target ↔
  event_of_uid (an_target_event_uid a) d = Some target ∧ i_principal_id target = an_expected_principal_id a ∧
  i_machine_id target = an_expected_machine_id a.
Proof.
  unfold check_target. destruct (event_of_uid _ _) as [e|]; [|split; [done|by intros [? _]]]. split.
  - intros ([] & H & [= <-])%bind_Ok. by apply guard_Ok, andb_true_iff in H as [?%bool_decide_eq_true ?%bool_decide_eq_true].
  - intros ([= ->] & H1 & H2). rewrite guard_true; [done|]. by rewrite !bool_decide_true.
Qed.

(** A target agrees with what is stored for it. *)
Definition agrees_with (d : db) (now : Z) (t : annotations) (a : InjectionEventAnnotationInput) : Prop :=
  ∃ row, classifies d now a row ∧ ∀ old, t !! an_target_event_uid a = Some old → same_values old row = true.

Lemma pending_row_Ok t now a target o :
  pending_row t now (a, target) = Ok o ↔
  match t !! an_target_event_uid a with
  | Some old => same_values old (annotation_values a target now) = true ∧ o = None
  | None => o = Some (an_target_event_uid a, annotation_values a target now)
  end.
Proof.
  unfold pending_row. destruct (t !! _) as [old|]; [|split; [by intros [= <-]|by intros ->]]. split.
  - by intros ([] & H%guard_Ok & [= <-])%bind_Ok.
  - intros [H ->]. by rewrite guard_true.
Qed.

(** The rows a batch adds. *)
Definition added (d : db) (now : Z) (t : annotations) (batch : list InjectionEventAnnotationInput) :
    list (str * InjectionEventAnnotation) :=
  omap (λ a, match t !! an_target_event_uid a, event_of_uid (an_target_event_uid a) d with
             | None, Some target => Some (an_target_event_uid a, annotation_values a target now)
             | _, _ => None
             end) batch.

Lemma append_inner d now t batch :
  (∃ targets pending, res_map (check_target d) batch = Ok targets ∧
     res_map (pending_row t now) (zip batch targets) = Ok pending ∧ omap id pending = added d now t batch) ↔
  Forall (agrees_with d now t) batch.
Proof.
  split.
  - intros (targets & pending & Ht & Hp & _). apply res_map_Forall2 in Ht, Hp.
    revert pending Hp. induction Ht as [|a target batch targets Ha _ IH]; intros pending Hp; [constructor|].
    cbn in Hp. apply Forall2_cons_inv_l in Hp as (o & pending' & Ho & Hp & ->). constructor; [|by eapply IH].
    apply check_target_Ok in Ha as (He & H1 & H2). eexists. split; [by exists target|].
    intros old Hold. apply pending_row_Ok in Ho. rewrite Hold in Ho. tauto.
  - induction 1 as [|a batch (row & (target & He & H1 & H2 & ->) & Hold) _ IH]; [by exists [], []|].
    destruct IH as (targets & pending & Ht & Hp & Hadd).
    exists (target :: targets), ((match t !! an_target_event_uid a with
      | Some _ => None | None => Some (an_target_event_uid a, annotation_values a target now) end) :: pending).
    split_and!.
    + cbn. rewrite (proj2 (check_target_Ok d a target)) by done. cbn. by rewrite Ht.
    + cbn [zip zip_with res_map].
      rewrite (proj2 (pending_row_Ok t now a target (match t !! an_target_event_uid a with
        | Some _ => None | None => Some (an_target_event_uid a, annotation_values a target now) end))).
      { cbn [mbind res_bind]. by setoid_rewrite Hp. }
      destruct (t !! _) as [old|]; [|done]. split; [by apply Hold|done].
    + unfold added. cbn. rewrite He. destruct (t !! an_target_event_uid a); cbn; [exact Hadd|]. f_equal. exact Hadd.
Qed.

Lemma append_annotation_Ok batch now d t n t' :
  append_annotations batch now d t = Ok (n, t') ↔
  batch ≠ [] ∧ NoDup (an_target_event_uid <$> batch) ∧ Forall (agrees_with d now t) batch ∧
  n = zlen batch ∧ t' = list_to_map (added d now t batch) ∪ t.
Proof.
  unfold append_annotations. split.
  - intros ([] & Hne & ([] & Hnd & (targets & Ht & (pending & Hp & [= <- <-])%bind_Ok)%bind_Ok)%bind_Ok)%bind_Ok.
    apply guard_Ok in Hne, Hnd. apply bool_decide_eq_true in Hnd.
    apply negb_true_iff, bool_decide_eq_false in Hne.
    assert (Hag : Forall (agrees_with d now t) batch).
    { apply res_map_Forall2 in Ht, Hp. clear -Ht Hp. revert pending Hp.
      induction Ht as [|a target batch targets Ha _ IH]; intros pending Hp; [constructor|].
      cbn in Hp. apply Forall2_cons_inv_l in Hp as (o & pending' & Ho & Hp & ->). constructor; [|by eapply IH].
      apply check_target_Ok in Ha as (He & H1 & H2). eexists. split; [by exists target|].
      intros old Hold. apply pending_row_Ok in Ho. rewrite Hold in Ho. tauto. }
    split_and!; [by intros ->|done|done|done|].
    apply append_inner in Hag as (targets' & pending' & Ht' & Hp' & <-). rewrite Ht in Ht'. injection Ht' as <-.
    rewrite Hp in Hp'. by injection Hp' as <-.
  - intros (Hne & Hnd & Hag & -> & ->). apply append_inner in Hag as (targets & pending & Ht & Hp & <-).
    rewrite guard_true by (destruct batch; [done|by rewrite bool_decide_false]).
    rewrite guard_true by (by apply bool_decide_eq_true). rewrite Ht. cbn [mbind res_bind]. by rewrite Hp.
Qed.

(** The rows a batch adds are exactly its unclassified targets. *)
Lemma added_keys d now t batch k row :
  (k, row) ∈ added d now t batch →
  ∃ a target, a ∈ batch ∧ k = an_target_event_uid a ∧ t !! k = None ∧ event_of_uid k d = Some target ∧
    row = annotation_values a target now.
Proof.
  unfold added. rewrite list_elem_of_omap. intros (a & Ha & H).
  destruct (t !! an_target_event_uid a) eqn:E; [done|].
  destruct (event_of_uid _ d) as [target|] eqn:Et; [|done]. injection H as <- <-. eauto 10.
Qed.

Lemma added_disjoint d now t batch : list_to_map (added d now t batch) ##ₘ t.
Proof.
  apply map_disjoint_spec. intros k row row' H Ht. apply elem_of_list_to_map_2 in H.
  apply added_keys in H as (a & target & _ & _ & Hnone & _). congruence.
Qed.

Lemma added_cons d now t a batch :
  added d now t (a :: batch) =
  match t !! an_target_event_uid a, event_of_uid (an_target_event_uid a) d with
  | None, Some target => (an_target_event_uid a, annotation_values a target now) :: added d now t batch
  | _, _ => added d now t batch
  end.
Proof. unfold added. cbn. by destruct (t !! an_target_event_uid a), (event_of_uid (an_target_event_uid a) d). Qed.

Lemma added_nodup d now t batch : NoDup (an_target_event_uid <$> batch) → NoDup (added d now t batch).*1.
Proof.
  induction batch as [|a batch IH]; intros Hnd; [constructor|].
  cbn [fmap list_fmap] in Hnd. apply NoDup_cons in Hnd as [Ha Hnd]. rewrite added_cons.
  destruct (t !! an_target_event_uid a), (event_of_uid (an_target_event_uid a) d) as [target|]; try (by apply IH).
  cbn. apply NoDup_cons. split; [|by apply IH]. intros ([k row] & Hk & H)%list_elem_of_fmap. cbn in Hk. subst k.
  apply added_keys in H as (a' & _ & Ha' & Heq & _). apply Ha. rewrite Heq. by apply list_elem_of_fmap_2.
Qed.

Lemma added_nil d now t batch : (∀ a, a ∈ batch → is_Some (t !! an_target_event_uid a)) → added d now t batch = [].
Proof.
  induction batch as [|a batch IH]; intros H; [done|]. rewrite added_cons.
  destruct (H a) as [row ->]; [by left|]. apply IH. intros x Hx. apply H. by right.
Qed.

Lemma annotated_lookup d now t batch a :
  NoDup (an_target_event_uid <$> batch) → a ∈ batch → agrees_with d now t a →
  ∃ row, (list_to_map (added d now t batch) ∪ t) !! an_target_event_uid a = Some row ∧
    ∀ later row', classifies d later a row' → same_values row row' = true.
Proof.
  intros Hnd Ha (row & (target & He & H1 & H2 & ->) & Hold).
  assert (Hsame : ∀ r later row', same_values r (annotation_values a target now) = true →
    classifies d later a row' → same_values r row' = true).
  { intros r later row' Hr (target' & He' & _ & _ & ->). rewrite He in He'. injection He' as <-. exact Hr. }
  destruct (t !! an_target_event_uid a) as [old|] eqn:E.
  - exists old. split; [|intros later row' Hc; eapply Hsame; [by apply Hold|done]].
    apply lookup_union_Some; [apply added_disjoint|by right].
  - exists (annotation_values a target now). split.
    + apply lookup_union_Some; [apply added_disjoint|left]. apply elem_of_list_to_map; [by apply added_nodup|].
      unfold added. apply list_elem_of_omap. exists a. split; [done|]. by rewrite E, He.
    + intros later row' Hc. eapply Hsame; [|done]. unfold same_values. by rewrite !bool_decide_true.
Qed.

(** An annotation batch is atomic, append-only and safe to repeat.  It is accepted
    exactly when it names at least one event, each once, every named event exists
    with the identities expected, and what is stored for it already agrees; then
    nothing stored changes, every target is classified with the values asked
    for, nothing else is added, the count is the whole batch, and the same batch
    is accepted again and writes nothing, however the clock moves. *)
Theorem annotations_exact (batch : list InjectionEventAnnotationInput) (now : Z) (d : db) (t : annotations) :
  (is_ok (append_annotations batch now d t) = true ↔
     batch ≠ [] ∧ NoDup (an_target_event_uid <$> batch) ∧ Forall (agrees_with d now t) batch) ∧
  (∀ n t', append_annotations batch now d t = Ok (n, t') →
     n = zlen batch ∧ t ⊆ t' ∧
     (∀ a, a ∈ batch → ∃ row, t' !! an_target_event_uid a = Some row ∧
        ∀ later row', classifies d later a row' → same_values row row' = true) ∧
     (∀ k, is_Some (t' !! k) → is_Some (t !! k) ∨ ∃ a, a ∈ batch ∧ k = an_target_event_uid a) ∧
     ∀ later, append_annotations batch later d t' = Ok (n, t')).
Proof.
  split.
  - destruct (append_annotations batch now d t) as [[n t']|e] eqn:E; cbn.
    + apply append_annotation_Ok in E as (? & ? & ? & _). by split.
    + split; [done|]. intros (Hne & Hnd & Hag).
      assert (append_annotations batch now d t = Ok (zlen batch, list_to_map (added d now t batch) ∪ t)) as E'
        by (by apply append_annotation_Ok). congruence.
  - intros n t' E. apply append_annotation_Ok in E as (Hne & Hnd & Hag & -> & ->).
    pose proof (added_disjoint d now t batch) as Hdisj.
    assert (Hrows : ∀ a, a ∈ batch → _) by
      (intros a Ha; rewrite Forall_forall in Hag; exact (annotated_lookup d now t batch a Hnd Ha (Hag a Ha))).
    split_and!; [done|apply map_union_subseteq_r, Hdisj|exact Hrows| |].
    + intros k [row Hk]. apply lookup_union_Some in Hk as [Hk|Hk]; [right|by left; eauto|done].
      apply elem_of_list_to_map_2, added_keys in Hk as (a & _ & Ha & -> & _). eauto.
    + intros later. apply append_annotation_Ok. split_and!; [done|done| |done|].
      * apply Forall_forall. intros a Ha. rewrite Forall_forall in Hag.
        destruct (Hag a Ha) as (row & (target & He & H1 & H2 & _) & _).
        exists (annotation_values a target later). split; [by exists target|].
        intros old Hold. destruct (Hrows a Ha) as (row' & Hrow' & Hsame). rewrite Hold in Hrow'.
        injection Hrow' as <-. apply (Hsame later). by exists target.
      * rewrite (added_nil d later); [cbn [list_to_map foldr]; by rewrite map_empty_union|].
        intros a Ha. destruct (Hrows a Ha) as (row & Hrow & _). eauto.
Qed.
