(* ===== verification/Sql.v ===== *)
(** * What the reports ask of PostgreSQL: numeric columns, grouping, ordering

    A NUMERIC(p, s) column holds a whole number of units of 10 ^ -s, and sums
    are exact.  Text is ordered by the collation of the database, a parameter;
    NULL sorts last. *)
From S2P Require Import Prelude PyStr PyDecimal JsonText PyTime.
Open Scope Z_scope.

(** ** NUMERIC(p, s) *)

(** The units of a value stored in a column of scale [s]: rounded half away
    from zero. *)
Definition numeric_units (s : Z) (d : dec) : Z :=
  let k := dexp d + s in
  if 0 <=? k then coef d * 10 ^ k
  else let m := 10 ^ (- k) in Z.sgn (coef d) * ((2 * Z.abs (coef d) + m) / (2 * m)).

(** At most [p] digits, at most [s] of them decimal places (pydantic's
    [max_digits] and [decimal_places]). *)
Definition decimal_fits (p s : Z) (d : dec) : bool :=
  dec_eqb (Dec (numeric_units s d) (- s)) d && (Z.abs (numeric_units s d) <? 10 ^ p).

(** [numeric::text]. *)
Definition numeric_text (s : nat) (k : Z) : str :=
  let p := 10 ^ Z.of_nat s in
  (if k <? 0 then lit "-" else []) ++ str_of_N (Z.to_N (Z.abs k / p))
  ++ (if (s =? 0)%nat then [] else lit "." ++ zero_padded s (Z.abs k mod p)).

(** [DecimalString]: digits without a leading zero, and a point with digits. *)
Definition decimal_string (t : str) : bool :=
  let '(whole, rest) := take_digits t in
  match whole with
  | [] => false
  | c :: more => negb (c =? 48)%N || bool_decide (more = [])
  end
  && match rest with
     | [] => true
     | c :: fraction => (c =? 46)%N && bool_decide (fraction ≠ []) && forallb is_digit fraction
     end.

(** [sum(...)], which is NULL when it has nothing to add. *)
Definition sum_known (l : list (option Z)) : option Z :=
  match omap id l with [] => None | known => Some (zsum known) end.

(** ** Ordering *)
Class Collation := { text_compare : str → str → comparison }.
Class CollationLaws `{Collation} := { text_compare_refl : ∀ s, text_compare s s = Eq }.

Definition then_by (c c' : comparison) : comparison := match c with Eq => c' | _ => c end.
Definition nulls_last {A} (compare : A → A → comparison) (a b : option A) : comparison :=
  match a, b with
  | Some x, Some y => compare x y
  | Some _, None => Lt
  | None, Some _ => Gt
  | None, None => Eq
  end.
Definition leb_of {A} (compare : A → A → comparison) (a b : A) : bool :=
  match compare a b with Gt => false | _ => true end.

(** [SELECT ... GROUP BY key ORDER BY key]. *)
Definition grouped {K A} `{EqDecision K} (compare : K → K → comparison) (key : A → K) (rows : list A) :
    list (K * list A) :=
  sort_by (leb_of (λ a b : K * list A, compare a.1 b.1)) (group_by key rows).

(** ** Facts *)
Lemma grouped_perm {K A} `{EqDecision K} (compare : K → K → comparison) (key : A → K) rows :
  Permutation (grouped compare key rows) (group_by key rows).
Proof. apply sort_by_perm. Qed.

Lemma grouped_elem {K A} `{EqDecision K} (compare : K → K → comparison) (key : A → K) rows k l :
  (k, l) ∈ grouped compare key rows ↔ l = filter (λ x, key x = k) rows ∧ l ≠ [].
Proof. rewrite grouped_perm. apply group_by_elem. Qed.

Lemma grouped_keys {K A} `{EqDecision K} (compare : K → K → comparison) (key : A → K) rows :
  NoDup (grouped compare key rows).*1.
Proof. rewrite grouped_perm. apply group_by_keys. Qed.

(** Grouping by an identifier lists the groups in its strict order. *)
Lemma grouped_sorted_N {A} (key : A → N) rows : StronglySorted N.lt (grouped N.compare key rows).*1.
Proof.
  assert (Hs : StronglySorted (λ a b, leb_of (λ a b : N * list A, N.compare a.1 b.1) a b = true)
                 (grouped N.compare key rows)).
  { apply (sort_by_sorted _ (λ _, True)); [| |by apply Forall_true]; unfold leb_of.
    - intros x y _ _. destruct (N.compare_spec x.1 y.1), (N.compare_spec y.1 x.1); auto; lia.
    - intros x y z _ _ _. destruct (N.compare_spec x.1 y.1), (N.compare_spec y.1 z.1), (N.compare_spec x.1 z.1);
        try done; lia. }
  pose proof (grouped_keys N.compare key rows) as Hnd.
  induction Hs as [|x l Hs IH Hx]; [constructor|]. rewrite fmap_cons in Hnd |- *. apply NoDup_cons in Hnd as [Hni Hnd].
  constructor; [by apply IH|]. rewrite Forall_forall in Hx. apply Forall_forall. intros k (y & -> & Hy)%list_elem_of_fmap.
  specialize (Hx y Hy). unfold leb_of in Hx. destruct (N.compare_spec x.1 y.1) as [E| |]; [|done..].
  destruct Hni. rewrite E. by apply list_elem_of_fmap_2.
Qed.

#[export] Instance zsum_proper : Proper (Permutation ==> eq) zsum := zsum_perm.

(** A sum over the rows is the sum over the groups of their sums. *)
Lemma zsum_grouped {K A} `{EqDecision K} (compare : K → K → comparison) (key : A → K) (f : A → Z) rows :
  zsum (f <$> rows) = zsum ((λ g, zsum (f <$> g.2)) <$> grouped compare key rows).
Proof.
  rewrite grouped_perm. rewrite <- (group_by_values key rows) at 1.
  induction (group_by key rows) as [|[k g] l IH]; [done|]. cbn [mbind list_bind fmap list_fmap snd].
  by rewrite fmap_app, zsum_app, zsum_cons, <- IH.
Qed.

(** The known part of a sum, and when the sum is NULL. *)
Lemma sum_known_value l : default 0 (sum_known l) = zsum (default 0 <$> l).
Proof.
  unfold sum_known. transitivity (zsum (omap id l)); [by destruct (omap id l)|].
  induction l as [|[x|] l IH]; [done|..]; cbn [omap list_omap id fmap list_fmap default]; rewrite ?zsum_cons; cbn in *; lia.
Qed.

Lemma sum_known_None l : sum_known l = None ↔ Forall (λ x, x = None) l.
Proof.
  unfold sum_known. transitivity (omap id l = []); [by destruct (omap id l)|].
  induction l as [|[x|] l IH]; cbn; [by rewrite Forall_nil|..]; rewrite Forall_cons; [by split; [|intros [? _]]|].
  rewrite IH. intuition.
Qed.

Lemma numeral_value_bound s : Forall (λ c, 48 ≤ c ≤ 57)%N s → (numeral_value s < 10 ^ N.of_nat (length s))%N.
Proof.
  induction 1 as [|c s Hc _ IH]; [done|]. cbn [numeral_value length].
  rewrite Nat2N.inj_succ, N.pow_succ_r'. set (p := (10 ^ N.of_nat (length s))%N) in *. nia.
Qed.

(** A numeral has no leading zero, unless it is zero. *)
Lemma str_of_N_head n : ∃ c t, str_of_N n = c :: t ∧ (c ≠ 48%N ∨ t = []).
Proof.
  pose proof (str_of_N_digits n) as Hd. pose proof (str_of_N_value n) as Hv.
  destruct (str_of_N n) as [|c t] eqn:E.
  { cbn in Hv. subst. done. }
  exists c, t. split; [done|]. destruct (decide (c = 48%N)) as [->|]; [|by left]. right.
  destruct t as [|c' t]; [done|]. exfalso. apply Forall_cons in Hd as [_ Hd]. apply numeral_value_bound in Hd.
  pose proof (str_of_N_length n (length t)) as Hl. rewrite E in Hl. cbn [length] in Hl, Hd.
  assert (S (S (length t)) ≤ S (length t))%nat; [|lia]. apply Hl. rewrite <- Hv.
  cbn [numeral_value] in Hd |- *. lia.
Qed.

Lemma take_digits_app s r :
  Forall (λ c, 48 ≤ c ≤ 57)%N s → match r with c :: _ => is_digit c = false | [] => True end →
  take_digits (s ++ r) = (s, r).
Proof.
  intros Hs Hr. induction Hs as [|c s Hc _ IH]; cbn [app take_digits].
  - destruct r as [|c r]; [done|]. cbn. by rewrite Hr.
  - assert (is_digit c = true) as -> by (unfold is_digit; lia). by rewrite IH.
Qed.

Lemma zero_padded_digits n z : 0 ≤ z → Forall (λ c, 48 ≤ c ≤ 57)%N (zero_padded n z).
Proof.
  intros Hz. unfold zero_padded, str_of_Z. rewrite (proj2 (Z.ltb_ge _ _) Hz). apply Forall_app.
  split; [|apply str_of_N_digits]. apply Forall_forall. intros c Hc. apply list_elem_of_In, repeat_spec in Hc. lia.
Qed.

(** What PostgreSQL prints for a nonnegative numeric is a decimal string. *)
Lemma numeric_text_decimal s k : 0 ≤ k → decimal_string (numeric_text s k) = true.
Proof.
  intros Hk. unfold numeric_text. rewrite (proj2 (Z.ltb_ge k 0) Hk). cbn [app].
  set (q := Z.to_N _). set (m := Z.abs k mod _).
  assert (0 ≤ m) by (by apply Z.mod_pos_bound, Z.pow_pos_nonneg; lia).
  unfold decimal_string. rewrite take_digits_app; [|apply str_of_N_digits|by destruct s].
  destruct (str_of_N_head q) as (c & t & -> & Hc). cbn iota. apply andb_true_iff. split.
  { apply orb_true_iff. destruct Hc as [Hc|Hc]; [left|right; by apply bool_decide_true].
    by apply negb_true_iff, N.eqb_neq. }
  destruct s as [|s]; [done|]. change (lit ".") with [46%N]. cbn [Nat.eqb app].
  rewrite N.eqb_refl, andb_true_l, andb_true_iff. split.
  - apply bool_decide_true. unfold zero_padded, str_of_Z. rewrite (proj2 (Z.ltb_ge m 0)) by done.
    destruct (str_of_N_head (Z.to_N m)) as (d & u & -> & _). by destruct (repeat 48%N _).
  - apply forallb_forall. intros d Hd. apply list_elem_of_In in Hd. revert d Hd. apply Forall_forall.
    eapply Forall_impl; [by apply (zero_padded_digits (S s) m)|]. intros d Hd. cbv beta in Hd |- *.
    unfold is_digit. lia.
Qed.

Example numeric_text_cent : numeric_text 12 50000000000 = lit "0.050000000000".
Proof. vm_compute. reflexivity. Qed.
Example numeric_units_rounds : numeric_units 2 (Dec (-12345) (-4)) = -123 ∧ numeric_units 2 (Dec 125 (-3)) = 13.
Proof. vm_compute. done. Qed.
