(* ===== verification/Spend.v ===== *)
(** * The spend ledger: [src/src/spine/spend/service.py] and [spend/contracts.py]

    Every purchase is one immutable receipt line.  [SpendService] is the only
    writer: it appends a batch of receipts, or one owner's invoice, in a
    transaction that inserts what is missing and refuses a replay that differs
    from what is stored.  Amounts are decimals on the wire and whole units of
    the column's scale in a row.  Every [datetime] but [as_of] is aware, an
    instant in microseconds. *)
From S2P Require Import Prelude PyStr PyFloat PyDecimal PyJson Ids Sql.
Open Scope Z_scope.

(** ** Receipt lines *)
Inductive SpendBasis := measured | allocated | estimated.
Inductive SpendBehavior := variable | fixed | step_cost.
Inductive SpendPurpose := building | extraction | curation | judge | remember | embedding | scout.

#[export] Instance spend_basis_eq_dec : EqDecision SpendBasis.
Proof. solve_decision. Defined.
#[export] Instance spend_behavior_eq_dec : EqDecision SpendBehavior.
Proof. solve_decision. Defined.
#[export] Instance spend_purpose_eq_dec : EqDecision SpendPurpose.
Proof. solve_decision. Defined.

(** The columns of [SpendEvent], which are the fields of [SpendEventInput];
    [amount] is the type of the two amounts. *)
Record SpendFields (amount : Type) := {
  se_event_uid : str;
  se_ts : Z;
  se_product_type : str;
  se_quantity_type : str;
  se_unit_of_measure : str;
  se_quantity : amount;
  se_cost_usd : option amount;
  se_basis : SpendBasis;
  se_behavior : SpendBehavior;
  se_purpose : SpendPurpose;
  se_principal_id : option str;
  se_machine_id : option str;
  se_origin_agent : option str;
  se_thread_id : option uuid;
  se_run_id : option str;
  se_prompt_id : option str;
  se_memory_id : option uuid;
  se_model : option str;
  se_provider : option str;
  se_quantization : option str;
  se_ref : str;
  se_meta : list (str * json);
}.
Arguments se_event_uid {amount}. Arguments se_ts {amount}. Arguments se_product_type {amount}.
Arguments se_quantity_type {amount}. Arguments se_unit_of_measure {amount}. Arguments se_quantity {amount}.
Arguments se_cost_usd {amount}. Arguments se_basis {amount}. Arguments se_behavior {amount}.
Arguments se_purpose {amount}. Arguments se_principal_id {amount}. Arguments se_machine_id {amount}.
Arguments se_origin_agent {amount}. Arguments se_thread_id {amount}. Arguments se_run_id {amount}.
Arguments se_prompt_id {amount}. Arguments se_memory_id {amount}. Arguments se_model {amount}.
Arguments se_provider {amount}. Arguments se_quantization {amount}. Arguments se_ref {amount}.
Arguments se_meta {amount}.

(** On the wire; in a row, where [quantity] is NUMERIC(30, 9) and [cost_usd]
    NUMERIC(20, 12). *)
Abbreviation SpendEventInput := (SpendFields dec).
Abbreviation SpendEvent := (SpendFields Z).
Abbreviation ledger := (gmap str SpendEvent).

Inductive spend_error :=
  | SpendEventConflictError (event_uid : str)
  | SpendValueError (message : string)
  | ValidationError (field : string)
  | DataError
  | IntegrityError
  | NotPersisted (event_uid : str)
  | SpendKeyError (key : str).

(** ** Contracts *)

(** [ULID] and [NonBlankString] as pydantic leaves them. *)
Definition ulid_ok (s : str) : bool := match normalize_ulid s with Ok t => bool_decide (t = s) | Err _ => false end.
Definition optional {A} (f : A → bool) (o : option A) : bool := match o with Some x => f x | None => true end.

(** A [SpendEventInput] (or an [InvoiceReceipt]) that passed validation. *)
Definition receipt_valid (product_types : list str) (e : SpendEventInput) : bool :=
  ulid_ok (se_event_uid e)
  && bool_decide (se_product_type e ∈ product_types)
  && trimmed (se_quantity_type e) && trimmed (se_unit_of_measure e)
  && dec_ltb d0 (se_quantity e) && decimal_fits 30 9 (se_quantity e)
  && optional (λ c, dec_leb d0 c && decimal_fits 20 12 c) (se_cost_usd e)
  && forallb (optional trimmed)
       [se_principal_id e; se_machine_id e; se_origin_agent e; se_model e; se_provider e; se_quantization e]
  && optional ulid_ok (se_run_id e) && optional ulid_ok (se_prompt_id e)
  && trimmed (se_ref e) && json_proper (JObj (se_meta e)).

Definition llm_request : str := lit "llm.request".
Definition llm_embedding : str := lit "llm.embedding".
Definition infra_run_serve : str := lit "infra.run.serve".
Definition event_valid : SpendEventInput → bool := receipt_valid [llm_request; llm_embedding].
Definition invoice_receipt_valid : SpendEventInput → bool := receipt_valid [infra_run_serve].

(** [invoice_date] counts days from the epoch. *)
Record InfrastructureInvoice := { amount_usd : dec; invoice_date : Z; invoice_id : str }.
Definition invoice_valid (i : InfrastructureInvoice) : bool :=
  dec_ltb d0 (amount_usd i) && decimal_fits 20 12 (amount_usd i) && trimmed (invoice_id i).

(** ** Rows *)

(** The row that storing [event_values(event)] makes. *)
Definition event_row (e : SpendEventInput) : SpendEvent := {|
  se_event_uid := se_event_uid e; se_ts := se_ts e; se_product_type := se_product_type e;
  se_quantity_type := se_quantity_type e; se_unit_of_measure := se_unit_of_measure e;
  se_quantity := numeric_units 9 (se_quantity e); se_cost_usd := numeric_units 12 <$> se_cost_usd e;
  se_basis := se_basis e; se_behavior := se_behavior e; se_purpose := se_purpose e;
  se_principal_id := se_principal_id e; se_machine_id := se_machine_id e; se_origin_agent := se_origin_agent e;
  se_thread_id := se_thread_id e; se_run_id := se_run_id e; se_prompt_id := se_prompt_id e;
  se_memory_id := se_memory_id e; se_model := se_model e; se_provider := se_provider e;
  se_quantization := se_quantization e; se_ref := se_ref e; se_meta := se_meta e |}.

(** Every column but the amounts and the JSONB one. *)
Definition plain_values {A} (e : SpendFields A) :=
  (se_event_uid e, se_ts e, se_product_type e, se_quantity_type e, se_unit_of_measure e,
   (se_basis e, se_behavior e, se_purpose e),
   (se_principal_id e, se_machine_id e, se_origin_agent e, se_thread_id e, se_run_id e, se_prompt_id e),
   (se_memory_id e, se_model e, se_provider e, se_quantization e, se_ref e)).

(** [_row_values(row) == event_values(event)]: decimals and JSON numbers
    compare by value. *)
Definition same_line (row : SpendEvent) (e : SpendEventInput) : bool :=
  bool_decide (plain_values row = plain_values e)
  && dec_eqb (Dec (se_quantity row) (-9)) (se_quantity e)
  && match se_cost_usd row, se_cost_usd e with
     | Some c, Some c' => dec_eqb (Dec c (-12)) c'
     | None, None => true
     | _, _ => false
     end
  && py_eqb (JObj (se_meta row)) (JObj (se_meta e)).

(** What PostgreSQL can store: texts (and texts in a JSONB) hold no NUL. *)
Definition text_ok (s : str) : bool := negb (mem_char 0 s).
Fixpoint json_storable (j : json) : bool :=
  match j with
  | JFloat f => isfinite f
  | JStr s => text_ok s
  | JList l => (fix go l := match l with [] => true | x :: l => json_storable x && go l end) l
  | JObj kv =>
      (fix go (kv : list (str * json)) :=
         match kv with [] => true | (k, v) :: kv => text_ok k && json_storable v && go kv end) kv
  | _ => true
  end.
Definition storable (e : SpendEventInput) : bool :=
  forallb text_ok [se_quantity_type e; se_unit_of_measure e; se_ref e]
  && forallb (optional text_ok)
       [se_principal_id e; se_machine_id e; se_origin_agent e; se_model e; se_provider e; se_quantization e]
  && json_storable (JObj (se_meta e)).

(** ** SpendService *)

(** [INSERT ... ON CONFLICT (event_uid) DO NOTHING]. *)
Definition insert_missing (events : list SpendEventInput) (l : ledger) : ledger :=
  foldl (λ l e, match l !! se_event_uid e with
                | Some _ => l
                | None => <[se_event_uid e := event_row e]> l
                end) l events.

Definition check_stored (l : ledger) (e : SpendEventInput) : res spend_error unit :=
  match l !! se_event_uid e with
  | None => Err (NotPersisted (se_event_uid e))
  | Some row => guard_ (same_line row e) (SpendEventConflictError (se_event_uid e))
  end.

Definition append (events : list SpendEventInput) (l : ledger) : res spend_error (Z * ledger) :=
  guard_ (negb (bool_decide (events = []))) (SpendValueError "spend receipt batch must not be empty");;
  guard_ (nodupb (se_event_uid <$> events))
    (SpendValueError "spend receipt batch must have unique event_uid values");;
  guard_ (forallb storable events) DataError;;
  let l' := insert_missing events l in
  _ ← res_map (check_stored l') events;
  Ok (zlen events, l').

Definition invoice_ref (i : InfrastructureInvoice) : str := lit "gcp-invoice:" ++ invoice_id i.

(** The first row the SELECT of [invoice] returns. *)
Definition is_invoice (principal ref : str) (row : SpendEvent) : bool :=
  bool_decide (se_principal_id row = Some principal) && bool_decide (se_ref row = ref)
  && bool_decide (se_product_type row = infra_run_serve).
Definition existing_invoice (principal ref : str) (l : ledger) : option SpendEvent :=
  head (filter (λ row, is_invoice principal ref row = true) (map_to_list l).*2).

Definition DAY : Z := 86400 * 1000000.

Definition invoice_receipt (uid principal : str) (i : InfrastructureInvoice) : SpendEventInput := {|
  se_event_uid := uid; se_ts := invoice_date i * DAY; se_product_type := infra_run_serve;
  se_quantity_type := lit "invoice"; se_unit_of_measure := lit "invoice"; se_quantity := dec_of_Z 1;
  se_cost_usd := Some (amount_usd i); se_basis := measured; se_behavior := fixed; se_purpose := building;
  se_principal_id := Some principal; se_machine_id := None; se_origin_agent := None; se_thread_id := None;
  se_run_id := None; se_prompt_id := None; se_memory_id := None; se_model := None;
  se_provider := Some (lit "gcp"); se_quantization := None; se_ref := invoice_ref i;
  se_meta := [(lit "source", JStr (lit "manual_invoice")); (lit "invoice_id", JStr (invoice_id i))] |}.

(** [minted] is the identifier [mint_ulid] would return. *)
Definition invoice (minted principal : str) (i : InfrastructureInvoice) (l : ledger) :
    res spend_error (Z * ledger) :=
  let existing := existing_invoice principal (invoice_ref i) l in
  let receipt := invoice_receipt (from_option se_event_uid minted existing) principal i in
  guard_ (invoice_receipt_valid receipt) (ValidationError "InvoiceReceipt");;
  match existing with
  | Some row =>
      guard_ (same_line row receipt) (SpendEventConflictError (se_event_uid row));;
      Ok (1, l)
  | None =>
      guard_ (storable receipt) DataError;;
      guard_ (bool_decide (l !! minted = None)) IntegrityError;;
      Ok (1, <[minted := event_row receipt]> l)
  end.

(** The ledger moves by committed calls with validated bodies. *)
Inductive ledger_step (l : ledger) : ledger → Prop :=
  | step_append events n l' :
      forallb event_valid events = true → append events l = Ok (n, l') → ledger_step l l'
  | step_invoice minted principal i n l' :
      invoice_valid i = true → invoice minted principal i l = Ok (n, l') → ledger_step l l'.
