(* ===== verification/SpendFacts.v ===== *)
(** * Receipts are appended once and never change; an invoice is billed once *)
From stdpp Require Import relations.
From S2P Require Import Prelude PyStr PyFloat PyDecimal PyJson Ids Sql Spend.
Open Scope Z_scope.

(** ** Appending a batch *)

(** The rows a batch would add to an empty ledger. *)
Definition receipts (events : list SpendEventInput) : ledger :=
  list_to_map ((λ e, (se_event_uid e, event_row e)) <$> events).

(** Nothing else is stored under the identifier of the event. *)
Definition agrees (l : ledger) (e : SpendEventInput) : Prop :=
  ∀ row, l !! se_event_uid e = Some row → same_line row e = true.

Lemma insert_missing_union events l : insert_missing events l = l ∪ receipts events.
Proof.
  revert l. induction events as [|e events IH]; intros l; [symmetry; apply (right_id_L ∅ (∪))|].
  change (receipts (e :: events)) with (<[se_event_uid e := event_row e]> (receipts events)).
  change (insert_missing (e :: events) l) with
    (insert_missing events (match l !! se_event_uid e with Some _ => l | None => <[se_event_uid e := event_row e]> l end)).
  rewrite IH. destruct (l !! se_event_uid e) as [row|] eqn:E.
  - apply map_eq. intros k. destruct (decide (k = se_event_uid e)) as [->|].
    + by rewrite !(lookup_union_Some_l _ _ _ _ E).
    + by rewrite !lookup_union, lookup_insert_ne.
  - by rewrite <- insert_union_l, insert_union_r.
Qed.

Lemma receipts_lookup events e :
  NoDup (se_event_uid <$> events) → e ∈ events → receipts events !! se_event_uid e = Some (event_row e).
Proof.
  intros Hnd He. apply elem_of_list_to_map_1.
  - by rewrite <- list_fmap_compose.
  - apply list_elem_of_fmap. by exists e.
Qed.

Lemma same_line_row types e : receipt_valid types e = true → same_line (event_row e) e = true.
Proof.
  unfold receipt_valid. intros Hv. breflect. unfold same_line. rewrite !andb_true_iff. split_and!.
  - by apply bool_decide_true.
  - match goal with H : decimal_fits 30 9 _ = true |- _ => by apply andb_true_iff in H as [? _] end.
  - cbn [event_row se_cost_usd]. destruct (se_cost_usd e) as [c|]; [|done]. cbn [fmap option_fmap option_map optional] in *.
    breflect. match goal with H : decimal_fits 20 12 _ = true |- _ => by apply andb_true_iff in H as [? _] end.
  - by apply py_eqb_refl.
Qed.

Lemma valid_each events e : forallb event_valid events = true → e ∈ events → event_valid e = true.
Proof. rewrite forallb_forall. intros H He. by apply H, list_elem_of_In. Qed.

(** What the check after the insertion finds. *)
Lemma check_stored_spec events l e :
  NoDup (se_event_uid <$> events) → e ∈ events → event_valid e = true →
  (check_stored (l ∪ receipts events) e = Ok tt ∧ agrees l e)
  ∨ (check_stored (l ∪ receipts events) e = Err (SpendEventConflictError (se_event_uid e)) ∧ ¬ agrees l e).
Proof.
  intros Hnd He Hv. unfold check_stored, agrees. destruct (l !! se_event_uid e) as [row|] eqn:E.
  - rewrite (lookup_union_Some_l _ _ _ _ E). destruct (same_line row e) eqn:Hs; [left|right]; cbn [guard_].
    + split; [done|]. by intros ? [= <-].
    + split; [done|]. intros Ha. specialize (Ha row eq_refl). congruence.
  - rewrite lookup_union_r, (receipts_lookup _ _ Hnd He), (same_line_row _ _ Hv) by done. by left.
Qed.

Lemma check_all_Ok events l :
  NoDup (se_event_uid <$> events) → forallb event_valid events = true →
  (∃ us, res_map (check_stored (l ∪ receipts events)) events = Ok us) ↔ Forall (agrees l) events.
Proof.
  intros Hnd Hv. rewrite res_map_unit, Forall_forall. split; intros H e He;
    destruct (check_stored_spec events l e Hnd He (valid_each _ _ Hv He)) as [[? ?]|[Hc Ha]]; try done.
  - specialize (H e He). congruence.
  - by destruct Ha; apply H.
Qed.

Lemma append_Ok events l n l' :
  append events l = Ok (n, l') →
  events ≠ [] ∧ NoDup (se_event_uid <$> events) ∧ forallb storable events = true ∧
  n = zlen events ∧ l' = l ∪ receipts events ∧ ∃ us, res_map (check_stored l') events = Ok us.
Proof.
  unfold append, nodupb. intros H.
  apply bind_Ok in H as (? & Hne%guard_Ok & H). apply bind_Ok in H as (? & Hnd%guard_Ok & H).
  apply bind_Ok in H as (? & Hs%guard_Ok & H). cbn zeta in H. apply bind_Ok in H as (us & Hc & [= <- <-]).
  breflect. rewrite insert_missing_union in *. eauto 10.
Qed.

Lemma append_complete events l :
  forallb event_valid events = true → events ≠ [] → NoDup (se_event_uid <$> events) →
  forallb storable events = true → Forall (agrees l) events →
  append events l = Ok (zlen events, l ∪ receipts events).
Proof.
  intros Hv Hne Hnd Hs [us Ha]%(check_all_Ok _ _ Hnd Hv). unfold append, nodupb.
  rewrite (bool_decide_false (events = [])), (bool_decide_true (NoDup _)), Hs by done. cbn [negb guard_ mbind res_bind].
  by rewrite insert_missing_union, Ha.
Qed.

Lemma receipts_agree events l e :
  NoDup (se_event_uid <$> events) → e ∈ events → event_valid e = true → agrees l e →
  agrees (l ∪ receipts events) e.
Proof.
  intros Hnd He Hv Ha row. destruct (l !! se_event_uid e) as [old|] eqn:E.
  - rewrite (lookup_union_Some_l _ _ _ _ E). intros [= <-]. by apply Ha.
  - rewrite lookup_union_r, (receipts_lookup _ _ Hnd He) by done. intros [= <-]. by eapply same_line_row.
Qed.


(** ** Invoices *)

Definition row_ok (row : SpendEvent) : Prop :=
  ∃ e, receipt_valid [llm_request; llm_embedding; infra_run_serve] e = true ∧ row = event_row e.

Record ledger_inv (l : ledger) : Prop := {
  li_rows : ∀ uid row, l !! uid = Some row → se_event_uid row = uid ∧ row_ok row;
  li_invoices : ∀ principal ref uid uid' row row',
    l !! uid = Some row → l !! uid' = Some row' →
    is_invoice principal ref row = true → is_invoice principal ref row' = true → uid = uid';
}.

Lemma receipt_valid_types types types' e :
  (∀ t, t ∈ types → t ∈ types') → receipt_valid types e = true → receipt_valid types' e = true.
Proof.
  intros Hsub. unfold receipt_valid. rewrite !andb_true_iff, !bool_decide_eq_true. intuition auto.
Qed.

Lemma is_invoice_type principal ref row : is_invoice principal ref row = true → se_product_type row = infra_run_serve.
Proof. unfold is_invoice. intros H. by breflect. Qed.

Lemma event_not_invoice principal ref e : event_valid e = true → is_invoice principal ref (event_row e) = false.
Proof.
  intros Hv. apply not_true_is_false. intros Ht%is_invoice_type. cbn in Ht.
  unfold event_valid, receipt_valid in Hv. breflect. rewrite Ht in *. set_solver.
Qed.

Lemma receipts_elem events uid row : receipts events !! uid = Some row → ∃ e, e ∈ events ∧ row = event_row e ∧ uid = se_event_uid e.
Proof. intros (e & [= -> ->] & He)%elem_of_list_to_map_2%list_elem_of_fmap. eauto. Qed.

Lemma existing_None principal ref l :
  existing_invoice principal ref l = None ↔ ∀ uid row, l !! uid = Some row → is_invoice principal ref row = false.
Proof.
  unfold existing_invoice. split.
  - intros Hf uid row Hl. destruct (is_invoice principal ref row) eqn:E; [|done]. exfalso.
    assert (Hin : row ∈ filter (λ row, is_invoice principal ref row = true) (map_to_list l).*2).
    { apply list_elem_of_filter. split; [done|]. apply list_elem_of_fmap. exists (uid, row).
      split; [done|]. by apply elem_of_map_to_list. }
    destruct (filter _ _); [by apply elem_of_nil in Hin|done].
  - intros Hall. destruct (filter _ _) as [|row rows] eqn:E; [done|]. exfalso.
    assert (Hin : row ∈ filter (λ row, is_invoice principal ref row = true) (map_to_list l).*2) by (rewrite E; by left).
    apply list_elem_of_filter in Hin as [Hi ([uid r] & -> & Hl%elem_of_map_to_list)%list_elem_of_fmap].
    cbn in Hi. rewrite (Hall _ _ Hl) in Hi. done.
Qed.

Lemma existing_Some principal ref l row :
  existing_invoice principal ref l = Some row → ∃ uid, l !! uid = Some row ∧ is_invoice principal ref row = true.
Proof.
  unfold existing_invoice. destruct (filter _ _) as [|r rows] eqn:E; [done|]. intros [= ->].
  assert (Hin : row ∈ filter (λ row, is_invoice principal ref row = true) (map_to_list l).*2) by (rewrite E; by left).
  apply list_elem_of_filter in Hin as [Hi ([uid r] & -> & Hl%elem_of_map_to_list)%list_elem_of_fmap]. eauto.
Qed.

(** The one invoice of a name is the one the SELECT finds. *)
Lemma existing_unique l principal ref uid row :
  ledger_inv l → l !! uid = Some row → is_invoice principal ref row = true →
  existing_invoice principal ref l = Some row.
Proof.
  intros Hinv Hl Hi. destruct (existing_invoice principal ref l) as [r|] eqn:E.
  - apply existing_Some in E as (uid' & Hl' & Hi').
    pose proof (li_invoices _ Hinv _ _ _ _ _ _ Hl Hl' Hi Hi') as ->. congruence.
  - rewrite existing_None in E. rewrite (E _ _ Hl) in Hi. done.
Qed.

Lemma invoice_is_invoice uid principal i : is_invoice principal (invoice_ref i) (event_row (invoice_receipt uid principal i)) = true.
Proof. unfold is_invoice. cbn. rewrite !bool_decide_true by done. done. Qed.

Lemma is_invoice_inv uid principal i p ref :
  is_invoice p ref (event_row (invoice_receipt uid principal i)) = true → p = principal ∧ ref = invoice_ref i.
Proof. unfold is_invoice. intros Hi. breflect. cbn in *. split; congruence. Qed.

(** What an accepted invoice leaves: its receipt, found by the SELECT. *)
Lemma invoice_Ok minted principal i l n l' :
  ledger_inv l → invoice minted principal i l = Ok (n, l') →
  n = 1 ∧ ∃ uid row, l' !! uid = Some row ∧ is_invoice principal (invoice_ref i) row = true ∧
    invoice_receipt_valid (invoice_receipt uid principal i) = true ∧
    same_line row (invoice_receipt uid principal i) = true ∧ se_event_uid row = uid ∧
    (l' = l ∨ (existing_invoice principal (invoice_ref i) l = None ∧ l !! uid = None ∧
               row = event_row (invoice_receipt uid principal i) ∧ l' = <[uid := row]> l)).
Proof.
  intros Hinv. unfold invoice. cbn zeta. destruct (existing_invoice _ _ l) as [row|] eqn:E; cbn [from_option]; intros H.
  - apply bind_Ok in H as (? & Hv%guard_Ok & H). apply bind_Ok in H as (? & Hs%guard_Ok & [= <- <-]).
    split; [done|]. destruct (existing_Some _ _ _ _ E) as (uid & Hl & Hi).
    destruct (li_rows _ Hinv _ _ Hl) as [Hu _]. subst uid. exists (se_event_uid row), row. eauto 10.
  - apply bind_Ok in H as (? & Hv%guard_Ok & H). apply bind_Ok in H as (? & Hs%guard_Ok & H).
    apply bind_Ok in H as (? & Hf%guard_Ok%bool_decide_eq_true & [= <- <-]).
    split; [done|]. exists minted, (event_row (invoice_receipt minted principal i)).
    rewrite lookup_insert_eq. split_and!; try done; [apply invoice_is_invoice|by eapply same_line_row|by right].
Qed.

Lemma ledger_step_inv l l' : ledger_step l l' → ledger_inv l → ledger_inv l' ∧ l ⊆ l'.
Proof.
  intros [events n l1 Hv H|minted principal i n l1 Hv H] Hinv.
  - apply append_Ok in H as (_ & _ & _ & _ & -> & _). split; [|by apply map_union_subseteq_l].
    assert (Hnew : ∀ uid row, (l ∪ receipts events) !! uid = Some row →
      l !! uid = Some row ∨ ∃ e, e ∈ events ∧ row = event_row e ∧ uid = se_event_uid e).
    { intros uid row [Hl|[_ Hl]]%lookup_union_Some_raw; [by left|right; by apply receipts_elem]. }
    split.
    + intros uid row [Hl|(e & He & -> & ->)]%Hnew; [by apply Hinv|]. split; [done|]. exists e. split; [|done].
      eapply receipt_valid_types; [|by apply (valid_each _ _ Hv He)]. set_solver.
    + intros p ref uid uid' row row' [Hl|(e & He & -> & ->)]%Hnew [Hl'|(e' & He' & -> & ->)]%Hnew Hi Hi'.
      * by eapply (li_invoices _ Hinv).
      * by rewrite event_not_invoice in Hi' by (by eapply valid_each).
      * by rewrite event_not_invoice in Hi by (by eapply valid_each).
      * by rewrite event_not_invoice in Hi by (by eapply valid_each).
  - apply invoice_Ok in H as (-> & uid & row & Hl & Hi & Hrv & Hs & Hu & [->|(Hnone & Hf & -> & ->)]); [done| |done].
    split; [|by apply insert_subseteq]. split.
    + intros k r [[<- <-]|[_ Hk]]%lookup_insert_Some; [|by apply Hinv]. split; [done|].
      eexists. split; [|done]. eapply receipt_valid_types; [|exact Hrv]. set_solver.
    + rewrite existing_None in Hnone.
      intros p ref k k' r r' [[<- <-]|[Hne Hk]]%lookup_insert_Some [[<- <-]|[Hne' Hk']]%lookup_insert_Some Hr Hr'.
      * done.
      * apply is_invoice_inv in Hr as [-> ->]. rewrite (Hnone _ _ Hk') in Hr'. done.
      * apply is_invoice_inv in Hr' as [-> ->]. rewrite (Hnone _ _ Hk) in Hr. done.
      * by eapply (li_invoices _ Hinv).
Qed.

Lemma ledger_reachable_inv l : rtc ledger_step ∅ l → ledger_inv l.
Proof.
  apply rtc_ind_r.
  - split; intros *; by rewrite !lookup_empty.
  - intros l1 l2 _ Hs Hinv. by apply (ledger_step_inv _ _ Hs).
Qed.

(** Two bills of one name are the same exactly when amount and date agree. *)
Definition same_bill (i j : InfrastructureInvoice) : bool :=
  dec_eqb (amount_usd i) (amount_usd j) && (invoice_date i =? invoice_date j).

Lemma dec_eqb_via a b c : dec_eqb a b = true → dec_eqb a c = dec_eqb b c.
Proof.
  unfold dec_eqb. destruct (dec_compare_scale3 a b c) as (x & y & z & -> & -> & ->).
  destruct (Z.compare_spec x y) as [->| |]; done.
Qed.

Lemma same_line_invoice row uid principal i j :
  invoice_id j = invoice_id i → json_proper (JObj (se_meta (invoice_receipt uid principal j))) = true →
  same_line row (invoice_receipt uid principal i) = true →
  same_line row (invoice_receipt uid principal j) = same_bill i j.
Proof.
  intros Hid Hp. unfold same_line, same_bill. cbn [invoice_receipt se_quantity se_cost_usd se_meta].
  intros Hs. breflect. destruct (se_cost_usd row) as [c|]; [|done].
  match goal with H : plain_values row = _ |- _ => rewrite H end.
  match goal with H : dec_eqb (Dec c _) _ = true |- _ => rewrite (dec_eqb_via _ _ _ H) end.
  match goal with H : dec_eqb (Dec (se_quantity row) _) _ = true |- _ => rewrite H end.
  rewrite Hid. match goal with H : py_eqb _ _ = true |- _ => rewrite H end. rewrite !andb_true_r.
  unfold plain_values, invoice_receipt, invoice_ref. cbn. rewrite Hid. destruct (invoice_date i =? invoice_date j) eqn:E.
  - apply Z.eqb_eq in E as ->. rewrite bool_decide_true by done. by rewrite andb_true_r.
  - apply Z.eqb_neq in E. rewrite andb_false_r. rewrite bool_decide_false; [done|]. unfold DAY. intros [= ?]. lia.
Qed.

Lemma invoice_receipt_valid_other uid principal i j :
  invoice_id j = invoice_id i → invoice_valid j = true →
  invoice_receipt_valid (invoice_receipt uid principal i) = true →
  invoice_receipt_valid (invoice_receipt uid principal j) = true.
Proof.
  intros Hid Hv Hr. unfold invoice_receipt_valid, receipt_valid in *.
  replace (se_ref (invoice_receipt uid principal j)) with (se_ref (invoice_receipt uid principal i))
    by (cbn [invoice_receipt se_ref]; unfold invoice_ref; by rewrite Hid).
  replace (se_meta (invoice_receipt uid principal j)) with (se_meta (invoice_receipt uid principal i))
    by (cbn [invoice_receipt se_meta]; by rewrite Hid).
  rewrite !andb_true_iff in Hr |- *. destruct Hr as ((((((? & _) & ?) & ?) & ?) & ?) & ?).
  split_and!; try assumption; try (by apply H). cbn [invoice_receipt se_cost_usd optional].
  unfold invoice_valid in Hv. breflect. apply andb_true_iff. split; [|assumption].
  unfold dec_leb, dec_ltb in *. by destruct (dec_compare d0 (amount_usd j)).
Qed.

(** An invoice is billed once.  In every ledger the service can reach, a
    principal has at most one receipt per invoice name.  An accepted invoice
    leaves exactly one receipt with its amount and date and keeps every stored
    row; entering the name again, whatever identifier is minted, changes
    nothing when amount and date agree and is otherwise refused as a conflict
    with that receipt. *)
Theorem invoice_once (l : ledger) :
  rtc ledger_step ∅ l →
  (∀ principal ref uid uid' row row', l !! uid = Some row → l !! uid' = Some row' →
     is_invoice principal ref row = true → is_invoice principal ref row' = true → uid = uid')
  ∧ ∀ minted principal i n l', invoice_valid i = true → invoice minted principal i l = Ok (n, l') →
      n = 1 ∧ l ⊆ l' ∧ ∃ uid row, l' !! uid = Some row ∧ is_invoice principal (invoice_ref i) row = true ∧
        se_cost_usd row = Some (numeric_units 12 (amount_usd i)) ∧ se_ts row = invoice_date i * DAY ∧
        ∀ minted' j, invoice_id j = invoice_id i → invoice_valid j = true →
          invoice minted' principal j l' =
            if same_bill i j then Ok (1, l') else Err (SpendEventConflictError uid).
Proof.
  intros Hinv%ledger_reachable_inv. split; [apply (li_invoices _ Hinv)|].
  intros minted principal i n l' Hiv H.
  destruct (ledger_step_inv l l') as [Hinv' Hsub]; [by eapply step_invoice|done|].
  destruct (invoice_Ok _ _ _ _ _ _ Hinv H) as (-> & uid & row & Hl & Hi & Hrv & Hs & Hu & _).
  split_and!; [done..|]. exists uid, row. split_and!; [done..| | |].
  - unfold same_line in Hs. breflect. cbn [invoice_receipt se_cost_usd] in *. destruct (se_cost_usd row) as [c|]; [|done].
    unfold invoice_valid, decimal_fits in Hiv. breflect. f_equal.
    match goal with H : dec_eqb (Dec c (-12)) ?a = true, H' : dec_eqb (Dec ?u _) ?a = true |- _ =>
      unfold dec_eqb, dec_compare, rescaled in H, H'; revert H H' end.
    cbn [coef dexp]. change (- (12)) with (-12). set (e := Z.min _ _).
    assert (0 < 10 ^ (-12 - e)) by (apply Z.pow_pos_nonneg; lia). set (p := 10 ^ (-12 - e)) in *.
    destruct (Z.compare_spec (c * p) (coef (amount_usd i) * 10 ^ (dexp (amount_usd i) - e))) as [E| |]; [|done..].
    destruct (Z.compare_spec (numeric_units 12 (amount_usd i) * p) (coef (amount_usd i) * 10 ^ (dexp (amount_usd i) - e))); [|done..].
    nia.
  - unfold same_line in Hs. breflect. unfold plain_values in *. cbn in *. congruence.
  - intros minted' j Hj Hjv. pose proof (invoice_receipt_valid_other uid principal i j Hj Hjv Hrv) as Hrv'.
    assert (invoice_ref j = invoice_ref i) as Href by (unfold invoice_ref; congruence).
    unfold invoice. cbn zeta. rewrite Href, (existing_unique _ _ _ _ _ Hinv' Hl Hi). cbn [from_option]. rewrite Hu, Hrv'. cbn [guard_ mbind res_bind].
    rewrite (same_line_invoice _ _ _ i j Hj) by (done || by unfold invoice_receipt_valid, receipt_valid in Hrv'; breflect).
    by destruct (same_bill i j).
Qed.

(** ** Concrete ledgers *)
Definition sample_uid : str := lit "01HZY9K3V5X7M2N4P6Q8R0S1T2".
Definition sample_event (cost : Z) : SpendEventInput := {|
  se_event_uid := sample_uid; se_ts := 1750000000000000; se_product_type := llm_request;
  se_quantity_type := lit "output"; se_unit_of_measure := lit "tokens"; se_quantity := Dec 1200 0;
  se_cost_usd := Some (Dec cost (-6)); se_basis := measured; se_behavior := variable; se_purpose := building;
  se_principal_id := Some (lit "nate"); se_machine_id := None; se_origin_agent := Some (lit "main");
  se_thread_id := Some 7%N; se_run_id := None; se_prompt_id := None; se_memory_id := None;
  se_model := Some (lit "m"); se_provider := None; se_quantization := None; se_ref := lit "r1";
  se_meta := [(lit "cached", JFloat f0)] |}.

Definition spent (cost : Z) : ledger :=
  match append [sample_event cost] ∅ with Ok (_, l) => l | Err _ => ∅ end.

Example append_conflict : append [sample_event 16] (spent 15) = Err (SpendEventConflictError sample_uid).
Proof. vm_compute. reflexivity. Qed.


Definition sample_invoice (amount : Z) : InfrastructureInvoice :=
  {| amount_usd := Dec amount (-2); invoice_date := 20000; invoice_id := lit "INV-7" |}.

Definition billed : ledger :=
  match invoice sample_uid (lit "nate") (sample_invoice 4200) ∅ with Ok (_, l) => l | Err _ => ∅ end.

Lemma billed_run : invoice sample_uid (lit "nate") (sample_invoice 4200) ∅ = Ok (1, billed).
Proof. vm_compute. reflexivity. Qed.

Lemma invoice_once_witness :
  invoice sample_uid (lit "nate") (sample_invoice 4200) ∅ = Ok (1, billed) ∧
  invoice (lit "01HZY9K3V5X7M2N4P6Q8R0S1T3") (lit "nate") (sample_invoice 4200) billed = Ok (1, billed).
Proof.
  split; [exact billed_run|].
  destruct (invoice_once ∅ (rtc_refl _ _)) as [_ H].
  destruct (H sample_uid (lit "nate") (sample_invoice 4200) 1 billed ltac:(vm_compute; reflexivity) billed_run)
    as (_ & _ & uid & row & _ & _ & _ & _ & Hr).
  etransitivity; [apply (Hr _ (sample_invoice 4200) eq_refl); vm_compute; reflexivity|].
  assert (same_bill (sample_invoice 4200) (sample_invoice 4200) = true) as -> by (vm_compute; reflexivity). reflexivity.
Defined.
