(* ===== verification/SpendTable.v ===== *)
(** * The spend report: [SpendService.table] of [src/src/spine/spend/service.py]

    A read-only projection of the ledger: per thread and model, per purpose
    outside threads, per minute lane, per message and per UTC day, with the
    receipts behind them.  The report reads one snapshot; the rates of a whole
    Palace come from the materialized view [v_spend_rate], which
    [spend/views.py] refreshes from the ledger.  Token counts are units of
    10 ^ -9, dollars units of 10 ^ -12. *)
From S2P Require Import Prelude PyStr PyFloat PyDecimal PyJson Ids Sql Spend.
Open Scope Z_scope.

Definition HOUR : Z := 3600 * 1000000.
Definition MINUTE : Z := 60 * 1000000.
(** [date_trunc] to a minute or a UTC day. *)
Definition date_trunc (unit ts : Z) : Z := ts / unit * unit.

(** ** Metrics *)
Record SpendTableMetrics := {
  input_tokens : Z;
  kv_cache_tokens : Z;
  reasoning_tokens : Z;
  output_tokens : Z;
  total_usd : option Z;
  total_receipt_lines : Z;
  total_unpriced_lines : Z;
  spend_per_hour_usd : option Z;
  hourly_receipt_lines : Z;
  hourly_unpriced_lines : Z;
}.

Definition unpriced (row : SpendEvent) : bool := bool_decide (se_cost_usd row = None).
Definition count_rows (f : SpendEvent → bool) (rows : list SpendEvent) : Z := zlen (filter (λ r, f r = true) rows).

(** One token lane of the CTE [base], summed. *)
Definition lane (types : list str) (row : SpendEvent) : Z :=
  if bool_decide (se_unit_of_measure row = lit "tokens") && bool_decide (se_quantity_type row ∈ types)
  then se_quantity row else 0.

(** [_AGGREGATE_COLUMNS] over one group. *)
Definition aggregate (window_start : Z) (rows : list SpendEvent) : SpendTableMetrics :=
  let hour := filter (λ r, (window_start <=? se_ts r) = true) rows in {|
  input_tokens := zsum (lane [lit "input_fresh"] <$> rows);
  kv_cache_tokens := zsum (lane [lit "input_cached"; lit "cache_write"] <$> rows);
  reasoning_tokens := zsum (lane [lit "reasoning"] <$> rows);
  output_tokens := zsum (lane [lit "output"] <$> rows);
  total_usd := sum_known (se_cost_usd <$> rows);
  total_receipt_lines := zlen rows;
  total_unpriced_lines := count_rows unpriced rows;
  spend_per_hour_usd := sum_known (se_cost_usd <$> hour);
  hourly_receipt_lines := zlen hour;
  hourly_unpriced_lines := count_rows unpriced hour |}.

(** [_require_honest_cost]. *)
Definition honest_cost (cost : option Z) (receipt_lines unpriced_lines : Z) : bool :=
  (unpriced_lines <=? receipt_lines)
  && negb ((receipt_lines =? unpriced_lines) && (0 <? receipt_lines) && bool_decide (cost ≠ None))
  && negb (negb (receipt_lines =? unpriced_lines) && bool_decide (cost = None)).

(** [SpendTableMetrics] accepts: bounds of the fields, then the validator. *)
Definition metrics_fit (m : SpendTableMetrics) : bool :=
  forallb (λ t, (0 <=? t) && (t <? 10 ^ 30))
    [input_tokens m; kv_cache_tokens m; reasoning_tokens m; output_tokens m]
  && forallb (optional (λ c, (0 <=? c) && (c <? 10 ^ 20))) [total_usd m; spend_per_hour_usd m].
Definition metrics_honest (m : SpendTableMetrics) : bool :=
  honest_cost (total_usd m) (total_receipt_lines m) (total_unpriced_lines m)
  && honest_cost (spend_per_hour_usd m) (hourly_receipt_lines m) (hourly_unpriced_lines m).
Definition metrics_valid (m : SpendTableMetrics) : bool := metrics_fit m && metrics_honest m.

Record ModelSpendRow := { ms_model : option str; ms_metrics : SpendTableMetrics }.
Record ThreadSpendRow := { ts_thread_id : uuid; ts_models : list ModelSpendRow; ts_metrics : SpendTableMetrics }.
Record PurposeSpendRow := { ps_purpose : SpendPurpose; ps_label : str; ps_metrics : SpendTableMetrics }.

Definition purpose_str (p : SpendPurpose) : str :=
  match p with
  | building => lit "building" | extraction => lit "extraction" | curation => lit "curation"
  | judge => lit "judge" | remember => lit "remember" | embedding => lit "embedding" | scout => lit "scout"
  end.

(** [_PURPOSE_LABELS]. *)
Definition purpose_label (p : SpendPurpose) : str :=
  match p with
  | building => lit "Building" | extraction => lit "Memory extraction" | curation => lit "Memory keeping"
  | judge => lit "Judging" | remember => lit "Remembering" | embedding => lit "Embeddings"
  | scout => lit "Verification"
  end.

(** ** The history part of the report *)
Record SpendPoint := { sp_minute : Z; sp_cost_usd : option str; sp_receipt_lines : Z; sp_unpriced_lines : Z }.
Record SpendRateLane := { rl_dimension : str; rl_key : option str; rl_label : str; rl_points : list SpendPoint }.
Record MessageCache := {
  mc_thread_id : uuid; mc_prompt_id : option str; mc_first_request_at : Z;
  mc_fresh_tokens : str; mc_cached_tokens : str; mc_cache_write_tokens : str;
}.
Record DailySpend := {
  ds_day : Z; ds_model_usd : option str; ds_infrastructure_usd : option str; ds_total_usd : option str;
  ds_unpriced_lines : Z;
}.
Record SpendReceipt := {
  sr_event_uid : str; sr_ts : Z; sr_thread_id : option uuid; sr_model : option str; sr_purpose : str;
  sr_quantity_type : str; sr_unit_of_measure : str; sr_quantity : str; sr_cost_usd : option str;
  sr_basis : SpendBasis; sr_ref : str;
}.

Record SpendTableSnapshot := {
  st_as_of : Z;
  st_threads : list ThreadSpendRow;
  st_purposes : list PurposeSpendRow;
  st_rates : list SpendRateLane;
  st_rate_source : str;
  st_messages : list MessageCache;
  st_days : list DailySpend;
  st_receipts : list SpendReceipt;
}.

(** A row of [v_spend_rate], or of the CTE that stands in for it. *)
Record MinuteRow := {
  mr_minute : Z; mr_purpose : SpendPurpose; mr_model : option str;
  mr_cost_usd : option Z; mr_receipt_lines : Z; mr_unpriced_lines : Z;
}.

(** A row of the CTE [lanes]. *)
Record LaneRow := {
  lr_dimension : str; lr_key : option str; lr_minute : Z;
  lr_cost_usd : option Z; lr_receipt_lines : Z; lr_unpriced_lines : Z;
}.

Definition minute_rows (rows : list SpendEvent) : list MinuteRow :=
  (λ '((minute, purpose, model), group), {|
     mr_minute := minute; mr_purpose := purpose; mr_model := model;
     mr_cost_usd := sum_known (se_cost_usd <$> group); mr_receipt_lines := zlen group;
     mr_unpriced_lines := count_rows unpriced group |})
  <$> group_by (λ r, (date_trunc MINUTE (se_ts r), se_purpose r, se_model r)) rows.

(** [REFRESH MATERIALIZED VIEW v_spend_rate]: the view also groups by
    provider. *)
Definition refresh_rate_view (l : ledger) : list MinuteRow :=
  (λ '((minute, purpose, model, _), group), {|
     mr_minute := minute; mr_purpose := purpose; mr_model := model;
     mr_cost_usd := sum_known (se_cost_usd <$> group); mr_receipt_lines := zlen group;
     mr_unpriced_lines := count_rows unpriced group |})
  <$> group_by (λ r, (date_trunc MINUTE (se_ts r), se_purpose r, se_model r, se_provider r)) (map_to_list l).*2.

(** [origin_agent ~ '/root\.|/[0-7][0-9A-HJKMNP-TV-Z]{25}$']. *)
Definition subagent_name (s : str) : bool :=
  infixb (lit "/root.") s
  || match drop (length s - 27) s with
     | slash :: first :: rest =>
         (slash =? 47)%N && ((48 <=? first) && (first <=? 55))%N && (length rest =? 25)%nat && forallb ulid_upper_char rest
     | _ => false
     end.

Definition LANE_LABELS : list (str * str) :=
  [(lit "total", lit "Total"); (lit "curation", lit "Memory curation"); (lit "agent", lit "Agent");
   (lit "subagent", lit "Sub-agent"); (lit "model", lit "Model")].

(** The three lanes a minute row feeds. *)
Definition minute_lanes (r : MinuteRow) : list LaneRow :=
  let row dimension key := {|
    lr_dimension := dimension; lr_key := key; lr_minute := mr_minute r; lr_cost_usd := mr_cost_usd r;
    lr_receipt_lines := mr_receipt_lines r; lr_unpriced_lines := mr_unpriced_lines r |} in
  [row (lit "total") None; row (lit "model") (mr_model r)]
  ++ (if bool_decide (mr_purpose r = curation) then [row (lit "curation") (Some (lit "curation"))] else []).

Definition agent_dimension (agent : option str) : str :=
  if from_option subagent_name false agent then lit "subagent" else lit "agent".

Definition agent_lanes (window_start : Z) (base : list SpendEvent) : list LaneRow :=
  (λ '((minute, dimension, key), group), {|
     lr_dimension := dimension; lr_key := key; lr_minute := minute; lr_cost_usd := sum_known (se_cost_usd <$> group);
     lr_receipt_lines := zlen group; lr_unpriced_lines := count_rows unpriced group |})
  <$> group_by (λ r, (date_trunc MINUTE (se_ts r), agent_dimension (se_origin_agent r), se_origin_agent r))
        (filter (λ r, window_start ≤ se_ts r ∧ se_product_type r = llm_request) base).

Definition checked_text (s : option str) : bool := optional decimal_string s.

Section report.
Context `{Collation}.

Definition lane_compare (a b : str * option str * Z) : comparison :=
  then_by (text_compare a.1.1 b.1.1) (then_by (nulls_last text_compare a.1.2 b.1.2) (Z.compare a.2 b.2)).

Definition rate_points (lanes : list LaneRow) : list ((str * option str) * SpendPoint) :=
  (λ '((dimension, key, minute), group), ((dimension, key), {|
     sp_minute := minute; sp_cost_usd := numeric_text 12 <$> sum_known (lr_cost_usd <$> group);
     sp_receipt_lines := zsum (lr_receipt_lines <$> group);
     sp_unpriced_lines := zsum (lr_unpriced_lines <$> group) |}))
  <$> grouped lane_compare (λ r, (lr_dimension r, lr_key r, lr_minute r)) lanes.

Definition lane_label (dimension : str) (key : option str) : res spend_error str :=
  match aget dimension LANE_LABELS with
  | None => Err (SpendKeyError dimension)
  | Some label =>
      Ok (label ++ (if bool_decide (dimension = lit "total") || bool_decide (dimension = lit "curation") then []
                    else lit " " ++ [183%N] ++ lit " "
                         ++ match key with Some (c :: k) => c :: k | _ => lit "unreported" end))
  end.

Definition point_valid (p : SpendPoint) : bool :=
  checked_text (sp_cost_usd p) && (0 <=? sp_receipt_lines p) && (0 <=? sp_unpriced_lines p)
  && (sp_unpriced_lines p <=? sp_receipt_lines p).

Definition rate_lane (x : (str * option str) * list ((str * option str) * SpendPoint)) : res spend_error SpendRateLane :=
  let '((dimension, key), points) := x in
  label ← lane_label dimension key;
  guard_ (forallb point_valid points.*2) (ValidationError "points");;
  guard_ (trimmed label) (ValidationError "label");;
  Ok {| rl_dimension := dimension; rl_key := key; rl_label := label; rl_points := points.*2 |}.

(** [grouped.setdefault(...)] keeps the order of the first appearance. *)
Definition rate_lanes (lanes : list LaneRow) : res spend_error (list SpendRateLane) :=
  res_map rate_lane (group_by fst (rate_points lanes)).

(** [coalesce(sum(quantity) FILTER (...), 0)::text]: the zero of no rows has no
    decimal places. *)
Definition tokens_of (kind : str) (rows : list SpendEvent) : str :=
  match filter (λ r, se_quantity_type r = kind) rows with
  | [] => lit "0"
  | rows => numeric_text 9 (zsum (se_quantity <$> rows))
  end.

(** [min(ts)] of a group, which is not empty. *)
Definition first_ts (rows : list SpendEvent) : Z :=
  match se_ts <$> rows with [] => 0 | t :: ts => foldr Z.min t ts end.

Definition message_compare (a b : MessageCache) : comparison :=
  then_by (Z.compare (mc_first_request_at a) (mc_first_request_at b))
    (then_by (N.compare (mc_thread_id a) (mc_thread_id b))
       (nulls_last text_compare (mc_prompt_id a) (mc_prompt_id b))).

Definition message_caches (base : list SpendEvent) : list MessageCache :=
  sort_by (leb_of message_compare)
    (omap (λ '((thread, prompt), group),
             thread ← thread;
             Some {| mc_thread_id := thread; mc_prompt_id := prompt; mc_first_request_at := first_ts group;
                     mc_fresh_tokens := tokens_of (lit "input_fresh") group;
                     mc_cached_tokens := tokens_of (lit "input_cached") group;
                     mc_cache_write_tokens := tokens_of (lit "cache_write") group |})
       (group_by (λ r, (se_thread_id r, se_prompt_id r))
          (filter (λ r, se_product_type r = llm_request ∧ se_unit_of_measure r = lit "tokens") base))).
Definition message_valid (m : MessageCache) : bool :=
  forallb decimal_string [mc_fresh_tokens m; mc_cached_tokens m; mc_cache_write_tokens m].

Definition known_text (rows : list SpendEvent) : option str := numeric_text 12 <$> sum_known (se_cost_usd <$> rows).

Definition daily_spend (base : list SpendEvent) : list DailySpend :=
  (λ '(day, group), {|
     ds_day := day;
     ds_model_usd := known_text (filter (λ r, startswith (lit "llm.") (se_product_type r) = true) group);
     ds_infrastructure_usd := known_text (filter (λ r, startswith (lit "infra.") (se_product_type r) = true) group);
     ds_total_usd := known_text group;
     ds_unpriced_lines := count_rows unpriced group |})
  <$> grouped Z.compare (λ r, date_trunc DAY (se_ts r)) base.
Definition day_valid (d : DailySpend) : bool :=
  forallb checked_text [ds_model_usd d; ds_infrastructure_usd d; ds_total_usd d] && (0 <=? ds_unpriced_lines d).

Definition spend_receipt (r : SpendEvent) : SpendReceipt := {|
  sr_event_uid := se_event_uid r; sr_ts := se_ts r; sr_thread_id := se_thread_id r; sr_model := se_model r;
  sr_purpose := purpose_str (se_purpose r); sr_quantity_type := se_quantity_type r;
  sr_unit_of_measure := se_unit_of_measure r; sr_quantity := numeric_text 9 (se_quantity r);
  sr_cost_usd := numeric_text 12 <$> se_cost_usd r; sr_basis := se_basis r; sr_ref := se_ref r |}.
Definition receipt_view_valid (r : SpendReceipt) : bool :=
  ulid_ok (sr_event_uid r) && decimal_string (sr_quantity r) && checked_text (sr_cost_usd r).

(** ** The report *)

(** [datetime] arguments may be naive. *)
Inductive datetime := Aware (instant : Z) | Naive.

Definition in_scope (thread_ids : option (list uuid)) (principal_id : option str) (as_of : Z) (r : SpendEvent) : bool :=
  (se_ts r <=? as_of)
  && match thread_ids with
     | Some ids => from_option (λ t, bool_decide (t ∈ ids)) false (se_thread_id r)
     | None => true
     end
  && match principal_id with
     | Some p => bool_decide (se_principal_id r = Some p)
     | None => true
     end.

Definition checked_metrics (window_start : Z) (rows : list SpendEvent) : res spend_error SpendTableMetrics :=
  let m := aggregate window_start rows in
  guard_ (metrics_valid m) (ValidationError "metrics");;
  Ok m.

Definition model_rows (window_start : Z) (rows : list SpendEvent) : res spend_error (list ModelSpendRow) :=
  res_map (λ '(model, group),
             metrics ← checked_metrics window_start group;
             guard_ (optional trimmed model) (ValidationError "model");;
             Ok {| ms_model := model; ms_metrics := metrics |})
    (grouped (nulls_last text_compare) se_model rows).

(** The rows with a thread, with it. *)
Definition threaded (base : list SpendEvent) : list (uuid * SpendEvent) :=
  omap (λ r, (λ t, (t, r)) <$> se_thread_id r) base.
Definition unthreaded (base : list SpendEvent) : list SpendEvent :=
  filter (λ r, se_thread_id r = None) base.

Definition thread_rows (window_start : Z) (base : list SpendEvent) : res spend_error (list ThreadSpendRow) :=
  res_map (λ '(thread, group),
             models ← model_rows window_start group.*2;
             metrics ← checked_metrics window_start group.*2;
             Ok {| ts_thread_id := thread; ts_models := models; ts_metrics := metrics |})
    (grouped N.compare fst (threaded base)).

Definition purpose_compare (a b : SpendPurpose) : comparison := text_compare (purpose_str a) (purpose_str b).

Definition purpose_rows (window_start : Z) (base : list SpendEvent) : res spend_error (list PurposeSpendRow) :=
  res_map (λ '(purpose, group),
             metrics ← checked_metrics window_start group;
             Ok {| ps_purpose := purpose; ps_label := purpose_label purpose; ps_metrics := metrics |})
    (grouped purpose_compare se_purpose (unthreaded base)).

Definition uid_compare (a b : SpendReceipt) : comparison := text_compare (sr_event_uid a) (sr_event_uid b).

(** The minute rows: the view, or the ledger itself when the report is scoped. *)
Definition minutes (scoped principal_scoped : bool) (window_start as_of : Z) (view : list MinuteRow)
    (base : list SpendEvent) : list MinuteRow :=
  if negb scoped && negb principal_scoped
  then filter (λ m, window_start ≤ mr_minute m ∧ mr_minute m ≤ as_of) view
  else minute_rows (filter (λ r, window_start ≤ se_ts r) base).

(** [now] is the clock reading used without [as_of]. *)
Definition table (thread_ids : option (list uuid)) (as_of : option datetime) (principal_id : option str)
    (now : Z) (view : list MinuteRow) (l : ledger) : res spend_error SpendTableSnapshot :=
  match default (Aware now) as_of with
  | Naive => Err (SpendValueError "spend table as_of must include a UTC offset")
  | Aware instant =>
      if bool_decide (thread_ids = Some [])
      then Ok {| st_as_of := instant; st_threads := []; st_purposes := []; st_rates := [];
                 st_rate_source := lit "spend_event"; st_messages := []; st_days := []; st_receipts := [] |}
      else
        let window_start := instant - HOUR in
        let scoped := bool_decide (thread_ids ≠ None) in
        let principal_scoped := bool_decide (principal_id ≠ None) in
        let base := filter (λ r, in_scope thread_ids principal_id instant r = true) (map_to_list l).*2 in
        rates ← rate_lanes ((minutes scoped principal_scoped window_start instant view base ≫= minute_lanes)
                            ++ agent_lanes window_start base);
        let messages := message_caches base in
        let days := daily_spend base in
        let receipts := sort_by (leb_of uid_compare) (spend_receipt <$> base) in
        guard_ (forallb message_valid messages) (ValidationError "MessageCache");;
        guard_ (forallb day_valid days) (ValidationError "DailySpend");;
        guard_ (forallb receipt_view_valid receipts) (ValidationError "SpendReceipt");;
        threads ← thread_rows window_start base;
        purposes ← purpose_rows window_start base;
        Ok {| st_as_of := instant; st_threads := threads;
              st_purposes := if scoped then [] else purposes; st_rates := rates;
              st_rate_source := if scoped || principal_scoped then lit "spend_event"
                                else lit "v_spend_rate+spend_event";
              st_messages := messages; st_days := days; st_receipts := receipts |}
  end.
End report.
