(* ===== verification/SpendTableFacts.v ===== *)
(** * The spend report adds up, and a valid ledger always has one *)
From stdpp Require Import relations.
From S2P Require Import Prelude PyStr PyFloat PyDecimal PyJson Ids Sql Spend SpendFacts SpendTable.
Open Scope Z_scope.

(** ** Additive figures *)

(** Every figure of a metrics row; an unknown sum counts as nothing. *)
Definition measures : list (SpendTableMetrics → Z) :=
  [input_tokens; kv_cache_tokens; reasoning_tokens; output_tokens; λ m, default 0 (total_usd m);
   total_receipt_lines; total_unpriced_lines; λ m, default 0 (spend_per_hour_usd m);
   hourly_receipt_lines; hourly_unpriced_lines].

Definition in_hour (ws : Z) (w : SpendEvent → Z) (r : SpendEvent) : Z := if ws <=? se_ts r then w r else 0.

Lemma zsum_hour ws w rows :
  zsum (w <$> filter (λ r, (ws <=? se_ts r) = true) rows) = zsum (in_hour ws w <$> rows).
Proof.
  induction rows as [|r rows IH]; [done|]. cbn [fmap list_fmap]. rewrite zsum_cons, <- IH. unfold in_hour.
  destruct (ws <=? se_ts r) eqn:E; [by rewrite filter_cons_True|].
  rewrite filter_cons_False; [done|]. by rewrite E.
Qed.

Lemma zlen_zsum {A} (l : list A) : zlen l = zsum ((λ _, 1) <$> l).
Proof. unfold zlen. induction l as [|x l IH]; [done|]. cbn [length fmap list_fmap]. rewrite zsum_cons, <- IH. lia. Qed.

Lemma count_zsum f rows : count_rows f rows = zsum ((λ r, if f r then 1 else 0) <$> rows).
Proof.
  unfold count_rows. induction rows as [|r rows IH]; [done|]. cbn [fmap list_fmap]. rewrite zsum_cons, <- IH.
  destruct (f r) eqn:E; [rewrite filter_cons_True by done|rewrite filter_cons_False by (by rewrite E)];
    unfold zlen; cbn [length]; lia.
Qed.

(** Every figure is a sum over the rows. *)
Lemma measure_additive ws f : f ∈ measures → ∃ w, ∀ rows, f (aggregate ws rows) = zsum (w <$> rows).
Proof.
  intros Hf. set (cost := λ r, default 0 (se_cost_usd r)).
  assert (Hcost : ∀ rows, default 0 (sum_known (se_cost_usd <$> rows)) = zsum (cost <$> rows)).
  { intros rows. rewrite sum_known_value. by rewrite <- list_fmap_compose. }
  unfold measures in Hf. rewrite !elem_of_cons, elem_of_nil in Hf.
  destruct Hf as [->|[->|[->|[->|[->|[->|[->|[->|[->|[->|[]]]]]]]]]]].
  - by exists (lane [lit "input_fresh"]).
  - by exists (lane [lit "input_cached"; lit "cache_write"]).
  - by exists (lane [lit "reasoning"]).
  - by exists (lane [lit "output"]).
  - by exists cost.
  - exists (λ _, 1). intros rows. apply zlen_zsum.
  - exists (λ r, if unpriced r then 1 else 0). intros rows. apply count_zsum.
  - exists (in_hour ws cost). intros rows. cbn [aggregate spend_per_hour_usd]. by rewrite Hcost, zsum_hour.
  - exists (in_hour ws (λ _, 1)). intros rows. cbn [aggregate hourly_receipt_lines]. by rewrite zlen_zsum, zsum_hour.
  - exists (in_hour ws (λ r, if unpriced r then 1 else 0)). intros rows. cbn [aggregate hourly_unpriced_lines].
    by rewrite count_zsum, zsum_hour.
Qed.

(** The rows with a thread and those without are all the rows. *)
Lemma threaded_split (w : SpendEvent → Z) base :
  zsum ((λ x, w x.2) <$> threaded base) + zsum (w <$> unthreaded base) = zsum (w <$> base).
Proof.
  unfold threaded, unthreaded. induction base as [|r base IH]; [done|]. cbn [omap list_omap].
  rewrite (fmap_cons w r), zsum_cons, <- IH. destruct (se_thread_id r) as [t|] eqn:E; cbn [fmap option_fmap option_map].
  - rewrite filter_cons_False by (by rewrite E). rewrite fmap_cons, zsum_cons. cbn [snd]. lia.
  - rewrite filter_cons_True by done. rewrite fmap_cons, zsum_cons. lia.
Qed.

Lemma threaded_of base t :
  (filter (λ x, x.1 = t) (threaded base)).*2 = filter (λ r, se_thread_id r = Some t) base.
Proof.
  unfold threaded. induction base as [|r base IH]; [done|]. cbn [omap list_omap].
  destruct (se_thread_id r) as [t'|] eqn:E; cbn [fmap option_fmap option_map].
  - destruct (decide (t' = t)) as [->|Hne].
    + rewrite filter_cons_True, filter_cons_True by done. cbn [fmap list_fmap snd]. by f_equal.
    + rewrite filter_cons_False by (intros [= ?]; done). rewrite filter_cons_False; [done|]. rewrite E. congruence.
  - rewrite filter_cons_False by (by rewrite E). done.
Qed.

Section report.
Context {CO : Collation}.

Lemma checked_metrics_Ok ws rows m : checked_metrics ws rows = Ok m → m = aggregate ws rows.
Proof. unfold checked_metrics. by intros (? & _ & [= <-])%bind_Ok. Qed.

Lemma model_rows_sum ws rows models f :
  model_rows ws rows = Ok models → f ∈ measures →
  zsum ((λ m, f (ms_metrics m)) <$> models) = f (aggregate ws rows).
Proof.
  intros Hm%res_map_Forall2 Hf. destruct (measure_additive ws f Hf) as [w Hw]. rewrite Hw.
  rewrite (zsum_grouped (nulls_last text_compare) se_model w rows).
  induction Hm as [|[model g] m l ms Hrow _ IH]; [done|]. cbn [fmap list_fmap]. rewrite !zsum_cons, IH. f_equal.
  apply bind_Ok in Hrow as (metrics & ->%checked_metrics_Ok & Hrow). apply bind_Ok in Hrow as (? & _ & [= <-]).
  apply Hw.
Qed.

Lemma thread_rows_Ok ws base threads :
  thread_rows ws base = Ok threads →
  Forall2 (λ x row, ts_thread_id row = x.1 ∧ ts_metrics row = aggregate ws x.2.*2 ∧
                    model_rows ws x.2.*2 = Ok (ts_models row))
    (grouped N.compare fst (threaded base)) threads.
Proof.
  intros H%res_map_Forall2. eapply Forall2_impl; [exact H|]. intros [t g] row Hrow.
  apply bind_Ok in Hrow as (models & Hmodels & Hrow). apply bind_Ok in Hrow as (m & ->%checked_metrics_Ok & [= <-]). done.
Qed.

Lemma purpose_rows_sum ws base purposes f w :
  purpose_rows ws base = Ok purposes → (∀ rows, f (aggregate ws rows) = zsum (w <$> rows)) →
  zsum ((λ p, f (ps_metrics p)) <$> purposes) = zsum (w <$> unthreaded base).
Proof.
  intros Hp%res_map_Forall2 Hw. rewrite (zsum_grouped purpose_compare se_purpose w).
  induction Hp as [|[p g] row l rows Hrow _ IH]; [done|]. cbn [fmap list_fmap]. rewrite !zsum_cons, IH. f_equal.
  apply bind_Ok in Hrow as (m & ->%checked_metrics_Ok & [= <-]). apply Hw.
Qed.

Lemma thread_rows_sum ws base threads f w :
  thread_rows ws base = Ok threads → (∀ rows, f (aggregate ws rows) = zsum (w <$> rows)) →
  zsum ((λ t, f (ts_metrics t)) <$> threads) = zsum ((λ x, w x.2) <$> threaded base).
Proof.
  intros Ht%thread_rows_Ok Hw. rewrite (zsum_grouped N.compare fst (λ x, w x.2)).
  induction Ht as [|[t g] row l rows (_ & Hm & _) _ IH]; [done|]. cbn [fmap list_fmap]. rewrite !zsum_cons, IH. f_equal.
  rewrite Hm, Hw. cbn [snd]. by rewrite <- list_fmap_compose.
Qed.

(** The receipts a report covers. *)
Definition covered (thread_ids : option (list uuid)) (principal : option str) (as_of : Z) (l : ledger) : list SpendEvent :=
  filter (λ r, in_scope thread_ids principal as_of r = true) (map_to_list l).*2.

(** What a report is made of. *)
Lemma table_Ok thread_ids as_of principal now view l snap :
  table thread_ids as_of principal now view l = Ok snap → thread_ids ≠ Some [] →
  let ws := st_as_of snap - HOUR in
  let base := covered thread_ids principal (st_as_of snap) l in
  default (Aware now) as_of = Aware (st_as_of snap) ∧
  thread_rows ws base = Ok (st_threads snap) ∧
  (∃ purposes, purpose_rows ws base = Ok purposes ∧
     st_purposes snap = if bool_decide (thread_ids ≠ None) then [] else purposes) ∧
  st_days snap = daily_spend base ∧
  st_receipts snap = sort_by (leb_of uid_compare) (spend_receipt <$> base).
Proof.
  unfold table. destruct (default (Aware now) as_of) as [instant|]; [|done]. intros H Hne.
  rewrite bool_decide_false in H by done. cbn zeta in H. fold (covered thread_ids principal instant l) in H.
  apply bind_Ok in H as (rates & _ & H). do 3 (apply bind_Ok in H as (? & _ & H)).
  apply bind_Ok in H as (threads & Ht & H). apply bind_Ok in H as (purposes & Hp & [= <-]). cbn. eauto 10.
Qed.

(** A report on given threads covers no receipt outside them. *)
Lemma scoped_threaded ids principal as_of l : unthreaded (covered (Some ids) principal as_of l) = [].
Proof.
  unfold unthreaded, covered. apply elem_of_nil_inv. intros r [Hn [Hs _]%list_elem_of_filter]%list_elem_of_filter.
  unfold in_scope in Hs. breflect. by rewrite Hn in *.
Qed.

(** The report conserves the ledger.  Every thread with a receipt in
    scope has one row, in the order of the identifiers, whose figures are those
    of exactly its receipts and equal the sums over its models; threads and
    purposes together account for every receipt in scope: each token count,
    known cost, receipt count and unpriced count adds up to that of all the
    receipts, over all time and over the last hour.  The receipts listed are
    those in scope. *)
Theorem report_conserves (thread_ids : option (list uuid)) (as_of : option datetime) (principal : option str)
    (now : Z) (view : list MinuteRow) (l : ledger) (snap : SpendTableSnapshot) :
  table thread_ids as_of principal now view l = Ok snap → thread_ids ≠ Some [] →
  let ws := st_as_of snap - HOUR in
  let base := covered thread_ids principal (st_as_of snap) l in
  StronglySorted N.lt (ts_thread_id <$> st_threads snap)
  ∧ (∀ t, t ∈ (ts_thread_id <$> st_threads snap) ↔ ∃ r, r ∈ base ∧ se_thread_id r = Some t)
  ∧ (∀ row, row ∈ st_threads snap →
       ts_metrics row = aggregate ws (filter (λ r, se_thread_id r = Some (ts_thread_id row)) base)
       ∧ ∀ f, f ∈ measures → zsum ((λ m, f (ms_metrics m)) <$> ts_models row) = f (ts_metrics row))
  ∧ (∀ f, f ∈ measures →
       zsum ((λ t, f (ts_metrics t)) <$> st_threads snap) + zsum ((λ p, f (ps_metrics p)) <$> st_purposes snap)
       = f (aggregate ws base))
  ∧ Permutation (st_receipts snap) (spend_receipt <$> base).
Proof.
  intros H Hne ws base. destruct (table_Ok _ _ _ _ _ _ _ H Hne) as (_ & Ht & (purposes & Hp & Hpur) & _ & Hr).
  fold ws base in Ht, Hp, Hr. pose proof (thread_rows_Ok _ _ _ Ht) as Hrows.
  assert (Hids : (ts_thread_id <$> st_threads snap) = (grouped N.compare fst (threaded base)).*1).
  { clear -Hrows. induction Hrows as [|x row xs rows [Hid _] _ IH]; [done|]. rewrite !fmap_cons. by f_equal. }
  split_and!.
  - rewrite Hids. apply grouped_sorted_N.
  - intros t. rewrite Hids. split.
    + intros ([t' g] & -> & [-> Hg]%grouped_elem)%list_elem_of_fmap. cbn [fst].
      destruct (filter (λ x, x.1 = t') (threaded base)) as [|[t2 r] g'] eqn:E; [done|].
      assert (Hin : r ∈ (filter (λ x, x.1 = t') (threaded base)).*2) by (rewrite E; by left).
      rewrite threaded_of in Hin. apply list_elem_of_filter in Hin as [? ?]. eauto.
    + intros (r & Hin & Ht'). apply list_elem_of_fmap. exists (t, filter (λ x, x.1 = t) (threaded base)).
      split; [done|]. apply grouped_elem. split; [done|]. intros E.
      assert (Hin' : r ∈ (filter (λ x, x.1 = t) (threaded base)).*2) by (rewrite threaded_of; by apply list_elem_of_filter).
      rewrite E in Hin'. by apply elem_of_nil in Hin'.
  - intros row Hin. apply list_elem_of_lookup in Hin as [i Hi]. destruct (Forall2_lookup_r _ _ _ _ _ Hrows Hi) as ([t g] & Hg & Hid & Hm & Hmod).
    cbn [fst snd] in *. subst t. apply list_elem_of_lookup_2, grouped_elem in Hg as [-> _].
    rewrite threaded_of in Hm, Hmod. split; [done|]. intros f Hf. rewrite Hm. by apply model_rows_sum.
  - intros f Hf. destruct (measure_additive ws f Hf) as [w Hw]. rewrite Hw, (thread_rows_sum _ _ _ _ _ Ht Hw).
    rewrite <- threaded_split. f_equal. rewrite Hpur. case_bool_decide as Hs.
    + destruct thread_ids as [ids|]; [|done]. unfold base. by rewrite scoped_threaded.
    + by apply (purpose_rows_sum _ _ _ _ _ Hp Hw).
  - rewrite Hr. apply sort_by_perm.
Qed.

(** ** A valid ledger has a report *)

Definition costs (r : SpendEvent) : Z := default 0 (se_cost_usd r).

(** What the receipts behind a figure are like. *)
Record ink (r : SpendEvent) : Prop := {
  ink_uid : ulid_ok (se_event_uid r) = true;
  ink_quantity : 0 ≤ se_quantity r;
  ink_cost : optional (λ c, 0 <=? c) (se_cost_usd r) = true;
  ink_model : optional trimmed (se_model r) = true;
  ink_agent : optional trimmed (se_origin_agent r) = true;
}.

(** A set of receipts whose totals fit their columns. *)
Definition fits (rows : list SpendEvent) : Prop :=
  Forall ink rows ∧ zsum (se_quantity <$> rows) < 10 ^ 30 ∧ zsum (costs <$> rows) < 10 ^ 20.

Lemma numeric_units_nonneg s d : dec_leb d0 d = true → 0 ≤ numeric_units s d.
Proof.
  unfold dec_leb. rewrite dec_compare_antisym, dec_compare_zero. unfold numeric_units.
  destruct (Z.compare_spec (coef d) 0) as [E|Hlt|Hlt]; [|done|]; intros _.
  - rewrite E. case_match; cbn; lia.
  - case_match.
    + assert (0 < 10 ^ (dexp d + s)) by (apply Z.pow_pos_nonneg; lia). nia.
    + rewrite Z.sgn_pos by done. rewrite Z.mul_1_l. apply Z.div_pos; [|]; pose proof (Z.pow_nonneg 10 (- (dexp d + s)));
        [lia|]. assert (0 < 10 ^ (- (dexp d + s))) by (apply Z.pow_pos_nonneg; lia). lia.
Qed.

Lemma row_ink row : row_ok row → ink row.
Proof.
  intros (e & Hv & ->). unfold receipt_valid in Hv. breflect.
  match goal with H : forallb (optional trimmed) _ = true |- _ => cbn [forallb] in H end. breflect.
  split; cbn [event_row se_event_uid se_quantity se_cost_usd se_model se_origin_agent]; try assumption.
  - apply numeric_units_nonneg. unfold dec_leb, dec_ltb in *. by destruct (dec_compare d0 (se_quantity e)).
  - destruct (se_cost_usd e) as [c|]; [|done]. cbn in *. breflect. by apply Z.leb_le, numeric_units_nonneg.
Qed.

Lemma zsum_filter_le {A} (w : A → Z) (P : A → Prop) `{∀ x, Decision (P x)} l :
  Forall (λ x, 0 ≤ w x) l → 0 ≤ zsum (w <$> filter P l) ≤ zsum (w <$> l).
Proof.
  induction 1 as [|x l Hx _ IH]; [done|]. rewrite (fmap_cons w x l), zsum_cons.
  destruct (decide (P x)); [rewrite filter_cons_True by done|rewrite filter_cons_False by done; lia].
  rewrite fmap_cons, zsum_cons. lia.
Qed.

Lemma ink_costs rows : Forall ink rows → Forall (λ r, 0 ≤ costs r) rows.
Proof.
  intros Hi. eapply Forall_impl; [exact Hi|]. intros r Hr. pose proof (ink_cost _ Hr) as Hc. unfold costs.
  destruct (se_cost_usd r); cbn in *; lia.
Qed.
Lemma ink_quantities rows : Forall ink rows → Forall (λ r, 0 ≤ se_quantity r) rows.
Proof. intros Hi. eapply Forall_impl; [exact Hi|]. apply ink_quantity. Qed.

Lemma fits_filter rows (P : SpendEvent → Prop) `{∀ x, Decision (P x)} : fits rows → fits (filter P rows).
Proof.
  intros (Hi & Hq & Hc). split_and!.
  - apply Forall_forall. intros r [_ Hr]%list_elem_of_filter. by eapply (proj1 (Forall_forall _ _)).
  - pose proof (zsum_filter_le se_quantity P rows (ink_quantities _ Hi)). lia.
  - pose proof (zsum_filter_le costs P rows (ink_costs _ Hi)). lia.
Qed.

Lemma sum_known_costs rows : default 0 (sum_known (se_cost_usd <$> rows)) = zsum (costs <$> rows).
Proof. rewrite sum_known_value. by rewrite <- list_fmap_compose. Qed.

Lemma known_nonneg rows : Forall ink rows → optional (λ c, 0 <=? c) (sum_known (se_cost_usd <$> rows)) = true.
Proof.
  intros Hi. pose proof (sum_known_costs rows) as E. pose proof (zsum_nonneg (costs <$> rows)) as Hn.
  destruct (sum_known _) as [c|]; [|done]. cbn in *. apply Z.leb_le. rewrite E. apply Hn.
  apply Forall_fmap. by apply ink_costs.
Qed.

Lemma fits_sum rows : fits rows → optional (λ c, (0 <=? c) && (c <? 10 ^ 20)) (sum_known (se_cost_usd <$> rows)) = true.
Proof.
  intros (Hi & _ & Hc). pose proof (known_nonneg rows Hi). pose proof (sum_known_costs rows) as E.
  destruct (sum_known _) as [c|]; [|done]. cbn [optional from_option id] in *. lia.
Qed.

Lemma lane_fits types rows : fits rows → (0 <=? zsum (lane types <$> rows)) && (zsum (lane types <$> rows) <? 10 ^ 30) = true.
Proof.
  intros (Hi & Hq & _). assert (0 ≤ zsum (lane types <$> rows) ≤ zsum (se_quantity <$> rows)); [|lia].
  clear Hq. induction Hi as [|r rows Hr _ IH]; [done|]. rewrite !fmap_cons, !zsum_cons.
  pose proof (ink_quantity _ Hr). unfold lane at 1 3. case_match; lia.
Qed.

(** The validator of costs never refuses a figure of the ledger. *)
Lemma honest_group rows : honest_cost (sum_known (se_cost_usd <$> rows)) (zlen rows) (count_rows unpriced rows) = true.
Proof.
  assert (Hle : count_rows unpriced rows ≤ zlen rows).
  { unfold count_rows, zlen. pose proof (length_filter (λ r, unpriced r = true) rows). lia. }
  assert (Hall : count_rows unpriced rows = zlen rows ↔ Forall (λ x, x = None) (se_cost_usd <$> rows)).
  { clear Hle. rewrite Forall_fmap. unfold count_rows, zlen. induction rows as [|r rows IH]; [by rewrite Forall_nil|].
    rewrite Forall_cons, <- IH. pose proof (length_filter (λ r, unpriced r = true) rows).
    destruct (unpriced r) eqn:E; [rewrite filter_cons_True by done|rewrite filter_cons_False by (by rewrite E)].
    - apply bool_decide_eq_true in E. cbn [length]. split; [intros; split; [done|lia]|intros [_ ?]; lia].
    - apply bool_decide_eq_false in E. cbn [length compose]. split; [lia|by intros [? _]]. }
  rewrite <- sum_known_None in Hall. unfold honest_cost. destruct (sum_known _) as [c|].
  - assert (count_rows unpriced rows ≠ zlen rows) by (by rewrite Hall). rewrite bool_decide_true, bool_decide_false by done. lia.
  - assert (count_rows unpriced rows = zlen rows) by (by apply Hall). rewrite bool_decide_false, bool_decide_true by auto. lia.
Qed.

Lemma metrics_answer ws rows : fits rows → ∃ m, checked_metrics ws rows = Ok m.
Proof.
  intros Hf. exists (aggregate ws rows). unfold checked_metrics. cbn zeta.
  assert (metrics_valid (aggregate ws rows) = true) as ->; [|done].
  unfold metrics_valid, metrics_fit, metrics_honest. cbn [aggregate input_tokens kv_cache_tokens reasoning_tokens
    output_tokens total_usd spend_per_hour_usd total_receipt_lines total_unpriced_lines hourly_receipt_lines
    hourly_unpriced_lines forallb].
  rewrite !lane_fits, !fits_sum, !honest_group by auto using fits_filter. done.
Qed.

(** *** Lanes *)
Definition cost_ok (c : option Z) : Prop := optional (λ c, 0 <=? c) c = true.

Definition minute_ok (m : MinuteRow) : Prop :=
  optional trimmed (mr_model m) = true ∧ cost_ok (mr_cost_usd m) ∧ 0 ≤ mr_unpriced_lines m ≤ mr_receipt_lines m.

Definition lane_ok (r : LaneRow) : Prop :=
  lr_dimension r ∈ LANE_LABELS.*1 ∧ optional trimmed (lr_key r) = true ∧ cost_ok (lr_cost_usd r) ∧
  0 ≤ lr_unpriced_lines r ≤ lr_receipt_lines r.

Lemma known_ok {A} (f : A → option Z) l : (∀ x, x ∈ l → cost_ok (f x)) → cost_ok (sum_known (f <$> l)).
Proof.
  intros Hl. unfold cost_ok. pose proof (sum_known_value (f <$> l)) as E.
  destruct (sum_known _) as [c|]; [|done]. cbn [from_option id optional] in *. subst c. apply Z.leb_le, zsum_nonneg.
  rewrite <- list_fmap_compose. apply Forall_fmap, Forall_forall. intros x Hx. specialize (Hl x Hx). unfold cost_ok in Hl.
  cbn. destruct (f x); cbn in *; lia.
Qed.

Lemma counts_ok rows : 0 ≤ count_rows unpriced rows ≤ zlen rows.
Proof. unfold count_rows, zlen. pose proof (length_filter (λ r, unpriced r = true) rows). lia. Qed.

Lemma group_ink {K} `{EqDecision K} (key : SpendEvent → K) rows k g :
  Forall ink rows → (k, g) ∈ group_by key rows → Forall ink g ∧ ∃ r, ink r ∧ key r = k.
Proof.
  intros Hi [-> Hne]%group_by_elem. rewrite Forall_forall in Hi. split.
  - apply Forall_forall. intros r [_ Hr]%list_elem_of_filter. by apply Hi.
  - destruct (filter _ _) as [|r g] eqn:E; [done|].
    assert (Hr : r ∈ filter (λ x, key x = k) rows) by (rewrite E; by left).
    apply list_elem_of_filter in Hr as [? ?]. eauto.
Qed.

Lemma ink_cost_ok g : Forall ink g → cost_ok (sum_known (se_cost_usd <$> g)).
Proof. intros Hg. apply known_ok. intros r Hr. eapply (proj1 (Forall_forall _ _)) in Hg; [|done]. by apply ink_cost. Qed.

Lemma minute_rows_ok rows : Forall ink rows → Forall minute_ok (minute_rows rows).
Proof.
  intros Hi. apply Forall_fmap, Forall_forall. intros [[[minute purpose] model] g] Hin.
  destruct (group_ink _ _ _ _ Hi Hin) as [Hg (r & Hr & [= <- <- <-])].
  split_and!; cbn; [by apply ink_model|by apply ink_cost_ok|apply counts_ok..].
Qed.

Lemma ledger_ink l : ledger_inv l → Forall ink (map_to_list l).*2.
Proof.
  intros Hinv. apply Forall_forall. intros row ([uid r] & -> & Hr%elem_of_map_to_list)%list_elem_of_fmap.
  apply row_ink. by eapply (li_rows _ Hinv).
Qed.

Lemma rate_view_ok l : ledger_inv l → Forall minute_ok (refresh_rate_view l).
Proof.
  intros Hinv. apply Forall_fmap, Forall_forall. intros [[[[minute purpose] model] provider] g] Hin.
  destruct (group_ink _ _ _ _ (ledger_ink _ Hinv) Hin) as [Hg (r & Hr & [= <- <- <- <-])].
  split_and!; cbn; [by apply ink_model|by apply ink_cost_ok|apply counts_ok..].
Qed.

Lemma minute_lanes_ok m : minute_ok m → Forall lane_ok (minute_lanes m).
Proof.
  intros (Hm & Hc & Hn). unfold minute_lanes. apply Forall_app. split.
  - repeat constructor; cbn; (done || lia).
  - case_bool_decide; repeat constructor; cbn; (done || lia).
Qed.

Lemma agent_lanes_ok ws base : Forall ink base → Forall lane_ok (agent_lanes ws base).
Proof.
  intros Hi. apply Forall_fmap, Forall_forall. intros [[[minute dimension] key] g] Hin.
  eapply group_ink in Hin as [Hg (r & Hr & [= <- <- <-])];
    [|apply Forall_forall; intros r [_ Hr]%list_elem_of_filter; by eapply (proj1 (Forall_forall _ _))].
  split_and!; cbn; [|by apply ink_agent|by apply ink_cost_ok|apply counts_ok..].
  unfold agent_dimension. case_match; set_solver.
Qed.

Lemma decimal_text_ok s c : cost_ok c → checked_text (numeric_text s <$> c) = true.
Proof. destruct c as [c|]; [|done]. cbn. intros Hc%Z.leb_le. by apply numeric_text_decimal. Qed.

(** A sum over a group keeps [0 ≤ unpriced ≤ receipts]. *)
Lemma zsum_le {A} (f g : A → Z) l : (∀ x, x ∈ l → 0 ≤ f x ≤ g x) → 0 ≤ zsum (f <$> l) ≤ zsum (g <$> l).
Proof.
  induction l as [|x l IH]; intros H; [done|]. rewrite !fmap_cons, !zsum_cons.
  pose proof (H x ltac:(by left)). assert (∀ y, y ∈ l → 0 ≤ f y ≤ g y) by (intros; apply H; by right). specialize (IH ltac:(done)). lia.
Qed.

Lemma rate_points_ok lanes p :
  Forall lane_ok lanes → p ∈ rate_points lanes →
  point_valid p.2 = true ∧ p.1.1 ∈ LANE_LABELS.*1 ∧ optional trimmed p.1.2 = true.
Proof.
  intros Hl ([[[dimension key] minute] g] & -> & [-> Hne]%grouped_elem)%list_elem_of_fmap.
  rewrite Forall_forall in Hl. cbn [fst snd].
  assert (Hg : ∀ r, r ∈ filter (λ r, (lr_dimension r, lr_key r, lr_minute r) = (dimension, key, minute)) lanes → lane_ok r).
  { intros r [_ Hr]%list_elem_of_filter. by apply Hl. }
  destruct (filter _ _) as [|r g] eqn:E; [done|]. split.
  - unfold point_valid. cbn [sp_cost_usd sp_receipt_lines sp_unpriced_lines].
    rewrite decimal_text_ok by (apply known_ok; intros x Hx; by apply (Hg x Hx)).
    pose proof (zsum_le lr_unpriced_lines lr_receipt_lines (r :: g)) as Hz.
    destruct Hz; [intros x Hx; by apply (Hg x Hx)|]. lia.
  - assert (Hr : r ∈ filter (λ r, (lr_dimension r, lr_key r, lr_minute r) = (dimension, key, minute)) lanes)
      by (rewrite E; by left).
    apply list_elem_of_filter in Hr as [[= <- <- <-] Hr]. by apply Hl in Hr as (? & ? & _).
Qed.

Lemma lane_label_ok dimension key :
  dimension ∈ LANE_LABELS.*1 → optional trimmed key = true →
  ∃ label, lane_label dimension key = Ok label ∧ trimmed label = true.
Proof.
  intros Hd Hk. unfold lane_label.
  assert (Hkey : trimmed (match key with Some (c :: k) => c :: k | _ => lit "unreported" end) = true).
  { destruct key as [[|c k]|]; [done|done|vm_compute; reflexivity]. }
  set (name := match key with Some (c :: k) => c :: k | _ => lit "unreported" end) in *. clearbody name.
  cbn [LANE_LABELS fmap list_fmap fst] in Hd. rewrite !elem_of_cons, elem_of_nil in Hd.
  assert (Hsep : ∀ p, starts_solid p → trimmed (p ++ lit " " ++ [183%N] ++ lit " " ++ name) = true).
  { intros p Hp. replace (p ++ lit " " ++ [183%N] ++ lit " " ++ name) with ((p ++ lit " " ++ [183%N] ++ lit " ") ++ name)
      by (by rewrite <- !app_assoc). apply trimmed_app; [by destruct p|done]. }
  destruct Hd as [->|[->|[->|[->|[->|[]]]]]]; eexists; (split; [reflexivity|]);
    try (vm_compute; reflexivity); apply Hsep; vm_compute; reflexivity.
Qed.

Lemma rate_lanes_answer lanes : Forall lane_ok lanes → ∃ rates, rate_lanes lanes = Ok rates.
Proof.
  intros Hl. apply res_map_total. intros [[dimension key] points] [-> Hne]%group_by_elem.
  assert (Hp : ∀ p, p ∈ filter (λ x, x.1 = (dimension, key)) (rate_points lanes) →
    point_valid p.2 = true ∧ p.1 = (dimension, key) ∧ dimension ∈ LANE_LABELS.*1 ∧ optional trimmed key = true).
  { intros p [Hk Hin]%list_elem_of_filter. destruct (rate_points_ok _ _ Hl Hin) as (? & Hd & Ht). rewrite Hk in *. done. }
  destruct (filter _ _) as [|p points] eqn:E; [done|].
  destruct (Hp p ltac:(by left)) as (_ & _ & Hd & Ht). destruct (lane_label_ok _ _ Hd Ht) as (label & Hlabel & Htl).
  unfold rate_lane. rewrite Hlabel. cbn [mbind res_bind].
  assert (forallb point_valid (p :: points).*2 = true) as ->.
  { apply forallb_forall. intros q Hq%list_elem_of_In. apply list_elem_of_fmap in Hq as (x & -> & Hx). by apply Hp. }
  rewrite Htl. cbn. eauto.
Qed.

(** *** The rest of the report *)
Lemma message_caches_valid base : Forall ink base → forallb message_valid (message_caches base) = true.
Proof.
  intros Hi. apply forallb_forall. intros m Hm%list_elem_of_In. unfold message_caches in Hm.
  rewrite sort_by_perm in Hm. apply list_elem_of_omap in Hm as ([[thread prompt] g] & Hg & Hm).
  eapply group_ink in Hg as [Hg _];
    [|apply Forall_forall; intros r [_ Hr]%list_elem_of_filter; by eapply (proj1 (Forall_forall _ _))].
  apply bind_Some in Hm as (t & _ & [= <-]).
  assert (Ht : ∀ kind, decimal_string (tokens_of kind g) = true).
  { intros kind. unfold tokens_of. destruct (filter _ g) as [|x xs] eqn:E; [vm_compute; reflexivity|]. rewrite <- E.
    apply numeric_text_decimal, zsum_nonneg, Forall_fmap, Forall_forall. intros r [_ Hr]%list_elem_of_filter.
    apply ink_quantity. by eapply (proj1 (Forall_forall _ _)). }
  unfold message_valid. cbn. by rewrite !Ht.
Qed.

Lemma known_text_ok rows : Forall ink rows → checked_text (known_text rows) = true.
Proof. intros Hi. apply decimal_text_ok. by apply ink_cost_ok. Qed.

Lemma ink_filter (P : SpendEvent → Prop) `{∀ x, Decision (P x)} rows : Forall ink rows → Forall ink (filter P rows).
Proof. intros Hi. apply Forall_forall. intros r [_ Hr]%list_elem_of_filter. by eapply (proj1 (Forall_forall _ _)). Qed.

Lemma daily_spend_valid base : Forall ink base → forallb day_valid (daily_spend base) = true.
Proof.
  intros Hi. apply forallb_forall. intros d Hd%list_elem_of_In.
  apply list_elem_of_fmap in Hd as ([day g] & -> & [-> _]%grouped_elem).
  unfold day_valid. cbn [forallb ds_model_usd ds_infrastructure_usd ds_total_usd ds_unpriced_lines].
  rewrite !known_text_ok by auto using ink_filter. cbn [andb].
  match goal with |- context [count_rows unpriced ?g] => pose proof (counts_ok g) end. lia.
Qed.

Lemma receipts_valid base : Forall ink base →
  forallb receipt_view_valid (sort_by (leb_of uid_compare) (spend_receipt <$> base)) = true.
Proof.
  intros Hi. apply forallb_forall. intros d Hd%list_elem_of_In. rewrite sort_by_perm in Hd.
  apply list_elem_of_fmap in Hd as (r & -> & Hr). eapply (proj1 (Forall_forall _ _)) in Hi; [|exact Hr].
  unfold receipt_view_valid. cbn [spend_receipt sr_event_uid sr_quantity sr_cost_usd].
  rewrite (ink_uid _ Hi), decimal_text_ok by (by apply ink_cost). rewrite numeric_text_decimal by (by apply ink_quantity). done.
Qed.

Lemma model_rows_answer ws rows : fits rows → ∃ models, model_rows ws rows = Ok models.
Proof.
  intros Hf. apply res_map_total. intros [model g] [-> Hne]%grouped_elem.
  destruct (metrics_answer ws (filter (λ r, se_model r = model) rows)) as [m Hm]; [by apply fits_filter|].
  rewrite Hm. cbn [mbind res_bind]. destruct (filter _ _) as [|r g] eqn:E; [done|].
  assert (Hr : r ∈ filter (λ r, se_model r = model) rows) by (rewrite E; by left).
  apply list_elem_of_filter in Hr as [<- Hr]. destruct Hf as [Hi _]. eapply (proj1 (Forall_forall _ _)) in Hi; [|exact Hr].
  rewrite (ink_model _ Hi). cbn. eauto.
Qed.

Lemma thread_rows_answer ws base : fits base → ∃ threads, thread_rows ws base = Ok threads.
Proof.
  intros Hf. apply res_map_total. intros [t g] [-> _]%grouped_elem. rewrite threaded_of.
  destruct (model_rows_answer ws (filter (λ r, se_thread_id r = Some t) base)) as [models ->]; [by apply fits_filter|].
  destruct (metrics_answer ws (filter (λ r, se_thread_id r = Some t) base)) as [m Hm]; [by apply fits_filter|].
  cbn [mbind res_bind]. rewrite Hm. cbn. eauto.
Qed.

Lemma purpose_rows_answer ws base : fits base → ∃ purposes, purpose_rows ws base = Ok purposes.
Proof.
  intros Hf. apply res_map_total. intros [p g] [-> _]%grouped_elem. unfold unthreaded.
  assert (Hg : fits (filter (λ r, se_purpose r = p) (filter (λ r, se_thread_id r = None) base))).
  { by do 2 apply fits_filter. }
  destruct (metrics_answer ws _ Hg) as [m Hm]. rewrite Hm. cbn. eauto.
Qed.

Lemma minutes_ok scoped principal_scoped ws instant l0 base :
  ledger_inv l0 → Forall ink base →
  Forall minute_ok (minutes scoped principal_scoped ws instant (refresh_rate_view l0) base).
Proof.
  intros Hinv Hi. unfold minutes. case_match; [|by apply minute_rows_ok, ink_filter].
  apply Forall_forall. intros m [_ Hm]%list_elem_of_filter. by eapply (proj1 (Forall_forall _ _)) in Hm; [|apply rate_view_ok].
Qed.

Lemma lanes_ok ms ws base : Forall minute_ok ms → Forall ink base → Forall lane_ok ((ms ≫= minute_lanes) ++ agent_lanes ws base).
Proof.
  intros Hm Hi. apply Forall_app. split; [|by apply agent_lanes_ok]. apply Forall_forall.
  intros r (m & Hr & Hin)%list_elem_of_bind. eapply (proj1 (Forall_forall lane_ok _)); [|exact Hr].
  apply minute_lanes_ok. by eapply (proj1 (Forall_forall _ _)) in Hin; [|exact Hm].
Qed.

Lemma report_at l0 l thread_ids instant principal now :
  ledger_inv l0 → ledger_inv l →
  fits (map_to_list l).*2 → is_ok (table thread_ids (Some (Aware instant)) principal now (refresh_rate_view l0) l) = true.
Proof.
  intros Hinv0 Hinv Hfit. unfold table. cbn [default from_option id]. case_bool_decide; [done|]. cbn zeta.
  match goal with |- context [filter ?P (map_to_list l).*2] => set (base := filter P _) end.
  assert (Hf : fits base) by (by apply fits_filter). pose proof (proj1 Hf) as Hi.
  match goal with |- context [rate_lanes ?ls] => destruct (rate_lanes_answer ls) as [rates ->] end.
  { apply lanes_ok; [by apply minutes_ok|done]. }
  cbn [mbind res_bind]. rewrite message_caches_valid, daily_spend_valid, receipts_valid by done. cbn [guard_ mbind res_bind].
  destruct (thread_rows_answer (instant - HOUR) base Hf) as [threads ->].
  by destruct (purpose_rows_answer (instant - HOUR) base Hf) as [purposes ->].
Qed.

(** A reachable ledger always has a report.  Whatever the scope, with the
    rate view of any earlier ledger and an aware instant, no validation of the
    report's contract refuses it (costs are honest, labels are trimmed, amounts
    are plain decimals, counts are possible), as long as the totals fit the
    contract's digits. *)
Theorem report_answers (l0 l : ledger) (thread_ids : option (list uuid)) (as_of : option datetime)
    (principal : option str) (now : Z) :
  rtc ledger_step ∅ l0 → rtc ledger_step l0 l → as_of ≠ Some Naive →
  zsum (se_quantity <$> (map_to_list l).*2) < 10 ^ 30 → zsum (costs <$> (map_to_list l).*2) < 10 ^ 20 →
  is_ok (table thread_ids as_of principal now (refresh_rate_view l0) l) = true.
Proof.
  intros H0 H1 Has Hq Hc. pose proof (ledger_reachable_inv _ H0) as Hinv0.
  assert (Hinv : ledger_inv l) by (apply ledger_reachable_inv; by etrans).
  assert (Hf : fits (map_to_list l).*2) by (split_and!; [by apply ledger_ink|done..]).
  destruct as_of as [[instant|]|]; [by apply report_at|done|]. by apply (report_at l0 l thread_ids now principal now).
Qed.
End report.

(** ** A concrete report *)
#[local] Instance byte_order : Collation := {| text_compare := str_compare |}.

Lemma spent_reachable : rtc ledger_step ∅ (spent 15).
Proof.
  apply rtc_once. apply (step_append ∅ [sample_event 15] 1); vm_compute; reflexivity.
Qed.

Definition sample_report : res spend_error SpendTableSnapshot :=
  table None None None 1750000100000000 (refresh_rate_view (spent 15)) (spent 15).

Lemma report_answers_witness :
  zsum (costs <$> (map_to_list (spent 15)).*2) < 10 ^ 20 ∧ is_ok sample_report = true.
Proof.
  assert (Hc : zsum (costs <$> (map_to_list (spent 15)).*2) < 10 ^ 20) by (vm_compute; reflexivity).
  split; [exact Hc|].
  apply (report_answers (spent 15) (spent 15) None None None 1750000100000000 spent_reachable (rtc_refl _ _));
    [discriminate|vm_compute; reflexivity|exact Hc].
Defined.

Definition ok_report : SpendTableSnapshot :=
  match sample_report with
  | Ok snap => snap
  | Err _ => {| st_as_of := 0; st_threads := []; st_purposes := []; st_rates := []; st_rate_source := [];
                st_messages := []; st_days := []; st_receipts := [] |}
  end.

Lemma sample_report_ok : sample_report = Ok ok_report.
Proof. vm_compute. reflexivity. Qed.

(** One minute of one agent and one model. *)
Example sample_lanes :
  (λ r, (rl_dimension r, rl_label r, length (rl_points r))) <$> st_rates ok_report =
  [(lit "agent", lit "Agent " ++ 183%N :: lit " main", 1%nat);
   (lit "model", lit "Model " ++ 183%N :: lit " m", 1%nat); (lit "total", lit "Total", 1%nat)].
Proof. vm_compute. reflexivity. Qed.

Lemma report_conserves_witness :
  sample_report = Ok ok_report ∧ ts_thread_id <$> st_threads ok_report = [7%N] ∧
  StronglySorted N.lt (ts_thread_id <$> st_threads ok_report).
Proof.
  split; [exact sample_report_ok|]. split; [vm_compute; reflexivity|].
  by apply (report_conserves None None None 1750000100000000 (refresh_rate_view (spent 15)) (spent 15) ok_report
    sample_report_ok).
Defined.
