(* ===== verification/Reconcile.v ===== *)
(** * Spend reconciliation: [src/src/spine/spend/reconciliation.py]

    The growth of the broker's cumulative usage is compared with the growth of
    the ledger's priced LLM receipts, both since the earliest successful
    observation.  One reconciliation is one transaction under an advisory lock;
    its timestamp is PostgreSQL's [now()], the start of the transaction, which
    may precede the moment the lock is granted.  The broker's HTTP reply is an
    argument. *)
From stdpp Require Import relations.
From S2P Require Import Prelude PyStr PyFloat PyDecimal PyJson JsonText Ids Sql Spend.
Open Scope Z_scope.

(** ** The broker's usage *)
Inductive broker_error :=
  | BrokerUnavailable
  | InvalidBrokerResponse.

(** The reply of [GET /key]: an HTTP error, or a body, [None] when its bytes are
    no text. *)
Inductive http_reply := HTTPError | Content (text : option str).

(** A number is a Decimal; the constants NaN and Infinity are floats. *)
Section usage.
Context `{DecimalDigits}.

Definition usage_number (text : str) : res broker_error (option dec) :=
  match parse_decimal text with
  | Some d => Ok d
  | None => Err InvalidBrokerResponse
  end.
Definition usage_hooks : number_hooks broker_error (option dec) := {|
  parse_int := usage_number; parse_float := usage_number; parse_constant := λ _, Ok None |}.

(** [payload[key]]: KeyError or TypeError, answered alike. *)
Definition tree_item (key : string) (j : jtree (option dec)) : res broker_error (jtree (option dec)) :=
  match j with
  | TObj kv => match aget (lit key) kv with Some v => Ok v | None => Err InvalidBrokerResponse end
  | _ => Err InvalidBrokerResponse
  end.

Definition DECIMAL_DIGITS : Z := 28.

(** [value.quantize(Decimal("0.000000000001"), rounding=ROUND_HALF_EVEN)];
    [None] is InvalidOperation, a coefficient beyond the precision. *)
Definition usd (value : dec) : option dec :=
  let k := dexp value + 12 in
  let c := if 0 <=? k then coef value * 10 ^ k else Z.sgn (coef value) * half_even (Z.abs (coef value)) (- k) in
  if Z.abs c <? 10 ^ DECIMAL_DIGITS then Some (Dec c (-12)) else None.

(** [OpenRouterUsageClient.cumulative_usage_usd]. *)
Definition cumulative_usage_usd (reply : http_reply) : res broker_error dec :=
  match reply with
  | HTTPError => Err BrokerUnavailable
  | Content None => Err InvalidBrokerResponse
  | Content (Some text) =>
      payload ← match loads usage_hooks text with Ok j => Ok j | Err _ => Err InvalidBrokerResponse end;
      data ← tree_item "data" payload;
      usage ← tree_item "usage" data;
      value ← match usage with
              | TStr s => usage_number s
              | TNum d => Ok d
              | _ => Err InvalidBrokerResponse
              end;
      match value with
      | Some d =>
          guard_ (dec_leb d0 d) InvalidBrokerResponse;;
          match usd d with Some u => Ok u | None => Err InvalidBrokerResponse end
      | None => Err InvalidBrokerResponse
      end
  end.
End usage.

(** ** Observations *)
Inductive ReconciliationStatus := baseline | balanced | drift | unavailable.
#[export] Instance reconciliation_status_eq_dec : EqDecision ReconciliationStatus.
Proof. solve_decision. Defined.
#[export] Instance broker_error_eq_dec : EqDecision broker_error.
Proof. solve_decision. Defined.

(** The dollar columns are NUMERIC(20, 12), in units of the scale. *)
Record SpendReconciliation := {
  rc_event_uid : str;
  rc_ts : Z;
  rc_status : ReconciliationStatus;
  rc_broker_usage_usd : option Z;
  rc_ledger_cost_usd : option Z;
  rc_broker_since_baseline_usd : option Z;
  rc_ledger_since_baseline_usd : option Z;
  rc_drift_usd : option Z;
  rc_tolerance_usd : Z;
  rc_unpriced_lines : Z;
  rc_error_code : option broker_error;
}.
Abbreviation reconciliations := (gmap str SpendReconciliation).

Inductive reconcile_error :=
  | ReconcileValueError (message : string)
  | ReconcileInvalidOperation
  | ReconcileDataError
  | ReconcileIntegrityError.

(** [spend_reconciliation_shape_check] and the other constraints. *)
Definition shape_ok (r : SpendReconciliation) : bool :=
  (0 <=? rc_tolerance_usd r) && (0 <=? rc_unpriced_lines r)
  && match rc_status r with
     | unavailable =>
         forallb (λ o, bool_decide (o = None))
           [rc_broker_usage_usd r; rc_ledger_cost_usd r; rc_broker_since_baseline_usd r;
            rc_ledger_since_baseline_usd r; rc_drift_usd r]
         && bool_decide (rc_error_code r ≠ None)
     | baseline =>
         bool_decide (rc_broker_usage_usd r ≠ None) && bool_decide (rc_ledger_cost_usd r ≠ None)
         && forallb (λ o, bool_decide (o = Some 0))
              [rc_broker_since_baseline_usd r; rc_ledger_since_baseline_usd r; rc_drift_usd r]
         && bool_decide (rc_error_code r = None)
     | _ =>
         forallb (λ o, bool_decide (o ≠ None))
           [rc_broker_usage_usd r; rc_ledger_cost_usd r; rc_broker_since_baseline_usd r;
            rc_ledger_since_baseline_usd r; rc_drift_usd r]
         && bool_decide (rc_error_code r = None)
     end.

(** The amounts fit NUMERIC(20, 12). *)
Definition amounts_fit (r : SpendReconciliation) : bool :=
  forallb (optional (λ k, Z.abs k <? 10 ^ 20))
    [rc_broker_usage_usd r; rc_ledger_cost_usd r; rc_broker_since_baseline_usd r; rc_ledger_since_baseline_usd r;
     rc_drift_usd r; Some (rc_tolerance_usd r)].

(** ** The service *)

(** [ReconciliationService(..., tolerance_usd)]. *)
Definition new_tolerance (tolerance_usd : dec) : res reconcile_error dec :=
  match usd tolerance_usd with
  | None => Err ReconcileInvalidOperation
  | Some t => guard_ (dec_ltb d0 t) (ReconcileValueError "reconciliation tolerance must be positive");; Ok t
  end.

Definition llm_row (r : SpendEvent) : bool :=
  bool_decide (se_product_type r = llm_request) || bool_decide (se_product_type r = llm_embedding).

(** [_ledger_totals]: the exact sum, then [_usd]. *)
Definition ledger_totals (l : ledger) : res reconcile_error (dec * Z) :=
  let rows := filter (λ r, llm_row r = true) (map_to_list l).*2 in
  match usd (Dec (default 0 (sum_known (se_cost_usd <$> rows))) (-12)) with
  | Some total => Ok (total, zlen (filter (λ r, se_cost_usd r = None) rows))
  | None => Err ReconcileInvalidOperation
  end.

Definition result_row (uid : str) (now : Z) (status : ReconciliationStatus)
    (broker_usage ledger_cost broker_since ledger_since drift tolerance : dec) (unpriced : Z) :
    option SpendReconciliation :=
  broker_usage ← usd broker_usage;
  ledger_cost ← usd ledger_cost;
  broker_since ← usd broker_since;
  ledger_since ← usd ledger_since;
  drift ← usd drift;
  Some {| rc_event_uid := uid; rc_ts := now; rc_status := status;
          rc_broker_usage_usd := Some (coef broker_usage); rc_ledger_cost_usd := Some (coef ledger_cost);
          rc_broker_since_baseline_usd := Some (coef broker_since);
          rc_ledger_since_baseline_usd := Some (coef ledger_since); rc_drift_usd := Some (coef drift);
          rc_tolerance_usd := coef tolerance; rc_unpriced_lines := unpriced; rc_error_code := None |}.

Definition unavailable_row (uid : str) (now : Z) (error : broker_error) (tolerance : dec) (unpriced : Z) :
    SpendReconciliation := {|
  rc_event_uid := uid; rc_ts := now; rc_status := unavailable; rc_broker_usage_usd := None;
  rc_ledger_cost_usd := None; rc_broker_since_baseline_usd := None; rc_ledger_since_baseline_usd := None;
  rc_drift_usd := None; rc_tolerance_usd := coef tolerance; rc_unpriced_lines := unpriced;
  rc_error_code := Some error |}.

Section service.
Context `{Collation}.

Definition row_compare (a b : SpendReconciliation) : comparison :=
  then_by (Z.compare (rc_ts a) (rc_ts b)) (text_compare (rc_event_uid a) (rc_event_uid b)).

(** The earliest successful observation: the SELECT of [_successful_row]. *)
Definition reference_row (t : reconciliations) : option SpendReconciliation :=
  head (sort_by (leb_of row_compare) (filter (λ r, rc_status r ≠ unavailable) (map_to_list t).*2)).

(** [_successful_row]; [None] is InvalidBrokerResponse or InvalidOperation,
    which [reconcile_once] answers alike. *)
Definition successful_row (uid : str) (now : Z) (broker_usage ledger_cost tolerance : dec) (unpriced : Z)
    (t : reconciliations) : option SpendReconciliation :=
  match reference_row t with
  | None => result_row uid now baseline broker_usage ledger_cost d0 d0 d0 tolerance unpriced
  | Some base =>
      base_broker ← rc_broker_usage_usd base;
      base_ledger ← rc_ledger_cost_usd base;
      broker_since ← usd (dec_sub broker_usage (Dec base_broker (-12)));
      ledger_since ← usd (dec_sub ledger_cost (Dec base_ledger (-12)));
      if dec_ltb broker_since d0 || dec_ltb ledger_since d0 then None
      else
        difference ← usd (dec_sub ledger_since broker_since);
        result_row uid now
          (if dec_ltb tolerance (Dec (Z.abs (coef difference)) (dexp difference)) then drift else balanced)
          broker_usage ledger_cost broker_since ledger_since difference tolerance unpriced
  end.

(** What the gateway does: a Decimal, [None] when it is not finite, or one of
    its two errors. *)
Definition observation (uid : str) (now : Z) (gateway : res broker_error (option dec)) (ledger_cost tolerance : dec)
    (unpriced : Z) (t : reconciliations) : SpendReconciliation :=
  let invalid := unavailable_row uid now InvalidBrokerResponse tolerance unpriced in
  match gateway with
  | Err e => unavailable_row uid now e tolerance unpriced
  | Ok None => invalid
  | Ok (Some value) =>
      if dec_ltb value d0 then invalid
      else
        match usage ← usd value; successful_row uid now usage ledger_cost tolerance unpriced t with
        | Some row => row
        | None => invalid
        end
  end.

(** [reconcile_once], with the minted identifier and [now()]. *)
Definition reconcile_once (uid : str) (now : Z) (gateway : res broker_error (option dec)) (tolerance : dec)
    (l : ledger) (t : reconciliations) : res reconcile_error (SpendReconciliation * reconciliations) :=
  '(ledger_cost, unpriced) ← ledger_totals l;
  let row := observation uid now gateway ledger_cost tolerance unpriced t in
  guard_ (shape_ok row && amounts_fit row) ReconcileDataError;;
  guard_ (bool_decide (t !! uid = None)) ReconcileIntegrityError;;
  Ok (row, <[uid := row]> t).

(** Reconciliations in the order in which the lock is granted. *)
Inductive reconcile_step (tolerance : dec) (t : reconciliations) : reconciliations → Prop :=
  | step_reconcile uid now gateway l row t' :
      rtc ledger_step ∅ l → reconcile_once uid now gateway tolerance l t = Ok (row, t') → reconcile_step tolerance t t'.
End service.
