(* ===== verification/ReconcileFacts.v ===== *)
(** * Reconciliation arithmetic is exact; when its reference is the baseline *)
From stdpp Require Import relations.
From S2P Require Import Prelude PyStr PyFloat PyDecimal PyJson JsonText JsonFacts Ids Sql Spend SpendFacts SpendTable SpendTableFacts Reconcile.
Open Scope Z_scope.

(** ** Arithmetic in units of 10 ^ -12 dollars *)

Lemma digit_count_upper c n : 1 ≤ n → Z.abs c < 10 ^ n → digit_count c ≤ n.
Proof.
  intros Hn Hc. unfold digit_count, zlen.
  assert (length (str_of_N (Z.to_N (Z.abs c))) ≤ S (Z.to_nat (n - 1)))%nat; [|lia].
  apply str_of_N_length. replace (N.of_nat (S (Z.to_nat (n - 1)))) with (Z.to_N n) by lia.
  apply N2Z.inj_lt. rewrite N2Z.inj_pow, !Z2N.id by lia. done.
Qed.

Lemma usd_units k : usd (Dec k (-12)) = if Z.abs k <? 10 ^ 28 then Some (Dec k (-12)) else None.
Proof. unfold usd, DECIMAL_DIGITS. cbn [dexp coef]. cbn zeta. change (0 <=? -12 + 12) with true. cbn iota. by rewrite Z.mul_1_r. Qed.

Lemma usd_small k : Z.abs k < 10 ^ 28 → usd (Dec k (-12)) = Some (Dec k (-12)).
Proof. intros H. rewrite usd_units. by rewrite (proj2 (Z.ltb_lt _ _) H). Qed.

Lemma usd_Some v d : usd v = Some d → d = Dec (coef d) (-12) ∧ Z.abs (coef d) < 10 ^ 28.
Proof. unfold usd, DECIMAL_DIGITS. cbn zeta. destruct (Z.abs _ <? _) eqn:E; [|done]. intros [= <-]. cbn. apply Z.ltb_lt in E. done. Qed.

Lemma dec_sub_units a b : Z.abs (a - b) < 10 ^ 28 → dec_sub (Dec a (-12)) (Dec b (-12)) = Dec (a - b) (-12).
Proof.
  intros H. unfold dec_sub, dec_add, dec_neg, rescaled. cbn [coef dexp]. cbn zeta.
  rewrite Z.min_id, Z.sub_diag, Z.pow_0_r, !Z.mul_1_r. unfold dec_fix, DECIMAL_PREC. cbn [coef dexp].
  replace (a + - b) with (a - b) by lia.
  pose proof (digit_count_upper (a - b) 28 ltac:(done) H). cbn zeta.
  by rewrite (proj2 (Z.leb_le (digit_count (a - b) - 28) 0)) by lia.
Qed.

Lemma dec_ltb_units a b : dec_ltb (Dec a (-12)) (Dec b (-12)) = (a <? b).
Proof.
  unfold dec_ltb, dec_compare, rescaled. cbn [coef dexp]. rewrite Z.min_id, Z.sub_diag, Z.pow_0_r, !Z.mul_1_r.
  unfold Z.ltb. by destruct (a ?= b).
Qed.

Lemma dec_ltb_d0 a : dec_ltb (Dec a (-12)) d0 = (a <? 0).
Proof. unfold dec_ltb. rewrite dec_compare_zero. cbn [coef]. unfold Z.ltb. by destruct (a ?= 0). Qed.

Lemma usd_nonneg v d : dec_ltb v d0 = false → usd v = Some d → 0 ≤ coef d.
Proof.
  unfold dec_ltb. rewrite dec_compare_zero. intros Hv. assert (0 ≤ coef v) as Hc by (destruct (Z.compare_spec (coef v) 0); (done || lia)).
  unfold usd. cbn zeta. destruct (0 <=? dexp v + 12) eqn:Hk; (destruct (Z.abs _ <? _); [|done]); intros [= <-]; cbn [coef].
  - assert (0 ≤ 10 ^ (dexp v + 12)) by (apply Z.pow_nonneg; lia). nia.
  - assert (0 ≤ half_even (Z.abs (coef v)) (- (dexp v + 12))).
    { unfold half_even. assert (0 < 10 ^ (- (dexp v + 12))) by (apply Z.pow_pos_nonneg; lia).
      assert (0 ≤ Z.abs (coef v) / 10 ^ (- (dexp v + 12))) by (apply Z.div_pos; lia). repeat case_match; lia. }
    assert (0 ≤ Z.sgn (coef v)) by lia. nia.
Qed.

(** ** The observation in exact arithmetic *)

(** The priced cost of the ledger's LLM receipts and the receipts without one. *)
Definition ledger_llm (l : ledger) : list SpendEvent := filter (λ r, llm_row r = true) (map_to_list l).*2.
Definition ledger_usd (l : ledger) : Z := zsum ((λ r, default 0 (se_cost_usd r)) <$> ledger_llm l).
Definition ledger_unpriced (l : ledger) : Z := zlen (filter (λ r, se_cost_usd r = None) (ledger_llm l)).

(** The usable usage of a broker, in units. *)
Definition usage_units (gateway : res broker_error (option dec)) : res broker_error Z :=
  match gateway with
  | Err e => Err e
  | Ok None => Err InvalidBrokerResponse
  | Ok (Some v) =>
      if dec_ltb v d0 then Err InvalidBrokerResponse
      else match usd v with Some d => Ok (coef d) | None => Err InvalidBrokerResponse end
  end.

(** What a reconciliation should record, over the integers. *)
Definition reconciled (uid : str) (now tolerance unpriced : Z) (usage : res broker_error Z) (cost : Z)
    (reference : option (Z * Z)) : SpendReconciliation :=
  let failed e := {|
    rc_event_uid := uid; rc_ts := now; rc_status := unavailable; rc_broker_usage_usd := None;
    rc_ledger_cost_usd := None; rc_broker_since_baseline_usd := None; rc_ledger_since_baseline_usd := None;
    rc_drift_usd := None; rc_tolerance_usd := tolerance; rc_unpriced_lines := unpriced; rc_error_code := Some e |} in
  let seen status broker broker_since ledger_since := {|
    rc_event_uid := uid; rc_ts := now; rc_status := status; rc_broker_usage_usd := Some broker;
    rc_ledger_cost_usd := Some cost; rc_broker_since_baseline_usd := Some broker_since;
    rc_ledger_since_baseline_usd := Some ledger_since; rc_drift_usd := Some (ledger_since - broker_since);
    rc_tolerance_usd := tolerance; rc_unpriced_lines := unpriced; rc_error_code := None |} in
  match usage, reference with
  | Err e, _ => failed e
  | Ok broker, None => seen baseline broker 0 0
  | Ok broker, Some (broker0, cost0) =>
      if (broker <? broker0) || (cost <? cost0) then failed InvalidBrokerResponse
      else seen (if tolerance <? Z.abs ((cost - cost0) - (broker - broker0)) then drift else balanced)
             broker (broker - broker0) (cost - cost0)
  end.

Definition reference_amounts (r : SpendReconciliation) : option (Z * Z) :=
  b ← rc_broker_usage_usd r; c ← rc_ledger_cost_usd r; Some (b, c).

(** The amounts of successful rows are nonnegative and fit their columns. *)
Definition amounts_ok (r : SpendReconciliation) : Prop :=
  rc_status r ≠ unavailable →
  ∃ b c, rc_broker_usage_usd r = Some b ∧ rc_ledger_cost_usd r = Some c ∧ 0 ≤ b < 10 ^ 20 ∧ 0 ≤ c < 10 ^ 20.
Definition recs_ok (t : reconciliations) : Prop := map_Forall (λ uid r, rc_event_uid r = uid ∧ amounts_ok r) t.

(** What is recorded satisfies the constraints of the table. *)
Lemma reconciled_shape uid now tolerance unpriced usage cost reference :
  0 ≤ tolerance → 0 ≤ unpriced → shape_ok (reconciled uid now tolerance unpriced usage cost reference) = true.
Proof.
  intros Ht%Z.leb_le Hu%Z.leb_le. unfold reconciled, shape_ok. destruct usage as [b|e]; [destruct reference as [[b0 c0]|]|].
  - destruct (_ || _); cbn; rewrite Ht, Hu; [done|]. by destruct (_ <? _).
  - cbn. rewrite Ht, Hu. done.
  - cbn. rewrite Ht, Hu. done.
Qed.

Lemma reconciled_fits uid now tolerance unpriced usage cost reference :
  0 ≤ tolerance < 10 ^ 20 → 0 ≤ cost < 10 ^ 20 → (∀ b, usage = Ok b → 0 ≤ b < 10 ^ 20) →
  (∀ b c, reference = Some (b, c) → 0 ≤ b ∧ 0 ≤ c) →
  amounts_fit (reconciled uid now tolerance unpriced usage cost reference) = true.
Proof.
  intros Ht Hc Hb Hr. unfold reconciled, amounts_fit. destruct usage as [b|e]; [specialize (Hb b eq_refl)|cbn; lia].
  destruct reference as [[b0 c0]|]; [destruct (Hr b0 c0 eq_refl)|cbn; lia].
  destruct (_ || _) eqn:E; cbn; lia.
Qed.

Section service.
Context {CO : Collation}.

Lemma reference_elem t r : reference_row t = Some r → (∃ uid, t !! uid = Some r) ∧ rc_status r ≠ unavailable.
Proof.
  unfold reference_row. intros Hr. assert (Hin : r ∈ filter (λ r, rc_status r ≠ unavailable) (map_to_list t).*2).
  { rewrite <- (sort_by_perm (leb_of row_compare)). destruct (sort_by _ _); [done|]. injection Hr as ->. by left. }
  apply list_elem_of_filter in Hin as [Hs ([uid x] & -> & Hx%elem_of_map_to_list)%list_elem_of_fmap]. eauto.
Qed.

Lemma result_row_units uid now status b c bs ls df tol unpriced :
  Forall (λ k, Z.abs k < 10 ^ 28) [b; c; bs; ls; df] →
  result_row uid now status (Dec b (-12)) (Dec c (-12)) (Dec bs (-12)) (Dec ls (-12)) (Dec df (-12)) tol unpriced =
  Some {| rc_event_uid := uid; rc_ts := now; rc_status := status; rc_broker_usage_usd := Some b;
          rc_ledger_cost_usd := Some c; rc_broker_since_baseline_usd := Some bs;
          rc_ledger_since_baseline_usd := Some ls; rc_drift_usd := Some df;
          rc_tolerance_usd := coef tol; rc_unpriced_lines := unpriced; rc_error_code := None |}.
Proof.
  rewrite !Forall_cons. intros (? & ? & ? & ? & ? & _). unfold result_row.
  rewrite !usd_small by done. done.
Qed.

Lemma observation_exact uid now gateway cost tolerance unpriced t :
  recs_ok t → 0 ≤ cost < 10 ^ 28 → 0 < tolerance →
  observation uid now gateway (Dec cost (-12)) (Dec tolerance (-12)) unpriced t =
  reconciled uid now tolerance unpriced (usage_units gateway) cost (reference_row t ≫= reference_amounts).
Proof.
  intros Ht Hcost Htol. unfold observation, usage_units. destruct gateway as [[v|]|e]; [|done|done].
  destruct (dec_ltb v d0) eqn:Hneg; [done|]. destruct (usd v) as [d|] eqn:Hv; [|done]. cbn [mbind option_bind].
  pose proof (usd_nonneg _ _ Hneg Hv) as Hb0. apply usd_Some in Hv as [-> Hb]. cbn [coef] in *. set (b := coef d) in *. clearbody b.
  unfold successful_row. destruct (reference_row t) as [base|] eqn:Href; cbn [mbind option_bind].
  - apply reference_elem in Href as [[u Hu] Hst]. destruct (Ht u base Hu) as [_ Ha].
    destruct (Ha Hst) as (b0 & c0 & Hbb & Hcc & Hb0' & Hc0'). unfold reference_amounts. rewrite Hbb, Hcc.
    cbn [mbind option_bind]. assert (10 ^ 20 < 10 ^ 28) by done.
    rewrite !dec_sub_units, !usd_small by lia. cbn [mbind option_bind]. rewrite !dec_ltb_d0.
    cbn [reconciled]. replace (b <? b0) with (b - b0 <? 0) by lia. replace (cost <? c0) with (cost - c0 <? 0) by lia. destruct ((b - b0 <? 0) || (cost - c0 <? 0)) eqn:Eneg; [done|].
    apply orb_false_iff in Eneg as [H1%Z.ltb_ge H2%Z.ltb_ge].
    rewrite !dec_sub_units, !usd_small by lia. cbn [mbind option_bind coef dexp]. rewrite dec_ltb_units.
    by rewrite result_row_units by (rewrite !Forall_cons, Forall_nil; lia).
  - cbn [reconciled]. change d0 with (Dec 0 0). unfold result_row. rewrite !usd_small by lia.
    cbn [mbind option_bind]. change (usd (Dec 0 0)) with (Some (Dec 0 (-12))). done.
Qed.

Lemma ledger_usd_nonneg l : rtc ledger_step ∅ l → 0 ≤ ledger_usd l.
Proof.
  intros Hl%ledger_reachable_inv%ledger_ink. apply zsum_nonneg, Forall_fmap. unfold ledger_llm.
  apply (ink_costs (filter _ _)), ink_filter, Hl.
Qed.

Lemma ledger_totals_Ok l cost unpriced :
  ledger_totals l = Ok (cost, unpriced) →
  cost = Dec (ledger_usd l) (-12) ∧ Z.abs (ledger_usd l) < 10 ^ 28 ∧ unpriced = ledger_unpriced l.
Proof.
  unfold ledger_totals. cbn zeta. fold (ledger_llm l). rewrite sum_known_value, <- list_fmap_compose.
  change (zsum _) with (ledger_usd l). rewrite usd_units. destruct (Z.abs (ledger_usd l) <? 10 ^ 28) eqn:E; [|done].
  intros [= <- <-]. apply Z.ltb_lt in E. done.
Qed.

Lemma usage_units_nonneg gateway b : usage_units gateway = Ok b → 0 ≤ b.
Proof.
  unfold usage_units. destruct gateway as [[v|]|]; [|done..]. destruct (dec_ltb v d0) eqn:Hn; [done|].
  destruct (usd v) as [d|] eqn:Hv; [|done]. intros [= <-]. by eapply usd_nonneg.
Qed.

Lemma reconcile_inv uid now gateway tolerance l t row t' :
  0 < tolerance → recs_ok t → rtc ledger_step ∅ l →
  reconcile_once uid now gateway (Dec tolerance (-12)) l t = Ok (row, t') →
  row = reconciled uid now tolerance (ledger_unpriced l) (usage_units gateway) (ledger_usd l)
          (reference_row t ≫= reference_amounts)
  ∧ shape_ok row = true ∧ amounts_fit row = true ∧ t !! uid = None ∧ t' = <[uid := row]> t ∧ recs_ok t'.
Proof.
  intros Htol Ht Hl H. unfold reconcile_once in H. apply bind_Ok in H as ([cost unpriced] & Hc & H). cbn beta iota zeta in H.
  apply bind_Ok in H as (? & Hs%guard_Ok & H). apply bind_Ok in H as (? & Hf%guard_Ok%bool_decide_eq_true & [= <- <-]).
  apply ledger_totals_Ok in Hc as (-> & Hlt & ->). pose proof (ledger_usd_nonneg l Hl) as Hn.
  rewrite observation_exact in * by (assumption || lia). apply andb_true_iff in Hs as [Hs Hfit]. split_and!; try done.
  intros k r [[<- <-]|[_ Hk]]%lookup_insert_Some; [|by apply Ht]. clear Hs.
  split; [by unfold reconciled; repeat case_match|]. unfold amounts_ok. revert Hfit. unfold amounts_fit, reconciled.
  destruct (usage_units gateway) as [b|e] eqn:Hb; [|done]. apply usage_units_nonneg in Hb.
  destruct (reference_row t ≫= reference_amounts) as [[b0 c0]|].
  - destruct (_ || _); [done|]. cbn. intros Hfit _. eexists _, _. split_and!; [done..|lia|lia|lia|lia].
  - cbn. intros Hfit _. eexists _, _. split_and!; [done..|lia|lia|lia|lia].
Qed.

Lemma reconcile_reachable tolerance t : 0 < tolerance → rtc (reconcile_step (Dec tolerance (-12))) ∅ t → recs_ok t.
Proof.
  intros Htol. revert t. apply rtc_ind_r; [apply map_Forall_empty|].
  intros t1 t2 _ [uid now gateway l row t2' Hl H] Ht. by apply (reconcile_inv _ _ _ _ _ _ _ _ Htol Ht Hl H).
Qed.

(** C28: A reconciliation is exact.  Over every history of reconciliations, the
    row it appends is the integer-arithmetic comparison of the broker's growth
    with the ledger's: a baseline of zeros when nothing was observed before;
    else, unless either total shrank, the two growths since the reference and
    their difference, flagged as drift exactly when it exceeds the tolerance;
    and an unusable reply is recorded as such.  No rounding occurs, the row
    satisfies the table's constraints, nothing stored changes, and within the
    columns' width the transaction does not fail. *)
Theorem reconcile_exact (tolerance : Z) (t : reconciliations) (l : ledger) (uid : str) (now : Z)
    (gateway : res broker_error (option dec)) :
  0 < tolerance → rtc (reconcile_step (Dec tolerance (-12))) ∅ t → rtc ledger_step ∅ l →
  (∀ row t', reconcile_once uid now gateway (Dec tolerance (-12)) l t = Ok (row, t') →
     row = reconciled uid now tolerance (ledger_unpriced l) (usage_units gateway) (ledger_usd l)
             (reference_row t ≫= reference_amounts)
     ∧ (reference_row t = None ∨ ∃ b c, reference_row t ≫= reference_amounts = Some (b, c))
     ∧ shape_ok row = true ∧ t !! uid = None ∧ t' = <[uid := row]> t)
  ∧ (tolerance < 10 ^ 20 → ledger_usd l < 10 ^ 20 → (∀ b, usage_units gateway = Ok b → b < 10 ^ 20) → t !! uid = None →
     is_ok (reconcile_once uid now gateway (Dec tolerance (-12)) l t) = true).
Proof.
  intros Htol Hreach Hl. pose proof (reconcile_reachable _ _ Htol Hreach) as Ht. split.
  - intros row t' H. destruct (reconcile_inv _ _ _ _ _ _ _ _ Htol Ht Hl H) as (Hrow & Hs & _ & Hf & -> & _). split_and!; try done.
    destruct (reference_row t) as [base|] eqn:E; [right|by left]. apply reference_elem in E as [[k Hk] Hst].
    destruct (Ht _ _ Hk) as [_ Ha]. destruct (Ha Hst) as (b & c & Hb & Hc & _). exists b, c. cbn. unfold reference_amounts. by rewrite Hb, Hc.
  - intros Htol20 Hc20 Hb20 Hf. pose proof (ledger_usd_nonneg l Hl) as Hn. assert (10 ^ 20 < 10 ^ 28) by done.
    unfold reconcile_once, ledger_totals. cbn zeta. fold (ledger_llm l). rewrite sum_known_value, <- list_fmap_compose.
    change (zsum _) with (ledger_usd l). rewrite usd_small by lia. cbn [mbind res_bind].
    fold (ledger_unpriced l). rewrite observation_exact by (assumption || lia). rewrite (bool_decide_true (t !! uid = None)) by done.
    match goal with |- context [guard_ ?b _] => assert (b = true) as ->; [|done] end.
    assert (0 ≤ ledger_unpriced l) by (unfold ledger_unpriced, zlen; lia).
    rewrite reconciled_shape by lia. apply reconciled_fits; [lia|lia| |].
    + intros b Hb. pose proof (usage_units_nonneg _ _ Hb). specialize (Hb20 b Hb). lia.
    + intros b c (base & E & Hba)%bind_Some. apply reference_elem in E as [[k Hk] Hst].
      destruct (Ht _ _ Hk) as [_ Ha]. destruct (Ha Hst) as (b1 & c1 & Hb1 & Hc1 & ? & ?).
      unfold reference_amounts in Hba. rewrite Hb1, Hc1 in Hba. injection Hba as -> ->. lia.
Qed.
End service.

(** ** The reference of later comparisons *)

(** An element before every other one heads the sorted list, whatever the
    order does elsewhere. *)
Lemma sort_by_head {A} (le : A → A → bool) (x : A) l :
  x ∈ l → (∀ y, y ∈ l → y = x ∨ (le x y = true ∧ le y x = false)) → le x x = true →
  head (sort_by le l) = Some x.
Proof.
  intros Hx Hl Hxx. induction l as [|y l IH]; [by apply elem_of_nil in Hx|].
  assert (IH' : x ∈ l → head (sort_by le l) = Some x) by (intros H; apply IH; [done|intros; apply Hl; by right]).
  change (sort_by le (y :: l)) with (insert_sorted le y (sort_by le l)). clear IH.
  assert (Hs : ∀ z, z ∈ sort_by le l → z ∈ l) by (intros z Hz; by rewrite sort_by_perm in Hz).
  assert (Hyx : y = x ∨ x ∈ l) by (apply elem_of_cons in Hx as [->|Hx]; auto).
  destruct (sort_by le l) as [|z s] eqn:E; cbn.
  - destruct Hyx as [->|Hin]; [done|]. specialize (IH' Hin). done.
  - destruct (Hl y) as [->|[Hxy Hyx']]; [by left| |].
    + destruct (Hl z) as [->|[Hxz _]]; [right; apply Hs; by left|by rewrite Hxx|by rewrite Hxz].
    + destruct Hyx as [->|Hin]; [congruence|]. specialize (IH' Hin). injection IH' as ->. by rewrite Hyx'.
Qed.

Section reference.
Context {CO : Collation} {CL : CollationLaws}.

(** A reconciliation whose timestamp is later than every recorded one. *)
Inductive ordered_step (tolerance : dec) (t : reconciliations) : reconciliations → Prop :=
  | in_order uid now gateway l row t' :
      rtc ledger_step ∅ l → (∀ k r, t !! k = Some r → rc_ts r < now) →
      reconcile_once uid now gateway tolerance l t = Ok (row, t') → ordered_step tolerance t t'.

(** The successful observations: none, or one baseline before all others. *)
Definition anchored (t : reconciliations) : Prop :=
  (∀ k r, t !! k = Some r → rc_status r = unavailable)
  ∨ ∃ uid base, t !! uid = Some base ∧ rc_status base = baseline ∧
      ∀ k r, t !! k = Some r → rc_status r ≠ unavailable →
        r = base ∨ (rc_status r ≠ baseline ∧ rc_ts base < rc_ts r).

Lemma anchored_reference t :
  anchored t → reference_row t = None ∧ (∀ k r, t !! k = Some r → rc_status r = unavailable)
  ∨ ∃ uid base, reference_row t = Some base ∧ t !! uid = Some base ∧ rc_status base = baseline ∧
      ∀ k r, t !! k = Some r → rc_status r = baseline → r = base.
Proof.
  intros [Hnone|(uid & base & Hl & Hb & Hall)]; [left|right].
  - split; [|done]. destruct (reference_row t) as [r|] eqn:E; [|done].
    apply reference_elem in E as [[k Hk] Hs]. by destruct Hs; eapply Hnone.
  - exists uid, base. split_and!; [|done..|].
    + unfold reference_row. apply sort_by_head.
      * apply list_elem_of_filter. split; [by rewrite Hb|]. apply list_elem_of_fmap. exists (uid, base).
        split; [done|]. by apply elem_of_map_to_list.
      * intros r [Hs ([k x] & -> & Hk%elem_of_map_to_list)%list_elem_of_fmap]%list_elem_of_filter.
        destruct (Hall k x Hk Hs) as [->|[_ Hlt]]; [by left|right]. cbn [snd].
        unfold leb_of, row_compare, then_by. rewrite (proj2 (Z.compare_lt_iff _ _) Hlt), (proj2 (Z.compare_gt_iff (rc_ts x) _) Hlt). done.
      * unfold leb_of, row_compare, then_by. rewrite Z.compare_refl. by rewrite text_compare_refl.
    + intros k r Hk Hr. destruct (Hall k r Hk) as [?|[? _]]; [by rewrite Hr|done|done].
Qed.

Lemma ordered_reconcile tolerance t t' : ordered_step tolerance t t' → reconcile_step tolerance t t'.
Proof. intros [uid now gateway l row t2 Hl _ H]. by eapply step_reconcile. Qed.

Lemma reconciled_status uid now tolerance unpriced usage cost reference :
  rc_status (reconciled uid now tolerance unpriced usage cost reference) = baseline → reference = None.
Proof.
  unfold reconciled. destruct usage; [|done]. destruct reference as [[b0 c0]|]; [|done].
  destruct (_ || _); [done|]. cbn. by destruct (_ <? _).
Qed.

Lemma reconciled_first uid now tolerance unpriced usage cost :
  rc_status (reconciled uid now tolerance unpriced usage cost None) ≠ unavailable →
  rc_status (reconciled uid now tolerance unpriced usage cost None) = baseline.
Proof. unfold reconciled. by destruct usage. Qed.

Lemma reconciled_ts uid now tolerance unpriced usage cost reference :
  rc_ts (reconciled uid now tolerance unpriced usage cost reference) = now.
Proof. unfold reconciled. repeat case_match; done. Qed.

Lemma ordered_anchored tolerance t t' :
  0 < tolerance → recs_ok t → anchored t → ordered_step (Dec tolerance (-12)) t t' → anchored t'.
Proof.
  intros Htol Ht Ha [uid now gateway l row t2 Hl Hnow H].
  destruct (reconcile_inv _ _ _ _ _ _ _ _ Htol Ht Hl H) as (Hrow & _ & _ & Hf & -> & _).
  assert (Hts : rc_ts row = now) by (rewrite Hrow; apply reconciled_ts).
  destruct (anchored_reference t Ha) as [[Href Hnone]|(k0 & base & Href & Hk0 & Hb & Huniq)].
  - destruct (decide (rc_status row = unavailable)) as [Hu|Hu].
    + left. intros k r [[<- <-]|[_ Hk]]%lookup_insert_Some; [done|by eapply Hnone].
    + right. exists uid, row. rewrite lookup_insert_eq. split; [done|]. rewrite Hrow, Href in *. split; [by apply reconciled_first|].
      intros k r [[<- <-]|[_ Hk]]%lookup_insert_Some Hr; [by left|]. by rewrite (Hnone _ _ Hk) in Hr.
  - right. exists k0, base. assert (uid ≠ k0) by (intros ->; congruence). rewrite lookup_insert_ne by done. split_and!; [done..|].
    intros k r [[<- <-]|[_ Hk]]%lookup_insert_Some Hr.
    + right. split; [|rewrite Hts; by eapply Hnow]. rewrite Hrow. intros Hbase%reconciled_status.
      rewrite Href in Hbase. cbn in Hbase. destruct (Ht _ _ Hk0) as [_ Hok].
      destruct Hok as (b & c & Hbb & Hcc & _); [by rewrite Hb|]. unfold reference_amounts in Hbase. by rewrite Hbb, Hcc in Hbase.
    + destruct Ha as [Hn|(k1 & base1 & Hk1 & Hb1 & Hall)]; [by rewrite (Hn _ _ Hk) in Hr|].
      rewrite (Huniq _ _ Hk1 Hb1) in Hall. by eapply Hall.
Qed.

(** Reconciliations that are granted the lock in the order of their
    timestamps are all measured from one baseline: there is at most one
    observation with that status, it is the earliest successful one, and it is
    the reference of every later comparison. *)
Theorem reference_is_baseline (tolerance : Z) (t : reconciliations) :
  0 < tolerance → rtc (ordered_step (Dec tolerance (-12))) ∅ t →
  (∀ r, reference_row t = Some r → rc_status r = baseline)
  ∧ (∀ k r, t !! k = Some r → rc_status r ≠ unavailable → ∃ base, reference_row t = Some base)
  ∧ (∀ k r, t !! k = Some r → rc_status r = baseline → reference_row t = Some r).
Proof.
  intros Htol Hreach.
  assert (Ha : anchored t ∧ recs_ok t).
  { revert t Hreach. apply rtc_ind_r; [split; [left; intros *; by rewrite lookup_empty|apply map_Forall_empty]|].
    intros t1 t2 _ Hs [Ha Hok]. split; [by eapply ordered_anchored|].
    destruct Hs as [uid now gateway l row t2 Hl _ H]. by apply (reconcile_inv _ _ _ _ _ _ _ _ Htol Hok Hl H). }
  destruct Ha as [Ha _]. destruct (anchored_reference t Ha) as [[-> Hnone]|(k0 & base & -> & Hk0 & Hb & Huniq)].
  - split_and!; [done|intros k r Hk Hr; by rewrite (Hnone _ _ Hk) in Hr|intros k r Hk Hr; rewrite (Hnone _ _ Hk) in Hr; done].
  - split_and!; [by intros r [= <-]|by eauto|]. intros k r Hk Hr. by rewrite (Huniq _ _ Hk Hr).
Qed.
End reference.

(** ** Concrete histories *)
#[local] Instance byte_collation : Collation := {| text_compare := str_compare |}.
#[local] Instance byte_collation_laws : CollationLaws.
Proof. split. apply str_compare_refl. Qed.

Definition observed (uid : string) (now usage : Z) (t : reconciliations) : reconciliations :=
  match reconcile_once (lit uid) now (Ok (Some (dec_of_Z usage))) (Dec (10 ^ 12) (-12)) ∅ t with
  | Ok (_, t') => t'
  | Err _ => ∅
  end.
Definition status_of (uid : string) (t : reconciliations) : option ReconciliationStatus := rc_status <$> t !! lit uid.

(** A dollar of tolerance, an empty ledger, five dollars of usage after the
    baseline: drift, as long as the timestamps follow the lock. *)
Example drift_stays :
  let t := observed "C" 3 5 (observed "B" 2 5 (observed "A" 1 0 ∅)) in
  (status_of "A" t, status_of "B" t, status_of "C" t) = (Some baseline, Some drift, Some drift).
Proof. vm_compute. reflexivity. Qed.

(** The timestamp is the start of the transaction.  When the second one to be
    granted the lock started first, it becomes the reference, and the drift it
    found is never reported again. *)
Theorem reference_can_move :
  let t := observed "C" 3 5 (observed "B" 1 5 (observed "A" 2 0 ∅)) in
  (status_of "A" t, status_of "B" t, status_of "C" t) = (Some baseline, Some drift, Some balanced)
  ∧ rc_status <$> reference_row t = Some drift.
Proof. vm_compute. done. Qed.

Definition first_run : reconciliations := observed "A" 1 0 ∅.

Lemma first_step : reconcile_once (lit "A") 1 (Ok (Some (dec_of_Z 0))) (Dec (10 ^ 12) (-12)) ∅ ∅ =
  Ok (match first_run !! lit "A" with Some r => r | None => unavailable_row [] 0 BrokerUnavailable d0 0 end, first_run).
Proof. vm_compute. reflexivity. Qed.

Lemma first_ordered : rtc (ordered_step (Dec (10 ^ 12) (-12))) ∅ first_run.
Proof.
  apply rtc_once. eapply (in_order _ _ _ _ _ ∅); [apply rtc_refl|intros k r Hk; by rewrite lookup_empty in Hk|].
  exact first_step.
Qed.

Lemma reference_is_baseline_witness : ∃ r, reference_row first_run = Some r ∧ rc_status r = baseline.
Proof.
  destruct (reference_is_baseline (10 ^ 12) first_run ltac:(done) first_ordered) as [H _].
  destruct (reference_row first_run) as [r|] eqn:E; [|vm_compute in E; discriminate E].
  exists r. split; [reflexivity|]. by apply H.
Defined.

Lemma reconcile_exact_witness :
  is_ok (reconcile_once (lit "A") 1 (Ok (Some (dec_of_Z 0))) (Dec (10 ^ 12) (-12)) ∅ ∅) = true.
Proof.
  destruct (reconcile_exact (10 ^ 12) ∅ ∅ (lit "A") 1 (Ok (Some (dec_of_Z 0))) ltac:(done) (rtc_refl _ _) (rtc_refl _ _)) as [_ H].
  apply H; [done|vm_compute; reflexivity| |apply lookup_empty]. intros b Hb. vm_compute in Hb. injection Hb as <-. done.
Defined.

(** A bool, a list or a number too large is no usage. *)
Example usage_replies :
  (cumulative_usage_usd (Content (Some (quoted "{'data': {'usage': '1.5e0'}}"))),
   cumulative_usage_usd (Content (Some (quoted "{'data': {'usage': 0.0000000000005}}"))),
   cumulative_usage_usd (Content (Some (quoted "{'data': {'usage': true}}"))),
   cumulative_usage_usd (Content (Some (quoted "{'data': {'usage': 1e1000000000000000000}}"))),
   cumulative_usage_usd (Content (Some (quoted "[1]"))))
  = (Ok (Dec 1500000000000 (-12)), Ok (Dec 0 (-12)), Err InvalidBrokerResponse, Err InvalidBrokerResponse,
     Err InvalidBrokerResponse).
Proof. vm_compute. reflexivity. Qed.
