(* ===== verification/Evidence.v ===== *)
(** * Learning evidence: [src/src/spine/learner/evidence.py]

    The injection log becomes graded examples and share boundaries.  A whole
    gate is left out when one of its rows is annotated or carries a reserved
    identity.  A row's recorded features and the configuration that served it
    give the part of its score that the fit cannot move. *)
From Stdlib Require Import SpecFloat.
From S2P Require Import Prelude PyStr PyFloat PyDecimal PyJson Ids Axes Scorer Features Store Annotations Learner.
Open Scope Z_scope.

(** [LearnerRaised] is an exception of Python, [LearnerIntegrityError] one of the
    database.  [FuelExhausted] is the model's own: a loop's fuel running out. *)
Inductive learner_error :=
  | LearnerDataError (message : str)
  | LearnerRaised (e : pyexn)
  | LearnerIntegrityError (table : string)
  | FuelExhausted.

Record LearningEvidence := {
  ev_examples : list LearningExample;
  ev_share_boundaries : list ShareBoundary;
  ev_hygiene_excluded_dispositions : Z;
}.

Definition raised {A} (r : res pyexn A) : res learner_error A :=
  match r with Ok a => Ok a | Err e => Err (LearnerRaised e) end.

Definition event_error (row : InjectionEvent) (suffix : str) : learner_error :=
  LearnerDataError (lit "event " ++ i_event_uid row ++ suffix).

(** ** Reading a row *)

(** [float(z)] of an integer. *)
Definition float_of_int (z : Z) : res pyexn float :=
  guard_ (isfinite (f_of_Z z)) (OverflowError "int too large to convert to float");; Ok (f_of_Z z).

(** A number of the unit interval, not a [bool]. *)
Definition unit_number (row : InjectionEvent) (name : string) (value : json) : res learner_error float :=
  normalized ← match value with
               | JInt z => raised (float_of_int z)
               | JFloat x => Ok x
               | _ => Err (event_error row (lit " feature " ++ lit name ++ lit " is not numeric"))
               end;
  guard_ (isfinite normalized && (fle f0 normalized && fle normalized f1))
    (event_error row (lit " feature " ++ lit name ++ lit " is outside [0,1]"));;
  Ok normalized.

(** [_features], for [FEATURE_NAMES]. *)
Definition row_features (row : InjectionEvent) : res learner_error (list float) :=
  res_map (λ name, unit_number row name (jget_or_null (lit name) (i_features row))) weight_names.

Definition optional_feature (row : InjectionEvent) (name : string) : res learner_error (option float) :=
  match jget_or_null (lit name) (i_features row) with
  | JNull => Ok None
  | value => x ← unit_number row name value; Ok (Some x)
  end.

Definition frozen_body (row : InjectionEvent) : res learner_error str :=
  match (memory ← aget (lit "_memory") (i_features row); jget (lit "body") memory) with
  | Some (JStr body) => Ok body
  | _ => Err (event_error row (lit " has no frozen memory body"))
  end.

Definition feature_key (f : feature) : string :=
  match f with
  | Fsem => "sem" | Fkw => "kw" | Ftime => "time" | Fproj => "proj" | Ffreq => "freq" | Fhist => "hist"
  | Floc => "loc" | Fthread => "thread" | Fwhere => "where"
  end.

(** [row.features.get(name)] of the nine features, once they are known to be
    numbers or absent. *)
Definition json_features (features : list (str * json)) : features_map := λ f,
  value ← aget (lit (feature_key f)) features; as_number value.

Definition actor_str (a : ActorClass) : str := match a with human => lit "human" | passive => lit "passive" end.

Section evidence.
Context `{Unicode} `{Tokenizer} `{PyRepr}.
Context (passive_discount : dec).

(** The label and weight of a row, when it grades its memory. *)
Definition row_disposition (row : InjectionEvent) : option (bool * dec) :=
  disposition (outcome_str <$> i_outcome row) (actor_str (i_actor_class row)) passive_discount.

Definition body_tokens (row : InjectionEvent) : res learner_error Z :=
  body ← frozen_body row; Ok (cl100k_token_count body).

(** ** Hygiene *)
Definition member_excluded (annotated : annotations) (row : InjectionEvent) : bool :=
  bool_decide (is_Some (annotated !! i_event_uid row))
  || identity_is_excluded (i_principal_id row) (i_machine_id row).

Definition excluded_gates (rows : list InjectionEvent) (annotated : annotations) : list uuid :=
  (filter (λ g, existsb (member_excluded annotated) g.2 = true) (group_by i_injection_id rows)).*1.

(** ** Examples *)

(** The linear score of the row with its localities and axes, under the
    configuration that served it. *)
Definition localized_score (source : ScorerConfig) (row : InjectionEvent) (features : list float)
    (location thread where_ : option float) : res pyexn float :=
  w ← weights_for_project source (i_project_key row);
  terms ← zip_strict fmul (weight_values w) features;
  pre_location ← fsum terms;
  let localized := foldl mix_feature pre_location
    [(location_weight (params source), location); (thread_weight (params source), thread);
     (where_weight (params source), where_)] in
  Ok (apply_axes localized (json_features (i_features row)) (axes source)).

Definition missing_scorer (row : InjectionEvent) : learner_error :=
  event_error row (lit " references missing scorer " ++ py_repr (JStr (i_scorer_version row))).

Definition example_of (configs : gmap str ScorerConfig) (row : InjectionEvent) (labeled : bool * dec) :
    res learner_error LearningExample :=
  match configs !! i_scorer_version row with
  | None => Err (missing_scorer row)
  | Some source =>
      features ← row_features row;
      location ← optional_feature row "loc";
      thread ← optional_feature row "thread";
      where_ ← optional_feature row "where";
      localized ← raised (localized_score source row features location thread where_);
      let baseline_bias := fsub (fsub (i_score row) localized) (bias_offset source (i_memory_id row)) in
      tokens ← body_tokens row;
      Ok {| le_event_uid := i_event_uid row; le_injection_id := i_injection_id row;
            le_memory_id := i_memory_id row; le_ts := i_ts row; le_features := features;
            le_baseline_bias := baseline_bias; le_target_injected := labeled.1;
            le_actor_weight := labeled.2; le_shown_as := i_shown_as row; le_body_tokens := tokens;
            le_location_feature := location; le_location_weight := location_weight (params source);
            le_thread_feature := thread; le_thread_id := Some (i_thread_id row);
            le_where_feature := where_; le_where_weight := where_weight (params source);
            le_project_key := i_project_key row |}
  end.

(** The graded rows in their order, with their labels. *)
Definition graded (rows : list InjectionEvent) : list (InjectionEvent * (bool * dec)) :=
  omap (λ row, labeled ← row_disposition row; Some (row, labeled)) rows.

(** ** Share boundaries *)
Definition dec_max (a b : dec) : dec := if dec_ltb a b then b else a.

Definition positive_step (acc : gmap uuid dec) (row : InjectionEvent) : gmap uuid dec :=
  match i_outcome row with
  | Some outcome =>
      if one_of EXPLICIT_POSITIVE_OUTCOMES (outcome_str outcome) then
        match row_disposition row with
        | Some (true, weight) =>
            <[i_memory_id row := dec_max (default d0 (acc !! i_memory_id row)) weight]> acc
        | _ => acc
        end
      else acc
  | None => acc
  end.

Definition explicit_positive_weights (rows : list InjectionEvent) : gmap uuid dec := foldl positive_step ∅ rows.

(** The value of the first row whose [_prepare] holds an acceptable integer. *)
Definition prepared_int (name : string) (ok : Z → bool) (members : list InjectionEvent) : option Z :=
  head (omap (λ row, prepare ← aget (lit "_prepare") (i_features row);
                     value ← jget (lit name) prepare;
                     z ← as_int value;
                     if ok z then Some z else None) members).

Definition context_tokens (members : list InjectionEvent) : option Z :=
  prepared_int "model_context_tokens" (λ z, 0 <? z) members.

(** [int(x)] of a float. *)
Definition py_int (x : float) : res pyexn Z :=
  match x with
  | S754_zero _ => Ok 0
  | S754_finite s m e =>
      let z := if 0 <=? e then Zpos m * 2 ^ e else Zpos m / 2 ^ (- e) in Ok (if s then - z else z)
  | S754_infinity _ => Err (OverflowError "cannot convert float infinity to integer")
  | S754_nan => Err (ValueError "cannot convert float NaN to integer")
  end.

Definition recorded_share_tokens (members : list InjectionEvent) (source : ScorerConfig) (context_tokens : Z) :
    res learner_error Z :=
  match prepared_int "share_tokens" (λ z, 0 <=? z) members with
  | Some value => Ok value
  | None =>
      context ← raised (float_of_int context_tokens);
      share_tokens ← raised (py_int (fmul (memory_context_share (params source)) context));
      Ok match legacy_budget_tokens (params source) with
         | Some legacy => Z.min share_tokens legacy
         | None => share_tokens
         end
  end.

(** [a / b] of integers. *)
Definition true_div (a b : Z) : res learner_error float :=
  guard_ (isfinite (f_ratio a b)) (LearnerRaised (OverflowError "integer division result too large for a float"));;
  Ok (f_ratio a b).

(** The key [(rank, event_uid)]. *)
Definition rank_leb (a b : InjectionEvent) : bool :=
  (i_rank a <? i_rank b) || (i_rank a =? i_rank b) && str_leb (i_event_uid a) (i_event_uid b).

Definition boundary (row : InjectionEvent) (injection_id : uuid) (required : float) (at_least : bool)
    (weight : dec) (kind : boundary_kind) : ShareBoundary := {|
  sb_event_uid := i_event_uid row; sb_injection_id := injection_id; sb_required_share := required;
  sb_target_at_least := at_least; sb_actor_weight := weight; sb_kind := kind |}.

(** One turn of the loop over a gate's rows for valuable budget cuts. *)
Definition cut_step (positives : gmap uuid dec) (injection_id : uuid) (regular context : Z)
    (st : list uuid * list ShareBoundary) (row : InjectionEvent) :
    res learner_error (list uuid * list ShareBoundary) :=
  let '(seen, result) := st in
  match i_shown_as row, positives !! i_memory_id row with
  | shown_budget_cut, Some weight =>
      if bool_decide (i_memory_id row ∈ seen) then Ok st
      else
        tokens ← body_tokens row;
        required ← true_div (regular + tokens) context;
        Ok (i_memory_id row :: seen,
            result ++ [boundary row injection_id required true weight valuable_budget_cut])
  | _, _ => Ok st
  end.

Definition marginal_boundary (injection_id : uuid) (regular context : Z) (selected : list InjectionEvent) :
    res learner_error (list ShareBoundary) :=
  match selected with
  | [] => Ok []
  | row :: rest =>
      let marginal := min_by (λ a b, rank_leb b a) row rest in
      match i_outcome marginal with
      | None => Ok []
      | Some outcome =>
          if one_of NEGATIVE_OUTCOMES (outcome_str outcome) then
            required ← true_div regular context;
            Ok [boundary marginal injection_id required false d1 marginal_removed]
          else if bool_decide (outcome = kept) then
            required ← true_div regular context;
            Ok [boundary marginal injection_id required false passive_discount marginal_uncited]
          else Ok []
      end
  end.

Definition pin_boundary (configs : gmap str ScorerConfig) (injection_id : uuid)
    (members pins : list InjectionEvent) (total context : Z) : res learner_error (list ShareBoundary) :=
  match members, pins with
  | first :: _, pin :: rest =>
      match configs !! i_scorer_version first with
      | None => Err (missing_scorer first)
      | Some source =>
          share_tokens ← recorded_share_tokens members source context;
          if share_tokens <? total then
            required ← true_div total context;
            Ok [boundary (min_by rank_leb pin rest) injection_id required true d1 pin_overflow]
          else Ok []
      end
  | _, _ => Ok []
  end.

(** The boundaries of one gate. *)
Definition gate_boundaries (configs : gmap str ScorerConfig) (positives : gmap uuid dec)
    (gate : uuid * list InjectionEvent) : res learner_error (list ShareBoundary) :=
  let '(injection_id, members) := gate in
  match context_tokens members with
  | None => Ok []
  | Some context =>
      let regulars := filter (λ row, i_shown_as row = shown_injected) members in
      let pins := filter (λ row, i_shown_as row = shown_pinned) members in
      regular_tokens ← res_map body_tokens regulars;
      pinned_tokens ← res_map body_tokens pins;
      let regular := zsum regular_tokens in
      '(_, cuts) ← res_fold (cut_step positives injection_id regular context) ([], []) (sort_by rank_leb members);
      marginal ← marginal_boundary injection_id regular context regulars;
      overflow ← pin_boundary configs injection_id members pins (regular + zsum pinned_tokens) context;
      Ok (cuts ++ marginal ++ overflow)
  end.

Definition share_boundaries (configs : gmap str ScorerConfig) (rows : list InjectionEvent) :
    res learner_error (list ShareBoundary) :=
  @concat ShareBoundary <$> res_map (gate_boundaries configs (explicit_positive_weights rows))
               (sort_by (λ a b, (a.1 <=? b.1)%N) (group_by i_injection_id rows)).

Definition project_learning_evidence (rows : list InjectionEvent) (annotated : annotations)
    (configs : gmap str ScorerConfig) : res learner_error LearningEvidence :=
  let excluded := excluded_gates rows annotated in
  let out := filter (λ row, i_injection_id row ∈ excluded) rows in
  let kept := filter (λ row, i_injection_id row ∉ excluded) rows in
  examples ← res_map (λ x, example_of configs x.1 x.2) (graded kept);
  boundaries ← share_boundaries configs kept;
  Ok {| ev_examples := examples; ev_share_boundaries := boundaries;
        ev_hygiene_excluded_dispositions := zlen (graded out) |}.
End evidence.
