(* ===== verification/EvidenceFacts.v ===== *)
(** * What the learner reads is what was served, and hygiene is exact *)
From Stdlib Require Import SpecFloat.
From S2P Require Import Prelude PyStr PyFloat PyDecimal PyJson PyPath Ids Axes Scorer Features Selection Embeddings Store MemoryDb.
From S2P Require Import Annotations Learner Prepare PrepareFacts PrepareSamples Evidence.
Open Scope Z_scope.

(** ** Powers of two *)

(** C's [pow(2.0, n)] of a non-positive integer [n] is a power of two, or zero
    once it underflows. *)
Class LibmPowers `{Libm} := { pow2_power : ∀ n : Z, 0 ≤ n → ∃ k, 0 ≤ k ∧ pow2 (f_of_Z (- n)) = fround 1 (- k) }.

Definition rest_record : shr_record := {| shr_m := 0; shr_r := false; shr_s := true |}.
Definition half_record : shr_record := {| shr_m := 0; shr_r := true; shr_s := false |}.

Lemma iter_shr_rest p x : x = half_record ∨ x = rest_record → SpecFloat.iter_pos shr_1 p x = rest_record.
Proof.
  revert x. induction p as [p IH|p IH|]; intros x Hx; cbn [SpecFloat.iter_pos].
  - assert (shr_1 x = rest_record) as -> by (by destruct Hx as [-> | ->]). rewrite (IH rest_record) by auto. auto.
  - rewrite (IH x) by done. auto.
  - by destruct Hx as [-> | ->].
Qed.

Lemma iter_shr_one p :
  SpecFloat.iter_pos shr_1 p {| shr_m := 1; shr_r := false; shr_s := false |} =
  if (p =? 1)%positive then half_record else rest_record.
Proof.
  induction p as [p IH|p IH|]; cbn [SpecFloat.iter_pos Pos.eqb]; [| |done].
  - change (shr_1 {| shr_m := 1; shr_r := false; shr_s := false |}) with half_record.
    rewrite (iter_shr_rest p half_record) by auto. apply iter_shr_rest. by right.
  - rewrite IH. destruct (p =? 1)%positive; apply iter_shr_rest; auto.
Qed.

(** Below the smallest subnormal there is nothing but zero. *)
Lemma fround_tiny n : 1076 ≤ n → fround 1 (- n) = f0.
Proof.
  intros Hn. change (fround 1 (- n)) with (binary_round 53 1024 false 1 (- n)). unfold binary_round.
  assert (Hf : fexp 53 1024 (Z.pos (digits2_pos 1) + - n) = -1074).
  { unfold fexp, emin. change (Z.pos (digits2_pos 1)) with 1. lia. }
  unfold shl_align. rewrite Hf. destruct (-1074 - - n) as [|p|p] eqn:Ep; [lia| |lia].
  unfold binary_round_aux.
  assert (shr_fexp 53 1024 1 (- n) loc_Exact = (rest_record, - n + Z.pos p)) as ->.
  { unfold shr_fexp. change (Zdigits2 1) with (Z.pos (digits2_pos 1)). rewrite Hf. unfold shr. rewrite Ep.
    cbn [shr_record_of_loc]. rewrite iter_shr_one.
    by assert ((p =? 1)%positive = false) as -> by (apply Pos.eqb_neq; lia). }
  cbn. unfold shr_fexp. replace (- n + Z.pos p) with (-1074) by lia. done.
Qed.

Definition where_value (d : Z) : float := fadd (f_ratio 3 4) (fmul (f_ratio 1 4) (fround 1 (- d))).
Definition in_unit (x : float) : bool := isfinite x && (fle f0 x && fle x f1).

Lemma where_value_unit d : 0 ≤ d → in_unit (where_value d) = true.
Proof.
  intros Hd. destruct (Z.lt_ge_cases d 1076) as [Hlt|Hge].
  - assert (Hall : forallb (λ k, in_unit (where_value (Z.of_nat k))) (seq 0 1076) = true) by (vm_compute; reflexivity).
    rewrite forallb_forall in Hall. specialize (Hall (Z.to_nat d)).
    rewrite Z2Nat.id in Hall by done. apply Hall, in_seq. lia.
  - unfold where_value. rewrite fround_tiny by done. vm_compute. reflexivity.
Qed.

Lemma where_feature_unit `{Libm} `{!LibmPowers} c o v : where_feature c o = Ok (Some v) → in_unit v = true.
Proof.
  unfold where_feature. destruct c as [c|], o as [o|]; try done. intros H'.
  apply bind_Ok in H' as (? & _ & H'). cbn zeta in H'. revert H'. case_bool_decide; [by intros [= <-]|].
  destruct (_ || _).
  - intros [= <-]. match goal with |- context [f_of_Z (- ?d)] => destruct (pow2_power d) as (k & Hk & ->); [lia|] end.
    by apply where_value_unit.
  - case_bool_decide; by intros [= <-].
Qed.

Lemma unit_in_unit x : unit_interval x → in_unit x = true.
Proof. intros [H0 H1]. unfold in_unit. rewrite H0, H1, andb_true_r. destruct x as [|[]| |]; done. Qed.

(** ** What serving computed for a logged card *)
Section served.
Context {UC : Unicode} {LM : Libm} {TK : Tokenizer}.

(** The features and the score of a card, as [score_candidate] computed them. *)
Definition scored_as (ctx : ScoringContext) (config : ScorerConfig) (candidate : ScoringCandidate)
    (features : ScoreFeatures) (score : float) : Prop :=
  ∃ w f s, weights_for_project config (c_thread_project_key ctx) = Ok w ∧
    base_features ctx candidate None (params config) = Ok f ∧ features = with_axes f (axes config) ∧
    score_features f w (params config) (axes config) = Ok s ∧
    fround32 (fadd s (fadd (bias candidate) (bias_offset config (memory_id candidate)))) = Ok score.

Lemma pool_scored ctx config pool us u :
  score_pool ctx config pool = Ok us → u ∈ us →
  scored_as ctx config (u_candidate u) (u_features u) (u_score u) ∧
  u_token_cost u = cl100k_token_count (body (u_candidate u)).
Proof.
  intros H%res_map_Forall2 Hu. apply list_elem_of_lookup in Hu as [i Hi].
  destruct (Forall2_lookup_r _ _ _ _ _ H Hi) as (candidate & _ & Hc).
  apply bind_Ok in Hc as (w & Hw & Hc). apply bind_Ok in Hc as (f & Hf & Hc). apply bind_Ok in Hc as (s & Hs & Hc).
  apply bind_Ok in Hc as (? & _ & Hc). apply bind_Ok in Hc as (q & Hq & <-%Ok_inj). cbn.
  split; [|done]. by exists w, f, s.
Qed.

Lemma rank_from_elem k l s :
  s ∈ rank_from k l → ∃ u, u ∈ l ∧ s_candidate s = u_candidate u ∧ s_features s = u_features u ∧
    s_score s = u_score u ∧ s_token_cost s = u_token_cost u.
Proof.
  unfold rank_from. intros ([r u] & -> & Hin)%list_elem_of_fmap. exists u. split_and!; [|done..].
  apply (list_elem_of_fmap_2 snd) in Hin. by rewrite enumerate_from_snd in Hin.
Qed.

Lemma greedy_elem tau budget l s :
  s ∈ (greedy_ref tau budget l).1 ++ (greedy_ref tau budget l).2 → s ∈ l.
Proof. by rewrite greedy_ref_perm. Qed.

Lemma selection_scored r config sel s :
  score_and_select r config = Ok sel → s ∈ injected sel ++ unselected sel →
  ∃ query, scored_as (request_context r query) config (s_candidate s) (s_features s) (s_score s) ∧
    s_token_cost s = cl100k_token_count (body (s_candidate s)).
Proof.
  intros H Hs. apply score_and_select_inv in H as (query & pins & pool & _ & _ & _ & Hp & Hr & _ & ->).
  pose proof (select_unfold (params config) (model_context_tokens r) pins
    (locked_of r pins pool) (regular_of r pins pool)) as Hsel. cbn zeta in Hsel.
  match type of Hsel with context [greedy_ref ?t ?b ?l] => pose proof (greedy_elem t b l s) as Hg;
    destruct (greedy_ref t b l) as [chosen rest] end.
  destruct Hsel as (Hi & Hun & _). rewrite Hi, Hun in Hs. exists query.
  assert (Hu : ∃ u, (u ∈ pins ∨ u ∈ pool) ∧ s_candidate s = u_candidate u ∧ s_features s = u_features u ∧
    s_score s = u_score u ∧ s_token_cost s = u_token_cost u).
  { rewrite !elem_of_app in Hs. destruct Hs as [[Hs|[Hs|Hs]]|Hs].
    - apply rank_from_elem in Hs as (u & Hu & ?). rewrite sort_by_perm in Hu. exists u. auto.
    - apply rank_from_elem in Hs as (u & Hu & ?). rewrite sort_by_perm in Hu.
      apply list_elem_of_filter in Hu as [_ Hu]. exists u. auto.
    - cbn in Hg. rewrite elem_of_app in Hg. specialize (Hg (or_introl Hs)).
      apply rank_from_elem in Hg as (u & Hu & ?). rewrite sort_by_perm in Hu.
      apply list_elem_of_filter in Hu as [_ Hu]. exists u. auto.
    - cbn in Hg. rewrite elem_of_app in Hg. specialize (Hg (or_intror Hs)).
      apply rank_from_elem in Hg as (u & Hu & ?). rewrite sort_by_perm in Hu.
      apply list_elem_of_filter in Hu as [_ Hu]. exists u. auto. }
  destruct Hu as (u & [Hu|Hu] & -> & -> & -> & ->).
  - by apply (pool_scored _ _ _ _ _ Hp).
  - by apply (pool_scored _ _ _ _ _ Hr).
Qed.

(** Every row of the log is about a card of the selection. *)
Lemma exit_step_elem c l st en :
  en ∈ (foldl (exit_step c) st l).2 → en ∈ st.2 ∨ en_item en ∈ l.
Proof.
  revert st. induction l as [|item l IH]; intros [recorded entries]; cbn [foldl]; [auto|].
  intros Hen. apply IH in Hen as [Hen|Hen]; [|right; by right].
  unfold exit_step in Hen. destruct (_ && _); [|by left].
  apply elem_of_app in Hen as [Hen|Hen%list_elem_of_singleton]; [by left|right]. rewrite Hen. left.
Qed.

Lemma log_entry_item c r config sel en :
  score_and_select r config = Ok sel → en ∈ log_entries c sel → en_item en ∈ injected sel ++ unselected sel.
Proof.
  intros H. destruct (selection_ids _ _ _ H) as (_ & Hn & Hb). unfold log_entries. rewrite !elem_of_app.
  intros [Hen|[Hen|[Hen|Hen]]].
  - apply list_elem_of_fmap in Hen as (s & -> & Hs). by left.
  - apply list_elem_of_fmap in Hen as (s & -> & Hs). right. rewrite Hn in Hs. unfold slice_to in Hs.
    by destruct (_ <? _); apply elem_take in Hs.
  - apply list_elem_of_fmap in Hen as (s & -> & Hs). right. rewrite Hb in Hs. by apply list_elem_of_filter in Hs as [_ ?].
  - destruct (p_mode c); [by apply elem_of_nil in Hen|]. apply exit_step_elem in Hen as [Hen|Hen]; [by apply elem_of_nil in Hen|].
    by right.
Qed.
End served.

(** ** The half lives of a configuration that was read *)
Lemma finite_number_finite v x : finite_number v = Ok x → isfinite x = true.
Proof.
  unfold finite_number. destruct v; try done; [destruct (isfinite (f_of_Z z)) eqn:E|destruct (isfinite f) eqn:E]; try done;
    by intros [= <-].
Qed.

Lemma number_finite m k x : number m k = Ok x → isfinite x = true.
Proof. intros (v & _ & H)%bind_Ok. by eapply finite_number_finite. Qed.

Lemma optional_number_finite m k d x : isfinite d = true → optional_number m k d = Ok x → isfinite x = true.
Proof. unfold optional_number. intros Hd. destruct (aget _ _); [apply finite_number_finite|by intros [= <-]]. Qed.

Definition half_lives_ok (p : ScorerParams) : Prop :=
  positive_finite (half_life_time_days p) = true ∧ positive_finite (half_life_hist_days p) = true ∧
  positive_finite (half_life_location_hops p) = true.

Lemma from_mappings_half_lives `{AxisDecoder} ver w p c : from_mappings ver w p = Ok c → half_lives_ok (params c).
Proof.
  unfold from_mappings. intros Hc.
  do 8 (apply bind_Ok in Hc as (? & _ & Hc)). apply bind_Ok in Hc as (? & _ & Hc).
  apply bind_Ok in Hc as (tau & _ & Hc). apply bind_Ok in Hc as (k & _ & Hc). cbn zeta in Hc.
  apply bind_Ok in Hc as (share & _ & Hc). apply bind_Ok in Hc as (ht & Ht%number_finite & Hc).
  apply bind_Ok in Hc as (hh & Hh%number_finite & Hc). apply bind_Ok in Hc as (cp & _ & Hc).
  apply bind_Ok in Hc as (lw & _ & Hc). apply bind_Ok in Hc as (hl & Hl & Hc).
  apply optional_number_finite in Hl; [|by vm_compute].
  apply bind_Ok in Hc as (tw & _ & Hc). apply bind_Ok in Hc as (ww & _ & Hc). apply bind_Ok in Hc as (lg & _ & Hc).
  apply bind_Ok in Hc as (? & Hp & Hc). apply bind_Ok in Hc as (ax & _ & Hc).
  apply bind_Ok in Hc as (? & _ & <-%Ok_inj). cbn [params]. unfold params_post_init in Hp.
  cbn [half_life_time_days half_life_hist_days half_life_location_hops] in Hp.
  do 4 (apply bind_Ok in Hp as (? & _ & Hp)). apply bind_Ok in Hp as (? & Hhalf%guard_Ok & Hp).
  do 2 (apply bind_Ok in Hp as (? & _ & Hp)). apply bind_Ok in Hp as (? & Hhops%guard_Ok & _).
  apply negb_true_iff, orb_false_iff in Hhalf as [H1 H2]. apply negb_true_iff in Hhops.
  unfold half_lives_ok, positive_finite. cbn. by rewrite Ht, Hh, Hl, H1, H2, Hhops.
Qed.

Lemma config_of_row_half_lives `{AxisDecoder} r c : config_of_row r = Ok c → half_lives_ok (params c) ∧ version c = sc_version r.
Proof.
  unfold config_of_row. destruct (sc_params r), (sc_weights r); try done. intros Hc. split; [by eapply from_mappings_half_lives|].
  unfold from_mappings in Hc. do 22 (apply bind_Ok in Hc as (? & _ & Hc)). cbn zeta in Hc.
  repeat (apply bind_Ok in Hc as (? & _ & Hc)). by injection Hc as <-.
Qed.

(** ** Reading back a logged row *)
Definition six (F : ScoreFeatures) : list float := [f_sem F; f_kw F; f_time F; f_proj F; f_freq F; f_hist F].
Definition features_unit (F : ScoreFeatures) : Prop :=
  Forall (λ x, in_unit x = true) (six F) ∧
  ∀ x, f_loc F = Some x ∨ f_thread F = Some x ∨ f_where F = Some x → in_unit x = true.

Lemma unit_number_float row name x : in_unit x = true → unit_number row name (JFloat x) = Ok x.
Proof. unfold unit_number, in_unit. intros Hx. cbn [mbind res_bind]. by rewrite Hx. Qed.

Lemma optional_read row name o :
  jget_or_null (lit name) (i_features row) = json_option JFloat o → (∀ x, o = Some x → in_unit x = true) →
  optional_feature row name = Ok o.
Proof.
  unfold optional_feature. intros -> Ho. destruct o as [x|]; [|done]. cbn [json_option].
  by rewrite unit_number_float by auto.
Qed.

Lemma features_read row F tail :
  i_features row = features_dict F ++ tail → features_unit F →
  row_features row = Ok (six F) ∧ optional_feature row "loc" = Ok (f_loc F) ∧
  optional_feature row "thread" = Ok (f_thread F) ∧ optional_feature row "where" = Ok (f_where F).
Proof.
  intros Hrow [H6 H3]. unfold six in H6. rewrite !Forall_cons in H6. destruct H6 as (? & ? & ? & ? & ? & ? & _).
  split_and!; [|apply optional_read; [by rewrite Hrow|intros; apply H3; auto]..].
  unfold row_features. rewrite Hrow. cbn [res_map weight_names].
  change (jget_or_null (lit "sem") (features_dict F ++ tail)) with (JFloat (f_sem F)).
  change (jget_or_null (lit "kw") (features_dict F ++ tail)) with (JFloat (f_kw F)).
  change (jget_or_null (lit "time") (features_dict F ++ tail)) with (JFloat (f_time F)).
  change (jget_or_null (lit "proj") (features_dict F ++ tail)) with (JFloat (f_proj F)).
  change (jget_or_null (lit "freq") (features_dict F ++ tail)) with (JFloat (f_freq F)).
  change (jget_or_null (lit "hist") (features_dict F ++ tail)) with (JFloat (f_hist F)).
  rewrite !unit_number_float by done. done.
Qed.

Lemma json_features_read F tail f : json_features (features_dict F ++ tail) f = as_dict F f.
Proof.
  destruct f; try done; unfold json_features, as_dict.
  - change (aget (lit (feature_key Floc)) (features_dict F ++ tail)) with (Some (json_option JFloat (f_loc F))). by destruct (f_loc F).
  - change (aget (lit (feature_key Fthread)) (features_dict F ++ tail)) with (Some (json_option JFloat (f_thread F))). by destruct (f_thread F).
  - change (aget (lit (feature_key Fwhere)) (features_dict F ++ tail)) with (Some (json_option JFloat (f_where F))). by destruct (f_where F).
Qed.

Lemma apply_axes_ext s (f g : features_map) ax : (∀ x, f x = g x) → apply_axes s f ax = apply_axes s g ax.
Proof.
  intros H. unfold apply_axes. revert s. induction (sort_axes ax) as [|na l IH]; intros s; [done|]. cbn [foldl].
  rewrite IH. f_equal. unfold apply_axis, axis_value. by rewrite !H.
Qed.

(** The replayed linear score is the served one, float for float. *)
Lemma localized_served config row F tail w :
  i_features row = features_dict F ++ tail → weights_for_project config (i_project_key row) = Ok w →
  localized_score config row (six F) (f_loc F) (f_thread F) (f_where F) =
  score_features F w (params config) (axes config).
Proof.
  intros Hrow Hw. unfold localized_score, score_features. rewrite Hw. cbn [mbind res_bind].
  change (zip_strict fmul (weight_values w) (six F)) with (Ok (E := pyexn) (linear_terms F w)). cbn [mbind res_bind].
  destruct (fsum (linear_terms F w)); [|done]. cbn [mbind res_bind]. f_equal.
  apply apply_axes_ext. intros x. rewrite Hrow. apply json_features_read.
Qed.

Lemma with_axes_score F w p ax ax' : score_features (with_axes F ax') w p ax = score_features F w p ax.
Proof.
  unfold score_features. change (linear_terms (with_axes F ax') w) with (linear_terms F w).
  by destruct (fsum _).
Qed.

Lemma frozen_read row F tail kv b :
  i_features row = features_dict F ++ (lit "_memory", JObj kv) :: tail → aget (lit "body") kv = Some (JStr b) →
  frozen_body row = Ok b.
Proof.
  intros Hrow Hb. unfold frozen_body. rewrite Hrow.
  assert (aget (lit "_memory") (features_dict F ++ (lit "_memory", JObj kv) :: tail) = Some (JObj kv)) as ->.
  { unfold features_dict. by destruct (f_axes F). }
  cbn [mbind option_bind jget]. by rewrite Hb.
Qed.

Section replay.
Context {EN : Env} {PG : Postgres} {EP : EmbeddingProvider} {TK : Tokenizer} {UC : Unicode} {LM : Libm}.
Context {LML : LibmLaws} {LME : LibmPowers} {AD : AxisDecoder} {FT : FullText} {CC : Concurrency} {PR : PyRepr}.

Lemma scored_unit ctx config candidate F score :
  half_lives_ok (params config) → scored_as ctx config candidate F score → features_unit F.
Proof.
  intros (Ht & Hh & Hl) (w & f & s & _ & Hf & -> & _). destruct (features_in_unit_interval _ _ _ _ Ht Hh Hl Hf) as [H6 H2].
  split; [by eapply Forall_impl; [exact H6|]; apply unit_in_unit|].
  intros x [Hx|[Hx|Hx]]; [apply unit_in_unit, H2; auto|apply unit_in_unit, H2; auto|].
  unfold base_features in Hf. do 5 (apply bind_Ok in Hf as (? & _ & Hf)). apply bind_Ok in Hf as (wh & Hw & <-%Ok_inj).
  cbn in Hx. subst. by eapply where_feature_unit.
Qed.

Lemma prepare_once_ok c q w r w' :
  wf (w_db w) → log_wf (w_db w) → prepare_once c q w = (Ok r, w') → prepared c q (w_db w) (w_db w') r.
Proof.
  intros Hwf Hlog. unfold prepare_once, transaction. destruct (prepare_body c q _) as [[r'|] w1] eqn:E; [|done].
  intros [= <- <-]. by apply prepare_body_ok in E as [? _].
Qed.

(** What a row says once the learner has read it: the serving score without its
    memory bias, as [S], and what the fit may not move. *)
Definition replays (config : ScorerConfig) (row : InjectionEvent) (x : LearningExample) : Prop :=
  ∃ candidate F S served w,
    memory_id candidate = i_memory_id row ∧ weights_for_project config (i_project_key row) = Ok w ∧
    score_features F w (params config) (axes config) = Ok S ∧
    fround32 (fadd S (fadd (bias candidate) (bias_offset config (i_memory_id row)))) = Ok served ∧
    pg_real served = Ok (i_score row) ∧
    le_features x = six F ∧ le_location_feature x = f_loc F ∧ le_thread_feature x = f_thread F ∧
    le_where_feature x = f_where F ∧ le_body_tokens x = cl100k_token_count (body candidate) ∧
    le_baseline_bias x = fsub (fsub (i_score row) S) (bias_offset config (i_memory_id row)).

Lemma row_replays config configs ctx en row c ts inj a labeled :
  half_lives_ok (params config) → configs !! version config = Some config →
  c_thread_project_key ctx = p_project_key c →
  scored_as ctx config (s_candidate (en_item en)) (s_features (en_item en)) (s_score (en_item en)) →
  log_row c ts inj (version config) a en row →
  ∃ x, example_of configs row labeled = Ok x ∧ replays config row x.
Proof.
  intros Hlives Hconfig Hproj Hscored (uid & score & Hpg & Hrow).
  pose proof (scored_unit _ _ _ _ _ Hlives Hscored) as Hunit.
  destruct Hscored as (w & f & S & Hw & _ & HF & HS & Hround). rewrite Hproj in Hw.
  set (F := s_features (en_item en)) in *. set (candidate := s_candidate (en_item en)) in *.
  assert (HS' : score_features F w (params config) (axes config) = Ok S) by (by rewrite HF, with_axes_score).
  assert (Hv : i_scorer_version row = version config) by (by rewrite Hrow).
  assert (Hm : i_memory_id row = memory_id candidate) by (by rewrite Hrow).
  assert (Hp : i_project_key row = p_project_key c) by (by rewrite Hrow).
  assert (Hfeat : ∃ tail, i_features row = features_dict F ++ (lit "_memory", JObj (frozen_payload candidate)) :: tail)
    by (rewrite Hrow; eexists; reflexivity).
  assert (Hscore : i_score row = score) by (by rewrite Hrow).
  clear Hrow. destruct Hfeat as [tail Hfeat].
  destruct (features_read _ _ _ Hfeat Hunit) as (H6 & Hloc & Hthread & Hwhere).
  rewrite <- Hp in Hw. unfold example_of. rewrite Hv, Hconfig, H6. cbn [mbind res_bind].
  rewrite Hloc. cbn [mbind res_bind]. rewrite Hthread. cbn [mbind res_bind]. rewrite Hwhere. cbn [mbind res_bind].
  rewrite (localized_served _ _ _ _ _ Hfeat Hw), HS'. cbn [raised mbind res_bind]. unfold body_tokens.
  rewrite (frozen_read _ _ _ _ (body candidate) Hfeat) by done. cbn [mbind res_bind].
  eexists. split; [done|]. exists candidate, F, S, (s_score (en_item en)), w. cbn [le_features le_location_feature
    le_thread_feature le_where_feature le_body_tokens le_baseline_bias]. rewrite Hscore, Hm. by split_and!.
Qed.

(** C9: What is served can be learned from, exactly.  Every row a preparation
    logs is readable evidence under the configuration that served it: none of
    the learner's validations refuses it, and the linear score the learner
    replays is, float for float, the one the preparation added the memory's
    bias to, so that the baseline holds the bias and the rounding, and nothing
    else. *)
Theorem served_rows_replay c q w r w' active config configs k row labeled :
  wf (w_db w) → log_wf (w_db w) → prepare_once c q w = (Ok r, w') →
  active_rows (w_db w) = [active] → config_of_row active = Ok config → configs !! version config = Some config →
  events (w_db w') !! k = Some row → events (w_db w) !! k = None →
  ∃ x, example_of configs row labeled = Ok x ∧ replays config row x.
Proof.
  intros Hwf Hlog Hrun Hactive Hdecode Hconfig Hrow Hnew.
  destruct (prepare_once_ok _ _ _ _ _ Hwf Hlog Hrun)
    as (srow & config' & sel & t & nw & new & Ha & Hc & Hsel & _ & _ & _ & _ & (Hlogged & _ & _ & Hev) & _).
  rewrite Ha in Hactive. injection Hactive as ->. rewrite Hc in Hdecode. injection Hdecode as ->.
  rewrite Hev, lookup_union_l in Hrow by done. apply elem_of_list_to_map_2, list_elem_of_fmap in Hrow as (row' & [= _ <-] & Hin).
  apply list_elem_of_lookup in Hin as [i Hi]. destruct (Forall2_lookup_r _ _ _ _ _ Hlogged Hi) as (en & Hen & Hl).
  apply list_elem_of_lookup_2 in Hen. unfold selected in Hsel.
  pose proof (log_entry_item _ _ _ _ _ Hsel Hen) as Hitem. destruct (selection_scored _ _ _ _ Hsel Hitem) as (query & Hs & _).
  destruct (config_of_row_half_lives _ _ Hc) as [Hlives _].
  eapply row_replays; [exact Hlives|exact Hconfig| |exact Hs|exact Hl]. done.
Qed.
End replay.

(** ** Hygiene and share boundaries *)
Section evidence.
Context {UC : Unicode} {TK : Tokenizer} {PR : PyRepr}.
Context (passive_discount : dec).
Implicit Types rows members : list InjectionEvent.

Definition explicit_positive (row : InjectionEvent) : bool :=
  match i_outcome row with Some o => one_of EXPLICIT_POSITIVE_OUTCOMES (outcome_str o) | None => false end.

Lemma positives_spec rows m w :
  explicit_positive_weights passive_discount rows !! m = Some w ↔
  w = d1 ∧ ∃ row, row ∈ rows ∧ i_memory_id row = m ∧ explicit_positive row = true.
Proof.
  unfold explicit_positive_weights. revert m w. induction rows as [|x rows IH] using rev_ind; intros m w.
  { cbn. rewrite lookup_empty. split; [done|]. by intros (_ & ? & ?%elem_of_nil & _). }
  rewrite foldl_app. cbn [foldl]. set (acc := foldl _ _ rows) in *.
  assert (Hstep : positive_step passive_discount acc x =
    if explicit_positive x then <[i_memory_id x := d1]> acc else acc).
  { unfold positive_step, explicit_positive. destruct (i_outcome x) as [o|] eqn:Eo; [|done].
    destruct (one_of _ _) eqn:E1; [|done]. unfold row_disposition, disposition. rewrite Eo.
    cbn [fmap option_fmap option_map]. rewrite E1. f_equal.
    destruct (acc !! i_memory_id x) as [w'|] eqn:Ew; [|done]. by apply IH in Ew as [-> _]. }
  rewrite Hstep. setoid_rewrite elem_of_app. setoid_rewrite list_elem_of_singleton.
  destruct (explicit_positive x) eqn:Hx.
  - destruct (decide (i_memory_id x = m)) as [<-|Hm].
    + rewrite lookup_insert_eq. split; [intros [= <-]; eauto 10|by intros [-> _]].
    + rewrite lookup_insert_ne by done. rewrite IH. split.
      * intros (-> & r & ? & ? & ?). eauto 10.
      * intros (-> & r & [Hr| ->] & ? & ?); [eauto 10|done].
  - rewrite IH. split.
    + intros (-> & r & ? & ? & ?). eauto 10.
    + intros (-> & r & [Hr| ->] & ? & ?); [eauto 10|congruence].
Qed.

(** *** Valuable cuts *)
Lemma cut_fold_spec positives injection_id regular context l seen acc seen' out :
  res_fold (cut_step positives injection_id regular context) (seen, acc) l = Ok (seen', out) →
  ∃ new, out = acc ++ new ∧
    (∀ b, b ∈ new → ∃ row w t, row ∈ l ∧ i_shown_as row = shown_budget_cut ∧ positives !! i_memory_id row = Some w ∧
       body_tokens row = Ok t ∧ true_div (regular + t) context = Ok (sb_required_share b) ∧
       b = boundary row injection_id (sb_required_share b) true w valuable_budget_cut) ∧
    (∀ row, row ∈ l → i_shown_as row = shown_budget_cut → is_Some (positives !! i_memory_id row) →
       i_memory_id row ∈ seen ∨ ∃ row' b, row' ∈ l ∧ i_memory_id row' = i_memory_id row ∧ b ∈ new ∧
                                          sb_event_uid b = i_event_uid row').
Proof.
  revert seen acc. induction l as [|x l IH]; intros seen acc H; cbn [res_fold] in H.
  { injection H as <- <-. exists []. split_and!; [by rewrite app_nil_r|by intros ? ?%elem_of_nil..]. }
  apply bind_Ok in H as ([seen1 acc1] & Hstep & H). destruct (IH _ _ H) as (new & -> & Hs & Hc). clear IH H.
  unfold cut_step in Hstep.
  assert (Hsame : seen1 = seen → acc1 = acc →
      (i_shown_as x = shown_budget_cut → is_Some (positives !! i_memory_id x) → i_memory_id x ∈ seen) →
    ∃ new0, acc1 ++ new = acc ++ new0 ∧ (∀ b, b ∈ new0 → ∃ row w t, row ∈ x :: l ∧ i_shown_as row = shown_budget_cut ∧
        positives !! i_memory_id row = Some w ∧ body_tokens row = Ok t ∧ true_div (regular + t) context = Ok (sb_required_share b) ∧
       b = boundary row injection_id (sb_required_share b) true w valuable_budget_cut) ∧
    (∀ row, row ∈ x :: l → i_shown_as row = shown_budget_cut → is_Some (positives !! i_memory_id row) →
       i_memory_id row ∈ seen ∨ ∃ row' b, row' ∈ x :: l ∧ i_memory_id row' = i_memory_id row ∧ b ∈ new0 ∧
                                          sb_event_uid b = i_event_uid row')).
  { intros -> -> Hx. exists new. split_and!; [done| |].
    - intros b Hb. destruct (Hs b Hb) as (row & w & t & ? & ?). exists row, w, t. split; [by right|done].
    - intros row [->|Hrow]%elem_of_cons Hcut Hpos; [left; auto|].
      destruct (Hc row Hrow Hcut Hpos) as [?|(row' & b & ? & ? & ? & ?)]; [by left|right].
      exists row', b. split_and!; [by right|done..]. }
  destruct (i_shown_as x) eqn:Ex; try (injection Hstep as <- <-; by apply Hsame).
  destruct (positives !! i_memory_id x) as [w|] eqn:Ew; [|injection Hstep as <- <-; apply Hsame; [done..|by intros _ [? ?]]].
  case_bool_decide as Hseen; [injection Hstep as <- <-; by apply Hsame|]. clear Hsame.
  apply bind_Ok in Hstep as (t & Ht & Hstep). apply bind_Ok in Hstep as (q & Hq & Hstep). injection Hstep as <- <-.
  exists (boundary x injection_id q true w valuable_budget_cut :: new). split_and!; [by rewrite <- (assoc_L (++))| |].
  - intros b [->|Hb]%elem_of_cons; [exists x, w, t; split; [left|]; by split_and!|].
    destruct (Hs b Hb) as (row & w' & t' & ? & ?). exists row, w', t'. split; [by right|done].
  - intros row [->|Hrow]%elem_of_cons Hcut Hpos; [right; exists x, (boundary x injection_id q true w valuable_budget_cut); split_and!; [left|done|left|done]|].
    destruct (Hc row Hrow Hcut Hpos) as [[Hm|?]%elem_of_cons|(row' & b & ? & ? & ? & ?)]; [|by left|].
    + right. exists x, (boundary x injection_id q true w valuable_budget_cut). split_and!; [left|by symmetry|left|done].
    + right. exists row', b. split_and!; [by right|done|by right|done].
Qed.

(** *** A gate *)
Lemma min_by_elem {A} (le : A → A → bool) x l : min_by le x l ∈ x :: l.
Proof.
  unfold min_by. revert x. induction l as [|y l IH]; intros x; cbn [foldl]; [left|].
  destruct (le x y).
  - specialize (IH x). rewrite elem_of_cons in IH. rewrite !elem_of_cons. tauto.
  - specialize (IH y). right. done.
Qed.

(** The tokens of the gate's bodies of one kind. *)
Definition shown_tokens (shown : ShownAs) (members : list InjectionEvent) (n : Z) : Prop :=
  ∃ ts, res_map body_tokens (filter (λ row, i_shown_as row = shown) members) = Ok ts ∧ n = zsum ts.

(** What a boundary says of the gate it is taken from. *)
Definition boundary_means (configs : gmap str ScorerConfig) rows members (context : Z) (row : InjectionEvent)
    (b : ShareBoundary) : Prop :=
  ∃ regular pinned, shown_tokens shown_injected members regular ∧ shown_tokens shown_pinned members pinned ∧
    match sb_kind b with
    | valuable_budget_cut =>
        i_shown_as row = shown_budget_cut ∧ sb_target_at_least b = true ∧ sb_actor_weight b = d1 ∧
        (∃ later, later ∈ rows ∧ i_memory_id later = i_memory_id row ∧ explicit_positive later = true) ∧
        ∃ t, body_tokens row = Ok t ∧ sb_required_share b = f_ratio (regular + t) context
    | marginal_removed =>
        i_shown_as row = shown_injected ∧ sb_target_at_least b = false ∧ sb_actor_weight b = d1 ∧
        (∃ o, i_outcome row = Some o ∧ one_of NEGATIVE_OUTCOMES (outcome_str o) = true) ∧
        sb_required_share b = f_ratio regular context
    | marginal_uncited =>
        i_shown_as row = shown_injected ∧ sb_target_at_least b = false ∧ sb_actor_weight b = passive_discount ∧
        i_outcome row = Some kept ∧ sb_required_share b = f_ratio regular context
    | pin_overflow =>
        i_shown_as row = shown_pinned ∧ sb_target_at_least b = true ∧ sb_actor_weight b = d1 ∧
        (∃ first source share, head members = Some first ∧ configs !! i_scorer_version first = Some source ∧
           recorded_share_tokens members source context = Ok share ∧ share < regular + pinned) ∧
        sb_required_share b = f_ratio (regular + pinned) context
    end.

Lemma true_div_Ok a b x : true_div a b = Ok x → x = f_ratio a b.
Proof. by intros (? & _ & [= <-])%bind_Ok. Qed.

Lemma marginal_means configs rows injection_id members regular pinned context bs :
  shown_tokens shown_injected members regular → shown_tokens shown_pinned members pinned →
  marginal_boundary passive_discount injection_id regular context (filter (λ row, i_shown_as row = shown_injected) members) = Ok bs →
  ∀ b, b ∈ bs → sb_injection_id b = injection_id ∧
    ∃ row, row ∈ members ∧ sb_event_uid b = i_event_uid row ∧ boundary_means configs rows members context row b.
Proof.
  intros Hr Hp. unfold marginal_boundary. destruct (filter _ members) as [|x rest] eqn:Ef; [by intros [= <-] b ?%elem_of_nil|].
  pose proof (min_by_elem (λ a b, rank_leb b a) x rest) as Hin. set (row := min_by _ x rest) in *.
  rewrite <- Ef in Hin. apply list_elem_of_filter in Hin as [Hshown Hin].
  destruct (i_outcome row) as [o|] eqn:Eo; [|by intros [= <-] b ?%elem_of_nil].
  destruct (one_of _ _) eqn:En; [|case_bool_decide; [|by intros [= <-] b ?%elem_of_nil]].
  all: intros (q & ->%true_div_Ok & [= <-])%bind_Ok b ->%list_elem_of_singleton; split; [done|].
  all: exists row; split_and!; [done..|]; exists regular, pinned; split_and!; [done..|]; cbn; split_and!; eauto.
  by subst.
Qed.

Lemma pin_means configs rows injection_id members regular pinned context bs :
  shown_tokens shown_injected members regular → shown_tokens shown_pinned members pinned →
  pin_boundary configs injection_id members (filter (λ row, i_shown_as row = shown_pinned) members) (regular + pinned) context = Ok bs →
  ∀ b, b ∈ bs → sb_injection_id b = injection_id ∧
    ∃ row, row ∈ members ∧ sb_event_uid b = i_event_uid row ∧ boundary_means configs rows members context row b.
Proof.
  intros Hr Hp. unfold pin_boundary. destruct members as [|first members'] eqn:Em; [by intros [= <-] b ?%elem_of_nil|].
  rewrite <- Em in *. destruct (filter _ members) as [|x rest] eqn:Ef; [by intros [= <-] b ?%elem_of_nil|].
  pose proof (min_by_elem rank_leb x rest) as Hin. set (row := min_by _ x rest) in *.
  rewrite <- Ef in Hin. apply list_elem_of_filter in Hin as [Hshown Hin].
  destruct (configs !! _) as [source|] eqn:Ec; [|done]. intros (share & Hs & H)%bind_Ok. revert H.
  destruct (share <? regular + pinned) eqn:El; [|by intros [= <-] b ?%elem_of_nil].
  intros (q & ->%true_div_Ok & [= <-])%bind_Ok b ->%list_elem_of_singleton. split; [done|].
  exists row. split_and!; [done..|]. exists regular, pinned. split_and!; [done..|]. cbn. split_and!; [done..| |done].
  exists first, source, share. split_and!; [by rewrite Em|done|done|lia].
Qed.

Lemma gate_means configs rows injection_id members bs :
  gate_boundaries passive_discount configs (explicit_positive_weights passive_discount rows) (injection_id, members) = Ok bs →
  ∀ b, b ∈ bs → sb_injection_id b = injection_id ∧
    ∃ row context, row ∈ members ∧ sb_event_uid b = i_event_uid row ∧ context_tokens members = Some context ∧
      boundary_means configs rows members context row b.
Proof.
  unfold gate_boundaries. destruct (context_tokens members) as [context|] eqn:Ec; [|by intros [= <-] b ?%elem_of_nil].
  intros (rt & Hrt & H)%bind_Ok. apply bind_Ok in H as (pt & Hpt & H). cbn zeta in H.
  apply bind_Ok in H as ([seen cuts] & Hcuts & H). apply bind_Ok in H as (marginal & Hm & H).
  apply bind_Ok in H as (overflow & Ho & [= <-]).
  assert (Hr : shown_tokens shown_injected members (zsum rt)) by (by exists rt).
  assert (Hp : shown_tokens shown_pinned members (zsum pt)) by (by exists pt).
  intros b. rewrite !elem_of_app. intros [Hb|[Hb|Hb]].
  - destruct (cut_fold_spec _ _ _ _ _ _ _ _ _ Hcuts) as (new & -> & Hs & _). destruct (Hs b Hb) as (row & w & t & Hrow & Hcut & Hw & Ht & Hq & E).
    rewrite E. split; [done|]. rewrite sort_by_perm in Hrow. exists row, context. split_and!; [done..|].
    apply positives_spec in Hw as [-> Hw]. exists (zsum rt), (zsum pt). split_and!; [done..|]. cbn. split_and!; [done..|].
    exists t. split; [done|]. by apply true_div_Ok.
  - destruct (marginal_means configs rows _ _ _ _ _ _ Hr Hp Hm b Hb) as (? & row & ? & ? & ?). split; [done|]. by exists row, context.
  - destruct (pin_means configs rows _ _ _ _ _ _ Hr Hp Ho b Hb) as (? & row & ? & ? & ?). split; [done|]. by exists row, context.
Qed.

Lemma strongly_sorted_app {A} (R : A → A → Prop) l l' :
  StronglySorted R l → (∀ a b, a ∈ l → b ∈ l' → R a b) → StronglySorted R l' → StronglySorted R (l ++ l').
Proof.
  intros Hl HR Hl'. induction Hl as [|x l Hl IH Hx]; [done|]. cbn. constructor.
  - apply IH. intros a b Ha. apply HR. by right.
  - apply Forall_app. split; [done|]. apply Forall_forall. intros b Hb. apply HR; [left|done].
Qed.

Lemma all_sorted {A} (R : A → A → Prop) l : (∀ a b, a ∈ l → b ∈ l → R a b) → StronglySorted R l.
Proof.
  induction l as [|x l IH]; intros H; constructor.
  - apply IH. intros; apply H; by right.
  - apply Forall_forall. intros y Hy. apply H; [left|by right].
Qed.

(** *** Examples *)
Lemma graded_elem rows x : x ∈ graded passive_discount rows ↔ x.1 ∈ rows ∧ row_disposition passive_discount x.1 = Some x.2.
Proof.
  unfold graded. rewrite list_elem_of_omap. destruct x as [row labeled]. cbn. split.
  - intros (r & Hr & H). destruct (row_disposition _ r) as [l|] eqn:E; [|done]. cbn in H. injection H as <- <-. done.
  - intros [Hr H]. exists row. split; [done|]. by rewrite H.
Qed.

Lemma graded_split rows (P : InjectionEvent → Prop) `{∀ x, Decision (P x)} :
  zlen (graded passive_discount (filter P rows)) + zlen (graded passive_discount (filter (λ x, ¬ P x) rows)) =
  zlen (graded passive_discount rows).
Proof.
  induction rows as [|x rows IH]; [done|]. rewrite !filter_cons. unfold graded, zlen in *.
  destruct (decide (P x)); [rewrite (decide_False (P := ¬ P x)) by tauto|rewrite (decide_True (P := ¬ P x)) by done];
    cbn [omap list_omap]; destruct (row_disposition _ x); cbn; cbn in IH; lia.
Qed.

Lemma excluded_elem rows annotated id :
  id ∈ excluded_gates rows annotated ↔ ∃ m, m ∈ rows ∧ i_injection_id m = id ∧ member_excluded annotated m = true.
Proof.
  unfold excluded_gates. rewrite list_elem_of_fmap. split.
  - intros ([i g] & -> & [Hex Hg]%list_elem_of_filter). apply group_by_elem in Hg as [-> _]. cbn in Hex.
    apply existsb_exists in Hex as (m & Hm & Hx). apply list_elem_of_In, list_elem_of_filter in Hm as [? ?]. by exists m.
  - intros (m & Hm & <- & Hx). exists (i_injection_id m, filter (λ x, i_injection_id x = i_injection_id m) rows). split; [done|].
    assert (Hin : m ∈ filter (λ x, i_injection_id x = i_injection_id m) rows) by (by apply list_elem_of_filter).
    apply list_elem_of_filter. split.
    + cbn. apply existsb_exists. exists m. split; [by apply list_elem_of_In|done].
    + apply group_by_elem. split; [done|]. intros E. rewrite E in Hin. by apply elem_of_nil in Hin.
Qed.

Definition example_from (x : InjectionEvent * (bool * dec)) (e : LearningExample) : Prop :=
  le_event_uid e = i_event_uid x.1 ∧ le_injection_id e = i_injection_id x.1 ∧ le_memory_id e = i_memory_id x.1 ∧
  le_ts e = i_ts x.1 ∧ le_shown_as e = i_shown_as x.1 ∧ le_project_key e = i_project_key x.1 ∧
  (le_target_injected e, le_actor_weight e) = x.2 ∧
  row_features x.1 = Ok (le_features e) ∧ body_tokens x.1 = Ok (le_body_tokens e).

Lemma example_of_from configs x e : example_of configs x.1 x.2 = Ok e → example_from x e.
Proof.
  unfold example_of. destruct (configs !! _) as [source|]; [|done]. intros (fs & Hf & H)%bind_Ok.
  do 4 (apply bind_Ok in H as (? & _ & H)). cbn zeta in H. apply bind_Ok in H as (t & Ht & [= <-]).
  unfold example_from. cbn. split_and!; try done. by destruct x as [? []].
Qed.

(** C16: The evidence of a log.  A gate is left out exactly when some row of it is
    annotated or carries a reserved identity, and then the whole gate is.  The
    examples are the graded rows of the other gates, in order, each with the
    label and the weight of its outcome; with the dispositions counted as
    excluded they are all the graded rows.  Every share boundary is about a row
    of an admitted gate, in the order of the gates, and means what its kind
    says: the share at which the logged choice would have been another. *)
Theorem evidence_exact rows annotated configs ev :
  project_learning_evidence passive_discount rows annotated configs = Ok ev →
  let out := excluded_gates rows annotated in
  let admitted := filter (λ row, i_injection_id row ∉ out) rows in
  (∀ id, id ∈ out ↔ ∃ m, m ∈ rows ∧ i_injection_id m = id ∧ member_excluded annotated m = true)
  ∧ Forall2 example_from (graded passive_discount admitted) (ev_examples ev)
  ∧ zlen (ev_examples ev) + ev_hygiene_excluded_dispositions ev = zlen (graded passive_discount rows)
  ∧ StronglySorted (λ a b, (sb_injection_id a ≤ sb_injection_id b)%N) (ev_share_boundaries ev)
  ∧ ∀ b, b ∈ ev_share_boundaries ev → ∃ row context,
      row ∈ admitted ∧ i_injection_id row = sb_injection_id b ∧ i_event_uid row = sb_event_uid b ∧
      let members := filter (λ x, i_injection_id x = i_injection_id row) admitted in
      context_tokens members = Some context ∧ boundary_means configs admitted members context row b.
Proof.
  unfold project_learning_evidence. cbn zeta. set (out := excluded_gates rows annotated).
  set (admitted := filter (λ row, i_injection_id row ∉ out) rows).
  intros (examples & Hex & H)%bind_Ok. apply bind_Ok in H as (bs & Hbs & [= <-]). cbn [ev_examples ev_share_boundaries
    ev_hygiene_excluded_dispositions]. apply res_map_Forall2 in Hex.
  split_and!; [intros; apply excluded_elem| | | |].
  - eapply Forall2_impl; [exact Hex|]. intros x e. apply example_of_from.
  - assert (zlen examples = zlen (graded passive_discount admitted)) as -> by (unfold zlen; by rewrite (Forall2_length _ _ _ Hex)).
    rewrite Z.add_comm. exact (graded_split rows (λ row, i_injection_id row ∈ out)).
  - unfold share_boundaries in Hbs. set (gates := sort_by _ (group_by i_injection_id admitted)) in Hbs.
    destruct (res_map _ gates) as [bss|] eqn:Hgates; [|done]. injection Hbs as <-. apply res_map_Forall2 in Hgates.
    assert (Hsorted : StronglySorted (λ a b : uuid * list InjectionEvent, (a.1 <=? b.1)%N = true) gates).
    { apply (sort_by_sorted _ (λ _, True)); [intros; lia..|by apply Forall_true]. }
    revert Hsorted. clear -Hgates. induction Hgates as [|g l gs ls Hg Hgs IH]; intros Hs; [constructor|].
    apply StronglySorted_inv in Hs as [Hs Hle]. cbn [concat]. apply strongly_sorted_app; [| |by apply IH].
    + apply all_sorted. intros a b Ha Hb. destruct g as [i m].
      by rewrite (proj1 (gate_means _ _ _ _ _ Hg _ Ha)), (proj1 (gate_means _ _ _ _ _ Hg _ Hb)).
    + intros a b Ha Hb. apply list_elem_of_In, in_concat in Hb as (l' & Hl' & Hb). apply list_elem_of_In in Hl', Hb.
      apply list_elem_of_lookup in Hl' as [n Hn]. destruct (Forall2_lookup_r _ _ _ _ _ Hgs Hn) as ([i m] & Hi & Hg').
      apply list_elem_of_lookup_2 in Hi. eapply (proj1 (Forall_forall _ _)) in Hle; [|exact Hi]. destruct g as [i0 m0]. cbn in Hle.
      rewrite (proj1 (gate_means _ _ _ _ _ Hg _ Ha)), (proj1 (gate_means _ _ _ _ _ Hg' _ Hb)). lia.
  - intros b Hb. unfold share_boundaries in Hbs. set (gates := sort_by _ (group_by i_injection_id admitted)) in Hbs.
    destruct (res_map _ gates) as [bss|] eqn:Hgates; [|done]. injection Hbs as <-. apply res_map_Forall2 in Hgates.
    apply list_elem_of_In, in_concat in Hb as (l & Hl & Hb). apply list_elem_of_In in Hl, Hb.
    apply list_elem_of_lookup in Hl as [n Hn]. destruct (Forall2_lookup_r _ _ _ _ _ Hgates Hn) as ([i m] & Hi & Hg).
    apply list_elem_of_lookup_2 in Hi. unfold gates in Hi. rewrite sort_by_perm in Hi. apply group_by_elem in Hi as [-> _].
    destruct (gate_means _ _ _ _ _ Hg _ Hb) as (Hid & row & context & Hrow & Huid & Hc & Hmeans).
    apply list_elem_of_filter in Hrow as [<- Hrow]. exists row, context. by split_and!.
Qed.
End evidence.

(** ** A concrete preparation, read back *)
Lemma sample_libm_powers : @LibmPowers sample_libm.
Proof.
  split. intros n _. cbn. destruct (fle f0 (f_of_Z (- n))); [exists 0|exists 1]; by split.
Qed.

Definition gate_row : InjectionEvent :=
  match map_to_list (events (w_db gate_run.2)) with
  | (_, row) :: _ => row
  | [] => event_row gate_command 0 0 [] {| al_memory_context_share := f0; al_share_tokens := 0; al_regular_tokens := 0;
            al_pinned_tokens := 0; al_total_tokens := 0; al_pinned_overflow_tokens := 0 |} []
            {| en_item := {| s_candidate := sample_candidate 0 false []; s_features := {| f_sem := f0; f_kw := f0;
                 f_time := f0; f_proj := f0; f_freq := f0; f_hist := f0; f_loc := None; f_thread := None; f_where := None;
                 f_axes := [] |}; s_score := f0; s_rank := 0; s_token_cost := 0 |};
               en_shown_as := shown_injected; en_outcome := None |}
  end.
Definition gate_config : ScorerConfig :=
  match @config_of_row sample_axes sample_row with
  | Ok c => c
  | Err _ => {| version := []; weights := {| w_sem := f0; w_kw := f0; w_time := f0; w_proj := f0; w_freq := f0; w_hist := f0 |};
                params := sample_params; bias_offsets := []; project_offsets := JNull; axes := [] |}
  end.

Lemma served_rows_replay_witness :
  let configs := {[version gate_config := gate_config]} in
  ∃ x, @example_of sample_tokenizer {| py_repr := λ _, [] |} configs gate_row (true, d1) = Ok x ∧
    @replays sample_postgres sample_tokenizer gate_config gate_row x.
Proof.
  assert (Hrun : ∃ r w', gate_run = (Ok r, w')) by (apply ok_run; vm_compute; reflexivity).
  destruct Hrun as (r & w' & Hrun). assert (Hw : w' = gate_run.2) by (rewrite Hrun; reflexivity).
  refine (@served_rows_replay sample_env sample_postgres sample_tokenizer ascii_unicode sample_libm
    sample_libm_laws sample_libm_powers sample_axes sample_fts quiet _ gate_command (flat 2) (prepare_world 2) r w'
    sample_row gate_config _ 1 gate_row (true, d1) (prepare_db_wf 2) (prepare_db_log 2) Hrun _ _ _ _ _).
  - vm_compute. reflexivity.
  - vm_compute. reflexivity.
  - apply lookup_insert_eq.
  - rewrite Hw. vm_compute. reflexivity.
  - vm_compute. reflexivity.
Defined.

(** ** A concrete log *)
#[local] Instance blank_repr : PyRepr := {| py_repr := λ _, [] |}.
#[local] Existing Instances sample_tokenizer ascii_unicode.

Definition quiet_features : ScoreFeatures := {|
  f_sem := f1; f_kw := f0; f_time := f0; f_proj := f0; f_freq := f0; f_hist := f0; f_loc := None; f_thread := None;
  f_where := None; f_axes := [] |}.

Definition logged_row (uid : string) (injection memory : uuid) (machine : string) (shown : ShownAs) (outcome : option Outcome)
    (body : string) : InjectionEvent := {|
  i_id := 0; i_event_uid := lit uid; i_injection_id := injection; i_thread_id := 3%N; i_agent_id := lit "a";
  i_machine_id := lit machine; i_principal_id := lit "p"; i_project_key := None; i_agent_kind := lit "k"; i_prompt_text := [];
  i_scorer_version := lit "v1"; i_memory_id := memory; i_memory_kind := lit "fact";
  i_features := features_dict quiet_features
    ++ [(lit "_memory", JObj [(lit "body", JStr (lit body))]); (lit "_prepare", JObj [(lit "model_context_tokens", JInt 100)])];
  i_score := f_ratio 1 2; i_rank := 1; i_shown_as := shown; i_actor_class := human; i_outcome := outcome; i_ts := 0 |}.

(** One gate shows [5] and cuts [6], a second one sees [6] cited, a third is a
    fixture's. *)
Definition sample_log : list InjectionEvent :=
  [logged_row "a" 1 5 "m" shown_injected (Some kept) "tea"; logged_row "b" 1 6 "m" shown_budget_cut (Some out_budget_cut) "green";
   logged_row "c" 2 6 "m" shown_injected (Some cited) "green"; logged_row "d" 9 5 "test" shown_injected (Some cited) "tea"].
Definition sample_configs : gmap str ScorerConfig := {[lit "v1" := gate_config]}.
Definition sample_evidence : LearningEvidence :=
  match project_learning_evidence (Dec 5 (-1)) sample_log ∅ sample_configs with
  | Ok ev => ev
  | Err _ => {| ev_examples := []; ev_share_boundaries := []; ev_hygiene_excluded_dispositions := 0 |}
  end.

Lemma evidence_exact_witness :
  zlen (ev_examples sample_evidence) = 2 ∧ ev_hygiene_excluded_dispositions sample_evidence = 1 ∧
  (sb_event_uid <$> ev_share_boundaries sample_evidence) = [lit "b"; lit "a"] ∧
  zlen (ev_examples sample_evidence) + ev_hygiene_excluded_dispositions sample_evidence =
    zlen (graded (Dec 5 (-1)) sample_log).
Proof.
  assert (Hrun : project_learning_evidence (Dec 5 (-1)) sample_log ∅ sample_configs = Ok sample_evidence)
    by (vm_compute; reflexivity).
  split; [vm_compute; reflexivity|]. split; [vm_compute; reflexivity|]. split; [vm_compute; reflexivity|].
  exact (proj1 (proj2 (proj2 (evidence_exact (Dec 5 (-1)) sample_log ∅ sample_configs _ Hrun)))).
Defined.

(** Without a recorded share the learner multiplies floats where serving took the
    exact decimal: with a share of 0.29 of 100 tokens, serving allows 29 and the
    learner reads 28, so a gate that used exactly its 29 tokens is taken for one
    whose pins overflowed. *)
Definition third_config : ScorerConfig := {|
  version := lit "v1"; weights := weights gate_config;
  params := {| tau := f0; near_miss_k := 0; memory_context_share := f_ratio 29 100; half_life_time_days := f1;
    half_life_hist_days := f1; candidate_pool := 1; location_weight := f0; half_life_location_hops := f1;
    thread_weight := f0; where_weight := f0; legacy_budget_tokens := None |};
  bias_offsets := []; project_offsets := JObj []; axes := [] |}.
Definition pinned_row : InjectionEvent := logged_row "a" 1 5 "m" shown_pinned None "tea".

Theorem share_reading_differs :
  Selection.share_tokens (params third_config) 100 = 29 ∧
  recorded_share_tokens [pinned_row] third_config 100 = Ok 28 ∧
  ∃ b, pin_boundary {[lit "v1" := third_config]} 1 [pinned_row] [pinned_row] 29 100 = Ok [b] ∧ sb_kind b = pin_overflow.
Proof. split; [vm_compute; reflexivity|]. split; [vm_compute; reflexivity|]. eexists. split; [vm_compute; reflexivity|done]. Qed.
