(* ===== verification/Corpus.v ===== *)
(** * The optimization corpus: [_balanced_corpus] of [src/src/spine/learner/service.py]

    A fit reads at most [max_dispositions] examples.  Whole gates are chosen:
    each thread queues its gates alternating the newest and the oldest left, and
    the threads are visited in turn, each giving the gate at the head of its
    queue when it fits the room that remains. *)
From S2P Require Import Prelude PyStr PyFloat PyDecimal JsonText Ids Store Queue Learner Evidence.
Open Scope Z_scope.

(** One thread's queue while gates are being taken from it. *)
Record lane := {
  ln_thread : str;
  ln_taken : list (list LearningExample);
  ln_queue : list (list LearningExample);
}.

(** [sorted(rows, key=lambda row: (row.ts, row.event_uid))]. *)
Definition row_leb (a b : LearningExample) : bool :=
  (le_ts a <? le_ts b) || (le_ts a =? le_ts b) && str_leb (le_event_uid a) (le_event_uid b).

Definition thread_name (t : option uuid) : str :=
  match t with Some t => uuid_str t | None => lit "not_recorded" end.

(** A gate with the name of its one thread. *)
Definition ordered_gate (max_dispositions : Z) (gate : uuid * list LearningExample) :
    res learner_error (str * list LearningExample) :=
  let '(injection_id, rows) := gate in
  let message (suffix : string) := LearnerDataError (lit "injection " ++ uuid_str injection_id ++ lit suffix) in
  match remove_dups (le_thread_id <$> rows) with
  | [thread_id] =>
      guard_ (zlen rows <=? max_dispositions) (message " exceeds the optimization corpus maximum");;
      Ok (thread_name thread_id, sort_by row_leb rows)
  | _ => Err (message " crosses thread strata")
  end.

Definition gate_injection (rows : list LearningExample) : uuid :=
  match rows with r :: _ => le_injection_id r | [] => 0%N end.
Definition chronological_leb (a b : list LearningExample) : bool :=
  (newest_ts a <? newest_ts b)
  || (newest_ts a =? newest_ts b) && (gate_injection a <=? gate_injection b)%N.

(** [history.pop() if newest else history.popleft()], alternating; [n] is the
    length of the history. *)
Fixpoint spread {A} (n : nat) (newest : bool) (history : list A) : list A :=
  match n with
  | O => []
  | S n =>
      if newest
      then match last history with
           | Some x => x :: spread n false (take n history)
           | None => []
           end
      else match history with
           | x :: history => x :: spread n true history
           | [] => []
           end
  end.

Definition thread_queue (gates : list (list LearningExample)) : list (list LearningExample) :=
  spread (length gates) true (sort_by chronological_leb gates).

(** [sorted(queues)] with their queues. *)
Definition thread_lanes (gates : list (str * list LearningExample)) : list lane :=
  (λ '(t, gs), {| ln_thread := t; ln_taken := []; ln_queue := thread_queue gs.*2 |})
  <$> sort_by (λ a b, str_leb a.1 b.1) (group_by fst gates).

(** One pass of the [for] loop over the threads: the lanes after it, the
    examples selected so far, the room left, and whether a gate was taken. *)
Fixpoint sweep (lanes : list lane) (selected : list LearningExample) (remaining : Z) :
    list lane * list LearningExample * Z * bool :=
  match lanes with
  | [] => ([], selected, remaining, false)
  | l :: lanes =>
      match ln_queue l with
      | [] => let '(ls, s, r, p) := sweep lanes selected remaining in (l :: ls, s, r, p)
      | gate :: queue =>
          if remaining <? zlen gate
          then let '(ls, s, r, p) := sweep lanes selected remaining in (l :: ls, s, r, p)
          else
            let l' := {| ln_thread := ln_thread l; ln_taken := ln_taken l ++ [gate]; ln_queue := queue |} in
            let selected := selected ++ gate in
            let remaining := remaining - zlen gate in
            if remaining =? 0 then (l' :: lanes, selected, remaining, true)
            else let '(ls, s, r, _) := sweep lanes selected remaining in (l' :: ls, s, r, true)
      end
  end.

(** The [while] loop; [None] when the fuel runs out. *)
Fixpoint take_gates (fuel : nat) (lanes : list lane) (selected : list LearningExample) (remaining : Z) :
    option (list lane * list LearningExample * Z) :=
  if (remaining =? 0) || forallb (λ l, bool_decide (ln_queue l = [])) lanes
  then Some (lanes, selected, remaining)
  else
    match fuel with
    | O => None
    | S fuel =>
        let '(lanes, selected, remaining, progress) := sweep lanes selected remaining in
        if progress then take_gates fuel lanes selected remaining else Some (lanes, selected, remaining)
    end.

(** [selected.sort(key=...)]. *)
Definition selected_leb (a b : LearningExample) : bool :=
  (le_ts a <? le_ts b)
  || (le_ts a =? le_ts b)
     && ((le_injection_id a <? le_injection_id b)%N
         || (le_injection_id a =? le_injection_id b)%N && str_leb (le_event_uid a) (le_event_uid b)).

Record ThreadStratum := { th_thread_id : str; th_available : Z; th_selected : Z; th_selected_gates : Z }.
Record BalancedCorpus := {
  bc_examples : list LearningExample;
  bc_share_boundaries : list ShareBoundary;
  bc_fingerprint : str;
  bc_available : Z;
  bc_max_size : Z;
  bc_threads : list ThreadStratum;
}.

(** [json.dumps(fingerprint_payload, sort_keys=True, separators=(",", ":"))]. *)
Definition fingerprint_text (dispositions boundaries : list str) : str :=
  lit "{" ++ dumps_str (lit "dispositions") ++ lit ":" ++ dumps_list dispositions ++ lit ","
  ++ dumps_str (lit "share_boundaries") ++ lit ":" ++ dumps_list boundaries ++ lit "}".

Definition stratum (gates : list (str * list LearningExample)) (l : lane) : ThreadStratum := {|
  th_thread_id := ln_thread l;
  th_available := zsum (zlen <$> (filter (λ g, g.1 = ln_thread l) gates).*2);
  th_selected := zsum (zlen <$> ln_taken l);
  th_selected_gates := zlen (ln_taken l) |}.

Section corpus.
Context `{Sha256}.

(** The number of gates is enough fuel for the loop. *)
Definition balanced_corpus (examples : list LearningExample) (share_boundaries : list ShareBoundary)
    (max_dispositions : Z) : res learner_error BalancedCorpus :=
  gates ← res_map (ordered_gate max_dispositions) (group_by le_injection_id examples);
  match take_gates (length gates) (thread_lanes gates) [] max_dispositions with
  | None => Err FuelExhausted
  | Some (lanes, selected, _) =>
      let selected := sort_by selected_leb selected in
      let boundaries := filter (λ b, sb_injection_id b ∈ (le_injection_id <$> selected)) share_boundaries in
      Ok {| bc_examples := selected; bc_share_boundaries := boundaries;
            bc_fingerprint := sha256_hex (fingerprint_text (le_event_uid <$> selected)
                                (sort_by str_leb (sb_event_uid <$> boundaries)));
            bc_available := zlen examples; bc_max_size := max_dispositions;
            bc_threads := stratum gates <$> lanes |}
  end.
End corpus.
