(* ===== verification/CorpusFacts.v ===== *)
(** * The optimization corpus is bounded, whole, maximal and fair *)
From S2P Require Import Prelude PyStr PyFloat PyDecimal JsonText Ids Store Queue Learner Evidence Corpus.
Open Scope Z_scope.

(** ** The alternating queue *)
Lemma spread_perm {A} n newest (h : list A) : length h = n → Permutation (spread n newest h) h.
Proof.
  revert newest h. induction n as [|n IH]; intros newest h Hn; cbn; [by destruct h|]. destruct newest.
  - destruct h as [|y h'] using rev_ind; [done|]. clear IHh'. rewrite length_app in Hn. cbn in Hn.
    rewrite last_snoc, take_app_length' by lia. rewrite IH by lia. apply Permutation_cons_append.
  - destruct h as [|x h]; [done|]. constructor. apply IH. by injection Hn.
Qed.

Lemma thread_queue_perm gates : Permutation (thread_queue gates) gates.
Proof.
  unfold thread_queue. rewrite spread_perm; [apply sort_by_perm|]. apply Permutation_length, sort_by_perm.
Qed.

(** ** Fairness of the sweep *)

(** The examples a thread gave after its gate number [n]. *)
Definition given_after (n : nat) (l : lane) : Z := zsum (zlen <$> drop (S n) (ln_taken l)).
Definition later (n : nat) (lanes : list lane) : Z := zsum (given_after n <$> lanes).

(** A thread has nothing left, or its next gate is larger than the room [rem]
    together with everything any thread gave after this one's last turn. *)
Definition blocked (all : list lane) (rem : Z) (b : lane) : Prop :=
  match ln_queue b with [] => True | g :: _ => rem + later (length (ln_taken b)) all < zlen g end.

Definition fair (k : nat) (all : list lane) (rem : Z) (b : lane) : Prop :=
  length (ln_taken b) = k ∨ (length (ln_taken b) < k)%nat ∧ blocked all rem b.

Lemma zlen_nonneg {A} (l : list A) : 0 ≤ zlen l.
Proof. unfold zlen. lia. Qed.

Lemma given_after_nonneg n l : 0 ≤ given_after n l.
Proof. apply zsum_nonneg, Forall_fmap, Forall_forall. intros g _. apply zlen_nonneg. Qed.

Lemma later_nonneg n lanes : 0 ≤ later n lanes.
Proof. apply zsum_nonneg, Forall_fmap, Forall_forall. intros l _. apply given_after_nonneg. Qed.

Lemma later_app n ls ls' : later n (ls ++ ls') = later n ls + later n ls'.
Proof. unfold later. by rewrite fmap_app, zsum_app. Qed.

Lemma later_cons n l ls : later n (l :: ls) = given_after n l + later n ls.
Proof. unfold later. by rewrite fmap_cons, zsum_cons. Qed.

Lemma later_zero k lanes : Forall (λ l, (length (ln_taken l) ≤ S k)%nat) lanes → later k lanes = 0.
Proof.
  intros H. unfold later. induction H as [|l ls Hl _ IH]; [done|]. rewrite fmap_cons, zsum_cons, IH.
  unfold given_after. by rewrite drop_ge by done.
Qed.

Lemma fair_length k all rem b : fair k all rem b → (length (ln_taken b) ≤ k)%nat.
Proof. intros [->|[? _]]; lia. Qed.

(** Taking one gate moves its size from the room to what was given. *)
Definition give (l : lane) (g : list LearningExample) (q : list (list LearningExample)) : lane :=
  {| ln_thread := ln_thread l; ln_taken := ln_taken l ++ [g]; ln_queue := q |}.

Lemma given_after_give n l g q :
  given_after n (give l g q) = given_after n l + (if (n <? length (ln_taken l))%nat then zlen g else 0).
Proof.
  unfold given_after, give. cbn [ln_taken]. destruct (Nat.ltb_spec n (length (ln_taken l))).
  - rewrite drop_app_le by lia. rewrite fmap_app, zsum_app.
    change (zsum (zlen <$> [g])) with (zlen g + 0). lia.
  - rewrite (drop_ge (ln_taken l)) by lia. rewrite drop_ge; [done|]. rewrite length_app. cbn. lia.
Qed.

Lemma blocked_give k ps l g q qs rem b :
  length (ln_taken l) = k → (length (ln_taken b) ≤ k)%nat →
  blocked (ps ++ l :: qs) rem b → blocked (ps ++ give l g q :: qs) (rem - zlen g) b.
Proof.
  intros Hl Hb. unfold blocked. destruct (ln_queue b); [done|]. rewrite !later_app, !later_cons, given_after_give.
  pose proof (zlen_nonneg g). case_match; lia.
Qed.

Lemma fair_give k n ps l g q qs rem b :
  length (ln_taken l) = k → (n ≤ S k)%nat →
  fair n (ps ++ l :: qs) rem b → fair n (ps ++ give l g q :: qs) (rem - zlen g) b.
Proof.
  intros Hl Hn [?|[Hb ?]]; [by left|right]. split; [done|]. eapply blocked_give; [done|lia|done].
Qed.

Definition full_gates (l : lane) : Prop := Forall (λ g, g ≠ []) (ln_queue l).

Lemma zlen_pos {A} (l : list A) : l ≠ [] → 0 < zlen l.
Proof. unfold zlen. destruct l; [done|cbn; lia]. Qed.

(** With no room left everything is blocked. *)
Lemma blocked_zero k all b :
  Forall (λ l, (length (ln_taken l) ≤ S k)%nat) all → full_gates b → fair k all 0 b ∨ fair (S k) all 0 b → blocked all 0 b.
Proof.
  intros Hall Hg Hb. assert (Hblocked : length (ln_taken b) = k ∨ length (ln_taken b) = S k → blocked all 0 b).
  { intros Hl. unfold blocked, full_gates in *. destruct (ln_queue b) as [|g q]; [done|].
    apply Forall_cons in Hg as [Hg%zlen_pos _]. rewrite later_zero; [lia|].
    eapply Forall_impl; [exact Hall|]. intros l Hle. cbn in Hle. destruct Hl; lia. }
  destruct Hb as [[?|[? ?]]|[?|[? ?]]]; auto.
Qed.

Lemma sweep_fair k ps qs sel rem ls s r p :
  sweep qs sel rem = (ls, s, r, p) → 0 < rem →
  Forall (fair (S k) (ps ++ qs) rem) ps → Forall (fair k (ps ++ qs) rem) qs → Forall full_gates (ps ++ qs) →
  0 ≤ r ∧ (0 < r → Forall (fair (S k) (ps ++ ls) r) (ps ++ ls)) ∧ (r = 0 → Forall (blocked (ps ++ ls) 0) (ps ++ ls)).
Proof.
  revert ps sel rem ls s r p. induction qs as [|l qs IH]; intros ps sel rem ls s r p Hs Hrem Hps Hqs Hg.
  { cbn in Hs. injection Hs as <- <- <- <-. rewrite app_nil_r in *. split_and!; [lia|done|lia]. }
  apply Forall_cons in Hqs as [Hl Hqs].
  assert (Hlens : Forall (λ b, (length (ln_taken b) ≤ S k)%nat) (ps ++ l :: qs)).
  { apply Forall_app. split; [eapply Forall_impl; [exact Hps|]; by intros b ?%fair_length|].
    constructor; [by apply fair_length in Hl; lia|]. eapply Forall_impl; [exact Hqs|]. intros b ?%fair_length. lia. }
  assert (Hskip : (∀ ls0 s0 r0 p0, sweep qs sel rem = (ls0, s0, r0, p0) → ls = l :: ls0 → r = r0 →
            fair (S k) (ps ++ l :: qs) rem l →
            0 ≤ r ∧ (0 < r → Forall (fair (S k) (ps ++ ls) r) (ps ++ ls)) ∧ (r = 0 → Forall (blocked (ps ++ ls) 0) (ps ++ ls)))).
  { intros ls0 s0 r0 p0 H0 -> -> Hf. specialize (IH (ps ++ [l]) sel rem ls0 s0 r0 p0 H0 Hrem).
    rewrite <- !(assoc_L (++)) in IH. cbn [app] in IH. apply IH; [|done|done]. apply Forall_app. split; [done|by constructor]. }
  cbn [sweep] in Hs. destruct (ln_queue l) as [|g q] eqn:Hq.
  - destruct (sweep qs sel rem) as [[[ls0 s0] r0] p0] eqn:E. injection Hs as <- <- <- <-.
    eapply Hskip; [done..|]. right. split; [apply fair_length in Hl; lia|]. unfold blocked. by rewrite Hq.
  - destruct (rem <? zlen g) eqn:Elt.
    + apply Z.ltb_lt in Elt. destruct (sweep qs sel rem) as [[[ls0 s0] r0] p0] eqn:E. injection Hs as <- <- <- <-.
      eapply Hskip; [done..|]. right. split; [apply fair_length in Hl; lia|].
      destruct Hl as [Hl|[_ Hb]]; [|done]. unfold blocked. rewrite Hq, Hl, later_zero by done. lia.
    + apply Z.ltb_ge in Elt. fold (give l g q) in Hs.
      assert (Hk : length (ln_taken l) = k).
      { destruct Hl as [?|[_ Hb]]; [done|]. unfold blocked in Hb. rewrite Hq in Hb.
        pose proof (later_nonneg (length (ln_taken l)) (ps ++ l :: qs)). lia. }
      assert (Hps' : Forall (fair (S k) (ps ++ give l g q :: qs) (rem - zlen g)) (ps ++ [give l g q])).
      { apply Forall_app. split; [eapply Forall_impl; [exact Hps|]; intros b; eapply (fair_give k); [done|lia]|].
        constructor; [|done]. left. unfold give. cbn [ln_taken]. rewrite length_app. cbn. lia. }
      assert (Hqs' : Forall (fair k (ps ++ give l g q :: qs) (rem - zlen g)) qs).
      { eapply Forall_impl; [exact Hqs|]. intros b. apply (fair_give k); [done|lia]. }
      assert (Hg' : Forall full_gates (ps ++ give l g q :: qs)).
      { apply Forall_app in Hg as [Hg1 [Hg2 Hg3]%Forall_cons]. apply Forall_app. split; [done|]. constructor; [|done].
        unfold full_gates in *. rewrite Hq in Hg2. by apply Forall_cons in Hg2 as [_ ?]. }
      destruct (rem - zlen g =? 0) eqn:E0.
      * apply Z.eqb_eq in E0. injection Hs as <- <- <- <-. rewrite E0 in *. split_and!; [lia|lia|]. intros _.
        assert (Hlens' : Forall (λ b, (length (ln_taken b) ≤ S k)%nat) (ps ++ give l g q :: qs)).
        { apply Forall_app in Hps' as [Hps1 Hps2]. apply Forall_app. split; [eapply Forall_impl; [exact Hps1|]; by intros b ?%fair_length|].
          apply Forall_cons in Hps2 as [Hps2 _]. constructor; [by apply fair_length in Hps2|].
          eapply Forall_impl; [exact Hqs'|]. intros b ?%fair_length. lia. }
        apply Forall_forall. intros b Hb. apply (blocked_zero k); [done|by eapply (proj1 (Forall_forall _ _)) in Hg'|].
        rewrite Forall_forall in Hps'. rewrite Forall_forall in Hqs'. rewrite elem_of_app, elem_of_cons in Hb.
        destruct Hb as [Hb|[->|Hb]]; [right|right|left]; try (apply Hps'; rewrite elem_of_app, elem_of_cons; auto). by apply Hqs'.
      * apply Z.eqb_neq in E0. destruct (sweep qs (sel ++ g) (rem - zlen g)) as [[[ls0 s0] r0] p0] eqn:E.
        injection Hs as <- <- <- <-. specialize (IH (ps ++ [give l g q]) _ _ _ _ _ _ E ltac:(lia)).
        rewrite <- !(assoc_L (++)) in IH. cbn [app] in IH. by apply IH.
Qed.

(** ** What a sweep keeps *)
Definition given (lanes : list lane) : list LearningExample := lanes ≫= λ l, concat (ln_taken l).
Definition queued (lanes : list lane) : nat := list_sum ((λ l, length (ln_queue l)) <$> lanes).
Definition same_lane (l l' : lane) : Prop :=
  ln_thread l' = ln_thread l ∧ ln_taken l' ++ ln_queue l' = ln_taken l ++ ln_queue l ∧ (full_gates l → full_gates l').

Lemma same_lane_refl l : same_lane l l.
Proof. done. Qed.

Lemma forall2_same_refl ls : Forall2 same_lane ls ls.
Proof. induction ls; by constructor. Qed.

Lemma given_cons l ls : given (l :: ls) = concat (ln_taken l) ++ given ls.
Proof. done. Qed.

Lemma queued_cons l ls : queued (l :: ls) = (length (ln_queue l) + queued ls)%nat.
Proof. done. Qed.

Lemma zlen_app {A} (l l' : list A) : zlen (l ++ l') = zlen l + zlen l'.
Proof. unfold zlen. rewrite length_app. lia. Qed.

Lemma give_same l g q : ln_queue l = g :: q → same_lane l (give l g q).
Proof.
  intros Hq. split_and!; [done| |].
  - unfold give. cbn [ln_taken ln_queue]. by rewrite Hq, <- (assoc_L (++)).
  - unfold full_gates. rewrite Hq. cbn. by intros [_ ?]%Forall_cons.
Qed.

Lemma sweep_keeps qs sel rem ls s r p :
  sweep qs sel rem = (ls, s, r, p) →
  Forall2 same_lane qs ls ∧ r + zlen s = rem + zlen sel ∧
  (∃ new, s = sel ++ new ∧ Permutation (given ls) (given qs ++ new)) ∧
  (p = false → ls = qs ∧ s = sel ∧ r = rem) ∧ (p = true → (queued ls < queued qs)%nat) ∧ (queued ls ≤ queued qs)%nat.
Proof.
  revert sel rem ls s r p. induction qs as [|l qs IH]; intros sel rem ls s r p Hs; cbn [sweep] in Hs.
  { injection Hs as <- <- <- <-. split_and!; [done|done|exists []; by rewrite !app_nil_r|done..]. }
  assert (Hskip : ∀ ls0 s0 r0 p0, sweep qs sel rem = (ls0, s0, r0, p0) → ls = l :: ls0 → s = s0 → r = r0 → p = p0 →
            Forall2 same_lane (l :: qs) ls ∧ r + zlen s = rem + zlen sel ∧
            (∃ new, s = sel ++ new ∧ Permutation (given ls) (given (l :: qs) ++ new)) ∧
            (p = false → ls = l :: qs ∧ s = sel ∧ r = rem) ∧ (p = true → (queued ls < queued (l :: qs))%nat) ∧
            (queued ls ≤ queued (l :: qs))%nat).
  { intros ls0 s0 r0 p0 H0 -> -> -> ->. destruct (IH _ _ _ _ _ _ H0) as (H2 & Hz & (new & -> & Hp) & Hf & Ht & Hle).
    split_and!; [by constructor|done| | | |].
    - exists new. split; [done|]. by rewrite !given_cons, Hp, (assoc_L (++)).
    - intros ->. destruct (Hf eq_refl) as (-> & ? & ?). done.
    - intros Hpt. rewrite !queued_cons. specialize (Ht Hpt). lia.
    - rewrite !queued_cons. lia. }
  destruct (ln_queue l) as [|g q] eqn:Hq.
  - destruct (sweep qs sel rem) as [[[ls0 s0] r0] p0] eqn:E. injection Hs as <- <- <- <-. by eapply Hskip.
  - destruct (rem <? zlen g).
    { destruct (sweep qs sel rem) as [[[ls0 s0] r0] p0] eqn:E. injection Hs as <- <- <- <-. by eapply Hskip. }
    fold (give l g q) in Hs. clear Hskip.
    assert (Hgive : ∀ rest, Permutation (given (give l g q :: rest)) (given (l :: rest) ++ g)).
    { intros rest. rewrite !given_cons. unfold give. cbn [ln_taken]. rewrite concat_app. cbn [concat]. rewrite app_nil_r.
      rewrite <- !(assoc_L (++)). f_equiv. apply Permutation_app_comm. }
    assert (Hquq : queued (l :: qs) = S (length q + queued qs)) by (rewrite queued_cons, Hq; done).
    destruct (rem - zlen g =? 0) eqn:E0.
    + injection Hs as <- <- <- <-. split_and!; [constructor; [by apply give_same|]|rewrite zlen_app; lia|exists g; by split|done| |].
      * apply forall2_same_refl.
      * intros _. rewrite Hquq. rewrite queued_cons. cbn. lia.
      * rewrite Hquq. rewrite queued_cons. cbn. lia.
    + destruct (sweep qs (sel ++ g) (rem - zlen g)) as [[[ls0 s0] r0] p0] eqn:E. injection Hs as <- <- <- <-.
      destruct (IH _ _ _ _ _ _ E) as (H2 & Hz & (new & -> & Hp) & _ & _ & Hle).
      split_and!; [constructor; [by apply give_same|done]|rewrite !zlen_app in *; lia| |done| |].
      * exists (g ++ new). split; [by rewrite (assoc_L (++))|]. rewrite Hgive, !given_cons, Hp.
        rewrite <- !(assoc_L (++)). do 2 f_equiv. apply Permutation_app_comm.
      * intros _. rewrite Hquq, queued_cons. cbn. lia.
      * rewrite Hquq, queued_cons. cbn. lia.
Qed.

(** ** The loop *)
Lemma forall2_same_trans ls1 ls2 ls3 : Forall2 same_lane ls1 ls2 → Forall2 same_lane ls2 ls3 → Forall2 same_lane ls1 ls3.
Proof.
  intros H. revert ls3. induction H as [|a b l1 l2 Hab _ IH]; intros ls3 H3; inversion H3; subst; constructor; [|auto].
  destruct Hab as (? & ? & ?). match goal with H : same_lane b _ |- _ => destruct H as (? & ? & ?) end.
  split_and!; [congruence..|auto].
Qed.

Lemma full_gates_all ls ls' : Forall2 same_lane ls ls' → Forall full_gates ls → Forall full_gates ls'.
Proof. induction 1 as [|a b l l' (_ & _ & Hab) _ IH]; [done|]. rewrite !Forall_cons. naive_solver. Qed.

Lemma empty_blocked lanes rem :
  forallb (λ l, bool_decide (ln_queue l = [])) lanes = true → Forall (blocked lanes rem) lanes.
Proof.
  intros H. apply Forall_forall. intros b Hb. rewrite forallb_forall in H. apply list_elem_of_In, H in Hb.
  unfold blocked. by apply bool_decide_eq_true in Hb as ->.
Qed.

Lemma queued_zero lanes : queued lanes = 0%nat → forallb (λ l, bool_decide (ln_queue l = [])) lanes = true.
Proof.
  induction lanes as [|l ls IH]; [done|]. rewrite queued_cons. intros H. cbn. rewrite IH by lia.
  rewrite bool_decide_true; [done|]. apply nil_length_inv. lia.
Qed.

Lemma take_gates_spec fuel lanes sel rem :
  (queued lanes ≤ fuel)%nat → 0 ≤ rem → Forall full_gates lanes →
  (0 < rem → ∃ k, Forall (fair k lanes rem) lanes) → (rem = 0 → Forall (blocked lanes 0) lanes) →
  ∃ ls s r, take_gates fuel lanes sel rem = Some (ls, s, r) ∧ 0 ≤ r ∧ Forall (blocked ls r) ls ∧
    Forall2 same_lane lanes ls ∧ r + zlen s = rem + zlen sel ∧
    ∃ new, s = sel ++ new ∧ Permutation (given ls) (given lanes ++ new).
Proof.
  revert lanes sel rem. induction fuel as [|fuel IH]; intros lanes sel rem Hq Hrem Hg Hfair Hzero.
  - exists lanes, sel, rem. cbn [take_gates]. rewrite (queued_zero lanes) by lia. rewrite orb_true_r.
    split_and!; [done..|apply empty_blocked, queued_zero; lia|apply forall2_same_refl|done|exists []; by rewrite !app_nil_r].
  - cbn [take_gates]. destruct (_ || _) eqn:Estop.
    { exists lanes, sel, rem. split_and!; [done..| |apply forall2_same_refl|done|exists []; by rewrite !app_nil_r].
      apply orb_true_iff in Estop as [->%Z.eqb_eq|He]; [by apply Hzero|by apply empty_blocked]. }
    apply orb_false_iff in Estop as [Hne%Z.eqb_neq _]. destruct (Hfair ltac:(lia)) as [k Hk].
    destruct (sweep lanes sel rem) as [[[ls s] r] p] eqn:E.
    destruct (sweep_keeps _ _ _ _ _ _ _ E) as (H2 & Hz & (new & -> & Hp) & Hf & Ht & _).
    destruct (sweep_fair k [] _ _ _ _ _ _ _ E ltac:(lia) ltac:(constructor) Hk Hg) as (Hr & Hr1 & Hr0). cbn [app] in *.
    destruct p.
    + specialize (Ht eq_refl).
      destruct (IH ls (sel ++ new) r) as (ls' & s' & r' & -> & ? & ? & H2' & Hz' & (new' & -> & Hp')); [lia|done|by eapply full_gates_all|by eauto|done|].
      exists ls', ((sel ++ new) ++ new'), r'. split_and!; [done..|by eapply forall2_same_trans|lia|].
      exists (new ++ new'). split; [by rewrite (assoc_L (++))|]. by rewrite Hp', Hp, (assoc_L (++)).
    + destruct (Hf eq_refl) as (-> & Hs & ->). exists lanes, (sel ++ new), rem.
      split_and!; [done|lia| |done|done|by exists new].
      specialize (Hr1 ltac:(lia)). apply Forall_forall. intros b Hb.
      eapply (proj1 (Forall_forall _ _)) in Hr1; [|exact Hb]. eapply (proj1 (Forall_forall _ _)) in Hk; [|exact Hb].
      apply fair_length in Hk. destruct Hr1 as [?|[_ ?]]; [lia|done].
Qed.

(** ** Gates and lanes of the examples *)
Lemma remove_dups_one {A} `{EqDecision A} (l : list A) x : remove_dups l = [x] → ∀ y, y ∈ l → y = x.
Proof. intros H y Hy. apply elem_of_remove_dups in Hy. rewrite H in Hy. by apply list_elem_of_singleton in Hy. Qed.

(** A gate is all the examples of one injection, in one thread. *)
Definition whole_gate (examples : list LearningExample) (thread : str) (gate : list LearningExample) : Prop :=
  gate ≠ [] ∧ (∀ e, e ∈ gate → e ∈ examples ∧ thread_name (le_thread_id e) = thread) ∧
  ∀ e e', e ∈ gate → e' ∈ examples → (e' ∈ gate ↔ le_injection_id e' = le_injection_id e).

Lemma ordered_gates_spec max examples gates :
  res_map (ordered_gate max) (group_by le_injection_id examples) = Ok gates →
  Permutation (gates ≫= snd) examples ∧ ∀ x, x ∈ gates → whole_gate examples x.1 x.2 ∧ zlen x.2 ≤ max.
Proof.
  intros H%res_map_Forall2.
  assert (Hgate : ∀ g x, ordered_gate max g = Ok x → Permutation x.2 g.2 ∧ zlen g.2 ≤ max ∧
    ∀ e, e ∈ g.2 → thread_name (le_thread_id e) = x.1).
  { intros [i rows] x Hx. unfold ordered_gate in Hx. destruct (remove_dups _) as [|t [|]] eqn:Ed; [done| |done].
    apply bind_Ok in Hx as (? & Hle%guard_Ok & [= <-]). cbn [fst snd]. split_and!; [apply sort_by_perm|lia|].
    intros e He. f_equal. apply (remove_dups_one _ _ Ed). by apply list_elem_of_fmap_2. }
  split.
  - transitivity (group_by le_injection_id examples ≫= snd); [|apply group_by_values]. clear -H Hgate. induction H as [|g x l l' Hx _ IH]; [done|].
    cbn [mbind list_bind]. apply Hgate in Hx as [Hp _]. by rewrite Hp, IH.
  - intros x Hx. apply list_elem_of_lookup in Hx as [n Hn]. destruct (Forall2_lookup_r _ _ _ _ _ H Hn) as ([i rows] & Hg & Ho).
    apply list_elem_of_lookup_2, group_by_elem in Hg as [-> Hne]. destruct (Hgate _ _ Ho) as (Hp & Hle & Ht). cbn [fst snd] in *.
    split; [|unfold zlen in *; by rewrite Hp]. split_and!.
    + intros E. rewrite E in Hp. by apply Permutation_nil in Hp.
    + intros e He. rewrite Hp in He. split; [by apply list_elem_of_filter in He as [_ ?]|by apply Ht].
    + intros e e' He He'. rewrite Hp in He |- *. apply list_elem_of_filter in He as [<- _]. rewrite list_elem_of_filter. naive_solver.
Qed.

Lemma lanes_spec gates l :
  l ∈ thread_lanes gates → ln_taken l = [] ∧
  Permutation (ln_queue l) (filter (λ g, g.1 = ln_thread l) gates).*2 ∧
  ∃ gs, StronglySorted (λ a b, chronological_leb a b = true) gs ∧ ln_queue l = spread (length gs) true gs.
Proof.
  unfold thread_lanes. intros ([t gs] & -> & Hin)%list_elem_of_fmap. rewrite sort_by_perm in Hin.
  apply group_by_elem in Hin as [-> _]. cbn [ln_taken ln_queue ln_thread]. split_and!; [done|apply thread_queue_perm|].
  exists (sort_by chronological_leb (filter (λ x, x.1 = t) gates).*2). split.
  - apply (sort_by_sorted _ (λ _, True)); [| |by apply Forall_true]; unfold chronological_leb; intros; lia.
  - unfold thread_queue. f_equal. symmetry. apply Permutation_length, sort_by_perm.
Qed.

Definition lane_gates (l : lane) : list (list LearningExample) := ln_taken l ++ ln_queue l.

Lemma thread_lanes_gates gates : Permutation (thread_lanes gates ≫= lane_gates) gates.*2.
Proof.
  unfold thread_lanes. rewrite sort_by_perm.
  transitivity ((group_by fst gates ≫= @snd str (list (str * list LearningExample))).*2); [|by rewrite group_by_values].
  assert (H : ∀ d : list (str * list (str * list LearningExample)), Permutation (((λ '(t, gs), {| ln_thread := t; ln_taken := []; ln_queue := thread_queue gs.*2 |}) <$> d) ≫= lane_gates)
                               (d ≫= snd).*2); [|apply H].
  induction d as [|[t gs] d IH]; [done|]. cbn [fmap list_fmap mbind list_bind].
  rewrite fmap_app, <- IH. unfold lane_gates at 1. cbn [ln_taken ln_queue app]. by rewrite thread_queue_perm.
Qed.

Lemma same_lane_gates ls ls' : Forall2 same_lane ls ls' → ls ≫= lane_gates = ls' ≫= lane_gates.
Proof. induction 1 as [|a b l l' (_ & Hab & _) _ IH]; [done|]. cbn. unfold lane_gates at 1 3. by rewrite Hab, IH. Qed.

Lemma queued_gates ls : Forall (λ l, ln_taken l = []) ls → queued ls = length (ls ≫= lane_gates).
Proof.
  induction 1 as [|l ls Hl _ IH]; [done|]. rewrite queued_cons, IH. cbn. unfold lane_gates at 2. rewrite Hl. by rewrite length_app.
Qed.

(** The loop runs to its end, and says what it took. *)
Lemma corpus_run max examples gates :
  0 < max → res_map (ordered_gate max) (group_by le_injection_id examples) = Ok gates →
  ∃ ls s r, take_gates (length gates) (thread_lanes gates) [] max = Some (ls, s, r) ∧ 0 ≤ r ∧ Forall (blocked ls r) ls ∧
    Forall2 same_lane (thread_lanes gates) ls ∧ r + zlen s = max ∧ Permutation (given ls) s.
Proof.
  intros Hmax Hgates. destruct (ordered_gates_spec _ _ _ Hgates) as [_ Hwhole].
  assert (Htaken : Forall (λ l, ln_taken l = []) (thread_lanes gates)).
  { apply Forall_forall. intros l Hl. by apply lanes_spec in Hl as [? _]. }
  destruct (take_gates_spec (length gates) (thread_lanes gates) [] max) as (ls & s & r & Hrun & Hr & Hb & H2 & Hz & new & -> & Hp).
  - rewrite queued_gates by done. by rewrite thread_lanes_gates, length_fmap.
  - lia.
  - apply Forall_forall. intros l (_ & Hq & _)%lanes_spec. apply Forall_forall. intros g Hg. rewrite Hq in Hg.
    apply list_elem_of_fmap in Hg as (x & -> & [_ Hx]%list_elem_of_filter). by apply Hwhole.
  - intros _. exists 0%nat. eapply Forall_impl; [exact Htaken|]. intros l Hl. left. by rewrite Hl.
  - lia.
  - exists ls, new, r. cbn [app] in *. change (zlen (@nil LearningExample)) with 0 in Hz.
    split_and!; [done..|lia|]. rewrite Hp.
    assert (given (thread_lanes gates) = []) as ->; [|done].
    clear -Htaken. induction Htaken as [|l ls Hl _ IH]; [done|]. rewrite given_cons, Hl, IH. done.
Qed.

(** What stayed in the queues. *)
Definition left_over (lanes : list lane) : list LearningExample := lanes ≫= λ l, concat (ln_queue l).

Lemma gates_split lanes : Permutation (concat (lanes ≫= lane_gates)) (given lanes ++ left_over lanes).
Proof.
  induction lanes as [|l ls IH]; [done|]. rewrite given_cons.
  change ((l :: ls) ≫= lane_gates) with (lane_gates l ++ (ls ≫= lane_gates)).
  change (left_over (l :: ls)) with (concat (ln_queue l) ++ left_over ls).
  unfold lane_gates at 1. rewrite !concat_app, IH. rewrite <- !(assoc_L (++)). f_equiv.
  rewrite !(assoc_L (++)). f_equiv. apply Permutation_app_comm.
Qed.

Lemma left_over_gate lanes b g q : b ∈ lanes → ln_queue b = g :: q → zlen g ≤ zlen (left_over lanes).
Proof.
  induction lanes as [|l ls IH]; [by intros ?%elem_of_nil|].
  change (left_over (l :: ls)) with (concat (ln_queue l) ++ left_over ls). rewrite zlen_app.
  pose proof (zlen_nonneg (left_over ls)). pose proof (zlen_nonneg (concat (ln_queue l))).
  intros [->|Hb]%elem_of_cons Hq; [|specialize (IH Hb Hq); lia].
  rewrite Hq. cbn [concat]. rewrite zlen_app. pose proof (zlen_nonneg (concat q)). lia.
Qed.

(** When everything fits, nothing stays behind. *)
Lemma fits_all lanes r :
  Forall (blocked lanes r) lanes → zlen (left_over lanes) ≤ r → left_over lanes = [].
Proof.
  intros Hb Hr. assert (Hq : ∀ b, b ∈ lanes → ln_queue b = []).
  { intros b Hin. eapply (proj1 (Forall_forall _ _)) in Hb; [|exact Hin]. unfold blocked in Hb.
    destruct (ln_queue b) as [|g q] eqn:E; [done|]. pose proof (left_over_gate _ _ _ _ Hin E).
    pose proof (later_nonneg (length (ln_taken b)) lanes). lia. }
  clear -Hq. induction lanes as [|l ls IH]; [done|].
  change (left_over (l :: ls)) with (concat (ln_queue l) ++ left_over ls).
  rewrite (Hq l) by (by left). rewrite IH; [done|]. intros; apply Hq; by right.
Qed.

Section corpus.
Context {SH : Sha256}.

(** C17: The optimization corpus.  For a positive maximum, the loop always ends.
    A corpus is made of whole gates: the threads' gates are exactly the
    examples, each thread offers its own alternating the newest and the oldest
    left, and gives a prefix of that queue.  The corpus is what was given; it
    never exceeds the maximum and is everything when everything fits.  It is
    maximal and fair: where a thread stopped, its next gate is larger than the
    room left at the end together with all that any thread gave in later turns;
    and the strata count what each thread had and gave. *)
Theorem corpus_balanced (examples : list LearningExample) (boundaries : list ShareBoundary) (max : Z) :
  0 < max →
  balanced_corpus examples boundaries max ≠ Err FuelExhausted
  ∧ ∀ c, balanced_corpus examples boundaries max = Ok c →
    ∃ lanes : list lane,
      (Permutation (concat (lanes ≫= lane_gates)) examples
       ∧ (∀ l g, l ∈ lanes → g ∈ lane_gates l → whole_gate examples (ln_thread l) g)
       ∧ (∀ l, l ∈ lanes → ∃ gs, StronglySorted (λ a b, chronological_leb a b = true) gs
                                 ∧ lane_gates l = spread (length gs) true gs))
      ∧ (Permutation (bc_examples c) (given lanes)
         ∧ zlen (bc_examples c) ≤ max
         ∧ (zlen examples ≤ max → Permutation (bc_examples c) examples)
         ∧ Forall (blocked lanes (max - zlen (bc_examples c))) lanes)
      ∧ (λ t, (th_thread_id t, th_available t, th_selected t, th_selected_gates t)) <$> bc_threads c =
        (λ l, (ln_thread l, zsum (zlen <$> lane_gates l), zsum (zlen <$> ln_taken l), zlen (ln_taken l))) <$> lanes.
Proof.
  intros Hmax. unfold balanced_corpus. destruct (res_map _ _) as [gates|e] eqn:Hgates; cbn [mbind res_bind].
  2:{ split; [|done]. intros [= ->]. apply res_map_Err in Hgates as ([i rows] & _ & He). unfold ordered_gate in He.
      destruct (remove_dups _) as [|t [|]]; [done| |done]. apply bind_Err in He as [[_ He]%guard_Err|(? & _ & He)]; done. }
  destruct (corpus_run _ _ _ Hmax Hgates) as (lanes & s & r & -> & Hr & Hb & Hsame & Hz & Hp). split; [done|].
  intros c [= <-]. cbn [bc_examples bc_threads]. exists lanes.
  destruct (ordered_gates_spec _ _ _ Hgates) as [Hall Hwhole].
  assert (Hlane : ∀ l, l ∈ lanes → ∃ l0, l0 ∈ thread_lanes gates ∧ ln_thread l = ln_thread l0 ∧ lane_gates l = ln_queue l0).
  { intros l Hl. apply list_elem_of_lookup in Hl as [n Hn]. destruct (Forall2_lookup_r _ _ _ _ _ Hsame Hn) as (l0 & Hl0 & Ht & Hg & _).
    apply list_elem_of_lookup_2 in Hl0. exists l0. split_and!; [done..|]. destruct (lanes_spec _ _ Hl0) as [Hnil _].
    unfold lane_gates. by rewrite Hg, Hnil. }
  assert (Hgates' : Permutation (lanes ≫= lane_gates) gates.*2) by (by rewrite <- (same_lane_gates _ _ Hsame), thread_lanes_gates).
  assert (Hsel : Permutation (sort_by selected_leb s) (given lanes)) by (by rewrite sort_by_perm, Hp).
  assert (Hlen : zlen (sort_by selected_leb s) = zlen s) by (unfold zlen; by rewrite sort_by_perm).
  assert (Hconcat : Permutation (concat (lanes ≫= lane_gates)) examples).
  { rewrite <- Hall. assert (concat gates.*2 = gates ≫= snd) as <-; [|by rewrite Hgates'].
    clear. induction gates as [|x gates IH]; [done|]. cbn. by rewrite IH. }
  split_and!; [done| | |done|lia| | |].
  - intros l g Hl Hg. destruct (Hlane l Hl) as (l0 & Hl0 & -> & E). rewrite E in Hg.
    destruct (lanes_spec _ _ Hl0) as (_ & Hq & _). rewrite Hq in Hg.
    apply list_elem_of_fmap in Hg as (x & -> & [<- Hx]%list_elem_of_filter). by apply Hwhole.
  - intros l Hl. destruct (Hlane l Hl) as (l0 & Hl0 & _ & ->). by destruct (lanes_spec _ _ Hl0) as (_ & _ & ?).
  - intros Hfit. rewrite Hsel, <- Hconcat, gates_split. rewrite (fits_all lanes r Hb); [by rewrite app_nil_r|].
    assert (zlen examples = zlen (given lanes) + zlen (left_over lanes)) by (unfold zlen; rewrite <- Hconcat, gates_split, length_app; lia).
    assert (zlen (given lanes) = zlen s) by (unfold zlen; by rewrite Hp). lia.
  - rewrite Hlen. by replace (max - zlen s) with r by lia.
  - rewrite <- list_fmap_compose. apply list_fmap_ext. intros n l Hl%list_elem_of_lookup_2.
    destruct (Hlane l Hl) as (l0 & Hl0 & Ht & ->). destruct (lanes_spec _ _ Hl0) as (_ & Hq & _).
    assert (Hsum : zsum (zlen <$> ln_queue l0) = zsum (zlen <$> (filter (λ g, g.1 = ln_thread l0) gates).*2)).
    { apply zsum_perm. by rewrite Hq. }
    unfold compose. cbn [th_thread_id th_available th_selected th_selected_gates stratum]. by rewrite Ht, Hsum.
Qed.
End corpus.

(** Three gates of two threads with room for three examples: the newest and
    the largest gate of the first thread goes in, then the second thread's
    single example, and the first thread's oldest gate no longer fits. *)
Definition corpus_sample_sha : Sha256 := {| sha256_hex := λ s, take 4 s |}.
Definition corpus_example (uid : string) (injection : uuid) (thread : option uuid) (ts : Z) : LearningExample := {|
  le_event_uid := lit uid; le_injection_id := injection; le_memory_id := 7%N; le_ts := ts; le_features := [];
  le_baseline_bias := f0; le_target_injected := true; le_actor_weight := Dec 1 0; le_shown_as := shown_injected;
  le_body_tokens := 1; le_location_feature := None; le_location_weight := f0; le_thread_feature := None;
  le_thread_id := thread; le_where_feature := None; le_where_weight := f0; le_project_key := None |}.
Definition corpus_examples : list LearningExample :=
  [corpus_example "a" 1 (Some 1%N) 1; corpus_example "b" 1 (Some 1%N) 1; corpus_example "c" 2 (Some 1%N) 5;
   corpus_example "d" 2 (Some 1%N) 4; corpus_example "e" 3 None 2]%N.
Definition corpus_sample : BalancedCorpus :=
  match @balanced_corpus corpus_sample_sha corpus_examples [] 3 with
  | Ok c => c
  | Err _ => {| bc_examples := []; bc_share_boundaries := []; bc_fingerprint := []; bc_available := 0; bc_max_size := 0;
                bc_threads := [] |}
  end.

Lemma corpus_balanced_witness :
  le_event_uid <$> bc_examples corpus_sample = [lit "e"; lit "d"; lit "c"]
  ∧ ∃ lanes, Forall (blocked lanes 0) lanes ∧ Permutation (bc_examples corpus_sample) (given lanes).
Proof.
  split; [vm_compute; reflexivity|].
  assert (Hrun : @balanced_corpus corpus_sample_sha corpus_examples [] 3 = Ok corpus_sample) by (vm_compute; reflexivity).
  destruct (proj2 (@corpus_balanced corpus_sample_sha corpus_examples [] 3 ltac:(lia)) _ Hrun)
    as (lanes & _ & (Hp & _ & _ & Hb) & _).
  exists lanes. split; [|exact Hp]. assert (Hz : 3 - zlen (bc_examples corpus_sample) = 0) by (vm_compute; reflexivity).
  rewrite Hz in Hb. exact Hb.
Defined.
