(* ===== verification/Nominate.v ===== *)
(** * Curating scorer axes: [src/src/spine/curation/axes.py]

    Every axis of the incumbent is fitted again on the training gates and
    retired after two generations near zero; then the best product of two
    features may join them. *)
From Stdlib Require Import SpecFloat.
From S2P Require Import Prelude PyStr PyFloat PyDecimal PyJson Ids Axes Scorer JsonText Learner Evidence.
Open Scope Z_scope.

(** [pow(x, 2.0)] of the C library. *)
Class LibmSquare := { libm_square : float → float }.

(** [x ** 2] of a float. *)
Definition square `{LibmSquare} (x : float) : res pyexn float :=
  guard_ (isfinite (libm_square x) || negb (isfinite x)) (OverflowError "Numerical result out of range");;
  Ok (libm_square x).

(** [int(s)] of a string: a sign, digits of any script, single underscores
    between them. *)
Section int_text.
Context `{DecimalDigits}.

Fixpoint underscored (s : str) : option (list Z) :=
  match s with
  | [] => None
  | c :: s =>
      v ← digit_value c;
      match s with
      | [] => Some [v]
      | 95%N :: s => vs ← underscored s; Some (v :: vs)
      | _ => vs ← underscored s; Some (v :: vs)
      end
  end.

Definition int_of_str (s : str) : res pyexn Z :=
  let '(sign, s) := take_sign (strip s) in
  match underscored s with
  | Some ds =>
      guard_ (zlen ds <=? MAX_STR_DIGITS) (ValueError "Exceeds the limit for integer string conversion");;
      Ok (sign * digits_number ds)
  | None => Err (ValueError "invalid literal for int()")
  end.

(** [int(value)] of a decoded JSON value. *)
Definition int_of_json (value : json) : res pyexn Z :=
  match value with
  | JInt z => Ok z
  | JBool b => Ok (if b then 1 else 0)
  | JFloat x => py_int x
  | JStr s => int_of_str s
  | JNull | JList _ | JObj _ => Err (TypeError "int() argument must be a string or a real number")
  end.
End int_text.

Definition LABELS : list (string * string) :=
  [("sem", "Meaning"); ("kw", "Keywords"); ("time", "Recency"); ("proj", "Project"); ("freq", "Use count");
   ("hist", "Past choices")]%string.

Definition feature_of_name (name : string) : feature :=
  match name with
  | "sem" => Fsem | "kw" => Fkw | "time" => Ftime | "proj" => Fproj | "freq" => Ffreq | _ => Fhist
  end%string.

(** [combinations(l, 2)]. *)
Fixpoint combinations {A} (l : list A) : list (A * A) :=
  match l with [] => [] | x :: l => ((λ y, (x, y)) <$> l) ++ combinations l end.

Definition with_axis_weight (weight : float) (a : AxisNomination) : AxisNomination := {|
  axis_name := axis_name a; axis_label := axis_label a; axis_inputs := axis_inputs a; axis_weight := weight;
  axis_act := axis_act a; axis_rationale := axis_rationale a; axis_provenance := axis_provenance a |}.

Section nominate.
Context `{LibmSquare} `{DecimalDigits}.
Context (examples : list LearningExample) (fit : FitResult) (settings : FitSettings) (corpus_fingerprint : str).

(** The score of an example under the fit and some axes. *)
Definition axes_score (row : LearningExample) (axes : list (str * AxisNomination)) : res pyexn float :=
  let offset := default [] (k ← le_project_key row; aget k (fr_project_offsets fit)) in
  weights ← zip_strict (λ name value, fadd value (default f0 (aget name offset))) weight_names (fr_weights fit);
  base ← example_score row weights (fr_thread_weight fit) (fr_where_weight fit);
  features ← example_features row;
  Ok (fadd (fadd (apply_axes (fsub base (le_baseline_bias row)) features axes) (le_baseline_bias row))
        (default f0 (aget (le_memory_id row) (fr_bias_offsets fit)))).

(** [weight * max(0, hinge) ** 2]. *)
Definition pair_loss (axes : list (str * AxisNomination)) (p : training_pair) : res pyexn float :=
  let '(positive, negative, weight) := p in
  l ← axes_score positive axes;
  r ← axes_score negative axes;
  let hinge := fadd (fsub (pair_margin settings) l) r in
  if flt f0 hinge then s ← square hinge; Ok (fmul weight s) else Ok (fmul weight f0).

Definition axes_objective (axes : list (str * AxisNomination)) : res pyexn float :=
  losses ← res_map (pair_loss axes) (pairs examples);
  loss ← fsum losses;
  squares ← res_map (λ a : str * AxisNomination, square (axis_weight a.2)) axes;
  penalty ← fsum squares;
  Ok (fadd loss (fmul (bias_l2 settings) penalty)).

(** *** One coefficient: a ternary search with the two ends *)
Definition axis_at (axes : list (str * AxisNomination)) (axis : AxisNomination) (weight : float) :
    res pyexn (float * AxisNomination) :=
  let candidate := with_axis_weight weight axis in
  loss ← axes_objective (aset (axis_name axis) candidate axes);
  Ok (loss, candidate).

Definition f3 : float := f_of_Z 3.
Definition search_step (axes : list (str * AxisNomination)) (axis : AxisNomination) (st : float * float) :
    res pyexn (float * float) :=
  let '(low, high) := st in
  let lower := fadd low (fdiv (fsub high low) f3) in
  let upper := fsub high (fdiv (fsub high low) f3) in
  l ← axis_at axes axis lower;
  r ← axis_at axes axis upper;
  Ok (if fle l.1 r.1 then (low, upper) else (lower, high)).

Definition SEARCH_STEPS : nat := 40.
Definition fitted (axes : list (str * AxisNomination)) (axis : AxisNomination) : res pyexn (float * AxisNomination) :=
  '(low, high) ← res_fold (λ st _, search_step axes axis st) (f0, LOCALITY_CEILING) (seq 0 SEARCH_STEPS);
  zero ← axis_at axes axis f0;
  middle ← axis_at axes axis (fdiv (fadd low high) f2);
  one ← axis_at axes axis LOCALITY_CEILING;
  let least := if flt middle.1 zero.1 then middle else zero in
  Ok (if flt one.1 least.1 then one else least).

Definition NEAR_ZERO : float := f_ratio 1 (10 ^ 6).

(** The axis of the next generation. *)
Definition refit_axis (axes : list (str * AxisNomination)) (axis : AxisNomination) : res pyexn AxisNomination :=
  '(_, updated) ← fitted axes axis;
  zero_generations ←
    (if flt (axis_weight updated) NEAR_ZERO
     then n ← int_of_json (default (JInt 0) (aget (lit "zero_generations") (axis_provenance axis))); Ok (n + 1)
     else Ok 0);
  let retired := 2 <=? zero_generations in
  Ok {| axis_name := axis_name updated; axis_label := axis_label updated; axis_inputs := axis_inputs updated;
        axis_weight := if retired then f0 else axis_weight updated;
        axis_act := if retired then axis_retire else axis_add;
        axis_rationale := if retired then lit "Coefficient stayed near zero across fitted generations."
                          else axis_rationale axis;
        axis_provenance := aset (lit "latest_corpus") (JStr corpus_fingerprint)
                             (aset (lit "zero_generations") (JInt zero_generations) (axis_provenance axis)) |}.

Definition refit_step (axes : list (str * AxisNomination)) (na : str * AxisNomination) :
    res pyexn (list (str * AxisNomination)) :=
  match axis_act na.2 with
  | axis_retire => Ok axes
  | axis_add => updated ← refit_axis axes na.2; Ok (aset na.1 updated axes)
  end.

(** *** One new product *)
Definition pair_name (lr : string * string) : str := lit lr.1 ++ lit "_and_" ++ lit lr.2.
Definition label_of (name : string) : str := lit (default ""%string (aget name LABELS)).

Definition new_axis (lr : string * string) : AxisNomination := {|
  axis_name := pair_name lr; axis_label := label_of lr.1 ++ [32; 215; 32]%N ++ label_of lr.2;
  axis_inputs := (feature_of_name lr.1, feature_of_name lr.2); axis_weight := f0; axis_act := axis_add;
  axis_rationale := lit "Joint evidence reduces training pair disagreements.";
  axis_provenance := [(lit "curator", JStr (lit "recorded-scalar-products-v1"));
    (lit "corpus_fingerprint", JStr corpus_fingerprint);
    (lit "event_uids", JList ((λ e, JStr (le_event_uid e)) <$> examples)); (lit "zero_generations", JInt 0)] |}.

Definition BETTER : float := f_ratio 1 (10 ^ 9).
Definition candidate_step (axes : list (str * AxisNomination)) (best : float * option AxisNomination)
    (lr : string * string) : res pyexn (float * option AxisNomination) :=
  if bool_decide (is_Some (aget (pair_name lr) axes)) then Ok best
  else
    '(loss, candidate) ← fitted axes (new_axis lr);
    Ok (if flt loss (fsub best.1 BETTER) && flt NEAR_ZERO (axis_weight candidate) then (loss, Some candidate) else best).

Definition nominate_axes (incumbent : list (str * AxisNomination)) : res pyexn (list (str * AxisNomination)) :=
  axes ← res_fold refit_step incumbent (sort_axes incumbent);
  start ← axes_objective axes;
  '(_, best) ← res_fold (candidate_step axes) (start, None) (combinations weight_names);
  Ok match best with Some axis => aset (axis_name axis) axis axes | None => axes end.
End nominate.
