(* ===== verification/NominateFacts.v ===== *)
(** * The registry of axes only grows *)
From S2P Require Import Prelude PyStr PyFloat PyDecimal PyJson JsonText Ids Axes Scorer Learner Evidence Nominate.
Open Scope Z_scope.

Section registry.
Context {LS : LibmSquare} {DD : DecimalDigits}.
Context (examples : list LearningExample) (fit : FitResult) (settings : FitSettings) (corpus_fingerprint : str).

(** The generations near zero an axis has recorded. *)
Definition zero_count (a : AxisNomination) : res pyexn Z :=
  int_of_json (default (JInt 0) (aget (lit "zero_generations") (axis_provenance a))).

(** What one fit may do to an axis it knows: nothing to a retired one; of the
    others it keeps the definition, records the corpus, and counts the
    generations it stayed near zero, retiring it at the second. *)
Definition next_generation (a a' : AxisNomination) : Prop :=
  axis_name a' = axis_name a ∧ axis_label a' = axis_label a ∧ axis_inputs a' = axis_inputs a ∧
  ∃ w n, (if flt w NEAR_ZERO then zero_count a = Ok (n - 1) else n = 0) ∧
    axis_provenance a' = aset (lit "latest_corpus") (JStr corpus_fingerprint)
                           (aset (lit "zero_generations") (JInt n) (axis_provenance a)) ∧
    if 2 <=? n then axis_act a' = axis_retire ∧ axis_weight a' = f0
    else axis_act a' = axis_add ∧ axis_weight a' = w ∧ axis_rationale a' = axis_rationale a.

Lemma axis_at_Ok axes axis w r : axis_at examples fit settings axes axis w = Ok r →
  r.2 = with_axis_weight w axis ∧ axes_objective examples fit settings (aset (axis_name axis) r.2 axes) = Ok r.1.
Proof. by intros (l & Hl & [= <-])%bind_Ok. Qed.

Lemma fitted_Ok axes axis r : fitted examples fit settings axes axis = Ok r →
  (∃ w, r.2 = with_axis_weight w axis) ∧ axes_objective examples fit settings (aset (axis_name axis) r.2 axes) = Ok r.1.
Proof.
  unfold fitted. intros ([low high] & _ & H)%bind_Ok. apply bind_Ok in H as (zero & [Hz Hz']%axis_at_Ok & H).
  apply bind_Ok in H as (middle & [Hm Hm']%axis_at_Ok & H). apply bind_Ok in H as (one & [Ho Ho']%axis_at_Ok & [= <-]).
  destruct (flt one.1 _); [eauto|]. destruct (flt middle.1 zero.1); eauto.
Qed.

Lemma refit_axis_Ok axes a a' :
  refit_axis examples fit settings corpus_fingerprint axes a = Ok a' → next_generation a a'.
Proof.
  unfold refit_axis. intros ([l u] & [[w Hw] _]%fitted_Ok & H)%bind_Ok. cbn [snd] in Hw. subst u.
  apply bind_Ok in H as (n & Hn & [= <-]). cbn [axis_weight with_axis_weight] in *.
  unfold next_generation.
  cbn [axis_name axis_label axis_inputs axis_provenance axis_act axis_weight axis_rationale with_axis_weight].
  split_and!; [done..|]. exists w, n. split_and!.
  - destruct (flt w NEAR_ZERO); [|by injection Hn as <-]. apply bind_Ok in Hn as (m & Hm & [= <-]).
    unfold zero_count. rewrite Hm. f_equal. lia.
  - done.
  - by destruct (2 <=? n).
Qed.

(** An axis of the incumbent after the fit. *)
Definition fitted_axis (a a' : AxisNomination) : Prop :=
  match axis_act a with axis_retire => a' = a | axis_add => next_generation a a' end.

Lemma refit_fold_Ok todo axes axes' :
  NoDup todo.*1 → (∀ na, na ∈ todo → aget na.1 axes = Some na.2) →
  res_fold (refit_step examples fit settings corpus_fingerprint) axes todo = Ok axes' →
  axes'.*1 = axes.*1 ∧ ∀ name a, aget name axes = Some a →
    ∃ a', aget name axes' = Some a' ∧ if bool_decide (name ∈ todo.*1) then fitted_axis a a' else a' = a.
Proof.
  revert axes. induction todo as [|[k x] todo IH]; intros axes Hnd Hin H; cbn [res_fold] in H.
  { injection H as <-. split; [done|]. intros name a Ha. exists a. split; [done|].
    by rewrite bool_decide_false by by intros ?%elem_of_nil. }
  apply bind_Ok in H as (axes1 & Hstep & H). rewrite fmap_cons in Hnd. cbn [fst] in Hnd. apply NoDup_cons in Hnd as [Hk Hnd].
  assert (Hx : aget k axes = Some x) by (apply (Hin (k, x)); left).
  assert (H1 : axes1.*1 = axes.*1 ∧ (∀ name, name ≠ k → aget name axes1 = aget name axes) ∧
            ∃ x', aget k axes1 = Some x' ∧ fitted_axis x x').
  { unfold refit_step in Hstep. cbn [fst snd] in Hstep. unfold fitted_axis. destruct (axis_act x).
    - apply bind_Ok in Hstep as (u & Hu%refit_axis_Ok & [= <-]). split_and!; [apply aset_keys; by rewrite Hx| |].
      + intros name Hname. by apply aget_aset_ne.
      + exists u. split; [apply aget_aset_eq|done].
    - injection Hstep as <-. split_and!; [done..|]. by exists x. }
  destruct H1 as (Hkeys & Hother & x' & Hx' & Hfit).
  destruct (IH axes1 Hnd) as [Hkeys' Hall]; [|done|].
  { intros na Hna. rewrite Hother; [apply Hin; by right|]. intros <-. by apply Hk, list_elem_of_fmap_2. }
  split; [by rewrite Hkeys'|]. intros name a Ha. rewrite fmap_cons. cbn [fst].
  destruct (decide (name = k)) as [->|Hne].
  - rewrite Hx in Ha. injection Ha as <-. destruct (Hall k x' Hx') as (a' & Ha' & Hrel). exists a'. split; [done|].
    rewrite bool_decide_false in Hrel by done. subst a'. by rewrite bool_decide_true by left.
  - rewrite <- Hother in Ha by done. destruct (Hall name a Ha) as (a' & Ha' & Hrel). exists a'. split; [done|].
    case_bool_decide as Hd; [rewrite bool_decide_true by by right|rewrite bool_decide_false by by intros [?|?]%elem_of_cons]; done.
Qed.

(** What the search for a new product may return. *)
Definition new_product (axes : list (str * AxisNomination)) (loss : float) (a : AxisNomination) : Prop :=
  (∃ lr w, lr ∈ combinations weight_names ∧ a = with_axis_weight w (new_axis examples corpus_fingerprint lr)) ∧
  aget (axis_name a) axes = None ∧ flt NEAR_ZERO (axis_weight a) = true ∧
  axes_objective examples fit settings (aset (axis_name a) a axes) = Ok loss.

Lemma candidates_fold_Ok axes lrs best loss a :
  (∀ lr, lr ∈ lrs → lr ∈ combinations weight_names) →
  res_fold (candidate_step examples fit settings corpus_fingerprint axes) best lrs = Ok (loss, Some a) →
  best = (loss, Some a) ∨ new_product axes loss a ∧ ∃ b, flt loss (fsub b BETTER) = true ∧
    (b = best.1 ∨ ∃ a0, new_product axes b a0).
Proof.
  revert best. induction lrs as [|lr lrs IH]; intros best Hin H; cbn [res_fold] in H; [by injection H as ->; left|].
  apply bind_Ok in H as (best1 & Hstep & H). apply IH in H; [|intros; apply Hin; by right]. clear IH.
  assert (Hone : best1 = best ∨ ∃ a1, best1.2 = Some a1 ∧ new_product axes best1.1 a1 ∧ flt best1.1 (fsub best.1 BETTER) = true).
  { unfold candidate_step in Hstep. case_bool_decide as Hnew; [by injection Hstep as <-; left|].
    apply bind_Ok in Hstep as ([l c] & [[w Hw] Hobj]%fitted_Ok & Hstep). cbn [fst snd] in *.
    destruct (flt l _ && _) eqn:E; injection Hstep as <-; [right|by left]. apply andb_true_iff in E as [E1 E2].
    exists c. split_and!; [done| |done]. subst c. split_and!; [eexists _, _; split; [apply Hin; left|done]| |done|done].
    cbn. destruct (aget (pair_name lr) axes); [by destruct Hnew|done]. }
  destruct Hone as [->|(a1 & Ha1 & Hp1 & Hlt)]; [done|].
  destruct H as [->|(Hp & b & Hb & [->|Hb'])].
  - right. injection Ha1 as <-. split; [done|]. exists best.1. auto.
  - right. split; [done|]. exists best1.1. eauto.
  - right. split; [done|]. exists b. eauto.
Qed.

(** The registry of axes.  A fit forgets no axis and changes no definition:
    retired axes stay as they are, each other axis is fitted again and retires,
    with weight zero, exactly when it has stayed near zero for a second
    generation.  At most one axis joins them, the product of two features under
    a name that was free, with a weight above the threshold and the loss it was
    chosen for. *)
Theorem axes_registry (incumbent axes : list (str * AxisNomination)) :
  NoDup incumbent.*1 →
  nominate_axes examples fit settings corpus_fingerprint incumbent = Ok axes →
  (∀ name a, aget name incumbent = Some a → ∃ a', aget name axes = Some a' ∧ fitted_axis a a')
  ∧ (axes.*1 = incumbent.*1
     ∨ ∃ a loss refit, axes = refit ++ [(axis_name a, a)] ∧ refit.*1 = incumbent.*1 ∧ new_product refit loss a).
Proof.
  intros Hnd. unfold nominate_axes. intros (refit & Hrefit & H)%bind_Ok.
  apply bind_Ok in H as (start & Hstart & H). apply bind_Ok in H as ([loss best] & Hbest & H).
  destruct (refit_fold_Ok (sort_axes incumbent) incumbent refit) as [Hkeys Hall]; [|..|done|].
  { unfold sort_axes. by rewrite sort_by_perm. }
  { intros [k a] Hin. unfold sort_axes in Hin. rewrite sort_by_perm in Hin. by apply aget_elem. }
  assert (Hfit : ∀ name a, aget name incumbent = Some a → ∃ a', aget name refit = Some a' ∧ fitted_axis a a').
  { intros name a Ha. destruct (Hall name a Ha) as (a' & Ha' & Hrel). exists a'. split; [done|].
    rewrite bool_decide_true in Hrel; [done|]. unfold sort_axes. rewrite sort_by_perm. apply aget_Some_elem in Ha.
    by apply (list_elem_of_fmap_2 fst) in Ha. }
  destruct best as [a|]; injection H as <-; [|by split; [|left]].
  apply candidates_fold_Ok in Hbest as [[=]|[Hp _]]; [|done]. pose proof Hp as (_ & Hnone & _). apply aget_None in Hnone.
  rewrite (aset_fresh _ _ _ Hnone). split.
  - intros name b Hb. destruct (Hfit name b Hb) as (b' & Hb' & Hrel). exists b'. split; [|done].
    rewrite <- (aset_fresh _ a _ Hnone), aget_aset_ne; [done|]. intros <-. apply Hnone.
    apply aget_Some_elem in Hb'. by apply (list_elem_of_fmap_2 fst) in Hb'.
  - right. exists a, loss, refit. by split_and!.
Qed.
End registry.


(** ** One fading axis *)
#[local] Instance sample_square : LibmSquare := {| libm_square := λ x, fmul x x |}.
#[local] Existing Instance ascii_digits.

Definition sample_fit : FitResult := {|
  fr_weights := [f1; f0; f0; f0; f0; f0]; fr_thread_weight := f0; fr_where_weight := f0; fr_tau := f_ratio 1 2;
  fr_memory_context_share := f_ratio 1 10; fr_share_tau_active := false; fr_bias_offsets := []; fr_pair_count := 1;
  fr_iterations := 0; fr_objective := f0; fr_project_offsets := [] |}.
Definition sample_fit_settings : FitSettings := {| pair_margin := f_ratio 1 2; bias_l2 := f0 |}.
Definition fading : AxisNomination := {|
  axis_name := lit "proj_and_hist"; axis_label := lit "old"; axis_inputs := (Fproj, Fhist); axis_weight := f_ratio 1 8;
  axis_act := axis_add; axis_rationale := lit "r"; axis_provenance := [(lit "zero_generations", JInt 1)] |}.
Definition sample_registry : list (str * AxisNomination) :=
  match nominate_axes [] sample_fit sample_fit_settings (lit "fp") [(lit "proj_and_hist", fading)] with
  | Ok axes => axes
  | Err _ => []
  end.

Lemma axes_registry_witness :
  (λ na, (na.1, axis_act na.2)) <$> sample_registry =
    [(lit "proj_and_hist", axis_retire)] ∧
  ∃ a', aget (lit "proj_and_hist") sample_registry = Some a' ∧ fitted_axis (lit "fp") fading a'.
Proof.
  split; [vm_compute; reflexivity|].
  assert (Hrun : nominate_axes [] sample_fit sample_fit_settings (lit "fp") [(lit "proj_and_hist", fading)] =
                 Ok sample_registry) by (vm_compute; reflexivity).
  apply (proj1 (axes_registry [] sample_fit sample_fit_settings (lit "fp") [(lit "proj_and_hist", fading)]
    sample_registry (NoDup_singleton _) Hrun)). reflexivity.
Defined.
