(* ===== verification/Creation.v ===== *)
(** * Creation outcomes: [src/src/spine/learner/creation.py]

    An append-only table of what became of created memories: the sweep that
    records a memory nobody was shown, and the scoreboard over the table.  The
    other rows are written by triggers of the database. *)
From S2P Require Import Prelude PyStr PyFloat PyJson Ids Store Annotations Learner Sql.
Open Scope Z_scope.

Record CreationOutcome := {
  co_event_key : str;
  co_memory_id : uuid;
  co_principal_id : str;
  co_machine_id : str;
  co_source : str;
  co_outcome : str;
  co_reason : str;
  co_ts : Z;
}.
Abbreviation outcomes_table := (gmap str CreationOutcome).

Section creation.
Context `{Collation}.

(** The SQL function [creation_source]: how the first revision came about. *)
Definition first_compare (a b : MemoryRevision) : comparison :=
  then_by (Z.compare (r_ts a) (r_ts b)) (text_compare (r_rev_uid a) (r_rev_uid b)).

Definition source_of (r : MemoryRevision) : str :=
  let editor := r_editor r in let reason := r_reason r in
  if bool_decide (editor = lit "compaction") then lit "compaction"
  else if bool_decide (editor = lit "extraction") then lit "extraction"
  else if bool_decide (editor = lit "user") || bool_decide (editor = lit "human") || startswith (lit "remember/") reason
       then lit "remember"
  else if startswith (lit "seed") editor || startswith (lit "seed") reason then lit "seed"
  else if startswith (lit "curation/") reason then lit "curator"
  else if startswith (lit "agent") editor then lit "agent-save" else lit "unknown".

Definition creation_source (d : db) (target : uuid) : option str :=
  source_of <$> head (sort_by (leb_of first_compare) (filter (λ r, r_memory_id r = target) (rows (revisions d)))).

(** ** [sweep_unused] *)
Definition ever_shown (d : db) (memory : uuid) : bool :=
  existsb (λ e, bool_decide (i_memory_id e = memory)
                && (bool_decide (i_shown_as e = shown_injected) || bool_decide (i_shown_as e = shown_pinned)))
    (rows (events d)).

Definition zero_key (memory : uuid) : str := lit "zero:" ++ uuid_str memory.

(** The rows the [SELECT] of the statement finds. *)
Definition unused (d : db) (principal_id : str) : list (MemoryUnit * MemoryRevision) :=
  m ← filter (λ m, m_principal_id m = principal_id ∧ m_status m = Sactive ∧ ever_shown d (m_id m) = false) (rows (units d));
  r ← filter (λ r, r_memory_id r = m_id m ∧ r_revision r = Some 1) (rows (revisions d));
  [(m, r)].

Definition zero_row (d : db) (now : Z) (mr : MemoryUnit * MemoryRevision) : CreationOutcome := {|
  co_event_key := zero_key (m_id mr.1); co_memory_id := m_id mr.1; co_principal_id := m_principal_id mr.1;
  co_machine_id := r_origin_machine_id mr.2; co_source := default [] (creation_source d (m_id mr.1));
  co_outcome := lit "zero_injection"; co_reason := lit "no injection at sweep"; co_ts := now |}.

(** [INSERT ... ON CONFLICT DO NOTHING]. *)
Definition insert_new (t : outcomes_table) (row : CreationOutcome) : outcomes_table :=
  match t !! co_event_key row with Some _ => t | None => <[co_event_key row := row]> t end.

Definition sweep_unused (principal_id : str) (now : Z) (d : db) (t : outcomes_table) : outcomes_table :=
  foldl insert_new t (zero_row d now <$> unused d principal_id).

(** ** [creation_snapshot] *)
Record SourceCard := {
  sc_source : str;
  sc_created : Z;
  sc_surviving : Z;
  sc_used : Z;
  sc_zero_injection_observed : Z;
  sc_survival_rate : option float;
  sc_outcomes : list (str * Z);
}.

Record CreationSnapshot := {
  cs_sources : list SourceCard;
  cs_events : list CreationOutcome;
  cs_hygiene_excluded_events : Z;
}.

Definition event_compare (a b : CreationOutcome) : comparison :=
  then_by (Z.compare (co_ts a) (co_ts b)) (text_compare (co_event_key a) (co_event_key b)).

Definition for_principal (principal : option str) (id : str) : bool :=
  match principal with None => true | Some p => bool_decide (id = p) end.

Definition snapshot_rows (principal : option str) (t : outcomes_table) : list CreationOutcome :=
  sort_by (leb_of event_compare) (filter (λ c, for_principal principal (co_principal_id c) = true) (rows t)).

(** The memories of annotated events. *)
Definition annotated_memories (principal : option str) (d : db) (annotated : annotations) : gset uuid :=
  list_to_set (i_memory_id <$> filter (λ e, is_Some (annotated !! i_event_uid e)
                                            ∧ for_principal principal (i_principal_id e) = true) (rows (events d))).

(** [groups[source][outcome]]. *)
Definition memories_of (events : list CreationOutcome) (outcome : str) : gset uuid :=
  list_to_set (co_memory_id <$> filter (λ e, co_outcome e = outcome) events).

(** The outcomes a card reads, which the [defaultdict] then has. *)
Definition read_outcomes : list str :=
  lit <$> ["created"; "deleted"; "rejected"; "never"; "curator_retired"; "used"; "zero_injection"]%string.

Definition source_card (group : str * list CreationOutcome) : SourceCard :=
  let '(source, events) := group in
  let mem outcome := memories_of events (lit outcome) in
  let created := mem "created"%string in
  let adverse := mem "deleted"%string ∪ mem "rejected"%string ∪ mem "never"%string ∪ mem "curator_retired"%string in
  let kinds := sort_by str_leb (remove_dups ((co_outcome <$> events) ++ read_outcomes)) in {|
  sc_source := source; sc_created := Z.of_nat (size created);
  sc_surviving := Z.of_nat (size (created ∖ adverse)); sc_used := Z.of_nat (size (created ∩ mem "used"%string));
  sc_zero_injection_observed := Z.of_nat (size (mem "zero_injection"%string));
  sc_survival_rate := if bool_decide (created = ∅) then None
                      else Some (f_ratio (Z.of_nat (size (created ∖ adverse))) (Z.of_nat (size created)));
  sc_outcomes := (λ kind, (kind, Z.of_nat (size (memories_of events kind)))) <$> kinds |}.

Section snapshot.
Context `{Unicode}.

(** A reserved identity of one row takes out the memory. *)
Definition excluded_memories (principal : option str) (d : db) (annotated : annotations) (t : outcomes_table) : gset uuid :=
  annotated_memories principal d annotated
  ∪ list_to_set (co_memory_id <$> filter (λ c, identity_is_excluded (co_principal_id c) (co_machine_id c) = true)
                                    (snapshot_rows principal t)).

Definition creation_snapshot (principal : option str) (d : db) (annotated : annotations) (t : outcomes_table) :
    CreationSnapshot :=
  let all := snapshot_rows principal t in
  let events := filter (λ c, co_memory_id c ∉ excluded_memories principal d annotated t) all in {|
  cs_sources := source_card <$> sort_by (λ a b, str_leb a.1 b.1) (group_by co_source events);
  cs_events := events;
  cs_hygiene_excluded_events := zlen all - zlen events |}.
End snapshot.
End creation.

(** ** The sweep appends once *)
Lemma insert_new_lookup t row k :
  insert_new t row !! k = match t !! k with Some c => Some c | None => if decide (co_event_key row = k) then Some row else None end.
Proof.
  unfold insert_new. destruct (t !! co_event_key row) as [c|] eqn:E.
  - destruct (t !! k) eqn:Ek; [done|]. case_decide; [congruence|done].
  - destruct (decide (co_event_key row = k)) as [<-|Hne].
    + by rewrite lookup_insert_eq, E.
    + rewrite lookup_insert_ne by done. by destruct (t !! k).
Qed.

Lemma insert_all_lookup rows t k :
  foldl insert_new t rows !! k = match t !! k with Some c => Some c | None => head (filter (λ r, co_event_key r = k) rows) end.
Proof.
  revert t. induction rows as [|r rows IH]; intros t; cbn [foldl]; [by destruct (t !! k)|].
  rewrite IH, insert_new_lookup, filter_cons. destruct (t !! k); [done|]. by case_decide.
Qed.

Lemma unused_elem d p m r :
  (m, r) ∈ unused d p ↔ m ∈ rows (units d) ∧ m_principal_id m = p ∧ m_status m = Sactive ∧ ever_shown d (m_id m) = false ∧
    r ∈ rows (revisions d) ∧ r_memory_id r = m_id m ∧ r_revision r = Some 1.
Proof.
  unfold unused. rewrite list_elem_of_bind. setoid_rewrite list_elem_of_filter. split.
  - intros (m' & Hin & Hm & ?). apply list_elem_of_bind in Hin as (r' & Hr' & Hr). apply list_elem_of_filter in Hr.
    apply list_elem_of_singleton in Hr'. injection Hr' as <- <-. tauto.
  - intros (? & ? & ? & ? & ? & ? & ?). exists m. split; [|tauto]. apply list_elem_of_bind. exists r.
    rewrite list_elem_of_filter. split; [by apply list_elem_of_singleton|done].
Qed.

Lemma sweep_lookup `{Collation} p now d t k :
  sweep_unused p now d t !! k =
  match t !! k with Some c => Some c | None => head (filter (λ r, co_event_key r = k) (zero_row d now <$> unused d p)) end.
Proof. apply insert_all_lookup. Qed.

Lemma unused_key `{Collation} p now d m r :
  (m, r) ∈ unused d p → filter (λ x, co_event_key x = zero_key (m_id m)) (zero_row d now <$> unused d p) ≠ [].
Proof.
  intros Hin E. apply (elem_of_nil (zero_row d now (m, r))). rewrite <- E. apply list_elem_of_filter.
  split; [done|by apply list_elem_of_fmap_2].
Qed.

(** The sweep records, once and for all, the first time a memory is found
    unused.  It keeps every row there is; it adds rows only for active memories
    of the principal that were never injected or pinned; each such memory has
    its row afterwards; and a later sweep of the same library changes nothing. *)
Theorem sweep_appends_once `{Collation} (p : str) (now later : Z) (d : db) (t : outcomes_table) :
  let t' := sweep_unused p now d t in
  t ⊆ t'
  ∧ (∀ k c, t' !! k = Some c → t !! k = None → ∃ m r, (m, r) ∈ unused d p ∧ c = zero_row d now (m, r) ∧ k = zero_key (m_id m))
  ∧ (∀ m r, (m, r) ∈ unused d p → is_Some (t' !! zero_key (m_id m)))
  ∧ sweep_unused p later d t' = t'.
Proof.
  cbn zeta. split_and!.
  - apply map_subseteq_spec. intros k c Hc. by rewrite sweep_lookup, Hc.
  - intros k c Hc Hk. rewrite sweep_lookup, Hk in Hc. apply head_Some_elem_of in Hc.
    apply list_elem_of_filter in Hc as [<- Hc]. apply list_elem_of_fmap in Hc as ([m r] & -> & Hin). by exists m, r.
  - intros m r Hin. rewrite sweep_lookup. destruct (t !! _); [by eexists|].
    apply (unused_key p now) in Hin. by destruct (filter _ _) as [|x l]; [|exists x].
  - apply map_eq. intros k. rewrite sweep_lookup. destruct (sweep_unused p now d t !! k) eqn:Ek; [done|].
    destruct (filter _ _) as [|x l] eqn:E; [done|]. exfalso.
    assert (Hx : x ∈ filter (λ r, co_event_key r = k) (zero_row d later <$> unused d p)) by (rewrite E; left).
    apply list_elem_of_filter in Hx as [<- Hx]. apply list_elem_of_fmap in Hx as ([m r] & -> & Hin).
    rewrite sweep_lookup in Ek. cbn [co_event_key zero_row fst] in Ek. destruct (t !! _); [done|].
    apply (unused_key p now) in Hin. by destruct (filter _ _).
Qed.

(** ** The scoreboard *)
Lemma memories_elem events outcome m : m ∈ memories_of events outcome ↔ ∃ e, e ∈ events ∧ co_outcome e = outcome ∧ co_memory_id e = m.
Proof.
  unfold memories_of. rewrite elem_of_list_to_set, list_elem_of_fmap. setoid_rewrite list_elem_of_filter.
  split; [intros (e & -> & ? & ?); eauto|intros (e & ? & ? & <-); eauto].
Qed.

(** The scoreboard of creation.  Hygiene takes whole memories: an event
    is listed exactly when no annotation and no row of its memory excludes it,
    and listed and excluded events are all of the principal's.  In each source's
    card the survivors are the created memories that nothing adverse happened
    to, survivors and lost are all the created, and what is used was created. *)
Theorem scoreboard_counts `{Collation} `{Unicode} (principal : option str) (d : db) (annotated : annotations) (t : outcomes_table) :
  let s := creation_snapshot principal d annotated t in
  (∀ c, c ∈ cs_events s ↔ c ∈ snapshot_rows principal t ∧ co_memory_id c ∉ annotated_memories principal d annotated ∧
     ∀ c', c' ∈ snapshot_rows principal t → co_memory_id c' = co_memory_id c →
       identity_is_excluded (co_principal_id c') (co_machine_id c') = false)
  ∧ zlen (cs_events s) + cs_hygiene_excluded_events s = zlen (filter (λ c, for_principal principal (co_principal_id c) = true) (rows t))
  ∧ StronglySorted (λ a b, str_leb (sc_source a) (sc_source b) = true) (cs_sources s)
  ∧ ∀ card, card ∈ cs_sources s →
      let events := filter (λ c, co_source c = sc_source card) (cs_events s) in
      let happened m (o : string) := ∃ e, e ∈ events ∧ co_memory_id e = m ∧ co_outcome e = lit o in
      ∃ created surviving lost used : gset uuid,
        (∀ m, m ∈ created ↔ happened m "created") ∧
        (∀ m, m ∈ lost ↔ m ∈ created ∧ (happened m "deleted" ∨ happened m "rejected" ∨ happened m "never" ∨ happened m "curator_retired")) ∧
        (∀ m, m ∈ surviving ↔ m ∈ created ∧ m ∉ lost) ∧ (∀ m, m ∈ used ↔ m ∈ created ∧ happened m "used") ∧
        sc_created card = Z.of_nat (size created) ∧ sc_surviving card = Z.of_nat (size surviving) ∧
        sc_used card = Z.of_nat (size used) ∧ sc_surviving card + Z.of_nat (size lost) = sc_created card.
Proof.
  cbn zeta. split_and!.
  - intros c. unfold creation_snapshot. cbn [cs_events]. rewrite list_elem_of_filter. unfold excluded_memories.
    rewrite not_elem_of_union, elem_of_list_to_set, list_elem_of_fmap. setoid_rewrite list_elem_of_filter. split.
    + intros [[Ha Hi] Hc]. split_and!; [done..|]. intros c' Hc' Hm. apply not_true_is_false. intros E. apply Hi. by exists c'.
    + intros (Hc & Ha & Hi). split_and!; [done| |done]. intros (c' & Hm & E & Hc'). by rewrite Hi in E.
  - unfold creation_snapshot. cbn [cs_events cs_hygiene_excluded_events]. unfold snapshot_rows at 2.
    unfold zlen. rewrite sort_by_perm. lia.
  - unfold creation_snapshot. cbn [cs_sources].
    assert (Hs : ∀ l : list (str * list CreationOutcome), StronglySorted (λ a b, str_leb a.1 b.1 = true) l →
      StronglySorted (λ a b, str_leb (sc_source a) (sc_source b) = true) (source_card <$> l)).
    { induction 1 as [|[s l] ls _ IH Hle]; [constructor|]. rewrite fmap_cons. constructor; [done|].
      apply Forall_fmap. eapply Forall_impl; [exact Hle|]. by intros []. }
    apply Hs, (sort_by_sorted _ (λ _, True)); [| |by apply Forall_true].
    + intros a b _ _. apply str_leb_total.
    + intros a b c _ _ _. apply str_leb_trans.
  - intros card Hcard. unfold creation_snapshot in Hcard |- *. cbn [cs_sources cs_events] in Hcard |- *.
    set (listed := filter (λ c, co_memory_id c ∉ _) _) in Hcard |- *.
    apply list_elem_of_fmap in Hcard as ([source group] & -> & Hg). rewrite sort_by_perm in Hg.
    apply group_by_elem in Hg as [-> _]. cbn [sc_source source_card sc_created sc_surviving sc_used].
    set (events := filter (λ x, co_source x = source) listed).
    set (created := memories_of events (lit "created")).
    set (adverse := memories_of events (lit "deleted") ∪ memories_of events (lit "rejected")
                    ∪ memories_of events (lit "never") ∪ memories_of events (lit "curator_retired")).
    exists created, (created ∖ adverse), (created ∩ adverse), (created ∩ memories_of events (lit "used")).
    assert (Hmem : ∀ m (o : string), m ∈ memories_of events (lit o) ↔ ∃ e, e ∈ events ∧ co_memory_id e = m ∧ co_outcome e = lit o).
    { intros m o. rewrite memories_elem. naive_solver. }
    split_and!; try done.
    + intros m. apply Hmem.
    + intros m. unfold adverse. rewrite elem_of_intersection, !elem_of_union, !Hmem. tauto.
    + intros m. rewrite elem_of_difference, elem_of_intersection. tauto.
    + intros m. by rewrite elem_of_intersection, Hmem.
    + rewrite <- Nat2Z.inj_add. f_equal. rewrite <- size_union by set_solver. f_equal. apply leibniz_equiv.
      intros m. rewrite elem_of_union, elem_of_difference, elem_of_intersection. destruct (decide (m ∈ adverse)); tauto.
Qed.
