(* ===== verification/LearnerService.v ===== *)
(** * The learner service: [src/src/spine/learner/service.py]

    A retrain is one transaction under the learner's lock.  It sweeps creation
    outcomes, reads the log as evidence, fits a challenger on a bounded corpus,
    stores a winner as an inactive scorer configuration named by the digest of
    everything it was made from, and appends the receipts of the run. *)
From Stdlib Require Import SpecFloat.
From S2P Require Import Prelude PyStr PyFloat PyDecimal PyJson JsonText PyTime Ids Axes Scorer Features Store MemoryDb Sql.
From S2P Require Import Annotations Transcripts Queue Learner Prepare Evidence Corpus Nominate Creation.
Open Scope Z_scope.

(** ** Data *)
Definition ALGORITHM_ID : str := lit "m3ll-project-offsets-transparent-axes-v4".
Definition SHARE_TUNING_MINIMUM : Z := 100.

Record LearnerSettings := {
  ls_min_dispositions : Z;
  ls_holdout_fraction : float;
  ls_passive_discount : float;
  ls_pair_margin : float;
  ls_bias_l2 : float;
  ls_win_margin : float;
}.

Definition settings_fields (s : LearnerSettings) : list (str * json) :=
  [(lit "min_dispositions", JInt (ls_min_dispositions s)); (lit "holdout_fraction", JFloat (ls_holdout_fraction s));
   (lit "passive_discount", JFloat (ls_passive_discount s)); (lit "pair_margin", JFloat (ls_pair_margin s));
   (lit "bias_l2", JFloat (ls_bias_l2 s)); (lit "win_margin", JFloat (ls_win_margin s))].

Record OptimizationTrigger := { ot_event_uid : str; ot_thread_id : option uuid }.

Inductive run_status := insufficient_data | not_better | proposed.
#[export] Instance run_status_eq_dec : EqDecision run_status.
Proof. solve_decision. Defined.
Definition run_status_str (s : run_status) : str :=
  match s with insufficient_data => lit "insufficient_data" | not_better => lit "not_better" | proposed => lit "proposed" end.

Inductive run_trigger := manual | background.
#[export] Instance run_trigger_eq_dec : EqDecision run_trigger.
Proof. solve_decision. Defined.

(** [ReplayScoreView]. *)
Record ReplayScoreView := {
  rv_disagreements : Z;
  rv_weighted_disagreements : str;
  rv_injected_tokens : Z;
  rv_share_disagreements : Z;
  rv_weighted_share_disagreements : str;
}.

Record RetrainResponse := {
  rr_status : run_status;
  rr_incumbent_version : str;
  rr_proposal_version : option str;
  rr_eligible_dispositions : Z;
  rr_training_dispositions : Z;
  rr_holdout_dispositions : Z;
  rr_training_pairs : Z;
  rr_incumbent : option ReplayScoreView;
  rr_challenger : option ReplayScoreView;
  rr_reason : str;
}.

Record OptimizationOutcome := {
  oo_response : RetrainResponse;
  oo_incumbent_params : json;
  oo_challenger_params : option json;
  oo_backtest_scores : json;
  oo_tie_break_applied : json;
}.

(** *** Rows *)
Record LearnerRun := {
  lr_run_uid : str;
  lr_trigger : run_trigger;
  lr_response : RetrainResponse;
  lr_source_boundary : option str;
  lr_ts : Z;
}.

Record OptimizationRun := {
  or_run_uid : str;
  or_trigger_kind : run_trigger;
  or_trigger : OptimizationTrigger;
  or_corpus : BalancedCorpus;
  or_outcome : OptimizationOutcome;
  or_started_at : Z;
  or_completed_at : Z;
}.

Record RetrainJob := { rj_job_id : str; rj_result : option RetrainResponse; rj_error : option str }.

Record learner_db := {
  ld_db : db;
  ld_annotations : annotations;
  ld_creation : outcomes_table;
  ld_runs : gmap str LearnerRun;
  ld_optimizations : gmap str OptimizationRun;
  ld_jobs : gmap str RetrainJob;
}.

(** ** Manifests *)
Definition score_manifest (s : ReplayScore) : json := JObj
  [(lit "disagreements", JInt (disagreements s));
   (lit "weighted_disagreements", JStr (str_of_dec (weighted_disagreements s)));
   (lit "injected_tokens", JInt (injected_tokens s)); (lit "share_disagreements", JInt (share_disagreements s));
   (lit "weighted_share_disagreements", JStr (str_of_dec (weighted_share_disagreements s)))].

Definition score_view (s : ReplayScore) : ReplayScoreView := {|
  rv_disagreements := disagreements s; rv_weighted_disagreements := str_of_dec (weighted_disagreements s);
  rv_injected_tokens := injected_tokens s; rv_share_disagreements := share_disagreements s;
  rv_weighted_share_disagreements := str_of_dec (weighted_share_disagreements s) |}.

Definition config_parameter_manifest (row : ScorerConfigRow) : json :=
  JObj [(lit "version", JStr (sc_version row)); (lit "weights", sc_weights row); (lit "params", sc_params row)].

Definition cost_manifest (score : ReplayScore) (share tau : float) : json :=
  JObj [(lit "injected_tokens", JInt (injected_tokens score)); (lit "memory_context_share", JFloat share);
        (lit "tau", JFloat tau)].

Definition tie_break_manifest (incumbent challenger : ReplayScore) (margin : dec)
    (incumbent_share challenger_share incumbent_tau challenger_tau : float) (winner : bool) : json :=
  let improvement := dec_sub (weighted_disagreements incumbent) (weighted_disagreements challenger) in
  let who := JStr (if winner then lit "challenger" else lit "incumbent") in
  if dec_eqb improvement d0 then
    JObj [(lit "applied", JBool true); (lit "rule", JStr (lit "cheaper_at_exact_tie")); (lit "winner", who);
          (lit "incumbent_cost", cost_manifest incumbent incumbent_share incumbent_tau);
          (lit "challenger_cost", cost_manifest challenger challenger_share challenger_tau)]
  else
    JObj [(lit "applied", JBool false); (lit "rule", JStr (lit "replay_margin")); (lit "winner", who);
          (lit "weighted_improvement", JStr (str_of_dec improvement)); (lit "required_margin", JStr (str_of_dec margin))].

(** [LearnerService.manifest]: the registry of what may be trained. *)
Definition trainables (minimum : Z) : list (str * str * option Z * str) :=
  let row (parameter loop : string) floor (status : string) := (lit parameter, lit loop, floor, lit status) in
  ((λ name, (lit "weight." ++ lit name, lit "injection_scoring", Some minimum, lit "trained")) <$> weight_names)
  ++ [row "thread_weight" "injection_scoring" (Some minimum) "trained";
      row "where_weight" "injection_scoring" (Some minimum) "trained";
      row "bias_offsets" "injection_scoring" (Some minimum) "trained";
      row "project_offsets" "injection_scoring" (Some minimum) "trained";
      row "tau" "injection_scoring" (Some 100) "trained";
      row "memory_context_share" "injection_scoring" (Some 100) "trained";
      row "location_weight" "injection_scoring" None "configured";
      row "half_life_time_days" "injection_scoring" None "configured";
      row "half_life_hist_days" "injection_scoring" None "configured";
      row "half_life_location_hops" "injection_scoring" None "configured";
      row "corpus_max_dispositions" "injection_scoring" None "configured";
      row "f_sess" "injection_scoring" None "replay_only";
      row "compaction_instructions" "creation" None "signals_only";
      row "memory_size_cap" "creation" None "unbuilt";
      row "dedup_bands" "creation" None "configured";
      row "curator_review_sim" "creation" None "configured";
      row "axes" "scorer_structure" (Some minimum) "proposed_then_owner_activation";
      row "optimizer" "beyond" None "gated";
      row "model_weights" "beyond" None "gated";
      row "role_model_policies" "beyond" None "configured";
      row "return_share_percent" "beyond" None "configured";
      row "return_share_bounds" "beyond" None "configured"]%string.

Definition trainable_row (eligible : Z) (t : str * str * option Z * str) : json :=
  let '(parameter, loop, floor, status) := t in
  JObj [(lit "parameter", JStr parameter); (lit "loop", JStr loop); (lit "floor", json_option JInt floor);
        (lit "status", JStr (match floor with Some f => if eligible <? f then lit "frozen" else status | None => status end))].

Definition axis_row (minimum : Z) (na : str * AxisNomination) : json :=
  let a := na.2 in
  JObj [(lit "parameter", JStr (lit "axes." ++ na.1 ++ lit ".weight")); (lit "loop", JStr (lit "scorer_structure"));
        (lit "floor", JInt minimum);
        (lit "status", JStr (match axis_act a with axis_retire => lit "retired" | axis_add => lit "trainable" end));
        (lit "definition", JStr (lit (feature_key (axis_inputs a).1) ++ [32; 215; 32]%N ++ lit (feature_key (axis_inputs a).2)));
        (lit "label", JStr (axis_label a))].

Definition manifest (eligible minimum : Z) (axes : list (str * AxisNomination)) : json :=
  JList ((trainable_row eligible <$> trainables minimum) ++ (axis_row minimum <$> sort_axes axes)).

(** [AxisNomination.model_dump(mode="json")]. *)
Definition dump_axis (a : AxisNomination) : json :=
  JObj [(lit "name", JStr (axis_name a)); (lit "label", JStr (axis_label a)); (lit "operation", JStr (lit "product"));
        (lit "inputs", JList [JStr (lit (feature_key (axis_inputs a).1)); JStr (lit (feature_key (axis_inputs a).2))]);
        (lit "weight", JFloat (axis_weight a));
        (lit "action", JStr (match axis_act a with axis_add => lit "axis_add" | axis_retire => lit "axis_retire" end));
        (lit "rationale", JStr (axis_rationale a)); (lit "provenance", JObj (axis_provenance a))].

(** ** The digest of a proposal *)
Definition shown_str (s : ShownAs) : str :=
  match s with
  | shown_injected => lit "injected" | shown_near_miss => lit "near_miss"
  | shown_pinned => lit "pinned" | shown_budget_cut => lit "budget_cut"
  end.

Definition boundary_kind_str (k : boundary_kind) : str :=
  match k with
  | valuable_budget_cut => lit "valuable_budget_cut" | marginal_uncited => lit "marginal_uncited"
  | marginal_removed => lit "marginal_removed" | pin_overflow => lit "pin_overflow"
  end.

Definition canonical_example (e : LearningExample) : json :=
  JObj [(lit "event_uid", JStr (le_event_uid e)); (lit "injection_id", JStr (uuid_str (le_injection_id e)));
        (lit "memory_id", JStr (uuid_str (le_memory_id e))); (lit "ts", JStr (isoformat (le_ts e)));
        (lit "features", JList (JFloat <$> le_features e)); (lit "project_key", json_option JStr (le_project_key e));
        (lit "baseline_bias", JFloat (le_baseline_bias e)); (lit "target_injected", JBool (le_target_injected e));
        (lit "actor_weight", JStr (str_of_dec (le_actor_weight e))); (lit "shown_as", JStr (shown_str (le_shown_as e)));
        (lit "body_tokens", JInt (le_body_tokens e)); (lit "location_feature", json_option JFloat (le_location_feature e));
        (lit "location_weight", JFloat (le_location_weight e)); (lit "thread_feature", json_option JFloat (le_thread_feature e));
        (lit "where_feature", json_option JFloat (le_where_feature e)); (lit "where_weight", JFloat (le_where_weight e))].

Definition canonical_boundary (b : ShareBoundary) : json :=
  JObj [(lit "event_uid", JStr (sb_event_uid b)); (lit "injection_id", JStr (uuid_str (sb_injection_id b)));
        (lit "required_share", JFloat (sb_required_share b)); (lit "target_at_least", JBool (sb_target_at_least b));
        (lit "actor_weight", JStr (str_of_dec (sb_actor_weight b))); (lit "kind", JStr (boundary_kind_str (sb_kind b)))].

Definition canonical_digest `{Sha256} (incumbent_version : str) (training holdout : list LearningExample)
    (boundaries : list ShareBoundary) (settings : json) : str :=
  sha256_hex (json_dumps (JObj
    [(lit "incumbent_version", JStr incumbent_version); (lit "training", JList (canonical_example <$> training));
     (lit "holdout", JList (canonical_example <$> holdout));
     (lit "share_boundaries", JList (canonical_boundary <$> boundaries)); (lit "settings", settings)])).

(** ** Outcomes *)
Definition insufficient_outcome (incumbent : ScorerConfigRow) (eligible training holdout : Z) (reason : str) :
    OptimizationOutcome :=
  let not_scored := JObj [(lit "status", JStr (lit "not_scored")); (lit "reason", JStr reason)] in {|
  oo_response := {| rr_status := insufficient_data; rr_incumbent_version := sc_version incumbent;
    rr_proposal_version := None; rr_eligible_dispositions := eligible; rr_training_dispositions := training;
    rr_holdout_dispositions := holdout; rr_training_pairs := 0; rr_incumbent := None; rr_challenger := None;
    rr_reason := reason |};
  oo_incumbent_params := config_parameter_manifest incumbent; oo_challenger_params := None;
  oo_backtest_scores := JObj [(lit "train", not_scored); (lit "holdout", not_scored)];
  oo_tie_break_applied := JObj [(lit "applied", JBool false); (lit "rule", JStr (lit "not_scored")); (lit "reason", JStr reason)] |}.

(** [except ValueError as error: return _insufficient_outcome(...)]. *)
Definition or_insufficient {A B} (r : res pyexn A) (insufficient : str → B) (k : A → res learner_error B) :
    res learner_error B :=
  match r with
  | Ok a => k a
  | Err (ValueError message) => Ok (insufficient (lit message))
  | Err e => Err (LearnerRaised e)
  end.

Definition drop_key (key : string) (d : list (str * json)) : list (str * json) := filter (λ kv, kv.1 ≠ lit key) d.
Definition has_key (key : string) (d : list (str * json)) : bool := bool_decide (is_Some (aget (lit key) d)).
(** [if condition: d[key] = value]. *)
Definition set_if (condition : bool) (key : string) (value : json) (d : list (str * json)) : list (str * json) :=
  if condition then aset (lit key) value d else d.

(** The parameters of a row that was read as a configuration are an object. *)
Definition params_of (row : ScorerConfigRow) : list (str * json) :=
  match sc_params row with JObj kv => kv | _ => [] end.

Definition proposed_before (row : ScorerConfigRow) : bool :=
  match aget (lit "_learner") (params_of row) with Some (JObj _) => true | _ => false end.

(** [==] of two replay scores. *)
Definition score_eqb (a b : ReplayScore) : bool :=
  (disagreements a =? disagreements b) && dec_eqb (weighted_disagreements a) (weighted_disagreements b)
  && (injected_tokens a =? injected_tokens b) && (share_disagreements a =? share_disagreements b)
  && dec_eqb (weighted_share_disagreements a) (weighted_share_disagreements b).

(** An axis the incumbent still weighs is retired. *)
Definition retires_term (incumbent axes : list (str * AxisNomination)) : bool :=
  existsb (λ na : str * AxisNomination,
    match axis_act na.2, aget na.1 incumbent with axis_retire, Some old => flt f0 (axis_weight old) | _, _ => false end) axes.

Definition weights_json (weights : list float) : json := JObj (zip (lit <$> weight_names) (JFloat <$> weights)).
Definition biases_json (biases : list (uuid * float)) : json :=
  JObj ((λ kv, (uuid_str kv.1, JFloat kv.2)) <$> sort_by (λ a b : uuid * float, (a.1 <=? b.1)%N) biases).
Definition offsets_json (offsets : list (str * list (string * float))) : json :=
  JObj ((λ p, (p.1, JObj ((λ nv : string * float, (lit nv.1, JFloat nv.2)) <$> p.2))) <$> offsets).
Definition axes_json (axes : list (str * AxisNomination)) : json := JObj ((λ na, (na.1, dump_axis na.2)) <$> axes).

Definition set_localities (fit : FitResult) (d : list (str * json)) : list (str * json) :=
  let d := set_if (has_key "thread_weight" d || negb (feq (fr_thread_weight fit) f0)) "thread_weight"
             (JFloat (fr_thread_weight fit)) d in
  let d := set_if (has_key "where_weight" d || negb (feq (fr_where_weight fit) f0)) "where_weight"
             (JFloat (fr_where_weight fit)) d in
  let d := set_if (fr_share_tau_active fit) "tau" (JFloat (fr_tau fit)) d in
  set_if (fr_share_tau_active fit) "memory_context_share" (JFloat (fr_memory_context_share fit)) d.

(** [evaluated_params]. *)
Definition evaluated_params (fit : FitResult) (axes : list (str * AxisNomination)) (params : list (str * json)) :
    list (str * json) :=
  let d := drop_key "_learner" (drop_key "_control" params) in
  let d := set_if (bool_decide (fr_project_offsets fit ≠ []) || has_key "project_offsets" d) "project_offsets"
             (offsets_json (fr_project_offsets fit)) d in
  let d := set_if (bool_decide (axes ≠ []) || has_key "axes" d) "axes" (axes_json axes) d in
  aset (lit "bias_offsets") (biases_json (fr_bias_offsets fit)) (set_localities fit d).

Section service.
Context `{Unicode} `{Tokenizer} `{PyRepr} `{Sha256} `{LibmSquare} `{DecimalDigits} `{Collation} {AD : AxisDecoder} {PG : Postgres}.
Context (settings : LearnerSettings) (owner_principal_id : str).
Context (retrain_signal_stride corpus_max_dispositions : Z).

Definition settings_manifest (eligible : Z) (axes : list (str * AxisNomination)) : json :=
  JObj (settings_fields settings
        ++ [(lit "corpus_max_dispositions", JInt corpus_max_dispositions);
            (lit "trainables", manifest eligible (ls_min_dispositions settings) axes)]).

(** What the digest covers besides the examples. *)
Definition digest_manifest (active : ScorerConfigRow) (eligible : Z) (axes : list (str * AxisNomination))
    (corpus : BalancedCorpus) : json :=
  JObj ([(lit "algorithm", JStr ALGORITHM_ID); (lit "learner", settings_manifest eligible axes);
         (lit "incumbent_weights", sc_weights active); (lit "incumbent_params", sc_params active);
         (lit "corpus_fingerprint", JStr (bc_fingerprint corpus));
         (lit "corpus_strategy", JStr (lit "thread_round_robin_newest_oldest_v1"))]
        ++ if has_key "_control" (params_of active)
           then [(lit "proposal_encoding", JStr (lit "learner_without_control_v1"))] else []).

(** The [_learner] entry of a proposal. *)
Definition learner_entry (fit : FitResult) (digest : str) (eligible : Z) (axes : list (str * AxisNomination))
    (corpus : BalancedCorpus) (holdout : list LearningExample) (cutoff : Z) (incumbent challenger : ReplayScore) :
    list (str * json) :=
  [(lit "status", JStr (lit "proposed")); (lit "algorithm", JStr ALGORITHM_ID); (lit "source_digest", JStr digest);
   (lit "source_boundary", JStr (default [] (last (sort_by str_leb (le_event_uid <$> bc_examples corpus)))));
   (lit "training_cutoff", JStr (isoformat cutoff)); (lit "holdout_dispositions", JInt (zlen holdout));
   (lit "holdout_weight", JStr (str_of_dec (foldl dec_add d0 (le_actor_weight <$> holdout))));
   (lit "settings", settings_manifest eligible axes);
   (lit "fit", JObj [(lit "iterations", JInt (fr_iterations fit)); (lit "objective", JFloat (fr_objective fit));
      (lit "training_pairs", JInt (fr_pair_count fit)); (lit "thread_weight", JFloat (fr_thread_weight fit));
      (lit "where_weight", JFloat (fr_where_weight fit)); (lit "tau", JFloat (fr_tau fit));
      (lit "memory_context_share", JFloat (fr_memory_context_share fit));
      (lit "share_tau_active", JBool (fr_share_tau_active fit))]);
   (lit "replay", JObj [(lit "incumbent", score_manifest incumbent); (lit "challenger", score_manifest challenger)]);
   (lit "bias_offsets", biases_json (fr_bias_offsets fit))].

(** [proposal_params]: the active parameters with what was evaluated. *)
Definition proposal_params (fit : FitResult) (evaluated params learner : list (str * json)) : list (str * json) :=
  let d := set_if (has_key "project_offsets" evaluated) "project_offsets" (jget_or_null (lit "project_offsets") evaluated) params in
  let d := set_if (has_key "axes" evaluated) "axes" (jget_or_null (lit "axes") evaluated) d in
  let d := drop_key "_control" d in
  set_localities fit (aset (lit "_learner") (JObj learner) d).

(** A stored proposal of the same name must have the same content, or that of
    an encoding before some fields of [_learner]. *)
Definition without_learner_field (key : string) (params : list (str * json)) : list (str * json) :=
  match aget (lit "_learner") params with
  | Some (JObj learner) => aset (lit "_learner") (JObj (drop_key key learner)) params
  | _ => params
  end.

Definition same_proposal (existing : ScorerConfigRow) (weights : json) (params : list (str * json)) : bool :=
  let with_count := without_learner_field "holdout_weight" params in
  let without_count := without_learner_field "holdout_dispositions" with_count in
  py_eqb (sc_weights existing) weights
  && (py_eqb (sc_params existing) (JObj params) || py_eqb (sc_params existing) (JObj with_count)
      || py_eqb (sc_params existing) (JObj without_count)).

(** ** [_fit] *)
Definition challenger_of (fit : FitResult) (axes : list (str * AxisNomination)) : Challenger := {|
  ch_weights := fr_weights fit; ch_bias_offsets := fr_bias_offsets fit; ch_thread_weight := fr_thread_weight fit;
  ch_where_weight := fr_where_weight fit; ch_tau := fr_tau fit; ch_project_offsets := fr_project_offsets fit;
  ch_axes := axes |}.

Definition fit_settings_of : FitSettings := {| pair_margin := ls_pair_margin settings; bias_l2 := ls_bias_l2 settings |}.

Definition fit_request (incumbent : ScorerConfig) (boundaries : list ShareBoundary) (tune : bool) : FitRequest := {|
  incumbent_weights := weight_values (weights incumbent);
  incumbent_thread_weight := thread_weight (params incumbent); incumbent_where_weight := where_weight (params incumbent);
  incumbent_tau := tau (params incumbent); incumbent_memory_context_share := memory_context_share (params incumbent);
  fit_share_boundaries := boundaries; tune_share_and_tau := tune; fit_settings := fit_settings_of |}.

Definition boundaries_in (examples : list LearningExample) (boundaries : list ShareBoundary) : list ShareBoundary :=
  filter (λ b, sb_injection_id b ∈ (le_injection_id <$> examples)) boundaries.

(** The challenger, its axes and the four replay scores. *)
Record evaluation := {
  va_fit : FitResult;
  va_axes : list (str * AxisNomination);
  va_incumbent_training : ReplayScore;
  va_challenger_training : ReplayScore;
  va_incumbent : ReplayScore;
  va_challenger : ReplayScore;
}.

Definition evaluate (incumbent : ScorerConfig) (fingerprint : str) (fit : FitResult)
    (training holdout : list LearningExample) (training_boundaries holdout_boundaries : list ShareBoundary) :
    res pyexn evaluation :=
  let share := memory_context_share (params incumbent) in
  incumbent_training ← recorded_score training training_boundaries share;
  axes ← nominate_axes training fit fit_settings_of fingerprint (axes incumbent);
  challenger_training ← challenger_score training (challenger_of fit axes) training_boundaries (fr_memory_context_share fit);
  incumbent_score ← recorded_score holdout holdout_boundaries share;
  fitted_score ← challenger_score holdout (challenger_of fit axes) holdout_boundaries (fr_memory_context_share fit);
  Ok {| va_fit := fit; va_axes := axes; va_incumbent_training := incumbent_training;
        va_challenger_training := challenger_training; va_incumbent := incumbent_score; va_challenger := fitted_score |}.

Definition win_margin : dec := dec_of_repr (ls_win_margin settings).

(** The verdict: the margin, or a retired term at an exact tie. *)
Definition wins (incumbent : ScorerConfig) (v : evaluation) : bool :=
  challenger_wins (va_incumbent v) (va_challenger v) win_margin
  || retires_term (axes incumbent) (va_axes v) && score_eqb (va_challenger v) (va_incumbent v).

Definition backtest_scores (v : evaluation) : json :=
  JObj [(lit "train", JObj [(lit "incumbent", score_manifest (va_incumbent_training v));
                            (lit "challenger", score_manifest (va_challenger_training v))]);
        (lit "holdout", JObj [(lit "incumbent", score_manifest (va_incumbent v));
                              (lit "challenger", score_manifest (va_challenger v))])].

(** The outcome of a fit that was evaluated, as a candidate or a proposal. *)
Definition evaluated_outcome (active : ScorerConfigRow) (incumbent : ScorerConfig) (v : evaluation)
    (eligible training holdout : Z) (status : run_status) (version : option str) (params : list (str * json)) (reason : str) :
    OptimizationOutcome := {|
  oo_response := {| rr_status := status; rr_incumbent_version := Scorer.version incumbent; rr_proposal_version := version;
    rr_eligible_dispositions := eligible; rr_training_dispositions := training; rr_holdout_dispositions := holdout;
    rr_training_pairs := fr_pair_count (va_fit v); rr_incumbent := Some (score_view (va_incumbent v));
    rr_challenger := Some (score_view (va_challenger v)); rr_reason := reason |};
  oo_incumbent_params := config_parameter_manifest active;
  oo_challenger_params := Some (JObj [(lit "version", json_option JStr version);
    (lit "weights", weights_json (fr_weights (va_fit v))); (lit "params", JObj params)]);
  oo_backtest_scores := backtest_scores v;
  oo_tie_break_applied := tie_break_manifest (va_incumbent v) (va_challenger v) win_margin
    (memory_context_share (Scorer.params incumbent)) (fr_memory_context_share (va_fit v)) (tau (Scorer.params incumbent))
    (fr_tau (va_fit v)) (wins incumbent v) |}.

(** The version and the parameters of a winner. *)
Definition proposal (active : ScorerConfigRow) (incumbent : ScorerConfig) (v : evaluation) (eligible : Z)
    (corpus : BalancedCorpus) (training holdout : list LearningExample) (training_boundaries : list ShareBoundary)
    (cutoff : Z) : str * list (str * json) :=
  let fit := va_fit v in
  let digest := canonical_digest (Scorer.version incumbent) training holdout training_boundaries
                  (digest_manifest active eligible (va_axes v) corpus) in
  let learner := learner_entry fit digest eligible (va_axes v) corpus holdout cutoff (va_incumbent v) (va_challenger v) in
  (lit "m2f-" ++ take 16 digest,
   proposal_params fit (evaluated_params fit (va_axes v) (params_of active)) (params_of active) learner).

(** [_fit]: the outcome, and the row to insert when a winner is new. *)
Definition fit_corpus (configs : gmap str ScorerConfigRow) (active : ScorerConfigRow) (incumbent : ScorerConfig)
    (eligible now : Z) (corpus : BalancedCorpus) : res learner_error (OptimizationOutcome * option ScorerConfigRow) :=
  let insufficient training holdout reason := (insufficient_outcome active eligible training holdout reason, None) in
  let examples := bc_examples corpus in
  if negb (existsb proposed_before (rows configs)) && (eligible <? ls_min_dispositions settings) then
    Ok (insufficient 0 0 (lit "Not enough authentic signals yet: " ++ str_of_Z eligible ++ lit " / "
                          ++ str_of_Z (ls_min_dispositions settings) ++ lit " available."))
  else
    or_insufficient (split_gates examples (ls_holdout_fraction settings)) (insufficient 0 0)
      (λ '(training, holdout, cutoff),
    let training_boundaries := boundaries_in training (bc_share_boundaries corpus) in
    let holdout_boundaries := boundaries_in holdout (bc_share_boundaries corpus) in
    let tune := SHARE_TUNING_MINIMUM <=? zlen examples in
    or_insufficient (fit_pairwise training (fit_request incumbent training_boundaries tune))
      (insufficient (zlen training) (zlen holdout)) (λ fit,
    v ← raised (evaluate incumbent (bc_fingerprint corpus) fit training holdout training_boundaries holdout_boundaries);
    if wins incumbent v then
      let '(version, params) := proposal active incumbent v eligible corpus training holdout training_boundaries cutoff in
      let weights := weights_json (fr_weights fit) in
      inserted ← match configs !! version with
                 | None => Ok (Some {| sc_version := version; sc_weights := weights; sc_params := JObj params;
                                       sc_created_at := now; sc_active := false |})
                 | Some existing =>
                     guard_ (same_proposal existing weights params)
                       (LearnerDataError (lit "content-addressed scorer proposal " ++ version
                                          ++ lit " does not match stored content"));;
                     Ok None
                 end;
      Ok (evaluated_outcome active incumbent v eligible (zlen training) (zlen holdout) proposed (Some version) params
            (lit "Proposal " ++ version ++ lit " is ready to audition. It won the back-test; current values keep serving until activation."),
          inserted)
    else
      Ok (evaluated_outcome active incumbent v eligible (zlen training) (zlen holdout) not_better None
            (evaluated_params fit (va_axes v) (params_of active))
            (lit "Current values kept: the candidate did not improve the back-test enough."), None))).

(** ** [_retrain_in_snapshot] *)

(** What one run draws: its identifier and the clocks. *)
Record run_draws := { rd_run_uid : str; rd_now : Z; rd_started_at : Z; rd_completed_at : Z }.

(** [_runtime_config]. *)
Definition runtime_config (row : ScorerConfigRow) : res learner_error ScorerConfig :=
  match config_of_row row with
  | Ok config => Ok config
  | Err (KeyError _) | Err (TypeError _) | Err (ValueError _) =>
      Err (LearnerDataError (lit "scorer_config " ++ py_repr (JStr (sc_version row)) ++ lit " is invalid"))
  | Err e => Err (LearnerRaised e)
  end.

Definition event_order (a b : InjectionEvent) : comparison :=
  then_by (Z.compare (i_ts a) (i_ts b))
    (then_by (N.compare (i_injection_id a) (i_injection_id b)) (text_compare (i_event_uid a) (i_event_uid b))).

Definition owner_events (d : db) : list InjectionEvent :=
  sort_by (leb_of event_order) (filter (λ e, i_principal_id e = owner_principal_id) (rows (events d))).

(** [_background_due]: the cadence counts from the run that saw the most. *)
Definition background_due (runs : gmap str LearnerRun) (eligible : Z) : bool :=
  let minimum := ls_min_dispositions settings in
  if eligible <? minimum then false
  else
    match filter (λ n, minimum <= n) (rr_eligible_dispositions ∘ lr_response <$> Store.rows runs) with
    | [] => true
    | n :: ns => retrain_signal_stride <=? eligible - zmax n ns
    end.

(** [s = btrim(s) AND s <> '']. *)
Definition btrimmed (s : str) : bool :=
  match s with [] => false | c :: _ => negb (c =? 32)%N && negb (default 32%N (last s) =? 32)%N end.

(** The checks of the receipt tables that a row could fail. *)
Definition receipt_checks (r : OptimizationRun) : bool :=
  let corpus := or_corpus r in
  btrimmed (ot_event_uid (or_trigger r))
  && bool_decide (length (bc_fingerprint corpus) = 64%nat) && forallb hex_char (bc_fingerprint corpus)
  && (0 <? bc_max_size corpus) && (zlen (bc_examples corpus) <=? bc_max_size corpus)
  && (or_started_at r <=? or_completed_at r).

Definition append_receipts (run : LearnerRun) (receipt : OptimizationRun) (s : learner_db) : res learner_error learner_db :=
  guard_ (bool_decide (ld_runs s !! lr_run_uid run = None) && bool_decide (ld_optimizations s !! or_run_uid receipt = None)
          && receipt_checks receipt) (LearnerIntegrityError "optimization_run");;
  Ok {| ld_db := ld_db s; ld_annotations := ld_annotations s; ld_creation := ld_creation s;
        ld_runs := <[lr_run_uid run := run]> (ld_runs s);
        ld_optimizations := <[or_run_uid receipt := receipt]> (ld_optimizations s); ld_jobs := ld_jobs s |}.

Definition set_scorer_configs (c : gmap str ScorerConfigRow) (d : db) : db := {|
  units := units d; revisions := revisions d; edges := edges d; items := items d; decisions := decisions d;
  threads := threads d; events := events d; next_event_id := next_event_id d; scorer_configs := c;
  curator_verdicts := curator_verdicts d; curator_actions := curator_actions d |}.

Definition insert_proposal (row : option ScorerConfigRow) (d : db) : db :=
  match row with Some r => set_scorer_configs (<[sc_version r := r]> (scorer_configs d)) d | None => d end.

Definition swept (now : Z) (s : learner_db) : learner_db := {|
  ld_db := ld_db s; ld_annotations := ld_annotations s;
  ld_creation := sweep_unused owner_principal_id now (ld_db s) (ld_creation s);
  ld_runs := ld_runs s; ld_optimizations := ld_optimizations s; ld_jobs := ld_jobs s |}.

Definition with_db (d : db) (s : learner_db) : learner_db := {|
  ld_db := d; ld_annotations := ld_annotations s; ld_creation := ld_creation s; ld_runs := ld_runs s;
  ld_optimizations := ld_optimizations s; ld_jobs := ld_jobs s |}.

Definition active_config (d : db) : res learner_error ScorerConfigRow :=
  match active_rows d with
  | [row] => Ok row
  | found => Err (LearnerDataError (lit "expected exactly one active scorer_config row; found " ++ str_of_Z (zlen found)))
  end.

Definition runtime_configs (d : db) : res learner_error (gmap str ScorerConfig) :=
  pairs ← res_map (λ row, config ← runtime_config row; Ok (sc_version row, config)) (Store.rows (scorer_configs d));
  Ok (list_to_map pairs).

Definition log_evidence (s : learner_db) (configs : gmap str ScorerConfig) : res learner_error LearningEvidence :=
  project_learning_evidence (dec_of_repr (ls_passive_discount settings)) (owner_events (ld_db s)) (ld_annotations s) configs.

Definition retrain_in_snapshot (trigger : run_trigger) (due_only : bool) (optimization_trigger : OptimizationTrigger)
    (draws : run_draws) (s : learner_db) : res learner_error (option RetrainResponse * learner_db) :=
  let s := swept (rd_now draws) s in
  active ← active_config (ld_db s);
  configs ← runtime_configs (ld_db s);
  incumbent ← runtime_config active;
  evidence ← log_evidence s configs;
  let eligible := zlen (ev_examples evidence) in
  if due_only && negb (background_due (ld_runs s) eligible) then Ok (None, s)
  else
    corpus ← balanced_corpus (ev_examples evidence) (ev_share_boundaries evidence) corpus_max_dispositions;
    '(outcome, inserted) ← fit_corpus (scorer_configs (ld_db s)) active incumbent eligible (rd_now draws) corpus;
    let s := with_db (insert_proposal inserted (ld_db s)) s in
    let source_boundary := last (sort_by str_leb (le_event_uid <$> ev_examples evidence)) in
    let response := oo_response outcome in
    s ← append_receipts
          {| lr_run_uid := rd_run_uid draws; lr_trigger := trigger; lr_response := response;
             lr_source_boundary := source_boundary; lr_ts := rd_now draws |}
          {| or_run_uid := rd_run_uid draws; or_trigger_kind := trigger; or_trigger := optimization_trigger;
             or_corpus := corpus; or_outcome := outcome; or_started_at := rd_started_at draws;
             or_completed_at := rd_completed_at draws |} s;
    Ok (Some response, s).

(** ** Jobs and entry points *)
Definition set_job (j : RetrainJob) (s : learner_db) : learner_db := {|
  ld_db := ld_db s; ld_annotations := ld_annotations s; ld_creation := ld_creation s; ld_runs := ld_runs s;
  ld_optimizations := ld_optimizations s; ld_jobs := <[rj_job_id j := j]> (ld_jobs s) |}.

Definition settled (j : RetrainJob) : bool := bool_decide (is_Some (rj_result j)) || bool_decide (is_Some (rj_error j)).

(** [_retrain]; [job] is the row of the job, when there is one. *)
Definition retrain_transaction (trigger : run_trigger) (due_only : bool) (optimization_trigger : OptimizationTrigger)
    (job_id : option str) (draws : run_draws) (s : learner_db) :
    res learner_error (option RetrainResponse * learner_db) :=
  let job := id ← job_id; ld_jobs s !! id in
  if match job with Some j => settled j | None => false end then Ok (None, s)
  else
    '(result, s) ← retrain_in_snapshot trigger due_only optimization_trigger draws s;
    Ok (result, match job with
                | Some j => set_job {| rj_job_id := rj_job_id j; rj_result := result; rj_error := rj_error j |} s
                | None => s
                end).

Definition retrain (optimization_trigger : OptimizationTrigger) (draws : run_draws) (s : learner_db) :=
  retrain_transaction manual false optimization_trigger None draws s.
Definition retrain_if_due (optimization_trigger : OptimizationTrigger) (draws : run_draws) (s : learner_db) :=
  retrain_transaction background true optimization_trigger None draws s.
Definition compact (optimization_trigger : OptimizationTrigger) (draws : run_draws) (s : learner_db) :=
  retrain_transaction background false optimization_trigger None draws s.

Inductive job_status := job_pending | job_completed | job_failed.
Definition job_view (j : RetrainJob) : job_status * option RetrainResponse * option str :=
  ((match rj_error j, rj_result j with
    | Some (_ :: _), _ => job_failed
    | _, Some _ => job_completed
    | _, None => job_pending
    end), rj_result j, rj_error j).

(** [submit_job] with the identifier it mints. *)
Definition submit_job (job_id : str) (s : learner_db) : res learner_error learner_db :=
  guard_ (bool_decide (ld_jobs s !! job_id = None)) (LearnerIntegrityError "retrain_job");;
  Ok (set_job {| rj_job_id := job_id; rj_result := None; rj_error := None |} s).

Definition get_job (job_id : str) (s : learner_db) := job_view <$> ld_jobs s !! job_id.

Definition pending_jobs (s : learner_db) : list str :=
  sort_by str_leb (rj_job_id <$> filter (λ j, settled j = false) (Store.rows (ld_jobs s))).

Definition JOB_FAILED : str := lit "Retraining failed. Start a new retrain to try again.".

(** The transaction of the [except] clause. *)
Definition fail_job (job_id : str) (s : learner_db) : learner_db :=
  match ld_jobs s !! job_id with
  | Some j => match rj_result j with
              | None => set_job {| rj_job_id := rj_job_id j; rj_result := None; rj_error := Some JOB_FAILED |} s
              | Some _ => s
              end
  | None => s
  end.

(** One turn of the loop of [run_pending_jobs]. *)
Definition run_job (job_id : str) (draws : run_draws) (s : learner_db) : res learner_error unit * learner_db :=
  match retrain_transaction manual false {| ot_event_uid := job_id; ot_thread_id := None |} (Some job_id) draws s with
  | Ok (_, s') => (Ok tt, s')
  | Err e => (Err e, fail_job job_id s)
  end.

Fixpoint run_jobs (jobs : list (str * run_draws)) (s : learner_db) : res learner_error unit * learner_db :=
  match jobs with
  | [] => (Ok tt, s)
  | (job_id, draws) :: jobs =>
      match run_job job_id draws s with
      | (Ok _, s) => run_jobs jobs s
      | (Err e, s) => (Err e, s)
      end
  end.

Definition run_pending_jobs (draws : nat → run_draws) (s : learner_db) : res learner_error unit * learner_db :=
  run_jobs (imap (λ i job_id, (job_id, draws i)) (pending_jobs s)) s.
End service.
