(* ===== verification/LearnerServiceFacts.v ===== *)
(** * Retraining: receipts, proposals, cadence and jobs *)
From S2P Require Import Prelude PyStr PyFloat PyDecimal PyJson JsonText PyTime Ids Axes Scorer Features Store MemoryDb Sql.
From S2P Require Import Annotations Transcripts TranscriptsFacts Queue Learner LearnerFacts Prepare PrepareSamples Evidence Corpus CorpusFacts Nominate Creation LearnerService.
Open Scope Z_scope.

Section service.
Context {UC : Unicode} {TK : Tokenizer} {PR : PyRepr} {SH : Sha256} {LS : LibmSquare} {DD : DecimalDigits} {CO : Collation}.
Context {AD : AxisDecoder}.
Context (settings : LearnerSettings) (owner : str) (stride maximum : Z).

Abbreviation retrain_tx := (retrain_transaction settings owner stride maximum).
Abbreviation in_snapshot := (retrain_in_snapshot settings owner stride maximum).

(** ** One fit *)

(** What a fit may add to the configurations: an inactive row under a name that
    was free. *)
Definition new_proposal (configs : gmap str ScorerConfigRow) (version : option str) (row : option ScorerConfigRow) : Prop :=
  match row with
  | None => True
  | Some r => version = Some (sc_version r) ∧ configs !! sc_version r = None ∧ sc_active r = false
  end.

Definition response_ok (configs : gmap str ScorerConfigRow) (active : ScorerConfigRow) (eligible : Z)
    (corpus : BalancedCorpus) (response : RetrainResponse) (row : option ScorerConfigRow) : Prop :=
  rr_eligible_dispositions response = eligible ∧
  (rr_status response = proposed ↔ is_Some (rr_proposal_version response)) ∧
  (∀ v, rr_proposal_version response = Some v → is_Some (configs !! v) ∨ ∃ r, row = Some r ∧ sc_version r = v) ∧
  (rr_status response ≠ proposed → row = None) ∧ new_proposal configs (rr_proposal_version response) row.

Lemma or_insufficient_Ok {A B} (r : res pyexn A) (f : str → B) k (b : B) :
  or_insufficient r f k = Ok b → (∃ m, b = f m) ∨ ∃ a, r = Ok a ∧ k a = Ok b.
Proof. unfold or_insufficient. destruct r as [a|[]]; try done; [eauto|intros [= <-]; eauto]. Qed.

Lemma insufficient_ok configs active eligible corpus t h reason :
  response_ok configs active eligible corpus (oo_response (insufficient_outcome active eligible t h reason)) None.
Proof. split_and!; try done. split; [done|by intros [? ?]]. Qed.

Lemma fit_corpus_ok configs active incumbent eligible now corpus outcome row :
  fit_corpus settings maximum configs active incumbent eligible now corpus = Ok (outcome, row) →
  response_ok configs active eligible corpus (oo_response outcome) row.
Proof.
  unfold fit_corpus. cbn zeta. destruct (_ && _).
  { intros [= <- <-]. apply insufficient_ok. }
  intros [(m & [= -> ->])|([[training holdout] cutoff] & _ & H)]%or_insufficient_Ok; [apply insufficient_ok|].
  apply or_insufficient_Ok in H as [(m & [= -> ->])|(fit & _ & H)]; [apply insufficient_ok|].
  apply bind_Ok in H as (v & _ & H). destruct (wins _ _ _); [|injection H as <- <-].
  - destruct (proposal _ _ _ _ _ _ _ _ _) as [version params]. apply bind_Ok in H as (inserted & Hins & [= <- <-]).
    unfold response_ok. cbn [oo_response evaluated_outcome rr_eligible_dispositions rr_status rr_proposal_version].
    destruct (configs !! version) as [existing|] eqn:E.
    + apply bind_Ok in Hins as (? & _ & [= <-]). split_and!; try done. intros v' [= <-]. rewrite E. by left.
    + injection Hins as <-. split_and!; try done. intros v' [= <-]. right. by eexists.
  - split_and!; try done. split; [done|by intros [? ?]].
Qed.

(** ** One run *)

(** The tables a run leaves as they are. *)
Definition same_library (s s' : learner_db) : Prop :=
  ld_db s' = set_scorer_configs (scorer_configs (ld_db s')) (ld_db s) ∧ ld_annotations s' = ld_annotations s ∧
  ld_creation s ⊆ ld_creation s'.

(** What a run does to the configurations: it keeps every row, and may add one
    inactive proposal. *)
Definition configs_grow (s s' : learner_db) (response : option RetrainResponse) : Prop :=
  scorer_configs (ld_db s') = scorer_configs (ld_db s) ∨
  ∃ row v, v = sc_version row ∧ scorer_configs (ld_db s) !! v = None ∧ sc_active row = false ∧
    scorer_configs (ld_db s') = <[v := row]> (scorer_configs (ld_db s)) ∧
    rr_proposal_version <$> response = Some (Some v).

(** The receipts of a run. *)
Definition receipts (trigger : run_trigger) (ot : OptimizationTrigger) (draws : run_draws) (s s' : learner_db)
    (response : option RetrainResponse) : Prop :=
  match response with
  | None => ld_runs s' = ld_runs s ∧ ld_optimizations s' = ld_optimizations s
  | Some r => ∃ run receipt,
      ld_runs s !! rd_run_uid draws = None ∧ ld_optimizations s !! rd_run_uid draws = None ∧
      ld_runs s' = <[rd_run_uid draws := run]> (ld_runs s) ∧
      ld_optimizations s' = <[rd_run_uid draws := receipt]> (ld_optimizations s) ∧
      lr_run_uid run = rd_run_uid draws ∧ or_run_uid receipt = rd_run_uid draws ∧
      lr_trigger run = trigger ∧ or_trigger_kind receipt = trigger ∧ or_trigger receipt = ot ∧
      lr_response run = r ∧ oo_response (or_outcome receipt) = r ∧
      zlen (bc_examples (or_corpus receipt)) ≤ maximum ∧
      (rr_status r = proposed ↔ is_Some (rr_proposal_version r)) ∧
      ∀ v, rr_proposal_version r = Some v → is_Some (scorer_configs (ld_db s') !! v)
  end.

Lemma corpus_bounds examples boundaries c :
  balanced_corpus examples boundaries maximum = Ok c → bc_max_size c = maximum.
Proof.
  unfold balanced_corpus. intros (gates & _ & H)%bind_Ok. destruct (take_gates _ _ _ _) as [[[ls sel] r]|]; [|done].
  by injection H as <-.
Qed.

Lemma in_snapshot_ok trigger due_only ot draws s response s' :
  in_snapshot trigger due_only ot draws s = Ok (response, s') →
  same_library s s' ∧ configs_grow s s' response ∧ receipts trigger ot draws s s' response ∧ ld_jobs s' = ld_jobs s ∧
  (due_only = false → is_Some response) ∧
  (due_only = true → ∀ r, response = Some r → background_due settings stride (ld_runs s) (rr_eligible_dispositions r) = true).
Proof.
  unfold retrain_in_snapshot. cbn zeta. set (s0 := swept owner (rd_now draws) s).
  assert (Hgrow : ld_creation s ⊆ ld_creation s0).
  { apply map_subseteq_spec. intros k c Hc. cbn. by rewrite sweep_lookup, Hc. }
  intros (active & Ha & H)%bind_Ok. apply bind_Ok in H as (configs & Hconf & H). apply bind_Ok in H as (incumbent & _ & H).
  apply bind_Ok in H as (evidence & _ & H). set (eligible := zlen (ev_examples evidence)) in *.
  destruct (due_only && negb (background_due settings stride (ld_runs s0) eligible)) eqn:Edue.
  { injection H as <- <-. split_and!; [split_and!; [by destruct s as [[] ? ? ? ? ?]|done|done]|by left|done|done| |done].
    by destruct due_only. }
  apply bind_Ok in H as (corpus & Hcorpus & H). apply bind_Ok in H as ([outcome inserted] & Hfit & H).
  apply fit_corpus_ok in Hfit as (Heligible & Hstatus & Hstored & Hnone & Hnew).
  apply bind_Ok in H as (s1 & Happ & [= <- <-]). unfold append_receipts in Happ.
  apply bind_Ok in Happ as (? & Hguard%guard_Ok & [= <-]).
  apply andb_true_iff in Hguard as [[Hr Ho]%andb_true_iff Hchecks].
  apply bool_decide_eq_true in Hr, Ho. cbn [lr_run_uid or_run_uid ld_runs ld_optimizations with_db] in Hr, Ho.
  apply corpus_bounds in Hcorpus. unfold receipt_checks in Hchecks. cbn [or_corpus] in Hchecks.
  assert (Hle : zlen (bc_examples corpus) ≤ maximum) by (rewrite <- Hcorpus; lia).
  split_and!.
  - unfold same_library. cbn [ld_db ld_annotations ld_creation with_db]. split_and!; [|done|done].
    destruct inserted as [row|]; [done|]. by destruct s as [[] ? ? ? ? ?].
  - unfold configs_grow. destruct inserted as [row|]; [right|by left]. destruct Hnew as (Hv & Hfree & Hact).
    exists row, (sc_version row). split_and!; try done. cbn. by rewrite Hv.
  - unfold receipts. eexists _, _. cbn [lr_run_uid or_run_uid lr_trigger or_trigger_kind or_trigger lr_response or_outcome or_corpus
      ld_runs ld_optimizations with_db]. split_and!; try done. intros v Hv. destruct (Hstored v Hv) as [Hs|(row & -> & <-)].
    + cbn [ld_db with_db]. destruct inserted as [row|]; [|done]. cbn [insert_proposal set_scorer_configs scorer_configs].
      destruct (decide (sc_version row = v)) as [<-|]; [rewrite lookup_insert_eq; by eexists|by rewrite lookup_insert_ne].
    + cbn. rewrite lookup_insert_eq. by eexists.
  - done.
  - intros _. by eexists.
  - intros -> r [= <-]. rewrite Heligible. cbn in Edue. by destruct (background_due _ _ _ _).
Qed.

Lemma retrain_grows trigger due_only ot job_id draws s response s' :
  retrain_tx trigger due_only ot job_id draws s = Ok (response, s') → configs_grow s s' response.
Proof.
  unfold retrain_transaction. cbn zeta. destruct (match id ← job_id; _ with Some j => settled j | None => false end).
  { intros [= <- <-]. by left. }
  intros ([result s1] & (_ & Hgrow & _)%in_snapshot_ok & [= -> <-])%bind_Ok. by destruct (id ← job_id; _).
Qed.

(** C6: A retrain never activates and never edits.  Whatever started it, a run
    that returns leaves the memories, the log and the annotations as they are
    and keeps every scorer configuration; it may add one inactive proposal under
    a name that was free, so the active configuration stays; and it appends
    exactly one receipt to each of the two tables, both saying what it returned,
    or nothing when it was not due.  What it calls proposed is stored. *)
Theorem retrain_only_proposes trigger due_only ot job_id draws s response s' :
  retrain_tx trigger due_only ot job_id draws s = Ok (response, s') →
  same_library s s' ∧ configs_grow s s' response ∧ Permutation (active_rows (ld_db s')) (active_rows (ld_db s)) ∧
  receipts trigger ot draws s s' response.
Proof.
  unfold retrain_transaction. cbn zeta. set (job := id ← job_id; ld_jobs s !! id).
  assert (Hsame : same_library s s ∧ configs_grow s s None ∧ Permutation (active_rows (ld_db s)) (active_rows (ld_db s)) ∧
            receipts trigger ot draws s s None).
  { split_and!; [split_and!; [by destruct s as [[] ? ? ? ? ?]|done|done]|by left|done|done]. }
  assert (Hactive : ∀ s1, configs_grow s s1 response → Permutation (active_rows (ld_db s1)) (active_rows (ld_db s))).
  { intros s1 [Heq|(row & v & -> & Hfree & Hact & Heq & _)]; unfold active_rows; rewrite Heq; [done|].
    unfold Store.rows. rewrite map_to_list_insert by done. rewrite fmap_cons, filter_cons. cbn [snd].
    rewrite decide_False by congruence. done. }
  destruct (match job with Some j => settled j | None => false end); [by intros [= <- <-]|].
  intros ([result s1] & (Hlib & Hgrow & Hrec & _)%in_snapshot_ok & [= -> <-])%bind_Ok.
  specialize (Hactive s1 Hgrow). destruct job as [j|]; by split_and!.
Qed.

(** The cadence of background retraining.  A due check never runs below the
    floor of dispositions, nor before the corpus has grown by the stride since
    every earlier run that reached the floor; when it does not run it leaves no
    receipt. *)
Theorem background_cadence ot draws s response s' :
  retrain_if_due settings owner stride maximum ot draws s = Ok (response, s') →
  match response with
  | None => ld_runs s' = ld_runs s ∧ ld_optimizations s' = ld_optimizations s
  | Some r => ls_min_dispositions settings ≤ rr_eligible_dispositions r ∧
      ∀ run, run ∈ Store.rows (ld_runs s) → ls_min_dispositions settings ≤ rr_eligible_dispositions (lr_response run) →
        rr_eligible_dispositions (lr_response run) + stride ≤ rr_eligible_dispositions r
  end.
Proof.
  unfold retrain_if_due, retrain_transaction. cbn zeta. change (id ← None; ld_jobs s !! id) with (None (A := RetrainJob)).
  intros ([result s1] & (_ & _ & Hrec & _ & _ & Hdue)%in_snapshot_ok & [= -> <-])%bind_Ok.
  destruct response as [r|]; [|done]. specialize (Hdue eq_refl r eq_refl). unfold background_due in Hdue.
  destruct (rr_eligible_dispositions r <? ls_min_dispositions settings) eqn:Emin; [done|]. split; [lia|].
  intros run Hrun Hn. set (seen := filter _ _) in Hdue.
  assert (Hin : rr_eligible_dispositions (lr_response run) ∈ seen).
  { apply list_elem_of_filter. split; [done|]. apply (list_elem_of_fmap_2 (rr_eligible_dispositions ∘ lr_response)), Hrun. }
  destruct seen as [|n ns]; [by apply elem_of_nil in Hin|].
  destruct (zmax_spec n ns) as [Hmax _]. specialize (Hmax _ Hin). lia.
Qed.
(** ** Jobs *)

(** What may happen between two looks at the tables.  Identifiers of jobs and of
    manual triggers are minted, so they name one thing. *)
Inductive learner_step : learner_db → learner_db → Prop :=
  | step_submit id s s' :
      submit_job id s = Ok s' →
      (∀ k receipt, ld_optimizations s !! k = Some receipt → ot_event_uid (or_trigger receipt) ≠ id) → learner_step s s'
  | step_job id draws s : is_Some (ld_jobs s !! id) → learner_step s (run_job settings owner stride maximum id draws s).2
  | step_retrain trigger due_only ot draws s r s' :
      retrain_tx trigger due_only ot None draws s = Ok (r, s') →
      (trigger = manual → ld_jobs s !! ot_event_uid ot = None) → learner_step s s'
  | step_outside d annotated creation s :
      learner_step s {| ld_db := d; ld_annotations := annotated; ld_creation := creation; ld_runs := ld_runs s;
                        ld_optimizations := ld_optimizations s; ld_jobs := ld_jobs s |}.

Definition no_learning (d : db) : learner_db :=
  {| ld_db := d; ld_annotations := ∅; ld_creation := ∅; ld_runs := ∅; ld_optimizations := ∅; ld_jobs := ∅ |}.
Definition reachable (s : learner_db) : Prop := ∃ d, rtc learner_step (no_learning d) s.

(** The receipts of the runs a job started. *)
Definition job_receipts (id : str) (s : learner_db) : list OptimizationRun :=
  filter (λ r, or_trigger_kind r = manual ∧ ot_event_uid (or_trigger r) = id) (Store.rows (ld_optimizations s)).

Definition job_ok (s : learner_db) (id : str) (j : RetrainJob) : Prop :=
  rj_job_id j = id ∧
  match rj_result j, rj_error j with
  | None, None => job_receipts id s = []
  | None, Some e => job_receipts id s = [] ∧ e = JOB_FAILED
  | Some response, None => ∃ receipt, job_receipts id s = [receipt] ∧ oo_response (or_outcome receipt) = response
  | Some _, Some _ => False
  end.

Definition jobs_ok (s : learner_db) : Prop := ∀ id j, ld_jobs s !! id = Some j → job_ok s id j.

Lemma job_receipts_same id s s' : ld_optimizations s' = ld_optimizations s → job_receipts id s' = job_receipts id s.
Proof. unfold job_receipts. by intros ->. Qed.

Lemma job_receipts_insert id s s' k receipt :
  ld_optimizations s !! k = None → ld_optimizations s' = <[k := receipt]> (ld_optimizations s) →
  Permutation (job_receipts id s')
    (if bool_decide (or_trigger_kind receipt = manual ∧ ot_event_uid (or_trigger receipt) = id)
     then receipt :: job_receipts id s else job_receipts id s).
Proof.
  intros Hk Ho. unfold job_receipts, Store.rows. rewrite Ho, map_to_list_insert by done. rewrite fmap_cons, filter_cons.
  cbn [snd]. by case_bool_decide; [rewrite decide_True|rewrite decide_False].
Qed.

(** A run that is not the job's leaves the job as it was. *)
Lemma receipts_other id trigger ot draws s s' response :
  receipts trigger ot draws s s' response → (trigger = manual → ot_event_uid ot ≠ id) →
  Permutation (job_receipts id s') (job_receipts id s).
Proof.
  intros Hrec Hother. destruct response as [r|]; [|destruct Hrec as [_ Ho]; by rewrite (job_receipts_same _ _ _ Ho)].
  destruct Hrec as (run & receipt & _ & Hk & _ & Ho & _ & _ & _ & Hkind & Hot & _).
  rewrite (job_receipts_insert _ _ _ _ _ Hk Ho), bool_decide_false; [done|]. intros [Hm He]. rewrite Hkind in Hm. rewrite Hot in He.
  by apply Hother.
Qed.

Lemma job_ok_perm s s' id j : Permutation (job_receipts id s') (job_receipts id s) → job_ok s id j → job_ok s' id j.
Proof.
  intros Hp [Hid Hj]. split; [done|]. destruct (rj_result j), (rj_error j); try done.
  - destruct Hj as (receipt & Hr & ?). rewrite Hr in Hp. apply Permutation_singleton_r in Hp. eauto.
  - destruct Hj as [Hr ->]. rewrite Hr in Hp. by apply Permutation_nil_r in Hp.
  - rewrite Hj in Hp. by apply Permutation_nil_r in Hp.
Qed.

(** What the run of a job does to the jobs. *)
Lemma run_job_spec id draws s j r s' :
  jobs_ok s → ld_jobs s !! id = Some j → run_job settings owner stride maximum id draws s = (r, s') →
  (settled j = true ∧ s' = s) ∨
  settled j = false ∧ (∀ id', id' ≠ id → ld_jobs s' !! id' = ld_jobs s !! id' ∧ Permutation (job_receipts id' s') (job_receipts id' s)) ∧
  ∃ j', ld_jobs s' !! id = Some j' ∧ settled j' = true ∧ job_ok s' id j' ∧ (r = Ok tt ↔ rj_error j' = None).
Proof.
  intros Hok Hj. unfold run_job. destruct (Hok id j Hj) as [Hid Hjob]. destruct (retrain_tx _ _ _ _ _ _) as [[response s1]|e] eqn:E.
  - intros [= <- <-]. unfold retrain_transaction in E. cbn [mbind option_bind] in E. rewrite Hj in E.
    destruct (settled j) eqn:Hs; [left; split; [done|]; by injection E as <- <-|right]. split; [done|].
    apply bind_Ok in E as ([result s2] & (_ & _ & Hrec & Hjobs & Hsome & _)%in_snapshot_ok & [= -> <-]).
    destruct (Hsome eq_refl) as [r' ->]. split.
    + intros id' Hne. cbn [ld_jobs set_job rj_job_id]. rewrite Hid, lookup_insert_ne, Hjobs by done. split; [done|].
      rewrite (job_receipts_same _ s2 _) by done. apply (receipts_other _ _ _ _ _ _ _ Hrec). by intros _ <-.
    + eexists. cbn [ld_jobs set_job rj_job_id]. rewrite Hid, lookup_insert_eq. split; [done|]. split; [done|].
      unfold settled in Hs. apply orb_false_iff in Hs as [Hr He]. apply bool_decide_eq_false in Hr, He.
      destruct (rj_result j) eqn:Er; [by destruct Hr|]. destruct (rj_error j) eqn:Ee; [by destruct He|]. clear Hr He.
      split; [|done]. split; [done|]. cbn [rj_result rj_error].
      destruct Hrec as (run & receipt & _ & Hk & _ & Ho & _ & _ & _ & Hkind & Hot & _ & Hresp & _). exists receipt. split; [|done].
      rewrite (job_receipts_same _ s2 _) by done. pose proof (job_receipts_insert id _ _ _ _ Hk Ho) as Hp.
      rewrite bool_decide_true in Hp by (rewrite Hkind, Hot; done). rewrite Hjob in Hp. by apply Permutation_singleton_r in Hp.
  - intros [= <- <-]. unfold retrain_transaction in E. cbn [mbind option_bind] in E. rewrite Hj in E.
    destruct (settled j) eqn:Hs; [done|right]. split; [done|]. unfold fail_job. rewrite Hj.
    unfold settled in Hs. apply orb_false_iff in Hs as [Hr He]. apply bool_decide_eq_false in Hr, He.
    destruct (rj_result j) eqn:Er; [by destruct Hr|]. destruct (rj_error j) eqn:Ee; [by destruct He|]. clear Hr He. split.
    + intros id' Hne. cbn [ld_jobs set_job rj_job_id]. by rewrite Hid, lookup_insert_ne.
    + eexists. cbn [ld_jobs set_job rj_job_id]. rewrite Hid, lookup_insert_eq. split_and!; try done.
Qed.

Lemma step_jobs_ok s s' : learner_step s s' → jobs_ok s → jobs_ok s'.
Proof.
  intros Hstep Hok. destruct Hstep as [id s s' Hsub Hfresh|id draws s [j Hj]|trigger due_only ot draws s r s' Hrun Hfree|d a c s].
  - unfold submit_job in Hsub. apply bind_Ok in Hsub as (? & Hnone%guard_Ok & [= <-]). apply bool_decide_eq_true in Hnone.
    intros id' j'. cbn [ld_jobs set_job rj_job_id]. intros Hj'. apply lookup_insert_Some in Hj' as [[<- <-]|[Hne Hj']]; [|by apply (Hok id' j')].
    split; [done|]. cbn [rj_result rj_error]. rewrite (job_receipts_same _ s) by done. unfold job_receipts.
    apply elem_of_nil_inv. intros receipt [[_ Hid] [k Hk]%elem_rows]%list_elem_of_filter. by apply (Hfresh _ _ Hk).
  - destruct (run_job _ _ _ _ id draws s) as [r s'] eqn:E. cbn [snd].
    destruct (run_job_spec _ _ _ _ _ _ Hok Hj E) as [[_ ->]|(_ & Hother & j' & Hj' & _ & Hjob & _)]; [done|].
    intros id' k Hk. destruct (decide (id' = id)) as [->|Hne]; [congruence|]. destruct (Hother id' Hne) as [Hl Hp].
    rewrite Hl in Hk. apply (job_ok_perm _ _ _ _ Hp). by apply Hok.
  - unfold retrain_transaction in Hrun. cbn [mbind option_bind] in Hrun.
    apply bind_Ok in Hrun as ([result s1] & (_ & _ & Hrec & Hjobs & _)%in_snapshot_ok & [= -> <-]).
    intros id j Hj. rewrite Hjobs in Hj. eapply job_ok_perm; [|by apply Hok].
    apply (receipts_other _ _ _ _ _ _ _ Hrec). intros -> Hid. rewrite <- Hid, Hfree in Hj; done.
  - intros id j Hj. apply (job_ok_perm s); [done|]. by apply Hok.
Qed.

Lemma reachable_jobs_ok s : reachable s → jobs_ok s.
Proof.
  intros [d Hr]. assert (Hgen : ∀ s1 s2, rtc learner_step s1 s2 → jobs_ok s1 → jobs_ok s2).
  { induction 1 as [|s0 s1 s2 Hstep _ IH]; [done|]. intros Hok. apply IH. by eapply step_jobs_ok. }
  apply (Hgen _ _ Hr). intros id j Hj. cbn in Hj. by rewrite lookup_empty in Hj.
Qed.

Lemma step_settled s s' id j :
  jobs_ok s → learner_step s s' → ld_jobs s !! id = Some j → settled j = true → ld_jobs s' !! id = Some j.
Proof.
  intros Hok Hstep Hj Hs. destruct Hstep as [id' s s' Hsub _|id' draws s [j' Hj']|trigger due_only ot draws s r s' Hrun _|d a c s]; [| | |done].
  - unfold submit_job in Hsub. apply bind_Ok in Hsub as (? & Hnone%guard_Ok & [= <-]). apply bool_decide_eq_true in Hnone.
    cbn [ld_jobs set_job rj_job_id]. rewrite lookup_insert_ne; [done|]. intros ->. congruence.
  - destruct (run_job _ _ _ _ id' draws s) as [r s'] eqn:E. cbn [snd].
    destruct (run_job_spec _ _ _ _ _ _ Hok Hj' E) as [[_ ->]|(Hun & Hother & _)]; [done|].
    destruct (decide (id = id')) as [->|Hne]; [congruence|]. by rewrite (proj1 (Hother id Hne)).
  - unfold retrain_transaction in Hrun. cbn [mbind option_bind] in Hrun.
    apply bind_Ok in Hrun as ([result s1] & (_ & _ & _ & Hjobs & _)%in_snapshot_ok & [= -> <-]). by rewrite Hjobs.
Qed.

(** A job is carried out once.  In every reachable state a job that has a
    result has exactly one receipt of a manual run, with that very result; one
    that failed, or was not run, has none, and a failure never comes with a
    result.  A settled job stays as it is, whatever happens afterwards. *)
Theorem job_runs_once s id j :
  reachable s → ld_jobs s !! id = Some j →
  job_ok s id j ∧ ∀ s', rtc learner_step s s' → settled j = true → ld_jobs s' !! id = Some j.
Proof.
  intros Hr%reachable_jobs_ok Hj. split; [by apply Hr|]. intros s' Hsteps Hs.
  induction Hsteps as [|s s1 s2 Hstep _ IH]; [done|]. apply IH; [by eapply step_jobs_ok|by eapply step_settled].
Qed.

(** *** The loop over the pending jobs *)
Lemma pending_elem s id : jobs_ok s → id ∈ pending_jobs s ↔ ∃ j, ld_jobs s !! id = Some j ∧ settled j = false.
Proof.
  intros Hok. unfold pending_jobs. rewrite sort_by_perm, list_elem_of_fmap. setoid_rewrite list_elem_of_filter. split.
  - intros (j & -> & Hs & [k Hk]%elem_rows). exists j. destruct (Hok k j Hk) as [-> _]. done.
  - intros (j & Hj & Hs). exists j. destruct (Hok id j Hj) as [-> _]. split_and!; [done..|]. apply elem_rows. by exists id.
Qed.

(** The jobs [s'] has where [s] had a pending one are the same or settled. *)
Definition settles (s s' : learner_db) : Prop :=
  ∀ id j, ld_jobs s !! id = Some j → ∃ j', ld_jobs s' !! id = Some j' ∧ (j' = j ∨ settled j = false ∧ settled j' = true).

Lemma run_jobs_spec l s r s' :
  jobs_ok s → (∀ x, x ∈ l → is_Some (ld_jobs s !! x.1)) →
  run_jobs settings owner stride maximum l s = (r, s') →
  jobs_ok s' ∧ settles s s' ∧
  (r = Ok tt → ∀ x j, x ∈ l → ld_jobs s' !! x.1 = Some j → settled j = true) ∧
  (∀ e, r = Err e → ∃ x j, x ∈ l ∧ ld_jobs s' !! x.1 = Some j ∧ rj_error j = Some JOB_FAILED) ∧
  (∀ x j, head l = Some x → ld_jobs s' !! x.1 = Some j → settled j = true).
Proof.
  revert s. induction l as [|[id draws] l IH]; intros s Hok Hin H; cbn [run_jobs] in H.
  { injection H as <- <-. split_and!; [done| |by intros _ ? ? ?%elem_of_nil|done|done]. intros id j Hj. eauto. }
  destruct (Hin (id, draws)) as [j Hj]; [left|]. cbn [fst] in Hj.
  destruct (run_job _ _ _ _ id draws s) as [r1 s1] eqn:E. pose proof (run_job_spec _ _ _ _ _ _ Hok Hj E) as Hspec.
  assert (Hok1 : jobs_ok s1). { apply (step_jobs_ok s); [|done]. replace s1 with (run_job settings owner stride maximum id draws s).2 by by rewrite E.
    apply step_job. by eexists. }
  assert (Hset1 : settles s s1 ∧ ∃ j1, ld_jobs s1 !! id = Some j1 ∧ settled j1 = true).
  { destruct Hspec as [[Hs ->]|(Hs & Hother & j1 & Hj1 & Hs1 & _)].
    - split; [|eauto]. intros id' k Hk. eauto.
    - split; [|eauto]. intros id' k Hk. destruct (decide (id' = id)) as [->|Hne].
      + rewrite Hj in Hk. injection Hk as <-. eauto.
      + exists k. rewrite (proj1 (Hother id' Hne)). auto. }
  destruct Hset1 as [Hset1 (j1 & Hj1 & Hs1)]. destruct r1 as [[]|e].
  - destruct (IH s1 Hok1) as (Hok' & Hset & Hall & Herr & _); [|done|].
    { intros x Hx. destruct (Hin x) as [k Hk]; [by right|]. destruct (Hset1 _ _ Hk) as (k' & Hk' & _). by eexists. }
    assert (Hfirst : ∀ k, ld_jobs s' !! id = Some k → settled k = true).
    { intros k Hk. destruct (Hset _ _ Hj1) as (k' & Hk' & [->|[? _]]); congruence. }
    split_and!; [done| | | |].
    + intros id' k Hk. destruct (Hset1 _ _ Hk) as (k1 & Hk1 & Hrel). destruct (Hset _ _ Hk1) as (k2 & Hk2 & Hrel2). exists k2.
      split; [done|]. destruct Hrel as [->|[? ?]], Hrel2 as [->|[? ?]]; auto; congruence.
    + intros Hr x k [->|Hx]%elem_of_cons Hk; [by apply Hfirst|]. by eapply Hall.
    + intros e He. destruct (Herr e He) as (x & k & Hx & ? & ?). exists x, k. split_and!; [by right|done..].
    + intros x k [= <-]. apply Hfirst.
  - injection H as <- <-. split_and!; [done|done|done| |].
    + intros e' _. exists (id, draws). cbn [fst]. destruct Hspec as [[Hs ->]|(_ & _ & j' & Hj' & _ & [_ Hjob] & Hr)].
      * exfalso. unfold run_job, retrain_transaction in E. cbn [mbind option_bind] in E. rewrite Hj, Hs in E. done.
      * exists j'. split_and!; [left|done|]. destruct (rj_error j') as [e0|] eqn:Ee; [|by pose proof (proj2 Hr eq_refl)].
        destruct (rj_result j'); [done|]. by destruct Hjob as [_ ->].
    + intros x k [= <-] Hk. cbn [fst] in Hk. congruence.
Qed.

End service.

(** ** Concrete runs on a library with one configuration and an empty log *)
#[local] Instance run_repr : PyRepr := {| py_repr := λ _, [] |}.
#[local] Instance run_square : LibmSquare := {| libm_square := λ x, fmul x x |}.
#[local] Instance run_collation : Collation := {| text_compare := str_compare |}.
#[local] Existing Instances sample_tokenizer ascii_unicode sample_sha sample_axes ascii_digits.

Definition run_settings (minimum : Z) : LearnerSettings := {|
  ls_min_dispositions := minimum; ls_holdout_fraction := f_ratio 1 5; ls_passive_discount := f_ratio 1 2;
  ls_pair_margin := f_ratio 1 20; ls_bias_l2 := f_ratio 1 100; ls_win_margin := f_ratio 1 2 |}.
Definition first_draws (uid : string) : run_draws :=
  {| rd_run_uid := lit uid; rd_now := 7; rd_started_at := 8; rd_completed_at := 9 |}.
Definition tap : OptimizationTrigger := {| ot_event_uid := lit "tap"; ot_thread_id := None |}.
Definition start : learner_db := no_learning (prepare_db 2).

Definition after (r : res learner_error (option RetrainResponse * learner_db)) : option RetrainResponse * learner_db :=
  match r with Ok x => x | Err _ => (None, start) end.
Definition first_run := after (retrain_if_due (run_settings 0) (lit "p") 25 100 tap (first_draws "r1") start).
Definition second_run := after (retrain_if_due (run_settings 0) (lit "p") 25 100 tap (first_draws "r2") first_run.2).

Lemma retrain_only_proposes_witness :
  is_Some first_run.1 ∧ same_library start first_run.2 ∧
  receipts 100 background tap (first_draws "r1") start first_run.2 first_run.1.
Proof.
  assert (Hrun : retrain_transaction (run_settings 0) (lit "p") 25 100 background true tap None (first_draws "r1") start =
                 Ok (first_run.1, first_run.2)) by (vm_compute; reflexivity).
  split; [vm_compute; by eexists|].
  destruct (retrain_only_proposes (run_settings 0) (lit "p") 25 100 _ _ _ _ _ _ _ _ Hrun) as (Hs & _ & _ & Hr).
  exact (conj Hs Hr).
Defined.

Lemma background_cadence_witness :
  is_Some first_run.1 ∧ second_run.1 = None ∧ ld_runs second_run.2 = ld_runs first_run.2.
Proof.
  assert (Hrun : retrain_if_due (run_settings 0) (lit "p") 25 100 tap (first_draws "r2") first_run.2 =
                 Ok (second_run.1, second_run.2)) by (vm_compute; reflexivity).
  assert (Hnone : second_run.1 = None) by (vm_compute; reflexivity).
  pose proof (background_cadence (run_settings 0) (lit "p") 25 100 _ _ _ _ _ Hrun) as H. rewrite Hnone in H.
  split; [vm_compute; by eexists|]. split; [exact Hnone|]. exact (proj1 H).
Defined.

Definition job_state : learner_db := match submit_job (lit "j1") start with Ok s => s | Err _ => start end.
Definition drained : res learner_error unit * learner_db :=
  run_pending_jobs (run_settings 25) (lit "p") 25 100 (λ _, first_draws "r1") job_state.
Definition finished_job : RetrainJob :=
  default {| rj_job_id := []; rj_result := None; rj_error := None |} (ld_jobs drained.2 !! lit "j1").

Lemma job_state_reachable : reachable (run_settings 25) (lit "p") 25 100 job_state.
Proof.
  exists (prepare_db 2). apply rtc_once. apply (step_submit _ _ _ _ (lit "j1")); [vm_compute; reflexivity|].
  intros k receipt H. cbn in H. by rewrite lookup_empty in H.
Qed.

Lemma drained_reachable : reachable (run_settings 25) (lit "p") 25 100 drained.2.
Proof.
  destruct job_state_reachable as [d Hd]. exists d. eapply rtc_r; [exact Hd|].
  assert (drained.2 = (run_job (run_settings 25) (lit "p") 25 100 (lit "j1") (first_draws "r1") job_state).2) as ->
    by (vm_compute; reflexivity).
  apply step_job. vm_compute. by eexists.
Qed.

Lemma job_runs_once_witness :
  settled finished_job = true ∧ job_ok drained.2 (lit "j1") finished_job.
Proof.
  assert (Hj : ld_jobs drained.2 !! lit "j1" = Some finished_job) by (vm_compute; reflexivity).
  split; [vm_compute; reflexivity|].
  exact (proj1 (job_runs_once (run_settings 25) (lit "p") 25 100 _ _ _ drained_reachable Hj)).
Defined.

