(* ===== verification/LearnerWorker.v ===== *)
(** * The learner's wake worker: [src/src/spine/learner/worker.py]

    One task waits for an event, runs the pending jobs and then the last
    compaction asked for.  The event loop interleaves it with callers at its
    awaits, so a step of the system is what happens between two of them. *)
From S2P Require Import Prelude PyStr Ids LearnerService.
Open Scope Z_scope.

(** Where the task is suspended: before [wait], in [run_pending_jobs], in
    [compact], or returned. *)
Inductive worker_at := at_wait | at_jobs | at_compact (trigger : OptimizationTrigger) | at_end.

Record worker := {
  wk_at : worker_at;
  wk_wake : bool;
  wk_stop : bool;
  wk_pending_trigger : option OptimizationTrigger;
}.

(** [start]: a new task, awake. *)
Definition started (pending : option OptimizationTrigger) : worker :=
  {| wk_at := at_wait; wk_wake := true; wk_stop := false; wk_pending_trigger := pending |}.

Definition notify (trigger : option OptimizationTrigger) (w : worker) : worker := {|
  wk_at := wk_at w; wk_wake := true; wk_stop := wk_stop w;
  wk_pending_trigger := match trigger with Some t => Some t | None => wk_pending_trigger w end |}.

(** The part of [stop] before it awaits the task. *)
Definition ask_stop (w : worker) : worker :=
  {| wk_at := wk_at w; wk_wake := true; wk_stop := true; wk_pending_trigger := wk_pending_trigger w |}.

(** The event is set: the turn begins, or the task returns. *)
Definition wakes (w : worker) : worker := {|
  wk_at := if wk_stop w then at_end else at_jobs; wk_wake := false; wk_stop := wk_stop w;
  wk_pending_trigger := wk_pending_trigger w |}.

(** [run_pending_jobs] returned: the trigger is taken. *)
Definition jobs_returned (w : worker) : worker := {|
  wk_at := match wk_pending_trigger w with Some t => at_compact t | None => at_wait end;
  wk_wake := wk_wake w; wk_stop := wk_stop w; wk_pending_trigger := None |}.

(** It raised, or [compact] ended one way or the other. *)
Definition turn_ends (w : worker) : worker :=
  {| wk_at := at_wait; wk_wake := wk_wake w; wk_stop := wk_stop w; wk_pending_trigger := wk_pending_trigger w |}.

(** The events of a run, with the compactions it was asked for and did. *)
Inductive worker_event :=
  | ev_notify (trigger : option OptimizationTrigger) | ev_stop | ev_wake | ev_jobs_ok | ev_jobs_raise
  | ev_compacted (trigger : OptimizationTrigger).

Definition worker_step (e : worker_event) (w : worker) : option worker :=
  match e, wk_at w with
  | ev_notify trigger, _ => Some (notify trigger w)
  | ev_stop, _ => Some (ask_stop w)
  | ev_wake, at_wait => if wk_wake w then Some (wakes w) else None
  | ev_jobs_ok, at_jobs => Some (jobs_returned w)
  | ev_jobs_raise, at_jobs => Some (turn_ends w)
  | ev_compacted t, at_compact t' => if bool_decide (ot_event_uid t = ot_event_uid t' ∧ ot_thread_id t = ot_thread_id t')
                                     then Some (turn_ends w) else None
  | _, _ => None
  end.

Fixpoint worker_run (trace : list worker_event) (w : worker) : option worker :=
  match trace with
  | [] => Some w
  | e :: trace => w ← worker_step e w; worker_run trace w
  end.

(** The compactions a trace asked for and carried out. *)
Definition asked (trace : list worker_event) : list OptimizationTrigger :=
  omap (λ e, match e with ev_notify (Some t) => Some t | _ => None end) trace.
Definition compacted (trace : list worker_event) : list OptimizationTrigger :=
  omap (λ e, match e with ev_compacted t => Some t | _ => None end) trace.
Definition no_raise (e : worker_event) : Prop := match e with ev_jobs_raise => False | _ => True end.

(** What is still to do about the asked compactions: the newest is pending,
    under way, or done. *)
Definition newest_handled (trace : list worker_event) (w : worker) : Prop :=
  match last (asked trace) with
  | None => wk_pending_trigger w = None ∧ (∀ t, wk_at w ≠ at_compact t) ∧ compacted trace = []
  | Some t =>
      wk_pending_trigger w = Some t ∨
      wk_pending_trigger w = None ∧ (wk_at w = at_compact t ∨ last (compacted trace) = Some t ∧ ∀ u, wk_at w ≠ at_compact u)
  end.

(** No wake-up is lost: what is pending will be seen, because a turn is coming
    or has not yet taken it. *)
Definition will_see (w : worker) : Prop :=
  is_Some (wk_pending_trigger w) → wk_wake w = true ∨ wk_at w = at_jobs ∨ wk_at w = at_end.

Lemma worker_run_snoc trace e w : worker_run (trace ++ [e]) w = (w' ← worker_run trace w; worker_step e w').
Proof.
  revert w. induction trace as [|e' trace IH]; intros w; cbn [app worker_run].
  - cbn. by destruct (worker_step e w).
  - destruct (worker_step e' w); [apply IH|done].
Qed.

Lemma trigger_eta t t' : ot_event_uid t = ot_event_uid t' → ot_thread_id t = ot_thread_id t' → t = t'.
Proof. by destruct t, t'; cbn; intros -> ->. Qed.

Lemma asked_snoc trace e : asked (trace ++ [e]) = asked trace ++ match e with ev_notify (Some t) => [t] | _ => [] end.
Proof. unfold asked. rewrite omap_app. by destruct e as [[]| | | | |]. Qed.

Lemma compacted_snoc trace e : compacted (trace ++ [e]) = compacted trace ++ match e with ev_compacted t => [t] | _ => [] end.
Proof. unfold compacted. rewrite omap_app. by destruct e as [[]| | | | |]. Qed.

Lemma newest_step trace e w w' :
  newest_handled trace w → worker_step e w = Some w' → newest_handled (trace ++ [e]) w'.
Proof.
  unfold newest_handled. rewrite asked_snoc, compacted_snoc. intros Hnew Hstep.
  destruct w as [at_ wake stop pending]. cbn [wk_pending_trigger wk_at] in *.
  destruct e as [[t|]| | | | |t]; cbn in Hstep; rewrite ?last_snoc, ?app_nil_r in *; try (injection Hstep as <-; by auto).
  - destruct at_; try done. destruct wake; [|done]. injection Hstep as <-. cbn. destruct (last (asked trace)); [|naive_solver by destruct stop].
    destruct Hnew as [?|[? [?|[? _]]]]; [by left|done|right]. split; [done|]. right. split; [done|]. by destruct stop.
  - destruct at_; try done. injection Hstep as <-. cbn. destruct (last (asked trace)) as [t|].
    + destruct Hnew as [->|[-> [?|[? _]]]]; [right; auto|done|right]. auto.
    + destruct Hnew as (-> & _ & ->). by split_and!.
  - destruct at_; try done. injection Hstep as <-. cbn. destruct (last (asked trace)) as [t|].
    + destruct Hnew as [->|[-> [?|[? _]]]]; [by left|done|right]. auto.
    + destruct Hnew as (-> & _ & ->). by split_and!.
  - destruct at_ as [| |t'|]; try done. case_bool_decide as Ht; [|done]. injection Hstep as <-. destruct Ht as [Hu Hth].
    rewrite (trigger_eta _ _ Hu Hth). cbn. destruct (last (asked trace)) as [u|].
    + destruct Hnew as [->|[-> [[= ->]|[_ Hno]]]]; [by left|right; auto|by destruct (Hno t')].
    + destruct Hnew as (_ & Hno & _). by destruct (Hno t').
Qed.

Lemma will_see_step e w w' : no_raise e → will_see w → worker_step e w = Some w' → will_see w'.
Proof.
  unfold will_see. destruct w as [at_ wake stop pending]. cbn [wk_pending_trigger wk_at wk_wake]. intros He Hsee Hstep.
  destruct e as [t| | | | |t]; [by injection Hstep as <-; left|by injection Hstep as <-; left|..]; destruct at_ as [| |t'|]; try done; cbn in Hstep.
  - destruct wake; [|done]. injection Hstep as <-. cbn. right. destruct stop; auto.
  - injection Hstep as <-. by intros [? [=]].
  - case_bool_decide; [|done]. injection Hstep as <-. cbn. intros Hp. destruct (Hsee Hp) as [?|[?|?]]; auto; done.
Qed.

Lemma worker_invariant trace w :
  worker_run trace (started None) = Some w → newest_handled trace w ∧ (Forall no_raise trace → will_see w) ∧
  (∀ t, t ∈ compacted trace ∨ wk_at w = at_compact t ∨ wk_pending_trigger w = Some t → t ∈ asked trace).
Proof.
  revert w. induction trace as [|e trace IH] using rev_ind; intros w.
  { intros [= <-]. split_and!; [by split_and!|by intros _ [? ?]|]. intros t [?%elem_of_nil|[?|?]]; done. }
  rewrite worker_run_snoc. destruct (worker_run trace (started None)) as [w0|] eqn:E; [|done]. cbn [mbind option_bind]. intros Hstep.
  destruct (IH w0 eq_refl) as (Hnew & Hsee & Hasked). split_and!.
  - by eapply newest_step.
  - intros [Ht [He _]%Forall_cons]%Forall_app. exact (will_see_step _ _ _ He (Hsee Ht) Hstep).
  - intros t Ht. rewrite asked_snoc, elem_of_app. rewrite compacted_snoc, elem_of_app in Ht.
    destruct w0 as [at_ wake stop pending]. cbn [wk_pending_trigger wk_at] in *.
    destruct e as [[u|]| | | | |u]; cbn in Hstep; try (injection Hstep as <-); cbn in Ht; rewrite ?elem_of_nil in Ht.
    + destruct Ht as [[Ht|[]]|[Ht|[= ->]]]; [left; apply Hasked; auto|left; apply Hasked; auto|right; by left].
    + left. apply Hasked. tauto.
    + left. apply Hasked. tauto.
    + destruct at_; try done. destruct wake; [|done]. injection Hstep as <-. cbn in Ht. left. apply Hasked.
      destruct Ht as [[?|[]]|[Ht|?]]; auto. by destruct stop.
    + destruct at_; try done. injection Hstep as <-. cbn in Ht. left. apply Hasked. destruct Ht as [[?|[]]|[Ht|[=]]]; auto.
      destruct pending; [|done]. injection Ht as ->. auto.
    + destruct at_; try done. injection Hstep as <-. cbn in Ht. left. apply Hasked. destruct Ht as [[?|[]]|[Ht|?]]; auto. done.
    + destruct at_ as [| |u'|]; try done. case_bool_decide as Hu; [|done]. injection Hstep as <-. destruct Hu as [Hu Hth].
      pose proof (trigger_eta _ _ Hu Hth) as ->. cbn in Ht. left. apply Hasked.
      destruct Ht as [[?|Hx%list_elem_of_singleton]|[Ht|?]]; [auto| |done|auto]. rewrite Hx. auto.
Qed.


Definition trigger_a : OptimizationTrigger := {| ot_event_uid := lit "a"; ot_thread_id := None |}.
Definition trigger_b : OptimizationTrigger := {| ot_event_uid := lit "b"; ot_thread_id := None |}.

(** The second trigger replaces the first one and is carried out. *)
Definition coalesced : list worker_event :=
  [ev_wake; ev_notify (Some trigger_a); ev_notify (Some trigger_b); ev_jobs_ok; ev_compacted trigger_b].


(** When a job raises, a pending compaction waits with the event cleared: only
    another notification, or the end of the process, moves the worker. *)
Theorem worker_stalls :
  ∃ trace w, worker_run trace (started None) = Some w ∧ wk_pending_trigger w = Some trigger_a ∧ wk_stop w = false ∧
    ∀ e, is_Some (worker_step e w) → (∃ t, e = ev_notify t) ∨ e = ev_stop.
Proof.
  exists [ev_notify (Some trigger_a); ev_wake; ev_jobs_raise]. eexists. split; [vm_compute; reflexivity|]. split; [done|].
  split; [done|]. intros e [w' He]. destruct e; try done; eauto.
Qed.
