(* ===== verification/M2kValues.v ===== *)
(** * The values a person may set: [src/src/spine/m2k/service.py] and [m2k/contracts.py]

    Reading them from a stored configuration, printing them, what changed
    between two sets of values, and the views of configurations. *)
From Stdlib Require Import SpecFloat.
From S2P Require Import Prelude PyStr PyFloat PyDecimal PyJson JsonText Ids Axes Scorer Features Store Sql Annotations Learner.
From S2P Require Import Queue Prepare Evidence Nominate Creation LearnerService.
Open Scope Z_scope.

Inductive m2k_error :=
  | M2KStateError (reason : str)
  | M2kRaised (e : pyexn)
  | M2kLearnerError (e : learner_error).

Definition m2k_raised {A} (r : res pyexn A) : res m2k_error A :=
  match r with Ok x => Ok x | Err e => Err (M2kRaised e) end.
Definition state_error {A} (reason : str) : res m2k_error A := Err (M2KStateError reason).

(** [except (KeyError, TypeError, ValueError) as error: raise M2KStateError(reason)]. *)
Definition wrapped {A} (reason : str) (r : res pyexn A) : res m2k_error A :=
  match r with
  | Err (KeyError _) | Err (TypeError _) | Err (ValueError _) => state_error reason
  | r => m2k_raised r
  end.

(** ** Numbers read and printed *)

(** [float(s)] of a string. *)
Section float_text.
Context `{DecimalDigits}.

Definition digit_part (s : str) : option (list Z) :=
  match s with [] => Some [] | s => underscored s end.

(** The text before the first of some characters, and the text after it. *)
Fixpoint split_at (stop : N → bool) (s : str) : str * option str :=
  match s with
  | [] => ([], None)
  | c :: s => if stop c then ([], Some s) else let '(a, b) := split_at stop s in (c :: a, b)
  end.

Definition special_float (s : str) : option float :=
  let s := ascii_lower_char <$> s in
  if bool_decide (s = lit "inf") || bool_decide (s = lit "infinity") then Some (S754_infinity false)
  else if bool_decide (s = lit "nan") then Some S754_nan else None.

Definition decimal_text (s : str) : option float :=
  let '(mantissa, exponent) := split_at (λ c, (c =? 101)%N || (c =? 69)%N) s in
  let '(whole, fraction) := split_at (λ c, (c =? 46)%N) mantissa in
  whole ← digit_part whole;
  fraction ← digit_part (default [] fraction);
  e ← match exponent with
      | None => Some 0
      | Some e => let '(sign, e) := take_sign e in ds ← underscored e; Some (sign * digits_number ds)
      end;
  match whole ++ fraction with
  | [] => None
  | ds => Some (dec_float (digits_number ds) (e - zlen fraction))
  end.

Definition float_of_str (s : str) : res pyexn float :=
  let '(sign, s) := take_sign (strip s) in
  match union (special_float s) (decimal_text s) with
  | Some x => Ok (if sign <? 0 then fneg x else x)
  | None => Err (ValueError "could not convert string to float")
  end.

(** [float(value)] of a decoded JSON value. *)
Definition float_of_json (value : json) : res pyexn float :=
  match value with
  | JInt z => float_of_int z
  | JBool b => Ok (if b then f1 else f0)
  | JFloat x => Ok x
  | JStr s => float_of_str s
  | JNull | JList _ | JObj _ => Err (TypeError "float() argument must be a string or a real number")
  end.
End float_text.

(** [Decimal.__truediv__]: an exact quotient drops zeros toward the difference
    of the exponents. *)
Fixpoint drop_zeros (fuel : nat) (ideal : Z) (c e : Z) : dec :=
  match fuel with
  | S fuel => if (e <? ideal) && (c mod 10 =? 0) then drop_zeros fuel ideal (c / 10) (e + 1) else Dec c e
  | O => Dec c e
  end.

Definition dec_truediv (a b : dec) : res pyexn dec :=
  if coef b =? 0 then Err (DecimalException (if coef a =? 0 then "InvalidOperation" else "DivisionByZero"))
  else if coef a =? 0 then ctx_fix DECIMAL_PREC (Dec 0 (dexp a - dexp b))
  else
    let ideal := dexp a - dexp b in
    let shift := digit_count (coef b) - digit_count (coef a) + DECIMAL_PREC + 1 in
    let num := Z.abs (coef a) * (if 0 <=? shift then 10 ^ shift else 1) in
    let den := Z.abs (coef b) * (if 0 <=? shift then 1 else 10 ^ (- shift)) in
    let q := num / den in
    let s := Z.sgn (coef a) * Z.sgn (coef b) in
    ctx_fix DECIMAL_PREC
      (if num mod den =? 0 then let d := drop_zeros (Z.to_nat (digit_count q)) ideal q (ideal - shift) in Dec (s * coef d) (dexp d)
       else Dec (s * (if q mod 5 =? 0 then q + 1 else q)) (ideal - shift)).

(** [format(value, "f")], and zero without a sign: [_decimal_string] of a decimal
    that is not a negative zero. *)
Definition decimal_string (d : dec) : str :=
  let ds := str_of_N (Z.to_N (Z.abs (coef d))) in
  (if coef d <? 0 then lit "-" else [])
  ++ if (coef d =? 0) && (0 <? dexp d) then lit "0"
     else if 0 <=? dexp d then ds ++ zeros (dexp d)
     else
       let places := Z.to_nat (- dexp d) in
       let ds := zeros (Z.of_nat places + 1 - zlen ds) ++ ds in
       take (length ds - places)%nat ds ++ lit "." ++ drop (length ds - places)%nat ds.

Definition negative_zero (x : float) : bool := match x with S754_zero s => s | _ => false end.

(** [_decimal_string] of a float. *)
Definition float_string (x : float) : res m2k_error str :=
  guard_ (isfinite x) (M2KStateError (lit "invalid_decimal"));;
  Ok (if negative_zero x then lit "0" else decimal_string (dec_of_repr x)).

Example decimal_string_samples :
  (decimal_string <$> [Dec 12345 (-2); Dec (-5) (-3); Dec 7 2; Dec 0 3; Dec 0 (-2)]) =
  (lit <$> ["123.45"; "-0.005"; "700"; "0"; "0.00"]%string).
Proof. vm_compute. reflexivity. Qed.
Example dec_truediv_samples :
  [dec_truediv (Dec 300 0) (Dec 4 0); dec_truediv (Dec 200 0) (Dec 3 0); dec_truediv (Dec 0 0) (Dec 3 0)] =
  [Ok (Dec 75 0); Ok (Dec 6666666666666666666666666667 (-26)); Ok (Dec 0 0)].
Proof. vm_compute. reflexivity. Qed.
Example float_of_str_samples :
  ((λ s : string, match float_of_str (lit s) with Ok x => Some (float_repr x) | Err _ => None end) <$>
     ["0.55"; " 1_0.5e-1 "; "-.5"; "5."; "."; "1__0"; "inf"; "1e999"]%string) =
  [Some (lit "0.55"); Some (lit "1.05"); Some (lit "-0.5"); Some (lit "5.0"); None; None; Some (lit "inf"); Some (lit "inf")].
Proof. vm_compute. reflexivity. Qed.

(** ** Scorer values *)
Record ScorerValues := {
  sv_tau : float;
  sv_top_k : Z;
  sv_memory_context_share : float;
  sv_half_life_time_days : float;
  sv_half_life_hist_days : float;
  sv_weights : ScorerWeights;
}.

Definition in_range (lo hi x : float) : bool := fle lo x && fle x hi.

(** The field bounds and [exact_weight_vector]; the weights are summed in the
    order of [FEATURE_NAMES]. *)
Definition weights_ok (w : ScorerWeights) : bool :=
  forallb (in_range f0 f1) (weight_values w)
  && negb (flt (f_ratio 1 1000000000) (fabs (fsub (py_sum (weight_values w)) f1))).

Definition values_ok (v : ScorerValues) : bool :=
  in_range f0 f1 (sv_tau v) && (1 <=? sv_top_k v) && (sv_top_k v <=? 8)
  && in_range Scorer.MIN_MEMORY_CONTEXT_SHARE Scorer.MAX_MEMORY_CONTEXT_SHARE (sv_memory_context_share v)
  && flt f0 (sv_half_life_time_days v) && flt f0 (sv_half_life_hist_days v) && weights_ok (sv_weights v).

Definition validated (v : ScorerValues) : res pyexn ScorerValues :=
  guard_ (values_ok v) (ValueError "ScorerValues");; Ok v.

(** [mapping[key]] of a decoded JSON value. *)
Definition json_subscript (mapping : json) (key : string) : res pyexn json :=
  match mapping with JObj kv => subscript kv key | _ => Err (TypeError "indices must be integers") end.

Definition invalid_scorer (row : ScorerConfigRow) : str := lit "invalid_scorer:" ++ sc_version row.

Section values.
Context `{DecimalDigits}.

Definition raw_values (row : ScorerConfigRow) : res pyexn ScorerValues :=
  match sc_params row with
  | JObj params =>
      let raw_share := default (jget_or_null (lit "budget_pct") params) (aget (lit "memory_context_share") params) in
      tau ← (v ← subscript params "tau"; float_of_json v);
      top_k ← (v ← subscript params "top_k"; int_of_json v);
      share ← float_of_json raw_share;
      ht ← (v ← subscript params "half_life_time_days"; float_of_json v);
      hh ← (v ← subscript params "half_life_hist_days"; float_of_json v);
      ws ← res_map (λ name, v ← json_subscript (sc_weights row) name; float_of_json v) weight_names;
      match weights_of_values ws with
      | Some w => validated {| sv_tau := tau; sv_top_k := top_k; sv_memory_context_share := share;
                               sv_half_life_time_days := ht; sv_half_life_hist_days := hh; sv_weights := w |}
      | None => Err (TypeError "ScorerValues")
      end
  | _ => Err (AttributeError "get")
  end.

(** [_values]. *)
Definition values_of_row (row : ScorerConfigRow) : res m2k_error ScorerValues :=
  wrapped (invalid_scorer row) (raw_values row).
End values.

(** [_flat_values]. *)
Definition flat_values (v : ScorerValues) : list (str * json) :=
  [(lit "scorer.tau", JFloat (sv_tau v)); (lit "scorer.top_k", JInt (sv_top_k v));
   (lit "scorer.memory_context_share", JFloat (sv_memory_context_share v));
   (lit "scorer.half_life_time_days", JFloat (sv_half_life_time_days v));
   (lit "scorer.half_life_hist_days", JFloat (sv_half_life_hist_days v))]
  ++ zip_with (λ name w, (lit "scorer.weight." ++ lit name, JFloat w)) weight_names (weight_values (sv_weights v)).

(** [_changes]: the values that differ, with what they were. *)
Definition changes (old new : ScorerValues) : list (str * json) :=
  omap (λ on : (str * json) * (str * json),
          if number_eqb on.1.2 on.2.2 then None
          else Some (on.1.1, JObj [(lit "old", on.1.2); (lit "new", on.2.2)]))
       (zip (flat_values old) (flat_values new)).

(** [values.model_dump()], without the weights and with them. *)
Definition dump_params (v : ScorerValues) : list (str * json) :=
  [(lit "tau", JFloat (sv_tau v)); (lit "top_k", JInt (sv_top_k v));
   (lit "memory_context_share", JFloat (sv_memory_context_share v));
   (lit "half_life_time_days", JFloat (sv_half_life_time_days v));
   (lit "half_life_hist_days", JFloat (sv_half_life_hist_days v))].
Definition dump_weights (w : ScorerWeights) : list (str * json) :=
  zip_with (λ name w, (lit name, JFloat w)) weight_names (weight_values w).
Definition dump_values (v : ScorerValues) : json :=
  JObj (dump_params v ++ [(lit "weights", JObj (dump_weights (sv_weights v)))]).

(** ** Configurations *)

(** [_runtime]. *)
Definition runtime `{AxisDecoder} (row : ScorerConfigRow) : res m2k_error ScorerConfig :=
  wrapped (invalid_scorer row) (config_of_row row).

Definition learner_field (row : ScorerConfigRow) : option (list (str * json)) :=
  match jget (lit "_learner") (sc_params row) with Some (JObj kv) => Some kv | _ => None end.

(** [isinstance(learner, Mapping) and learner.get("status") == "proposed"]. *)
Definition learner_proposed (row : ScorerConfigRow) : bool :=
  match (kv ← learner_field row; aget (lit "status") kv) with
  | Some (JStr s) => bool_decide (s = lit "proposed")
  | _ => false
  end.

Definition controlled (row : ScorerConfigRow) : bool := bool_decide (is_Some (jget (lit "_control") (sc_params row))).

Inductive config_status := status_active | status_proposed | status_inactive.
#[export] Instance config_status_eq_dec : EqDecision config_status.
Proof. solve_decision. Defined.

Definition config_status_of (row : ScorerConfigRow) : config_status :=
  if sc_active row then status_active
  else if learner_proposed row && negb (controlled row) then status_proposed else status_inactive.

Record ScorerConfigurationView := {
  cv_version : str;
  cv_created_at : Z;
  cv_status : config_status;
  cv_values : ScorerValues;
  cv_replay : option (list (str * json));
  cv_axes : list (str * json);
  cv_project_offsets : list (str * json);
}.

(** [dict[str, Any] = {}]. *)
Definition dict_field (params : list (str * json)) (name : string) : res m2k_error (list (str * json)) :=
  match aget (lit name) params with
  | None => Ok []
  | Some (JObj kv) => Ok kv
  | Some _ => Err (M2kRaised (ValueError "ScorerConfigurationView"))
  end.

(** [_config_view]. *)
Definition config_view `{DecimalDigits} (row : ScorerConfigRow) : res m2k_error ScorerConfigurationView :=
  match sc_params row with
  | JObj params =>
      values ← values_of_row row;
      axes ← dict_field params "axes";
      offsets ← dict_field params "project_offsets";
      guard_ (bool_decide (strip (sc_version row) ≠ [])  && bool_decide (sc_version row = strip (sc_version row)))
        (M2kRaised (ValueError "ScorerConfigurationView"));;
      Ok {| cv_version := sc_version row; cv_created_at := sc_created_at row; cv_status := config_status_of row;
            cv_values := values;
            cv_replay := match (kv ← learner_field row; aget (lit "replay") kv) with Some (JObj kv) => Some kv | _ => None end;
            cv_axes := axes; cv_project_offsets := offsets |}
  | _ => Err (M2kRaised (AttributeError "get"))
  end.

(** [_active_config]. *)
Definition the_active (d : db) : res m2k_error ScorerConfigRow :=
  match active_rows d with [row] => Ok row | _ => state_error (lit "invalid_active_scorer") end.
