(* ===== verification/M2kReplay.v ===== *)
(** * Replaying scorer values: [src/src/spine/m2k/service.py]

    The receipt of a simulation scores the values against the held-out gates of
    the log and is named by a digest; a recorded gate can be looked at under
    other values, and one parameter can be sliced. *)
From Stdlib Require Import SpecFloat.
From S2P Require Import Prelude PyStr PyFloat PyDecimal PyJson JsonText Ids Axes Scorer Features Store Sql Annotations Learner.
From S2P Require Import Queue Prepare Evidence Nominate Creation LearnerService M2kValues.
Open Scope Z_scope.

(** ** The score of a recorded row *)

(** A number as an operand of a float. *)
Definition operand (v : json) : res pyexn float :=
  match v with
  | JInt z => float_of_int z
  | JBool b => Ok (if b then f1 else f0)
  | JFloat x => Ok x
  | _ => Err (TypeError "can't multiply sequence by non-int of type 'float'")
  end.

(** [math.prod] of two numbers: integers multiply exactly. *)
Definition num_prod (a b : json) : res pyexn json :=
  match json_int a, json_int b with
  | Some x, Some y => Ok (JInt (x * y))
  | _, _ => x ← operand a; y ← operand b; Ok (JFloat (fmul x y))
  end.

(** One locality of [score_features]. *)
Definition mix_json (features : list (str * json)) (score : float) (wn : float * string) : res pyexn float :=
  match jget_or_null (lit wn.2) features with
  | JNull => Ok score
  | value => x ← operand value; Ok (mix wn.1 score x)
  end.

Definition apply_axis_json (features : list (str * json)) (score : float) (na : str * AxisNomination) :
    res pyexn float :=
  let input f := jget_or_null (lit (feature_key f)) features in
  match input (axis_inputs na.2).1, input (axis_inputs na.2).2 with
  | JNull, _ | _, JNull => Ok score
  | a, b =>
      product ← num_prod a b;
      if feq (axis_weight na.2) f0 then Ok score
      else x ← operand product; Ok (mix (axis_weight na.2) score x)
  end.

(** [score_features] of a mapping that holds JSON values. *)
Definition score_json (features : list (str * json)) (w : ScorerWeights) (p : ScorerParams)
    (axes : list (str * AxisNomination)) : res pyexn float :=
  terms ← res_map (λ nw : string * float, v ← subscript features nw.1; x ← operand v; Ok (fmul nw.2 x))
                  (zip weight_names (weight_values w));
  score ← fsum terms;
  score ← res_fold (mix_json features) score
            [(location_weight p, "loc"); (thread_weight p, "thread"); (where_weight p, "where")]%string;
  res_fold (apply_axis_json features) score (sort_axes axes).

(** [_feature]. *)
Definition row_feature (row : InjectionEvent) (name : string) : res m2k_error float :=
  let invalid := M2KStateError (lit "invalid_event_feature:" ++ i_event_uid row ++ lit ":" ++ lit name) in
  x ← match jget_or_null (lit name) (i_features row) with
      | JInt z => m2k_raised (float_of_int z)
      | JFloat x => Ok x
      | _ => Err invalid
      end;
  guard_ (isfinite x && in_range f0 f1 x) invalid;;
  Ok x.

(** [pow(x, y)] of the C library. *)
Class LibmPow := { libm_pow : float → float → float }.

(** [x ** y] of a float that is not negative. *)
Definition py_pow `{LibmPow} (x y : float) : res pyexn float :=
  guard_ (isfinite (libm_pow x y) || negb (isfinite x && isfinite y)) (OverflowError "Numerical result out of range");;
  Ok (libm_pow x y).

(** [_rescale_decay]. *)
Definition rescale_decay `{LibmPow} (value source_half_life target_half_life : float) : res pyexn float :=
  if feq value f0 then Ok f0
  else y ← pydiv source_half_life target_half_life; py_pow value y.

(** The six features as the values would decay them. *)
Definition adjusted_features `{LibmPow} (row : InjectionEvent) (source : ScorerConfig) (values : ScorerValues) :
    res m2k_error (list float) :=
  original ← res_map (row_feature row) weight_names;
  match original with
  | [sem; kw; time; proj; freq; hist] =>
      time ← m2k_raised (rescale_decay time (half_life_time_days (params source)) (sv_half_life_time_days values));
      hist ← m2k_raised (rescale_decay hist (half_life_hist_days (params source)) (sv_half_life_hist_days values));
      Ok [sem; kw; time; proj; freq; hist]
  | original => Ok original
  end.

(** The part of the recorded score that no value moves. *)
Definition baseline (row : InjectionEvent) (source : ScorerConfig) : res pyexn float :=
  w ← weights_for_project source (i_project_key row);
  source_score ← score_json (i_features row) w (params source) (axes source);
  Ok (fsub (fsub (i_score row) source_score) (bias_offset source (i_memory_id row))).

(** [float(raw)] of a number that is not a [bool], else [None]. *)
Definition plain_number (row : InjectionEvent) (name : string) : res pyexn (option float) :=
  match jget_or_null (lit name) (i_features row) with
  | JInt z => x ← float_of_int z; Ok (Some x)
  | JFloat x => Ok (Some x)
  | _ => Ok None
  end.

Definition frozen_text (row : InjectionEvent) (name : string) : option str :=
  memory ← aget (lit "_memory") (i_features row); v ← jget (lit name) memory; as_str v.

(** [_example]. *)
Definition rescaled_example `{Tokenizer} `{LibmPow} (row : InjectionEvent) (source : ScorerConfig)
    (values : ScorerValues) (target : bool) (weight : dec) : res m2k_error LearningExample :=
  features ← adjusted_features row source values;
  location ← m2k_raised (plain_number row "loc");
  thread ← m2k_raised (plain_number row "thread");
  where_ ← m2k_raised (plain_number row "where");
  baseline_bias ← m2k_raised (baseline row source);
  match frozen_text row "body" with
  | None => state_error (lit "event_not_replayable:" ++ i_event_uid row)
  | Some body =>
      Ok {| le_event_uid := i_event_uid row; le_injection_id := i_injection_id row; le_memory_id := i_memory_id row;
            le_ts := i_ts row; le_features := features; le_baseline_bias := baseline_bias;
            le_target_injected := target; le_actor_weight := weight; le_shown_as := i_shown_as row;
            le_body_tokens := cl100k_token_count body; le_location_feature := location;
            le_location_weight := location_weight (params source); le_thread_feature := thread;
            le_thread_id := None; le_where_feature := where_; le_where_weight := where_weight (params source);
            le_project_key := i_project_key row |}
  end.

Definition rescale_examples `{Tokenizer} `{LibmPow} (rows : list InjectionEvent) (configs : gmap str ScorerConfig)
    (values : ScorerValues) (examples : list LearningExample) : res m2k_error (list LearningExample) :=
  let by_uid : gmap str InjectionEvent := list_to_map (reverse ((λ row, (i_event_uid row, row)) <$> rows)) in
  res_map (λ e,
    match by_uid !! le_event_uid e with
    | None => Err (M2kRaised (KeyError (le_event_uid e)))
    | Some row =>
        match configs !! i_scorer_version row with
        | None => Err (M2kRaised (KeyError (i_scorer_version row)))
        | Some source => rescaled_example row source values (le_target_injected e) (le_actor_weight e)
        end
    end) examples.

(** ** The receipt of a simulation *)

(** [project_offsets.get(project_key, {})], for the examples that ask. *)
Definition offsets_of (project_offsets : json) (project : str) : res pyexn (list (string * float)) :=
  match project_offsets with
  | JObj kv =>
      match aget project kv with
      | None => Ok []
      | Some (JObj offsets) =>
          res_map (λ nv : string * json, x ← operand nv.2; Ok (nv.1, x))
            (omap (λ name, v ← aget (lit name) offsets; Some (name, v)) weight_names)
      | Some _ => Err (AttributeError "get")
      end
  | JNull | JBool false | JStr [] | JList [] => Ok []
  | _ => Err (AttributeError "get")
  end.

Definition asked_projects (examples : list LearningExample) : list str :=
  remove_dups (omap le_project_key (filter (λ e, le_shown_as e ≠ shown_pinned) examples)).

Definition offsets_for (base : ScorerConfig) (examples : list LearningExample) :
    res pyexn (list (str * list (string * float))) :=
  res_map (λ project, o ← offsets_of (project_offsets base) project; Ok (project, o)) (asked_projects examples).

(** [challenger_score] of scorer values over the rest of a configuration, at a
    threshold and a share. *)
Definition values_score (base : ScorerConfig) (w : ScorerWeights) (at_tau at_share : float)
    (boundaries : list ShareBoundary) (examples : list LearningExample) : res pyexn ReplayScore :=
  offsets ← offsets_for base examples;
  challenger_score examples
    {| ch_weights := weight_values w; ch_bias_offsets := bias_offsets base;
       ch_thread_weight := thread_weight (params base); ch_where_weight := where_weight (params base);
       ch_tau := at_tau; ch_project_offsets := offsets; ch_axes := axes base |}
    boundaries at_share.

(** [_accuracy]: the share of memories agreed on, in percent. *)
Definition accuracy (score : option ReplayScore) (count : Z) : res pyexn (option dec) :=
  match score with
  | None => Ok None
  | Some score =>
      if count =? 0 then Ok None
      else
        let memory_disagreements := disagreements score - share_disagreements score in
        n ← ctx_mul DECIMAL_PREC (dec_of_Z 100) (dec_of_Z (count - memory_disagreements));
        q ← dec_truediv n (dec_of_Z count); Ok (Some q)
  end.

Record Terrain := { tn_tau : float; tn_share : float; tn_agreement : float }.

Record ScorerReceipt := {
  sr_terrain : list Terrain;
  sr_simulation_digest : str;
  sr_base_version : str;
  sr_values : ScorerValues;
  sr_source_boundary : option str;
  sr_holdout_dispositions : Z;
  sr_accuracy_percent : option str;
  sr_incumbent_accuracy_percent : option str;
  sr_delta_percent : option str;
}.

Definition jopt (s : option str) : json := match s with Some s => JStr s | None => JNull end.

Definition digest_payload (base_version : str) (values : ScorerValues) (source_boundary : option str) (holdout : Z)
    (incumbent accuracy delta : option str) : json := JObj
  [(lit "base_version", JStr base_version); (lit "values", dump_values values);
   (lit "source_boundary", jopt source_boundary); (lit "holdout_dispositions", JInt holdout);
   (lit "incumbent_accuracy_percent", jopt incumbent); (lit "accuracy_percent", jopt accuracy);
   (lit "delta_percent", jopt delta)].

(** The 81 points of the terrain: thresholds and shares. *)
Definition terrain_grid : list (float * float) :=
  tau_step ← seqZ 0 9; share_step ← seqZ 0 9;
  [(f_ratio tau_step 8, fadd (f_ratio 1 100) (fdiv (fmul (f_of_Z share_step) (f_ratio 49 100)) (f_of_Z 8)))].

Section receipt.
Context `{Tokenizer} `{LibmPow} `{AxisDecoder} `{DecimalDigits} `{PyRepr} `{Unicode} `{Sha256} `{Collation}.
Context (holdout_fraction passive_discount : float).

Definition events_of (principal_id : option str) (d : db) : list InjectionEvent :=
  sort_by (leb_of LearnerService.event_order)
    (filter (λ e, bool_decide (i_principal_id e = default (i_principal_id e) principal_id) = true) (rows (events d))).

(** The annotations of those events. *)
Definition annotations_of (events : list InjectionEvent) (annotated : annotations) : annotations :=
  filter (λ ua, ua.1 ∈ (i_event_uid <$> events)) annotated.

Definition all_runtimes (d : db) : res m2k_error (gmap str ScorerConfig) :=
  pairs ← res_map (λ row, config ← runtime row; Ok (sc_version row, config)) (Store.rows (scorer_configs d));
  Ok (list_to_map pairs).

Definition replayed {A} (r : res learner_error A) : res m2k_error A :=
  match r with
  | Ok x => Ok x
  | Err (LearnerDataError message) => state_error (lit "invalid_learning_evidence:" ++ message)
  | Err (LearnerRaised e) => Err (M2kRaised e)
  | Err e => Err (M2kLearnerError e)
  end.

(** The held-out examples, none when the log is too short to split. *)
Definition held_out (examples : list LearningExample) : res m2k_error (list LearningExample) :=
  match examples with
  | [] => Ok []
  | _ =>
      match split_gates examples holdout_fraction with
      | Ok (_, holdout, _) => Ok holdout
      | Err (ValueError _) => Ok []
      | Err e => Err (M2kRaised e)
      end
  end.

Definition terrain_point (base : ScorerConfig) (w : ScorerWeights) (boundaries : list ShareBoundary)
    (holdout : list LearningExample) (at_ : float * float) : res m2k_error Terrain :=
  score ← m2k_raised (values_score base w at_.1 at_.2 boundaries holdout);
  ratio ← m2k_raised (let n := zlen holdout + zlen boundaries in
            guard_ (negb (n =? 0)) (ZeroDivisionError);; Ok (f_ratio (disagreements score) n));
  Ok {| tn_tau := at_.1; tn_share := at_.2; tn_agreement := fmul (f_of_Z 100) (fsub f1 ratio) |}.

(** [None] when there is no holdout. *)
Definition score_on (base : ScorerConfig) (values : ScorerValues) (boundaries : list ShareBoundary)
    (holdout examples : list LearningExample) : res m2k_error (option ReplayScore) :=
  match holdout with
  | [] => Ok None
  | _ => score ← m2k_raised (values_score base (sv_weights values) (sv_tau values) (sv_memory_context_share values) boundaries examples);
         Ok (Some score)
  end.

(** [_deep_receipt]. *)
Definition deep_receipt (base : ScorerConfigRow) (values : ScorerValues) (principal_id : option str)
    (include_terrain : bool) (d : db) (annotated : annotations) : res m2k_error ScorerReceipt :=
  configs ← all_runtimes d;
  let rows := events_of principal_id d in
  evidence ← replayed (project_learning_evidence (dec_of_repr passive_discount) rows (annotations_of rows annotated) configs);
  examples ← rescale_examples rows configs values (ev_examples evidence);
  let source_boundary := last (sort_by str_leb (le_event_uid <$> examples)) in
  holdout ← held_out examples;
  let boundaries := boundaries_in holdout (ev_share_boundaries evidence) in
  base_runtime ← runtime base;
  incumbent_values ← values_of_row base;
  served ← match holdout with [] => Ok [] | _ => rescale_examples rows configs incumbent_values holdout end;
  incumbent_score ← score_on base_runtime incumbent_values boundaries holdout served;
  preview_score ← score_on base_runtime values boundaries holdout holdout;
  incumbent_accuracy ← m2k_raised (accuracy incumbent_score (zlen holdout));
  preview_accuracy ← m2k_raised (accuracy preview_score (zlen holdout));
  delta ← m2k_raised (match preview_accuracy, incumbent_accuracy with
                      | Some a, Some b => x ← ctx_sub DECIMAL_PREC a b; Ok (Some x)
                      | _, _ => Ok None
                      end);
  terrain ← (if include_terrain && negb (bool_decide (zlen holdout = 0))
             then res_map (terrain_point base_runtime (sv_weights values) boundaries holdout) terrain_grid else Ok []);
  let shown := fmap (M := option) decimal_string in
  Ok {| sr_terrain := terrain;
        sr_simulation_digest :=
          sha256_hex (json_dumps_ascii (digest_payload (sc_version base) values source_boundary (zlen holdout)
                                          (shown incumbent_accuracy) (shown preview_accuracy) (shown delta)));
        sr_base_version := sc_version base; sr_values := values; sr_source_boundary := source_boundary;
        sr_holdout_dispositions := zlen holdout; sr_accuracy_percent := shown preview_accuracy;
        sr_incumbent_accuracy_percent := shown incumbent_accuracy; sr_delta_percent := shown delta |}.
End receipt.

(** ** One recorded gate under other values *)
Record ScorerComparisonRow := {
  cr_memory_id : uuid;
  cr_label : str;
  cr_incumbent_score : str;
  cr_preview_score : str;
  cr_score_delta : str;
  cr_incumbent_rank : Z;
  cr_preview_rank : Z;
  cr_incumbent_selected : bool;
  cr_preview_selected : bool;
}.

(** [disposition]. *)
Inductive comparison_disposition := also_shown | would_add | would_drop | still_out.
Definition disposition_of (c : ScorerComparisonRow) : comparison_disposition :=
  match cr_incumbent_selected c, cr_preview_selected c with
  | true, true => also_shown | false, true => would_add | true, false => would_drop | false, false => still_out
  end.

Inductive InstantSimulation :=
  | instant_not_requested
  | instant_not_replayable (injection_id : uuid)
  | instant_ready (injection_id : uuid) (candidates : list ScorerComparisonRow).

Record instant_candidate := {
  ic_row : InjectionEvent;
  ic_label : str;
  ic_pin : bool;
  ic_token_cost : Z;
  ic_score : float;
}.

(** [_event_selected]. *)
Definition event_selected (row : InjectionEvent) : bool :=
  match i_outcome row with
  | None => match i_shown_as row with shown_near_miss | shown_budget_cut => false | _ => true end
  | Some (kept | added_back | cited | auto_entered | mid_thread_added) => true
  | Some _ => false
  end.

Definition ic_id (c : instant_candidate) : uuid := i_memory_id (ic_row c).

(** The key [(-score, memory_id)]. *)
Definition candidate_leb (a b : instant_candidate) : bool :=
  match SFcompare (fneg (ic_score a)) (fneg (ic_score b)) with
  | Some Eq => (ic_id a <=? ic_id b)%N
  | Some Lt => true
  | _ => false
  end.

(** The greedy walk over the regular candidates. *)
Definition preview_step (at_tau : float) (st : list uuid * Z) (c : instant_candidate) : list uuid * Z :=
  let '(selected, remaining) := st in
  if fle at_tau (ic_score c) && (ic_token_cost c <=? remaining)
  then (ic_id c :: selected, remaining - ic_token_cost c) else st.

(** [_decimal_string(Decimal(str(a)) - Decimal(str(b)))]. *)
Definition delta_string (a b : float) : res pyexn str :=
  d ← ctx_sub DECIMAL_PREC (dec_of_repr a) (dec_of_repr b);
  Ok (if negative_zero a && feq b f0 && negb (negative_zero b) then lit "0" else decimal_string d).

Definition comparison_row (selected : list uuid) (rank : nat) (c : instant_candidate) : res m2k_error ScorerComparisonRow :=
  let row := ic_row c in
  incumbent ← float_string (i_score row);
  preview ← float_string (ic_score c);
  delta ← m2k_raised (delta_string (ic_score c) (i_score row));
  Ok {| cr_memory_id := i_memory_id row; cr_label := ic_label c; cr_incumbent_score := incumbent;
        cr_preview_score := preview; cr_score_delta := delta; cr_incumbent_rank := i_rank row;
        cr_preview_rank := Z.of_nat rank + 1; cr_incumbent_selected := event_selected row;
        cr_preview_selected := bool_decide (ic_id c ∈ selected) |}.

(** The order, the selection and the comparison of a gate's candidates. *)
Definition instant_rows (values : ScorerValues) (context : Z) (candidates : list instant_candidate) :
    res m2k_error (list ScorerComparisonRow) :=
  let pins := sort_by (λ a b, (ic_id a <=? ic_id b)%N) (filter (λ c, ic_pin c = true) candidates) in
  let regular := sort_by candidate_leb (filter (λ c, ic_pin c = false) candidates) in
  context ← m2k_raised (float_of_int context);
  share ← m2k_raised (py_int (fmul (sv_memory_context_share values) context));
  let '(selected, _) := foldl (preview_step (sv_tau values)) (ic_id <$> pins, Z.max 0 share) regular in
  res_map (λ rc : nat * instant_candidate, comparison_row selected rc.1 rc.2) (imap pair (pins ++ regular)).

Section instant.
Context `{Tokenizer} `{LibmPow} `{AxisDecoder} `{Collation}.

(** One candidate; [None] when the row cannot be replayed. *)
Definition instant_row (configs : gmap str ScorerConfig) (preview : ScorerConfig) (values : ScorerValues)
    (row : InjectionEvent) : res m2k_error (option instant_candidate) :=
  match configs !! i_scorer_version row with
  | None => state_error (lit "missing_event_scorer:" ++ i_scorer_version row)
  | Some source =>
      adjusted ← adjusted_features row source values;
      baseline_bias ← m2k_raised (baseline row source);
      w ← m2k_raised (weights_for_project preview (i_project_key row));
      let features := foldl (λ d nx, aset (lit nx.1) (JFloat nx.2) d) (i_features row) (zip weight_names adjusted) in
      score ← m2k_raised (score_json features w (params preview) (axes preview));
      match aget (lit "_memory") (i_features row), frozen_text row "body" with
      | Some (JObj frozen), Some body =>
          Ok (Some {| ic_row := row; ic_label := default [] (frozen_text row "label");
                      ic_pin := py_truthy (jget_or_null (lit "pin") frozen) || bool_decide (i_shown_as row = shown_pinned);
                      ic_token_cost := cl100k_token_count body;
                      ic_score := fadd (fadd score baseline_bias) (bias_offset preview (i_memory_id row)) |})
      | _, _ => Ok None
      end
  end.

(** The loop over the rows, which returns at the first one without a body. *)
Fixpoint instant_candidates (configs : gmap str ScorerConfig) (preview : ScorerConfig) (values : ScorerValues)
    (rows : list InjectionEvent) : res m2k_error (option (list instant_candidate)) :=
  match rows with
  | [] => Ok (Some [])
  | row :: rows =>
      c ← instant_row configs preview values row;
      match c with
      | None => Ok None
      | Some c => cs ← instant_candidates configs preview values rows; Ok (fmap (M := option) (cons c) cs)
      end
  end.

Definition gate_rows (principal_id : str) (injection_id : uuid) (d : db) : list InjectionEvent :=
  sort_by (leb_of (λ a b, then_by (Z.compare (i_rank a) (i_rank b)) (text_compare (i_event_uid a) (i_event_uid b))))
    (filter (λ e, i_injection_id e = injection_id ∧ i_principal_id e = principal_id) (rows (events d))).

(** [_instant]. *)
Definition instant (principal_id : str) (injection_id : option uuid) (preview : ScorerConfigRow)
    (values : ScorerValues) (d : db) : res m2k_error InstantSimulation :=
  match injection_id with
  | None => Ok instant_not_requested
  | Some injection_id =>
      let members := gate_rows principal_id injection_id d in
      match members with
      | [] => state_error (lit "missing_injection")
      | first :: _ =>
          match context_tokens [first] with
          | None => Ok (instant_not_replayable injection_id)
          | Some context =>
              configs ← all_runtimes d;
              match sc_params preview with
              | JObj params =>
                  preview_runtime ← m2k_raised (from_mappings (sc_version preview) (dump_weights (sv_weights values))
                    (foldl (λ p kv, aset kv.1 kv.2 p) params (dump_params values)));
                  candidates ← instant_candidates configs preview_runtime values members;
                  match candidates with
                  | None => Ok (instant_not_replayable injection_id)
                  | Some candidates => rows ← instant_rows values context candidates; Ok (instant_ready injection_id rows)
                  end
              | _ => Err (M2kRaised (TypeError "'list' object is not a mapping"))
              end
          end
      end
  end.
End instant.

(** ** The slice along one parameter *)
Inductive scorer_parameter :=
  | p_tau | p_top_k | p_memory_context_share | p_half_life_time_days | p_half_life_hist_days | p_weight (feature : string).

(** [float | int]. *)
Inductive point_value := pv_int (z : Z) | pv_float (x : float).

(** [_slice_values]. *)
Definition slice_values (values : ScorerValues) (parameter : scorer_parameter) : list point_value :=
  let ninths (f : Z → float) := pv_float ∘ f <$> seqZ 0 9 in
  let scaled (current : float) := ninths (λ i, fmul current (fadd (f_ratio 1 4) (fmul (f_of_Z i) (fdiv (f_ratio 7 4) (f_of_Z 8))))) in
  match parameter with
  | p_top_k => pv_int <$> seqZ 1 8
  | p_memory_context_share =>
      ninths (λ i, fadd Scorer.MIN_MEMORY_CONTEXT_SHARE
        (fdiv (fmul (f_of_Z i) (fsub Scorer.MAX_MEMORY_CONTEXT_SHARE Scorer.MIN_MEMORY_CONTEXT_SHARE)) (f_of_Z 8)))
  | p_tau | p_weight _ => ninths (λ i, f_ratio i 8)
  | p_half_life_time_days => scaled (sv_half_life_time_days values)
  | p_half_life_hist_days => scaled (sv_half_life_hist_days values)
  end.

Definition point_float (v : point_value) : float := match v with pv_int z => f_of_Z z | pv_float x => x end.
Definition point_int (v : point_value) : res pyexn Z := match v with pv_int z => Ok z | pv_float x => py_int x end.

(** One weight is set and the others share the remainder in proportion; the last
    of them takes the rounding residue. *)
Definition reweighted (w : ScorerWeights) (feature : string) (target : float) : res pyexn (list float) :=
  let remainder := fsub f1 target in
  let named := zip weight_names (weight_values w) in
  let others := filter (λ nw : string * float, nw.1 ≠ feature) named in
  other_total ← fsum others.*2;
  let spread (x : float) := if feq other_total f0 then fdiv remainder (f_of_Z (zlen others)) else fdiv (fmul remainder x) other_total in
  let moved := (λ nw : string * float, if bool_decide (nw.1 = feature) then (nw.1, target) else (nw.1, spread nw.2)) <$> named in
  total ← fsum moved.*2;
  let residue := fsub f1 total in
  let last_other := default feature (last others.*1) in
  Ok ((λ nw : string * float, if bool_decide (nw.1 = last_other) then fadd nw.2 residue else nw.2) <$> moved).

(** [_with_parameter]. *)
Definition with_parameter (v : ScorerValues) (parameter : scorer_parameter) (value : point_value) : res pyexn ScorerValues :=
  let build t k s ht hh w := validated {| sv_tau := t; sv_top_k := k; sv_memory_context_share := s;
    sv_half_life_time_days := ht; sv_half_life_hist_days := hh; sv_weights := w |} in
  let x := point_float value in
  match parameter with
  | p_weight feature =>
      ws ← reweighted (sv_weights v) feature x;
      match weights_of_values ws with
      | Some w => build (sv_tau v) (sv_top_k v) (sv_memory_context_share v) (sv_half_life_time_days v) (sv_half_life_hist_days v) w
      | None => Err (TypeError "ScorerValues")
      end
  | p_tau => build x (sv_top_k v) (sv_memory_context_share v) (sv_half_life_time_days v) (sv_half_life_hist_days v) (sv_weights v)
  | p_top_k =>
      k ← point_int value;
      build (sv_tau v) k (sv_memory_context_share v) (sv_half_life_time_days v) (sv_half_life_hist_days v) (sv_weights v)
  | p_memory_context_share => build (sv_tau v) (sv_top_k v) x (sv_half_life_time_days v) (sv_half_life_hist_days v) (sv_weights v)
  | p_half_life_time_days => build (sv_tau v) (sv_top_k v) (sv_memory_context_share v) x (sv_half_life_hist_days v) (sv_weights v)
  | p_half_life_hist_days => build (sv_tau v) (sv_top_k v) (sv_memory_context_share v) (sv_half_life_time_days v) x (sv_weights v)
  end.

Section simulate.
Context `{Tokenizer} `{LibmPow} `{AxisDecoder} `{DecimalDigits} `{PyRepr} `{Unicode} `{Sha256} `{Collation}.
Context (holdout_fraction passive_discount : float).

(** [_slice]. *)
Definition accuracy_slice (base : ScorerConfigRow) (values : ScorerValues) (parameter : scorer_parameter)
    (principal_id : option str) (d : db) (annotated : annotations) : res m2k_error (list (point_value * option str)) :=
  res_map (λ value,
    candidate ← m2k_raised (with_parameter values parameter value);
    receipt ← deep_receipt holdout_fraction passive_discount base candidate principal_id false d annotated;
    Ok (value, sr_accuracy_percent receipt)) (slice_values values parameter).

Record ScorerSimulationRequest := {
  sq_principal_id : str;
  sq_injection_id : option uuid;
  sq_base_version : str;
  sq_values : ScorerValues;
  sq_slice_parameter : scorer_parameter;
}.

(** [simulate]: the receipt, the recorded gate and the slice. *)
Definition simulate (body : ScorerSimulationRequest) (palace_scope : bool) (d : db) (annotated : annotations) :
    res m2k_error (ScorerReceipt * InstantSimulation * list (point_value * option str)) :=
  let principal_id := if palace_scope then None else Some (sq_principal_id body) in
  match scorer_configs d !! sq_base_version body with
  | None => state_error (lit "stale_base")
  | Some base =>
      guard_ (sc_active base) (M2KStateError (lit "stale_base"));;
      receipt ← deep_receipt holdout_fraction passive_discount base (sq_values body) principal_id true d annotated;
      gate ← instant (sq_principal_id body) (sq_injection_id body) base (sq_values body) d;
      slice ← accuracy_slice base (sq_values body) (sq_slice_parameter body) principal_id d annotated;
      Ok (receipt, gate, slice)
  end.

(** [audition]: a proposal over a recorded gate. *)
Definition audition (principal_id : str) (injection_id : uuid) (proposal_version : str) (d : db) :
    res m2k_error (str * str * InstantSimulation) :=
  incumbent ← the_active d;
  match scorer_configs d !! proposal_version with
  | None => state_error (lit "not_proposed")
  | Some proposal =>
      match sc_params proposal with
      | JObj _ =>
          guard_ (negb (sc_active proposal) && learner_proposed proposal) (M2KStateError (lit "not_proposed"));;
          values ← values_of_row proposal;
          gate ← instant principal_id (Some injection_id) proposal values d;
          Ok (sc_version incumbent, sc_version proposal, gate)
      | _ => Err (M2kRaised (AttributeError "get"))
      end
  end.
End simulate.
