(* ===== verification/M2kControl.v ===== *)
(** * Changing what serves: [src/src/spine/m2k/service.py]

    Two operations replace the active scorer configuration: forcing values,
    admitted by the digest of a simulation, and activating a proposal of the
    learner.  Both run one at a time under one advisory lock, and both append an
    activation that names the version it replaced. *)
From S2P Require Import Prelude PyStr PyFloat PyDecimal PyJson JsonText Ids Axes Scorer Features Store Sql Annotations Learner.
From S2P Require Import Queue Prepare Evidence Nominate Creation LearnerService M2kValues M2kReplay.
Open Scope Z_scope.

(** ** Rows *)
Inductive activation_reason := human_control | learner_proposal | contract_migration.
#[export] Instance activation_reason_eq_dec : EqDecision activation_reason.
Proof. solve_decision. Defined.

Record ScorerActivation := {
  sa_event_uid : str;
  sa_version : str;
  sa_previous_version : str;
  sa_actor_class : ActorClass;
  sa_machine_id : str;
  sa_reason : activation_reason;
  sa_changes : list (str * json);
  sa_ts : Z;
}.

Record OptimizationRunAdoption := { oa_run_uid : str; oa_tap_event_uid : str; oa_adopted_at : Z }.

Record control_db := {
  cl_learner : learner_db;
  cl_activations : gmap str ScorerActivation;
  cl_adoptions : gmap str OptimizationRunAdoption;
}.

Definition cl_db (s : control_db) : db := ld_db (cl_learner s).
Definition cl_configs (s : control_db) : gmap str ScorerConfigRow := scorer_configs (cl_db s).

Definition with_active (flag : bool) (row : ScorerConfigRow) : ScorerConfigRow := {|
  sc_version := sc_version row; sc_weights := sc_weights row; sc_params := sc_params row;
  sc_created_at := sc_created_at row; sc_active := flag |}.

(** The old row is switched off, flushed, and the new one is written active. *)
Definition swap_active (old new : ScorerConfigRow) (configs : gmap str ScorerConfigRow) : gmap str ScorerConfigRow :=
  <[sc_version new := with_active true new]> (<[sc_version old := with_active false old]> configs).

Definition set_control (configs : gmap str ScorerConfigRow) (activation : ScorerActivation)
    (adoptions : gmap str OptimizationRunAdoption) (s : control_db) : control_db := {|
  cl_learner := LearnerService.with_db (set_scorer_configs configs (cl_db s)) (cl_learner s);
  cl_activations := <[sa_event_uid activation := activation]> (cl_activations s);
  cl_adoptions := adoptions |}.

(** ** Forcing values *)
Record CreateScorerConfigRequest := {
  cc_event_uid : str;
  cc_base_version : str;
  cc_values : ScorerValues;
  cc_simulation_digest : str;
  cc_machine_id : str;
}.

Definition weights_eqb (a b : ScorerWeights) : bool :=
  forallb (λ xy : float * float, feq xy.1 xy.2) (zip (weight_values a) (weight_values b)).
Definition values_eqb (a b : ScorerValues) : bool :=
  feq (sv_tau a) (sv_tau b) && (sv_top_k a =? sv_top_k b)
  && feq (sv_memory_context_share a) (sv_memory_context_share b)
  && feq (sv_half_life_time_days a) (sv_half_life_time_days b)
  && feq (sv_half_life_hist_days a) (sv_half_life_hist_days b) && weights_eqb (sv_weights a) (sv_weights b).

Definition target_version (event_uid : str) : str := lit "m2k-" ++ event_uid.

(** [force.get("simulation_digest") == digest] of a mapping. *)
Definition forced_by (digest : str) (activation : ScorerActivation) : bool :=
  match (force ← aget (lit "_force") (sa_changes activation); jget (lit "simulation_digest") force) with
  | Some (JStr s) => bool_decide (s = digest)
  | _ => false
  end.

Section control.
Context `{Tokenizer} `{LibmPow} `{AxisDecoder} `{DecimalDigits} `{PyRepr} `{Unicode} `{Sha256} `{Collation}.
Context (holdout_fraction passive_discount : float).

(** [_validate_control_replay]. *)
Definition validate_control_replay (activation : ScorerActivation) (body : CreateScorerConfigRequest) (s : control_db) :
    res m2k_error ScorerConfigurationView :=
  let conflict := M2KStateError (lit "event_uid_conflict") in
  let version := target_version (cc_event_uid body) in
  match cl_configs s !! version with
  | None => Err conflict
  | Some target =>
      guard_ (bool_decide (sa_version activation = version)
              && bool_decide (sa_previous_version activation = cc_base_version body)
              && bool_decide (sa_actor_class activation = human)
              && bool_decide (sa_machine_id activation = cc_machine_id body)
              && bool_decide (sa_reason activation = human_control)) conflict;;
      values ← values_of_row target;
      guard_ (values_eqb values (cc_values body) && forced_by (cc_simulation_digest body) activation) conflict;;
      config_view target
  end.

(** The receipt that admitted the force. *)
Definition force_entry (receipt : ScorerReceipt) : json := JObj
  [(lit "simulation_digest", JStr (sr_simulation_digest receipt));
   (lit "source_boundary", jopt (sr_source_boundary receipt));
   (lit "holdout_dispositions", JInt (sr_holdout_dispositions receipt));
   (lit "incumbent_accuracy_percent", jopt (sr_incumbent_accuracy_percent receipt));
   (lit "accuracy_percent", jopt (sr_accuracy_percent receipt));
   (lit "delta_percent", jopt (sr_delta_percent receipt))].

Definition control_entry (body : CreateScorerConfigRequest) (parent : str) (changed : list str) : json := JObj
  [(lit "event_uid", JStr (cc_event_uid body)); (lit "parent_version", JStr parent);
   (lit "actor_class", JStr (lit "human")); (lit "machine_id", JStr (cc_machine_id body));
   (lit "changed_parameter_ids", JList (JStr <$> sort_by str_leb changed))].

(** The parent's parameters with the values and the control entry. *)
Definition forced_params (body : CreateScorerConfigRequest) (parent : str) (changed : list str)
    (params : list (str * json)) : list (str * json) :=
  aset (lit "_control") (control_entry body parent changed)
    (foldl (λ p kv, aset kv.1 kv.2 p) params (dump_params (cc_values body))).

(** [_validate_runtime_config]. *)
Definition validate_runtime_config (target : ScorerConfigRow) : res m2k_error unit :=
  _ ← wrapped (lit "invalid_values") (config_of_row target); Ok tt.

(** The row and the activation a force writes. *)
Definition forced_row (body : CreateScorerConfigRequest) (now : Z) (active : ScorerConfigRow) (old : ScorerValues) :
    ScorerConfigRow := {|
  sc_version := target_version (cc_event_uid body);
  sc_weights := JObj (dump_weights (sv_weights (cc_values body)));
  sc_params := JObj (forced_params body (sc_version active) (changes old (cc_values body)).*1 (params_of active));
  sc_created_at := now; sc_active := true |}.

Definition forced_activation (body : CreateScorerConfigRequest) (now : Z) (active : ScorerConfigRow) (old : ScorerValues)
    (receipt : ScorerReceipt) : ScorerActivation := {|
  sa_event_uid := cc_event_uid body; sa_version := target_version (cc_event_uid body);
  sa_previous_version := sc_version active; sa_actor_class := human; sa_machine_id := cc_machine_id body;
  sa_reason := human_control;
  sa_changes := changes old (cc_values body) ++ [(lit "_force", force_entry receipt)]; sa_ts := now |}.

(** [create_scorer_config]. *)
Definition create_scorer_config (body : CreateScorerConfigRequest) (now : Z) (s : control_db) :
    res m2k_error (ScorerConfigurationView * control_db) :=
  let version := target_version (cc_event_uid body) in
  match cl_activations s !! cc_event_uid body with
  | Some activation => view ← validate_control_replay activation body s; Ok (view, s)
  | None =>
      active ← the_active (cl_db s);
      guard_ (bool_decide (sc_version active = cc_base_version body)) (M2KStateError (lit "stale_base"));;
      receipt ← deep_receipt holdout_fraction passive_discount active (cc_values body) None false (cl_db s)
                  (ld_annotations (cl_learner s));
      guard_ (bool_decide (sr_simulation_digest receipt = cc_simulation_digest body))
        (M2KStateError (lit "simulation_stale"));;
      guard_ (bool_decide (cl_configs s !! version = None)) (M2KStateError (lit "version_collision"));;
      old ← values_of_row active;
      let target := forced_row body now active old in
      validate_runtime_config target;;
      view ← config_view target;
      Ok (view, set_control (swap_active active target (cl_configs s)) (forced_activation body now active old receipt)
                  (cl_adoptions s) s)
  end.

(** ** Activating a proposal *)
Record ActivateScorerConfigRequest := { as_event_uid : str; as_machine_id : str }.

(** The runs that proposed a version. *)
Definition proposing_runs (version : str) (s : control_db) : list str :=
  (filter (λ ur, rr_proposal_version (oo_response (or_outcome ur.2)) = Some version)
     (map_to_list (ld_optimizations (cl_learner s)))).*1.

(** A run that has no adoption yet is adopted by the tap. *)
Definition adopt (event_uid : str) (now : Z) (adoptions : gmap str OptimizationRunAdoption) (run_uid : str) :
    gmap str OptimizationRunAdoption :=
  match adoptions !! run_uid with
  | Some _ => adoptions
  | None => <[run_uid := {| oa_run_uid := run_uid; oa_tap_event_uid := event_uid; oa_adopted_at := now |}]> adoptions
  end.

Definition proposal_activation (body : ActivateScorerConfigRequest) (now : Z) (active target : ScorerConfigRow)
    (old new : ScorerValues) : ScorerActivation := {|
  sa_event_uid := as_event_uid body; sa_version := sc_version target; sa_previous_version := sc_version active;
  sa_actor_class := human; sa_machine_id := as_machine_id body; sa_reason := learner_proposal;
  sa_changes := changes old new; sa_ts := now |}.

(** [activate_proposal]. *)
Definition activate_proposal (version : str) (body : ActivateScorerConfigRequest) (now : Z) (s : control_db) :
    res m2k_error (ScorerConfigurationView * control_db) :=
  let missing := M2KStateError (lit "missing_version") in
  match cl_activations s !! as_event_uid body with
  | Some replay =>
      guard_ (bool_decide (sa_version replay = version) && bool_decide (sa_actor_class replay = human)
              && bool_decide (sa_machine_id replay = as_machine_id body)
              && bool_decide (sa_reason replay = learner_proposal)) (M2KStateError (lit "event_uid_conflict"));;
      match cl_configs s !! version with
      | None => Err missing
      | Some target => view ← config_view target; Ok (view, s)
      end
  | None =>
      active ← the_active (cl_db s);
      match cl_configs s !! version with
      | None => Err missing
      | Some target =>
          match sc_params target with
          | JObj _ =>
              guard_ (negb (sc_active target) && learner_proposed target) (M2KStateError (lit "not_proposed"));;
              old ← values_of_row active;
              new ← values_of_row target;
              view ← config_view (with_active true target);
              Ok (view, set_control (swap_active active target (cl_configs s)) (proposal_activation body now active target old new)
                          (foldl (adopt (as_event_uid body) now) (cl_adoptions s) (proposing_runs version s)) s)
          | _ => Err (M2kRaised (AttributeError "get"))
          end
      end
  end.
End control.
