(* ===== verification/M2kConsole.v ===== *)
(** * The scorer console: [scorer_console] of [src/src/spine/m2k/service.py]

    Read-only projections over one snapshot: how the active scorer agrees with
    what became of its decisions and when the next retrain is due, the accuracy
    recorded with each configuration, and every recorded score broken into the
    contributions of its features. *)
From Stdlib Require Import SpecFloat.
From S2P Require Import Prelude PyStr PyFloat PyDecimal PyJson JsonText Ids Axes Scorer Features Store Sql Annotations Learner.
From S2P Require Import Queue Prepare Evidence Nominate Creation LearnerService M2kValues M2kReplay M2kControl.
Open Scope Z_scope.

(** ** Agreement *)
Record agreement := { ag_right : Z; ag_wrong : Z; ag_weighted_right : dec; ag_weighted_wrong : dec }.

Definition agreement_step (a : agreement) (e : LearningExample) : agreement :=
  if Bool.eqb (recorded_injected e) (le_target_injected e)
  then {| ag_right := ag_right a + 1; ag_wrong := ag_wrong a;
          ag_weighted_right := dec_add (ag_weighted_right a) (le_actor_weight e); ag_weighted_wrong := ag_weighted_wrong a |}
  else {| ag_right := ag_right a; ag_wrong := ag_wrong a + 1; ag_weighted_right := ag_weighted_right a;
          ag_weighted_wrong := dec_add (ag_weighted_wrong a) (le_actor_weight e) |}.

(** [_agreement_totals]. *)
Definition agreement_totals (examples : list LearningExample) : agreement :=
  foldl agreement_step {| ag_right := 0; ag_wrong := 0; ag_weighted_right := d0; ag_weighted_wrong := d0 |} examples.

Definition weighted_total (a : agreement) : dec := dec_add (ag_weighted_right a) (ag_weighted_wrong a).

(** [_decimal_string(Decimal(100) * right / total)]. *)
Definition agreement_percent (a : agreement) : res pyexn str :=
  n ← ctx_mul DECIMAL_PREC (dec_of_Z 100) (ag_weighted_right a);
  q ← dec_truediv n (weighted_total a);
  Ok (decimal_string q).

Record LiveAgreementPoint := {
  lp_event_uid : str;
  lp_ts : Z;
  lp_scorer_version : str;
  lp_right : Z;
  lp_wrong : Z;
  lp_weighted_right : str;
  lp_weighted_wrong : str;
  lp_weighted_agreement_percent : str;
}.

(** The last examples up to [index], at most a stride of them. *)
Definition window (stride : Z) (index : nat) (examples : list LearningExample) : list LearningExample :=
  drop (Z.to_nat (Z.max 0 (Z.of_nat index + 1 - stride))) (take (S index) examples).

Definition live_point (stride : Z) (version : str) (examples : list LearningExample) (ie : nat * LearningExample) :
    res pyexn LiveAgreementPoint :=
  let a := agreement_totals (window stride ie.1 examples) in
  percent ← agreement_percent a;
  Ok {| lp_event_uid := le_event_uid ie.2; lp_ts := le_ts ie.2; lp_scorer_version := version; lp_right := ag_right a;
        lp_wrong := ag_wrong a; lp_weighted_right := decimal_string (ag_weighted_right a);
        lp_weighted_wrong := decimal_string (ag_weighted_wrong a); lp_weighted_agreement_percent := percent |}.

(** ** The learning view *)
Inductive annotation_kind := ann_activation | ann_force_values | ann_retrain.
Record LearningAnnotation := {
  la_kind : annotation_kind;
  la_event_uid : str;
  la_ts : Z;
  la_version : str;
  la_result : option run_status;
}.

Definition activation_annotation (a : ScorerActivation) : LearningAnnotation := {|
  la_kind := if bool_decide (is_Some (aget (lit "_force") (sa_changes a))) then ann_force_values else ann_activation;
  la_event_uid := sa_event_uid a; la_ts := sa_ts a; la_version := sa_version a; la_result := None |}.

(** [proposal_version or incumbent_version]. *)
Definition run_annotation (r : LearnerRun) : LearningAnnotation :=
  let response := lr_response r in {|
  la_kind := ann_retrain; la_event_uid := lr_run_uid r; la_ts := lr_ts r;
  la_version := match rr_proposal_version response with Some (c :: v) => c :: v | _ => rr_incumbent_version response end;
  la_result := Some (rr_status response) |}.

Definition annotation_leb (a b : LearningAnnotation) : bool :=
  (la_ts a <? la_ts b) || (la_ts a =? la_ts b) && str_leb (la_event_uid a) (la_event_uid b).

Record LearningView := {
  lv_eligible_dispositions : Z;
  lv_hygiene_excluded_dispositions : Z;
  lv_remaining_to_floor : Z;
  lv_floor_met : bool;
  lv_share_tuning_remaining : Z;
  lv_share_tuning_active : bool;
  lv_evaluated_through : option Z;
  lv_signals_since_last_run : Z;
  lv_signals_until_next_run : Z;
  lv_totals : agreement;
  lv_weighted_agreement_percent : option str;
  lv_live_agreement : list LiveAgreementPoint;
  lv_retrain_runs : list LearnerRun;
  lv_annotations : list LearningAnnotation;
}.

(** The number of signals the run that saw the most has seen. *)
Definition run_cursor (minimum : Z) (runs : list LearnerRun) : option Z :=
  match filter (λ n, minimum <= n) (rr_eligible_dispositions ∘ lr_response <$> runs) with
  | [] => None
  | n :: ns => Some (zmax n ns)
  end.

Section learning_view.
Context (minimum_dispositions retrain_signal_stride : Z).

Definition signals_until_next (eligible : Z) (runs : list LearnerRun) : Z :=
  let cursor := run_cursor minimum_dispositions runs in
  if negb (minimum_dispositions <=? eligible) then Z.max 0 (minimum_dispositions - eligible)
  else match cursor with
       | None => 0
       | Some c => Z.max 0 (retrain_signal_stride - Z.max 0 (eligible - c))
       end.

(** [_learning_view]. *)
Definition learning_view (evidence : LearningEvidence) (events : list InjectionEvent) (active_version : str)
    (runs : list LearnerRun) (activations : list ScorerActivation) : res pyexn LearningView :=
  let examples := ev_examples evidence in
  let eligible := zlen examples in
  let cursor := run_cursor minimum_dispositions runs in
  let by_uid : gmap str InjectionEvent := list_to_map (reverse ((λ row, (i_event_uid row, row)) <$> events)) in
  let served := filter (λ e, (i_scorer_version <$> by_uid !! le_event_uid e) = Some active_version) examples in
  let totals := agreement_totals served in
  percent ← (if dec_eqb (weighted_total totals) d0 then Ok None else p ← agreement_percent totals; Ok (Some p));
  points ← res_map (live_point retrain_signal_stride active_version served) (imap pair served);
  Ok {| lv_eligible_dispositions := eligible;
        lv_hygiene_excluded_dispositions := ev_hygiene_excluded_dispositions evidence;
        lv_remaining_to_floor := Z.max 0 (minimum_dispositions - eligible);
        lv_floor_met := minimum_dispositions <=? eligible;
        lv_share_tuning_remaining := Z.max 0 (SHARE_TUNING_MINIMUM - eligible);
        lv_share_tuning_active := SHARE_TUNING_MINIMUM <=? eligible;
        lv_evaluated_through := cursor;
        lv_signals_since_last_run := Z.max 0 (eligible - default 0 cursor);
        lv_signals_until_next_run := signals_until_next eligible runs;
        lv_totals := totals; lv_weighted_agreement_percent := percent; lv_live_agreement := points;
        lv_retrain_runs := runs;
        lv_annotations := sort_by annotation_leb ((activation_annotation <$> activations) ++ (run_annotation <$> runs)) |}.
End learning_view.

(** ** Recorded accuracy *)
Record AccuracyPoint := {
  ap_version : str;
  ap_created_at : Z;
  ap_measured : option (str * Z * Z * str * str);
}.

Section accuracy_point.
Context `{DecimalDigits}.

(** A finite [Decimal(value)] of a decoded JSON value. *)
Definition decimal_of_json (v : json) : option dec :=
  match v with
  | JStr s => match parse_decimal s with Some (Some d) => Some d | _ => None end
  | JInt z => Some (dec_of_Z z)
  | JBool b => Some (dec_of_Z (if b then 1 else 0))
  | JFloat x => match x with
                | S754_zero _ => Some d0
                | S754_finite s m e => let '(c, p) := exact_decimal m e in Some (Dec (if s then - c else c) p)
                | _ => None
                end
  | _ => None
  end.

Definition finite_text (v : option json) : option dec :=
  match v with Some (JStr s) => decimal_of_json (JStr s) | _ => None end.

Definition to_option {A} (r : res pyexn A) : option A := match r with Ok a => Some a | Err _ => None end.

(** What a proposal recorded of its holdout: the dispositions, the memory
    disagreements, and both weighted.  Share-boundary errors are taken out. *)
Definition recorded_holdout (row : ScorerConfigRow) : option (Z * Z * dec * dec) :=
  learner ← learner_field row;
  replay ← aget (lit "replay") learner;
  challenger ← match jget (lit "challenger") replay with Some (JObj kv) => Some kv | _ => None end;
  holdout ← (v ← aget (lit "holdout_dispositions") learner; as_int v);
  weight ← finite_text (aget (lit "holdout_weight") learner);
  disagreements ← (v ← aget (lit "disagreements") challenger; json_int v);
  share ← to_option (int_of_json (default (JInt 0) (aget (lit "share_disagreements") challenger)));
  weighted ← finite_text (aget (lit "weighted_disagreements") challenger);
  weighted_share ← decimal_of_json (default (JStr (lit "0")) (aget (lit "weighted_share_disagreements") challenger));
  weighted_wrong ← to_option (ctx_sub DECIMAL_PREC weighted weighted_share);
  Some (holdout, disagreements - share, weight, weighted_wrong).

(** [_accuracy_point]. *)
Definition accuracy_point (row : ScorerConfigRow) : res m2k_error AccuracyPoint :=
  let point measured := {| ap_version := sc_version row; ap_created_at := sc_created_at row; ap_measured := measured |} in
  match sc_params row, recorded_holdout row with
  | JObj _, Some (holdout, disagreements, weight, weighted_wrong) =>
      if (0 <? holdout) && (0 <=? disagreements) && (disagreements <=? holdout)
         && dec_ltb d0 weight && dec_leb d0 weighted_wrong && dec_leb weighted_wrong weight && negb (controlled row)
      then
        weighted_right ← m2k_raised (ctx_sub DECIMAL_PREC weight weighted_wrong);
        n ← m2k_raised (ctx_mul DECIMAL_PREC (dec_of_Z 100) weighted_right);
        q ← m2k_raised (dec_truediv n weight);
        Ok (point (Some (decimal_string q, holdout, disagreements, decimal_string weight, decimal_string weighted_wrong)))
      else Ok (point None)
  | JObj _, None => Ok (point None)
  | _, _ => Err (M2kRaised (AttributeError "get"))
  end.
End accuracy_point.

(** ** Contributions *)
Record contributions := {
  ct_features : list (string * dec);
  ct_loc : option dec;
  ct_thread : option dec;
  ct_where : option dec;
  ct_axes : list (str * dec);
}.

Definition mul (a b : dec) : res pyexn dec := ctx_mul DECIMAL_PREC a b.
Definition mul_option (scale : dec) (a : option dec) : res pyexn (option dec) :=
  match a with Some a => x ← mul a scale; Ok (Some x) | None => Ok None end.
Definition mul_named {K} (scale : dec) (l : list (K * dec)) : res pyexn (list (K * dec)) :=
  res_map (λ kv : K * dec, x ← mul kv.2 scale; Ok (kv.1, x)) l.
Definition one_minus (x : dec) : res pyexn dec := ctx_sub DECIMAL_PREC d1 x.

(** [Decimal(str(x))] of a finite float. *)
Definition decimal_of_float (x : float) : res pyexn dec :=
  guard_ (isfinite x) (DecimalException "InvalidOperation");; Ok (dec_of_repr x).

(** [Decimal(str(v))] of a number. *)
Definition decimal_of_number (v : json) : res pyexn dec :=
  match v with JInt z => Ok (dec_of_Z z) | JFloat x => decimal_of_float x | _ => Err (TypeError "Decimal") end.

(** Everything so far is scaled down and makes room for another part. *)
Definition scaled_by (scale : dec) (c : contributions) : res pyexn contributions :=
  features ← mul_named scale (ct_features c);
  loc ← mul_option scale (ct_loc c);
  thread ← mul_option scale (ct_thread c);
  where_ ← mul_option scale (ct_where c);
  axes ← mul_named scale (ct_axes c);
  Ok {| ct_features := features; ct_loc := loc; ct_thread := thread; ct_where := where_; ct_axes := axes |}.

Definition mix_thread (feature : option float) (weight : json) (c : contributions) : res pyexn contributions :=
  match feature with
  | None => Ok c
  | Some x =>
      weight ← decimal_of_number weight;
      scale ← one_minus weight;
      c ← scaled_by scale c;
      x ← decimal_of_float x;
      part ← mul x weight;
      Ok {| ct_features := ct_features c; ct_loc := ct_loc c; ct_thread := Some part; ct_where := ct_where c; ct_axes := ct_axes c |}
  end.

Definition mix_where (feature : option float) (weight : json) (c : contributions) : res pyexn contributions :=
  match feature with
  | None => Ok c
  | Some x =>
      weight ← decimal_of_number weight;
      scale ← one_minus weight;
      c ← scaled_by scale c;
      x ← decimal_of_float x;
      part ← mul x weight;
      Ok {| ct_features := ct_features c; ct_loc := ct_loc c; ct_thread := ct_thread c; ct_where := Some part; ct_axes := ct_axes c |}
  end.

(** One axis: its value is a number or it has a missing input. *)
Definition axis_product (features : list (str * json)) (a : AxisNomination) : res pyexn (option json) :=
  let input f := jget_or_null (lit (feature_key f)) features in
  match input (axis_inputs a).1, input (axis_inputs a).2 with
  | JNull, _ | _, JNull => Ok None
  | x, y => p ← num_prod x y; Ok (Some p)
  end.

Definition mix_axis (features : list (str * json)) (c : contributions) (na : str * AxisNomination) :
    res pyexn contributions :=
  value ← axis_product features na.2;
  match value with
  | None => Ok c
  | Some value =>
      if feq (axis_weight na.2) f0 then Ok c
      else
        let weight := dec_of_repr (axis_weight na.2) in
        scale ← one_minus weight;
        c ← scaled_by scale c;
        value ← decimal_of_number value;
        part ← mul value weight;
        Ok {| ct_features := ct_features c; ct_loc := ct_loc c; ct_thread := ct_thread c; ct_where := ct_where c;
              ct_axes := aset na.1 part (ct_axes c) |}
  end.

Definition dec_total (l : list dec) : res pyexn dec := res_fold (ctx_add DECIMAL_PREC) d0 l.
Definition minus_option (a : dec) (b : option dec) : res pyexn dec :=
  match b with Some b => ctx_sub DECIMAL_PREC a b | None => Ok a end.

(** What is left of the stored score. *)
Definition bias_of_score (stored : dec) (c : contributions) : res pyexn dec :=
  features ← dec_total (ct_features c).*2;
  bias ← ctx_sub DECIMAL_PREC stored features;
  axes ← dec_total (ct_axes c).*2;
  bias ← ctx_sub DECIMAL_PREC bias axes;
  bias ← minus_option bias (ct_loc c);
  bias ← minus_option bias (ct_thread c);
  minus_option bias (ct_where c).

(** The weight of a locality in the parameters of the configuration. *)
Definition param_weight (params : list (str * json)) (name : string) : json := default (JFloat f0) (aget (lit name) params).

Section candidate_histories.
Context `{Unicode} `{DecimalDigits} `{AxisDecoder}.

Definition feature_contributions (features : list float) (w : ScorerWeights) (location_scale : float) :
    res pyexn (list (string * dec)) :=
  scale ← decimal_of_float location_scale;
  res_map (λ nxw : string * (float * float),
    x ← decimal_of_float nxw.2.1; y ← decimal_of_float nxw.2.2;
    p ← mul x y; p ← mul p scale; Ok (nxw.1, p))
    (zip weight_names (zip features (weight_values w))).

Record CandidateScorePoint := {
  cp_row : InjectionEvent;
  cp_score : str;
  cp_features : list float;
  cp_loc : option float;
  cp_thread : option float;
  cp_where : option float;
  cp_contributions : contributions;
  cp_bias : dec;
}.

(** One point of a history. *)
Definition candidate_point (configs : gmap str ScorerConfigRow) (event : InjectionEvent) :
    res m2k_error CandidateScorePoint :=
  match configs !! i_scorer_version event with
  | None => state_error (lit "missing_event_scorer:" ++ i_scorer_version event)
  | Some config =>
      features ← m2k_raised (res_map (λ name, v ← subscript (i_features event) name; float_of_json v) weight_names);
      loc ← m2k_raised (plain_number event "loc");
      thread ← m2k_raised (plain_number event "thread");
      where_ ← m2k_raised (plain_number event "where");
      let location_param := param_weight (params_of config) "location_weight" in
      location_scale ← m2k_raised (match loc with
                                   | None => Ok f1
                                   | Some _ => w ← float_of_json location_param; Ok (fsub f1 w)
                                   end);
      runtime ← runtime config;
      w ← m2k_raised (weights_for_project runtime (i_project_key event));
      named ← m2k_raised (feature_contributions features w location_scale);
      location ← m2k_raised (match loc with
                             | None => Ok None
                             | Some x => x ← decimal_of_float x; w ← decimal_of_number location_param; p ← mul x w; Ok (Some p)
                             end);
      c ← m2k_raised (mix_thread thread (param_weight (params_of config) "thread_weight")
            {| ct_features := named; ct_loc := location; ct_thread := None; ct_where := None; ct_axes := [] |});
      c ← m2k_raised (mix_where where_ (param_weight (params_of config) "where_weight") c);
      stored ← m2k_raised (decimal_of_float (i_score event));
      c ← m2k_raised (res_fold (mix_axis (i_features event)) c (sort_axes (axes runtime)));
      bias ← m2k_raised (bias_of_score stored c);
      score ← float_string (i_score event);
      Ok {| cp_row := event; cp_score := score; cp_features := features; cp_loc := loc; cp_thread := thread;
            cp_where := where_; cp_contributions := c; cp_bias := bias |}
  end.

Record CandidateScoreHistory := {
  ch_memory_id : uuid;
  ch_label : str;
  ch_kind : str;
  ch_points : list CandidateScorePoint;
}.

(** The label and kind are those of the last event. *)
Definition history (memory : uuid * list CandidateScorePoint) : CandidateScoreHistory :=
  let last_row := cp_row <$> last memory.2 in {|
  ch_memory_id := memory.1;
  ch_label := default [] (row ← last_row; frozen_text row "label");
  ch_kind := default [] (i_memory_kind <$> last_row);
  ch_points := memory.2 |}.

(** [_candidate_histories]. *)
Definition candidate_histories (events : list InjectionEvent) (configs : gmap str ScorerConfigRow) :
    res m2k_error (list CandidateScoreHistory) :=
  points ← res_map (candidate_point configs) events;
  Ok (history <$> sort_by (λ a b, (a.1 <=? b.1)%N) (group_by (i_memory_id ∘ cp_row) points)).
End candidate_histories.

(** ** The console *)
Record ScorerConsoleQuery := { cq_principal_id : str; cq_thread_id : option uuid; cq_as_of_now : bool }.

Record ScorerConsoleSnapshot := {
  sn_as_of : Z;
  sn_palace_scope : bool;
  sn_thread_id : option uuid;
  sn_creation : CreationSnapshot;
  sn_trainables : json;
  sn_active_version : str;
  sn_configurations : list ScorerConfigurationView;
  sn_activations : list ScorerActivation;
  sn_proposed_versions : list ScorerConfigurationView;
  sn_accuracy : list AccuracyPoint;
  sn_learning : LearningView;
  sn_candidates : list CandidateScoreHistory;
}.

(** What a principal sees of the active configuration: no replay metrics, no
    provenance of an axis, and the offsets of its own projects. *)
Definition owner_only : json := JObj [(lit "visibility", JStr (lit "owner-only"))].
Definition redacted_axis (na : str * json) : res m2k_error (str * json) :=
  match na.2 with
  | JObj kv => Ok (na.1, JObj (aset (lit "provenance") owner_only kv))
  | _ => Err (M2kRaised (TypeError "object is not a mapping"))
  end.
Definition redacted (visible : list (option str)) (v : ScorerConfigurationView) : res m2k_error ScorerConfigurationView :=
  axes ← res_map redacted_axis (cv_axes v);
  Ok {| cv_version := cv_version v; cv_created_at := cv_created_at v; cv_status := cv_status v; cv_values := cv_values v;
        cv_replay := None; cv_axes := axes;
        cv_project_offsets := filter (λ po, Some po.1 ∈ visible) (cv_project_offsets v) |}.

Section console.
Context `{Tokenizer} `{AxisDecoder} `{DecimalDigits} `{PyRepr} `{Unicode} `{Collation}.
Context (passive_discount : float) (learner_min_dispositions retrain_signal_stride : Z).

Definition by_created (a b : ScorerConfigRow) : comparison :=
  then_by (Z.compare (sc_created_at a) (sc_created_at b)) (text_compare (sc_version a) (sc_version b)).
Definition by_activation (a b : ScorerActivation) : comparison :=
  then_by (Z.compare (sa_ts a) (sa_ts b)) (text_compare (sa_event_uid a) (sa_event_uid b)).
Definition by_run (a b : LearnerRun) : comparison :=
  then_by (Z.compare (lr_ts a) (lr_ts b)) (text_compare (lr_run_uid a) (lr_run_uid b)).
Definition by_event (a b : InjectionEvent) : comparison :=
  then_by (Z.compare (i_ts a) (i_ts b)) (text_compare (i_event_uid a) (i_event_uid b)).

(** [scorer_console]. *)
Definition scorer_console (query : ScorerConsoleQuery) (palace_scope : bool) (as_of : Z) (s : control_db) :
    res m2k_error ScorerConsoleSnapshot :=
  guard_ (cq_as_of_now query) (M2KStateError (lit "historical_unavailable"));;
  let d := cl_db s in
  let principal := if palace_scope then None else Some (cq_principal_id query) in
  let creation := creation_snapshot principal d (ld_annotations (cl_learner s)) (ld_creation (cl_learner s)) in
  let configs := sort_by (leb_of by_created) (Store.rows (scorer_configs d)) in
  match filter (λ row, sc_active row = true) configs with
  | [active] =>
      let activations := if palace_scope then sort_by (leb_of by_activation) (Store.rows (cl_activations s)) else [] in
      let runs := if palace_scope then sort_by (leb_of by_run) (Store.rows (ld_runs (cl_learner s))) else [] in
      let learning_events := events_of principal d in
      let annotated : annotations := filter (λ ua, bool_decide (ia_target_principal_id ua.2 = default (ia_target_principal_id ua.2) principal) = true)
                                       (ld_annotations (cl_learner s)) in
      let shown := sort_by (leb_of by_event)
        (filter (λ e, i_principal_id e = cq_principal_id query
                      ∧ i_thread_id e = default (i_thread_id e) (cq_thread_id query)) (rows (events d))) in
      views ← res_map config_view configs;
      views ← (if palace_scope then Ok views
               else res_map (redacted (i_project_key <$> learning_events)) (filter (λ v, cv_status v = status_active) views));
      candidates ← candidate_histories shown (scorer_configs d);
      runtimes ← res_map (λ row, config ← runtime row; Ok (sc_version row, config)) configs;
      evidence ← replayed (project_learning_evidence (dec_of_repr passive_discount) learning_events annotated (list_to_map runtimes));
      active_runtime ← runtime active;
      accuracy ← (if palace_scope then res_map accuracy_point configs else Ok []);
      learning ← m2k_raised (learning_view learner_min_dispositions retrain_signal_stride evidence learning_events
                               (sc_version active) runs activations);
      Ok {| sn_as_of := as_of; sn_palace_scope := palace_scope; sn_thread_id := cq_thread_id query;
            sn_creation := creation;
            sn_trainables := manifest (zlen (ev_examples evidence)) learner_min_dispositions (axes active_runtime);
            sn_active_version := sc_version active; sn_configurations := views; sn_activations := activations;
            sn_proposed_versions := filter (λ v, cv_status v = status_proposed) views; sn_accuracy := accuracy;
            sn_learning := learning; sn_candidates := candidates |}
  | _ => state_error (lit "invalid_active_scorer")
  end.
End console.
