(* ===== verification/M2kControlFacts.v ===== *)
(** * What serves is replaced one version at a time: facts of [M2kControl] *)
From S2P Require Import Prelude PyStr PyFloat PyDecimal PyJson JsonText Ids Axes Scorer Features Store Sql Annotations Learner.
From S2P Require Import Queue Prepare Evidence Nominate Creation LearnerService LearnerServiceFacts M2kValues M2kReplay M2kControl.
Open Scope Z_scope.

(** ** Configurations under their versions *)
Definition keyed (configs : gmap str ScorerConfigRow) : Prop := map_Forall (λ v row, sc_version row = v) configs.

(** The version that serves: the one active row. *)
Definition serves (configs : gmap str ScorerConfigRow) (v : str) : Prop :=
  ∃ row, configs !! v = Some row ∧ sc_active row = true ∧
    ∀ v' row', configs !! v' = Some row' → sc_active row' = true → v' = v.

Definition serving (s : control_db) (v : str) : Prop := keyed (cl_configs s) ∧ serves (cl_configs s) v.

Lemma keyed_insert configs row : keyed configs → keyed (<[sc_version row := row]> configs).
Proof. intros H. by apply map_Forall_insert_2. Qed.

Lemma swap_keyed old new configs : keyed configs → keyed (swap_active old new configs).
Proof.
  intros H. unfold swap_active.
  change (sc_version new) with (sc_version (with_active true new)).
  change (sc_version old) with (sc_version (with_active false old)). by apply keyed_insert, keyed_insert.
Qed.

Lemma active_rows_in d row : row ∈ active_rows d ↔ ∃ v, scorer_configs d !! v = Some row ∧ sc_active row = true.
Proof.
  unfold active_rows, Store.rows. rewrite list_elem_of_filter, list_elem_of_fmap. split.
  - intros (Ha & [v r] & -> & Hin%elem_of_map_to_list). by exists v.
  - intros (v & Hv & Ha). split; [done|]. exists (v, row). split; [done|]. by apply elem_of_map_to_list.
Qed.

(** The row [_active_config] finds serves. *)
Lemma the_active_Ok d row :
  keyed (scorer_configs d) → the_active d = Ok row →
  scorer_configs d !! sc_version row = Some row ∧ sc_active row = true ∧
  ∀ v row', scorer_configs d !! v = Some row' → sc_active row' = true → v = sc_version row.
Proof.
  intros Hkey H. unfold the_active in H. destruct (active_rows d) as [|r [|]] eqn:E; try done. injection H as ->.
  assert (Hr : row ∈ active_rows d) by (rewrite E; by left). apply active_rows_in in Hr as (v & Hv & Ha).
  pose proof (Hkey _ _ Hv) as Hkv. cbn in Hkv. subst v. split_and!; try done.
  intros v' row' Hv' Ha'. assert (Hr' : row' ∈ active_rows d) by (apply active_rows_in; eauto).
  rewrite E in Hr'. apply list_elem_of_singleton in Hr' as ->. by rewrite <- (Hkey _ _ Hv').
Qed.

Lemma the_active_serves d row : keyed (scorer_configs d) → the_active d = Ok row → serves (scorer_configs d) (sc_version row).
Proof. intros Hkey H. destruct (the_active_Ok d row Hkey H) as (? & ? & ?). by exists row. Qed.

(** Switching the serving row off and another on. *)
Lemma swap_serves old new configs :
  serves configs (sc_version old) → sc_version new ≠ sc_version old → serves (swap_active old new configs) (sc_version new).
Proof.
  intros (row & _ & _ & Honly) Hne. exists (with_active true new). unfold swap_active. rewrite lookup_insert_eq.
  split_and!; [done|done|]. intros v' row' Hv' Ha'.
  destruct (decide (v' = sc_version new)) as [|Hn]; [done|]. rewrite lookup_insert_ne in Hv' by done.
  destruct (decide (v' = sc_version old)) as [->|Ho].
  - rewrite lookup_insert_eq in Hv'. by injection Hv' as <-.
  - rewrite lookup_insert_ne in Hv' by done. by apply Honly in Hv'.
Qed.

(** Rows are kept, but for the flag. *)
Definition kept_rows (configs configs' : gmap str ScorerConfigRow) : Prop :=
  ∀ v row, configs !! v = Some row → ∃ flag, configs' !! v = Some (with_active flag row).

Lemma with_active_same row : with_active (sc_active row) row = row.
Proof. by destruct row. Qed.

Lemma kept_rows_refl configs : kept_rows configs configs.
Proof. intros v row H. exists (sc_active row). by rewrite with_active_same. Qed.
Lemma kept_rows_trans a b c : kept_rows a b → kept_rows b c → kept_rows a c.
Proof. intros Hab Hbc v row [f H]%Hab. apply Hbc in H as [f' H]. by exists f'. Qed.
Lemma kept_rows_subseteq a b : a ⊆ b → kept_rows a b.
Proof. intros H v row Hv. exists (sc_active row). rewrite with_active_same. by eapply lookup_weaken. Qed.

Lemma swap_kept old new configs :
  configs !! sc_version old = Some old →
  (configs !! sc_version new = Some new ∨ configs !! sc_version new = None) → kept_rows configs (swap_active old new configs).
Proof.
  intros Hold Hnew v row Hv. unfold swap_active. destruct (decide (v = sc_version new)) as [->|Hn].
  - rewrite lookup_insert_eq. exists true. destruct Hnew; congruence.
  - rewrite lookup_insert_ne by done. destruct (decide (v = sc_version old)) as [->|Ho].
    + rewrite lookup_insert_eq. exists false. congruence.
    + rewrite lookup_insert_ne by done. exists (sc_active row). by rewrite with_active_same.
Qed.

#[export] Hint Resolve kept_rows_refl swap_keyed : core.

(** ** Views *)

Lemma values_of_active {DD : DecimalDigits} flag row : values_of_row (with_active flag row) = values_of_row row.
Proof. done. Qed.

(** The flag is seen in the status of a view and nowhere else. *)
Definition same_content (a b : ScorerConfigurationView) : Prop :=
  cv_version a = cv_version b ∧ cv_created_at a = cv_created_at b ∧ cv_values a = cv_values b ∧
  cv_replay a = cv_replay b ∧ cv_axes a = cv_axes b ∧ cv_project_offsets a = cv_project_offsets b.

Lemma config_view_flag {DD : DecimalDigits} flag row view :
  config_view row = Ok view → ∃ view', config_view (with_active flag row) = Ok view' ∧ same_content view' view.
Proof.
  unfold config_view. cbn [sc_params with_active]. destruct (sc_params row); try done.
  rewrite values_of_active. intros (values & -> & H)%bind_Ok.
  apply bind_Ok in H as (ax & -> & H). apply bind_Ok in H as (offsets & -> & H).
  apply bind_Ok in H as ([] & Hg & [= <-]). cbn [mbind res_bind sc_version with_active]. rewrite Hg. by eexists.
Qed.

Section control.
Context {TK : Tokenizer} {LP : LibmPow} {AD : AxisDecoder} {DD : DecimalDigits} {PR : PyRepr} {UC : Unicode} {SH : Sha256} {CO : Collation}.
Context (holdout_fraction passive_discount : float).

Abbreviation create := (create_scorer_config holdout_fraction passive_discount).
Abbreviation receipt_now s active values :=
  (deep_receipt holdout_fraction passive_discount active values None false (cl_db s) (ld_annotations (cl_learner s))).

(** ** What a success did *)

Lemma create_Ok body now s view s' :
  keyed (cl_configs s) → cl_activations s !! cc_event_uid body = None → create body now s = Ok (view, s') →
  ∃ active receipt old config,
    the_active (cl_db s) = Ok active ∧ sc_version active = cc_base_version body ∧
    receipt_now s active (cc_values body) = Ok receipt ∧ sr_simulation_digest receipt = cc_simulation_digest body ∧
    values_of_row active = Ok old ∧ cl_configs s !! target_version (cc_event_uid body) = None ∧
    config_of_row (forced_row body now active old) = Ok config ∧ config_view (forced_row body now active old) = Ok view ∧
    s' = set_control (swap_active active (forced_row body now active old) (cl_configs s))
           (forced_activation body now active old receipt) (cl_adoptions s) s.
Proof.
  intros Hkey Hfresh H. unfold create_scorer_config in H. rewrite Hfresh in H.
  apply bind_Ok in H as (active & Ha & H). apply bind_Ok in H as ([] & Hb%guard_Ok%bool_decide_eq_true & H).
  apply bind_Ok in H as (receipt & Hr & H). apply bind_Ok in H as ([] & Hd%guard_Ok%bool_decide_eq_true & H).
  apply bind_Ok in H as ([] & Hfree%guard_Ok%bool_decide_eq_true & H). apply bind_Ok in H as (old & Ho & H).
  apply bind_Ok in H as ([] & Hv & H). apply bind_Ok in H as (view' & Hview & [= -> <-]).
  unfold validate_runtime_config in Hv. apply bind_Ok in Hv as (config & Hc & _).
  exists active, receipt, old, config. split_and!; try done. unfold wrapped in Hc.
  destruct (config_of_row _) as [c|[]]; try done. by injection Hc as ->.
Qed.

Lemma activate_Ok version body now s view s' :
  keyed (cl_configs s) → cl_activations s !! as_event_uid body = None → activate_proposal version body now s = Ok (view, s') →
  ∃ active target old new,
    the_active (cl_db s) = Ok active ∧ cl_configs s !! version = Some target ∧ sc_version target = version ∧
    sc_active target = false ∧ learner_proposed target = true ∧ values_of_row active = Ok old ∧ values_of_row target = Ok new ∧
    config_view (with_active true target) = Ok view ∧
    s' = set_control (swap_active active target (cl_configs s)) (proposal_activation body now active target old new)
           (foldl (adopt (as_event_uid body) now) (cl_adoptions s) (proposing_runs version s)) s.
Proof.
  intros Hkey Hfresh H. unfold activate_proposal in H. rewrite Hfresh in H.
  apply bind_Ok in H as (active & Ha & H). destruct (cl_configs s !! version) as [target|] eqn:Et; [|done].
  destruct (sc_params target) eqn:Ep; try done.
  apply bind_Ok in H as ([] & [Hi%negb_true_iff Hl]%guard_Ok%andb_true_iff & H).
  apply bind_Ok in H as (old & Ho & H). apply bind_Ok in H as (new & Hn & H). apply bind_Ok in H as (view' & Hview & [= -> <-]).
  exists active, target, old, new. split_and!; try done. by apply Hkey in Et.
Qed.

(** ** Runs *)

(** The requests that touch what serves, and the runs of the learner between
    them; a request that raises rolls back. *)
Inductive control_event :=
  | forced (body : CreateScorerConfigRequest) (now : Z)
  | activated (version : str) (body : ActivateScorerConfigRequest) (now : Z)
  | retrained (trigger : run_trigger) (due_only : bool) (ot : OptimizationTrigger) (job_id : option str) (draws : run_draws).

Context {LSQ : LibmSquare}.
Context (settings : LearnerSettings) (owner : str) (stride maximum : Z).

Definition committed {A} (s : control_db) (r : res m2k_error (A * control_db)) : control_db :=
  match r with Ok (_, s') => s' | Err _ => s end.

Definition control_step (s : control_db) (e : control_event) : control_db :=
  match e with
  | forced body now => committed s (create body now s)
  | activated version body now => committed s (activate_proposal version body now s)
  | retrained trigger due_only ot job_id draws =>
      match retrain_transaction settings owner stride maximum trigger due_only ot job_id draws (cl_learner s) with
      | Ok (_, l) => {| cl_learner := l; cl_activations := cl_activations s; cl_adoptions := cl_adoptions s |}
      | Err _ => s
      end
  end.

Definition control_run (events : list control_event) (s : control_db) : control_db := foldl control_step s events.

(** Each entry replaces the version before it. *)
Fixpoint chain (v : str) (journal : list ScorerActivation) (v' : str) : Prop :=
  match journal with
  | [] => v = v'
  | a :: journal => sa_previous_version a = v ∧ sa_version a ≠ v ∧ chain (sa_version a) journal v'
  end.

Definition record_all (journal : list ScorerActivation) (t : gmap str ScorerActivation) : gmap str ScorerActivation :=
  foldl (λ t a, <[sa_event_uid a := a]> t) t journal.

(** The entries [s'] has beyond those of [s], in their order. *)
Definition journaled (s s' : control_db) (journal : list ScorerActivation) : Prop :=
  cl_activations s' = record_all journal (cl_activations s) ∧ NoDup (sa_event_uid <$> journal) ∧
  Forall (λ a, cl_activations s !! sa_event_uid a = None ∧ (sa_reason a = human_control ∨ sa_reason a = learner_proposal)) journal.

Lemma chain_app v j v1 j' v2 : chain v j v1 → chain v1 j' v2 → chain v (j ++ j') v2.
Proof. revert v. induction j as [|a j IH]; cbn; intros v; [by intros ->|]. intros (? & ? & ?) ?. split_and!; eauto. Qed.

Lemma record_all_lookup j t k : is_Some (t !! k) ∨ k ∈ (sa_event_uid <$> j) → is_Some (record_all j t !! k).
Proof.
  revert t. induction j as [|a j IH]; intros t H; cbn; [destruct H as [|H]; [done|by apply elem_of_nil in H]|].
  apply IH. rewrite fmap_cons, elem_of_cons in H. destruct (decide (k = sa_event_uid a)) as [->|Hne].
  - left. by rewrite lookup_insert_eq.
  - rewrite lookup_insert_ne by done. naive_solver.
Qed.

Lemma journaled_app s s1 s2 j j' : journaled s s1 j → journaled s1 s2 j' → journaled s s2 (j ++ j').
Proof.
  intros (H1 & Hn1 & Hf1) (H2 & Hn2 & Hf2). unfold journaled.
  assert (Hfresh : ∀ k, k ∈ (sa_event_uid <$> j') → cl_activations s !! k = None ∧ k ∉ (sa_event_uid <$> j)).
  { intros k (a & -> & [Ha _]%(proj1 (Forall_forall _ _) Hf2))%list_elem_of_fmap. rewrite H1 in Ha.
    assert (Hno : ¬ is_Some (record_all j (cl_activations s) !! sa_event_uid a)) by (rewrite Ha; by intros [? ?]).
    split; [destruct (cl_activations s !! sa_event_uid a) eqn:E; [|done]|intros Hin]; exfalso; apply Hno, record_all_lookup; eauto. }
  split_and!.
  - rewrite H2, H1. unfold record_all. by rewrite foldl_app.
  - rewrite fmap_app. apply NoDup_app. split_and!; [done| |done]. intros k Hk Hk'. by apply Hfresh in Hk' as [_ ?].
  - apply Forall_app. split; [done|]. apply Forall_forall. intros a Ha. split.
    + by apply (Hfresh (sa_event_uid a)), list_elem_of_fmap_2.
    + by eapply Forall_forall in Hf2 as [_ ?].
Qed.

Lemma journaled_nil s s' : cl_activations s' = cl_activations s → journaled s s' [].
Proof. intros H. split_and!; [done|constructor|constructor]. Qed.

Lemma journaled_one s s' a :
  cl_activations s !! sa_event_uid a = None → cl_activations s' = <[sa_event_uid a := a]> (cl_activations s) →
  sa_reason a = human_control ∨ sa_reason a = learner_proposal → journaled s s' [a].
Proof. intros Hf H Hr. split_and!; [done|apply NoDup_singleton|by constructor]. Qed.

(** What the learner proposed is a row that says so. *)
Definition proposals_known (configs : gmap str ScorerConfigRow) (journal : list ScorerActivation) : Prop :=
  Forall (λ a, sa_reason a = learner_proposal →
            ∃ row, configs !! sa_version a = Some row ∧ learner_proposed row = true) journal.

Lemma proposals_kept configs configs' j : kept_rows configs configs' → proposals_known configs j → proposals_known configs' j.
Proof.
  intros Hk H. eapply Forall_impl; [done|]. cbn. intros a Ha Hr. destruct (Ha Hr) as (row & Hrow & Hp).
  destruct (Hk _ _ Hrow) as [flag Hf]. by exists (with_active flag row).
Qed.

(** A step keeps what serves well defined. *)
Definition step_spec (s s' : control_db) (v : str) : Prop :=
  ∃ journal v', serving s' v' ∧ chain v journal v' ∧ journaled s s' journal ∧ proposals_known (cl_configs s') journal ∧
    kept_rows (cl_configs s) (cl_configs s').

Lemma step_stays s v : serving s v → step_spec s s v.
Proof. intros H. exists [], v. split_and!; [done|done|by apply journaled_nil|constructor|done]. Qed.

Lemma serves_unique configs v v' : serves configs v → serves configs v' → v = v'.
Proof. intros (r & Hr & Ha & _) (_ & _ & _ & H). eauto. Qed.

(** Replacing the serving row by another one, under a fresh entry. *)
Lemma swap_step s v active target a adoptions :
  serving s v → the_active (cl_db s) = Ok active →
  (cl_configs s !! sc_version target = Some target ∧ sc_active target = false ∨ cl_configs s !! sc_version target = None) →
  cl_activations s !! sa_event_uid a = None → sa_version a = sc_version target → sa_previous_version a = sc_version active →
  sa_reason a = human_control ∨ sa_reason a = learner_proposal ∧ learner_proposed target = true →
  step_spec s (set_control (swap_active active target (cl_configs s)) a adoptions s) v.
Proof.
  intros [Hkey Hserve] Ha Htarget Hfresh Hver Hprev Hr.
  destruct (the_active_Ok _ _ Hkey Ha) as (Hla & Hact & _).
  change (scorer_configs (cl_db s)) with (cl_configs s) in Hla. pose proof (the_active_serves _ _ Hkey Ha) as Hs.
  pose proof (serves_unique _ _ _ Hserve Hs) as ->.
  assert (Hne : sc_version target ≠ sc_version active).
  { intros E. destruct Htarget as [[Ht Hf]|Ht]; rewrite E in Ht; [|by rewrite Ht in Hla].
    assert (target = active) as -> by congruence. by rewrite Hact in Hf. }
  exists [a], (sc_version target). split_and!.
  - split; [by apply swap_keyed|by apply swap_serves].
  - cbn. rewrite Hprev, Hver. by split_and!.
  - apply journaled_one; naive_solver.
  - apply Forall_singleton. intros Hp. exists (with_active true target). unfold cl_configs, cl_db.
    cbn [cl_learner set_control LearnerService.with_db ld_db set_scorer_configs scorer_configs]. unfold swap_active.
    rewrite Hver, lookup_insert_eq. split; [done|]. destruct Hr as [Hr|[_ Hr]]; [congruence|done].
  - apply swap_kept; [done|]. destruct Htarget as [[? _]|]; auto.
Qed.

Lemma create_step s v body now : serving s v → step_spec s (committed s (create body now s)) v.
Proof.
  intros Hs. destruct (create body now s) as [[view s']|] eqn:E; [|by apply step_stays]. cbn [committed].
  destruct (cl_activations s !! cc_event_uid body) as [a|] eqn:Ea.
  - unfold create_scorer_config in E. rewrite Ea in E. apply bind_Ok in E as (? & _ & [= _ <-]). by apply step_stays.
  - destruct Hs as [Hkey Hserve]. destruct (create_Ok _ _ _ _ _ Hkey Ea E) as (active & receipt & old & config & Hact & _ & _ & _ & _ & Hfree & _ & _ & ->).
    apply swap_step; [done|done|by right|done|done|done|by left].
Qed.

Lemma activate_step s v version body now : serving s v → step_spec s (committed s (activate_proposal version body now s)) v.
Proof.
  intros Hs. destruct (activate_proposal version body now s) as [[view s']|] eqn:E; [|by apply step_stays]. cbn [committed].
  destruct (cl_activations s !! as_event_uid body) as [a|] eqn:Ea.
  - unfold activate_proposal in E. rewrite Ea in E. apply bind_Ok in E as ([] & _ & E).
    destruct (cl_configs s !! version); [|done]. apply bind_Ok in E as (? & _ & [= _ <-]). by apply step_stays.
  - destruct Hs as [Hkey Hserve]. destruct (activate_Ok _ _ _ _ _ _ Hkey Ea E) as (active & target & old & new & Hact & Ht & <- & Hoff & Hp & _ & _ & _ & ->).
    apply swap_step; [done|done|by left|done|done|done|by right].
Qed.

(** The learner adds an inactive row at most. *)
Lemma grow_step s v l response :
  serving s v → configs_grow (cl_learner s) l response →
  step_spec s {| cl_learner := l; cl_activations := cl_activations s; cl_adoptions := cl_adoptions s |} v.
Proof.
  intros Hs Hgrow. set (s1 := {| cl_learner := l; cl_activations := _; cl_adoptions := _ |}). exists [], v.
  assert (Hj : journaled s s1 []) by by apply journaled_nil.
  destruct Hgrow as [Heq|(r & v' & -> & Hfree & Hoff & Heq & _)];
    [assert (Hc : cl_configs s1 = cl_configs s) by exact Heq; unfold serving; rewrite Hc; split_and!; try done; [apply Hs|apply Hs|apply Forall_nil_2]|].
  assert (Hc : cl_configs s1 = <[sc_version r := r]> (cl_configs s)) by exact Heq. unfold serving. rewrite Hc.
  destruct Hs as [Hkey (row & Hrow & Hact & Honly)]. split_and!; try done.
  - by apply keyed_insert.
  - exists row. rewrite lookup_insert_ne by (intros <-; unfold cl_configs, cl_db in Hrow; congruence). split_and!; [done|done|].
    intros v' row' Hv' Ha'. destruct (decide (v' = sc_version r)) as [->|]; [|rewrite lookup_insert_ne in Hv' by done; eauto].
    rewrite lookup_insert_eq in Hv'. injection Hv' as <-. congruence.
  - constructor.
  - by apply kept_rows_subseteq, insert_subseteq.
Qed.

Lemma control_step_spec s v e : serving s v → step_spec s (control_step s e) v.
Proof.
  intros Hs. destruct e as [body now|version body now|trigger due_only ot job_id draws]; cbn [control_step].
  - by apply create_step.
  - by apply activate_step.
  - destruct (retrain_transaction _ _ _ _ _ _ _ _ _ _) as [[response l]|] eqn:E; [|by apply step_stays].
    eapply grow_step; [done|]. by apply retrain_grows in E.
Qed.

Lemma control_run_spec events s v : serving s v → step_spec s (control_run events s) v.
Proof.
  revert s v. induction events as [|e events IH]; intros s v Hs; [by apply step_stays|].
  destruct (control_step_spec s v e Hs) as (j & v1 & Hs1 & Hc & Hj & Hp & Hk).
  destruct (IH _ _ Hs1) as (j' & v2 & Hs2 & Hc' & Hj' & Hp' & Hk').
  exists (j ++ j'), v2. split_and!; [done|by eapply chain_app|by eapply journaled_app| |by eapply kept_rows_trans].
  apply Forall_app. split; [by eapply proposals_kept|done].
Qed.

(** ** Reading back what was forced *)
Definition forced_keys : list str :=
  lit <$> ["tau"; "top_k"; "memory_context_share"; "half_life_time_days"; "half_life_hist_days"; "_control"]%string.

Lemma aget_forced body parent changed p k :
  aget k (forced_params body parent changed p) =
  if bool_decide (k = lit "_control") then Some (control_entry body parent changed)
  else if bool_decide (k = lit "half_life_hist_days") then Some (JFloat (sv_half_life_hist_days (cc_values body)))
  else if bool_decide (k = lit "half_life_time_days") then Some (JFloat (sv_half_life_time_days (cc_values body)))
  else if bool_decide (k = lit "memory_context_share") then Some (JFloat (sv_memory_context_share (cc_values body)))
  else if bool_decide (k = lit "top_k") then Some (JInt (sv_top_k (cc_values body)))
  else if bool_decide (k = lit "tau") then Some (JFloat (sv_tau (cc_values body)))
  else aget k p.
Proof.
  unfold forced_params. cbn [foldl dump_params fst snd].
  repeat (case_bool_decide as E; [subst; by rewrite aget_aset_eq|rewrite aget_aset_ne by done; clear E]). done.
Qed.

Lemma aget_weights w : (λ name, aget (lit name) (dump_weights w)) <$> weight_names = Some <$> (JFloat <$> weight_values w).
Proof. by destruct w. Qed.

Ltac decide_keys H := revert H;
  repeat match goal with |- context [bool_decide ?P] => let b := eval vm_compute in (bool_decide P) in
    change (bool_decide P) with b; cbn iota end; intros H.

Lemma values_forced body now active old vals :
  values_of_row (forced_row body now active old) = Ok vals → vals = cc_values body ∧ values_ok vals = true.
Proof.
  unfold values_of_row, wrapped. destruct (raw_values _) as [v|[]] eqn:E; try done. cbn [m2k_raised]. intros [= ->].
  unfold raw_values, forced_row in E. cbn [sc_params sc_weights] in E. unfold subscript in E.
  rewrite !aget_forced in E. decide_keys E. revert E.
  destruct (sv_weights (cc_values body)) as [a b c d e f] eqn:Ew. cbn [mbind res_bind float_of_json int_of_json default from_option id].
  change (res_map _ weight_names) with (@Ok pyexn (list float) [a; b; c; d; e; f]).
  cbn [mbind res_bind weights_of_values]. unfold validated. intros ([] & Hok%guard_Ok & [= <-])%bind_Ok.
  split; [|done]. destruct (cc_values body). cbn in Ew. by subst.
Qed.

(** The configuration with other values: nothing else moves, but a budget in
    tokens of an old configuration, which no longer caps the share. *)
Definition with_values (version : str) (v : ScorerValues) (a : ScorerConfig) : ScorerConfig := {|
  Scorer.version := version; weights := sv_weights v;
  params := {|
    tau := sv_tau v; near_miss_k := near_miss_k (params a); memory_context_share := sv_memory_context_share v;
    half_life_time_days := sv_half_life_time_days v; half_life_hist_days := sv_half_life_hist_days v;
    candidate_pool := candidate_pool (params a); location_weight := location_weight (params a);
    half_life_location_hops := half_life_location_hops (params a); thread_weight := thread_weight (params a);
    where_weight := where_weight (params a); legacy_budget_tokens := None |};
  bias_offsets := bias_offsets a; project_offsets := project_offsets a; axes := axes a |}.

Lemma finite_float_Ok x y : finite_number (JFloat x) = Ok y → y = x.
Proof. cbn. destruct (isfinite x); [|done]. by intros [= ->]. Qed.

Lemma weight_read w name x y :
  aget (lit name) (dump_weights w) = Some (JFloat x) → number (dump_weights w) name = Ok y → y = x.
Proof. unfold number, subscript. intros ->. apply finite_float_Ok. Qed.

Lemma aget_unforced body parent changed p (k : string) :
  bool_decide (lit k ∈ forced_keys) = false → aget (lit k) (forced_params body parent changed p) = aget (lit k) p.
Proof.
  intros Hk%bool_decide_eq_false. rewrite aget_forced.
  repeat (rewrite bool_decide_false by (intros E; apply Hk; rewrite E; unfold forced_keys; cbn [fmap list_fmap]; set_solver)). done.
Qed.

Lemma config_forced body now active old a c :
  config_of_row active = Ok a → config_of_row (forced_row body now active old) = Ok c →
  c = with_values (target_version (cc_event_uid body)) (cc_values body) a.
Proof.
  unfold config_of_row. cbn [sc_params sc_weights sc_version forced_row].
  destruct (sc_params active) as [| | | | | |p] eqn:Ep; try done. destruct (sc_weights active) as [| | | | | |ws]; try done.
  unfold params_of. rewrite Ep. intros Ha Hc. unfold from_mappings in Ha.
  apply bind_Ok in Ha as (learner & Hl & Ha). apply bind_Ok in Ha as (raw & Hraw & Ha). apply bind_Ok in Ha as (biases & Hb & Ha).
  do 7 (apply bind_Ok in Ha as (? & _ & Ha)). apply bind_Ok in Ha as (k & Hk & Ha). do 3 (apply bind_Ok in Ha as (? & _ & Ha)).
  apply bind_Ok in Ha as (pool & Hpool & Ha). apply bind_Ok in Ha as (lw & Hlw & Ha). apply bind_Ok in Ha as (hl & Hhl & Ha).
  apply bind_Ok in Ha as (tw & Htw & Ha). apply bind_Ok in Ha as (ww & Hww & Ha). apply bind_Ok in Ha as (? & _ & Ha).
  apply bind_Ok in Ha as ([] & _ & Ha). apply bind_Ok in Ha as (ax & Hax & Ha). apply bind_Ok in Ha as ([] & _ & [= <-]).
  unfold from_mappings, number, integer, optional_number, subscript in *.
  rewrite !aget_unforced in Hc by (vm_compute; reflexivity). rewrite !aget_forced in Hc. decide_keys Hc.
  rewrite Hl in Hc. cbn [mbind res_bind] in Hc. rewrite Hraw in Hc. cbn [mbind res_bind] in Hc. rewrite Hb in Hc.
  cbn [mbind res_bind] in Hc. set (w := sv_weights (cc_values body)) in *.
  apply bind_Ok in Hc as (sem & H1 & Hc). apply (weight_read w "sem" (w_sem w)) in H1; [|by destruct w].
  apply bind_Ok in Hc as (kw & H2 & Hc). apply (weight_read w "kw" (w_kw w)) in H2; [|by destruct w].
  apply bind_Ok in Hc as (time & H3 & Hc). apply (weight_read w "time" (w_time w)) in H3; [|by destruct w].
  apply bind_Ok in Hc as (proj & H4 & Hc). apply (weight_read w "proj" (w_proj w)) in H4; [|by destruct w].
  apply bind_Ok in Hc as (freq & H5 & Hc). apply (weight_read w "freq" (w_freq w)) in H5; [|by destruct w].
  apply bind_Ok in Hc as (hist & H6 & Hc). apply (weight_read w "hist" (w_hist w)) in H6; [|by destruct w].
  apply bind_Ok in Hc as (t & H7%finite_float_Ok & Hc). rewrite Hk in Hc. cbn [mbind res_bind] in Hc.
  apply bind_Ok in Hc as (share & H8%finite_float_Ok & Hc). apply bind_Ok in Hc as (ht & H9%finite_float_Ok & Hc).
  apply bind_Ok in Hc as (hh & H10%finite_float_Ok & Hc). rewrite Hpool in Hc. cbn [mbind res_bind] in Hc.
  rewrite Hlw in Hc. cbn [mbind res_bind] in Hc. rewrite Hhl in Hc. cbn [mbind res_bind] in Hc.
  rewrite Htw in Hc. cbn [mbind res_bind] in Hc. rewrite Hww in Hc. cbn [mbind res_bind] in Hc.
  apply bind_Ok in Hc as ([] & _ & Hc). rewrite Hax in Hc. cbn [mbind res_bind] in Hc.
  apply bind_Ok in Hc as ([] & _ & [= <-]). subst. unfold with_values. cbn. f_equal. by destruct (sv_weights (cc_values body)).
Qed.

Lemma wrapped_Ok {A} reason (r : res pyexn A) x : wrapped reason r = Ok x → r = Ok x.
Proof. unfold wrapped. destruct r as [y|[]]; try done. by intros [= ->]. Qed.

(** A receipt reads the configuration it is based on. *)
Lemma receipt_base h pd base values principal terrain d annotated receipt :
  deep_receipt h pd base values principal terrain d annotated = Ok receipt → ∃ a, config_of_row base = Ok a.
Proof.
  unfold deep_receipt. intros (configs & _ & H)%bind_Ok. cbn zeta in H. do 3 (apply bind_Ok in H as (? & _ & H)).
  apply bind_Ok in H as (a & Ha%wrapped_Ok & _). by exists a.
Qed.

(** The terrain is not part of what is digested. *)
Lemma receipt_terrain h pd base values principal d annotated receipt :
  deep_receipt h pd base values principal true d annotated = Ok receipt →
  ∃ receipt', deep_receipt h pd base values principal false d annotated = Ok receipt' ∧
    sr_simulation_digest receipt' = sr_simulation_digest receipt.
Proof.
  unfold deep_receipt. cbn zeta. intros H.
  repeat (let x := fresh in let E := fresh in apply bind_Ok in H as (x & E & H);
          first [rewrite E; cbn [mbind res_bind] | idtac]).
  injection H as <-. cbn [andb mbind res_bind]. by eexists.
Qed.

(** The serving row is what [_active_config] finds. *)
Lemma serves_the_active d v :
  keyed (scorer_configs d) → serves (scorer_configs d) v → ∃ row, the_active d = Ok row ∧ sc_version row = v.
Proof.
  intros Hkey (row & Hrow & Hact & Honly). exists row. split; [|by apply Hkey in Hrow]. unfold the_active, active_rows, Store.rows.
  set (m := scorer_configs d) in *.
  assert (Hperm : filter (λ r, sc_active r = true) (map_to_list m).*2 ≡ₚ [row]).
  { rewrite <- (insert_delete_id m v row Hrow) at 1. rewrite map_to_list_insert by apply lookup_delete_eq.
    rewrite fmap_cons, filter_cons_True by done. apply Permutation_cons; [done|].
    destruct (filter _ _) as [|r rs] eqn:E; [done|]. exfalso.
    assert (Hr : r ∈ filter (λ r, sc_active r = true) (map_to_list (delete v m)).*2) by (rewrite E; by left).
    apply list_elem_of_filter in Hr as [Ha ([v' r'] & -> & Hin%elem_of_map_to_list)%list_elem_of_fmap].
    apply lookup_delete_Some in Hin as [Hne Hin]. cbn in Ha. by apply Hne, eq_sym, (Honly _ r'). }
  symmetry in Hperm. apply Permutation_singleton_l in Hperm. by rewrite <- Hperm.
Qed.

Lemma record_all_other j t k : k ∉ (sa_event_uid <$> j) → record_all j t !! k = t !! k.
Proof.
  revert t. induction j as [|b j IH]; intros t Hk; [done|]. rewrite fmap_cons, not_elem_of_cons in Hk. destruct Hk as [Hb Hk].
  change (record_all j (<[sa_event_uid b := b]> t) !! k = t !! k). rewrite IH by done. by rewrite lookup_insert_ne.
Qed.

(** Entries are never rewritten. *)
Lemma journaled_keeps s s' j k a : journaled s s' j → cl_activations s !! k = Some a → cl_activations s' !! k = Some a.
Proof.
  intros (-> & _ & Hf) Hk. rewrite record_all_other; [done|]. intros (b & -> & Hb)%list_elem_of_fmap.
  eapply Forall_forall in Hf as [Hf _]; [|done]. congruence.
Qed.

Lemma fle_number a x : fle a x = true → is_nan x = false.
Proof. by destruct a, x as [| | |]. Qed.
Lemma flt_number a x : flt a x = true → is_nan x = false.
Proof. by destruct a, x as [| | |]. Qed.

Lemma weights_eqb_refl w : forallb (in_range f0 f1) (weight_values w) = true → weights_eqb w w = true.
Proof.
  destruct w. unfold weights_eqb. cbn [weight_values forallb zip zip_with fst snd]. intros H.
  repeat (let E := fresh in apply andb_true_iff in H as [E H]; unfold in_range in E; apply andb_true_iff in E as [?%fle_number _]).
  by rewrite !feq_refl.
Qed.

(** Validated values hold no NaN. *)
Lemma values_eqb_refl v : values_ok v = true → values_eqb v v = true.
Proof.
  unfold values_ok, values_eqb. intros H. apply andb_true_iff in H as [H [Hw _]%andb_true_iff].
  repeat (let E := fresh in apply andb_true_iff in H as [H E]).
  apply fle_number in H.
  repeat match goal with
  | E : in_range _ _ _ = true |- _ => apply andb_true_iff in E as [E%fle_number _]
  | E : flt _ _ = true |- _ => apply flt_number in E
  end.
  rewrite weights_eqb_refl, Z.eqb_refl by done. by rewrite !feq_refl.
Qed.

Lemma changes_keys a b : lit "_force" ∉ (changes a b).*1.
Proof.
  intros ([k x] & Hk & Hin)%list_elem_of_fmap. cbn in Hk. subst k. unfold changes in Hin.
  apply list_elem_of_omap in Hin as ([[k1 v1] [k2 v2]] & Hin & Hsome). cbn in Hsome. destruct (number_eqb v1 v2); [done|].
  injection Hsome as -> _. apply elem_of_zip_l in Hin.
  apply (list_elem_of_fmap_2 fst) in Hin. change (flat_values a).*1 with (flat_values a).*1 in Hin.
  assert (Hno : bool_decide (lit "_force" ∈ (flat_values a).*1) = false).
  { destruct a as [? ? ? ? ? []]. vm_compute. reflexivity. }
  by apply bool_decide_eq_false in Hno.
Qed.

Lemma aget_app_ne {A} k (l l' : list (str * A)) : k ∉ l.*1 → aget k (l ++ l') = aget k l'.
Proof.
  induction l as [|[k' x] l IH]; [done|]. rewrite fmap_cons, not_elem_of_cons. intros [Hne Hin]. cbn.
  rewrite decide_False by done. by apply IH.
Qed.

Lemma forced_by_self body now active old receipt :
  sr_simulation_digest receipt = cc_simulation_digest body →
  forced_by (cc_simulation_digest body) (forced_activation body now active old receipt) = true.
Proof.
  intros Hd. unfold forced_by. cbn [sa_changes forced_activation]. rewrite aget_app_ne by apply changes_keys.
  cbn [aget]. rewrite decide_True by done. cbn [mbind option_bind]. unfold force_entry, jget. cbn [aget].
  rewrite decide_True by done. by apply bool_decide_eq_true.
Qed.

(** ** Properties *)

(** C7: One version serves, and the log says how it came to.  Start where one
    configuration is active.  Whatever forces, activations and retrains follow,
    in whatever order and whether they succeed or raise, one configuration is
    active; the entries appended to the activation log, each under an identifier
    of its own, form a chain from the version that served at the start to the
    one that serves now, each entry naming the version it replaced; what an
    entry calls a proposal is one of the learner's; and no stored configuration
    changes but in whether it is active. *)
Theorem one_version_serves events s v :
  serving s v →
  ∃ journal row, serving (control_run events s) (sc_version row) ∧ the_active (cl_db (control_run events s)) = Ok row ∧
    chain v journal (sc_version row) ∧ journaled s (control_run events s) journal ∧
    proposals_known (cl_configs (control_run events s)) journal ∧
    kept_rows (cl_configs s) (cl_configs (control_run events s)).
Proof.
  intros Hs. destruct (control_run_spec events s v Hs) as (journal & v' & Hs' & Hc & Hj & Hp & Hk).
  destruct (serves_the_active _ _ (proj1 Hs') (proj2 Hs')) as (row & Hrow & <-). by exists journal, row.
Qed.


(** What a repeated force finds. *)
Lemma validate_replay_Ok body now active old receipt s view flag :
  sr_simulation_digest receipt = cc_simulation_digest body → sc_version active = cc_base_version body →
  config_view (forced_row body now active old) = Ok view →
  cl_configs s !! target_version (cc_event_uid body) = Some (with_active flag (forced_row body now active old)) →
  ∃ view', validate_control_replay (forced_activation body now active old receipt) body s = Ok view' ∧ same_content view' view.
Proof.
  intros Hd Hb Hview Hrow. unfold validate_control_replay. cbn zeta. rewrite Hrow. cbn [forced_activation sa_version
    sa_previous_version sa_actor_class sa_machine_id sa_reason]. rewrite !bool_decide_true by done. cbn [andb guard_ mbind res_bind].
  rewrite values_of_active. assert (Hv := Hview). unfold config_view in Hv. cbn [sc_params forced_row] in Hv.
  apply bind_Ok in Hv as (vals & Hvals & _). change (values_of_row (forced_row body now active old) = Ok vals) in Hvals.
  destruct (values_forced _ _ _ _ _ Hvals) as [-> Hok]. rewrite Hvals. cbn [mbind res_bind].
  rewrite values_eqb_refl, forced_by_self by done. cbn [andb guard_ mbind res_bind]. by apply config_view_flag.
Qed.

(** C24: A request that changed what serves can be repeated at any time.  When a
    force or an activation under a new identifier succeeds, then after whatever
    events follow, the same request returns the same configuration (only its
    status follows the time) and changes nothing. *)
Theorem control_replay_safe s v events :
  serving s v →
  (∀ body now view s1 now',
     cl_activations s !! cc_event_uid body = None → create body now s = Ok (view, s1) →
     ∃ view', create body now' (control_run events s1) = Ok (view', control_run events s1) ∧ same_content view' view) ∧
  (∀ version body now view s1 now',
     cl_activations s !! as_event_uid body = None → activate_proposal version body now s = Ok (view, s1) →
     ∃ view', activate_proposal version body now' (control_run events s1) = Ok (view', control_run events s1) ∧
       same_content view' view).
Proof.
  intros Hs. pose proof Hs as [Hkey _]. split.
  - intros body now view s1 now' Hfresh Hc. pose proof (create_step s v body now Hs) as Hstep. rewrite Hc in Hstep.
    destruct Hstep as (j1 & v1 & Hs1 & _ & _ & _ & _).
    destruct (create_Ok _ _ _ _ _ Hkey Hfresh Hc) as (active & receipt & old & config & Hact & Hb & Hr & Hd & Ho & Hfree & Hcfg & Hview & E).
    destruct (control_run_spec events s1 v1 Hs1) as (j & v2 & _ & _ & Hj & _ & Hk).
    unfold create_scorer_config. rewrite (journaled_keeps _ _ _ _ (forced_activation body now active old receipt) Hj);
      [|subst s1; by apply lookup_insert_eq].
    assert (Hrow : cl_configs s1 !! target_version (cc_event_uid body) = Some (forced_row body now active old)).
    { subst s1. unfold cl_configs, cl_db. cbn. unfold swap_active. rewrite lookup_insert_eq. done. }
    destruct (Hk _ _ Hrow) as [flag Hrow'].
    destruct (validate_replay_Ok _ _ _ _ _ _ _ _ Hd Hb Hview Hrow') as (view' & Hv & Hsame). rewrite Hv. by exists view'.
  - intros version body now view s1 now' Hfresh Ha. pose proof (activate_step s v version body now Hs) as Hstep. rewrite Ha in Hstep.
    destruct Hstep as (j1 & v1 & Hs1 & _ & _ & _ & _).
    destruct (activate_Ok _ _ _ _ _ _ Hkey Hfresh Ha) as (active & target & old & new & Hact & Ht & Hver & _ & _ & _ & _ & Hview & E).
    destruct (control_run_spec events s1 v1 Hs1) as (j & v2 & _ & _ & Hj & _ & Hk).
    unfold activate_proposal. rewrite (journaled_keeps _ _ _ _ (proposal_activation body now active target old new) Hj);
      [|subst s1; by apply lookup_insert_eq].
    cbn [sa_version sa_actor_class sa_machine_id sa_reason proposal_activation]. rewrite !bool_decide_true by done.
    cbn [andb guard_ mbind res_bind].
    assert (Hrow : cl_configs s1 !! version = Some (with_active true target)).
    { subst s1. unfold cl_configs, cl_db. cbn. unfold swap_active. by rewrite Hver, lookup_insert_eq. }
    destruct (Hk _ _ Hrow) as [flag ->]. destruct (config_view_flag flag _ _ Hview) as (view' & Hv & Hsame).
    rewrite Hv. by exists view'.
Qed.

(** What is forced is what serves.  When a force succeeds, the configuration
    that serves from then on is named by the request, reads back as exactly the
    forced values, and is otherwise the configuration it replaced: its near
    misses, pool, localities, biases, project offsets and axes are the same, and
    only an old cap in tokens is dropped. *)
Theorem forced_values_serve body now s v view s' :
  serving s v → cl_activations s !! cc_event_uid body = None → create body now s = Ok (view, s') →
  ∃ active row a, the_active (cl_db s) = Ok active ∧ sc_version active = v ∧ v = cc_base_version body ∧
    the_active (cl_db s') = Ok row ∧ cv_version view = sc_version row ∧ cv_values view = cc_values body ∧
    values_of_row row = Ok (cc_values body) ∧ config_of_row active = Ok a ∧
    config_of_row row = Ok (with_values (target_version (cc_event_uid body)) (cc_values body) a).
Proof.
  intros Hs Hfresh Hc. pose proof Hs as [Hkey Hserve]. pose proof (create_step s v body now Hs) as Hstep. rewrite Hc in Hstep.
  destruct Hstep as (j & v' & [Hkey' Hs'] & _ & _ & _ & _).
  destruct (create_Ok _ _ _ _ _ Hkey Hfresh Hc) as (active & receipt & old & config & Hact & Hb & Hr & _ & _ & _ & Hcfg & Hview & E).
  destruct (receipt_base _ _ _ _ _ _ _ _ _ Hr) as [a Ha]. pose proof (config_forced _ _ _ _ _ _ Ha Hcfg) as ->.
  pose proof (serves_unique _ _ _ Hserve (the_active_serves _ _ Hkey Hact)) as ->.
  destruct (serves_the_active _ _ Hkey' Hs') as (row & Hrow & Hv').
  assert (row = forced_row body now active old) as ->.
  { destruct (the_active_Ok _ _ Hkey' Hrow) as (_ & _ & Honly). pose proof (Honly (target_version (cc_event_uid body))
      (with_active true (forced_row body now active old))) as Ht. subst s'. cbn in Ht. unfold swap_active in Ht.
    rewrite lookup_insert_eq in Ht. specialize (Ht eq_refl eq_refl). destruct (the_active_Ok _ _ Hkey' Hrow) as (Hl & _ & _).
    cbn in Hl. unfold swap_active in Hl. rewrite <- Ht, lookup_insert_eq in Hl. by injection Hl. }
  exists active, (forced_row body now active old), a. assert (Hv := Hview). unfold config_view in Hv. cbn [sc_params forced_row] in Hv.
  apply bind_Ok in Hv as (vals & Hvals & Hv). change (values_of_row (forced_row body now active old) = Ok vals) in Hvals.
  destruct (values_forced _ _ _ _ _ Hvals) as [-> _]. do 2 (apply bind_Ok in Hv as (? & _ & Hv)).
  apply bind_Ok in Hv as ([] & _ & [= <-]). by split_and!.
Qed.

(** The reasons a force can be refused for once it is admitted. *)
Definition stale (e : m2k_error) : Prop := e = M2KStateError (lit "stale_base") ∨ e = M2KStateError (lit "simulation_stale").

Lemma wrapped_Err {A} reason (r : res pyexn A) e : wrapped reason r = Err e → e = M2KStateError reason ∨ ∃ x, e = M2kRaised x.
Proof. unfold wrapped. destruct r as [y|[]]; intros [= <-]; eauto. Qed.

Lemma invalid_not_stale row : ¬ stale (M2KStateError (invalid_scorer row)).
Proof. unfold stale, invalid_scorer. by intros [[= ?]|[= ?]]. Qed.
Lemma raised_not_stale x : ¬ stale (M2kRaised x).
Proof. unfold stale. by intros [[= ?]|[= ?]]. Qed.
Hint Resolve invalid_not_stale raised_not_stale : core.

Lemma config_view_not_stale row e : config_view row = Err e → ¬ stale e.
Proof.
  unfold config_view. destruct (sc_params row) as [| | | | | |kv]; try (intros [= <-]; by auto).
  intros H. apply bind_Err in H as [H|(values & _ & H)].
  { apply wrapped_Err in H as [-> | [x ->]]; by auto. }
  apply bind_Err in H as [H|(ax & _ & H)].
  { unfold dict_field in H. destruct (aget _ _) as [[]|]; try done; injection H as <-; by auto. }
  apply bind_Err in H as [H|(offsets & _ & H)].
  { unfold dict_field in H. destruct (aget _ _) as [[]|]; try done; injection H as <-; by auto. }
  apply bind_Err in H as [H|(? & _ & H)]; [|done]. apply guard_Err in H as [_ <-]. by auto.
Qed.

(** C8: A simulation admits the force it shows, until something changes.  While
    one version serves, a simulation over the whole Palace that returns a receipt
    makes a force of the same values over the same version, under a new
    identifier and with the receipt's digest, pass both staleness checks in that
    state; and a force that succeeds always carries the digest of the receipt of
    the state it is made in, over the version that serves. *)
Theorem simulation_admits s v :
  serving s v →
  (∀ q receipt gate slice uid machine now,
     simulate holdout_fraction passive_discount q true (cl_db s) (ld_annotations (cl_learner s)) = Ok (receipt, gate, slice) →
     cl_activations s !! uid = None →
     ∀ e, create {| cc_event_uid := uid; cc_base_version := sq_base_version q; cc_values := sq_values q;
                    cc_simulation_digest := sr_simulation_digest receipt; cc_machine_id := machine |} now s = Err e →
       ¬ stale e) ∧
  (∀ body now view s',
     cl_activations s !! cc_event_uid body = None → create body now s = Ok (view, s') →
     cc_base_version body = v ∧
     ∃ active receipt, the_active (cl_db s) = Ok active ∧ receipt_now s active (cc_values body) = Ok receipt ∧
       sr_simulation_digest receipt = cc_simulation_digest body).
Proof.
  intros Hs. pose proof Hs as [Hkey Hserve]. split.
  - intros q receipt gate slice uid machine now Hsim Hfresh e He. unfold simulate in Hsim. cbn zeta in Hsim.
    destruct (scorer_configs (cl_db s) !! sq_base_version q) as [base|] eqn:Eb; [|done].
    apply bind_Ok in Hsim as ([] & Hact%guard_Ok & Hsim). apply bind_Ok in Hsim as (r & Hr & Hsim).
    do 2 (apply bind_Ok in Hsim as (? & _ & Hsim)). injection Hsim as -> _ _.
    destruct (serves_the_active _ _ Hkey Hserve) as (active & Hactive & Hv).
    destruct (the_active_Ok _ _ Hkey Hactive) as (Hl & _ & Honly).
    pose proof (Honly _ _ Eb Hact) as Ebase. assert (active = base) as ->.
    { change (scorer_configs (cl_db s)) with (cl_configs s) in *. congruence. }
    destruct (receipt_terrain _ _ _ _ _ _ _ _ Hr) as (receipt' & Hr' & Hd).
    unfold create_scorer_config in He. cbn [cc_event_uid cc_base_version cc_values cc_simulation_digest] in He.
    rewrite Hfresh, Hactive in He. cbn [mbind res_bind] in He.
    rewrite (bool_decide_true (sc_version base = sq_base_version q)) in He by congruence.
    cbn [guard_ mbind res_bind] in He. rewrite Hr' in He. cbn [mbind res_bind] in He. rewrite (bool_decide_true (sr_simulation_digest _ = _)) in He by exact Hd.
    cbn [guard_ mbind res_bind] in He.
    apply bind_Err in He as [He|([] & _ & He)]; [apply guard_Err in He as [_ <-]; by intros [[= ?]|[= ?]]|].
    apply bind_Err in He as [He|(old & _ & He)]; [apply wrapped_Err in He as [-> | [x9 ->]]; by auto|].
    apply bind_Err in He as [He|([] & _ & He)].
    { unfold validate_runtime_config in He. apply bind_Err in He as [He|(? & _ & ?)]; [|done].
      apply wrapped_Err in He as [-> | [x9 ->]]; [by intros [[= ?]|[= ?]]|by auto]. }
    apply bind_Err in He as [He|(? & _ & ?)]; [|done]. by eapply config_view_not_stale.
  - intros body now view s' Hfresh Hc.
    destruct (create_Ok _ _ _ _ _ Hkey Hfresh Hc) as (active & receipt & old & config & Hact & Hb & Hr & Hd & _).
    rewrite <- Hb. split; [eapply serves_unique; [by apply the_active_serves|done]|by exists active, receipt].
Qed.
End control.
