(* ===== verification/M2kControlSamples.v ===== *)
(** * Sample runs of the scorer's controls

    The theorems of [M2kControlFacts] at a table of two configurations, the one
    that serves and a proposal of the learner: a simulation, the force it
    admits and the activation of the proposal. *)
From S2P Require Import Prelude PyStr PyFloat PyDecimal PyJson JsonText Ids Axes Scorer Features Store Sql Annotations Learner.
From S2P Require Import Queue Prepare PrepareSamples Evidence Nominate Creation LearnerService LearnerServiceFacts M2kValues M2kReplay M2kControl M2kControlFacts.
Open Scope Z_scope.

(** ** A run *)
Definition control_repr : PyRepr := {| py_repr := λ _, [] |}.
Definition control_tokens : Tokenizer := {| cl100k_token_count := zlen |}.
Definition control_sha : Sha256 := {| sha256_hex := λ s, s |}.
Definition control_pow : LibmPow := {| libm_pow := λ x y, fmul x y |}.
Definition control_square : LibmSquare := {| libm_square := λ x, fmul x x |}.
Definition control_order : Collation := {| text_compare := str_compare |}.
Definition control_axes : AxisDecoder := {| decode_axis := λ _, None |}.
#[local] Existing Instances control_tokens control_repr control_sha control_pow control_square control_order control_axes.

Definition served_row : ScorerConfigRow := {|
  sc_version := lit "v1"; sc_weights := sc_weights sample_row;
  sc_params := JObj (aset (lit "top_k") (JInt 8) (params_of sample_row)); sc_created_at := 0; sc_active := true |}.

Definition proposed_row : ScorerConfigRow := {|
  sc_version := lit "p1"; sc_weights := sc_weights sample_row;
  sc_params := JObj (aset (lit "_learner") (JObj [(lit "status", JStr (lit "proposed"))]) (params_of served_row));
  sc_created_at := 1; sc_active := false |}.

Definition control_start : control_db := {|
  cl_learner := LearnerService.with_db (set_scorer_configs {[lit "v1" := served_row; lit "p1" := proposed_row]} (prepare_db 2)) start;
  cl_activations := ∅; cl_adoptions := ∅ |}.

Definition other_values : ScorerValues := {|
  sv_tau := f_ratio 1 2; sv_top_k := 3; sv_memory_context_share := f_ratio 1 4; sv_half_life_time_days := f_of_Z 14;
  sv_half_life_hist_days := f_of_Z 7;
  sv_weights := {| w_sem := f_ratio 1 2; w_kw := f_ratio 1 2; w_time := f0; w_proj := f0; w_freq := f0; w_hist := f0 |} |}.

Definition simulation : ScorerSimulationRequest := {|
  sq_principal_id := lit "p"; sq_injection_id := None; sq_base_version := lit "v1"; sq_values := other_values;
  sq_slice_parameter := p_tau |}.
Definition simulated := simulate (f_ratio 1 5) (f_ratio 1 2) simulation true (cl_db control_start) (ld_annotations (cl_learner control_start)).
Definition sample_digest : str := match simulated with Ok (r, _, _) => sr_simulation_digest r | Err _ => [] end.

Definition force_body : CreateScorerConfigRequest := {|
  cc_event_uid := lit "e1"; cc_base_version := lit "v1"; cc_values := other_values;
  cc_simulation_digest := sample_digest; cc_machine_id := lit "m" |}.
Definition tap_body : ActivateScorerConfigRequest := {| as_event_uid := lit "e2"; as_machine_id := lit "m" |}.

Definition force_sample := create_scorer_config (f_ratio 1 5) (f_ratio 1 2) force_body 10 control_start.
Definition tap_sample := activate_proposal (lit "p1") tap_body 10 control_start.

Definition view_of (r : res m2k_error (ScorerConfigurationView * control_db)) : option ScorerConfigurationView :=
  match r with Ok (view, _) => Some view | Err _ => None end.
Definition after (r : res m2k_error (ScorerConfigurationView * control_db)) : control_db := committed control_start r.

Lemma control_serving : serving control_start (lit "v1").
Proof.
  split.
  - change (cl_configs control_start) with (<[lit "v1" := served_row]> {[lit "p1" := proposed_row]} : gmap str ScorerConfigRow).
    apply map_Forall_insert_2; [done|]. by apply map_Forall_singleton.
  - exists served_row. split_and!; [vm_compute; reflexivity|done|].
    intros v row Hv Ha. change (cl_configs control_start) with
      (<[lit "v1" := served_row]> {[lit "p1" := proposed_row]} : gmap str ScorerConfigRow) in Hv.
    apply lookup_insert_Some in Hv as [[<- _]|[_ [<- <-]%lookup_singleton_Some]]; done.
Defined.

(** The force succeeds with the digest the simulation showed. *)
Example force_succeeds : (cv_version <$> view_of force_sample) = Some (lit "m2k-e1").
Proof. vm_compute. reflexivity. Qed.
Example tap_succeeds : (cv_version <$> view_of tap_sample) = Some (lit "p1").
Proof. vm_compute. reflexivity. Qed.

(** A force, a tap that succeeds on top of it, and a stale force that is refused. *)
Definition control_events : list control_event := [
  forced force_body 10; activated (lit "p1") tap_body 11;
  forced {| cc_event_uid := lit "e3"; cc_base_version := lit "v1"; cc_values := other_values;
            cc_simulation_digest := sample_digest; cc_machine_id := lit "m" |} 12].

Definition sample_run := control_run (f_ratio 1 5) (f_ratio 1 2) (run_settings 0) (lit "p") 25 100 control_events control_start.

Lemma one_version_serves_witness :
  serving control_start (lit "v1") ∧
  (∃ journal row, the_active (cl_db sample_run) = Ok row ∧ sc_version row = lit "p1" ∧ chain (lit "v1") journal (sc_version row) ∧
     journaled control_start sample_run journal) ∧
  ((λ a, (sa_previous_version a, sa_version a)) <$> (cl_activations sample_run !! lit "e1")) = Some (lit "v1", lit "m2k-e1") ∧
  ((λ a, (sa_previous_version a, sa_version a)) <$> (cl_activations sample_run !! lit "e2")) = Some (lit "m2k-e1", lit "p1").
Proof.
  split; [exact control_serving|]. split; [|split; vm_compute; reflexivity].
  destruct (one_version_serves (f_ratio 1 5) (f_ratio 1 2) (run_settings 0) (lit "p") 25 100 control_events control_start (lit "v1")
    control_serving) as (journal & row & _ & Ha & Hc & Hj & _).
  exists journal, row. split; [exact Ha|]. split; [|split; [exact Hc|exact Hj]].
  assert (H : (sc_version <$> match the_active (cl_db sample_run) with Ok r => Some r | Err _ => None end) = Some (lit "p1"))
    by (vm_compute; reflexivity).
  change (control_run _ _ _ _ _ _ _ _) with sample_run in Ha. rewrite Ha in H. by injection H.
Defined.

(** What holds of a call that succeeded, at the call's own result. *)
Definition ok_of {E A} (r : res E A) : bool := match r with Ok _ => true | Err _ => false end.
Lemma ok_result {E A} (r : res E A) : ok_of r = true → ∃ y, r = Ok y.
Proof. destruct r as [y|]; [by exists y|done]. Defined.

Lemma control_replay_safe_witness :
  serving control_start (lit "v1") ∧ ok_of force_sample = true ∧ ok_of tap_sample = true ∧
  (∃ view s1 view', force_sample = Ok (view, s1) ∧
     create_scorer_config (f_ratio 1 5) (f_ratio 1 2) force_body 99
       (control_run (f_ratio 1 5) (f_ratio 1 2) (run_settings 0) (lit "p") 25 100 control_events s1) =
     Ok (view', control_run (f_ratio 1 5) (f_ratio 1 2) (run_settings 0) (lit "p") 25 100 control_events s1) ∧
     same_content view' view) ∧
  (∃ view s1 view', tap_sample = Ok (view, s1) ∧
     activate_proposal (lit "p1") tap_body 99
       (control_run (f_ratio 1 5) (f_ratio 1 2) (run_settings 0) (lit "p") 25 100 control_events s1) =
     Ok (view', control_run (f_ratio 1 5) (f_ratio 1 2) (run_settings 0) (lit "p") 25 100 control_events s1) ∧
     same_content view' view).
Proof.
  assert (Hf : ok_of force_sample = true) by (vm_compute; reflexivity).
  assert (Ht : ok_of tap_sample = true) by (vm_compute; reflexivity).
  destruct (control_replay_safe (f_ratio 1 5) (f_ratio 1 2) (run_settings 0) (lit "p") 25 100 control_start (lit "v1") control_events
    control_serving) as [H1 H2].
  split; [exact control_serving|]. split; [exact Hf|]. split; [exact Ht|]. split.
  - destruct (ok_result _ Hf) as [[view s1] E]. destruct (H1 force_body 10 view s1 99) as (view' & Hv & Hsame);
      [vm_compute; reflexivity|exact E|]. exists view, s1, view'. split; [exact E|]. split; [exact Hv|exact Hsame].
  - destruct (ok_result _ Ht) as [[view s1] E]. destruct (H2 (lit "p1") tap_body 10 view s1 99) as (view' & Hv & Hsame);
      [vm_compute; reflexivity|exact E|]. exists view, s1, view'. split; [exact E|]. split; [exact Hv|exact Hsame].
Defined.

Lemma forced_values_serve_witness :
  serving control_start (lit "v1") ∧ ok_of force_sample = true ∧
  ∃ view s' row, force_sample = Ok (view, s') ∧ the_active (cl_db s') = Ok row ∧ values_of_row row = Ok other_values.
Proof.
  assert (Hf : ok_of force_sample = true) by (vm_compute; reflexivity).
  split; [exact control_serving|]. split; [exact Hf|]. destruct (ok_result _ Hf) as [[view s'] E].
  destruct (forced_values_serve (f_ratio 1 5) (f_ratio 1 2) force_body 10 control_start (lit "v1") view s' control_serving)
    as (active & row & a & _ & _ & _ & Hrow & _ & _ & Hvals & _); [vm_compute; reflexivity|exact E|].
  exists view, s', row. split; [exact E|]. split; [exact Hrow|exact Hvals].
Defined.

Lemma simulation_admits_witness :
  serving control_start (lit "v1") ∧ ok_of simulated = true ∧
  (∀ e, create_scorer_config (f_ratio 1 5) (f_ratio 1 2) force_body 10 control_start = Err e → ¬ stale e) ∧
  cc_base_version force_body = lit "v1".
Proof.
  assert (Hf : ok_of force_sample = true) by (vm_compute; reflexivity).
  assert (Hs : ok_of simulated = true) by (vm_compute; reflexivity).
  destruct (simulation_admits (f_ratio 1 5) (f_ratio 1 2) control_start (lit "v1") control_serving) as [H1 H2].
  split; [exact control_serving|]. split; [exact Hs|]. split.
  - intros e He. destruct (ok_result _ Hs) as [[[receipt gate] slice] E].
    apply (H1 simulation receipt gate slice (lit "e1") (lit "m") 10 E); [vm_compute; reflexivity|]. rewrite <- He.
    unfold force_body, sample_digest. rewrite E. reflexivity.
  - destruct (ok_result _ Hf) as [[view s'] E].
    exact (proj1 (H2 force_body 10 view s' ltac:(vm_compute; reflexivity) E)).
Defined.

(** ** Two divergences *)

(** The digest a client is shown for values over the version that serves. *)
Definition shown_digest (base : str) (values : ScorerValues) (s : control_db) : str :=
  match simulate (f_ratio 1 5) (f_ratio 1 2)
          {| sq_principal_id := lit "p"; sq_injection_id := None; sq_base_version := base; sq_values := values;
             sq_slice_parameter := p_tau |} true (cl_db s) (ld_annotations (cl_learner s)) with
  | Ok (r, _, _) => sr_simulation_digest r
  | Err _ => []
  end.

Definition force_over (uid base : str) (values : ScorerValues) (s : control_db) : control_event :=
  forced {| cc_event_uid := uid; cc_base_version := base; cc_values := values;
            cc_simulation_digest := shown_digest base values s; cc_machine_id := lit "m" |} 20.
Definition one_event (e : control_event) (s : control_db) : control_db :=
  control_run (f_ratio 1 5) (f_ratio 1 2) (run_settings 0) (lit "p") 25 100 [e] s.

Definition adopted_proposal : control_db := one_event (activated (lit "p1") tap_body 11) control_start.
Definition forced_over_proposal : control_db := one_event (force_over (lit "e4") (lit "p1") other_values adopted_proposal) adopted_proposal.
Definition cooler_values : ScorerValues := {|
  sv_tau := f_ratio 3 4; sv_top_k := 3; sv_memory_context_share := f_ratio 1 4; sv_half_life_time_days := f_of_Z 14;
  sv_half_life_hist_days := f_of_Z 7; sv_weights := sv_weights other_values |}.
Definition forced_again : control_db :=
  one_event (force_over (lit "e5") (lit "m2k-e4") cooler_values forced_over_proposal) forced_over_proposal.
Definition old_force : ScorerConfigRow := default served_row (cl_configs forced_again !! lit "m2k-e4").

(** A person's own old configuration can be activated as if the learner had
    proposed it.  Forcing values over an activated proposal copies the proposal's
    [_learner] block, status and all, next to the [_control] entry.  Once that
    configuration is superseded the console calls it inactive, since [_control]
    says it is not a proposal, but [activate_proposal] looks at [_learner] only:
    it activates the row and logs a learner's proposal. *)
Theorem forced_config_activatable :
  (cv_status <$> (match config_view old_force with Ok v => Some v | Err _ => None end)) = Some status_inactive ∧
  ∃ view s', activate_proposal (lit "m2k-e4") {| as_event_uid := lit "e6"; as_machine_id := lit "m" |} 30 forced_again = Ok (view, s') ∧
    (sa_reason <$> (cl_activations s' !! lit "e6")) = Some learner_proposal.
Proof.
  split; [vm_compute; reflexivity|].
  assert (H : (match activate_proposal (lit "m2k-e4") {| as_event_uid := lit "e6"; as_machine_id := lit "m" |} 30 forced_again with
               | Ok (_, s') => sa_reason <$> (cl_activations s' !! lit "e6") | Err _ => None end) = Some learner_proposal)
    by (vm_compute; reflexivity).
  destruct (activate_proposal _ _ _ _) as [[view s']|]; [|discriminate H]. exists view, s'. split; [reflexivity|exact H].
Qed.

(** Decimal literals of a request body. *)
Definition cents (z : Z) : float := f_ratio z 100.
Definition sliced_values : ScorerValues := {|
  sv_tau := f_ratio 1 2; sv_top_k := 3; sv_memory_context_share := f_ratio 1 4; sv_half_life_time_days := f_of_Z 14;
  sv_half_life_hist_days := f_of_Z 7;
  sv_weights := {| w_sem := cents 10; w_kw := f0; w_time := cents 5; w_proj := cents 30; w_freq := cents 55; w_hist := f0 |} |}.
Definition sliced : ScorerSimulationRequest := {|
  sq_principal_id := lit "p"; sq_injection_id := None; sq_base_version := lit "v1"; sq_values := sliced_values;
  sq_slice_parameter := p_weight "sem" |}.

(** A valid request can fail on the slice it asks for.  Moving one weight
    spreads the remainder over the others and gives the last of them what
    rounding left over; a last weight of zero becomes a negative number, which
    the service's own validation refuses: the simulation of values the contract
    accepts raises, for a reason the caller cannot see. *)
Theorem slice_point_rejected :
  values_ok sliced_values = true ∧
  with_parameter sliced_values (p_weight "sem") (pv_float (f_ratio 1 8)) = Err (ValueError "ScorerValues") ∧
  simulate (f_ratio 1 5) (f_ratio 1 2) sliced true (cl_db control_start) (ld_annotations (cl_learner control_start)) =
    Err (M2kRaised (ValueError "ScorerValues")).
Proof. split; [vm_compute; reflexivity|]. split; vm_compute; reflexivity. Qed.

(** The projection to the simplex can leave it.  [project_simplex] promises
    non-negative weights, but adds what rounding left over to the last one after
    clipping: a last weight that was clipped to zero becomes negative.  A row the
    learner proposes with such weights cannot be read by the controls. *)
Theorem projection_negative :
  ∃ ws, project_simplex [cents 12; cents 19; cents 54; cents 15; cents 11; f_ratio (-3) 10] = Ok ws ∧
    (λ w, flt w f0) <$> last ws = Some true ∧
    values_of_row {| sc_version := lit "p2"; sc_weights := JObj (zip (lit <$> weight_names) (JFloat <$> ws));
                     sc_params := sc_params served_row; sc_created_at := 2; sc_active := false |} =
      Err (M2KStateError (lit "invalid_scorer:p2")).
Proof. eexists. split; [vm_compute; reflexivity|]. split; vm_compute; reflexivity. Qed.
