(* ===== verification/M2kConsoleFacts.v ===== *)
(** * What the console shows: facts of [M2kConsole] *)
From Stdlib Require Import SpecFloat.
From S2P Require Import Prelude PyStr PyFloat PyDecimal PyJson JsonText Ids Axes Scorer Features Store Sql Annotations Learner LearnerFacts.
From S2P Require Import Queue Prepare Evidence Nominate Creation LearnerService LearnerServiceFacts M2kValues M2kReplay M2kControl M2kControlFacts M2kConsole.
Open Scope Z_scope.

Lemma filter_all {A} (P : A → Prop) `{∀ x, Decision (P x)} l : Forall P l → filter P l = l.
Proof. induction 1 as [|x l Hx _ IH]; [done|]. by rewrite filter_cons, decide_True, IH. Qed.

Lemma filter_iff {A} (P Q : A → Prop) `{∀ x, Decision (P x)} `{∀ x, Decision (Q x)} (l : list A) :
  (∀ x, x ∈ l → P x ↔ Q x) → filter P l = filter Q l.
Proof.
  induction l as [|x l IH]; intros Hx; [done|]. rewrite !filter_cons.
  assert (Hl : filter P l = filter Q l) by (apply IH; intros; apply Hx; by right).
  pose proof (Hx x ltac:(by left)). repeat case_decide; [by f_equal|tauto..|done].
Qed.

(** ** Agreement *)
Lemma agreement_snoc l e : agreement_totals (l ++ [e]) = agreement_step (agreement_totals l) e.
Proof. unfold agreement_totals. by rewrite foldl_app. Qed.

(** The console's referee is the learner's, over what the log recorded. *)
Lemma agreement_replay l :
  ∃ score, replay_score l (λ e, Ok (recorded_injected e)) = Ok score ∧
    ag_wrong (agreement_totals l) = disagreements score ∧ ag_weighted_wrong (agreement_totals l) = weighted_disagreements score ∧
    ag_right (agreement_totals l) + ag_wrong (agreement_totals l) = zlen l.
Proof.
  unfold replay_score. induction l as [|e l IH] using rev_ind; [by exists no_score|].
  destruct IH as (score & Hs & Hw & Hww & Hn). rewrite agreement_snoc.
  assert (Hfold : ∀ st, res_fold (replay_step (λ e, Ok (recorded_injected e))) st (l ++ [e]) =
    (st ← res_fold (replay_step (λ e, Ok (recorded_injected e))) st l; replay_step (λ e, Ok (recorded_injected e)) st e)).
  { clear. induction l as [|x l IH]; intros st; cbn; [by destruct (Bool.eqb _ _)|]. by rewrite IH. }
  rewrite Hfold, Hs. cbn [mbind res_bind]. unfold replay_step, agreement_step. cbn [mbind res_bind].
  eexists. split; [reflexivity|]. unfold zlen in *. rewrite length_app. cbn [length].
  destruct (Bool.eqb _ _); cbn; rewrite ?Hw, ?Hww; split_and!; try done; lia.
Qed.

(** ** The cursor *)
Lemma zmax_perm n ns m ms : Permutation (n :: ns) (m :: ms) → zmax n ns = zmax m ms.
Proof.
  intros Hp. destruct (zmax_spec n ns) as [Hn Hin], (zmax_spec m ms) as [Hm Him].
  rewrite Hp in Hin. rewrite <- Hp in Him. pose proof (Hn _ Him). pose proof (Hm _ Hin). lia.
Qed.

Lemma run_cursor_perm minimum runs runs' : Permutation runs runs' → run_cursor minimum runs = run_cursor minimum runs'.
Proof.
  intros Hp. unfold run_cursor. set (f := rr_eligible_dispositions ∘ lr_response).
  assert (H : Permutation (filter (λ n, minimum <= n) (f <$> runs)) (filter (λ n, minimum <= n) (f <$> runs'))) by by rewrite Hp.
  destruct (filter _ (f <$> runs)) as [|n ns], (filter _ (f <$> runs')) as [|m ms]; [done| | |f_equal; by apply zmax_perm].
  - by apply Permutation_nil in H.
  - symmetry in H. by apply Permutation_nil in H.
Qed.

Lemma background_due_cursor settings stride runs eligible :
  0 < stride →
  background_due settings stride runs eligible = true ↔
  signals_until_next (ls_min_dispositions settings) stride eligible (Store.rows runs) = 0.
Proof.
  intros Hs. unfold background_due, signals_until_next, run_cursor.
  destruct (eligible <? ls_min_dispositions settings) eqn:E; destruct (ls_min_dispositions settings <=? eligible) eqn:E'; try lia;
    cbn [negb]; [split; [done|lia]|].
  destruct (filter _ _); [done|]. lia.
Qed.

Lemma window_length stride k (l : list LearningExample) :
  0 < stride → (k < length l)%nat → zlen (window stride k l) = Z.min (Z.of_nat k + 1) stride.
Proof. intros Hs Hk. unfold window, zlen. rewrite length_drop, length_take. lia. Qed.

Section facts.
Context {UC : Unicode} {TK : Tokenizer} {PR : PyRepr} {SH : Sha256} {LS : LibmSquare} {DD : DecimalDigits} {CO : Collation}.
Context {AD : AxisDecoder}.

(** ** One evidence *)

(** What a run that checks whether it is due works on. *)
Lemma due_run settings owner stride maximum ot draws s response s' :
  retrain_if_due settings owner stride maximum ot draws s = Ok (response, s') →
  ∃ configs evidence, runtime_configs (ld_db s) = Ok configs ∧ log_evidence settings owner s configs = Ok evidence ∧
    (response = None ↔ background_due settings stride (ld_runs s) (zlen (ev_examples evidence)) = false) ∧
    ∀ r, response = Some r → rr_eligible_dispositions r = zlen (ev_examples evidence).
Proof.
  unfold retrain_if_due, retrain_transaction. cbn zeta. change (id ← None; ld_jobs s !! id) with (None (A := RetrainJob)).
  intros ([result s1] & H & [= -> <-])%bind_Ok. unfold retrain_in_snapshot in H. cbn zeta in H.
  apply bind_Ok in H as (active & _ & H). apply bind_Ok in H as (configs & Hconf & H). apply bind_Ok in H as (incumbent & _ & H).
  apply bind_Ok in H as (evidence & Hev & H). exists configs, evidence. split; [done|]. split; [done|].
  change (ld_runs (swept owner (rd_now draws) s)) with (ld_runs s) in H.
  destruct (background_due settings stride (ld_runs s) (zlen (ev_examples evidence))) eqn:Edue; cbn [andb negb] in H.
  - apply bind_Ok in H as (corpus & _ & H). apply bind_Ok in H as ([outcome inserted] & Hfit & H).
    apply fit_corpus_ok in Hfit as (Heligible & _). apply bind_Ok in H as (s2 & _ & [= <- <-]). split; [by split|]. by intros r [= <-].
  - injection H as <- <-. by split.
Qed.

(** The configurations are decoded alike by the learner and by the console. *)
Lemma runtimes_agree d configs ordered runtimes :
  keyed (scorer_configs d) → Permutation ordered (Store.rows (scorer_configs d)) →
  runtime_configs d = Ok configs →
  res_map (λ row, config ← runtime row; Ok (sc_version row, config)) ordered = Ok runtimes →
  list_to_map runtimes = configs.
Proof.
  intros Hkey Hp Hconf Hr. unfold runtime_configs in Hconf. apply bind_Ok in Hconf as (pairs & Hpairs & [= <-]).
  destruct (res_map_perm _ _ _ _ Hp Hr) as (pairs' & Hpairs' & Hperm).
  assert (pairs' = pairs) as ->.
  { apply res_map_Forall2 in Hpairs, Hpairs'. clear -Hpairs Hpairs'. revert pairs Hpairs. induction Hpairs' as [|row y l ys Hy _ IH]; intros pairs Hpairs; inv Hpairs; [done|].
    f_equal; [|by apply IH]. match goal with H : (config ← runtime_config row; _) = Ok _ |- _ => rename H into Hz end.
    apply bind_Ok in Hy as (c & Hc & [= <-]), Hz as (c' & Hc' & [= <-]). f_equal. unfold runtime, wrapped in Hc. unfold runtime_config in Hc'.
    destruct (config_of_row row) as [?|[]]; cbn in Hc, Hc'; unfold state_error in *; congruence. }
  apply list_to_map_proper; [|done]. assert (Hkeys : pairs.*1 = (map_to_list (scorer_configs d)).*1).
  { apply res_map_Forall2 in Hpairs'. unfold Store.rows in Hpairs'. clear -Hpairs' Hkey.
    assert (Hall : ∀ vr, vr ∈ map_to_list (scorer_configs d) → sc_version vr.2 = vr.1).
    { intros [v row] Hin%elem_of_map_to_list. by apply Hkey. }
    revert pairs Hpairs'. induction (map_to_list (scorer_configs d)) as [|[v row] l IH]; intros pairs H; inv H; [done|].
    cbn. f_equal; [|apply IH; [|done]; intros; apply Hall; by right].
    match goal with H : (config ← runtime row; _) = Ok _ |- _ => apply bind_Ok in H as (? & _ & [= <-]) end.
    exact (Hall (v, row) ltac:(by left)). }
  rewrite Hperm, Hkeys. apply NoDup_fst_map_to_list.
Qed.

Section console.
Context (passive_discount : float) (minimum stride : Z).
Abbreviation console := (scorer_console passive_discount minimum stride).

(** What a snapshot of the whole Palace was computed from. *)
Lemma palace_console_Ok q as_of s snap :
  console q true as_of s = Ok snap →
  ∃ active runtimes evidence,
    filter (λ row, sc_active row = true) (sort_by (leb_of by_created) (Store.rows (cl_configs s))) = [active] ∧
    res_map (λ row, config ← runtime row; Ok (sc_version row, config))
      (sort_by (leb_of by_created) (Store.rows (cl_configs s))) = Ok runtimes ∧
    project_learning_evidence (dec_of_repr passive_discount) (events_of None (cl_db s)) (ld_annotations (cl_learner s))
      (list_to_map runtimes) = Ok evidence ∧
    learning_view minimum stride evidence (events_of None (cl_db s)) (sc_version active)
      (sort_by (leb_of by_run) (Store.rows (ld_runs (cl_learner s))))
      (sort_by (leb_of by_activation) (Store.rows (cl_activations s))) = Ok (sn_learning snap).
Proof.
  intros H. unfold scorer_console in H. apply bind_Ok in H as ([] & _ & H). cbn zeta in H.
  destruct (filter (λ row, sc_active row = true) _) as [|active [|]] eqn:Ea; try done.
  apply bind_Ok in H as (views & _ & H). apply bind_Ok in H as (shown & _ & H). apply bind_Ok in H as (candidates & _ & H).
  apply bind_Ok in H as (runtimes & Hr & H). apply bind_Ok in H as (evidence & Hev & H). apply bind_Ok in H as (ar & _ & H).
  apply bind_Ok in H as (accuracy & _ & H). apply bind_Ok in H as (learning & Hl & [= <-]).
  exists active, runtimes, evidence. split_and!; try done.
  - assert (Hall : filter (λ ua : str * InjectionEventAnnotation, bool_decide (ia_target_principal_id ua.2 =
        default (ia_target_principal_id ua.2) None) = true) (ld_annotations (cl_learner s)) = ld_annotations (cl_learner s)).
    { apply map_filter_id. intros u a _. by apply bool_decide_eq_true. }
    rewrite Hall in Hev. destruct (project_learning_evidence _ _ _ _) as [ev|[]]; try done. by injection Hev as ->.
  - by destruct (learning_view _ _ _ _ _ _ _) as [v|]; [injection Hl as ->|].
Qed.
End console.

(** ** Properties *)

(** The event of an example, by its identifier. *)
Lemma logged_version (logged : list InjectionEvent) uid version :
  NoDup (i_event_uid <$> logged) →
  i_scorer_version <$> (list_to_map (reverse ((λ row, (i_event_uid row, row)) <$> logged)) : gmap str InjectionEvent) !! uid = Some version ↔
  ∃ row, row ∈ logged ∧ i_event_uid row = uid ∧ i_scorer_version row = version.
Proof.
  intros Hnd. set (l := reverse _).
  assert (Hl : NoDup l.*1).
  { unfold l. rewrite fmap_reverse, <- list_fmap_compose. by rewrite reverse_Permutation. }
  assert (Hin : ∀ row, (uid, row) ∈ l ↔ row ∈ logged ∧ i_event_uid row = uid).
  { intros row. unfold l. rewrite elem_of_reverse, list_elem_of_fmap. naive_solver. }
  split.
  - intros (row & Hrow & Hv)%fmap_Some. apply elem_of_list_to_map_2, Hin in Hrow as [? ?]. by exists row.
  - intros (row & Hrow & Hu & <-). rewrite (elem_of_list_to_map_1 l uid row Hl); [done|]. by apply Hin.
Qed.

(** The console's agreement is the learner's referee.  The totals of a
    snapshot count every example the active version served once, as right or as
    wrong, and the wrong ones, plain and weighted, are the disagreements a replay
    of the recorded decisions finds; each point of the live series counts the
    examples up to it, at most a stride of them. *)
Theorem console_agreement minimum stride evidence logged version runs activations view :
  0 < stride → NoDup (i_event_uid <$> logged) →
  learning_view minimum stride evidence logged version runs activations = Ok view →
  ∃ served score, served `sublist_of` ev_examples evidence ∧
    (∀ e, e ∈ served ↔ e ∈ ev_examples evidence ∧
       ∃ row, row ∈ logged ∧ i_event_uid row = le_event_uid e ∧ i_scorer_version row = version) ∧
    replay_score served (λ e, Ok (recorded_injected e)) = Ok score ∧
    ag_wrong (lv_totals view) = disagreements score ∧ ag_weighted_wrong (lv_totals view) = weighted_disagreements score ∧
    ag_right (lv_totals view) + ag_wrong (lv_totals view) = zlen served ∧
    length (lv_live_agreement view) = length served ∧
    ∀ k point, lv_live_agreement view !! k = Some point →
      (le_event_uid <$> served !! k) = Some (lp_event_uid point) ∧
      lp_right point + lp_wrong point = Z.min (Z.of_nat k + 1) stride.
Proof.
  intros Hs Hnd H. unfold learning_view in H. cbn zeta in H. set (served := filter _ (ev_examples evidence)) in H.
  apply bind_Ok in H as (percent & _ & H). apply bind_Ok in H as (points & Hp & [= <-]). cbn [lv_totals lv_live_agreement].
  destruct (agreement_replay served) as (score & Hscore & Hw & Hww & Hn). exists served, score.
  split_and!; try done; [apply sublist_filter| | |].
  { intros e. unfold served. rewrite list_elem_of_filter, logged_version by done. tauto. }
  { apply res_map_length in Hp. by rewrite Hp, length_imap. }
  intros k point Hk. apply res_map_Forall2 in Hp. destruct (Forall2_lookup_r _ _ _ _ _ Hp Hk) as ([i e] & Hie & Hpoint).
  rewrite list_lookup_imap in Hie. destruct (served !! k) as [e'|] eqn:Ek; [|done]. injection Hie as <- <-.
  unfold live_point in Hpoint. apply bind_Ok in Hpoint as (p & _ & [= <-]). cbn [lp_event_uid lp_right lp_wrong fst snd].
  split; [done|]. destruct (agreement_replay (window stride k served)) as (_ & _ & _ & _ & Hwin). rewrite Hwin.
  apply window_length; [done|]. by apply lookup_lt_Some in Ek.
Qed.

(** ** What a principal sees *)

(** Two states that a principal cannot tell apart: the configurations, and the
    principal's own events, annotations and creation rows, in the order the
    tables give them. *)
Definition same_own (p : str) (s s' : control_db) : Prop :=
  cl_configs s = cl_configs s' ∧
  filter (λ e, i_principal_id e = p) (rows (events (cl_db s))) = filter (λ e, i_principal_id e = p) (rows (events (cl_db s'))) ∧
  filter (λ ua, ia_target_principal_id ua.2 = p) (ld_annotations (cl_learner s)) =
    filter (λ ua, ia_target_principal_id ua.2 = p) (ld_annotations (cl_learner s')) ∧
  (∀ e, e ∈ rows (events (cl_db s)) → i_principal_id e = p →
     ld_annotations (cl_learner s) !! i_event_uid e = ld_annotations (cl_learner s') !! i_event_uid e) ∧
  filter (λ c, co_principal_id c = p) (rows (ld_creation (cl_learner s))) =
    filter (λ c, co_principal_id c = p) (rows (ld_creation (cl_learner s'))).

Lemma snapshot_own p d d' a a' t t' :
  filter (λ e, i_principal_id e = p) (rows (events d)) = filter (λ e, i_principal_id e = p) (rows (events d')) →
  (∀ e, e ∈ rows (events d) → i_principal_id e = p → a !! i_event_uid e = a' !! i_event_uid e) →
  filter (λ c, co_principal_id c = p) (rows t) = filter (λ c, co_principal_id c = p) (rows t') →
  creation_snapshot (Some p) d a t = creation_snapshot (Some p) d' a' t'.
Proof.
  intros Hev Ha Ht.
  assert (Hrows : snapshot_rows (Some p) t = snapshot_rows (Some p) t').
  { unfold snapshot_rows. f_equal. cbn [for_principal].
    rewrite !(filter_iff (λ c, bool_decide (co_principal_id c = p) = true) (λ c, co_principal_id c = p)) by
      (intros; apply bool_decide_eq_true). exact Ht. }
  assert (Hann : annotated_memories (Some p) d a = annotated_memories (Some p) d' a').
  { unfold annotated_memories. do 2 f_equal. cbn [for_principal].
    assert (Hsplit : ∀ (b : annotations) (l : list InjectionEvent), filter (λ e, is_Some (b !! i_event_uid e) ∧ bool_decide (i_principal_id e = p) = true) l =
      filter (λ e, is_Some (b !! i_event_uid e)) (filter (λ e, i_principal_id e = p) l)).
    { intros b l. rewrite list_filter_filter. apply filter_iff. intros e _. by rewrite bool_decide_eq_true. }
    rewrite !Hsplit, <- Hev. apply filter_iff. intros e [? ?]%list_elem_of_filter. by rewrite Ha. }
  unfold creation_snapshot, excluded_memories. by rewrite Hrows, Hann.
Qed.

Lemma events_of_own p d : events_of (Some p) d = sort_by (leb_of LearnerService.event_order) (filter (λ e, i_principal_id e = p) (rows (events d))).
Proof. unfold events_of. f_equal. apply filter_iff. intros. apply bool_decide_eq_true. Qed.

Lemma annotations_own (p : str) (a : annotations) :
  filter (λ ua : str * InjectionEventAnnotation,
    bool_decide (ia_target_principal_id ua.2 = default (ia_target_principal_id ua.2) (Some p)) = true) a =
  filter (λ ua, ia_target_principal_id ua.2 = p) a.
Proof. apply map_filter_ext. intros. apply bool_decide_eq_true. Qed.

Lemma shown_own p thread (l : list InjectionEvent) :
  filter (λ e, i_principal_id e = p ∧ i_thread_id e = default (i_thread_id e) thread) l =
  filter (λ e, i_thread_id e = default (i_thread_id e) thread) (filter (λ e, i_principal_id e = p) l).
Proof. rewrite list_filter_filter. apply filter_iff. intros. tauto. Qed.

(** A view of a configuration that tells nothing of others. *)
Definition discreet (projects : list (option str)) (v : ScorerConfigurationView) : Prop :=
  cv_status v = status_active ∧ cv_replay v = None ∧
  Forall (λ na, ∃ kv, na.2 = JObj kv ∧ aget (lit "provenance") kv = Some owner_only) (cv_axes v) ∧
  Forall (λ po, Some po.1 ∈ projects) (cv_project_offsets v).

Lemma redacted_discreet projects v v' : cv_status v = status_active → redacted projects v = Ok v' → discreet projects v'.
Proof.
  intros Hs H. unfold redacted in H. apply bind_Ok in H as (ax & Hax & [= <-]). unfold discreet.
  cbn [cv_status cv_replay cv_axes cv_project_offsets]. split_and!; try done.
  - apply res_map_Forall2 in Hax. induction Hax as [|na na' l l' Hna _ IH]; constructor; [|done].
    unfold redacted_axis in Hna. destruct (na.2) as [| | | | | |kv]; try done. injection Hna as <-. eexists. split; [done|]. apply aget_aset_eq.
  - apply Forall_forall. by intros po [? _]%list_elem_of_filter.
Qed.

(** C25: A principal's console tells nothing of others.  In two states a principal
    cannot tell apart by the configurations and its own rows, whatever the rest
    of the Palace holds, its console answers the same, errors included; and what
    it shows of the scorer is the active configuration alone, without its replay,
    with every axis's provenance withheld and the offsets of the principal's own
    projects, and no activation, run, proposal or accuracy. *)
Theorem console_private passive_discount minimum stride q as_of s s' :
  same_own (cq_principal_id q) s s' →
  scorer_console passive_discount minimum stride q false as_of s = scorer_console passive_discount minimum stride q false as_of s' ∧
  ∀ snap, scorer_console passive_discount minimum stride q false as_of s = Ok snap →
    Forall (discreet (i_project_key <$> filter (λ e, i_principal_id e = cq_principal_id q) (rows (events (cl_db s)))))
      (sn_configurations snap) ∧
    sn_activations snap = [] ∧ sn_proposed_versions snap = [] ∧ sn_accuracy snap = [] ∧
    lv_retrain_runs (sn_learning snap) = [] ∧ lv_annotations (sn_learning snap) = [].
Proof.
  intros (Hc & Hev & Han & Hat & Hcr). split.
  - unfold scorer_console. cbn zeta iota. change (scorer_configs (cl_db ?x)) with (cl_configs x).
    rewrite !events_of_own, !annotations_own, !shown_own, Hc, Hev, Han.
    by rewrite (snapshot_own _ (cl_db s) (cl_db s') _ (ld_annotations (cl_learner s')) _ (ld_creation (cl_learner s')) Hev Hat Hcr).
  - clear. intros snap H. unfold scorer_console in H. apply bind_Ok in H as ([] & _ & H). cbn zeta iota in H.
    destruct (filter (λ row, sc_active row = true) _) as [|active [|]]; try done.
    apply bind_Ok in H as (views & _ & H). apply bind_Ok in H as (shown & Hshown & H). apply bind_Ok in H as (candidates & _ & H).
    apply bind_Ok in H as (runtimes & _ & H). apply bind_Ok in H as (evidence & _ & H). apply bind_Ok in H as (ar & _ & H).
    apply bind_Ok in H as (accuracy & Hacc & H). apply bind_Ok in H as (learning & Hl & [= <-]). injection Hacc as <-.
    cbn [sn_configurations sn_activations sn_proposed_versions sn_accuracy sn_learning].
    assert (Hall : Forall (discreet (i_project_key <$> filter (λ e, i_principal_id e = cq_principal_id q) (rows (events (cl_db s))))) shown).
    { apply res_map_Forall2 in Hshown. apply Forall_forall. intros v' Hv'.
      apply list_elem_of_lookup in Hv' as [k Hk]. destruct (Forall2_lookup_r _ _ _ _ _ Hshown Hk) as (v & Hv & Hr).
      apply list_elem_of_lookup_2, list_elem_of_filter in Hv as [Hstatus _].
      apply (redacted_discreet _ _ _ Hstatus) in Hr as (? & ? & ? & Hp). split_and!; try done.
      eapply Forall_impl; [exact Hp|]. intros po. rewrite !list_elem_of_fmap, events_of_own.
      intros (e & He & Hin). exists e. split; [done|]. by rewrite sort_by_perm in Hin. }
    split_and!; try done.
    + destruct (filter _ shown) as [|v l] eqn:E; [done|]. assert (Hv : v ∈ v :: l) by by left. rewrite <- E in Hv.
      apply list_elem_of_filter in Hv as [Hs Hv]. destruct (proj1 (Forall_forall _ _) Hall v Hv) as [Hs' _]. congruence.
    + destruct (learning_view _ _ _ _ _ _ _) as [v|] eqn:E; [|done]. injection Hl as <-. unfold learning_view in E. cbn zeta in E.
      apply bind_Ok in E as (? & _ & E). by apply bind_Ok in E as (? & _ & [= <-]).
    + destruct (learning_view _ _ _ _ _ _ _) as [v|] eqn:E; [|done]. injection Hl as <-. unfold learning_view in E. cbn zeta in E.
      apply bind_Ok in E as (? & _ & E). by apply bind_Ok in E as (? & _ & [= <-]).
Qed.
End facts.
