(* ===== verification/M2kConsoleSamples.v ===== *)
(** * Sample consoles *)
From Stdlib Require Import SpecFloat.
From S2P Require Import Prelude PyStr PyFloat PyDecimal PyJson JsonText Ids Axes Scorer Features Store Sql Annotations Learner.
From S2P Require Import Queue Prepare PrepareSamples Evidence EvidenceFacts Nominate Creation LearnerService LearnerServiceFacts.
From S2P Require Import M2kValues M2kReplay M2kControl M2kControlFacts M2kControlSamples M2kConsole M2kConsoleFacts.
Open Scope Z_scope.
Definition console_sha : Sha256 := {| sha256_hex := λ s, replicate 64 48%N |}.
#[local] Existing Instances control_repr control_tokens console_sha control_square control_order control_axes ascii_unicode ascii_digits.

(** The event [e] as a principal's, under an identifier that names it. *)
Definition of_principal (p : string) (id : Z) (e : InjectionEvent) : Z * InjectionEvent := (id, {|
  i_id := id; i_event_uid := lit p ++ i_event_uid e; i_injection_id := i_injection_id e; i_thread_id := i_thread_id e;
  i_agent_id := i_agent_id e; i_machine_id := i_machine_id e; i_principal_id := lit p; i_project_key := i_project_key e;
  i_agent_kind := i_agent_kind e; i_prompt_text := i_prompt_text e; i_scorer_version := i_scorer_version e;
  i_memory_id := i_memory_id e; i_memory_kind := i_memory_kind e; i_features := i_features e; i_score := i_score e;
  i_rank := i_rank e; i_shown_as := i_shown_as e; i_actor_class := i_actor_class e; i_outcome := i_outcome e; i_ts := i_ts e |}).

Definition log_of (p : string) : list (Z * InjectionEvent) :=
  [of_principal p 1 (logged_row "a" 1 5 "m" shown_injected (Some kept) "tea");
   of_principal p 2 (logged_row "c" 2 6 "m" shown_injected (Some cited) "green");
   of_principal p 3 (logged_row "d" 3 7 "m" shown_injected (Some (removed not_relevant)) "tea")].

Definition logged_state (log : list (Z * InjectionEvent)) : control_db := {|
  cl_learner := LearnerService.with_db (set_events (list_to_map log) 9 (cl_db control_start)) (cl_learner control_start);
  cl_activations := ∅; cl_adoptions := ∅ |}.

Definition owner_state := logged_state (log_of "p").
Definition palace (p : string) := {| cq_principal_id := lit p; cq_thread_id := None; cq_as_of_now := true |}.

Definition console_of (minimum : Z) := scorer_console (f_ratio 1 2) minimum 25 (palace "p").
Definition learning_of (r : res m2k_error ScorerConsoleSnapshot) : option LearningView :=
  match r with Ok snap => Some (sn_learning snap) | Err _ => None end.
Definition due_check (s : control_db) := retrain_if_due (run_settings 3) (lit "p") 25 100 tap (first_draws "r1") (cl_learner s).

Lemma logged_keyed log : keyed (cl_configs (logged_state log)).
Proof. exact (proj1 control_serving). Defined.


(** The owner's countdown counts what the learner does not.  The console of
    the whole Palace counts the dispositions of every principal, the learner
    those of the owner alone: with the signals of another principal in the log
    the console says that the floor is met and no signal is missing until the
    next run, and the due check does not run. *)
Theorem countdown_counts_everyone :
  let s := logged_state (log_of "q") in
  ((λ v, (lv_floor_met v, lv_signals_until_next_run v)) <$> learning_of (console_of 3 true 50 s)) = Some (true, 0) ∧
  ∃ l, due_check s = Ok (None, l).
Proof.
  cbn zeta. split; [vm_compute; reflexivity|].
  assert (H : match due_check (logged_state (log_of "q")) with Ok (None, _) => true | _ => false end = true) by (vm_compute; reflexivity).
  destruct (due_check _) as [[[r|] l]|]; [discriminate H|exists l; reflexivity|discriminate H].
Qed.

Definition owner_evidence : LearningEvidence :=
  match project_learning_evidence (Dec 5 (-1)) (snd <$> log_of "p") ∅ sample_configs with
  | Ok ev => ev
  | Err _ => {| ev_examples := []; ev_share_boundaries := []; ev_hygiene_excluded_dispositions := 0 |}
  end.
Abbreviation owner_view := (learning_view 3 2 owner_evidence (snd <$> log_of "p") (lit "v1") [] []).
Definition totals_of (r : res pyexn LearningView) : option (Z * Z) :=
  match r with Ok v => Some (ag_right (lv_totals v), ag_wrong (lv_totals v)) | Err _ => None end.

Lemma console_agreement_witness :
  totals_of owner_view = Some (2, 1) ∧
  ∃ served score, replay_score served (λ e, Ok (recorded_injected e)) = Ok score ∧ zlen served = 3 ∧ disagreements score = 1.
Proof.
  assert (Ht : totals_of owner_view = Some (2, 1)) by (vm_compute; reflexivity).
  assert (Hok : ok_of owner_view = true) by (vm_compute; reflexivity).
  assert (Hnd : bool_decide (NoDup (i_event_uid <$> (snd <$> log_of "p"))) = true) by (vm_compute; reflexivity).
  split; [exact Ht|]. destruct (ok_result _ Hok) as [view E]. rewrite E in Ht.  injection Ht as Hr Hwrong.
  destruct (console_agreement 3 2 owner_evidence (snd <$> log_of "p") (lit "v1") [] [] view ltac:(lia) (bool_decide_eq_true_1 _ Hnd) E)
    as (served & score & _ & _ & Hs & Hw & _ & Hn & _).
  exists served, score. split; [exact Hs|]. rewrite <- Hw, <- Hn, Hr, Hwrong. split; reflexivity.
Defined.

(** The owner's log alone, and between the events of another principal. *)
Definition shared_state : control_db := logged_state (log_of "p" ++ ((λ ke, (ke.1 + 4, ke.2)) <$> log_of "q")).

Lemma console_private_witness :
  rows (events (cl_db owner_state)) ≠ rows (events (cl_db shared_state)) ∧
  console_of 3 false 50 owner_state = console_of 3 false 50 shared_state ∧
  match console_of 3 false 50 owner_state with Ok snap => length (sn_configurations snap) = 1%nat | Err _ => False end.
Proof.
  split; [|split; [|vm_compute; reflexivity]].
  - intros H. apply (f_equal length) in H. vm_compute in H. discriminate H.
  - assert (Hev : filter (λ e, i_principal_id e = lit "p") (rows (events (cl_db owner_state))) =
                  filter (λ e, i_principal_id e = lit "p") (rows (events (cl_db shared_state)))) by (vm_compute; reflexivity).
    refine (proj1 (console_private (f_ratio 1 2) 3 25 (palace "p") 50 owner_state shared_state _)).
    split; [vm_compute; reflexivity|]. split; [exact Hev|]. split; [vm_compute; reflexivity|].
    split; [intros e _ _; vm_compute; reflexivity|vm_compute; reflexivity].
Defined.

(** ** Contributions *)
Definition digits (s : string) : float := default f0 (decimal_text (lit s)).

(** The exact sum of decimals, in units of [10 ^ -40]. *)
Definition exact_sum (l : list dec) : Z := zsum ((λ d, coef d * 10 ^ (dexp d + 40)) <$> l).

(** Contributions need not add up to the score.  With features and weights
    a fit produces, a product has more than the 28 digits decimal arithmetic
    keeps: the contributions are rounded, so is the bias computed from their sum,
    and the seven do not sum to the stored score. *)
Theorem contributions_rounded :
  let features := digits <$> ["0.23796462709189137"; "0.5442292252959519"; "0.36995516654807925"; "0.6039200385961945";
                              "0.625720304108054"; "0.06552885923981311"]%string in
  let w := {| w_sem := digits "0.004685733807478486"; w_kw := digits "0.2980072681809118"; w_time := digits "0.09228923545232491";
              w_proj := digits "0.08338496434629013"; w_freq := digits "0.35429295702015084"; w_hist := digits "0.1673398411928439" |} in
  let stored := dec_of_repr (digits "0.4804539196602517") in
  ∃ named bias, feature_contributions features w f1 = Ok named ∧
    bias_of_score stored {| ct_features := named; ct_loc := None; ct_thread := None; ct_where := None; ct_axes := [] |} = Ok bias ∧
    exact_sum (named.*2 ++ [bias]) ≠ exact_sum [stored].
Proof. cbn zeta. eexists _, _. split; [vm_compute; reflexivity|]. split; [vm_compute; reflexivity|]. vm_compute. discriminate. Qed.
