(* ===== verification/M2kGraph.v ===== *)
(** * The memory graph: [memory_graph] of [src/src/spine/m2k/service.py]

    The memories of a principal as nodes, joined by similarity, by lineage and by
    their own trail of edits. *)
From Stdlib Require Import SpecFloat.
From S2P Require Import Prelude PyStr PyFloat PyDecimal Ids PyJson Store MemoryDb Prepare PrepareSamples Sql M2kValues.
Open Scope Z_scope.

(** pgvector's cosine distance of two vectors. *)
Class VectorDistance := { cosine_distance : list float → list float → float }.

(** [a >= b] of PostgreSQL, for which NaN is the greatest number. *)
Definition pg_ge (a b : float) : bool := is_nan a || fle b a && negb (is_nan b).

Record MemoryGraphQuery := { gq_principal_id : str; gq_memory_ids : option (list uuid) }.

Inductive MemoryGraphEdge :=
  | edge_similarity (from_ to_ : uuid) (similarity : str)
  | edge_lineage (from_ to_ : uuid) (edge_type : EdgeType)
  | edge_edit_trail (memory_id : uuid) (revision_count : Z).

Record MemoryGraphNode := { gn_memory : MemoryUnit; gn_in_current_context : bool; gn_revisions : list MemoryRevision }.

Record MemoryGraphSnapshot := {
  gs_as_of : Z;
  gs_nodes : list MemoryGraphNode;
  gs_edges : list MemoryGraphEdge;
  gs_omitted_memory_ids : list uuid;
}.

Section graph.
Context `{Collation} `{VectorDistance}.
Context (graph_edge_sim : float).

(** The heads of the query, oldest first. *)
Definition graph_memories (query : MemoryGraphQuery) (d : db) : list MemoryUnit :=
  sort_by (leb_of (λ a b, then_by (Z.compare (m_created_at a) (m_created_at b)) (N.compare (m_id a) (m_id b))))
    (filter (λ m, m_principal_id m = gq_principal_id query ∧ m_status m ≠ Scandidate ∧ m_status m ≠ Sstaged
                  ∧ m_id m ∈ default [m_id m] (gq_memory_ids query)) (rows (units d))).

(** [_revision_map]: the trail of a memory. *)
Definition revision_trail (d : db) (id : uuid) : list MemoryRevision :=
  sort_by (leb_of (λ a b, then_by (Z.compare (r_ts a) (r_ts b)) (text_compare (r_rev_uid a) (r_rev_uid b))))
    (filter (λ r, r_memory_id r = id) (rows (revisions d))).

Definition similarity (a b : MemoryUnit) : float := fsub f1 (cosine_distance (m_embedding a) (m_embedding b)).

(** Every pair of nodes once, the smaller identifier first. *)
Definition similar_pairs (nodes : list MemoryUnit) : list (MemoryUnit * MemoryUnit) :=
  let by_id := sort_by (λ a b, (m_id a <=? m_id b)%N) nodes in
  filter (λ ab, (m_id ab.1 <? m_id ab.2)%N && pg_ge (similarity ab.1 ab.2) graph_edge_sim = true)
    (a ← by_id; b ← by_id; [(a, b)]).

Definition lineage (nodes : list uuid) (d : db) : list MemoryEdge :=
  sort_by (leb_of (λ a b, then_by (Z.compare (e_created_at a) (e_created_at b)) (text_compare (e_edge_uid a) (e_edge_uid b))))
    (filter (λ e, e_from_memory_id e ∈ nodes ∧ e_to_memory_id e ∈ nodes) (rows (edges d))).

Definition edit_trails (nodes : list uuid) (d : db) : list MemoryGraphEdge :=
  (λ id, edge_edit_trail id (zlen (revision_trail d id)))
    <$> filter (λ id, 1 < zlen (revision_trail d id)) (sort_by (λ a b, (a <=? b)%N) nodes).

(** [_graph_edges]. *)
Definition graph_edges (nodes : list MemoryUnit) (d : db) : res m2k_error (list MemoryGraphEdge) :=
  match nodes with
  | [] => Ok []
  | _ =>
      similar ← res_map (λ ab : MemoryUnit * MemoryUnit,
        text ← float_string (similarity ab.1 ab.2); Ok (edge_similarity (m_id ab.1) (m_id ab.2) text)) (similar_pairs nodes);
      Ok (similar
          ++ ((λ e, edge_lineage (e_from_memory_id e) (e_to_memory_id e) (e_edge_type e)) <$> lineage (m_id <$> nodes) d)
          ++ edit_trails (m_id <$> nodes) d)
  end.

(** [memory_graph]. *)
Definition memory_graph (query : MemoryGraphQuery) (as_of : Z) (d : db) : res m2k_error MemoryGraphSnapshot :=
  let memories := graph_memories query d in
  found ← graph_edges memories d;
  Ok {| gs_as_of := as_of;
        gs_nodes := (λ m, {| gn_memory := m; gn_in_current_context := bool_decide (is_Some (gq_memory_ids query));
                             gn_revisions := revision_trail d (m_id m) |}) <$> memories;
        gs_edges := found;
        gs_omitted_memory_ids := filter (λ id, id ∉ (m_id <$> memories)) (default [] (gq_memory_ids query)) |}.
End graph.

(** ** The graph shows what it should *)
Section facts.
Context {CO : Collation} {VD : VectorDistance}.
Context (graph_edge_sim : float).

Lemma graph_memories_elem q d m :
  wf d →
  m ∈ graph_memories q d ↔
  units d !! m_id m = Some m ∧ m_principal_id m = gq_principal_id q ∧ m_status m ≠ Scandidate ∧ m_status m ≠ Sstaged ∧
  ∀ ids, gq_memory_ids q = Some ids → m_id m ∈ ids.
Proof.
  intros Hwf. unfold graph_memories. rewrite sort_by_perm, list_elem_of_filter, elem_rows. split.
  - intros ((? & ? & ? & Hin) & k & Hk). pose proof (wf_key d Hwf _ _ Hk) as Hid. rewrite Hid. split_and!; try done.
    intros ids E. rewrite E in Hin. cbn in Hin. congruence.
  - intros (Hk & ? & ? & ? & Hin). split; [|by eexists]. split_and!; try done.
    destruct (gq_memory_ids q); cbn; [by apply Hin|by left].
Qed.

Lemma graph_ids q d : wf d → NoDup (m_id <$> graph_memories q d).
Proof.
  intros Hwf. apply NoDup_fmap_2_strong.
  - intros a b Ha%graph_memories_elem Hb%graph_memories_elem E; [|done..]. destruct Ha as [Ha _], Hb as [Hb _]. congruence.
  - unfold graph_memories. rewrite sort_by_perm. apply NoDup_filter, (NoDup_fmap_1 m_id). unfold rows. rewrite <- list_fmap_compose.
    apply NoDup_fmap_2_strong; [|apply NoDup_map_to_list].
    intros [i a] [j b] Ha%elem_of_map_to_list Hb%elem_of_map_to_list E. cbn in E.
    pose proof (wf_key d Hwf _ _ Ha). pose proof (wf_key d Hwf _ _ Hb). congruence.
Qed.

Lemma similar_pairs_elem nodes a b :
  (a, b) ∈ similar_pairs graph_edge_sim nodes ↔
  a ∈ nodes ∧ b ∈ nodes ∧ (m_id a < m_id b)%N ∧ pg_ge (similarity a b) graph_edge_sim = true.
Proof.
  unfold similar_pairs. cbn zeta. rewrite list_elem_of_filter. cbn [fst snd]. rewrite andb_true_iff, N.ltb_lt. split.
  - intros ([? ?] & (x & (y & Hy & Hb)%list_elem_of_bind & Ha)%list_elem_of_bind). apply list_elem_of_singleton in Hy as [= -> ->].
    by rewrite sort_by_perm in Ha, Hb.
  - intros (? & ? & ? & ?). split; [done|]. apply list_elem_of_bind. exists a.
    split; [|by rewrite sort_by_perm]. apply list_elem_of_bind. exists b. split; [by left|by rewrite sort_by_perm].
Qed.

Lemma similar_pairs_once nodes : NoDup nodes → NoDup (similar_pairs graph_edge_sim nodes).
Proof.
  intros Hn. apply NoDup_filter. rewrite <- (sort_by_perm (λ a b, (m_id a <=? m_id b)%N)) in Hn. apply NoDup_bind; [| |done].
  - intros a a' y _ _ (b & Hb%list_elem_of_singleton & _)%list_elem_of_bind (b' & Hb'%list_elem_of_singleton & _)%list_elem_of_bind. congruence.
  - intros a _. apply NoDup_bind; [|intros; apply NoDup_singleton|done].
    intros b b' y _ _ ->%list_elem_of_singleton H%list_elem_of_singleton. congruence.
Qed.

(** An edge joins nodes of the graph, for a reason the tables give. *)
Definition edge_ok (nodes : list MemoryUnit) (d : db) (e : MemoryGraphEdge) : Prop :=
  match e with
  | edge_similarity a b _ => ∃ x y, x ∈ nodes ∧ y ∈ nodes ∧ m_id x = a ∧ m_id y = b ∧ (a < b)%N ∧
      pg_ge (similarity x y) graph_edge_sim = true
  | edge_lineage a b kind => a ∈ m_id <$> nodes ∧ b ∈ m_id <$> nodes ∧
      ∃ k row, edges d !! k = Some row ∧ e_from_memory_id row = a ∧ e_to_memory_id row = b ∧ e_edge_type row = kind
  | edge_edit_trail a n => a ∈ m_id <$> nodes ∧ n = zlen (revision_trail d a) ∧ 1 < n
  end.

Definition similarity_pair (e : MemoryGraphEdge) : option (uuid * uuid) :=
  match e with edge_similarity a b _ => Some (a, b) | _ => None end.

Lemma pair_texts l es :
  res_map (λ ab : MemoryUnit * MemoryUnit, text ← float_string (similarity ab.1 ab.2); Ok (edge_similarity (m_id ab.1) (m_id ab.2) text)) l = Ok es →
  (∀ e, e ∈ es → ∃ a b t, (a, b) ∈ l ∧ e = edge_similarity (m_id a) (m_id b) t) ∧
  omap similarity_pair es = (λ ab : MemoryUnit * MemoryUnit, (m_id ab.1, m_id ab.2)) <$> l.
Proof.
  intros H%res_map_Forall2. induction H as [|[a b] e l es He _ [IH1 IH2]]; [split; [by intros ? ?%elem_of_nil|done]|].
  apply bind_Ok in He as (t & _ & [= <-]). split.
  - intros e [->|Hin]%elem_of_cons; [exists a, b, t; split; [by left|done]|].
    destruct (IH1 e Hin) as (a' & b' & t' & ? & ?). exists a', b', t'. split; [by right|done].
  - cbn. by f_equal.
Qed.

Lemma omap_nothing {A B} (f : A → option B) l : Forall (λ x, f x = None) l → omap f l = [].
Proof. induction 1 as [|x l Hx _ IH]; [done|]. cbn. by rewrite Hx. Qed.

Lemma graph_edges_Ok nodes d es :
  graph_edges graph_edge_sim nodes d = Ok es →
  nodes = [] ∧ es = [] ∨
  ∃ similar, res_map (λ ab : MemoryUnit * MemoryUnit, text ← float_string (similarity ab.1 ab.2);
               Ok (edge_similarity (m_id ab.1) (m_id ab.2) text)) (similar_pairs graph_edge_sim nodes) = Ok similar ∧
    es = similar ++ ((λ e, edge_lineage (e_from_memory_id e) (e_to_memory_id e) (e_edge_type e)) <$> lineage (m_id <$> nodes) d)
           ++ edit_trails (m_id <$> nodes) d.
Proof.
  unfold graph_edges. destruct nodes as [|n nodes]; [intros [= <-]; by left|].
  intros (similar & Hs & [= <-])%bind_Ok. right. by exists similar.
Qed.

Lemma graph_edges_spec nodes d es :
  NoDup (m_id <$> nodes) → graph_edges graph_edge_sim nodes d = Ok es →
  Forall (edge_ok nodes d) es ∧ NoDup (omap similarity_pair es) ∧
  (∀ a b, a ∈ nodes → b ∈ nodes → (m_id a < m_id b)%N → pg_ge (similarity a b) graph_edge_sim = true →
     (m_id a, m_id b) ∈ omap similarity_pair es) ∧
  (∀ k row, edges d !! k = Some row → e_from_memory_id row ∈ m_id <$> nodes → e_to_memory_id row ∈ m_id <$> nodes →
     edge_lineage (e_from_memory_id row) (e_to_memory_id row) (e_edge_type row) ∈ es).
Proof.
  intros Hnd H. apply graph_edges_Ok in H as [[-> ->]|(similar & Hs & ->)].
  { split_and!; [constructor|constructor|by intros a b ?%elem_of_nil|by intros k row _ ?%elem_of_nil]. }
  destruct (pair_texts _ _ Hs) as [Hin Hpairs].
  assert (Hrest : omap similarity_pair (((λ e, edge_lineage (e_from_memory_id e) (e_to_memory_id e) (e_edge_type e)) <$> lineage (m_id <$> nodes) d)
          ++ edit_trails (m_id <$> nodes) d) = []).
  { apply omap_nothing, Forall_app. split; by apply Forall_fmap, Forall_forall. }
  rewrite omap_app, Hrest, app_nil_r, Hpairs. split_and!.
  - apply Forall_app. split; [|apply Forall_app; split].
    + apply Forall_forall. intros e (a & b & t & (? & ? & ? & ?)%similar_pairs_elem & ->)%Hin. cbn. by exists a, b.
    + apply Forall_fmap, Forall_forall. intros row Hrow. unfold lineage in Hrow. rewrite sort_by_perm in Hrow.
      apply list_elem_of_filter in Hrow as [[? ?] (k & Hk)%elem_rows]. cbn. split_and!; [done|done|]. by exists k, row.
    + unfold edit_trails. apply Forall_fmap, Forall_forall. intros id [? Hid]%list_elem_of_filter. rewrite sort_by_perm in Hid. by cbn.
  - apply NoDup_fmap_2_strong; [|by apply similar_pairs_once, (NoDup_fmap_1 m_id)].
    intros [a b] [a' b'] (? & ? & _)%similar_pairs_elem (? & ? & _)%similar_pairs_elem [= Ha Hb].
    f_equal; by eapply (NoDup_fmap_elem m_id nodes).
  - intros a b Ha Hb Hlt Hge. apply list_elem_of_fmap. exists (a, b). split; [done|]. by apply similar_pairs_elem.
  - intros k row Hk Hf Ht. rewrite !elem_of_app. right. left. apply list_elem_of_fmap. exists row. split; [done|].
    unfold lineage. rewrite sort_by_perm, list_elem_of_filter, elem_rows. split; [done|by exists k].
Qed.

(** C39: The graph is closed and discreet.  Its nodes are exactly the principal's
    memories that are neither candidates nor staged, of those asked for when a
    list was given, each once and with all of its revisions; every edge joins
    nodes for a reason the tables give, every two nodes as similar as the
    threshold are joined once, and every lineage row between nodes is shown;
    what is called omitted was asked for and is not a node. *)
Theorem graph_closed q as_of d g :
  wf d → memory_graph graph_edge_sim q as_of d = Ok g →
  let nodes := gn_memory <$> gs_nodes g in
  (∀ m, m ∈ nodes ↔ units d !! m_id m = Some m ∧ m_principal_id m = gq_principal_id q ∧
     m_status m ≠ Scandidate ∧ m_status m ≠ Sstaged ∧ ∀ ids, gq_memory_ids q = Some ids → m_id m ∈ ids) ∧
  NoDup (m_id <$> nodes) ∧
  (∀ n k r, n ∈ gs_nodes g → (revisions d !! k = Some r ∧ r_memory_id r = m_id (gn_memory n)) → r ∈ gn_revisions n) ∧
  Forall (edge_ok nodes d) (gs_edges g) ∧ NoDup (omap similarity_pair (gs_edges g)) ∧
  (∀ a b, a ∈ nodes → b ∈ nodes → (m_id a < m_id b)%N → pg_ge (similarity a b) graph_edge_sim = true →
     (m_id a, m_id b) ∈ omap similarity_pair (gs_edges g)) ∧
  (∀ k row, edges d !! k = Some row → e_from_memory_id row ∈ m_id <$> nodes → e_to_memory_id row ∈ m_id <$> nodes →
     edge_lineage (e_from_memory_id row) (e_to_memory_id row) (e_edge_type row) ∈ gs_edges g) ∧
  ∀ id, id ∈ gs_omitted_memory_ids g ↔ id ∉ m_id <$> nodes ∧ ∃ ids, gq_memory_ids q = Some ids ∧ id ∈ ids.
Proof.
  intros Hwf H. unfold memory_graph in H. cbn zeta in H. apply bind_Ok in H as (es & He & [= <-]). cbn zeta.
  cbn [gs_nodes gs_edges gs_omitted_memory_ids].
  assert (Hnodes : gn_memory <$> ((λ m, {| gn_memory := m; gn_in_current_context := bool_decide (is_Some (gq_memory_ids q));
    gn_revisions := revision_trail d (m_id m) |}) <$> graph_memories q d) = graph_memories q d).
  { rewrite <- list_fmap_compose. by rewrite list_fmap_id. }
  rewrite Hnodes. pose proof (graph_ids q d Hwf) as Hnd. destruct (graph_edges_spec _ _ _ Hnd He) as (? & ? & ? & ?).
  split_and!; try done.
  - intros m. by apply graph_memories_elem.
  - intros n k r (m & -> & _)%list_elem_of_fmap [Hr Hm]. cbn in *. unfold revision_trail.
    rewrite sort_by_perm, list_elem_of_filter, elem_rows. split; [done|by exists k].
  - intros id. rewrite list_elem_of_filter. destruct (gq_memory_ids q) as [ids|]; cbn; [naive_solver|].
    split; [by intros [_ ?%elem_of_nil]|by intros (_ & ? & ? & _)].
Qed.
End facts.

(** ** A library of two memories and a candidate *)
#[local] Instance near : VectorDistance := {| cosine_distance := λ _ _, f0 |}.
#[local] Instance graph_order : Collation := {| text_compare := str_compare |}.

Definition another (id : uuid) (label : string) (status : MemoryStatus) : MemoryUnit := {|
  m_id := id; m_principal_id := lit "p"; m_label := lit label; m_body := lit "green tea";
  m_kind := Kfact; m_keywords := []; m_embedding := flat 2; m_embedding_model := lit "m";
  m_project_key := None; m_thread_origin := None; m_origin_thread_id := None;
  m_origin_path := None; m_origin_location := None; m_origin_locations := []; m_run_id := None;
  m_origin_agent := None; m_pin := false; m_status := status; m_revision := 1; m_stats := [];
  m_bias := f0; m_created_at := 0; m_updated_at := 0 |}.
Definition with_memory (n : Z) (u : MemoryUnit) (d : db) : db := put_head u (root_revision u (sample_uid n)) d.
Definition graph_db : db :=
  with_memory 3 (another 9 "coffee" Scandidate) (with_memory 2 (another 8 "mint" Sactive) (with_memory 1 (sample_vector 2) empty_db)).

Lemma graph_db_wf : wf graph_db.
Proof. repeat (apply wf_put_head; [|vm_compute; by repeat split]). apply wf_empty. Defined.

Definition graph_query : MemoryGraphQuery := {| gq_principal_id := lit "p"; gq_memory_ids := Some [7; 8; 9]%N |}.
Abbreviation sample_graph := (memory_graph (f_ratio 9 10) graph_query 50 graph_db).

Lemma graph_closed_witness :
  match sample_graph with
  | Ok g => (m_id ∘ gn_memory <$> gs_nodes g) = [7; 8]%N ∧ omap similarity_pair (gs_edges g) = [(7, 8)]%N ∧
            gs_omitted_memory_ids g = [9%N]
  | Err _ => False
  end ∧
  ∀ g, sample_graph = Ok g → ∀ m, m ∈ gn_memory <$> gs_nodes g → m_status m ≠ Scandidate.
Proof.
  split; [vm_compute; by repeat split|]. intros g E m Hm.
  exact (proj1 (proj2 (proj2 (proj1 (proj1 (graph_closed (f_ratio 9 10) graph_query 50 graph_db g graph_db_wf E) m) Hm)))).
Defined.
