(* ===== verification/Diagnostics.v ===== *)
(** * The health report: [src/src/spine/curation/diagnostics.py]

    What the curator finds wrong with a Palace without a language model: pairs
    that look alike, contradictions, stale and unused memories, keywords out of
    shape; and the clusters of what is linked. *)
From Stdlib Require Import SpecFloat.
From S2P Require Import Prelude PyStr PyFloat PyDecimal PyJson JsonText PyTime Ids Axes Scorer Features Embeddings Store MemoryDb Queue Prepare Learner Nominate.
Open Scope Z_scope.

(** ** Text *)

(** [|x| * 10 ^ k] rounded to an integer, half to even. *)
Definition fixed_digits (k : Z) (m : positive) (e : Z) : Z :=
  let n := Zpos m * 10 ^ k in
  if 0 <=? e then n * 2 ^ e
  else
    let d := 2 ^ (- e) in
    let q := n / d in
    let r := n mod d in
    if (d <? 2 * r) || (2 * r =? d) && Z.odd q then q + 1 else q.

(** [format(x, f".{k}f")]. *)
Definition fixed_text (k : Z) (x : float) : str :=
  let sign (s : bool) := if s then lit "-" else [] in
  let text s n :=
    let ds := str_of_Z n in
    let ds := zeros (k + 1 - zlen ds) ++ ds in
    let whole := (length ds - Z.to_nat k)%nat in
    sign s ++ take whole ds ++ lit "." ++ drop whole ds in
  match x with
  | S754_zero s => text s 0
  | S754_finite s m e => text s (fixed_digits k m e)
  | S754_infinity s => sign s ++ lit "inf"
  | S754_nan => lit "nan"
  end.

Example fixed_text_samples :
  [fixed_text 3 (f_ratio 200 3); fixed_text 3 (f_of_Z 100); fixed_text 2 (f_ratio (-1) 8); fixed_text 2 (f_ratio 3 8);
   fixed_text 9 (f_ratio 1 3)] = lit <$> ["66.667"; "100.000"; "-0.12"; "0.38"; "0.333333333"]%string.
Proof. vm_compute. reflexivity. Qed.

(** [key=str]: a UUID sorts by its text. *)
Definition uuid_leb (a b : uuid) : bool := str_leb (uuid_str a) (uuid_str b).

(** Tuples of texts. *)
Fixpoint strs_leb (a b : list str) : bool :=
  match a, b with
  | [], _ => true
  | _ :: _, [] => false
  | x :: a, y :: b => match str_compare x y with Lt => true | Gt => false | Eq => strs_leb a b end
  end.
Definition ids_leb (a b : list uuid) : bool := strs_leb (uuid_str <$> a) (uuid_str <$> b).

(** ** Facts of one memory *)
Section facts.
Context `{Unicode} `{LibmSquare}.

(** [_cosine]. *)
Definition diag_cosine (left right : list float) : res pyexn float :=
  products ← zip_strict fmul left right;
  numerator ← fsum products;
  l2 ← (squares ← res_map square left; fsum squares);
  r2 ← (squares ← res_map square right; fsum squares);
  let left_norm := fsqrt l2 in
  let right_norm := fsqrt r2 in
  if feq left_norm f0 || feq right_norm f0 then Ok f0
  else c ← pydiv numerator (fmul left_norm right_norm); Ok (fmax (fneg f1) (fmin f1 c)).

(** [_keywords_are_healthy]. *)
Definition keywords_are_healthy (keywords : list str) : bool :=
  (2 <=? zlen keywords) && (zlen keywords <=? 5) && nodupb keywords
  && forallb (λ value, negb (bool_decide (value = [])) && bool_decide (value = strip value)
                       && bool_decide (value = py_lower value)) keywords.
End facts.

(** [_count]. *)
Definition count_of (value : option json) : Z :=
  match value with Some (JInt z) => if 0 <=? z then z else 0 | _ => 0 end.

(** [_digest]. *)
Definition digest `{Sha256} (value : json) : str := sha256_hex (json_dumps_ascii value).

(** [_stats_delta]. *)
Record stats_delta := { sd_revisions : Z; sd_reinforcements : Z; sd_merges : Z; sd_retirements : Z }.

Definition is_merge (reason : str) : bool := bool_decide (reason = lit "merge") || endswith (lit "/merge") reason.
Definition is_retirement (reason : str) : bool :=
  endswith (lit "/retire") reason || bool_decide (reason = lit "quarantined") || bool_decide (reason = lit "tombstoned").

Definition stats_delta_of (reasons : list str) : stats_delta :=
  let count (p : str → bool) := zlen (filter (λ r, p r = true) reasons) in
  {| sd_revisions := zlen reasons; sd_reinforcements := count (λ r, bool_decide (r = lit "remember/reinforce"));
     sd_merges := count is_merge; sd_retirements := count is_retirement |}.

(** ** Clusters *)
Section clusters.
Context (links : list (uuid * uuid)).

Definition neighbors (node : uuid) : gset uuid :=
  list_to_set (snd <$> filter (λ l : uuid * uuid, l.1 = node) links)
  ∪ list_to_set (fst <$> filter (λ l : uuid * uuid, l.2 = node) links).

(** The inner loop: the top of the stack is its head. *)
Fixpoint walk (fuel : nat) (stack : list uuid) (component : gset uuid) : option (gset uuid) :=
  match stack, fuel with
  | [], _ => Some component
  | _ :: _, O => None
  | current :: stack, S fuel =>
      if bool_decide (current ∈ component) then walk fuel stack component
      else
        let component := {[current]} ∪ component in
        walk fuel (sort_by uuid_leb (elements (neighbors current ∖ component)) ++ stack) component
  end.

(** A node is pushed once for each neighbour at most. *)
Definition walk_fuel (nodes : list uuid) : nat := S (sum_list ((λ n, size (neighbors n)) <$> nodes)).

(** The outer loop. *)
Fixpoint gather (nodes : list uuid) (fuel : nat) (remaining : gset uuid) : option (list (list uuid)) :=
  match sort_by uuid_leb (elements remaining), fuel with
  | [], _ => Some []
  | _ :: _, O => None
  | start :: _, S fuel =>
      component ← walk (walk_fuel nodes) [start] ∅;
      rest ← gather nodes fuel (remaining ∖ component);
      Some (if 1 <? Z.of_nat (size component) then sort_by uuid_leb (elements component) :: rest else rest)
  end.

(** [_clusters]. *)
Definition clusters (nodes : list uuid) : option (list (list uuid)) :=
  sort_by ids_leb <$> gather nodes (S (size (list_to_set nodes : gset uuid))) (list_to_set nodes).
End clusters.

(** ** The report: [src/src/spine/curation/contracts.py] *)
Inductive FindingKind := fk_duplicate | fk_contradiction | fk_stale | fk_slop | fk_keyword.
#[export] Instance finding_kind_eq_dec : EqDecision FindingKind.
Proof. solve_decision. Defined.
Definition finding_kind_str (k : FindingKind) : str :=
  match k with
  | fk_duplicate => lit "duplicate" | fk_contradiction => lit "contradiction" | fk_stale => lit "stale"
  | fk_slop => lit "slop" | fk_keyword => lit "keyword"
  end.

Record HealthFinding := {
  hf_ordinal : Z;
  hf_kind : FindingKind;
  hf_memory_ids : list uuid;
  hf_evidence : list (str * json);
  hf_fingerprint : str;
}.

Record PalaceHealthReport := {
  ph_principal_id : str;
  ph_as_of : Z;
  ph_corpus_revision : str;
  ph_active_units : Z;
  ph_clusters : list (list uuid);
  ph_findings : list HealthFinding;
  ph_keyword_coverage_percent : str;
  ph_stats_delta : stats_delta;
  ph_review_summary : list (str * json);
}.

(** ** Building it *)
Definition PROBES : list str := lit <$>
  [""; "What should I remember about how this project works?";
   "How should I build, test, and release this project?";
   "Which tools and services does this project use?"]%string.
Definition PROBE_VERSION : str := lit "curator-relevance-v3".
Definition RELEVANCE_MAX_DELTA : float := f_ratio 25 1000.
Definition PROBE_DIMENSIONS : Z := 1536.

Definition jstrs (l : list str) : json := JList (JStr <$> l).

(** [_memory_evidence]. *)
Definition memory_evidence (row : MemoryUnit) : json := JObj
  [(lit "memory_id", JStr (uuid_str (m_id row))); (lit "revision", JInt (m_revision row));
   (lit "label", JStr (m_label row)); (lit "body", JStr (m_body row)); (lit "kind", JStr (kind_str (m_kind row)));
   (lit "keywords", jstrs (m_keywords row)); (lit "pin", JBool (m_pin row));
   (lit "created_at", JStr (isoformat (m_created_at row))); (lit "updated_at", JStr (isoformat (m_updated_at row)));
   (lit "stats", JObj (m_stats row))].

(** The active memories of the principal. *)
Definition active_memories (principal_id : str) (d : db) : list MemoryUnit :=
  sort_by (λ a b, (m_id a <=? m_id b)%N)
    (filter (λ u, m_principal_id u = principal_id ∧ m_status u = Sactive) (rows (units d))).

(** The edges between them, as pairs in the order of their texts. *)
Definition ordered_pair (a b : uuid) : uuid * uuid := if uuid_leb a b then (a, b) else (b, a).
Definition edge_pairs (kind : EdgeType) (active : list uuid) (d : db) : list (uuid * uuid) :=
  (λ e, ordered_pair (e_from_memory_id e) (e_to_memory_id e))
    <$> filter (λ e, e_from_memory_id e ∈ active ∧ e_to_memory_id e ∈ active ∧ e_edge_type e = kind) (rows (edges d)).

Definition pair_leb (a b : uuid * uuid) : bool := ids_leb [a.1; a.2] [b.1; b.2].
Definition contradiction_pairs (active : list uuid) (d : db) : list (uuid * uuid) :=
  sort_by pair_leb (remove_dups (edge_pairs contradicts active d)).

(** The reasons of the revisions since the last completed pass. *)
Definition reasons_since (principal_id : str) (last_run : option Z) (d : db) : list str :=
  r_reason <$> filter (λ r, (m_principal_id <$> units d !! r_memory_id r) = Some principal_id
                            ∧ match last_run with Some t => t <? r_ts r | None => true end = true) (rows (revisions d)).

(** Each earlier row with each later one. *)
Fixpoint ordered_pairs {A} (l : list A) : list (A * A) :=
  match l with [] => [] | x :: l => ((x,.) <$> l) ++ ordered_pairs l end.

Section relevance.

(** [max(abs(a - b) for ...)], with a default. *)
Definition max_delta (left right : list float) : res pyexn (option float) :=
  diffs ← zip_strict (λ a b, fabs (fsub a b)) left right;
  Ok match diffs with [] => None | x :: l => Some (foldl fmax x l) end.

(** Tuples of a distance and a text. *)
Definition nearer (a b : float * str) : bool := flt a.1 b.1 || feq a.1 b.1 && str_ltb a.2 b.2.

(** The nearest profile of a memory. *)
Definition nearest_of (vectors : list (uuid * list float)) (id : uuid) (scores : list float) :
    res pyexn (option (float * str)) :=
  others ← res_map (λ v : uuid * list float, d ← max_delta scores v.2;
                    Ok (default f0 d, uuid_str v.1)) (filter (λ v, v.1 ≠ id) vectors);
  Ok match others with [] => None | x :: l => Some (foldl (λ best y, if nearer y best then y else best) x l) end.

Definition nearest_map (vectors : list (uuid * list float)) : res pyexn (list (uuid * (float * str))) :=
  let scored : list (uuid * list float) := filter (λ v, v.2 ≠ []) vectors in
  found ← res_map (λ v, nearest_of vectors v.1 v.2) scored;
  Ok (omap (λ n : uuid * option (float * str), (n.1,.) <$> n.2) (zip scored.*1 found)).

Definition is_nearest (nearest : list (uuid * (float * str))) (id : uuid) (delta : float) (other : uuid) : bool :=
  match aget id nearest with
  | Some (d, text) => feq d delta && bool_decide (text = uuid_str other)
  | None => false
  end.
End relevance.

Abbreviation raw_finding := (FindingKind * list uuid * list (str * json))%type.

Definition finding_leb (a b : raw_finding) : bool :=
  strs_leb (finding_kind_str a.1.1 :: (uuid_str <$> a.1.2)) (finding_kind_str b.1.1 :: (uuid_str <$> b.1.2)).

Section build.
Context {UC : Unicode} {TK : Tokenizer} {SH : Sha256} {EP : EmbeddingProvider} {LM : Libm} {SQ : LibmSquare} {AD : AxisDecoder}.
Context (duplicate_floor : float) (stale_days : Z) (embedding_enabled : bool).

(** The scores of one probe; the empty one has no query.  The builder caches the
    embeddings, which the provider determines by the text. *)
Definition probe_scores (config : ScorerConfig) (at_ : Z) (candidates : list ScoringCandidate) (probe : str) : M (list float) :=
  query <-! (if bool_decide (probe = []) then ret (replicate (Z.to_nat PROBE_DIMENSIONS) f0)
             else lift EmbeddingProviderError (embed_one probe (Some PROBE_DIMENSIONS)));
  let semantic := if bool_decide (probe = []) then Some f0 else None in
  lift Builtin (res_map (λ c,
    w ← weights_for_project config None;
    scored ← score_candidate
      {| c_query := query; c_prompt_keywords := prompt_keywords probe; c_snapshot_ts := at_; c_thread_project_key := None;
         c_thread_id := None; c_location_path := None; c_current_location := None |}
      semantic w (params config) (bias_offset config (memory_id c)) (axes config) c;
    Ok (u_score scored)) candidates).

(** The profile of each memory over the probes. *)
Definition profiles (config : option ScorerConfig) (at_ : Z) (d : db) (units : list MemoryUnit) : M (list (uuid * list float)) :=
  match config, units with
  | Some config, _ :: _ =>
      let candidates := candidate_from_row d [lit "curator"] <$> units in
      scores <-! map_m (probe_scores config at_ candidates) PROBES;
      ret (imap (λ i u, (m_id u, omap (λ column : list float, column !! i) scores)) units)
  | _, _ => ret ((λ u, (m_id u, [])) <$> units)
  end.

(** One pair: [None] when neither signal names it. *)
Definition pair_finding (config : option ScorerConfig) (at_ : Z) (vectors : list (uuid * list float))
    (nearest : list (uuid * (float * str))) (ab : MemoryUnit * MemoryUnit) : res pyexn (option raw_finding) :=
  let '(a, b) := ab in
  score ← diag_cosine (m_embedding a) (m_embedding b);
  let left_scores := default [] (aget (m_id a) vectors) in
  let right_scores := default [] (aget (m_id b) vectors) in
  found ← max_delta left_scores right_scores;
  let delta := default f1 found in
  let mutual := is_nearest nearest (m_id a) delta (m_id b) && is_nearest nearest (m_id b) delta (m_id a) in
  let by_relevance := negb (bool_decide (left_scores = [])) && fle delta RELEVANCE_MAX_DELTA && mutual in
  Ok (if flt score duplicate_floor && negb by_relevance then None
      else Some (fk_duplicate, [m_id a; m_id b],
        [(lit "cosine", JStr (fixed_text 9 score));
         (lit "signals", JObj [(lit "embedding", JBool (fle duplicate_floor score)); (lit "relevance", JBool by_relevance)]);
         (lit "relevance", JObj
            [(lit "probe_version", JStr PROBE_VERSION); (lit "prompts", jstrs PROBES);
             (lit "snapshot_ts", JStr (isoformat at_));
             (lit "scorer_version", match config with Some c => JStr (version c) | None => JNull end);
             (lit "left", JList (JFloat <$> left_scores)); (lit "right", JList (JFloat <$> right_scores));
             (lit "max_delta", JFloat delta); (lit "threshold", JFloat RELEVANCE_MAX_DELTA);
             (lit "mutual_nearest", JBool mutual)]);
         (lit "memories", JList [memory_evidence a; memory_evidence b])])).

Definition contradiction_finding (by_id : gmap uuid MemoryUnit) (pair : uuid * uuid) : raw_finding :=
  (fk_contradiction, [pair.1; pair.2],
   [(lit "edge", JStr (lit "contradicts"));
    (lit "memories", JList (memory_evidence <$> omap (λ id, by_id !! id) [pair.1; pair.2]))]).

(** What is wrong with one memory. *)
Definition memory_findings (observed_at : Z) (row : MemoryUnit) : list raw_finding :=
  let citations := count_of (aget (lit "citations") (m_stats row)) in
  let removals := count_of (aget (lit "removals") (m_stats row)) in
  let finding k fields : raw_finding := (k, [m_id row], fields ++ [(lit "memory", memory_evidence row)]) in
  (if keywords_are_healthy (m_keywords row) then []
   else [finding fk_keyword [(lit "problem", JStr (lit "memory does not carry 2-5 distinct lowercase keywords"))]])
  ++ (if (m_updated_at row <? observed_at - stale_days * 86400 * 1000000) && (citations =? 0)
      then [finding fk_stale [(lit "stale_days", JInt stale_days)]] else [])
  ++ (if (citations =? 0) && (3 <=? removals)
      then [finding fk_slop [(lit "rule", JStr (lit "zero citations and at least three removals"))]] else []).

Definition fingerprint (by_id : gmap uuid MemoryUnit) (k : FindingKind) (ids : list uuid) : str :=
  digest (JObj [(lit "kind", JStr (finding_kind_str k)); (lit "memory_ids", jstrs (uuid_str <$> ids));
                (lit "revisions", JList (omap (λ id, JInt ∘ m_revision <$> by_id !! id) ids))]).

Definition contract_finding (by_id : gmap uuid MemoryUnit) (ordinal : nat) (f : raw_finding) : HealthFinding := {|
  hf_ordinal := Z.of_nat ordinal; hf_kind := f.1.1; hf_memory_ids := f.1.2; hf_evidence := f.2;
  hf_fingerprint := fingerprint by_id f.1.1 f.1.2 |}.

Definition corpus_revision (units : list MemoryUnit) : str := digest (JList ((λ row, JObj
  [(lit "id", JStr (uuid_str (m_id row))); (lit "revision", JInt (m_revision row)); (lit "status", JStr (lit "active"));
   (lit "stats", JObj (m_stats row)); (lit "keywords", jstrs (m_keywords row))]) <$> units)).

(** [build], the reads of which see one state. *)
Definition build (principal_id : str) (observed_at : Z) (last_run : option Z) : M PalaceHealthReport :=
  d <-! get_db;
  let units := active_memories principal_id d in
  let ids := m_id <$> units in
  let by_id : gmap uuid MemoryUnit := list_to_map ((λ u, (m_id u, u)) <$> units) in
  config <-! (if embedding_enabled then c <-! active_scorer_config; ret (Some c) else ret None);
  let at_ := match m_updated_at <$> units with [] => observed_at | t :: ts => zmax t ts end in
  vectors <-! profiles config at_ d units;
  nearest <-! lift Builtin (nearest_map vectors);
  found <-! lift Builtin (res_map (pair_finding config at_ vectors nearest) (ordered_pairs units));
  let duplicates := omap id found in
  let duplicate_links := omap (λ f : raw_finding, match f.1.2 with [a; b] => Some (a, b) | _ => None end) duplicates in
  let findings := sort_by finding_leb
    (duplicates ++ (contradiction_finding by_id <$> contradiction_pairs ids d) ++ (units ≫= memory_findings observed_at)) in
  let keyworded := zlen (filter (λ u, keywords_are_healthy (m_keywords u) = true) units) in
  ret {| ph_principal_id := principal_id; ph_as_of := observed_at; ph_corpus_revision := corpus_revision units;
         ph_active_units := zlen units;
         ph_clusters := default [] (clusters (duplicate_links ++ edge_pairs relates_to ids d) ids);
         ph_findings := imap (contract_finding by_id) findings;
         ph_keyword_coverage_percent :=
           match units with [] => lit "100.000" | _ => fixed_text 3 (f_ratio (keyworded * 100) (zlen units)) end;
         ph_stats_delta := stats_delta_of (reasons_since principal_id last_run d);
         ph_review_summary := [] |}.
End build.
