(* ===== verification/DiagnosticsFacts.v ===== *)
(** * Facts of the health report *)
From S2P Require Import Prelude PyStr PyFloat PyJson Ids Store Diagnostics.
Open Scope Z_scope.

Lemma strs_leb_total a b : strs_leb a b = true ∨ strs_leb b a = true.
Proof.
  revert b. induction a as [|x a IH]; intros [|y b]; cbn; auto. rewrite (str_compare_antisym x y).
  destruct (str_compare x y); cbn; auto.
Qed.

Lemma strs_leb_trans a b c : strs_leb a b = true → strs_leb b c = true → strs_leb a c = true.
Proof.
  revert b c. induction a as [|x a IH]; intros [|y b] [|z c]; cbn; try done.
  destruct (str_compare x y) eqn:Exy; try done; destruct (str_compare y z) eqn:Eyz; try done; intros H1 H2;
    repeat match goal with H : str_compare _ _ = Eq |- _ => apply str_compare_eq in H; subst end.
  - rewrite str_compare_refl. by eapply IH.
  - by rewrite Eyz.
  - by rewrite Exy.
  - by rewrite (str_compare_lt_trans x y z).
Qed.

(** ** Clusters are connected components *)
Section clusters.
Context (links : list (uuid * uuid)).

Definition linked (a b : uuid) : Prop := (a, b) ∈ links ∨ (b, a) ∈ links.
Definition connected : relation uuid := rtc linked.

#[local] Instance linked_symm : Symmetric linked.
Proof. intros a b []; [by right|by left]. Qed.
#[local] Instance connected_symm : Symmetric connected.
Proof. intros a b H. induction H as [|a b c Hab _ IH]; [done|]. eapply rtc_r; [exact IH|by apply linked_symm]. Qed.

Lemma neighbors_elem a b : b ∈ neighbors links a ↔ linked a b.
Proof.
  unfold neighbors, linked. rewrite elem_of_union, !elem_of_list_to_set, !list_elem_of_fmap. split.
  - intros [([x y] & -> & [E Hin]%list_elem_of_filter)|([x y] & -> & [E Hin]%list_elem_of_filter)]; cbn in *; subst; auto.
  - intros [H|H]; [left; exists (a, b)|right; exists (b, a)]; (split; [done|]); by apply list_elem_of_filter.
Qed.

(** ** The inner loop *)

(** What is still to be pushed. *)
Definition pending_pushes (nodes : list uuid) (component : gset uuid) : nat :=
  sum_list ((λ n, size (neighbors links n)) <$> filter (λ n, n ∉ component) nodes).

Lemma pending_visit nodes component n :
  n ∈ nodes → n ∉ component →
  (pending_pushes nodes ({[n]} ∪ component) + size (neighbors links n) ≤ pending_pushes nodes component)%nat.
Proof.
  unfold pending_pushes. intros Hin Hn. induction nodes as [|x nodes IH]; [by apply elem_of_nil in Hin|].
  assert (Hle : ∀ l, (sum_list ((λ n, size (neighbors links n)) <$> filter (λ n0, n0 ∉ {[n]} ∪ component) l) ≤
                      sum_list ((λ n, size (neighbors links n)) <$> filter (λ n0, n0 ∉ component) l))%nat).
  { clear. induction l as [|y l IH]; [done|]. rewrite !filter_cons. repeat case_decide; cbn in *; try lia. set_solver. }
  rewrite !filter_cons. destruct (decide (x = n)) as [->|Hne].
  - rewrite decide_False by set_solver. rewrite decide_True by done. cbn. specialize (Hle nodes). lia.
  - apply elem_of_cons in Hin as [|Hin]; [done|]. specialize (IH Hin). repeat case_decide; cbn in *; try lia; set_solver.
Qed.

Lemma pending_start nodes : pending_pushes nodes ∅ = sum_list ((λ n, size (neighbors links n)) <$> nodes).
Proof.
  unfold pending_pushes. induction nodes as [|x l IH]; [done|]. rewrite filter_cons, decide_True by set_solver.
  cbn in *. by rewrite IH.
Qed.

Lemma walk_spec nodes start fuel stack component :
  (∀ a b, linked a b → a ∈ nodes) →
  (length stack + pending_pushes nodes component ≤ fuel)%nat →
  (∀ x, x ∈ component ∨ x ∈ stack → connected start x ∧ x ∈ nodes) →
  (∀ x y, x ∈ component → linked x y → y ∈ component ∨ y ∈ stack) →
  ∃ c, walk links fuel stack component = Some c ∧ component ⊆ c ∧ (∀ x, x ∈ stack → x ∈ c) ∧
    (∀ x, x ∈ c → connected start x ∧ x ∈ nodes) ∧ (∀ x y, x ∈ c → linked x y → y ∈ c).
Proof.
  intros Hnodes. revert stack component. induction fuel as [|fuel IH]; intros stack component Hfuel Hreach Hclosed.
  { destruct stack as [|n stack]; [|cbn in Hfuel; lia]. exists component. cbn. split_and!; try done.
    - intros x Hx. by apply elem_of_nil in Hx.
    - intros x Hx. by apply Hreach; left.
    - intros x y Hx Hxy. destruct (Hclosed x y Hx Hxy) as [|Hy]; [done|by apply elem_of_nil in Hy]. }
  destruct stack as [|n stack].
  { exists component. cbn. split_and!; try done.
    - intros x Hx. by apply elem_of_nil in Hx.
    - intros x Hx. by apply Hreach; left.
    - intros x y Hx Hxy. destruct (Hclosed x y Hx Hxy) as [|Hy]; [done|by apply elem_of_nil in Hy]. }
  cbn [walk]. case_bool_decide as Hn.
  - destruct (IH stack component) as (c & Hc & Hsub & Hst & Hcon & Hclo).
    + cbn in Hfuel. lia.
    + intros x [Hx|Hx]; apply Hreach; [by left|right; by right].
    + intros x y Hx Hxy. destruct (Hclosed x y Hx Hxy) as [|[->|]%elem_of_cons]; auto.
    + exists c. split_and!; try done. intros x [->|Hx]%elem_of_cons; auto.
  - destruct (Hreach n) as [Hcn Hnn]; [right; by left|]. cbn zeta.
    set (fresh := neighbors links n ∖ ({[n]} ∪ component)).
    assert (Hsort : ∀ x, x ∈ sort_by uuid_leb (elements fresh) ↔ x ∈ fresh) by (intros x; by rewrite sort_by_perm, elem_of_elements).
    destruct (IH (sort_by uuid_leb (elements fresh) ++ stack) ({[n]} ∪ component)) as (c & Hc & Hsub & Hst & Hcon & Hclo).
    + rewrite length_app, (Permutation_length (sort_by_perm uuid_leb (elements fresh))). change (length (elements fresh)) with (size fresh).
      assert (size fresh ≤ size (neighbors links n))%nat by (apply subseteq_size; set_solver).
      pose proof (pending_visit nodes component n Hnn Hn). cbn in Hfuel. lia.
    + intros x [[->%elem_of_singleton|Hx]%elem_of_union|[Hx%Hsort|Hx]%elem_of_app].
      * done.
      * by apply Hreach; left.
      * apply elem_of_difference in Hx as [Hx%neighbors_elem _]. split; [by eapply rtc_r|]. eapply (Hnodes x n). by apply linked_symm.
      * apply Hreach. right. by right.
    + intros x y [->%elem_of_singleton|Hx]%elem_of_union Hxy.
      * destruct (decide (y ∈ {[n]} ∪ component)); [by left|]. right. apply elem_of_app. left. apply Hsort, elem_of_difference.
        split; [by apply neighbors_elem|done].
      * destruct (Hclosed x y Hx Hxy) as [|[->|]%elem_of_cons]; [left; set_solver|left; set_solver|]. right. apply elem_of_app. by right.
    + exists c. split_and!; try done; [set_solver|]. intros x [->|Hx]%elem_of_cons; [set_solver|]. apply Hst, elem_of_app. by right.
Qed.

(** The component of a node is what it is connected to. *)
Lemma component_spec nodes start :
  (∀ a b, linked a b → a ∈ nodes) → start ∈ nodes →
  ∃ c, walk links (walk_fuel links nodes) [start] ∅ = Some c ∧ ∀ x, x ∈ c ↔ connected start x.
Proof.
  intros Hnodes Hstart. destruct (walk_spec nodes start (walk_fuel links nodes) [start] ∅) as (c & Hc & _ & Hst & Hcon & Hclo).
  - done.
  - rewrite pending_start. cbn. unfold walk_fuel. lia.
  - intros x [?|Hx]; [set_solver|]. apply list_elem_of_singleton in Hx as ->. split; [constructor|done].
  - set_solver.
  - exists c. split; [done|]. intros x. split; [apply Hcon|]. intros H.
    assert (Hgen : ∀ a b, connected a b → a ∈ c → b ∈ c).
    { intros a b Hab. induction Hab as [|a b d Hab _ IH]; [done|]. intros Ha. apply IH. by eapply Hclo. }
    apply (Hgen start x H). apply Hst. by left.
Qed.

(** ** The outer loop *)

Definition cluster_ok (c : list uuid) : Prop :=
  (2 ≤ length c)%nat ∧ NoDup c ∧ StronglySorted (λ a b, uuid_leb a b = true) c ∧ ∃ a, ∀ b, b ∈ c ↔ connected a b.

Lemma uuid_sorted l : StronglySorted (λ a b, uuid_leb a b = true) (sort_by uuid_leb l).
Proof.
  apply (sort_by_sorted _ (λ _, True)).
  - intros x y _ _. apply str_leb_total.
  - intros x y z _ _ _. apply str_leb_trans.
  - by apply Forall_forall.
Qed.

Lemma gather_spec nodes fuel remaining :
  (∀ a b, linked a b → a ∈ nodes) →
  (size remaining ≤ fuel)%nat → (∀ x, x ∈ remaining → x ∈ nodes) →
  (∀ x y, x ∈ remaining → linked x y → y ∈ remaining) →
  ∃ cs, gather links nodes fuel remaining = Some cs ∧ Forall cluster_ok cs ∧ NoDup (cs ≫= id) ∧
    (∀ x, x ∈ cs ≫= id → x ∈ remaining) ∧
    ∀ a b, a ∈ remaining → connected a b → a ≠ b → a ∈ cs ≫= id.
Proof.
  intros Hnodes. revert remaining. induction fuel as [|fuel IH]; intros remaining Hfuel Hin Hclosed; cbn [gather];
    destruct (sort_by uuid_leb (elements remaining)) as [|start l] eqn:Es.
  1,3: assert (Hempty : remaining = ∅) by
    (apply leibniz_equiv, elements_empty_inv, Permutation_nil; rewrite <- (sort_by_perm uuid_leb (elements remaining)), Es; done);
    subst; exists []; split_and!; try done; [cbn; apply NoDup_nil_2|set_solver].
  all: assert (Hstart : start ∈ remaining) by
    (apply elem_of_elements; rewrite <- (sort_by_perm uuid_leb (elements remaining)), Es; by left).
  { assert (size remaining ≠ 0)%nat; [|lia]. intros H%size_empty_inv. set_solver. }
  destruct (component_spec nodes start Hnodes (Hin _ Hstart)) as (c & Hw & Hc). rewrite Hw. cbn [mbind option_bind].
  assert (Hcsub : c ⊆ remaining).
  { assert (Hgen : ∀ a b, connected a b → a ∈ remaining → b ∈ remaining).
    { intros a b Hab. induction Hab as [|a b d Hab _ IH']; [done|]. intros Ha. apply IH'. by eapply Hclosed. }
    intros x Hx%Hc. by eapply Hgen. }
  assert (Hsc : start ∈ c) by (apply Hc; constructor).
  destruct (IH (remaining ∖ c)) as (cs & Hg & Hok & Hnd & Hsub & Hall).
  { assert (size (remaining ∖ c) < size remaining)%nat; [|lia]. apply subset_size. set_solver. }
  { set_solver. }
  { intros x y [Hx Hxc]%elem_of_difference Hxy. apply elem_of_difference. split; [by eapply Hclosed|]. intros Hy. apply Hxc, Hc.
    apply Hc in Hy. eapply rtc_r; [exact Hy|]. by apply linked_symm. }
  rewrite Hg. cbn [mbind option_bind].
  assert (Hperm : ∀ x, x ∈ sort_by uuid_leb (elements c) ↔ x ∈ c) by (intros x; by rewrite sort_by_perm, elem_of_elements).
  assert (Hlen : length (sort_by uuid_leb (elements c)) = size c) by (by rewrite (Permutation_length (sort_by_perm uuid_leb _))).
  destruct (1 <? Z.of_nat (size c)) eqn:Ebig.
  - exists (sort_by uuid_leb (elements c) :: cs). split; [done|]. split_and!.
    + constructor; [|done]. split; [lia|]. split; [rewrite sort_by_perm; apply NoDup_elements|]. split; [apply uuid_sorted|].
      exists start. intros b. by rewrite Hperm.
    + cbn. apply NoDup_app. split_and!; [rewrite sort_by_perm; apply NoDup_elements| |done].
      intros x Hx%Hperm Hx'%Hsub. set_solver.
    + intros x. cbn. rewrite elem_of_app, Hperm. intros [Hx|Hx%Hsub]; set_solver.
    + intros a b Ha Hab Hne. cbn. rewrite elem_of_app, Hperm. destruct (decide (a ∈ c)); [by left|]. right. eapply Hall; [set_solver|done..].
  - exists cs. split; [done|]. split_and!; [done|done|set_solver|]. intros a b Ha Hab Hne. destruct (decide (a ∈ c)) as [Hac|]; [|eapply Hall; [set_solver|done..]].
    assert (Hone : (size c ≤ 1)%nat) by lia. assert (b ∈ c).
    { apply Hc. apply Hc in Hac. by etrans. }
    exfalso. apply Hne. destruct (size_singleton_inv c a b) as []; try done. assert (size c ≠ 0)%nat by (intros ?%size_empty_inv; set_solver). lia.
Qed.

(** C40: The clusters are the connected components.  Whatever links join the nodes,
    the search ends; each cluster lists, in order and without repetition, exactly
    the nodes connected to one of them; a node is in a cluster, and in one only,
    when it is connected to another node. *)
Theorem clusters_components nodes :
  (∀ a b, (a, b) ∈ links → a ∈ nodes ∧ b ∈ nodes) →
  ∃ cs, clusters links nodes = Some cs ∧ Forall cluster_ok cs ∧ NoDup (cs ≫= id) ∧
    (∀ a, a ∈ cs ≫= id ↔ a ∈ nodes ∧ ∃ b, b ≠ a ∧ connected a b) ∧
    StronglySorted (λ c c', ids_leb c c' = true) cs.
Proof.
  intros Hl. assert (Hnodes : ∀ a b, linked a b → a ∈ nodes) by (intros a b [H|H]; by apply Hl in H as []).
  destruct (gather_spec nodes (S (size (list_to_set nodes : gset uuid))) (list_to_set nodes)) as (cs & Hg & Hok & Hnd & Hsub & Hall).
  - done.
  - lia.
  - intros x. by rewrite elem_of_list_to_set.
  - intros x y _ Hxy. apply elem_of_list_to_set. eapply (Hnodes y x). by apply linked_symm.
  - unfold clusters. rewrite Hg. cbn [fmap option_fmap option_map]. eexists. split; [done|]. split_and!.
    + by rewrite sort_by_perm.
    + by rewrite sort_by_perm.
    + intros a. rewrite sort_by_perm. split.
      * intros Ha. split; [by apply Hsub, elem_of_list_to_set in Ha|]. apply list_elem_of_bind in Ha as (c & Hac & Hc). cbn in Hac.
        destruct (proj1 (Forall_forall _ _) Hok c Hc) as (Hlen & Hndc & _ & r & Hr).
        assert (∃ b, b ∈ c ∧ b ≠ a) as (b & Hb & Hne).
        { destruct c as [|x [|y c]]; cbn in Hlen; [lia..|]. apply NoDup_cons in Hndc as [Hx _].
          destruct (decide (x = a)) as [->|]; [exists y|exists x]; (split; [set_solver|]); [set_solver|done]. }
        exists b. split; [done|]. apply Hr in Hac, Hb. etrans; [by symmetry|done].
      * intros (Ha & b & Hne & Hab). eapply Hall; [by apply elem_of_list_to_set|done|done].
    + apply (sort_by_sorted _ (λ _, True)); [| |by apply Forall_forall].
      * intros x y _ _. apply strs_leb_total.
      * intros x y z _ _ _. apply strs_leb_trans.
Qed.
End clusters.
