(* ===== verification/Curation.v ===== *)
(** * The curator: [src/src/spine/curation/service.py], [progress.py]

    A pass of the curator over one Palace: the health report, a verdict of a
    language model for each finding that needs one, and a card in the consent
    queue for each verdict that would change something.  Each statement group
    runs in a session of its own, and other sessions commit between them. *)
From Stdlib Require Import SpecFloat.
From S2P Require Import Prelude PyStr PyFloat PyDecimal PyJson JsonText Ids Axes Scorer Features Embeddings Store MemoryDb MemoryService.
From S2P Require Import Queue Sql Prepare Learner Nominate Spend M2kValues Diagnostics.
Open Scope Z_scope.

(** ** Rows *)
Inductive Trigger := tr_writes | tr_manual | tr_injection_pressure | tr_cron | tr_compaction.
#[export] Instance trigger_eq_dec : EqDecision Trigger.
Proof. solve_decision. Defined.

Inductive CuratorActionName := act_keep | act_merge | act_contradict | act_supersede | act_retire | act_keyword_repair | act_split.
#[export] Instance action_eq_dec : EqDecision CuratorActionName.
Proof. solve_decision. Defined.

Definition action_str (a : CuratorActionName) : str :=
  match a with
  | act_keep => lit "keep" | act_merge => lit "merge" | act_contradict => lit "contradict" | act_supersede => lit "supersede"
  | act_retire => lit "retire" | act_keyword_repair => lit "keyword_repair" | act_split => lit "split"
  end.
(** The verdict of the card an action becomes. *)
Definition verdict_of_action (a : CuratorActionName) : option Verdict :=
  match a with
  | act_keep => None | act_merge => Some Vmerge | act_contradict => Some Vcontradict | act_supersede => Some Vsupersede
  | act_retire => Some Vretire | act_keyword_repair => Some Vkeyword_repair | act_split => Some Vsplit
  end.

Record CuratorSplitChild := { ch_label : str; ch_body : str; ch_kind : MemoryKind; ch_keywords : list str }.

Record CuratorVerdictDraft := {
  dr_action : CuratorActionName;
  dr_rationale : str;
  dr_label : option str;
  dr_body : option str;
  dr_keywords : option (list str);
  dr_children : option (list CuratorSplitChild);
}.

Record CuratorTriggerState := {
  ts_principal_id : str;
  ts_admitted_writes : Z;
  ts_last_run_writes : Z;
  ts_pressure_events : Z;
  ts_last_run_pressure : Z;
}.

Record CuratorRun := {
  cr_run_uid : str;
  cr_principal_id : str;
  cr_trigger : Trigger;
  cr_report : PalaceHealthReport;
  cr_admitted_writes_snapshot : Z;
  cr_pressure_snapshot : Z;
  cr_verdict_count : Z;
  cr_queued_count : Z;
  cr_executed_count : Z;
  cr_error : option str;
  cr_completed_at : Z;
}.

(** [status] is ['completed'] exactly when there is no error. *)
Definition run_completed (r : CuratorRun) : bool := match cr_error r with None => true | Some _ => false end.

Record CuratorFinding := {
  cf_finding_uid : str;
  cf_run_uid : str;
  cf_ordinal : Z;
  cf_kind : FindingKind;
  cf_memory_ids : list uuid;
  cf_evidence : list (str * json);
  cf_fingerprint : str;
}.

Inductive ProgressPhase := run_started | finding_started | finding_completed | run_done | run_failed.
#[export] Instance phase_eq_dec : EqDecision ProgressPhase.
Proof. solve_decision. Defined.

Record CuratorProgressEvent := {
  pe_principal_id : str;
  pe_run_uid : str;
  pe_phase : ProgressPhase;
  pe_memory_ids : list uuid;
  pe_finding_uid : option str;
  pe_action : option CuratorActionName;
  pe_ts : Z;
}.

(** What a judged finding came to. *)
Record PlannedAction := {
  pl_finding : str;
  pl_verdict : str;
  pl_outcome : str;
  pl_queue_item : option str;
  pl_detail : list (str * json);
}.

(** A row of [curator_model_policy]. *)
Record CuratorModelPolicy := { mp_event_uid : str; mp_principal_id : str; mp_policy : str; mp_changed_at : Z }.

(** The tables of the curator next to the library, the progress rows in the
    order of [event_id], which counts from 1; and the cache of the provider,
    the last run of each Palace with its model. *)
Record curator_state := {
  cu_world : world;
  cu_runs : gmap str CuratorRun;
  cu_findings : gmap str CuratorFinding;
  cu_triggers : gmap str CuratorTriggerState;
  cu_progress : list CuratorProgressEvent;
  cu_spend : ledger;
  cu_locks : gset Z;
  cu_policies : list CuratorModelPolicy;
  cu_run_models : gmap str (str * str);
}.

Definition cu_db (s : curator_state) : db := w_db (cu_world s).

Definition set_world (w : world) (s : curator_state) : curator_state := {|
  cu_world := w; cu_runs := cu_runs s; cu_findings := cu_findings s; cu_triggers := cu_triggers s;
  cu_progress := cu_progress s; cu_spend := cu_spend s; cu_locks := cu_locks s;
  cu_policies := cu_policies s; cu_run_models := cu_run_models s |}.
Definition set_runs (x : gmap str CuratorRun) (s : curator_state) : curator_state := {|
  cu_world := cu_world s; cu_runs := x; cu_findings := cu_findings s; cu_triggers := cu_triggers s;
  cu_progress := cu_progress s; cu_spend := cu_spend s; cu_locks := cu_locks s;
  cu_policies := cu_policies s; cu_run_models := cu_run_models s |}.
Definition set_findings (x : gmap str CuratorFinding) (s : curator_state) : curator_state := {|
  cu_world := cu_world s; cu_runs := cu_runs s; cu_findings := x; cu_triggers := cu_triggers s;
  cu_progress := cu_progress s; cu_spend := cu_spend s; cu_locks := cu_locks s;
  cu_policies := cu_policies s; cu_run_models := cu_run_models s |}.
Definition set_triggers (x : gmap str CuratorTriggerState) (s : curator_state) : curator_state := {|
  cu_world := cu_world s; cu_runs := cu_runs s; cu_findings := cu_findings s; cu_triggers := x;
  cu_progress := cu_progress s; cu_spend := cu_spend s; cu_locks := cu_locks s;
  cu_policies := cu_policies s; cu_run_models := cu_run_models s |}.
Definition set_progress (x : list CuratorProgressEvent) (s : curator_state) : curator_state := {|
  cu_world := cu_world s; cu_runs := cu_runs s; cu_findings := cu_findings s; cu_triggers := cu_triggers s;
  cu_progress := x; cu_spend := cu_spend s; cu_locks := cu_locks s;
  cu_policies := cu_policies s; cu_run_models := cu_run_models s |}.
Definition set_locks (x : gset Z) (s : curator_state) : curator_state := {|
  cu_world := cu_world s; cu_runs := cu_runs s; cu_findings := cu_findings s; cu_triggers := cu_triggers s;
  cu_progress := cu_progress s; cu_spend := cu_spend s; cu_locks := x;
  cu_policies := cu_policies s; cu_run_models := cu_run_models s |}.

(** ** The monad of a pass *)
Definition CM (A : Type) : Type := curator_state → res exn A * curator_state.
Definition cret {A} (a : A) : CM A := λ s, (Ok a, s).
Definition craise {A} (e : exn) : CM A := λ s, (Err e, s).
Definition cbind {A B} (m : CM A) (f : A → CM B) : CM B := λ s,
  match m s with (Ok a, s') => f a s' | (Err e, s') => (Err e, s') end.

Declare Scope curator_scope.
Notation "x '<~' m ; k" := (cbind m (λ x, k)) (at level 20, m at level 100, k at level 200, right associativity) : curator_scope.
Notation "m ;~ k" := (cbind m (λ _, k)) (at level 99, k at level 200, right associativity) : curator_scope.
Open Scope curator_scope.

Definition cget : CM curator_state := λ s, (Ok s, s).
Definition cput (f : curator_state → curator_state) : CM unit := λ s, (Ok tt, f s).
Definition crequire (b : bool) (e : exn) : CM unit := if b then cret tt else craise e.

(** An operation of the library in its own session. *)
Definition on_library {A} (m : M A) : CM A := λ s, let '(r, w) := m (cu_world s) in (r, set_world w s).

(** [try: m except Exception]: the exception as a value. *)
Definition caught {A} (m : CM A) : CM (res exn A) := λ s, let '(r, s') := m s in (Ok r, s').

(** [async with session.begin()] over the tables of the curator. *)
Definition ctransaction {A} (m : CM A) : CM A := λ s,
  match m s with
  | (Ok a, s') => (Ok a, s')
  | (Err e, s') => (Err e, set_world (with_db (cu_db s) (cu_world s')) s)
  end.

(** What other sessions commit at a given moment. *)
Class Bystanders := { meanwhile : nat → curator_state → curator_state }.
(** [CuratorVerdictProvider]: the verdict on a finding, for a run and a machine. *)
Class VerdictProvider := {
  provider_verdict : HealthFinding → PalaceHealthReport → str → str → CM CuratorVerdictDraft;
}.
(** [hashtextextended] of PostgreSQL, which names the advisory lock. *)
Class TextHash := { hashtextextended : str → Z }.
(** [str(exc)] and [type(exc).__name__]. *)
Class ExceptionText := { exception_str : exn → str; exception_name : exn → str }.

(** ** One finding *)
Definition PAIR_LIMIT : Z := 25.
Definition VERDICT_VERSION : str := lit "curator-verdict-v2".

Record review := { rv_reviewed_pairs : Z; rv_skipped_unchanged : Z; rv_skipped_limit : Z }.

Definition summary_of (rv : review) : list (str * json) :=
  [(lit "pair_limit", JInt PAIR_LIMIT); (lit "reviewed_pairs", JInt (rv_reviewed_pairs rv));
   (lit "skipped_unchanged", JInt (rv_skipped_unchanged rv)); (lit "skipped_limit", JInt (rv_skipped_limit rv))].

Definition with_summary (summary : list (str * json)) (report : PalaceHealthReport) : PalaceHealthReport := {|
  ph_principal_id := ph_principal_id report; ph_as_of := ph_as_of report; ph_corpus_revision := ph_corpus_revision report;
  ph_active_units := ph_active_units report; ph_clusters := ph_clusters report; ph_findings := ph_findings report;
  ph_keyword_coverage_percent := ph_keyword_coverage_percent report; ph_stats_delta := ph_stats_delta report;
  ph_review_summary := summary |}.

Definition with_evidence (key : string) (value : json) (f : HealthFinding) : HealthFinding := {|
  hf_ordinal := hf_ordinal f; hf_kind := hf_kind f; hf_memory_ids := hf_memory_ids f;
  hf_evidence := aset (lit key) value (hf_evidence f); hf_fingerprint := hf_fingerprint f |}.

(** [_require_allowed]. *)
Definition allowed_actions (k : FindingKind) : list CuratorActionName :=
  match k with
  | fk_duplicate => [act_keep; act_merge; act_contradict; act_supersede]
  | fk_contradiction => [act_keep; act_contradict; act_supersede]
  | fk_stale => [act_keep; act_supersede; act_retire]
  | fk_slop => [act_keep; act_retire; act_split]
  | fk_keyword => [act_keep; act_keyword_repair]
  end.
Definition require_allowed (f : HealthFinding) (draft : CuratorVerdictDraft) : CM unit :=
  crequire (bool_decide (dr_action draft ∈ allowed_actions (hf_kind f))) (RuntimeError "CuratorProviderError").

Record JudgedFinding := {
  jf_finding_uid : str;
  jf_verdict_uid : str;
  jf_finding : HealthFinding;
  jf_draft : CuratorVerdictDraft;
  jf_suppressed : bool;
}.

(** The principal of the run a finding belongs to. *)
Definition finding_principal (s : curator_state) (f : CuratorFinding) : option str :=
  cr_principal_id <$> cu_runs s !! cf_run_uid f.

Definition verdicts_on (s : curator_state) (f : CuratorFinding) : list CuratorVerdict :=
  filter (λ v, Store.cv_finding_uid v = cf_finding_uid f) (rows (Store.curator_verdicts (cu_db s))).

(** The fingerprints the model has already kept, under this version. *)
Definition remembered (s : curator_state) (principal_id : str) : list str :=
  cf_fingerprint <$> filter (λ f,
    finding_principal s f = Some principal_id
    ∧ match aget (lit "verdict_version") (cf_evidence f) with
      | Some (JStr version) => bool_decide (version = VERDICT_VERSION) | _ => false
      end = true
    ∧ existsb (λ v, bool_decide (Store.cv_action v = lit "keep")) (verdicts_on s f) = true) (rows (cu_findings s)).

(** [_was_seen_unchanged]: a card for the same finding and action waits or was
    refused. *)
Definition was_seen_unchanged (s : curator_state) (fingerprint : str) (action : CuratorActionName) : bool :=
  existsb (λ f, bool_decide (cf_fingerprint f = fingerprint)
      && existsb (λ v, bool_decide (Store.cv_action v = action_str action)) (verdicts_on s f)
      && existsb (λ q, bool_decide (q_curator_finding_uid q = Some (cf_finding_uid f))
                       && bool_decide (q_state q ∈ [pending; rejected])) (rows (items (cu_db s))))
    (rows (cu_findings s)).

Section service.
Context {EN : Env} {PG : Postgres} {TK : Tokenizer} {EP : EmbeddingProvider} {UC : Unicode} {SH : Sha256} {LM : Libm} {SQ : LibmSquare}
  {AD : AxisDecoder} {CO : Collation} {BY : Bystanders} {VP : VerdictProvider} {TH : TextHash} {ET : ExceptionText} {DD : DecimalDigits}.
Context (settings : MemorySettings) (duplicate_floor : float) (stale_days : Z) (embedding_enabled : bool).
Context (trigger_every pressure_trigger_every : Z).

Definition interleave : CM unit := n <~ on_library tick; cput (meanwhile n).

(** [_bounded_error]. *)
Fixpoint words_step (l : str) (cur : str) : list str :=
  match l with
  | [] => match cur with [] => [] | _ => [rev cur] end
  | c :: l => if is_space c then match cur with [] => words_step l [] | _ => rev cur :: words_step l [] end
              else words_step l (c :: cur)
  end.
Definition bounded_error (e : exn) : str :=
  let message := join [32%N] (words_step (exception_str e) []) in
  take 500 (match message with [] => exception_name e | _ => message end).

(** [record_progress], in a transaction of its own. *)
Definition record_progress (principal_id run_uid : str) (phase : ProgressPhase) (ids : list uuid) (finding_uid : option str)
    (action : option CuratorActionName) : CM unit :=
  ts <~ on_library clock_timestamp;
  s <~ cget;
  cput (set_progress (cu_progress s ++
    [{| pe_principal_id := principal_id; pe_run_uid := run_uid; pe_phase := phase; pe_memory_ids := ids;
        pe_finding_uid := finding_uid; pe_action := action; pe_ts := ts |}])).

(** What owners said of earlier cards for findings of the kind. *)
Definition owner_feedback (s : curator_state) (principal_id : str) (k : FindingKind) : list json :=
  (λ a, JObj (ca_detail a)) <$> sort_by (leb_of (λ a b, then_by (Z.compare (ca_created_at a) (ca_created_at b))
                                                   (text_compare (ca_action_uid a) (ca_action_uid b))))
    (filter (λ a, match cu_findings s !! ca_finding_uid a with
                  | Some f => bool_decide (finding_principal s f = Some principal_id) && bool_decide (cf_kind f = k)
                  | None => false
                  end = true ∧ is_Some (aget (lit "feedback") (ca_detail a))) (rows (Store.curator_actions (cu_db s)))).

(** The body of the loop for a finding that is judged. *)
Definition judge (principal_id machine_id run_uid : str) (report : PalaceHealthReport) (finding : HealthFinding) : CM JudgedFinding :=
  interleave ;~
  s <~ cget;
  let feedback := owner_feedback s principal_id (hf_kind finding) in
  let finding := match feedback with [] => finding | _ => with_evidence "owner_feedback" (JList feedback) finding end in
  let finding := with_evidence "verdict_version" (JStr VERDICT_VERSION) finding in
  finding_uid <~ on_library mint;
  verdict_uid <~ on_library mint;
  record_progress principal_id run_uid finding_started (hf_memory_ids finding) (Some finding_uid) None ;~
  interleave ;~
  draft <~ provider_verdict finding report run_uid machine_id;
  require_allowed finding draft ;~
  interleave ;~
  record_progress principal_id run_uid finding_completed (hf_memory_ids finding) (Some finding_uid) (Some (dr_action draft)) ;~
  s <~ cget;
  cret {| jf_finding_uid := finding_uid; jf_verdict_uid := verdict_uid; jf_finding := finding; jf_draft := draft;
          jf_suppressed := was_seen_unchanged s (hf_fingerprint finding) (dr_action draft) |}.

(** Whether the loop skips a finding, and the counts either way. *)
Definition review_step (known : list str) (rv : review) (f : HealthFinding) : review * bool :=
  if bool_decide (hf_fingerprint f ∈ known) then
    ({| rv_reviewed_pairs := rv_reviewed_pairs rv; rv_skipped_unchanged := rv_skipped_unchanged rv + 1;
        rv_skipped_limit := rv_skipped_limit rv |}, false)
  else if bool_decide (length (hf_memory_ids f) = 2%nat) then
    if PAIR_LIMIT <=? rv_reviewed_pairs rv then
      ({| rv_reviewed_pairs := rv_reviewed_pairs rv; rv_skipped_unchanged := rv_skipped_unchanged rv;
          rv_skipped_limit := rv_skipped_limit rv + 1 |}, false)
    else
      ({| rv_reviewed_pairs := rv_reviewed_pairs rv + 1; rv_skipped_unchanged := rv_skipped_unchanged rv;
          rv_skipped_limit := rv_skipped_limit rv |}, true)
  else (rv, true).

(** The loop, which the first exception ends. *)
Fixpoint judge_all (principal_id machine_id run_uid : str) (report : PalaceHealthReport) (known : list str) (findings : list HealthFinding)
    (rv : review) (judged : list JudgedFinding) : CM (review * list JudgedFinding * option exn) :=
  match findings with
  | [] => cret (rv, judged, None)
  | f :: findings =>
      let '(rv, go) := review_step known rv f in
      if go then
        outcome <~ caught (judge principal_id machine_id run_uid (with_summary (summary_of rv) report) f);
        match outcome with
        | Ok j => judge_all principal_id machine_id run_uid report known findings rv (judged ++ [j])
        | Err e => cret (rv, judged, Some e)
        end
      else judge_all principal_id machine_id run_uid report known findings rv judged
  end.

(** ** Cards *)

(** [model_dump(mode="json", exclude_none=True)]. *)
Definition child_dump (c : CuratorSplitChild) : json := JObj
  [(lit "label", JStr (ch_label c)); (lit "body", JStr (ch_body c)); (lit "kind", JStr (kind_str (ch_kind c)));
   (lit "keywords", jstrs (ch_keywords c))].
Definition dumped (key : string) (value : option json) : list (str * json) :=
  match value with Some v => [(lit key, v)] | None => [] end.
Definition draft_dump (d : CuratorVerdictDraft) : list (str * json) :=
  [(lit "action", JStr (action_str (dr_action d))); (lit "rationale", JStr (dr_rationale d))]
  ++ dumped "label" (JStr <$> dr_label d) ++ dumped "body" (JStr <$> dr_body d)
  ++ dumped "keywords" (jstrs <$> dr_keywords d)
  ++ dumped "children" (JList ∘ fmap child_dump <$> dr_children d).

Definition proposal_of (j : JudgedFinding) : list (str * json) :=
  let evidence := hf_evidence (jf_finding j) in
  aset (lit "signals") (default (JObj []) (aget (lit "signals") evidence))
    (aset (lit "sources") (default (JList []) (aget (lit "memories") evidence))
      (aset (lit "finding_fingerprint") (JStr (hf_fingerprint (jf_finding j))) (draft_dump (jf_draft j)))).

Definition planned (j : JudgedFinding) (outcome : string) (item : option str) (detail : list (str * json)) : PlannedAction := {|
  pl_finding := jf_finding_uid j; pl_verdict := jf_verdict_uid j; pl_outcome := lit outcome; pl_queue_item := item;
  pl_detail := detail |}.
Definition reason (text : str) : list (str * json) := [(lit "reason", JStr text)].

(** One turn of the loop over what was judged. *)
Definition plan (principal_id machine_id run_uid : str) (j : JudgedFinding) : CM PlannedAction :=
  if jf_suppressed j then cret (planned j "noop" None (reason (lit "unchanged rejected proposal")))
  else
    match verdict_of_action (dr_action (jf_draft j)) with
    | None => cret (planned j "noop" None (reason (lit "surgeon verdict kept corpus")))
    | Some verdict =>
        interleave ;~
        card <~ caught (on_library (enqueue_curator settings run_uid (jf_finding_uid j) principal_id machine_id verdict
                  (hf_memory_ids (jf_finding j)) (proposal_of j)));
        cret match card with
        | Err e => planned j "refused" None (reason (bounded_error e))
        | Ok None => planned j "refused" None (reason (lit "proposal collided with live corpus"))
        | Ok (Some card) => planned j "queued" (Some (q_item_uid (qc_item card)))
            [(lit "verdict", JStr (action_str (dr_action (jf_draft j))));
             (lit "finding", JStr (hf_fingerprint (jf_finding j)))]
        end
    end.

Fixpoint plan_all (principal_id machine_id run_uid : str) (judged : list JudgedFinding) : CM (list PlannedAction) :=
  match judged with
  | [] => cret []
  | j :: judged =>
      action <~ plan principal_id machine_id run_uid j;
      actions <~ plan_all principal_id machine_id run_uid judged;
      cret (action :: actions)
  end.

Definition is_queued (a : PlannedAction) : bool := bool_decide (pl_outcome a = lit "queued").
Definition queued_count (actions : list PlannedAction) : Z := zlen (filter (λ a, is_queued a = true) actions).

(** ** The receipt *)

(** [_record_model]: the models the spend ledger names for the run. *)
Definition run_models (s : curator_state) (run_uid : str) : list str :=
  sort_by (leb_of text_compare) (remove_dups (omap se_model
    (filter (λ e, se_run_id e = Some run_uid ∧ se_purpose e = curation) (rows (cu_spend s))))).
Definition record_model (run_uid : str) (report : PalaceHealthReport) : CM PalaceHealthReport :=
  s <~ cget;
  let model := join (lit ", ") (run_models s run_uid) in
  cret (with_summary (aset (lit "model") (match model with [] => JNull | _ => JStr model end) (ph_review_summary report)) report).

(** [INSERT] of a row whose key must be new. *)
Definition add_row {A} (constraint_name : string) (key : str) (row : A) (m : gmap str A) : CM (gmap str A) :=
  crequire (bool_decide (m !! key = None)) (Store.IntegrityError constraint_name) ;~ cret (<[key := row]> m).

Definition insert_run (r : CuratorRun) : CM unit :=
  s <~ cget;
  runs <~ add_row "curator_run_pkey" (cr_run_uid r) r (cu_runs s);
  cput (set_runs runs).

Definition with_curation (verdicts : gmap str CuratorVerdict) (actions : gmap str CuratorAction) (d : db) : db := {|
  units := units d; revisions := revisions d; edges := edges d; items := items d; decisions := decisions d;
  threads := threads d; events := events d; next_event_id := next_event_id d; scorer_configs := scorer_configs d;
  curator_verdicts := verdicts; curator_actions := actions |}.
Definition put_curation (verdicts : gmap str CuratorVerdict) (actions : gmap str CuratorAction) : CM unit :=
  cput (λ s, set_world (with_db (with_curation verdicts actions (cu_db s)) (cu_world s)) s).

Definition insert_finding (run_uid : str) (now : Z) (j : JudgedFinding) : CM unit :=
  let f := jf_finding j in
  s <~ cget;
  crequire (negb (existsb (λ g, bool_decide (cf_run_uid g = run_uid ∧ cf_ordinal g = hf_ordinal f)) (rows (cu_findings s))))
    (Store.IntegrityError "curator_finding_run_uid_ordinal_key") ;~
  findings <~ add_row "curator_finding_pkey" (jf_finding_uid j)
    {| cf_finding_uid := jf_finding_uid j; cf_run_uid := run_uid; cf_ordinal := hf_ordinal f; cf_kind := hf_kind f;
       cf_memory_ids := hf_memory_ids f; cf_evidence := hf_evidence f; cf_fingerprint := hf_fingerprint f |} (cu_findings s);
  cput (set_findings findings) ;~
  verdicts <~ add_row "curator_verdict_pkey" (jf_verdict_uid j)
    {| Store.cv_verdict_uid := jf_verdict_uid j; Store.cv_finding_uid := jf_finding_uid j; Store.cv_action := action_str (dr_action (jf_draft j));
       Store.cv_rationale := dr_rationale (jf_draft j); Store.cv_proposal := draft_dump (jf_draft j); Store.cv_created_at := now |}
    (Store.curator_verdicts (cu_db s));
  put_curation verdicts (Store.curator_actions (cu_db s)).

Definition insert_action (now : Z) (a : PlannedAction) : CM unit :=
  action_uid <~ on_library mint;
  s <~ cget;
  actions <~ add_row "curator_action_pkey" action_uid
    {| ca_action_uid := action_uid; ca_verdict_uid := pl_verdict a; ca_finding_uid := pl_finding a;
       ca_queue_item_uid := pl_queue_item a; ca_outcome := pl_outcome a; ca_detail := pl_detail a; ca_created_at := now |}
    (Store.curator_actions (cu_db s));
  put_curation (Store.curator_verdicts (cu_db s)) actions.

Fixpoint each {A} (l : list A) (body : A → CM unit) : CM unit :=
  match l with [] => cret tt | x :: l => body x ;~ each l body end.

Definition persist_run (run_uid principal_id : str) (trigger : Trigger) (report : PalaceHealthReport) (admitted pressure : Z)
    (judged : list JudgedFinding) (actions : list PlannedAction) (error : option str) : CM unit :=
  interleave ;~
  report <~ record_model run_uid report;
  interleave ;~
  ctransaction (
    now <~ on_library clock_timestamp;
    insert_run {|
      cr_run_uid := run_uid; cr_principal_id := principal_id; cr_trigger := trigger; cr_report := report;
      cr_admitted_writes_snapshot := admitted; cr_pressure_snapshot := pressure; cr_verdict_count := zlen judged;
      cr_queued_count := queued_count actions; cr_executed_count := 0; cr_error := error; cr_completed_at := now |} ;~
    each judged (insert_finding run_uid now) ;~
    each actions (insert_action now)).

(** *** Cursors *)
Definition trigger_snapshot (principal_id : str) : CM (Z * Z) :=
  s <~ cget;
  cret match cu_triggers s !! principal_id with
       | Some t => (ts_admitted_writes t, ts_pressure_events t)
       | None => (0, 0)
       end.

(** The row and its [CHECK]s. *)
Definition cursor_valid (t : CuratorTriggerState) : bool :=
  (0 <=? ts_last_run_writes t) && (ts_last_run_writes t <=? ts_admitted_writes t)
  && (0 <=? ts_last_run_pressure t) && (ts_last_run_pressure t <=? ts_pressure_events t).
Definition moved_cursor (principal_id : str) (admitted pressure : Z) (old : option CuratorTriggerState) : CuratorTriggerState :=
  match old with
  | None => {| ts_principal_id := principal_id; ts_admitted_writes := admitted; ts_last_run_writes := admitted;
               ts_pressure_events := pressure; ts_last_run_pressure := pressure |}
  | Some t => {| ts_principal_id := ts_principal_id t; ts_admitted_writes := ts_admitted_writes t;
                 ts_last_run_writes := admitted; ts_pressure_events := ts_pressure_events t; ts_last_run_pressure := pressure |}
  end.
Definition advance_cursor (principal_id : str) (admitted pressure : Z) : CM unit :=
  s <~ cget;
  let row := moved_cursor principal_id admitted pressure (cu_triggers s !! principal_id) in
  crequire (cursor_valid row) (Store.IntegrityError "curator_trigger_cursor_check") ;~
  cput (set_triggers (<[principal_id := row]> (cu_triggers s))).

(** ** A pass *)

(** The strongest pairs first. *)
Definition strength (f : HealthFinding) : res pyexn (float * bool * Z) :=
  cosine ← float_of_json (default (JInt 0) (aget (lit "cosine") (hf_evidence f)));
  Ok (fneg cosine, bool_decide (hf_kind f ≠ fk_contradiction), hf_ordinal f).
Definition strength_leb (a b : float * bool * Z) : bool :=
  let '(x, p, i) := a in
  let '(y, q, j) := b in
  if feq x y then if Bool.eqb p q then i <=? j else q else negb (flt y x).
Definition strongest_first (findings : list HealthFinding) : res pyexn (list HealthFinding) :=
  keyed ← res_map (λ f, key ← strength f; Ok (key, f)) findings;
  Ok (sort_by (λ a b, strength_leb a.1 b.1) keyed).*2.

(** [max(completed_at)] of the completed passes. *)
Definition last_completed (s : curator_state) (principal_id : str) : option Z :=
  match cr_completed_at <$> filter (λ r, cr_principal_id r = principal_id ∧ run_completed r = true) (rows (cu_runs s)) with
  | [] => None
  | t :: ts => Some (zmax t ts)
  end.

Definition health_report (principal_id : str) : CM PalaceHealthReport :=
  observed_at <~ on_library clock_timestamp;
  s <~ cget;
  on_library (build duplicate_floor stale_days embedding_enabled principal_id observed_at (last_completed s principal_id)).

Definition run_receipt (run_uid : str) : CM CuratorRun :=
  s <~ cget;
  match cu_runs s !! run_uid with Some r => cret r | None => craise NoResultFound end.

Definition no_review : review := {| rv_reviewed_pairs := 0; rv_skipped_unchanged := 0; rv_skipped_limit := 0 |}.

Definition run_locked (principal_id run_uid machine_id : str) (trigger : Trigger) : CM CuratorRun :=
  interleave ;~
  report <~ health_report principal_id;
  interleave ;~
  snapshot <~ trigger_snapshot principal_id;
  interleave ;~
  s <~ cget;
  let known := remembered s principal_id in
  findings <~ (match strongest_first (ph_findings report) with Ok l => cret l | Err e => craise (Builtin e) end);
  outcome <~ judge_all principal_id machine_id run_uid report known findings no_review [];
  let '(rv, judged, failure) := outcome in
  let error := bounded_error <$> failure in
  actions <~ plan_all principal_id machine_id run_uid judged;
  persist_run run_uid principal_id trigger (with_summary (summary_of rv) report) snapshot.1 snapshot.2 judged actions error ;~
  interleave ;~
  (match error with None => advance_cursor principal_id snapshot.1 snapshot.2 | Some _ => cret tt end) ;~
  interleave ;~
  run_receipt run_uid.

Definition lock_key (principal_id : str) : Z := hashtextextended (lit "curator:" ++ principal_id).

(** The guarded part of [run], after the lock is taken. *)
Definition run_guarded (principal_id run_uid machine_id : str) (trigger : Trigger) : CM CuratorRun :=
  outcome <~ caught (
    record_progress principal_id run_uid run_started [] None None ;~
    receipt <~ run_locked principal_id run_uid machine_id trigger;
    record_progress principal_id run_uid (if run_completed receipt then run_done else run_failed) [] None None ;~
    cret receipt);
  match outcome with
  | Ok receipt => cret receipt
  | Err e => record_progress principal_id run_uid run_failed [] None None ;~ craise e
  end.

Definition run (principal_id machine_id : str) (trigger : Trigger) : CM (option CuratorRun) :=
  interleave ;~
  s <~ cget;
  if decide (lock_key principal_id ∈ cu_locks s) then cret None
  else
    cput (set_locks (cu_locks s ∪ {[lock_key principal_id]})) ;~
    run_uid <~ on_library mint;
    outcome <~ caught (run_guarded principal_id run_uid machine_id trigger);
    s <~ cget;
    cput (set_locks (cu_locks s ∖ {[lock_key principal_id]})) ;~
    match outcome with Ok receipt => cret (Some receipt) | Err e => craise e end.

(** *** The ticks of the table [memory_unit] *)

(** [COALESCE((stats->>'removals')::bigint, 0)] of a count, as the library
    writes it: a number, or nothing. *)
Definition removals_of (u : MemoryUnit) : Z := match aget (lit "removals") (m_stats u) with Some (JInt z) => z | _ => 0 end.

(** [nocturne_tick_curator_write], after the insert or update of a row. *)
Definition tick_curator_write (old : option MemoryUnit) (new : MemoryUnit) (triggers : gmap str CuratorTriggerState) :
    gmap str CuratorTriggerState :=
  let active := bool_decide (m_status new = Sactive) in
  let write_delta :=
    if active && negb (match old with Some o => bool_decide (m_status o = Sactive) | None => false end) then 1 else 0 in
  let pressure_delta :=
    match old with Some o => if active then Z.max 0 (removals_of new - removals_of o) else 0 | None => 0 end in
  if (0 <? write_delta) || (0 <? pressure_delta) then
    let principal_id := m_principal_id new in
    <[principal_id :=
        match triggers !! principal_id with
        | None => {| ts_principal_id := principal_id; ts_admitted_writes := write_delta; ts_last_run_writes := 0;
                     ts_pressure_events := pressure_delta; ts_last_run_pressure := 0 |}
        | Some t => {| ts_principal_id := ts_principal_id t; ts_admitted_writes := ts_admitted_writes t + write_delta;
                       ts_last_run_writes := ts_last_run_writes t; ts_pressure_events := ts_pressure_events t + pressure_delta;
                       ts_last_run_pressure := ts_last_run_pressure t |}
        end]> triggers
  else triggers.

(** ** What is due *)
Definition writes_due (t : CuratorTriggerState) : bool := trigger_every <=? ts_admitted_writes t - ts_last_run_writes t.
Definition pressure_due (t : CuratorTriggerState) : bool :=
  pressure_trigger_every <=? ts_pressure_events t - ts_last_run_pressure t.

Definition due_of (t : CuratorTriggerState) : option Trigger :=
  if writes_due t then Some tr_writes else if pressure_due t then Some tr_injection_pressure else None.

(** The start of the principal's last pass. *)
Definition last_started (s : curator_state) (principal_id : str) : option Z :=
  match pe_ts <$> filter (λ p, pe_principal_id p = principal_id ∧ pe_phase p = run_started) (cu_progress s) with
  | [] => None
  | t :: ts => Some (zmax t ts)
  end.

Definition compaction_due (s : curator_state) (q : ApprovalQueueItem) : bool :=
  bool_decide (q_state q = approved)
  && existsb (λ r, bool_decide (r_memory_id r = q_candidate_memory_id q ∧ r_editor r = lit "compaction")) (rows (revisions (cu_db s)))
  && match q_decided_at q, last_started s (q_principal_id q) with
     | Some t, Some started => started <? t
     | Some _, None => true
     | None, _ => false
     end.

Definition due_triggers (s : curator_state) : gmap str Trigger :=
  omap due_of (cu_triggers s)
  ∪ list_to_map ((λ q, (q_principal_id q, tr_compaction)) <$> filter (λ q, compaction_due s q = true) (rows (items (cu_db s)))).

Fixpoint run_each (due : list (str * Trigger)) : CM (list CuratorRun) :=
  match due with
  | [] => cret []
  | (principal_id, trigger) :: due =>
      receipt <~ run principal_id (lit "spine:curator") trigger;
      receipts <~ run_each due;
      cret (match receipt with Some r => r :: receipts | None => receipts end)
  end.

Definition run_due : CM (list CuratorRun) :=
  interleave ;~
  s <~ cget;
  run_each (sort_by (λ a b, str_leb a.1 b.1) (map_to_list (due_triggers s))).

(** A turn of [CuratorWorker._run]. *)
Definition worker_turn : CM unit := outcome <~ caught run_due; cret tt.

(** ** Reads *)

(** [read_progress]: the events after a cursor, and the next cursor. *)
Definition numbered (s : curator_state) : list (Z * CuratorProgressEvent) := imap (λ i e, (Z.of_nat i + 1, e)) (cu_progress s).
Definition read_progress (s : curator_state) (principal_id : str) (after : Z) : list (Z * CuratorProgressEvent) * Z :=
  let events := filter (λ e : Z * CuratorProgressEvent, pe_principal_id e.2 = principal_id ∧ after < e.1) (numbered s) in
  (events, default after (fst <$> last events)).

(** [reason ~ '^curation/[^/]+/(merge|supersede|retire)$']. *)
Definition curator_removal (why : str) : bool :=
  match split_once 47 why with
  | Some (stem, rest) =>
      bool_decide (stem = lit "curation")
      && match split_once 47 rest with
         | Some (uid, action) =>
             bool_decide (uid ≠ [] ∧ action ∈ [lit "merge"; lit "supersede"; lit "retire"])
         | None => false
         end
  | None => false
  end.

Record CuratorGrowthPoint := { gp_at : Z; gp_active_units : Z; gp_curator_removals : Z }.
Definition growth (s : curator_state) (principal_id : str) (now : Z) : list CuratorGrowthPoint :=
  let points := ((λ r, (ph_as_of (cr_report r), ph_active_units (cr_report r))) <$>
      filter (λ r, cr_principal_id r = principal_id ∧ run_completed r = true) (rows (cu_runs s)))
    ++ [(now, zlen (active_memories principal_id (cu_db s)))] in
  (λ p : Z * Z, {|
    gp_at := p.1; gp_active_units := p.2;
    gp_curator_removals := zlen (filter (λ r, r_ts r <= p.1 ∧ curator_removal (r_reason r) = true
      ∧ m_principal_id <$> units (cu_db s) !! r_memory_id r = Some principal_id) (rows (revisions (cu_db s)))) |})
  <$> sort_by (λ a b : Z * Z, a.1 <=? b.1) points.

Record CuratorActivity := {
  av_state : option CuratorTriggerState;
  av_writes_until_run : Z;
  av_pressure_until_run : Z;
  av_latest_run : option CuratorRun;
  av_pending_cards : Z;
  av_growth : list CuratorGrowthPoint;
}.
Definition outstanding (current cursor : Z) : Z := Z.max 0 (current - cursor).
Definition activity (s : curator_state) (principal_id : str) (now : Z) : CuratorActivity :=
  let state := cu_triggers s !! principal_id in
  let read (column : CuratorTriggerState → Z) := from_option column 0 state in
  {| av_state := state;
     av_writes_until_run := Z.max 0 (trigger_every - outstanding (read ts_admitted_writes) (read ts_last_run_writes));
     av_pressure_until_run :=
       Z.max 0 (pressure_trigger_every - outstanding (read ts_pressure_events) (read ts_last_run_pressure));
     av_latest_run := last (sort_by (leb_of (λ a b, then_by (Z.compare (cr_completed_at a) (cr_completed_at b))
                                                      (text_compare (cr_run_uid a) (cr_run_uid b))))
       (filter (λ r, cr_principal_id r = principal_id) (rows (cu_runs s))));
     av_pending_cards := zlen (filter (λ q, q_principal_id q = principal_id ∧ q_birthplace q = Bcurator ∧ q_state q = pending)
       (rows (items (cu_db s))));
     av_growth := growth s principal_id now |}.
End service.
