(* ===== verification/CurationFacts.v ===== *)
(** * What a pass of the curator guarantees

    Whatever the provider answers, the library does and other sessions commit
    in between: a pass ends told and unlocked, judges a bounded number of
    pairs, accounts for every finding, and moves its cursor only when it
    completed. *)
From S2P Require Import Prelude PyStr PyFloat PyDecimal PyJson JsonText Ids Axes Scorer Features Embeddings Store MemoryDb MemoryService.
From S2P Require Import Queue Sql Prepare Learner Nominate Spend M2kValues Diagnostics Curation.
Open Scope Z_scope.

(** ** What a computation keeps *)
Definition leaves {X A} (view : curator_state → X) (m : CM A) : Prop := ∀ s, view (m s).2 = view s.

Section leaves.
Context {X : Type} (view : curator_state → X).

Lemma leaves_ret {A} (a : A) : leaves view (cret a). Proof. done. Qed.
Lemma leaves_raise {A} e : leaves view (craise (A := A) e). Proof. done. Qed.
Lemma leaves_get : leaves view cget. Proof. done. Qed.
Lemma leaves_require b e : leaves view (crequire b e). Proof. by destruct b. Qed.
Lemma leaves_put f : (∀ s, view (f s) = view s) → leaves view (cput f). Proof. by intros H s; cbn. Qed.
Lemma leaves_bind {A B} (m : CM A) (f : A → CM B) : leaves view m → (∀ a, leaves view (f a)) → leaves view (cbind m f).
Proof. intros Hm Hf s. unfold cbind. specialize (Hm s). destruct (m s) as [[a|e] s'] eqn:E; cbn in *; [|done]. by rewrite Hf. Qed.
Lemma leaves_caught {A} (m : CM A) : leaves view m → leaves view (caught m).
Proof. intros Hm s. unfold caught. specialize (Hm s). by destruct (m s). Qed.
Lemma leaves_library {A} (m : M A) : (∀ w s, view (set_world w s) = view s) → leaves view (on_library m).
Proof. intros H s. unfold on_library. destruct (m (cu_world s)). apply H. Qed.
Lemma leaves_transaction {A} (m : CM A) : (∀ w s, view (set_world w s) = view s) → leaves view m → leaves view (ctransaction m).
Proof. intros H Hm s. unfold ctransaction. specialize (Hm s). by destruct (m s) as [[a|e] s']; cbn in *. Qed.
Lemma leaves_each {A} (l : list A) body : (∀ a, leaves view (body a)) → leaves view (each l body).
Proof. intros Hb. induction l; cbn; [apply leaves_ret|apply leaves_bind; auto]. Qed.
Lemma leaves_new {A} c k (a : A) m : leaves view (add_row c k a m).
Proof. apply leaves_bind; [apply leaves_require|intros _; apply leaves_ret]. Qed.
End leaves.
#[export] Hint Resolve leaves_ret leaves_raise leaves_get leaves_require leaves_put leaves_bind leaves_caught
  leaves_library leaves_transaction leaves_each leaves_new : curator.

(** Walk through a program's syntax. *)
Ltac leave_step :=
  match goal with
  | |- leaves _ (cbind _ _) => apply leaves_bind; [|intros ?]
  | |- leaves _ (let '(_, _) := ?x in _) => destruct x
  | |- leaves _ (let _ := _ in _) => cbv zeta
  | |- leaves _ (match ?x with _ => _ end) => destruct x
  | |- leaves _ (if ?x then _ else _) => destruct x
  | |- leaves _ _ => solve [auto with curator]
  end.
Ltac leave := repeat leave_step.

Lemma zlen_cons {A} (x : A) l : zlen (x :: l) = 1 + zlen l.
Proof. unfold zlen. cbn [length]. lia. Qed.

Lemma Permutation_length_zlen {A} (l l' : list A) : Permutation l l' → zlen l = zlen l'.
Proof. intros H. unfold zlen. by rewrite H. Qed.

Lemma cbind_Ok {A B} (m : CM A) (f : A → CM B) s b s' :
  cbind m f s = (Ok b, s') → ∃ a s1, m s = (Ok a, s1) ∧ f a s1 = (Ok b, s').
Proof. unfold cbind. destruct (m s) as [[a|e] s1]; [|done]. eauto. Qed.

Section service.
Context {EN : Env} {PG : Postgres} {TK : Tokenizer} {EP : EmbeddingProvider} {UC : Unicode} {SH : Sha256} {LM : Libm} {SQ : LibmSquare}
  {AD : AxisDecoder} {CO : Collation} {BY : Bystanders} {VP : VerdictProvider} {TH : TextHash} {ET : ExceptionText} {DD : DecimalDigits}.
Context (settings : MemorySettings) (duplicate_floor : float) (stale_days : Z) (embedding_enabled : bool).
Context (trigger_every pressure_trigger_every : Z).
#[local] Abbreviation run := (run settings duplicate_floor stale_days embedding_enabled).
#[local] Abbreviation run_locked := (run_locked settings duplicate_floor stale_days embedding_enabled).

Lemma others_Ok s : ∃ s', interleave s = (Ok tt, s').
Proof. by eexists. Qed.

(** A row of progress is written, and nothing else of the curator moves. *)
Definition told (p : str) (ph : ProgressPhase) (s : curator_state) : Prop :=
  ∃ e, last (cu_progress s) = Some e ∧ pe_principal_id e = p ∧ pe_phase e = ph.
Lemma record_progress_told p u ph ids f a s : ∃ s', record_progress p u ph ids f a s = (Ok tt, s') ∧ told p ph s'.
Proof. eexists; split; [done|]. eexists; split; [apply last_snoc|done]. Qed.

Lemma guarded_told p u m t s :
  match run_guarded settings duplicate_floor stale_days embedding_enabled p u m t s with
  | (Ok receipt, s') => told p (if run_completed receipt then run_done else run_failed) s'
  | (Err _, s') => told p run_failed s'
  end.
Proof.
  unfold run_guarded, caught, cbind, cret, craise.
  destruct (record_progress_told p u run_started [] None None s) as (s1 & -> & _).
  destruct (run_locked p u m t s1) as [[receipt|e] s2].
  - by destruct (record_progress_told p u (if run_completed receipt then run_done else run_failed) [] None None s2) as (s3 & -> & ?).
  - by destruct (record_progress_told p u run_failed [] None None s2) as (s3 & -> & ?).
Qed.

(** C20: A pass of the curator always closes.  Whatever the library, the model
    and the other sessions do, a pass that took the lock has released it when
    it returns or raises, and the last thing its Palace's owner can read is
    that it ended: completed exactly when the receipt says so, failed
    otherwise.  A pass that finds the lock taken does nothing. *)
Theorem pass_always_closes (principal_id machine_id : str) (trigger : Trigger) (s : curator_state) :
  match run principal_id machine_id trigger s with
  | (Ok None, s') => interleave s = (Ok tt, s') ∧ lock_key principal_id ∈ cu_locks s'
  | (Ok (Some receipt), s') =>
      lock_key principal_id ∉ cu_locks s'
      ∧ ∃ e, last (cu_progress s') = Some e ∧ pe_principal_id e = principal_id
             ∧ pe_phase e = if run_completed receipt then run_done else run_failed
  | (Err _, s') =>
      lock_key principal_id ∉ cu_locks s'
      ∧ ∃ e, last (cu_progress s') = Some e ∧ pe_principal_id e = principal_id ∧ pe_phase e = run_failed
  end.
Proof.
  unfold Curation.run, cbind. destruct (others_Ok s) as [s1 Eo]. rewrite Eo. cbn [cget].
  destruct (decide (lock_key principal_id ∈ cu_locks s1)) as [Hin|_]; [done|].
  cbn [cput on_library mint tick bind ret fst snd]. unfold caught, cget, cput, cret, craise. cbv zeta.
  match goal with |- context [run_guarded _ _ _ _ ?p ?u ?m ?t ?s2] => pose proof (guarded_told p u m t s2) as Hg;
    destruct (run_guarded _ _ _ _ p u m t s2) as [[receipt|e] s3] end; (split; [cbn; set_solver|exact Hg]).
Qed.

(** ** The loop over the findings *)
Definition is_pair (f : HealthFinding) : bool := bool_decide (length (hf_memory_ids f) = 2%nat).
Definition allowed (j : JudgedFinding) : Prop := dr_action (jf_draft j) ∈ allowed_actions (hf_kind (jf_finding j)).
(** A judged finding is a finding of the report, whose evidence alone grew. *)
Definition judges (f : HealthFinding) (j : JudgedFinding) : Prop :=
  hf_ordinal (jf_finding j) = hf_ordinal f ∧ hf_kind (jf_finding j) = hf_kind f
  ∧ hf_memory_ids (jf_finding j) = hf_memory_ids f ∧ hf_fingerprint (jf_finding j) = hf_fingerprint f ∧ allowed j.

Lemma judge_judges p m u report f s j s' : judge p m u report f s = (Ok j, s') → judges f j.
Proof.
  unfold judge. intros H.
  repeat match type of H with
  | cbind _ _ _ = _ => apply cbind_Ok in H as (? & ? & ? & H); cbv zeta in H
  | cret _ _ = _ => injection H as <- _
  end.
  match goal with Hr : require_allowed _ _ _ = _ |- _ => unfold require_allowed, crequire in Hr; case_bool_decide as Ha; [|done] end.
  match type of Ha with context [match ?l with _ => _ end] => destruct l end; split_and!; done.
Qed.

(** What the loop has done with a stretch of findings. *)
Record reviewed (known : list str) (findings : list HealthFinding) (rv rv' : review) (judged : list JudgedFinding)
    (failure : option exn) : Prop := {
  reviewed_some : ∃ done, done `sublist_of` findings ∧ Forall2 judges done judged
    ∧ Forall (λ f, hf_fingerprint f ∉ known) done
    ∧ zlen (filter (λ f, is_pair f = true) done) <= rv_reviewed_pairs rv' - rv_reviewed_pairs rv;
  reviewed_limit : rv_reviewed_pairs rv <= PAIR_LIMIT → rv_reviewed_pairs rv' <= PAIR_LIMIT;
  reviewed_all : failure = None →
    zlen judged + (rv_skipped_unchanged rv' - rv_skipped_unchanged rv) + (rv_skipped_limit rv' - rv_skipped_limit rv) = zlen findings;
}.

Lemma reviewed_skip known f findings rv rv1 rv' judged failure :
  review_step known rv f = (rv1, false) → reviewed known findings rv1 rv' judged failure →
  reviewed known (f :: findings) rv rv' judged failure.
Proof.
  intros Hs [(done & Hd & H2 & Hk & Hp) Hl Ha]. unfold review_step in Hs.
  repeat case_match; simplify_eq; cbn in *; (split; [exists done; split_and!; [by constructor|done|done|lia]|lia|intros Hn; specialize (Ha Hn); rewrite zlen_cons; lia]).
Qed.

Lemma review_step_true known rv f rv1 : review_step known rv f = (rv1, true) →
  hf_fingerprint f ∉ known ∧ rv_skipped_unchanged rv1 = rv_skipped_unchanged rv ∧ rv_skipped_limit rv1 = rv_skipped_limit rv
  ∧ rv_reviewed_pairs rv1 = rv_reviewed_pairs rv + (if is_pair f then 1 else 0)
  ∧ (rv_reviewed_pairs rv <= PAIR_LIMIT → rv_reviewed_pairs rv1 <= PAIR_LIMIT).
Proof.
  unfold review_step, is_pair. case_bool_decide; [done|]. case_bool_decide; [|intros [= <-]; split_and!; try done; lia].
  destruct (PAIR_LIMIT <=? rv_reviewed_pairs rv) eqn:E; [done|]. intros [= <-]; cbn. split_and!; try done; lia.
Qed.

Lemma reviewed_judged known f j findings rv rv1 rv' judged failure :
  review_step known rv f = (rv1, true) → judges f j → reviewed known findings rv1 rv' judged failure →
  reviewed known (f :: findings) rv rv' (j :: judged) failure.
Proof.
  intros (Hf & Hu & Hsl & Hr & Hle)%review_step_true Hj [(done & Hd & H2 & Hk & Hp) Hl Ha]. split.
  - exists (f :: done). split_and!; [by constructor|by constructor|by constructor|].
    rewrite filter_cons. destruct (is_pair f); case_decide; try done; rewrite ?zlen_cons; lia.
  - auto.
  - intros Hn. specialize (Ha Hn). rewrite !zlen_cons. lia.
Qed.

Lemma reviewed_failed known f findings rv rv1 e : review_step known rv f = (rv1, true) →
  reviewed known (f :: findings) rv rv1 [] (Some e).
Proof.
  intros (_ & _ & _ & Hr & Hle)%review_step_true. split; [|exact Hle|done].
  exists []. split_and!; [apply sublist_nil_l|constructor|constructor|]. rewrite Hr. change (zlen _) with 0. destruct (is_pair f); lia.
Qed.

Lemma judge_all_reviewed p m u report known findings : ∀ rv judged s, ∃ rv' more failure s',
  judge_all p m u report known findings rv judged s = (Ok (rv', judged ++ more, failure), s')
  ∧ reviewed known findings rv rv' more failure.
Proof.
  induction findings as [|f findings IH]; intros rv judged s; cbn [judge_all].
  - exists rv, [], None, s. rewrite app_nil_r. split; [done|]. split; [|done|intros _; unfold zlen; cbn [length]; lia].
    exists []. split_and!; [done|constructor|constructor|change (zlen _) with 0; lia].
  - destruct (review_step known rv f) as [rv1 []] eqn:E.
    + unfold cbind, caught. destruct (judge _ _ _ _ _ _) as [[j|e] s1] eqn:Ej.
      * destruct (IH rv1 (judged ++ [j]) s1) as (rv' & more & failure & s' & -> & H).
        exists rv', (j :: more), failure, s'. rewrite <-app_assoc. split; [done|].
        by eapply reviewed_judged; [|eapply judge_judges|].
      * exists rv1, [], (Some e), s1. rewrite app_nil_r. split; [done|]. by apply reviewed_failed.
    + destruct (IH rv1 judged s) as (rv' & more & failure & s' & -> & H).
      exists rv', more, failure, s'. split; [done|]. by eapply reviewed_skip.
Qed.

(** ** The cards *)
(** The action planned for a judged finding: only a verdict that would change
    something, and is not waiting or refused already, is queued. *)
Definition plans (j : JudgedFinding) (a : PlannedAction) : Prop :=
  pl_finding a = jf_finding_uid j ∧ pl_verdict a = jf_verdict_uid j
  ∧ (is_queued a = true → jf_suppressed j = false ∧ dr_action (jf_draft j) ≠ act_keep ∧ is_Some (pl_queue_item a)).

Lemma plan_plans p m u j s : ∃ a s', plan settings p m u j s = (Ok a, s') ∧ plans j a.
Proof.
  unfold plan. destruct (jf_suppressed j) eqn:Es; [by eexists _, _|].
  destruct (dr_action (jf_draft j)) eqn:Ea; cbn [verdict_of_action]; [by eexists _, _|..];
    unfold cbind; (destruct (others_Ok s) as [s1 ->]); unfold caught, cret;
    destruct (on_library _ s1) as [[[card|]|e] s2];
    (eexists _, _; split; [done|]); unfold plans; rewrite ?Ea, ?Es; cbn; (split_and!; [done|done|intros Hq]);
    try (by vm_compute in Hq); by split_and!.
Qed.

Lemma plan_all_plans p m u judged : ∀ s, ∃ actions s',
  plan_all settings p m u judged s = (Ok actions, s') ∧ Forall2 plans judged actions.
Proof.
  induction judged as [|j judged IH]; intros s; cbn [plan_all]; [by eexists _, _|].
  unfold cbind. destruct (plan_plans p m u j s) as (a & s1 & -> & Ha).
  destruct (IH s1) as (actions & s2 & -> & H). eexists _, _; split; [done|]. by constructor.
Qed.

(** ** The receipt *)
Definition on_record (s : curator_state) (run_uid : str) (j : JudgedFinding) : Prop :=
  ∃ row, cu_findings s !! jf_finding_uid j = Some row ∧ cf_run_uid row = run_uid
         ∧ cf_fingerprint row = hf_fingerprint (jf_finding j).

Lemma insert_new_Ok {A} c k (a : A) m s m' s' : add_row c k a m s = (Ok m', s') → m !! k = None ∧ m' = <[k := a]> m ∧ s' = s.
Proof. unfold add_row, crequire, cbind. case_bool_decide; [|done]. by intros [= <- <-]. Qed.

Lemma insert_finding_Ok u now j s s' : insert_finding u now j s = (Ok tt, s') →
  cu_runs s' = cu_runs s ∧ cu_findings s ⊆ cu_findings s' ∧ on_record s' u j.
Proof.
  unfold insert_finding. intros H. apply cbind_Ok in H as (? & ? & [= <- <-] & H).
  apply cbind_Ok in H as (? & s1 & Hr & H). unfold crequire in Hr. destruct (negb _); [|done]. injection Hr as _ <-.
  apply cbind_Ok in H as (? & ? & (Hn & -> & ->)%insert_new_Ok & H).
  apply cbind_Ok in H as (? & ? & [= <- <-] & H).
  apply cbind_Ok in H as (? & ? & (_ & -> & ->)%insert_new_Ok & H). injection H as <-. cbn.
  split_and!; [done|by apply insert_subseteq|]. eexists; split; [apply lookup_insert_eq|done].
Qed.

Lemma on_record_mono s s' u j : cu_findings s ⊆ cu_findings s' → on_record s u j → on_record s' u j.
Proof. intros Hs (row & Hr & H). exists row. split; [by eapply lookup_weaken|done]. Qed.

Lemma insert_findings_Ok u now judged : ∀ s s', each judged (insert_finding u now) s = (Ok tt, s') →
  cu_runs s' = cu_runs s ∧ cu_findings s ⊆ cu_findings s' ∧ Forall (on_record s' u) judged.
Proof.
  induction judged as [|j judged IH]; intros s s' H; cbn [each] in H; [injection H as <-; by split_and!|].
  apply cbind_Ok in H as ([] & s1 & (Hr & Hf & Hj)%insert_finding_Ok & (Hr' & Hf' & Hl)%IH).
  split_and!; [congruence|by etrans|]. constructor; [by eapply on_record_mono|done].
Qed.

Lemma insert_actions_leave now actions : leaves (λ s, (cu_runs s, cu_findings s)) (each actions (insert_action now)).
Proof. apply leaves_each. intros a. unfold insert_action, put_curation. leave. Qed.

Lemma persist_run_Ok u p t report admitted pressure judged actions error s s' :
  persist_run u p t report admitted pressure judged actions error s = (Ok tt, s') →
  ∃ r, cu_runs s' !! u = Some r ∧ cr_run_uid r = u ∧ cr_error r = error
    ∧ cr_verdict_count r = zlen judged ∧ cr_queued_count r = queued_count actions
    ∧ cr_admitted_writes_snapshot r = admitted ∧ cr_pressure_snapshot r = pressure ∧ cr_principal_id r = p
    ∧ ph_findings (cr_report r) = ph_findings report
    ∧ (∀ key, key ≠ lit "model" → aget key (ph_review_summary (cr_report r)) = aget key (ph_review_summary report))
    ∧ Forall (on_record s' u) judged.
Proof.
  unfold persist_run. intros H.
  apply cbind_Ok in H as (? & s1 & _ & H). apply cbind_Ok in H as (report' & s2 & Hm & H). apply cbind_Ok in H as (? & s3 & _ & H).
  unfold record_model in Hm. apply cbind_Ok in Hm as (? & ? & [= <- <-] & [= <- _]).
  unfold ctransaction in H. case_match eqn:E; cbn in H. destruct r as [[]|?]; [injection H as <-|done].
  apply cbind_Ok in E as (now & s4 & _ & E). apply cbind_Ok in E as ([] & s5 & Hrun & E).
  apply cbind_Ok in E as ([] & s6 & (Hr & Hf & Hj)%insert_findings_Ok & E).
  unfold insert_run in Hrun. apply cbind_Ok in Hrun as (? & ? & [= <- <-] & Hrun).
  apply cbind_Ok in Hrun as (? & ? & (_ & -> & ->)%insert_new_Ok & [= <-]).
  pose proof (insert_actions_leave now actions s6) as Hl. rewrite E in Hl. cbn in Hl, Hr. injection Hl as Hl1 Hl2.
  eexists. split; [rewrite Hl1, Hr; apply lookup_insert_eq|]. cbn. split_and!; try done.
  - intros key Hk. by apply aget_aset_ne.
  - eapply Forall_impl; [exact Hj|]. intros j. apply on_record_mono. by rewrite Hl2.
Qed.

(** ** The whole pass *)
(** The tables of the curator's history are append-only, by a trigger. *)
Definition history_kept : Prop := ∀ n s, cu_runs s ⊆ cu_runs (meanwhile n s) ∧ cu_findings s ⊆ cu_findings (meanwhile n s).

Lemma others_kept s s' : history_kept → interleave s = (Ok tt, s') → cu_runs s ⊆ cu_runs s' ∧ cu_findings s ⊆ cu_findings s'.
Proof. intros Hk [= <-]. exact (Hk _ (set_world _ s)). Qed.

Lemma advance_cursor_leaves p a pr : leaves (λ s, (cu_runs s, cu_findings s)) (advance_cursor p a pr).
Proof. unfold advance_cursor. leave. Qed.
Lemma record_progress_leaves p u ph ids f a : leaves (λ s, (cu_runs s, cu_findings s)) (record_progress p u ph ids f a).
Proof. unfold record_progress. leave. Qed.

Lemma strongest_first_perm findings l : strongest_first findings = Ok l → Permutation l findings.
Proof.
  unfold strongest_first. intros (keyed & E & [= <-])%bind_Ok. rewrite sort_by_perm.
  apply res_map_Forall2 in E. apply reflexive_eq. induction E as [|f kf l l' E _ IH]; [done|].
  apply bind_Ok in E as (k & _ & [= <-]). cbn. by rewrite IH.
Qed.

(** What a receipt accounts for. *)
Record accounted (report : PalaceHealthReport) (r : CuratorRun) (rv : review) (judged : list JudgedFinding)
    (actions : list PlannedAction) : Prop := {
  accounted_error : ∃ failure, cr_error r = bounded_error <$> failure
    ∧ ∃ known findings, Permutation findings (ph_findings report) ∧ reviewed known findings no_review rv judged failure;
  accounted_findings : ph_findings (cr_report r) = ph_findings report;
  accounted_summary : Forall (λ kv, aget kv.1 (ph_review_summary (cr_report r)) = Some kv.2) (summary_of rv);
  accounted_verdicts : cr_verdict_count r = zlen judged;
  accounted_plans : Forall2 plans judged actions;
  accounted_queued : cr_queued_count r = queued_count actions;
}.

Lemma run_locked_accounted p u m t s r s' : history_kept → run_locked p u m t s = (Ok r, s') →
  ∃ report rv judged actions, accounted report r rv judged actions ∧ cr_run_uid r = u ∧ Forall (on_record s' u) judged.
Proof.
  intros Hk H. unfold run_locked, Curation.run_locked in H.
  apply cbind_Ok in H as (? & ? & _ & H). apply cbind_Ok in H as (report & ? & _ & H).
  apply cbind_Ok in H as (? & ? & _ & H). apply cbind_Ok in H as (snapshot & ? & _ & H).
  apply cbind_Ok in H as (? & ? & _ & H). apply cbind_Ok in H as (? & ? & _ & H). cbv zeta in H.
  apply cbind_Ok in H as (findings & s1 & Hf & H).
  destruct (strongest_first (ph_findings report)) as [l|] eqn:El; [|done]. injection Hf as -> ->.
  apply strongest_first_perm in El.
  match type of H with context [judge_all ?p ?m ?u ?rep ?known ?l ?rv [] ] =>
    destruct (judge_all_reviewed p m u rep known l rv [] s1) as (rv' & judged & failure & s2 & Ej & Hrev) end.
  unfold cbind at 1 in H. rewrite Ej in H. cbn [app] in H.
  destruct (plan_all_plans p m u judged s2) as (actions & s3 & Ea & Hp).
  unfold cbind at 1 in H. rewrite Ea in H.
  apply cbind_Ok in H as ([] & s4 & (r0 & Hr & Hu & Hre & Hv & Hq & _ & _ & _ & Hfs & Hsum & Hrec)%persist_run_Ok & H).
  apply cbind_Ok in H as ([] & s5 & Ho & H). apply cbind_Ok in H as ([] & s6 & Hadv & H).
  apply cbind_Ok in H as ([] & s7 & Ho' & H).
  destruct (others_kept _ _ Hk Ho) as [Hr5 Hf5], (others_kept _ _ Hk Ho') as [Hr7 Hf7].
  assert (Hs : cu_runs s6 = cu_runs s5 ∧ cu_findings s6 = cu_findings s5).
  { destruct (bounded_error <$> failure); [by injection Hadv as <-|].
    pose proof (advance_cursor_leaves p snapshot.1 snapshot.2 s5) as Hl. rewrite Hadv in Hl. by injection Hl. }
  destruct Hs as [Hs1 Hs2]. unfold run_receipt in H. apply cbind_Ok in H as (? & ? & [= <- <-] & H).
  assert (cu_runs s7 !! u = Some r0) as Hr' by (eapply lookup_weaken; [|exact Hr7]; rewrite Hs1; by eapply lookup_weaken).
  rewrite Hr' in H. injection H as <- <-.
  exists (with_summary (summary_of rv') report), rv', judged, actions. split_and!; [|done|].
  - split; try done; [by eexists; split; [|eexists _, _]|].
    repeat constructor; cbn [fst snd]; rewrite Hsum by done; reflexivity.
  - eapply Forall_impl; [exact Hrec|]. intros j. apply on_record_mono. etrans; [exact Hf5|]. by rewrite <-Hs2.
Qed.

(** A pass that returned a receipt ran under the lock, between two rows of
    progress. *)
Lemma run_inv p m t s r s' : run p m t s = (Ok (Some r), s') → ∃ u s1 s2 s3,
  interleave s = (Ok tt, s1)
  ∧ run_locked p u m t s2 = (Ok r, s3)
  ∧ cu_triggers s2 = cu_triggers s1 ∧ cu_triggers s' = cu_triggers s3 ∧ cu_findings s' = cu_findings s3.
Proof.
  unfold run, Curation.run. intros H. apply cbind_Ok in H as ([] & s1 & Ho & H). apply cbind_Ok in H as (? & ? & [= <- <-] & H).
  destruct (decide _); [done|]. apply cbind_Ok in H as ([] & s1' & [= <-] & H).
  apply cbind_Ok in H as (u & s2 & [= _ <-] & H). apply cbind_Ok in H as (outcome & s4 & E & H).
  apply cbind_Ok in H as (? & ? & [= <- <-] & H). apply cbind_Ok in H as ([] & ? & [= <-] & H).
  destruct outcome as [receipt|]; [|done]. injection H as -> <-.
  unfold caught in E. case_match eqn:Eg; injection E as -> ->.
  unfold run_guarded in Eg. apply cbind_Ok in Eg as (outcome & s5 & E & Eg).
  destruct outcome as [receipt|]; [|done]. injection Eg as -> ->.
  unfold caught in E. case_match eqn:Eg; injection E as -> ->.
  apply cbind_Ok in Eg as ([] & s6 & Hp & Eg). apply cbind_Ok in Eg as (? & s7 & E & Eg).
  apply cbind_Ok in Eg as ([] & s8 & Hp' & [= -> ->]).
  exists u, s1, s6, s7. injection Hp as <-. injection Hp' as <-. by split_and!.
Qed.

Lemma judged_pairs done judged : Forall2 judges done judged →
  zlen (filter (λ j, is_pair (jf_finding j) = true) judged) = zlen (filter (λ f, is_pair f = true) done).
Proof.
  induction 1 as [|f j done judged (_ & _ & Hm & _) _ IH]; [done|].
  assert (is_pair (jf_finding j) = is_pair f) as Hp by (unfold is_pair; by rewrite Hm).
  rewrite !filter_cons. repeat case_decide; rewrite ?zlen_cons, ?IH; congruence.
Qed.

Lemma queued_bound judged actions : Forall2 plans judged actions → 0 <= queued_count actions <= zlen judged.
Proof.
  intros H. apply Forall2_length in H. unfold queued_count, zlen. rewrite H.
  pose proof (length_filter (λ a, is_queued a = true) actions). lia.
Qed.


(** ** The cursors *)
(** No other session writes memories for the time being, and the provider
    never touches the cursors. *)
Definition quiet : Prop :=
  (∀ n s, cu_triggers (meanwhile n s) = cu_triggers s)
  ∧ ∀ f report u m, leaves cu_triggers (provider_verdict f report u m).

Lemma others_quiet : quiet → leaves cu_triggers interleave.
Proof. intros [Hq _] s. cbn. by rewrite Hq. Qed.
Lemma record_progress_quiet p u ph ids f a : leaves cu_triggers (record_progress p u ph ids f a).
Proof. unfold record_progress. leave. Qed.
#[local] Hint Resolve others_quiet record_progress_quiet : curator.

Lemma judge_quiet p m u report f : quiet → leaves cu_triggers (judge p m u report f).
Proof. intros Hq. pose proof (proj2 Hq). unfold judge, require_allowed. leave. Qed.
#[local] Hint Resolve judge_quiet : curator.

Lemma judge_all_quiet p m u report known findings : quiet → ∀ rv judged,
  leaves cu_triggers (judge_all p m u report known findings rv judged).
Proof.
  intros Hq. induction findings as [|f findings IH]; intros rv judged; cbn [judge_all]; [auto with curator|].
  destruct (review_step known rv f) as [? []]; [|apply IH]. leave; apply IH.
Qed.
Lemma plan_all_quiet p m u judged : quiet → leaves cu_triggers (plan_all settings p m u judged).
Proof. intros Hq. induction judged as [|j judged IH]; cbn [plan_all]; unfold plan; leave. Qed.
Lemma persist_run_quiet u p t report a pr judged actions error : quiet →
  leaves cu_triggers (persist_run u p t report a pr judged actions error).
Proof.
  intros Hq. unfold persist_run, record_model, insert_run, insert_finding, insert_action, put_curation. leave.
  apply leaves_transaction; [done|]. leave; apply leaves_each; intros ?; leave.
Qed.
Lemma health_report_quiet p : leaves cu_triggers (health_report duplicate_floor stale_days embedding_enabled p).
Proof. unfold health_report. leave. Qed.

Lemma advance_cursor_Ok p a pr s s' : advance_cursor p a pr s = (Ok tt, s') →
  cu_triggers s' = <[p := moved_cursor p a pr (cu_triggers s !! p)]> (cu_triggers s).
Proof. unfold advance_cursor, cbind, cget, crequire. cbv zeta. destruct (cursor_valid _); [|done]. by intros [= <-]. Qed.
Lemma advance_cursor_Err p a pr s e s' : advance_cursor p a pr s = (Err e, s') → s' = s.
Proof. unfold advance_cursor, cbind, cget, crequire. cbv zeta. destruct (cursor_valid _); [done|]. by intros [= _ <-]. Qed.
Lemma cbind_step {A B} (m : CM A) (f : A → CM B) s a s1 : m s = (Ok a, s1) → cbind m f s = f a s1.
Proof. unfold cbind. by intros ->. Qed.
Lemma cbind_fails {A B} (m : CM A) (f : A → CM B) s e s1 : m s = (Err e, s1) → cbind m f s = (Err e, s1).
Proof. unfold cbind. by intros ->. Qed.

(** Run the first computation of a sequence. *)
Lemma follow {X A B} (view : curator_state → X) (m : CM A) (f : A → CM B) s (P : res exn B * curator_state → Prop) :
  leaves view m → (∀ a s1, m s = (Ok a, s1) → view s1 = view s → P (f a s1)) → (∀ e s1, view s1 = view s → P (Err e, s1)) →
  P (cbind m f s).
Proof. intros Hm Ho He. unfold cbind. specialize (Hm s). destruct (m s) as [[a|e] s1]; [by apply Ho|by apply He]. Qed.

(** What becomes of the cursors. *)
Definition cursors_follow (p : str) (before : gmap str CuratorTriggerState) (receipt : option CuratorRun)
    (after : gmap str CuratorTriggerState) : Prop :=
  match receipt with
  | Some r =>
      if run_completed r then
        after = <[p := moved_cursor p (cr_admitted_writes_snapshot r) (cr_pressure_snapshot r) (before !! p)]> before
        ∧ (cr_admitted_writes_snapshot r, cr_pressure_snapshot r)
          = from_option (λ t, (ts_admitted_writes t, ts_pressure_events t)) (0, 0) (before !! p)
      else after = before
  | None => after = before
  end.
Definition outcome_of (x : res exn CuratorRun) : option CuratorRun := match x with Ok r => Some r | Err _ => None end.

Lemma run_locked_cursors p u m t s : history_kept → quiet →
  cursors_follow p (cu_triggers s) (outcome_of (run_locked p u m t s).1) (cu_triggers (run_locked p u m t s).2).
Proof.
  intros Hk Hq. unfold run_locked, Curation.run_locked.
  match goal with |- cursors_follow _ _ (outcome_of (?m s).1) _ =>
    change ((λ x, cursors_follow p (cu_triggers s) (outcome_of x.1) (cu_triggers x.2)) (m s)) end.
  eapply (follow cu_triggers); [auto with curator|intros [] s1 _ E1|by intros].
  eapply (follow cu_triggers); [apply health_report_quiet|intros report s2 _ E2|intros e s2 E2; cbn; congruence].
  eapply (follow cu_triggers); [auto with curator|intros [] s3 _ E3|intros e s3 E3; cbn; congruence].
  eapply (follow cu_triggers); [unfold trigger_snapshot; leave|intros snapshot s4 Es E4|intros e s4 E4; cbn; congruence].
  assert (snapshot = from_option (λ t, (ts_admitted_writes t, ts_pressure_events t)) (0, 0) (cu_triggers s !! p)) as Hsn.
  { injection Es as <- _. rewrite E3, E2, E1. by destruct (cu_triggers s !! p). }
  clear Es. rewrite E3, E2, E1 in E4. clear s1 s2 s3 E1 E2 E3.
  eapply (follow cu_triggers); [auto with curator|intros [] s5 _ E5|intros e s5 E5; cbn; congruence].
  eapply (follow cu_triggers); [auto with curator|intros ? s6 _ E6|intros e s6 E6; cbn; congruence]. cbv zeta.
  eapply (follow cu_triggers); [leave|intros findings s7 _ E7|intros e s7 E7; cbn; congruence].
  eapply (follow cu_triggers); [by apply judge_all_quiet|intros [[rv judged] failure] s8 _ E8|intros e s8 E8; cbn; congruence].
  eapply (follow cu_triggers); [by apply plan_all_quiet|intros actions s9 _ E9|intros e s9 E9; cbn; congruence].
  eapply (follow cu_triggers); [by apply persist_run_quiet|intros [] s10 (r & Hr & _ & He & _ & _ & Ha & Hp & _)%persist_run_Ok E10
    |intros e s10 E10; cbn; congruence].
  eapply (follow cu_triggers); [auto with curator|intros [] s11 Ho E11|intros e s11 E11; cbn; congruence].
  destruct (others_kept _ _ Hk Ho) as [Hr11 _].
  rewrite E10, E9, E8, E7, E6, E5, E4 in E11. clear E4 E5 E6 E7 E8 E9 E10.
  assert (cu_runs s11 !! u = Some r) as Hr' by by eapply lookup_weaken.
  destruct (bounded_error <$> failure) as [err|].
  - rewrite (cbind_step (cret tt) _ s11 tt s11) by done.
    eapply (follow cu_triggers); [auto with curator|intros [] s12 Ho' E12|intros e s12 E12; cbn; congruence].
    destruct (others_kept _ _ Hk Ho') as [Hr12 _]. unfold run_receipt, cbind, cget.
    rewrite (lookup_weaken _ _ _ _ Hr' Hr12). cbn. unfold run_completed. rewrite He. congruence.
  - destruct (advance_cursor p snapshot.1 snapshot.2 s11) as [[[]|e] s12] eqn:Eadv.
    + pose proof (advance_cursor_leaves p snapshot.1 snapshot.2 s11) as Hl. rewrite Eadv in Hl. injection Hl as Hl _.
      apply advance_cursor_Ok in Eadv as Et. rewrite E11 in Et. rewrite (cbind_step _ _ _ _ _ Eadv).
      destruct (others_Ok s12) as [s13 Ho']. rewrite (cbind_step _ _ _ _ _ Ho').
      destruct (others_kept _ _ Hk Ho') as [Hr13 _]. pose proof (others_quiet Hq s12) as E13. rewrite Ho' in E13. cbn in E13.
      unfold run_receipt, cbind, cget. rewrite (lookup_weaken (cu_runs s12) _ u r) by (try done; by rewrite Hl).
      cbn. unfold run_completed. rewrite He, Ha, Hp, E13, Et. split; [done|]. rewrite <-Hsn. by destruct snapshot.
    + rewrite (cbind_fails _ _ _ _ _ Eadv). apply advance_cursor_Err in Eadv as ->. cbn. congruence.
Qed.

Lemma run_guarded_cursors p u m t s : history_kept → quiet →
  let x := run_guarded settings duplicate_floor stale_days embedding_enabled p u m t s in
  cursors_follow p (cu_triggers s) (outcome_of x.1) (cu_triggers x.2).
Proof.
  intros Hk Hq x. subst x. unfold run_guarded, caught, cbind, cret, craise.
  match goal with |- context [record_progress p u run_started ?a ?b ?c s] =>
    pose proof (record_progress_quiet p u run_started a b c s) as E1; destruct (record_progress p u run_started a b c s) as [[[]|e] s1] end;
    [|cbn in *; congruence].
  pose proof (run_locked_cursors p u m t s1 Hk Hq) as Hl. cbn in E1. rewrite E1 in Hl.
  destruct (run_locked p u m t s1) as [[r|e] s2]; cbn in Hl |- *; [exact Hl|exact Hl].
Qed.

End service.
