(* ===== verification/CurationSamples.v ===== *)
(** * Sample passes of the curator

    The theorems of [CurationFacts] and [DiagnosticsFacts] at a Palace of two
    memories that look alike: a pass that queues a card, a pass beside a
    session that writes, and one beside a session that edits. *)
From S2P Require Import Prelude PyStr PyFloat PyDecimal PyJson JsonText Ids Axes Scorer Features Embeddings Store MemoryDb MemoryService.
From S2P Require Import Queue Sql Prepare PrepareSamples Learner Nominate Spend M2kValues Diagnostics DiagnosticsFacts Curation CurationFacts.
Open Scope Z_scope.

Definition pass_sha : Sha256 := {| sha256_hex := λ s, s |}.
Definition pass_square : LibmSquare := {| libm_square := λ x, fmul x x |}.
Definition pass_order : Collation := {| text_compare := str_compare |}.
Definition pass_axes : AxisDecoder := {| decode_axis := λ _, None |}.
Definition pass_hash : TextHash := {| hashtextextended := zlen |}.
Definition pass_text : ExceptionText := {| exception_str := λ _, []; exception_name := λ _, lit "Exception" |}.
Definition pass_embed : EmbeddingProvider := {|
  provider_embed := λ _, Ok [[]]; provider_model := lit "m"; provider_dimensions := 2 |}.
(** Pairs contradict each other; single memories are kept. *)
Definition pass_provider : VerdictProvider := {|
  provider_verdict := λ f _ _ _, cret {|
    dr_action := if is_pair f then act_contradict else act_keep; dr_rationale := lit "why"; dr_label := None; dr_body := None;
    dr_keywords := None; dr_children := None |} |}.
#[local] Existing Instances pass_sha pass_square pass_order pass_axes pass_hash pass_text pass_embed pass_provider
  sample_env sample_postgres sample_tokenizer ascii_unicode sample_libm ascii_digits.

Definition pass_settings : MemorySettings :=
  {| dedup_dup := f_ratio 9 10; dedup_sim := f_ratio 8 10; label_max := 64; memory_max_tokens := 100 |}.

Definition with_units (us : list MemoryUnit) (d : db) : db := {|
  units := list_to_map ((λ u, (m_id u, u)) <$> us); revisions := revisions d; edges := edges d; items := items d;
  decisions := decisions d; threads := threads d; events := events d; next_event_id := next_event_id d;
  scorer_configs := scorer_configs d; curator_verdicts := curator_verdicts d; curator_actions := curator_actions d |}.
Definition fact (id : uuid) (revision : Z) : MemoryUnit := {|
  m_id := id; m_principal_id := lit "p"; m_label := uuid_str id; m_body := lit "green"; m_kind := Kfact;
  m_keywords := [lit "tea"; lit "green"]; m_embedding := [f1; f1]; m_embedding_model := lit "m";
  m_project_key := None; m_thread_origin := None; m_origin_thread_id := None; m_origin_path := None;
  m_origin_location := None; m_origin_locations := []; m_run_id := None; m_origin_agent := None; m_pin := false;
  m_status := Sactive; m_revision := revision; m_stats := []; m_bias := f0; m_created_at := 0; m_updated_at := 0 |}.

Definition pass_start : curator_state := {|
  cu_world := {| w_db := with_units [fact 1 1; fact 2 1] empty_db; w_tick := 0; w_tx_now := 0; w_in_tx := false |};
  cu_runs := ∅; cu_findings := ∅;
  cu_triggers := {[lit "p" := {| ts_principal_id := lit "p"; ts_admitted_writes := 2; ts_last_run_writes := 0;
                                 ts_pressure_events := 0; ts_last_run_pressure := 0 |}]};
  cu_progress := []; cu_spend := ∅; cu_locks := ∅; cu_policies := []; cu_run_models := ∅ |}.

Definition alone : Bystanders := {| meanwhile := λ _ s, s |}.
Abbreviation pass_of by_ := (run (BY := by_) pass_settings (f_ratio 9 10) 30 false (lit "p") (lit "m") tr_manual pass_start).

(** Another session writes a third memory between the report and the count of
    the writes. *)
Definition late_writer : Bystanders := {| meanwhile := λ n s,
  if decide (n = 5%nat) then
    set_triggers (tick_curator_write None (fact 3 1) (cu_triggers s))
      (set_world (with_db (with_units [fact 1 1; fact 2 1; fact 3 1] (cu_db s)) (cu_world s)) s)
  else s |}.
(** Another session edits the first memory after the report. *)
Definition editor : Bystanders := {| meanwhile := λ n s,
  if decide (n = 6%nat) then set_world (with_db (with_units [fact 1 2; fact 2 1] (cu_db s)) (cu_world s)) s else s |}.

Definition receipt_of (x : res exn (option CuratorRun) * curator_state) : option CuratorRun :=
  match x.1 with Ok r => r | Err _ => None end.
Lemma returned x : Store.some (receipt_of x) = true → ∃ r s', x = (Ok (Some r), s').
Proof. destruct x as [[[r|]|e] s']; [by eexists _, _|done..]. Qed.

Lemma alone_history : history_kept (BY := alone).
Proof. by intros n s. Qed.
Lemma alone_quiet : CurationFacts.quiet (BY := alone).
Proof. by split. Qed.

(** The lone pass judges its one pair and queues a card. *)
Lemma pass_queues : option_map (λ r, (cr_verdict_count r, cr_queued_count r, run_completed r)) (receipt_of (pass_of alone))
  = Some (1, 1, true).
Proof. vm_compute. reflexivity. Qed.



Lemma clusters_components_witness :
  (∀ a b : uuid, (a, b) ∈ [(1%N, 2%N)] → a ∈ [1%N; 2%N; 3%N] ∧ b ∈ [1%N; 2%N; 3%N]) ∧
  ∃ cs, clusters [(1%N, 2%N)] [1%N; 2%N; 3%N] = Some cs ∧ Forall (cluster_ok [(1%N, 2%N)]) cs.
Proof.
  assert (∀ a b : uuid, (a, b) ∈ [(1%N, 2%N)] → a ∈ [1%N; 2%N; 3%N] ∧ b ∈ [1%N; 2%N; 3%N]) as H.
  { intros a b [= -> ->]%list_elem_of_singleton. by split; repeat constructor. }
  split; [exact H|]. destruct (clusters_components [(1%N, 2%N)] [1%N; 2%N; 3%N] H) as (cs & E & Hok & _).
  exists cs. split; [exact E|exact Hok].
Defined.

(** ** What the passes show *)

(** A write that commits between the report and the count of the writes is
    marked as processed by a pass that never saw it: nothing is due, and the
    report has two of the three active memories. *)
Theorem late_write_processed : ∃ r s', pass_of late_writer = (Ok (Some r), s')
  ∧ run_completed r = true ∧ ph_active_units (cr_report r) = 2 ∧ zlen (active_memories (lit "p") (cu_db s')) = 3
  ∧ cr_admitted_writes_snapshot r = 3 ∧ due_of 1 1 <$> cu_triggers s' !! lit "p" = Some None.
Proof.
  destruct (returned (pass_of late_writer)) as (r & s' & E); [vm_compute; reflexivity|].
  exists r, s'. split; [exact E|].
  assert (match pass_of late_writer with
          | (Ok (Some r), s') => (run_completed r, ph_active_units (cr_report r), zlen (active_memories (lit "p") (cu_db s')),
              cr_admitted_writes_snapshot r, due_of 1 1 <$> cu_triggers s' !! lit "p")
          | _ => (false, 0, 0, 0, None) end = (true, 2, 3, 3, Some None)) as H by (vm_compute; reflexivity).
  rewrite E in H. injection H as -> -> -> -> ->. split_and!; reflexivity.
Qed.

(** The guard against a target that changed after its diagnosis compares with
    the revision the card was made at: an edit between the report and the card
    goes unseen. *)
Theorem edited_after_diagnosis : ∃ r s', pass_of editor = (Ok (Some r), s')
  ∧ cr_queued_count r = 1
  ∧ (f ← head (ph_findings (cr_report r)); aget (lit "memories") (hf_evidence f)) = Some (JList [memory_evidence (fact 1 1); memory_evidence (fact 2 1)])
  ∧ q_candidate_revision <$> rows (items (cu_db s')) = [Some 2].
Proof.
  destruct (returned (pass_of editor)) as (r & s' & E); [vm_compute; reflexivity|].
  exists r, s'. split; [exact E|].
  assert (match pass_of editor with
          | (Ok (Some r), s') => (cr_queued_count r, (f ← head (ph_findings (cr_report r)); aget (lit "memories") (hf_evidence f)),
              q_candidate_revision <$> rows (items (cu_db s')))
          | _ => (0, None, []) end
          = (1, Some (JList [memory_evidence (fact 1 1); memory_evidence (fact 2 1)]), [Some 2])) as H by (vm_compute; reflexivity).
  rewrite E in H. injection H as -> -> ->. split_and!; reflexivity.
Qed.
