(* ===== verification/CuratorProvider.v ===== *)
(** * The judge of the curator: [src/src/spine/curation/provider.py], [policy.py]

    One finding goes to a language model behind an OpenRouter endpoint; what
    comes back is a verdict that obeys its contract, or an error, and each
    answered request leaves a receipt in the spend ledger.  The endpoint, the
    model catalog and the JSON parser of pydantic are parameters.

    The passes take their provider as an interface; the theorem shows what this
    one gives them: valid verdicts, at most two receipts a verdict, and nothing
    else changed. *)
From S2P Require Import Prelude PyStr PyFloat PyDecimal Ids PyJson JsonText Store Policy Catalog Resolver Deployment Sql Spend.
From S2P Require Import SpendFacts Diagnostics Curation CurationFacts.
Open Scope Z_scope.

(** ** The model policy of a Palace: [policy.py] *)
Definition OPENROUTER_URL : str := lit "https://openrouter.ai/api/v1".

(** [s.replace(":", "/", 1)]. *)
Definition slashed (s : str) : str := match split_once 58 s with Some (a, b) => a ++ lit "/" ++ b | None => s end.

(** [CuratorPolicy.__init__]. *)
Definition default_policy (default_model base_url : str) : str :=
  lit "pinned:" ++ (if bool_decide (base_url = OPENROUTER_URL) && negb (startswith OPENROUTER default_model)
                    then OPENROUTER ++ slashed default_model else default_model).

Section policy.
Context {EN : Env} {CO : Collation} {DD : DecimalDigits}.

Definition policy_compare (a b : CuratorModelPolicy) : comparison :=
  then_by (Z.compare (mp_changed_at a) (mp_changed_at b)) (text_compare (mp_event_uid a) (mp_event_uid b)).
(** [read]. *)
Definition read_policy (default_ : str) (principal_id : str) (s : curator_state) : str :=
  match last (sort_by (leb_of policy_compare) (filter (λ p, mp_principal_id p = principal_id) (cu_policies s))) with
  | Some p => match mp_policy p with [] => default_ | policy => policy end
  | None => default_
  end.

Definition policy_raised (e : policy_exn) : exn :=
  match e with
  | PyExn e => Builtin e
  | ModelPolicyConfigurationError msg | NamedModelResolutionError msg => Builtin (ValueError msg)
  | ModelCatalogUnavailable msg => RuntimeError msg
  end.
Definition of_policy {A} (r : res policy_exn A) : CM A :=
  match r with Ok a => cret a | Err e => craise (policy_raised e) end.

Definition set_policies (x : list CuratorModelPolicy) (s : curator_state) : curator_state := {|
  cu_world := cu_world s; cu_runs := cu_runs s; cu_findings := cu_findings s; cu_triggers := cu_triggers s;
  cu_progress := cu_progress s; cu_spend := cu_spend s; cu_locks := cu_locks s;
  cu_policies := x; cu_run_models := cu_run_models s |}.

(** [save]. *)
Definition save_policy (principal_id policy : str) : CM str :=
  of_policy (parse_model_policy policy) ;~
  event_uid <~ on_library mint;
  changed_at <~ on_library clock_timestamp;
  s <~ cget;
  cput (set_policies (cu_policies s ++
    [{| mp_event_uid := event_uid; mp_principal_id := principal_id; mp_policy := policy; mp_changed_at := changed_at |}])) ;~
  cret policy.
End policy.

(** ** The contract of a verdict: [CuratorVerdictDraft] *)
Definition sized (lo : Z) (hi : option Z) (n : Z) : bool := (lo <=? n) && match hi with Some h => n <=? h | None => true end.
Definition known {A} (f : A → bool) (o : option A) : bool := match o with Some a => f a | None => true end.

Definition child_ok (c : CuratorSplitChild) : bool :=
  sized 1 (Some 64) (zlen (ch_label c)) && sized 1 None (zlen (ch_body c)) && sized 2 (Some 5) (zlen (ch_keywords c)).

(** [require_action_payload]. *)
Definition payload_ok (d : CuratorVerdictDraft) : bool :=
  let replacement := bool_decide (dr_action d ∈ [act_merge; act_supersede]) in
  let some {A} (o : option A) := match o with Some _ => true | None => false end in
  negb (replacement && negb (some (dr_label d) && some (dr_body d) && some (dr_keywords d)))
  && negb (bool_decide (dr_action d = act_keyword_repair) && negb (some (dr_keywords d)))
  && negb (bool_decide (dr_action d = act_split)
           && negb match dr_children d with Some l => 2 <=? zlen l | None => false end)
  && negb (negb replacement && (some (dr_label d) || some (dr_body d)))
  && negb (negb (bool_decide (dr_action d = act_split)) && some (dr_children d)).

Definition draft_ok (d : CuratorVerdictDraft) : bool :=
  sized 1 (Some 2000) (zlen (dr_rationale d))
  && known (λ l : str, zlen l <=? 64) (dr_label d)
  && known (λ l : list str, sized 2 (Some 5) (zlen l)) (dr_keywords d)
  && known (forallb child_ok) (dr_children d)
  && payload_ok d.

(** *** Reading one from JSON; a field that is not declared is refused *)
Definition action_of (s : str) : option CuratorActionName :=
  find (λ a, bool_decide (action_str a = s))
    [act_keep; act_merge; act_contradict; act_supersede; act_retire; act_keyword_repair; act_split].
Definition memory_kind_of (s : str) : option MemoryKind :=
  find (λ k, bool_decide (kind_str k = s)) [Kfact; Kpreference; Kprocedure; Kproject_note; Kpersona; Kpinned].
Definition texts_of (j : json) : option (list str) :=
  match j with JList l => mapM as_str l | _ => None end.

Definition only_fields (names : list string) (kv : list (str * json)) : option unit :=
  if forallb (λ p : str * json, existsb (λ name, bool_decide (p.1 = lit name)) names) kv then Some tt else None.
(** An optional field: absent or null. *)
Definition maybe_field {A} (key : string) (read : json → option A) (kv : list (str * json)) : option (option A) :=
  match aget (lit key) kv with
  | None | Some JNull => Some None
  | Some v => Some <$> read v
  end.
Definition needed_field {A} (key : string) (read : json → option A) (kv : list (str * json)) : option A :=
  v ← aget (lit key) kv; read v.

Definition child_of (j : json) : option CuratorSplitChild :=
  match j with
  | JObj kv =>
      only_fields ["label"; "body"; "kind"; "keywords"]%string kv ≫= λ _,
      label ← needed_field "label" as_str kv;
      body ← needed_field "body" as_str kv;
      kind ← needed_field "kind" (λ v, t ← as_str v; memory_kind_of t) kv;
      keywords ← needed_field "keywords" texts_of kv;
      Some {| ch_label := label; ch_body := body; ch_kind := kind; ch_keywords := keywords |}
  | _ => None
  end.
Definition draft_of (j : json) : option CuratorVerdictDraft :=
  match j with
  | JObj kv =>
      only_fields ["action"; "rationale"; "label"; "body"; "keywords"; "children"]%string kv ≫= λ _,
      action ← needed_field "action" (λ v, t ← as_str v; action_of t) kv;
      rationale ← needed_field "rationale" as_str kv;
      label ← maybe_field "label" as_str kv;
      body ← maybe_field "body" as_str kv;
      keywords ← maybe_field "keywords" texts_of kv;
      children ← maybe_field "children" (λ v, match v with JList l => mapM child_of l | _ => None end) kv;
      let d := {| dr_action := action; dr_rationale := rationale; dr_label := label; dr_body := body;
                  dr_keywords := keywords; dr_children := children |} in
      if draft_ok d then Some d else None
  | _ => None
  end.

(** ** Texts *)

(** [_strip_fence]. *)
Definition FENCE : str := lit "```".
Definition strip_fence (value : str) : str :=
  let stripped := strip value in
  if startswith FENCE stripped && endswith FENCE stripped then
    match split_once 10 stripped with
    | Some (_, rest) => strip (take (length rest - 3) rest)
    | None => stripped
    end
  else stripped.

(** [_openrouter_model]. *)
Definition openrouter_model (model : str) : str :=
  match split_once 58 model with
  | Some (provider, name) => if bool_decide (provider = lit "openrouter") then name else provider ++ lit "/" ++ name
  | None => model
  end.

(** [_json_int]. *)
Definition token_count (value : option json) : json :=
  match value with Some (JInt z) => if 0 <=? z then JInt z else JNull | _ => JNull end.

Definition surgeon_order : list str := lit <$> ["keep"; "edge"; "edit"; "merge"; "rewrite"]%string.
Definition prompt_constraints : list str := lit <$>
  ["A merge must preserve every fact and qualifier from every source; combine losslessly, never summarize away distinct information.";
   "A merge must retain every source qualifier, including eligibility, payment location and payee. Rewording a detail does not make it disposable; if you cannot preserve every detail in the combined body, choose keep.";
   "Similar relevance scores nominate a pair, but do not establish semantic duplication. Choose keep if the sources contain independent facts.";
   "If the sources assert incompatible values for the same fact, choose contradict; never combine competing truth claims into a merge. Choose supersede only when a source explicitly says it replaces the other.";
   "split only on semantic boundaries"; "use 2-5 distinct lowercase keywords"; "when uncertain choose keep"]%string.
Definition SYSTEM_PROMPT : str := lit
  "You are a minimally invasive memory curator. Read the supplied deterministic finding. Return one JSON object matching the schema. Judge only; never claim you changed data. Prefer keep when uncertain.".

(** [_verdict_prompt]; [schema] is the JSON schema pydantic derives. *)
Definition verdict_prompt (schema : json) (f : HealthFinding) (report : PalaceHealthReport) : str := json_dumps_ascii (JObj
  [(lit "health_report", JObj
     [(lit "format", JStr (lit "nocturne.palace-health")); (lit "version", JStr (lit "1"));
      (lit "corpus_revision", JStr (ph_corpus_revision report)); (lit "active_units", JInt (ph_active_units report))]);
   (lit "finding", JObj
     [(lit "ordinal", JInt (hf_ordinal f)); (lit "kind", JStr (finding_kind_str (hf_kind f)));
      (lit "memory_ids", jstrs (uuid_str <$> hf_memory_ids f)); (lit "evidence", JObj (hf_evidence f));
      (lit "fingerprint", JStr (hf_fingerprint f))]);
   (lit "allowed_actions", jstrs (action_str <$> allowed_actions (hf_kind f))); (lit "schema", schema);
   (lit "surgeon_order", jstrs surgeon_order); (lit "constraints", jstrs prompt_constraints)]).

Definition message (role : string) (content : str) : json :=
  JObj [(lit "role", JStr (lit role)); (lit "content", JStr content)].

(** ** The endpoint *)
Record verdict_response := { vr_status : Z; vr_body : option json; vr_request_id : option str }.
(** A POST, which fails or is answered; pydantic's parser and its account of
    what is wrong with a text; the answers of the catalog client. *)
Class VerdictEndpoint := {
  post_verdict : nat → json → option verdict_response;
  verdict_json : str → option json;
  verdict_fault : str → str;
  verdict_schema : json;
  catalog_load : nat → res policy_exn ModelCatalog;
  catalog_named : nat → str → named_answer;
}.

Definition CuratorProviderError : exn := RuntimeError "CuratorProviderError".

Section provider.
Context {EN : Env} {CO : Collation} {DD : DecimalDigits} {DL : DecimalLog} {PR : PyRepr} {VE : VerdictEndpoint}.
Context (static_model base_url : str) (policy_default : option str).

Definition provider_name : str := if bool_decide (base_url = OPENROUTER_URL) then lit "openrouter" else lit "openai".

(** [Decimal(str(raw))]: [None] when it is no number. *)
Definition cost_number (raw : json) : option (option dec) :=
  match raw with
  | JInt z => Some (Some (dec_of_Z z))
  | JFloat x => if isfinite x then parse_decimal (float_repr x) else Some None
  | JStr s => parse_decimal s
  | JNull | JBool _ | JList _ | JObj _ => None
  end.

(** The entries of a mapping; none of anything else. *)
Definition entries (j : json) : list (str * json) := match j with JObj kv => kv | _ => [] end.

Definition receipt_event (uid : str) (ts : Z) (principal_id machine_id run_uid model : str) (f : HealthFinding)
    (response : verdict_response) (payload : json) (cost : option dec) : SpendEventInput :=
  let data := entries payload in
  let usage := entries (jget_or_null (lit "usage") data) in
  {| se_event_uid := uid; se_ts := ts; se_product_type := llm_request; se_quantity_type := lit "request";
     se_unit_of_measure := lit "request"; se_quantity := dec_of_Z 1; se_cost_usd := cost;
     se_basis := match cost with Some _ => measured | None => estimated end; se_behavior := variable; se_purpose := curation;
     se_principal_id := Some principal_id; se_machine_id := Some machine_id; se_origin_agent := Some (lit "maintenance");
     se_thread_id := None; se_run_id := Some run_uid; se_prompt_id := None; se_memory_id := None;
     se_model := Some match jget_or_null (lit "model") data with
                      | JStr [] => model | JStr s => s
                      | v => if py_truthy v then py_repr v else model
                      end;
     se_provider := Some provider_name; se_quantization := None;
     se_ref := match vr_request_id response with
               | Some (c :: s) => c :: s
               | _ => lit "curator:" ++ run_uid ++ lit ":" ++ str_of_Z (hf_ordinal f)
               end;
     se_meta := [(lit "finding_kind", JStr (finding_kind_str (hf_kind f)));
                 (lit "prompt_tokens", token_count (aget (lit "prompt_tokens") usage));
                 (lit "completion_tokens", token_count (aget (lit "completion_tokens") usage))] |}.

Definition set_spend (x : ledger) (s : curator_state) : curator_state := {|
  cu_world := cu_world s; cu_runs := cu_runs s; cu_findings := cu_findings s; cu_triggers := cu_triggers s;
  cu_progress := cu_progress s; cu_spend := x; cu_locks := cu_locks s;
  cu_policies := cu_policies s; cu_run_models := cu_run_models s |}.
Definition set_run_models (x : gmap str (str * str)) (s : curator_state) : curator_state := {|
  cu_world := cu_world s; cu_runs := cu_runs s; cu_findings := cu_findings s; cu_triggers := cu_triggers s;
  cu_progress := cu_progress s; cu_spend := cu_spend s; cu_locks := cu_locks s;
  cu_policies := cu_policies s; cu_run_models := x |}.

(** [SpendService.append] of one receipt, which pydantic has validated. *)
Definition append_receipt (e : SpendEventInput) : CM unit :=
  crequire (event_valid e) (Builtin (ValueError "SpendEventInput")) ;~
  s <~ cget;
  match append [e] (cu_spend s) with
  | Ok (_, l) => cput (set_spend l)
  | Err _ => craise (RuntimeError "SpendService")
  end.

(** [_receipt]. *)
Definition receipt (principal_id machine_id run_uid model : str) (f : HealthFinding) (response : verdict_response) (payload : json) :
    CM unit :=
  let raw := jget_or_null (lit "cost") (entries (jget_or_null (lit "usage") (entries payload))) in
  let cost := default None (Some <$> cost_number raw) in
  uid <~ on_library mint;
  ts <~ on_library clock_timestamp;
  match cost with
  | Some None => craise (Builtin (ValueError "SpendEventInput"))
  | Some (Some c) => append_receipt (receipt_event uid ts principal_id machine_id run_uid model f response payload (Some c))
  | None => append_receipt (receipt_event uid ts principal_id machine_id run_uid model f response payload None)
  end.

(** [payload["choices"][0]["message"]["content"]]. *)
Definition content_of (payload : json) : option str :=
  choices ← jget (lit "choices") payload;
  match choices with
  | JList (choice :: _) => m ← jget (lit "message") choice; c ← jget (lit "content") m; as_str c
  | _ => None
  end.

(** [_verdict_content]. *)
Definition verdict_content (principal_id machine_id run_uid model : str) (f : HealthFinding) (messages : list json) : CM str :=
  n <~ on_library tick;
  match post_verdict n (JObj [(lit "model", JStr model); (lit "temperature", JInt 0); (lit "messages", JList messages);
                              (lit "response_format", JObj [(lit "type", JStr (lit "json_object"))])]) with
  | None => craise CuratorProviderError
  | Some response =>
      if (vr_status response <? 200) || (300 <=? vr_status response) then craise CuratorProviderError
      else
        match vr_body response with
        | None => craise CuratorProviderError
        | Some payload =>
            receipt principal_id machine_id run_uid model f response payload ;~
            match content_of payload with Some content => cret content | None => craise CuratorProviderError end
        end
  end.

(** The attempts that remain: a verdict that breaks its contract goes back with
    the rule it broke. *)
Fixpoint ask (attempts : nat) (principal_id machine_id run_uid model : str) (f : HealthFinding) (messages : list json) :
    CM CuratorVerdictDraft :=
  match attempts with
  | O => craise CuratorProviderError
  | S attempts =>
      content <~ verdict_content principal_id machine_id run_uid model f messages;
      match verdict_json (strip_fence content) ≫= draft_of with
      | Some draft => cret draft
      | None =>
          ask attempts principal_id machine_id run_uid model f (messages ++
            [message "assistant" content;
             message "user" (lit "That verdict was invalid: " ++ verdict_fault (strip_fence content)
                             ++ lit ". Return the complete JSON verdict.")])
      end
  end.

(** The model the policy of the Palace selects, for a new resolver. *)
Definition resolved_model (policy run_uid : str) (n : nat) : res policy_exn str :=
  r ← new_resolver policy static_model 1000000 true;
  match resolve_begin r run_uid with
  | (answered x, _) => t_model <$> x
  | (_, r') =>
      match s_policy r' with
      | policy_pinned model => t_model <$> (resolve_end_named r' run_uid (resolve_named r' run_uid model (catalog_named n))).1
      | _ => t_model <$> (resolve_end_catalog r' run_uid (catalog_load n)).1
      end
  end.

(** The model of the run, chosen at its first finding. *)
Definition choose_model (principal_id run_uid : str) : CM str :=
  s <~ cget;
  selected <~ (match policy_default with
               | None => cret static_model
               | Some default_ =>
                   n <~ on_library tick;
                   of_policy (resolved_model (read_policy default_ principal_id s) run_uid n)
               end);
  let model := if bool_decide (base_url = OPENROUTER_URL) then openrouter_model selected else selected in
  cput (λ s, set_run_models (<[principal_id := (run_uid, model)]> (cu_run_models s)) s) ;~
  cret model.
Definition run_model (principal_id run_uid : str) : CM str :=
  s <~ cget;
  match cu_run_models s !! principal_id with
  | Some (run, model) => if bool_decide (run = run_uid) then cret model else choose_model principal_id run_uid
  | None => choose_model principal_id run_uid
  end.

(** [OpenRouterCuratorProvider.verdict]. *)
Definition verdict (f : HealthFinding) (report : PalaceHealthReport) (run_uid machine_id : str) : CM CuratorVerdictDraft :=
  let prompt := verdict_prompt verdict_schema f report in
  let principal_id := ph_principal_id report in
  model <~ run_model principal_id run_uid;
  ask 2 principal_id machine_id run_uid model f [message "system" SYSTEM_PROMPT; message "user" prompt].

Definition openrouter_provider : VerdictProvider := {| provider_verdict := verdict |}.
End provider.

(** [UnavailableCuratorProvider]. *)
Definition unavailable_provider : VerdictProvider := {| provider_verdict := λ _ _ _ _, craise CuratorProviderError |}.

(** ** What the judge promises to a pass *)
Lemma draft_of_ok j d : draft_of j = Some d → draft_ok d = true.
Proof.
  destruct j as [| | | | | |kv]; [done..|]. unfold draft_of. intros H.
  repeat match type of H with
  | (if ?b then _ else _) = Some _ => destruct b eqn:E; [|done]
  | (_ ≫= _) = Some _ => apply bind_Some in H as (? & _ & H)
  end. by injection H as <-.
Qed.

Section provider.
Context {EN : Env} {CO : Collation} {DD : DecimalDigits} {DL : DecimalLog} {PR : PyRepr} {VE : VerdictEndpoint}.
Context (static_model base_url : str) (policy_default : option str).

(** The state without the ledger, the cache of models and the clock. *)
Definition beyond (s : curator_state) :=
  (cu_db s, cu_runs s, cu_findings s, cu_triggers s, cu_progress s, cu_locks s, cu_policies s).

Lemma beyond_tick : leaves beyond (on_library tick). Proof. done. Qed.
Lemma beyond_mint : leaves beyond (on_library mint). Proof. done. Qed.
Lemma beyond_clock : leaves beyond (on_library clock_timestamp). Proof. done. Qed.
#[local] Hint Resolve beyond_tick beyond_mint beyond_clock : curator.

(** [events] are receipts of the run, and all the ledger gained. *)
Definition of_run (principal_id run_uid : str) (e : SpendEventInput) : Prop :=
  event_valid e = true ∧ se_run_id e = Some run_uid ∧ se_purpose e = curation ∧ se_principal_id e = Some principal_id.
Definition spent (principal_id run_uid : str) (events : list SpendEventInput) (s s' : curator_state) : Prop :=
  beyond s' = beyond s ∧ Forall (of_run principal_id run_uid) events ∧ cu_spend s' = insert_missing events (cu_spend s).

Lemma spent_nil p u s s' : beyond s' = beyond s → cu_spend s' = cu_spend s → spent p u [] s s'.
Proof. by intros. Qed.
Lemma spent_app p u es es' s1 s2 s3 : spent p u es s1 s2 → spent p u es' s2 s3 → spent p u (es ++ es') s1 s3.
Proof.
  intros (H1 & F1 & E1) (H2 & F2 & E2). split_and!; [congruence|by apply Forall_app|].
  unfold insert_missing in *. by rewrite foldl_app, <-E1.
Qed.

Lemma append_receipt_spent p u e s : (event_valid e = true → of_run p u e) →
  ∃ events, spent p u events s (append_receipt e s).2 ∧ (length events ≤ 1)%nat
            ∧ (is_ok (append_receipt e s).1 = true → events = [e]).
Proof.
  intros He. unfold append_receipt, crequire, cbind, cget. destruct (event_valid e) eqn:Ev; [|exists []; split_and!; [by apply spent_nil|cbn; lia|done]].
  cbn [cret]. destruct (append [e] (cu_spend s)) as [[n l]|err] eqn:E; [|exists []; split_and!; [by apply spent_nil|cbn; lia|done]].
  exists [e]. split_and!; [|done|done]. split_and!; [done|by constructor; auto|].
  apply append_Ok in E as (_ & _ & _ & _ & -> & _). by rewrite insert_missing_union.
Qed.

(** A computation that leaves at most [n] receipts of the run, one at least
    when it returns. *)
Definition spends (n : nat) (principal_id run_uid : str) {A} (m : CM A) : Prop := ∀ s,
  ∃ events, spent principal_id run_uid events s (m s).2 ∧ (length events ≤ n)%nat ∧ (is_ok (m s).1 = true → events ≠ []).

Lemma spends_after {A B} n p u (m : CM A) (f : A → CM B) :
  leaves beyond m → leaves cu_spend m → (∀ a, spends n p u (f a)) → spends n p u (cbind m f).
Proof.
  intros Hb Hs Hf s. unfold cbind. specialize (Hb s). specialize (Hs s). destruct (m s) as [[a|e] s1]; cbn in *.
  - destruct (Hf a s1) as (es & H & Hl & Ho). exists es. split_and!; [|done|done]. by apply (spent_app p u [] es s s1).
  - exists []. split_and!; [by apply spent_nil|cbn; lia|done].
Qed.
Lemma spends_then {A B} n k p u (m : CM A) (f : A → CM B) :
  spends n p u m → (∀ a s, ∃ events, spent p u events s (f a s).2 ∧ (length events ≤ k)%nat) → spends (n + k) p u (cbind m f).
Proof.
  intros Hm Hf s. unfold cbind. destruct (Hm s) as (es & H & Hl & Ho). destruct (m s) as [[a|e] s1]; cbn in *.
  - destruct (Hf a s1) as (es' & H' & Hl'). exists (es ++ es'). split_and!; [by eapply spent_app|rewrite length_app; lia|].
    intros _ [? _]%app_eq_nil. by apply Ho.
  - exists es. split_and!; [done|lia|done].
Qed.
Lemma spends_raise {A} n p u e : spends n p u (craise (A := A) e).
Proof. intros s. exists []. split_and!; [by apply spent_nil|cbn; lia|done]. Qed.

Lemma receipt_spends p m u model f response payload : spends 1 p u (receipt base_url p m u model f response payload).
Proof.
  unfold receipt. apply spends_after; [auto with curator|done|intros uid]. apply spends_after; [auto with curator|done|intros ts].
  destruct (default None _) as [[c|]|]; [|apply spends_raise|]; intros s;
    match goal with |- context [append_receipt ?e s] =>
      destruct (append_receipt_spent p u e s) as (es & H & Hl & Ho); [by intros Hv|]; exists es; split_and!; [done|done|] end;
    intros Hok E; rewrite Ho in E; done.
Qed.

Lemma verdict_content_spends p m u model f messages : spends 1 p u (verdict_content base_url p m u model f messages).
Proof.
  unfold verdict_content. apply spends_after; [auto with curator|done|intros n].
  destruct (post_verdict _ _) as [response|]; [|apply spends_raise]. destruct (_ || _); [apply spends_raise|].
  destruct (vr_body response) as [payload|]; [|apply spends_raise].
  apply (spends_then 1 0 p u); [apply receipt_spends|]. intros _ s. exists [].
  destruct (content_of payload); (split; [by apply spent_nil|done]).
Qed.

Lemma ask_spends n p m u model f : ∀ messages, spends n p u (ask base_url n p m u model f messages).
Proof.
  induction n as [|n IH]; intros messages; cbn [ask]; [apply spends_raise|].
  apply (spends_then 1 n p u); [apply verdict_content_spends|]. intros content s.
  destruct (verdict_json _ ≫= draft_of); [exists []; split; [by apply spent_nil|cbn; lia]|].
  destruct (IH (messages ++ [message "assistant" content;
    message "user" (lit "That verdict was invalid: " ++ verdict_fault (strip_fence content) ++ lit ". Return the complete JSON verdict.")]) s)
    as (es & H & Hl & _). by exists es.
Qed.

Lemma ask_valid n p m u model f : ∀ messages s d s', ask base_url n p m u model f messages s = (Ok d, s') → draft_ok d = true.
Proof.
  induction n as [|n IH]; intros messages s d s' H; cbn [ask] in H; [done|].
  apply cbind_Ok in H as (content & s1 & _ & H). destruct (verdict_json _ ≫= draft_of) as [draft|] eqn:E; [|by eapply IH].
  injection H as <- _. apply bind_Some in E as (j & _ & E). by eapply draft_of_ok.
Qed.

Lemma run_model_leaves {X} (view : curator_state → X) p u :
  (∀ w s, w_db w = cu_db s → view (set_world w s) = view s) → (∀ x s, view (set_run_models x s) = view s) →
  leaves view (run_model static_model base_url policy_default p u).
Proof.
  intros Hw Hr. assert (leaves view (on_library tick)) by (intros s; by apply Hw).
  unfold run_model, choose_model, of_policy. leave.
Qed.

Lemma verdict_spends f report u m : spends 2 (ph_principal_id report) u (verdict static_model base_url policy_default f report u m).
Proof.
  apply spends_after; [by apply run_model_leaves; [intros w s0 Hw; unfold beyond, cu_db; cbn; rewrite Hw|]|by apply run_model_leaves|].
  intros model. apply ask_spends.
Qed.

(** So the passes may assume of this provider what they assume of any. *)
Lemma openrouter_quiet {BY : Bystanders} : (∀ n s, cu_triggers (meanwhile n s) = cu_triggers s) →
  quiet (VP := openrouter_provider static_model base_url policy_default).
Proof.
  intros Hq. split; [exact Hq|]. intros f report u m s. cbn.
  destruct (verdict_spends f report u m s) as (events & (Hb & _) & _). unfold beyond in Hb. congruence.
Qed.

(** C21: What the judge of a finding leaves behind.  Whatever the endpoint, the
    catalog and the stored policies say, a verdict that comes back obeys its
    contract (a replacement has a label, a body and keywords, a split two
    children, and nothing else carries them); asking for it leaves at least one
    and at most two valid receipts in the ledger, of this run and this Palace,
    and a call that raises at most two; the library, the passes, the cursors,
    the progress and the locks are as they were. *)
Theorem judge_contract (f : HealthFinding) (report : PalaceHealthReport) (run_uid machine_id : str) (s : curator_state) :
  let '(result, s') := verdict static_model base_url policy_default f report run_uid machine_id s in
  (∀ draft, result = Ok draft → draft_ok draft = true)
  ∧ beyond s' = beyond s
  ∧ ∃ events, (length events ≤ 2)%nat ∧ (is_ok result = true → events ≠ [])
      ∧ Forall (of_run (ph_principal_id report) run_uid) events ∧ cu_spend s' = insert_missing events (cu_spend s).
Proof.
  pose proof (verdict_spends f report run_uid machine_id) as H.
  destruct (H s) as (events & (Hb & Hf & Hs) & Hl & Ho).
  destruct (verdict _ _ _ f report run_uid machine_id s) as [result s'] eqn:E. split_and!; [|exact Hb|by exists events].
  intros draft ->. apply cbind_Ok in E as (model & s1 & _ & E). by eapply ask_valid.
Qed.
End provider.
