(* ===== verification/Portability.v ===== *)
(** * Archives of a Palace: [src/src/spine/portability.py]

    The memories of a principal with their revisions, edges, cards and
    decisions leave as one archive and come back whole or not at all.  A row is
    what [row_to_json] of PostgreSQL makes of it, and [json_populate_recordset]
    reads it back: both are parameters. *)
From S2P Require Import Prelude PyStr PyFloat PyJson Ids Store MemoryDb.
Open Scope Z_scope.

Abbreviation jrow := (list (str * json)).

(** [row_to_json], and one row of [json_populate_recordset] without the derived
    [search_tsv]: [None] when a value does not fit its column. *)
Class RowCodec := {
  unit_row : MemoryUnit → jrow; row_unit : jrow → option MemoryUnit;
  revision_row : MemoryRevision → jrow; row_revision : jrow → option MemoryRevision;
  edge_row : MemoryEdge → jrow; row_edge : jrow → option MemoryEdge;
  item_row : ApprovalQueueItem → jrow; row_item : jrow → option ApprovalQueueItem;
  decision_row : ApprovalDecision → jrow; row_decision : jrow → option ApprovalDecision;
}.

Record MemoryArchive := {
  ar_principal_id : str;
  ar_memories : list jrow;
  ar_revisions : list jrow;
  ar_edges : list jrow;
  ar_queue : list jrow;
  ar_decisions : list jrow;
}.

(** ** Export: the five scopes *)
Section scopes.
Context (principal_id : str) (d : db).

Definition holds_unit (id : uuid) : bool :=
  match units d !! id with Some u => bool_decide (m_principal_id u = principal_id) | None => false end.
Definition units_of : gmap uuid MemoryUnit := filter (λ kv, m_principal_id kv.2 = principal_id) (units d).
Definition revisions_of : gmap str MemoryRevision := filter (λ kv, holds_unit (r_memory_id kv.2) = true) (revisions d).
Definition edges_of : gmap str MemoryEdge :=
  filter (λ kv, holds_unit (e_from_memory_id kv.2) = true ∧ holds_unit (e_to_memory_id kv.2) = true) (edges d).
Definition items_of : gmap str ApprovalQueueItem := filter (λ kv, q_principal_id kv.2 = principal_id) (items d).
Definition decisions_of : gmap str ApprovalDecision :=
  filter (λ kv, match items d !! d_item_uid kv.2 with
                | Some q => bool_decide (q_principal_id q = principal_id) | None => false
                end = true) (decisions d).
End scopes.

Section portability.
Context {EN : Env} {RC : RowCodec}.

Definition export (principal_id : str) (d : db) : MemoryArchive := {|
  ar_principal_id := principal_id;
  ar_memories := unit_row <$> rows (units_of principal_id d);
  ar_revisions := revision_row <$> rows (revisions_of principal_id d);
  ar_edges := edge_row <$> rows (edges_of principal_id d);
  ar_queue := item_row <$> rows (items_of principal_id d);
  ar_decisions := decision_row <$> rows (decisions_of principal_id d) |}.

(** ** Import *)
Definition key (name : string) (row : jrow) : json := jget_or_null (lit name) row.

(** A member of a set must be hashable. *)
Definition hash_checked (v : json) : res exn json :=
  match v with JList _ | JObj _ => Err (Builtin (TypeError "unhashable type")) | _ => Ok v end.
Definition key_set (name : string) (l : list jrow) : res exn (list json) := res_map (λ row, hash_checked (key name row)) l.
Definition missing (v : json) (ids : list json) : res exn bool := v ← hash_checked v; Ok (negb (existsb (py_eqb v) ids)).

(** [any(...)], which stops at the first that holds. *)
Fixpoint any_of {A} (f : A → res exn bool) (l : list A) : res exn bool :=
  match l with
  | [] => Ok false
  | x :: l => b ← f x; if (b : bool) then Ok true else any_of f l
  end.
Definition or_else (a : res exn bool) (b : res exn bool) : res exn bool := x ← a; if (x : bool) then Ok true else b.
Definition refuse (found : res exn bool) (msg : string) : res exn unit :=
  b ← found; guard_ (negb b) (Builtin (ValueError msg)).

(** The checks before anything is written. *)
Definition archive_checked (principal_id : str) (a : MemoryArchive) : res exn unit :=
  guard_ (bool_decide (principal_id = ar_principal_id a)) (Builtin (ValueError "The archive belongs to a different principal."));;
  memory_ids ← key_set "id" (ar_memories a);
  revision_ids ← key_set "rev_uid" (ar_revisions a);
  queue_ids ← key_set "item_uid" (ar_queue a);
  refuse (Ok (existsb (λ row, negb (py_eqb (key "principal_id" row) (JStr principal_id))) (ar_memories a ++ ar_queue a)))
    "The archive contains a different principal.";;
  refuse (any_of (λ row, or_else (missing (key "memory_id" row) memory_ids)
            match key "parent_uid" row with JNull => Ok false | parent => missing parent revision_ids end) (ar_revisions a))
    "The archive has incomplete revision lineage.";;
  refuse (any_of (λ row, or_else (missing (key "from_memory_id" row) memory_ids) (missing (key "to_memory_id" row) memory_ids))
            (ar_edges a))
    "The archive has incomplete memory relationships.";;
  refuse (or_else (any_of (λ row, missing (key "candidate_memory_id" row) memory_ids) (ar_queue a))
            (any_of (λ row, missing (key "item_uid" row) queue_ids) (ar_decisions a)))
    "The archive has incomplete review lineage.".

(** [row.setdefault("origin_locations", [])]. *)
Definition with_folders (row : jrow) : jrow :=
  match aget (lit "origin_locations") row with Some _ => row | None => row ++ [(lit "origin_locations", JList [])] end.

(** [INSERT INTO ... SELECT ... FROM json_populate_recordset(...)]. *)
Definition populate {A} (read : jrow → option A) (l : list jrow) : M (list A) :=
  match mapM read l with Some rows => ret rows | None => raise (DataError "json_populate_recordset") end.
Definition insert_all {A B} (insert : A → M B) (l : list A) : M unit := for_each l (λ x, insert x ;! ret tt).

(** A foreign key into the table itself is checked when the statement ends. *)
Definition put_new_revision (r : MemoryRevision) : M unit :=
  d <-! get_db;
  require (bool_decide (revisions d !! r_rev_uid r = None)) (IntegrityError "memory_revision_pkey") ;!
  require (bool_decide (units d !! r_memory_id r ≠ None)) (IntegrityError "memory_revision_memory_id_fkey") ;!
  put_db (set_revisions (<[r_rev_uid r := r]> (revisions d)) d).
Definition parent_known (r : MemoryRevision) : M unit :=
  d <-! get_db;
  require (match r_parent_uid r with None => true | Some p => bool_decide (revisions d !! p ≠ None) end)
    (IntegrityError "memory_revision_parent_uid_fkey").

Definition import_archive (principal_id : str) (a : MemoryArchive) : M (Z * Z * Z) :=
  lift id (archive_checked principal_id a) ;!
  transaction (
    memories <-! populate row_unit (with_folders <$> ar_memories a);
    insert_all insert_unit memories ;!
    revisions <-! populate row_revision (ar_revisions a);
    insert_all put_new_revision revisions ;!
    for_each revisions parent_known ;!
    edges <-! populate row_edge (ar_edges a);
    insert_all insert_edge edges ;!
    queue <-! populate row_item (ar_queue a);
    insert_all insert_item queue ;!
    decisions <-! populate row_decision (ar_decisions a);
    insert_all insert_decision decisions) ;!
  ret (zlen (ar_memories a), zlen (ar_revisions a), zlen (ar_edges a)).
End portability.
