(* ===== verification/PortabilityFacts.v ===== *)
(** * An archive comes back whole or not at all; and a sample:
    a Palace with an edited memory, its neighbour and a card of the curator is
    exported and imported into an empty one. *)
From S2P Require Import Prelude PyStr PyFloat Ids PyJson Store MemoryDb MemoryService Queue PrepareSamples Diagnostics Curation CurationSamples Portability.
Open Scope Z_scope.

(** ** One table, filled row by row *)
Section fill.
Context {K A B : Type} `{Countable K}.
Context (pk : A → K) (get : db → gmap K A) (set : gmap K A → db → db) (insert_ : A → M B).
Context (side : A → db → Prop) (clash : A → A → bool).
Context (get_set : ∀ m d, get (set m d) = m) (set_set : ∀ m m' d, set m' (set m d) = set m' d).
Context (set_get : ∀ d, set (get d) d = d).
Context (side_set : ∀ x m d, side x d → side x (set m d)).
Context (insert_new : ∀ x w, side x (w_db w) → get (w_db w) !! pk x = None →
  (∀ k y, get (w_db w) !! k = Some y → clash x y = false) →
  ∃ b, insert_ x w = (Ok b, with_db (set (<[pk x := x]> (get (w_db w))) (w_db w)) w)).

Definition table_of (l : list A) : gmap K A := list_to_map ((λ x, (pk x, x)) <$> l).

Lemma insert_all_fills l : ∀ w,
  NoDup (pk <$> l) → Forall (λ x, side x (w_db w) ∧ get (w_db w) !! pk x = None) l →
  (∀ x y, x ∈ l → y ∈ l → pk x ≠ pk y → clash x y = false) →
  (∀ x k y, x ∈ l → get (w_db w) !! k = Some y → clash x y = false) →
  insert_all insert_ l w = (Ok tt, with_db (set (table_of l ∪ get (w_db w)) (w_db w)) w).
Proof.
  induction l as [|x l IH]; intros w Hnd Hs Hc Hc'.
  - cbn. unfold table_of. cbn. rewrite map_empty_union, set_get. by destruct w.
  - apply NoDup_cons in Hnd as [Hx Hnd]. apply Forall_cons in Hs as [[Hsx Hgx] Hs].
    destruct (insert_new x w Hsx Hgx) as [b E]; [by intros k y; apply Hc'; left|].
    unfold insert_all in *. cbn [for_each]. unfold bind. rewrite E. cbn [ret]. rewrite IH.
    + cbn [w_db with_db]. rewrite get_set, set_set.
      assert (table_of l ∪ <[pk x := x]> (get (w_db w)) = table_of (x :: l) ∪ get (w_db w)) as ->; [|done].
      change (table_of (x :: l)) with (<[pk x := x]> (table_of l)). rewrite <-insert_union_l. symmetry. apply insert_union_r.
      unfold table_of. apply not_elem_of_list_to_map_1. intros Hin. apply Hx. by rewrite <-list_fmap_compose in Hin.
    + done.
    + apply Forall_forall. intros y Hy. destruct (proj1 (Forall_forall _ _) Hs y Hy) as [Hsy Hgy]. cbn. rewrite get_set. split; [by apply side_set|].
      rewrite lookup_insert_ne; [done|]. intros E'. apply Hx. rewrite E'. by apply list_elem_of_fmap_2.
    + intros y z Hy Hz. by apply Hc; right.
    + intros y k z Hy. cbn. rewrite get_set. destruct (decide (k = pk x)) as [->|Hne].
      * rewrite lookup_insert_eq. intros [= <-]. apply Hc; [by right|by left|]. intros E'. apply Hx. rewrite <-E'. by apply list_elem_of_fmap_2.
      * rewrite lookup_insert_ne by done. apply Hc'. by right.
Qed.
End fill.

Section rows.
Context {K A : Type} `{Countable K} (pk : A → K) (m : gmap K A) (keyed : ∀ k x, m !! k = Some x → pk x = k).

Lemma rows_keys : pk <$> rows m = (map_to_list m).*1.
Proof.
  unfold rows. rewrite <-list_fmap_compose. apply list_fmap_ext. intros i [k x] Hi. cbn.
  apply keyed. by apply elem_of_map_to_list, (list_elem_of_lookup_2 _ i).
Qed.
Lemma rows_NoDup : NoDup (pk <$> rows m).
Proof. rewrite rows_keys. apply NoDup_fst_map_to_list. Qed.
Lemma table_of_rows : table_of pk (rows m) = m.
Proof.
  unfold table_of. transitivity (list_to_map (map_to_list m) : gmap K A); [|apply list_to_map_to_list]. f_equal.
  unfold rows. rewrite <-list_fmap_compose. transitivity (id <$> map_to_list m); [|apply list_fmap_id].
  apply list_fmap_ext. intros i [k x] Hi. cbn. f_equal. by apply keyed, elem_of_map_to_list, (list_elem_of_lookup_2 _ i).
Qed.
End rows.

(** ** The five tables *)
Definition unit_fine (u : MemoryUnit) : bool :=
  Bool.eqb (bool_decide (m_run_id u = None)) (bool_decide (m_origin_agent u = None))
  && negb (bool_decide (m_status u = Sstaged) && bool_decide (m_run_id u = None)).
Definition same_card (q p : ApprovalQueueItem) : bool :=
  some (q_curator_finding_uid q) && bool_decide (q_curator_finding_uid p = q_curator_finding_uid q)
  || bool_decide (q_birthplace q ≠ Bcurator) && (bool_decide (q_birthplace p ≠ Bcurator)
     && (q_candidate_memory_id p =? q_candidate_memory_id q)%N).
Definition same_item (x y : ApprovalDecision) : bool := bool_decide (d_item_uid y = d_item_uid x).

Lemma existsb_rows {K A} `{Countable K} (f : A → bool) (m : gmap K A) :
  (∀ k y, m !! k = Some y → f y = false) → existsb f (rows m) = false.
Proof.
  intros Hf. apply not_true_iff_false. rewrite existsb_exists. intros (y & Hy & E).
  apply list_elem_of_In, elem_rows in Hy as [k Hk]. by rewrite (Hf k y Hk) in E.
Qed.

Section inserts.
Context (w : world).
Notation d := (w_db w).

Lemma insert_unit_new u : unit_fine u = true → units d !! m_id u = None →
  (∀ k v, units d !! k = Some v → same_active_label u v = false) →
  ∃ b, insert_unit u w = (Ok b, with_db (set_units (<[m_id u := u]> (units d)) d) w).
Proof.
  unfold unit_fine. intros [Hp Hs]%andb_true_iff Hn Hl. exists u.
  unfold insert_unit, write_unit, unit_check, bind, get_db, require, label_taken. rewrite Hn, bool_decide_true by done. cbn.
  rewrite Hp. cbn. rewrite Hs. cbn. by rewrite (existsb_rows _ _ Hl).
Qed.
Lemma put_new_revision_new r : units d !! r_memory_id r ≠ None → revisions d !! r_rev_uid r = None →
  ∃ b, put_new_revision r w = (Ok b, with_db (set_revisions (<[r_rev_uid r := r]> (revisions d)) d) w).
Proof. intros Hu Hn. exists tt. unfold put_new_revision, bind, get_db, require. by rewrite !bool_decide_true by done. Qed.
Lemma insert_edge_new e : units d !! e_from_memory_id e ≠ None ∧ units d !! e_to_memory_id e ≠ None → edges d !! e_edge_uid e = None →
  (∀ k f, edges d !! k = Some f → same_edge e f = false) →
  ∃ b, insert_edge e w = (Ok b, with_db (set_edges (<[e_edge_uid e := e]> (edges d)) d) w).
Proof.
  intros [Hf Ht] Hn Hc. exists tt. unfold insert_edge, bind, get_db, require.
  rewrite (bool_decide_true (edges _ !! _ = None)) by done. cbn. rewrite (existsb_rows _ _ Hc). cbn. by rewrite !bool_decide_true by done.
Qed.
Lemma insert_item_new q : item_shape_ok q = true ∧ units d !! q_candidate_memory_id q ≠ None → items d !! q_item_uid q = None →
  (∀ k p, items d !! k = Some p → same_card q p = false) →
  ∃ b, insert_item q w = (Ok b, with_db (set_items (<[q_item_uid q := q]> (items d)) d) w).
Proof.
  intros [Hs Hu] Hn Hc. exists q. unfold insert_item, bind, get_db, require. rewrite Hs. cbn.
  rewrite (bool_decide_true (items _ !! _ = None)) by done. cbn.
  rewrite existsb_rows; cbn.
  2:{ intros k p Hp. specialize (Hc k p Hp). unfold same_card in Hc. by apply orb_false_iff in Hc as [? _]. }
  assert (bool_decide (q_birthplace q ≠ Bcurator) && existsb (λ p, bool_decide (q_birthplace p ≠ Bcurator)
            && (q_candidate_memory_id p =? q_candidate_memory_id q)%N) (rows (items d)) = false) as ->.
  { destruct (bool_decide (q_birthplace q ≠ Bcurator)) eqn:E; [|done]. cbn. apply existsb_rows. intros k p Hp.
    specialize (Hc k p Hp). unfold same_card in Hc. rewrite E in Hc. by apply orb_false_iff in Hc as [_ ?]. }
  cbn. by rewrite bool_decide_true by done.
Qed.
Lemma insert_decision_new x : items d !! d_item_uid x ≠ None → decisions d !! d_decision_uid x = None →
  (∀ k y, decisions d !! k = Some y → same_item x y = false) →
  ∃ b, insert_decision x w = (Ok b, with_db (set_decisions (<[d_decision_uid x := x]> (decisions d)) d) w).
Proof.
  intros Hi Hn Hc. exists tt. unfold insert_decision, bind, get_db, require.
  rewrite (bool_decide_true (decisions _ !! _ = None)) by done. cbn. rewrite existsb_rows by exact Hc. cbn. by rewrite bool_decide_true by done.
Qed.
End inserts.

(** ** What the archive of a principal needs *)
Record whole (p : str) (d : db) : Prop := {
  whole_units : ∀ k u, units d !! k = Some u → m_id u = k ∧ unit_fine u = true;
  whole_labels : ∀ i j u v, units d !! i = Some u → units d !! j = Some v → same_active_label u v = false;
  whole_revisions : ∀ k r, revisions d !! k = Some r → r_rev_uid r = k;
  whole_edges : ∀ k e, edges d !! k = Some e → e_edge_uid e = k;
  whole_edge_pairs : ∀ i j e f, edges d !! i = Some e → edges d !! j = Some f → i ≠ j → same_edge e f = false;
  whole_items : ∀ k q, items d !! k = Some q → q_item_uid q = k ∧ item_shape_ok q = true;
  whole_cards : ∀ i j q r, items d !! i = Some q → items d !! j = Some r → i ≠ j → same_card q r = false;
  whole_decisions : ∀ k x, decisions d !! k = Some x → d_decision_uid x = k;
  whole_decided : ∀ i j x y, decisions d !! i = Some x → decisions d !! j = Some y → i ≠ j → same_item x y = false;
  (** lineage does not leave the principal *)
  whole_parents : ∀ k r q, revisions_of p d !! k = Some r → r_parent_uid r = Some q → is_Some (revisions_of p d !! q);
  whole_candidates : ∀ k q, items_of p d !! k = Some q → holds_unit p d (q_candidate_memory_id q) = true;
}.

Lemma holds_unit_units p d id : holds_unit p d id = true ↔ is_Some (units_of p d !! id).
Proof.
  unfold holds_unit, units_of. destruct (units d !! id) as [u|] eqn:E.
  - rewrite bool_decide_eq_true. split.
    + intros Hp. exists u. by apply map_lookup_filter_Some.
    + intros [v [Hv Hp]%map_lookup_filter_Some]. cbn in Hp. congruence.
  - split; [done|]. intros [v [Hv _]%map_lookup_filter_Some]. congruence.
Qed.

Definition emptied (d : db) : Prop := units d = ∅ ∧ revisions d = ∅ ∧ edges d = ∅ ∧ items d = ∅ ∧ decisions d = ∅.

(** The five tables after an import into an empty Palace. *)
Definition after_import (p : str) (d d0 : db) : db :=
  set_decisions (decisions_of p d) (set_items (items_of p d) (set_edges (edges_of p d)
    (set_revisions (revisions_of p d) (set_units (units_of p d) d0)))).

Section steps.
Context {EN : Env} (p : str) (d : db) (Hw : whole p d).

Lemma units_of_keyed k u : units_of p d !! k = Some u → m_id u = k ∧ unit_fine u = true.
Proof. intros [Hu _]%map_lookup_filter_Some. by eapply whole_units. Qed.
Lemma revisions_of_keyed k r : revisions_of p d !! k = Some r → r_rev_uid r = k.
Proof. intros [Hu _]%map_lookup_filter_Some. by eapply whole_revisions. Qed.
Lemma edges_of_keyed k r : edges_of p d !! k = Some r → e_edge_uid r = k.
Proof. intros [Hu _]%map_lookup_filter_Some. by eapply whole_edges. Qed.
Lemma items_of_keyed k r : items_of p d !! k = Some r → q_item_uid r = k.
Proof. intros [Hu _]%map_lookup_filter_Some. by eapply whole_items. Qed.
Lemma decisions_of_keyed k r : decisions_of p d !! k = Some r → d_decision_uid r = k.
Proof. intros [Hu _]%map_lookup_filter_Some. by eapply whole_decisions. Qed.

Lemma fill_units w : units (w_db w) = ∅ →
  insert_all insert_unit (rows (units_of p d)) w = (Ok tt, with_db (set_units (units_of p d) (w_db w)) w).
Proof.
  intros He. rewrite (insert_all_fills m_id units set_units insert_unit (λ u _, unit_fine u = true) same_active_label); try done.
  - rewrite table_of_rows by apply units_of_keyed. by rewrite He, map_union_empty.
  - by intros [].
  - intros u w'. apply insert_unit_new.
  - apply rows_NoDup, units_of_keyed.
  - apply Forall_forall. intros u [k Hk]%elem_rows. rewrite He. split; [by eapply units_of_keyed|apply lookup_empty].
  - intros u v [i [Hi _]%map_lookup_filter_Some]%elem_rows [j [Hj _]%map_lookup_filter_Some]%elem_rows _. by eapply whole_labels.
  - intros u k v _. by rewrite He, lookup_empty.
Qed.

Lemma fill_revisions w : units (w_db w) = units_of p d → revisions (w_db w) = ∅ →
  insert_all put_new_revision (rows (revisions_of p d)) w = (Ok tt, with_db (set_revisions (revisions_of p d) (w_db w)) w).
Proof.
  intros Hu He. rewrite (insert_all_fills r_rev_uid revisions set_revisions put_new_revision
    (λ r d, units d !! r_memory_id r ≠ None) (λ _ _, false)); try done.
  - rewrite table_of_rows by apply revisions_of_keyed. by rewrite He, map_union_empty.
  - by intros [].
  - intros r w' Hs Hn _. by apply put_new_revision_new.
  - apply rows_NoDup, revisions_of_keyed.
  - apply Forall_forall. intros r [k [_ Ho]%map_lookup_filter_Some]%elem_rows. rewrite He, Hu. split; [|apply lookup_empty].
    apply holds_unit_units in Ho. cbn in Ho. by apply not_eq_None_Some.
Qed.

Lemma parents_known w : revisions (w_db w) = revisions_of p d → for_each (rows (revisions_of p d)) parent_known w = (Ok tt, w).
Proof.
  intros He. assert (Forall (λ r, ∃ k, revisions_of p d !! k = Some r) (rows (revisions_of p d))) as H.
  { apply Forall_forall. by intros r Hr%elem_rows. }
  induction H as [|r l [k Hk] _ IH]; [done|]. cbn [for_each]. unfold bind at 1.
  assert (parent_known r w = (Ok tt, w)) as ->; [|exact IH].
  unfold parent_known, bind, get_db, require. destruct (r_parent_uid r) as [q|] eqn:E; [|done].
  rewrite He, bool_decide_true; [done|]. apply not_eq_None_Some. by eapply whole_parents.
Qed.

Lemma fill_edges w : units (w_db w) = units_of p d → edges (w_db w) = ∅ →
  insert_all insert_edge (rows (edges_of p d)) w = (Ok tt, with_db (set_edges (edges_of p d) (w_db w)) w).
Proof.
  intros Hu He. rewrite (insert_all_fills e_edge_uid edges set_edges insert_edge
    (λ e d, units d !! e_from_memory_id e ≠ None ∧ units d !! e_to_memory_id e ≠ None) same_edge); try done.
  - rewrite table_of_rows by apply edges_of_keyed. by rewrite He, map_union_empty.
  - by intros [].
  - intros e w'. apply insert_edge_new.
  - apply rows_NoDup, edges_of_keyed.
  - apply Forall_forall. intros e [k [_ [Hf Ht]]%map_lookup_filter_Some]%elem_rows. rewrite He, Hu. split; [|apply lookup_empty].
    apply holds_unit_units in Hf, Ht. cbn in *. split; by apply not_eq_None_Some.
  - intros e f [i Hi]%elem_rows [j Hj]%elem_rows Hne. pose proof (edges_of_keyed _ _ Hi). pose proof (edges_of_keyed _ _ Hj).
    apply map_lookup_filter_Some in Hi as [Hi _], Hj as [Hj _]. eapply whole_edge_pairs; [done|exact Hi|exact Hj|congruence].
  - intros e k f _. by rewrite He, lookup_empty.
Qed.

Lemma fill_items w : units (w_db w) = units_of p d → items (w_db w) = ∅ →
  insert_all insert_item (rows (items_of p d)) w = (Ok tt, with_db (set_items (items_of p d) (w_db w)) w).
Proof.
  intros Hu He. rewrite (insert_all_fills q_item_uid items set_items insert_item
    (λ q d, item_shape_ok q = true ∧ units d !! q_candidate_memory_id q ≠ None) same_card); try done.
  - rewrite table_of_rows by apply items_of_keyed. by rewrite He, map_union_empty.
  - by intros [].
  - intros e w'. apply insert_item_new.
  - apply rows_NoDup, items_of_keyed.
  - apply Forall_forall. intros q [k Hk]%elem_rows. rewrite He, Hu. split; [|apply lookup_empty].
    pose proof (whole_candidates _ _ Hw _ _ Hk) as Ho%holds_unit_units. apply map_lookup_filter_Some in Hk as [Hk _].
    split; [by eapply whole_items|by apply not_eq_None_Some].
  - intros e f [i Hi]%elem_rows [j Hj]%elem_rows Hne. pose proof (items_of_keyed _ _ Hi). pose proof (items_of_keyed _ _ Hj).
    apply map_lookup_filter_Some in Hi as [Hi _], Hj as [Hj _]. eapply whole_cards; [done|exact Hi|exact Hj|congruence].
  - intros e k f _. by rewrite He, lookup_empty.
Qed.

Lemma fill_decisions w : items (w_db w) = items_of p d → decisions (w_db w) = ∅ →
  insert_all insert_decision (rows (decisions_of p d)) w = (Ok tt, with_db (set_decisions (decisions_of p d) (w_db w)) w).
Proof.
  intros Hu He. rewrite (insert_all_fills d_decision_uid decisions set_decisions insert_decision
    (λ x d, items d !! d_item_uid x ≠ None) same_item); try done.
  - rewrite table_of_rows by apply decisions_of_keyed. by rewrite He, map_union_empty.
  - by intros [].
  - intros e w'. apply insert_decision_new.
  - apply rows_NoDup, decisions_of_keyed.
  - apply Forall_forall. intros x [k [_ Ho]%map_lookup_filter_Some]%elem_rows. rewrite He, Hu. split; [|apply lookup_empty].
    cbn in Ho. destruct (items d !! d_item_uid x) as [q|] eqn:E; [|done]. apply bool_decide_eq_true in Ho.
    apply not_eq_None_Some. exists q. by apply map_lookup_filter_Some.
  - intros e f [i Hi]%elem_rows [j Hj]%elem_rows Hne. pose proof (decisions_of_keyed _ _ Hi). pose proof (decisions_of_keyed _ _ Hj).
    apply map_lookup_filter_Some in Hi as [Hi _], Hj as [Hj _]. eapply whole_decided; [done|exact Hi|exact Hj|congruence].
  - intros e k f _. by rewrite He, lookup_empty.
Qed.
End steps.

(** ** The texts of an archive *)
Section portability.
Context {EN : Env} {RC : RowCodec}.

(** What PostgreSQL documents of the two functions, for the rows of an archive:
    a row comes back as it left, under the names of its columns. *)
Record faithful_rows (p : str) (d : db) : Prop := {
  faithful_units : ∀ u, u ∈ rows (units_of p d) → row_unit (unit_row u) = Some u
    ∧ key "id" (unit_row u) = JStr (uuid_str (m_id u)) ∧ key "principal_id" (unit_row u) = JStr (m_principal_id u)
    ∧ is_Some (aget (lit "origin_locations") (unit_row u));
  faithful_revisions : ∀ r, r ∈ rows (revisions_of p d) → row_revision (revision_row r) = Some r
    ∧ key "rev_uid" (revision_row r) = JStr (r_rev_uid r) ∧ key "memory_id" (revision_row r) = JStr (uuid_str (r_memory_id r))
    ∧ key "parent_uid" (revision_row r) = from_option JStr JNull (r_parent_uid r);
  faithful_edges : ∀ e, e ∈ rows (edges_of p d) → row_edge (edge_row e) = Some e
    ∧ key "from_memory_id" (edge_row e) = JStr (uuid_str (e_from_memory_id e))
    ∧ key "to_memory_id" (edge_row e) = JStr (uuid_str (e_to_memory_id e));
  faithful_items : ∀ q, q ∈ rows (items_of p d) → row_item (item_row q) = Some q
    ∧ key "item_uid" (item_row q) = JStr (q_item_uid q) ∧ key "principal_id" (item_row q) = JStr (q_principal_id q)
    ∧ key "candidate_memory_id" (item_row q) = JStr (uuid_str (q_candidate_memory_id q));
  faithful_decisions : ∀ x, x ∈ rows (decisions_of p d) → row_decision (decision_row x) = Some x
    ∧ key "item_uid" (decision_row x) = JStr (d_item_uid x);
}.

Lemma key_set_texts {A} (enc : A → jrow) (f : A → str) name l : (∀ x, x ∈ l → key name (enc x) = JStr (f x)) →
  key_set name (enc <$> l) = Ok (JStr ∘ f <$> l).
Proof.
  unfold key_set. induction l as [|x l IH]; intros Hf; [done|]. cbn. rewrite Hf by left. cbn.
  rewrite IH; [done|]. intros y Hy. apply Hf. by right.
Qed.
Lemma missing_known s l : s ∈ l → missing (JStr s) (JStr <$> l) = Ok false.
Proof.
  intros Hs. unfold missing. cbn [hash_checked mbind res_bind]. assert (existsb (py_eqb (JStr s)) (JStr <$> l) = true) as ->; [|done].
  apply existsb_exists. exists (JStr s). split; [by apply list_elem_of_In, list_elem_of_fmap_2|]. cbn. by apply bool_decide_true.
Qed.
Lemma any_of_none {A} (f : A → res exn bool) l : (∀ x, x ∈ l → f x = Ok false) → any_of f l = Ok false.
Proof.
  induction l as [|x l IH]; intros Hf; [done|]. cbn. rewrite Hf by left. cbn. apply IH. intros y Hy. apply Hf. by right.
Qed.
Lemma populate_rows {A} (enc : A → jrow) (read : jrow → option A) l w : (∀ x, x ∈ l → read (enc x) = Some x) →
  populate read (enc <$> l) w = (Ok l, w).
Proof.
  intros Hr. unfold populate. assert (mapM read (enc <$> l) = Some l) as ->; [|done].
  induction l as [|x l IH]; [done|]. cbn. rewrite Hr by left. cbn. rewrite IH; [done|]. intros y Hy. apply Hr. by right.
Qed.

Ltac norm := cbn -[key_set missing any_of existsb uuid_str py_eqb key].
Lemma archive_checks p d : whole p d → faithful_rows p d → archive_checked p (export p d) = Ok tt.
Proof.
  intros Hw [Fu Fr Fe Fq Fd]. unfold archive_checked, export. rewrite bool_decide_true by done. norm.
  rewrite (key_set_texts _ (λ u, uuid_str (m_id u))) by (intros u Hu; by apply Fu).
  rewrite (key_set_texts _ r_rev_uid) by (intros u Hu; by apply Fr). rewrite (key_set_texts _ q_item_uid) by (intros u Hu; by apply Fq).
  norm. set (ids := (λ u, uuid_str (m_id u)) <$> rows (units_of p d)).
  replace (JStr ∘ (λ u, uuid_str (m_id u)) <$> rows (units_of p d)) with (JStr <$> ids) by (unfold ids; by rewrite <-list_fmap_compose).
  rewrite !(list_fmap_compose _ JStr).
  assert (Hid : ∀ id, holds_unit p d id = true → uuid_str id ∈ ids).
  { intros id [u Hu]%holds_unit_units. pose proof (units_of_keyed _ _ Hw _ _ Hu) as [<- _].
    unfold ids. apply list_elem_of_fmap. exists u. split; [done|]. apply elem_rows. by eexists. }
  assert (existsb (λ row, negb (py_eqb (key "principal_id" row) (JStr p)))
            ((unit_row <$> rows (units_of p d)) ++ (item_row <$> rows (items_of p d))) = false) as ->.
  { apply not_true_iff_false. rewrite existsb_exists. intros (row & Hr%list_elem_of_In & E).
    apply elem_of_app in Hr as [(u & -> & Hu)%list_elem_of_fmap|(q & -> & Hq)%list_elem_of_fmap].
    - destruct (Fu u Hu) as (_ & _ & Hk & _). rewrite Hk in E. apply elem_rows in Hu as [k [_ Hp]%map_lookup_filter_Some].
      cbn in Hp. rewrite Hp in E. cbn in E. by rewrite bool_decide_true in E.
    - destruct (Fq q Hq) as (_ & _ & Hk & _). rewrite Hk in E. apply elem_rows in Hq as [k [_ Hp]%map_lookup_filter_Some].
      cbn in Hp. rewrite Hp in E. cbn in E. by rewrite bool_decide_true in E. }
  norm. rewrite (any_of_none _ (revision_row <$> _)); norm.
  2:{ intros row (r & -> & Hr)%list_elem_of_fmap. destruct (Fr r Hr) as (_ & _ & Hm & Hp). rewrite Hm, Hp.
      apply elem_rows in Hr as [k Hk]. rewrite missing_known by (apply Hid; by apply map_lookup_filter_Some in Hk as [_ ?]).
      norm. destruct (r_parent_uid r) as [q|] eqn:E; [|done]. cbn [from_option]. apply missing_known.
      destruct (whole_parents _ _ Hw _ _ _ Hk E) as [r' Hr']. apply list_elem_of_fmap. exists r'.
      split; [symmetry; by eapply revisions_of_keyed|]. apply elem_rows. by eexists. }
  rewrite (any_of_none _ (edge_row <$> _)); norm.
  2:{ intros row (e & -> & He)%list_elem_of_fmap. destruct (Fe e He) as (_ & Hf & Ht). rewrite Hf, Ht.
      apply elem_rows in He as [k [_ [Of Ot]]%map_lookup_filter_Some].
      rewrite missing_known by by apply Hid. norm. by apply missing_known, Hid. }
  rewrite (any_of_none _ (item_row <$> _)); norm.
  2:{ intros row (q & -> & Hq)%list_elem_of_fmap. destruct (Fq q Hq) as (_ & _ & _ & Hc). rewrite Hc.
      apply elem_rows in Hq as [k Hk]. apply missing_known, Hid. by eapply whole_candidates. }
  rewrite (any_of_none _ (decision_row <$> _)); [done|].
  intros row (x & -> & Hx)%list_elem_of_fmap. destruct (Fd x Hx) as (_ & Hi). rewrite Hi. apply missing_known.
  apply elem_rows in Hx as [k [_ Ho]%map_lookup_filter_Some]. cbn in Ho. destruct (items d !! d_item_uid x) as [q|] eqn:E; [|done].
  apply bool_decide_eq_true in Ho. assert (items_of p d !! d_item_uid x = Some q) as Hq by by apply map_lookup_filter_Some.
  apply list_elem_of_fmap. exists q. split; [symmetry; by eapply items_of_keyed|]. apply elem_rows. by eexists.
Qed.

Lemma with_folders_kept row : is_Some (aget (lit "origin_locations") row) → with_folders row = row.
Proof. unfold with_folders. by intros [v ->]. Qed.

Lemma folders_kept p d : faithful_rows p d → with_folders <$> ar_memories (export p d) = ar_memories (export p d).
Proof.
  intros [Fu _ _ _ _]. cbn. rewrite <-list_fmap_compose. apply list_fmap_ext. intros i u Hu. cbn.
  apply with_folders_kept. by apply Fu, (list_elem_of_lookup_2 _ i).
Qed.

Lemma bind_step {A B} (m : M A) (f : A → M B) w a w1 : m w = (Ok a, w1) → bind m f w = f a w1.
Proof. unfold bind. by intros ->. Qed.

Lemma transaction_commits {A} (m : M A) w a w1 : m (begin_tx w) = (Ok a, w1) → transaction m w = (Ok a, leave_tx w w1).
Proof. unfold transaction. by intros ->. Qed.

(** C22: An archive comes back whole.  What a Palace exports for a principal
    whose lineage it holds, an empty Palace accepts: afterwards its five tables
    are exactly the memories, the revisions, the edges, the cards and the
    decisions of that principal, every other table is as it was, and the counts
    are those of the archive. *)
Theorem import_restores (p : str) (d : db) (w : world) :
  whole p d → faithful_rows p d → emptied (w_db w) →
  ∃ w', import_archive p (export p d) w
        = (Ok (zlen (rows (units_of p d)), zlen (rows (revisions_of p d)), zlen (rows (edges_of p d))), w')
        ∧ w_db w' = after_import p d (w_db w).
Proof.
  intros Hw Hf (Eu & Er & Ee & Ei & Ed). unfold import_archive.
  rewrite (bind_step _ _ w tt w) by by rewrite archive_checks.
  pose proof Hf as [Fu Fr Fe Fq Fd].
  set (w0 := begin_tx w). assert (w_db w0 = w_db w) as E0 by done.
  set (w1 := with_db (set_units (units_of p d) (w_db w0)) w0).
  set (w2 := with_db (set_revisions (revisions_of p d) (w_db w1)) w1).
  set (w3 := with_db (set_edges (edges_of p d) (w_db w2)) w2).
  set (w4 := with_db (set_items (items_of p d) (w_db w3)) w3).
  set (w5 := with_db (set_decisions (decisions_of p d) (w_db w4)) w4).
  match goal with |- context [transaction ?m] => assert (m w0 = (Ok tt, w5)) as Em end.
  { rewrite folders_kept by done. cbn [export ar_memories ar_revisions ar_edges ar_queue ar_decisions].
    rewrite (bind_step _ _ _ _ _ (populate_rows unit_row row_unit _ w0 (λ u Hu, proj1 (Fu u Hu)))).
    rewrite (bind_step _ _ _ _ _ (fill_units p d Hw w0 Eu)).
    rewrite (bind_step _ _ _ _ _ (populate_rows revision_row row_revision _ w1 (λ u Hu, proj1 (Fr u Hu)))).
    rewrite (bind_step _ _ _ _ _ (fill_revisions p d Hw w1 eq_refl Er)).
    rewrite (bind_step _ _ _ _ _ (parents_known p d Hw w2 eq_refl)).
    rewrite (bind_step _ _ _ _ _ (populate_rows edge_row row_edge _ w2 (λ u Hu, proj1 (Fe u Hu)))).
    rewrite (bind_step _ _ _ _ _ (fill_edges p d Hw w2 eq_refl Ee)).
    rewrite (bind_step _ _ _ _ _ (populate_rows item_row row_item _ w3 (λ u Hu, proj1 (Fq u Hu)))).
    rewrite (bind_step _ _ _ _ _ (fill_items p d Hw w3 eq_refl Ei)).
    rewrite (bind_step _ _ _ _ _ (populate_rows decision_row row_decision _ w4 (λ u Hu, proj1 (Fd u Hu)))).
    exact (fill_decisions p d Hw w4 eq_refl Ed). }
  eexists. split.
  - rewrite (bind_step _ _ _ _ _ (transaction_commits _ _ _ _ Em)). unfold ret, export. cbn [ar_memories ar_revisions ar_edges].
    unfold zlen. by rewrite !length_fmap.
  - done.
Qed.

(** ** What an import may change *)
(** A column of a text type reads the text under its name. *)
Definition columns_read : Prop :=
  (∀ row u s, row_unit row = Some u → key "principal_id" row = JStr s → m_principal_id u = s)
  ∧ (∀ row q s, row_item row = Some q → key "principal_id" row = JStr s → q_principal_id q = s).

Record grows (p : str) (d d' : db) : Prop := {
  grows_units : units d ⊆ units d'; grows_revisions : revisions d ⊆ revisions d'; grows_edges : edges d ⊆ edges d';
  grows_items : items d ⊆ items d'; grows_decisions : decisions d ⊆ decisions d';
  grows_rest : (threads d', events d', next_event_id d', scorer_configs d', curator_verdicts d', curator_actions d')
    = (threads d, events d, next_event_id d, scorer_configs d, curator_verdicts d, curator_actions d);
  grows_own_units : ∀ k u, units d' !! k = Some u → units d !! k = Some u ∨ m_principal_id u = p;
  grows_own_items : ∀ k q, items d' !! k = Some q → items d !! k = Some q ∨ q_principal_id q = p;
}.

Lemma grows_refl p d : grows p d d.
Proof. split; auto. Qed.
Lemma grows_trans p d1 d2 d3 : grows p d1 d2 → grows p d2 d3 → grows p d1 d3.
Proof.
  intros [] []. split; [by etrans..| |].
  - intros k u [Hu|]%grows_own_units1; auto.
  - intros k u [Hu|]%grows_own_items1; auto.
Qed.

Ltac table_ops H := unfold insert_unit, write_unit, unit_check, put_new_revision, insert_edge, insert_item, insert_decision in H;
  run_inv; unfold put_db in *; simplify_eq; breflect.

Lemma insert_unit_grows p u w b w' : m_principal_id u = p → insert_unit u w = (Ok b, w') → grows p (w_db w) (w_db w').
Proof.
  intros Hp H. table_ops H. split; cbn; auto; [by apply insert_subseteq|].
  intros k v [[_ <-]|[_ Hv]]%lookup_insert_Some; auto.
Qed.
Lemma put_new_revision_grows p r w b w' : put_new_revision r w = (Ok b, w') → grows p (w_db w) (w_db w').
Proof. intros H. table_ops H. split; cbn; auto; by apply insert_subseteq. Qed.
Lemma parent_known_grows p r w b w' : parent_known r w = (Ok b, w') → grows p (w_db w) (w_db w').
Proof. intros H. unfold parent_known in H. run_inv. simplify_eq. apply grows_refl. Qed.
Lemma insert_edge_grows p e w b w' : insert_edge e w = (Ok b, w') → grows p (w_db w) (w_db w').
Proof. intros H. table_ops H. split; cbn; auto; by apply insert_subseteq. Qed.
Lemma insert_item_grows p q w b w' : q_principal_id q = p → insert_item q w = (Ok b, w') → grows p (w_db w) (w_db w').
Proof.
  intros Hp H. table_ops H. split; cbn; auto; [by apply insert_subseteq|].
  intros k v [[_ <-]|[_ Hv]]%lookup_insert_Some; auto.
Qed.
Lemma insert_decision_grows p x w b w' : insert_decision x w = (Ok b, w') → grows p (w_db w) (w_db w').
Proof. intros H. table_ops H. split; cbn; auto; by apply insert_subseteq. Qed.

Lemma for_each_grows {A} p (body : A → M unit) l :
  Forall (λ x, ∀ w b w', body x w = (Ok b, w') → grows p (w_db w) (w_db w')) l →
  ∀ w b w', for_each l body w = (Ok b, w') → grows p (w_db w) (w_db w').
Proof.
  induction 1 as [|x l Hx _ IH]; intros w b w' H; cbn in H; [injection H as _ <-; apply grows_refl|].
  apply bind_ok in H as ([] & w1 & H1 & H2). eapply grows_trans; [by eapply Hx|by eapply IH].
Qed.
Lemma insert_all_grows {A B} p (insert_ : A → M B) l :
  Forall (λ x, ∀ w b w', insert_ x w = (Ok b, w') → grows p (w_db w) (w_db w')) l →
  ∀ w b w', insert_all insert_ l w = (Ok b, w') → grows p (w_db w) (w_db w').
Proof.
  intros Hl. apply for_each_grows. eapply Forall_impl; [exact Hl|]. intros x Hx w b w' H.
  apply bind_ok in H as (b' & w1 & H1 & [= _ <-]). by eapply Hx.
Qed.

Lemma populate_Ok {A} (read : jrow → option A) l w rows w' : populate read l w = (Ok rows, w') → w' = w ∧ Forall2 (λ row x, read row = Some x) l rows.
Proof.
  unfold populate. destruct (mapM read l) as [xs|] eqn:E; [|done]. intros [= <- <-]. split; [done|]. by apply mapM_Some.
Qed.

Lemma aget_snoc_ne (k k' : str) (v : json) l : k ≠ k' → aget k (l ++ [(k', v)]) = aget k l.
Proof. intros Hne. induction l as [|[j x] l IH]; cbn; [by rewrite decide_False|]. by destruct (decide (k = j)). Qed.
Lemma key_with_folders name row : lit name ≠ lit "origin_locations" → key name (with_folders row) = key name row.
Proof.
  intros Hne. unfold key, jget_or_null, with_folders. destruct (aget (lit "origin_locations") row); [done|].
  by rewrite aget_snoc_ne.
Qed.
Lemma py_eqb_text v s : py_eqb v (JStr s) = true → v = JStr s.
Proof. destruct v; cbn; try done. by intros ->%bool_decide_eq_true. Qed.

Lemma checked_principal p a : archive_checked p a = Ok tt →
  Forall (λ row, key "principal_id" row = JStr p) (ar_memories a) ∧ Forall (λ row, key "principal_id" row = JStr p) (ar_queue a).
Proof.
  unfold archive_checked. intros H. apply bind_Ok in H as ([] & _ & H). apply bind_Ok in H as (? & _ & H).
  apply bind_Ok in H as (? & _ & H). apply bind_Ok in H as (? & _ & H). apply bind_Ok in H as ([] & H & _).
  unfold refuse in H. apply bind_Ok in H as (b & [= <-] & H). apply guard_Ok, negb_true_iff in H.
  assert (Forall (λ row, key "principal_id" row = JStr p) (ar_memories a ++ ar_queue a)) as Hall; [|by apply Forall_app].
  apply Forall_forall. intros row Hr. apply py_eqb_text. apply not_false_iff_true. intros E.
  apply not_true_iff_false in H. apply H, existsb_exists. exists row. split; [by apply list_elem_of_In|by rewrite E].
Qed.

(** C23: An import is all or nothing, and stays in its Palace.  Whatever the
    archive holds, an import that raises leaves every table as it was; one that
    returns adds rows to the five tables, removes and rewrites none, and every
    memory and every card it adds belongs to the principal it was asked for. *)
Theorem import_all_or_nothing (p : str) (a : MemoryArchive) (w : world) :
  columns_read →
  let '(r, w') := import_archive p a w in
  match r with Ok _ => grows p (w_db w) (w_db w') | Err _ => w_db w' = w_db w end.
Proof.
  intros [Hcu Hcq]. destruct (import_archive p a w) as [[counts|e] w'] eqn:E; unfold import_archive in E.
  - apply bind_ok in E as ([] & w1 & Hc & E). unfold lift in Hc. destruct (archive_checked p a) as [[]|] eqn:Ea; [|done].
    injection Hc as <-. apply checked_principal in Ea as [Hm Hq].
    apply bind_ok in E as ([] & w2 & Ht & [= _ <-]). unfold transaction in Ht. case_match eqn:E; destruct r as [[]|]; [|done].
    injection Ht as <-. cbn. change (w_db w) with (w_db (begin_tx w)).
    apply bind_ok in E as (us & wa & [-> Hus]%populate_Ok & E). apply bind_ok in E as ([] & w1 & E1 & E).
    apply bind_ok in E as (rs & wa & [-> Hrs]%populate_Ok & E). apply bind_ok in E as ([] & w2 & E2 & E).
    apply bind_ok in E as ([] & w3 & E3 & E).
    apply bind_ok in E as (es & wa & [-> Hes]%populate_Ok & E). apply bind_ok in E as ([] & w4 & E4 & E).
    apply bind_ok in E as (qs & wa & [-> Hqs]%populate_Ok & E). apply bind_ok in E as ([] & w5 & E5 & E).
    apply bind_ok in E as (xs & wa & [-> Hxs]%populate_Ok & E).
    eapply grows_trans; [eapply insert_all_grows; [|exact E1]|]; [|eapply grows_trans; [eapply insert_all_grows; [|exact E2]|]];
      [| |eapply grows_trans; [eapply for_each_grows; [|exact E3]|]]; [| | |eapply grows_trans; [eapply insert_all_grows; [|exact E4]|]];
      [| | | |eapply grows_trans; [eapply insert_all_grows; [|exact E5]|eapply insert_all_grows; [|exact E]]].
    + apply Forall_forall. intros u Hu w'' b w3'. apply insert_unit_grows.
      apply list_elem_of_lookup in Hu as [i Hi]. destruct (Forall2_lookup_r _ _ _ _ _ Hus Hi) as (row & Hrow & Hr).
      apply list_lookup_fmap_Some in Hrow as (row0 & -> & H0). eapply Hcu; [exact Hr|].
      rewrite key_with_folders by (by vm_compute). by eapply (Forall_lookup_1 _ _ _ _ Hm).
    + apply Forall_forall. intros r _ w'' b w3'. apply put_new_revision_grows.
    + apply Forall_forall. intros r _ w'' b w3'. apply parent_known_grows.
    + apply Forall_forall. intros r _ w'' b w3'. apply insert_edge_grows.
    + apply Forall_forall. intros q Hu w'' b w3'. apply insert_item_grows.
      apply list_elem_of_lookup in Hu as [i Hi]. destruct (Forall2_lookup_r _ _ _ _ _ Hqs Hi) as (row & Hrow & Hr).
      eapply Hcq; [exact Hr|]. by eapply (Forall_lookup_1 _ _ _ _ Hq).
    + apply Forall_forall. intros r _ w'' b w3'. apply insert_decision_grows.
  - apply bind_err in E as [E|([] & w1 & Hc & E)].
    + unfold lift in E. destruct (archive_checked p a); [done|]. by injection E as _ <-.
    + unfold lift in Hc. destruct (archive_checked p a); [|done]. injection Hc as _ <-.
      apply bind_err in E as [E|([] & w2 & _ & E)]; [|done]. unfold transaction in E. case_match; destruct r; [done|].
      by injection E as _ <-.
Qed.
End portability.

(** ** A sample archive *)
Definition archived_units : list MemoryUnit := [fact 1 2; fact 2 1].
Definition archived_revision (uid : str) (id : uuid) (n : Z) (parent : option str) : MemoryRevision := {|
  r_rev_uid := uid; r_parent_uid := parent; r_memory_id := id; r_revision := Some n; r_body := lit "green"; r_label := lit "tea";
  r_editor := lit "user"; r_origin_machine_id := lit "m"; r_reason := lit "edit"; r_ts := n |}.
Definition archived_revisions : list MemoryRevision :=
  [archived_revision (lit "r1") 1 1 None; archived_revision (lit "r2") 1 2 (Some (lit "r1")); archived_revision (lit "r3") 2 1 None].
Definition archived_edge : MemoryEdge := {|
  e_edge_uid := lit "e1"; e_from_memory_id := 1; e_to_memory_id := 2; e_edge_type := relates_to; e_created_at := 0 |}.
Definition archived_card : ApprovalQueueItem := curator_item (lit "run") (lit "f1") (lit "p") Vcontradict [] (fact 1 2) [] [2%N] (lit "q1") 0.
Definition archived_verdict : CuratorVerdict := {|
  Store.cv_verdict_uid := lit "v1"; Store.cv_finding_uid := lit "f1"; Store.cv_action := lit "contradict"; Store.cv_rationale := lit "why";
  Store.cv_proposal := []; Store.cv_created_at := 0 |}.

Definition archived : db := {|
  units := list_to_map ((λ u, (m_id u, u)) <$> archived_units);
  revisions := list_to_map ((λ r, (r_rev_uid r, r)) <$> archived_revisions);
  edges := {[lit "e1" := archived_edge]}; items := {[lit "q1" := archived_card]}; decisions := ∅; threads := ∅; events := ∅;
  next_event_id := 1; scorer_configs := ∅; curator_verdicts := {[lit "v1" := archived_verdict]}; curator_actions := ∅ |}.

(** A codec for these rows: the columns the import reads, and the row itself by
    its key. *)
Definition text_of (name : string) (row : jrow) : str := default [] (as_str (key name row)).
Definition sample_codec : RowCodec := {|
  unit_row := λ u, [(lit "id", JStr (uuid_str (m_id u))); (lit "principal_id", JStr (m_principal_id u)); (lit "origin_locations", JList [])];
  row_unit := λ row, find (λ u, bool_decide (uuid_str (m_id u) = text_of "id" row ∧ m_principal_id u = text_of "principal_id" row)) archived_units;
  revision_row := λ r, [(lit "rev_uid", JStr (r_rev_uid r)); (lit "memory_id", JStr (uuid_str (r_memory_id r)));
                        (lit "parent_uid", from_option JStr JNull (r_parent_uid r))];
  row_revision := λ row, find (λ r, bool_decide (r_rev_uid r = text_of "rev_uid" row)) archived_revisions;
  edge_row := λ e, [(lit "from_memory_id", JStr (uuid_str (e_from_memory_id e))); (lit "to_memory_id", JStr (uuid_str (e_to_memory_id e)))];
  row_edge := λ row, find (λ e, bool_decide (uuid_str (e_from_memory_id e) = text_of "from_memory_id" row)) [archived_edge];
  item_row := λ q, [(lit "item_uid", JStr (q_item_uid q)); (lit "principal_id", JStr (q_principal_id q));
                    (lit "candidate_memory_id", JStr (uuid_str (q_candidate_memory_id q)))];
  row_item := λ row, find (λ q, bool_decide (q_item_uid q = text_of "item_uid" row ∧ q_principal_id q = text_of "principal_id" row)) [archived_card];
  decision_row := λ x, [(lit "item_uid", JStr (d_item_uid x))];
  row_decision := λ _, None |}.
#[local] Existing Instances sample_codec sample_env.

(** *** The archive is whole *)
Definition pairwise {K A} `{Countable K} (clash : A → A → bool) (m : gmap K A) : Prop :=
  map_Forall (λ i x, map_Forall (λ j y, i = j ∨ clash x y = false) m) m.
Lemma pairwise_use {K A} `{Countable K} (clash : A → A → bool) (m : gmap K A) i j x y :
  pairwise clash m → m !! i = Some x → m !! j = Some y → i ≠ j → clash x y = false.
Proof. intros Hp Hi Hj Hne. by destruct (Hp i x Hi j y Hj). Qed.
Ltac compute_map := unfold pairwise; refine (bool_decide_unpack _ _); vm_compute; exact I.

Lemma archived_whole : whole (lit "p") archived.
Proof.
  split.
  - change (map_Forall (λ k u, m_id u = k ∧ unit_fine u = true) (units archived)). compute_map.
  - assert (map_Forall (λ _ u, map_Forall (λ _ v, same_active_label u v = false) (units archived)) (units archived)) as H.
    { compute_map. }
    intros i j u v Hi Hj. exact (H i u Hi j v Hj).
  - change (map_Forall (λ k r, r_rev_uid r = k) (revisions archived)). compute_map.
  - change (map_Forall (λ k e, e_edge_uid e = k) (edges archived)). compute_map.
  - intros i j e f. apply pairwise_use. compute_map.
  - change (map_Forall (λ k q, q_item_uid q = k ∧ item_shape_ok q = true) (items archived)). compute_map.
  - intros i j e f. apply pairwise_use. compute_map.
  - change (map_Forall (λ k x, d_decision_uid x = k) (decisions archived)). compute_map.
  - intros i j e f. apply pairwise_use. compute_map.
  - assert (map_Forall (λ _ r, match r_parent_uid r with
                               | Some q => bool_decide (is_Some (revisions_of (lit "p") archived !! q)) | None => true
                               end = true) (revisions_of (lit "p") archived)) as H.
    { compute_map. }
    intros k r q Hr Hq. specialize (H k r Hr). cbn beta in H. rewrite Hq in H. by apply bool_decide_eq_true in H.
  - change (map_Forall (λ _ q, holds_unit (lit "p") archived (q_candidate_memory_id q) = true) (items_of (lit "p") archived)). compute_map.
Qed.

Lemma archived_unit u : u ∈ rows (units_of (lit "p") archived) → u ∈ archived_units.
Proof.
  intros [k [Hk _]%map_lookup_filter_Some]%elem_rows. apply elem_of_list_to_map_2, list_elem_of_fmap in Hk as (v & [= -> ->] & H). exact H.
Qed.
Lemma archived_rev r : r ∈ rows (revisions_of (lit "p") archived) → r ∈ archived_revisions.
Proof.
  intros [k [Hk _]%map_lookup_filter_Some]%elem_rows. apply elem_of_list_to_map_2, list_elem_of_fmap in Hk as (v & [= -> ->] & H). exact H.
Qed.

Lemma archived_faithful : faithful_rows (lit "p") archived.
Proof.
  split.
  - intros u Hu%archived_unit. revert u Hu. apply Forall_forall. repeat apply Forall_cons_2; [..|apply Forall_nil_2];
      (split; [vm_compute; reflexivity|split; [reflexivity|split; [reflexivity|by eexists]]]).
  - intros u Hu%archived_rev. revert u Hu. apply Forall_forall. repeat apply Forall_cons_2; [..|apply Forall_nil_2];
      (split; [vm_compute; reflexivity|split; [reflexivity|split; reflexivity]]).
  - intros e [k [Hk _]%map_lookup_filter_Some]%elem_rows. change (({[lit "e1" := archived_edge]} : gmap str MemoryEdge) !! k = Some e) in Hk.
    apply lookup_singleton_Some in Hk as [<- <-]. split; [vm_compute; reflexivity|split; reflexivity].
  - intros e [k [Hk _]%map_lookup_filter_Some]%elem_rows. change (({[lit "q1" := archived_card]} : gmap str ApprovalQueueItem) !! k = Some e) in Hk.
    apply lookup_singleton_Some in Hk as [<- <-]. split; [vm_compute; reflexivity|split; [reflexivity|split; reflexivity]].
  - intros x [k [Hk _]%map_lookup_filter_Some]%elem_rows. change ((∅ : gmap str ApprovalDecision) !! k = Some x) in Hk. by rewrite lookup_empty in Hk.
Qed.

Definition fresh_world : world := {| w_db := empty_db; w_tick := 0; w_tx_now := 0; w_in_tx := false |}.

Lemma import_restores_witness : emptied empty_db ∧
  ∃ w', import_archive (lit "p") (export (lit "p") archived) fresh_world
        = (Ok (zlen (rows (units_of (lit "p") archived)), zlen (rows (revisions_of (lit "p") archived)), zlen (rows (edges_of (lit "p") archived))), w')
        ∧ w_db w' = after_import (lit "p") archived empty_db.
Proof.
  split; [by split_and!|]. apply import_restores; [apply archived_whole|apply archived_faithful|by split_and!].
Defined.

Lemma sample_columns : columns_read.
Proof.
  split; intros row x s; cbn [row_unit row_item sample_codec]; intros [_ E]%find_some Hk; apply bool_decide_eq_true in E as [_ ->];
    unfold text_of; by rewrite Hk.
Qed.

Lemma import_all_or_nothing_witness : columns_read ∧
  let '(r, w') := import_archive (lit "p") (export (lit "p") archived) fresh_world in
  match r with Ok _ => grows (lit "p") (w_db fresh_world) (w_db w') | Err _ => w_db w' = w_db fresh_world end.
Proof. split; [apply sample_columns|]. apply import_all_or_nothing, sample_columns. Defined.

(** An archive has the cards of the curator but not the verdicts behind them:
    an owner can give feedback on the card, and after the import no longer. *)
Definition owner_note : QueueFeedbackRequest := {| qf_feedback := lit "no"; qf_machine_id := lit "m" |}.
Definition in_world (d : db) : world := {| w_db := d; w_tick := 0; w_tx_now := 0; w_in_tx := false |}.
Theorem imported_card_mute :
  is_ok (queue_feedback (lit "q1") owner_note (in_world archived)).1 = true
  ∧ items (after_import (lit "p") archived empty_db) !! lit "q1" = Some archived_card
  ∧ (queue_feedback (lit "q1") owner_note (in_world (after_import (lit "p") archived empty_db))).1 = Err QueueNotFoundError.
Proof. split_and!; vm_compute; reflexivity. Qed.
